(* ===== verification/_CoqProject ===== *)
-Q . S2P
Prelude.v
Task.v
TaskFlags.v
Notifiers.v
Checks.v
PhysAddr.v
TaskGroup.v
Bandwidth.v
BandwidthSpec.v
BandwidthSet.v
Segments.v
Threads.v
KernelApi.v
Prio.v
Rq.v
RqClock.v
Settings.v
Uclamp.v
UclampFacts.v
UclampInv.v
UclampTrace.v
UclampAttr.v
GroupClamps.v
GroupClampsSpec.v
RemoteTick.v
State.v
Sched.v
SchedFacts.v
AtomicFlags.v
ScheduleSpec.v
Machine.v
GroupClampsWrite.v
GroupLife.v
SwitchCount.v
Setprio.v
Views.v
TaskLock.v
SetprioSpec.v
SetschedSpec.v
SetprioDemo.v
Reweight.v
SetschedUser.v
Affinity.v
Waiting.v
AffinitySpec.v
GroupMove.v
GroupTasks.v
Ttwu.v
TtwuSpec.v
Landing.v
Keeps.v
WakeQ.v
TtwuDemo.v
WakeStats.v
Tick.v
TickSpec.v
TickDemo.v
Exclusive.v
Resched.v
Pending.v
Sleepers.v
Rendezvous.v
Dying.v
Fork.v
ForkSpec.v
Hotplug.v
HotplugSpec.v
QueueView.v
Evacuate.v
HotplugDemo.v
Boot.v
BootSpec.v
