(* ===== verification/Prelude.v ===== *)
(** * linux_os_2022: a verification library for the course kernel (Linux 5.8.1)

    The repository holds the changes of an operating systems course to Linux
    5.8.1: system calls of its own (hw1, hw3), user programs that call them, and
    the two kernel files in which the last assignment counts process switches,
    [kernel/sched/core.c] and [include/linux/sched.h] (below
    hw3/question_2/my_call/, here core.c and sched.h).  Most of the code is
    core.c, and so is most of this library.

    ** The parts and their files

    - Basics.  [Prelude]: wrapped machine integers, record update, sums over
      maps.  [Task]: sched.h, the states, flags and fields of [task_struct].
      [TaskFlags]: sched.h, the macros and small functions on per-process,
      atomic and thread flags, ids and restartable sequences.
      [KernelApi]: constants and small pure helpers of headers that are not in
      the tree, as classes with their laws, and the values of Linux 5.8, for
      which the laws are proved.  [Rq]: [struct rq].
    - System calls of the course.  [PhysAddr] (my_other_get_phy_addr.c),
      [Segments] (my_get_segment.c, test_multi_thread.c, test_single_thread.c),
      [SwitchCount] (start_/stop_to_count_number_of_process_switches.c,
      my_get_cpu_number.c and the counter in [__schedule]).  [Threads]: the
      pthread programs of hw1/multihread_c_examples.
    - Pure parts of core.c.  [Prio]: weights, priorities, cgroup weight files.
      [RqClock]: [update_rq_clock].  [Uclamp], proofs in [UclampFacts],
      [UclampInv], [UclampTrace], [UclampAttr]: utilization clamps.
      [TaskGroup]: [walk_tg_tree_from].  [Bandwidth], proofs in
      [BandwidthSpec], [BandwidthSet]: cpu.cfs_quota_us, cpu.cfs_period_us and
      cpu.max.  [GroupClamps], proofs in [GroupClampsSpec],
      [GroupClampsWrite]: cpu.uclamp.min and cpu.uclamp.max.  [GroupLife]: groups
      created, put into the tree and freed.  [Settings]: static keys, sysctls,
      cpu.shares, the real-time knobs, cpu.stat.  [Notifiers]: preemption
      notifiers.  [Checks]: [___might_sleep], [__schedule_bug] and task dumps.
    - The machine.  [State]: all tasks, all run queues, what a CPU keeps for
      itself, locks, the outcome monad [M] and the scheduling classes as the
      interface [SchedClassOps] with the laws [SchedClassLaws].
    - The scheduler.  [Sched] (queueing, picking, [__schedule] and its callers),
      [SchedFacts] (totality and frames), [AtomicFlags] (the cmpxchg loops that
      mark a task), [ScheduleSpec] (specification and refinement).  [Setprio],
      [TaskLock], [SetprioSpec], [Reweight], [SetschedSpec], [SetschedUser]: nice
      levels and the weights they give, priority inheritance,
      [__sched_setscheduler] and the system calls in front of it.  [Affinity], [AffinitySpec]: masks,
      migration, choosing a CPU, yielding.  [Waiting]: I/O waits,
      [wait_task_inactive], [yield_to].  [Resched]: conditional rescheduling.
      [GroupMove]: tasks that change group.  [GroupTasks]: a group's new clamps
      reach its tasks.  [Ttwu], [TtwuSpec],
      [Landing], [WakeQ], [Pending]: waking, the run queue a woken task ends on,
      wake queues, wakeups finished by another CPU.
      [WakeStats]: [ttwu_stat].  [Rendezvous]: a task that waits for a condition,
      and its waker, as sched.h documents at [set_current_state].  [Dying]: the
      last call of a task.  [Fork], [ForkSpec]: new tasks.  [Tick], [TickSpec], [RemoteTick]: ticks, idle
      CPUs, the work that ticks for CPUs without a tick.  [Hotplug],
      [HotplugSpec], [Evacuate]: CPUs that come and go.  [Boot], [BootSpec]:
      [sched_init] and the idle threads.
    - Views and histories.  [Views] is a calculus for calls that leave a part of the
      state alone, for any value read off tasks and run queues; [Landing] uses it
      for the CPU of a task, [QueueView] for where tasks wait and how many a run
      queue counts, [Reweight] for weights.  [Keeps] is one for who runs where.
      [Exclusive], [SwitchCount], [Sleepers], [WakeStats],
      [Rendezvous] and [Dying] are about histories in which the CPUs' calls interleave;
      [BootSpec] proves that boot ends in a state such histories start from.
    - Examples.  [Machine], [SetprioDemo], [TtwuDemo], [TickDemo] and
      [HotplugDemo] instantiate every interface with small machines, prove its
      laws for them, and apply the theorems.

    Definitions have the names of the C functions.  A C function that was too
    long for one definition is split at its labels and loop bodies; a function
    that is called with a lock held has no lock of its own here either.

    ** How C is modelled

    Integers are [Z], and each place where C wraps around or truncates says so
    with [u32], [u64], [s32] or [s64].  A task is named by a [ptr]; tasks and run
    queues are maps in [kstate], so that aliasing is equality of names.  The code
    of one CPU runs to completion between two events of a history.  [M A] is
    [kstate -> outcome A]: [Ok] with a result and a state; [Bug] for BUG(), a
    NULL dereference or an access out of range; [Hang] for a lock taken twice or
    a wait that only another CPU could end.  The refinement theorems prove [Ok]:
    they are theorems of total correctness, locks released included.

    ** What the theorems show

    - Scheduling: [schedule_refines] ([__schedule] implements a pure
      specification), [one_cpu_per_task] (at every point of every history no task
      runs on two CPUs), [death_is_final] (a task that ended never runs or waits
      for a CPU again), [cond_resched_serves] (a marked task is rescheduled, and
      again only if a balance callback marked the next one), [flag_calls_atomic]
      (the loops that mark a task are atomic whatever changes its flags meanwhile,
      and end),
      [boot_makes_ready] (from a cold machine boot reaches the state that the
      theorems about histories assume, and their invariants hold from there on).
    - Counting: [stop_returns_switches] (what the system call returns is the
      number of times the task was switched in, modulo 2^32),
      [switches_conserved], [sleepers_accounted] (the counts of tasks in I/O and
      of uninterruptible sleepers, summed over the machine),
      [wakeups_are_counted] (the statistics of wakeups add up).
    - Clamps: [uclamp_rq_value_correct] and [uclamp_rq_accesses_in_range] over the
      whole life of a run queue, the exact condition on the bucket count that
      makes accesses go out of range ([uclamp_bucket_overflow]), the idle flag
      that [uclamp_update_active] leaves set, sysctl and attributes.
    - Priorities: [set_user_nice_refines] (priorities, and the load of the task and
      of the queue it is put back on), [rt_mutex_setprio_refines],
      [sched_setscheduler_refines], what an unprivileged caller cannot obtain
      ([setscheduler_unprivileged]), [sys_sched_setattr_safe],
      [setattr_getattr_roundtrip] (what one system call sets the other reports).
    - Waking and moving: [try_to_wake_up_refines] (with the run queue the task is
      on at the end), [wakeup_is_carried_out] (a
      wakeup handed to another CPU ends in a runnable task), [no_lost_wakeup] (a
      task that waits as documented is never left asleep by its waker),
      [wake_queue_fifo], [set_cpus_allowed_refines],
      [select_fallback_rq_terminates], [wait_task_inactive_exact].
    - New tasks: [sched_fork_unboosted], [new_task_is_started].
    - Ticks and hotplug: [remote_tick_unique], [hotplug_counts],
      [migrate_tasks_evacuates], and what a refused deactivation of a CPU leaves
      miscounted ([refused_deactivation_miscounts]).
    - Groups: [walk_tg_tree_from_visits], [cfs_schedulable_sound],
      [set_cfs_bandwidth_consistent] (which limits are granted, and that they fit
      into each other), [cpu_max_write_shown] (which limit a write to cpu.max sets,
      and when it reads back as it was written), [cfs_hierarchical_quota_v2],
      [cpu_uclamp_write_consistent], [group_clamps_reach_tasks] (after a write
      every queued task has the clamps its groups now give it),
      [sched_move_task_refines], [group_comes_and_goes].
    - Clocks, weights and flags: [rq_clocks_monotonic], [set_load_weight_sound],
      the round trips of the weight files, [permanent_restrictions] (the
      flags that no sequence of calls clears), [might_sleep_rate] (reports a
      second apart, none missed for longer).
    - System calls: [phy_addr_matches_mmu], [my_get_segment_fills], and the
      defects of these calls.
    - Thread programs: [thread_examples_correct] (whatever the interleaving, both
      end and print the sums), [thread_examples_crash_iff] (they can crash
      exactly where malloc or pthread_create may fail).

    ** Fuel and bounds

    Loops of the source are structural where their data is; the others have fuel
    and a theorem that it is enough: three rounds for the fallback in
    [select_fallback_rq] (one per state of its automaton), three steps per group
    for [walk_tg_tree_from], the length of the queue for [wake_up_q], one round
    per waiting task for [migrate_tasks], two for the retry of
    [__sched_setscheduler] (the policy is passed explicitly the second time).
    [schedule] and [preempt_schedule_common] loop while rescheduling is needed:
    [schedule_refines] speaks of one round, and [cond_resched_serves] shows that
    one round is enough unless balance callbacks are waiting, one of which marks
    the task that is current by then; the number of such rounds has no bound in
    the code, and running out of fuel in them is stated as such.

    ** Interfaces

    Each [*Laws] class says which documented behaviour of code outside the
    repository a theorem relies on.  Scheduling classes may change their own
    counters and the entities of tasks and mark CPUs for rescheduling, nothing
    else, and the task one picks is queued or is the idle task of the CPU
    ([SchedClassLaws]); [QueueLaws] and [PickLaws] add, for hotplug only, that
    a class counts each task it queues and finds one that waits, which CPU
    bandwidth throttling would break.  [MarkLaws], for conditional rescheduling:
    classes mark tasks that are current on their CPU, this one or another, and
    the hooks of the switch itself mark no task of this CPU.  [WokenLaws]:
    [task_woken] leaves the task queued where it is, or, in the real-time and
    deadline classes, pushes it to a CPU of its mask that is up.  [WeightLaws],
    for nice levels, again without throttling: enqueue and dequeue account for the
    task and, in the fair class, for its weight, and [reweight_task] takes the weight from the tables.  Load
    balancing hooks, cpusets, scheduling domains, the security module,
    credentials, clocks and hrtimers are likewise interfaces.  The witnesses
    instantiate all of them.

    ** Not modelled

    - Effects that are not scheduler state: tracing, the counters of schedstats
      but those of wakeups, PSI, perf and RCU hooks, prefetches, WARN_ON
      diagnostics, lockdep, saved interrupt flags, memory barriers.  What the
      debugging checks print is a list of values, not text.  Code of several CPUs
      interleaves at calls, and only in [AtomicFlags] and [Threads] at accesses,
      so [preempt_enable] is no scheduling point.
    - The lists of preemption notifiers and the restartable sequences are states
      of their own ([Notifiers], [TaskFlags]), not part of the machine, where
      [__schedule] and [set_task_cpu] call them through [SchedClassOps].
    - Tables of other code's callbacks (the cgroup files) and what a kernel
      without SMP or without an option compiles instead.
    - Of sched.h, the fields of other subsystems. *)

From Stdlib Require Export ZArith Lia.
From stdpp Require Export base tactics list gmap sets fin_maps.

(** ** Notations of the development *)

Declare Scope kernel_scope.
Delimit Scope kernel_scope with K.
#[global] Open Scope Z_scope.

#[global] Open Scope kernel_scope.

(** [nz x] is the truth value C gives to the integer expression [x]. *)
Definition nz (x : Z) : bool := negb (x =? 0).

(** [andnot x m] is C's [x & ~m]. *)
Definition andnot (x m : Z) : Z := Z.land x (Z.lnot m).

(** [has x m] is the C condition [x & m]. *)
Definition has (x m : Z) : bool := nz (Z.land x m).

(** ** Record update

    [x <| f := v |>] is [x] with field [f] set to [v].  The setter is obtained
    by abstracting [f x] in the eta-expansion of [x], which every record
    declares once; one [FieldUpdate] instance per field keeps the terms small. *)

Class EtaRecord (R : Type) := eta_expand : R -> R.
Class FieldUpdate {R T : Type} (f : R -> T) := upd_field : (T -> T) -> R -> R.
#[global] Arguments upd_field {R T} f {_} _ _ : simpl never.

Ltac field_update f :=
  unfold FieldUpdate;
  let g := fresh "g" in
  let x := fresh "x" in
  intros g x;
  let R := type of x in
  let E := constr:(_ : EtaRecord R) in
  let E' := eval hnf in E in
  let b := eval cbv beta in (E' x) in
  let p := eval pattern (f x) in b in
  lazymatch p with
  | ?h _ => let r := eval cbv beta in (h (g (f x))) in exact r
  end.

Notation "x <| f := v |>" := (upd_field f (fun _ => v) x)
  (at level 1, left associativity, format "x  <| f  :=  v |>") : kernel_scope.

(** [rsimpl] reads fields of updated records. *)
Ltac rsimpl :=
  cbn beta;
  repeat match goal with
  | |- context [?f (upd_field ?h ?v ?x)] =>
      first [ change (f (upd_field h v x)) with (f x)
            | change (f (upd_field h v x)) with (v (f x)); cbn beta ]
  end.
Ltac rsimpl_in H :=
  cbn beta in H;
  repeat match type of H with
  | context [?f (upd_field ?h ?v ?x)] =>
      first [ change (f (upd_field h v x)) with (f x) in H
            | change (f (upd_field h v x)) with (v (f x)) in H; cbn beta in H ]
  end.

(** ** Machine integers *)

Definition U32_MAX : Z := 2 ^ 32 - 1.
Definition U64_MAX : Z := 2 ^ 64 - 1.
Definition INT_MAX : Z := 2 ^ 31 - 1.
Definition LONG_MIN : Z := - 2 ^ 63.

(** Conversion to an unsigned type of [w] bits. *)
Definition wrapu (w x : Z) : Z := x mod 2 ^ w.
(** Conversion to a two's complement type of [w] bits. *)
Definition wraps (w x : Z) : Z := (x + 2 ^ (w - 1)) mod 2 ^ w - 2 ^ (w - 1).

Abbreviation u32 := (wrapu 32).
Abbreviation u64 := (wrapu 64).
Abbreviation s32 := (wraps 32).
Abbreviation s64 := (wraps 64).

Definition is_u32 (x : Z) : Prop := 0 <= x < 2 ^ 32.
Definition is_u64 (x : Z) : Prop := 0 <= x < 2 ^ 64.
Definition is_s32 (x : Z) : Prop := - 2 ^ 31 <= x < 2 ^ 31.
Definition is_s64 (x : Z) : Prop := - 2 ^ 63 <= x < 2 ^ 63.

Lemma wrapu_range w x : 0 <= w -> 0 <= wrapu w x < 2 ^ w.
Proof. intros Hw. apply Z.mod_pos_bound. apply Z.pow_pos_nonneg; lia. Qed.

Lemma wrapu_id w x : 0 <= x < 2 ^ w -> wrapu w x = x.
Proof. apply Z.mod_small. Qed.

Lemma wraps_range w x : 0 < w -> - 2 ^ (w - 1) <= wraps w x < 2 ^ (w - 1).
Proof.
  intros Hw. unfold wraps.
  assert (2 ^ w = 2 * 2 ^ (w - 1)) as E by (rewrite <- Z.pow_succ_r by lia; f_equal; lia).
  pose proof (Z.mod_pos_bound (x + 2 ^ (w - 1)) (2 ^ w) ltac:(apply Z.pow_pos_nonneg; lia)).
  lia.
Qed.

Lemma wraps_id w x : 0 < w -> - 2 ^ (w - 1) <= x < 2 ^ (w - 1) -> wraps w x = x.
Proof.
  intros Hw H. unfold wraps.
  assert (2 ^ w = 2 * 2 ^ (w - 1)) as E by (rewrite <- Z.pow_succ_r by lia; f_equal; lia).
  rewrite Z.mod_small by lia. lia.
Qed.

Lemma wrapu_wrapu w x : wrapu w (wrapu w x) = wrapu w x.
Proof. apply Zmod_mod. Qed.

Lemma wrapu_add_l w x y : wrapu w (wrapu w x + y) = wrapu w (x + y).
Proof. apply Zplus_mod_idemp_l. Qed.

Lemma wrapu_add_r w x y : wrapu w (x + wrapu w y) = wrapu w (x + y).
Proof. apply Zplus_mod_idemp_r. Qed.

(** Replacing a term of a sum by its wrapped successor. *)
Lemma wrapu_bump w a x : wrapu w (a - x + wrapu w (x + 1)) = wrapu w (a + 1).
Proof. rewrite wrapu_add_r. f_equal. lia. Qed.

Lemma wrapu_sub_l w x y : wrapu w (wrapu w x - y) = wrapu w (x - y).
Proof. apply Zminus_mod_idemp_l. Qed.

Lemma wrapu_wraps w x : 0 < w -> wrapu w (wraps w x) = wrapu w x.
Proof.
  intros Hw. unfold wrapu, wraps.
  rewrite Zminus_mod_idemp_l. f_equal. lia.
Qed.

Create HintDb kint.
#[export] Hint Resolve wrapu_range wraps_range : kint.
Create Rewrite HintDb kintrw.
#[export] Hint Rewrite wrapu_wrapu wrapu_add_l wrapu_sub_l : kintrw.

(** ** Error numbers (errno.h); the kernel returns them negated *)

Definition EPERM : Z := 1.
Definition ESRCH : Z := 3.
Definition E2BIG : Z := 7.
Definition EAGAIN : Z := 11.
Definition ENOMEM : Z := 12.
Definition EFAULT : Z := 14.
Definition EBUSY : Z := 16.
Definition EINVAL : Z := 22.
Definition ERANGE : Z := 34.

(** ** Generic tactics and lemmas *)

(** Split the boolean tests of a goal or of the hypotheses. *)
Ltac bool_cases :=
  repeat match goal with
  | H : _ && _ = true |- _ => apply andb_true_iff in H; destruct H
  | H : _ || _ = false |- _ => apply orb_false_iff in H; destruct H
  | H : negb _ = true |- _ => apply negb_true_iff in H
  | H : negb _ = false |- _ => apply negb_false_iff in H
  | H : (_ =? _) = true |- _ => apply Z.eqb_eq in H
  | H : (_ =? _) = false |- _ => apply Z.eqb_neq in H
  | H : (_ <? _) = true |- _ => apply Z.ltb_lt in H
  | H : (_ <? _) = false |- _ => apply Z.ltb_ge in H
  | H : (_ <=? _) = true |- _ => apply Z.leb_le in H
  | H : (_ <=? _) = false |- _ => apply Z.leb_gt in H
  end.

(** Case on the condition of every [if] of the goal. *)
Ltac case_ifs :=
  repeat match goal with
  | |- context [if ?b then _ else _] =>
      lazymatch type of b with
      | bool => destruct b eqn:?
      | sumbool _ _ => destruct b
      end
  end.

Lemma nz_true x : nz x = true <-> x <> 0.
Proof. unfold nz. rewrite negb_true_iff. apply Z.eqb_neq. Qed.

Lemma nz_false x : nz x = false <-> x = 0.
Proof. unfold nz. rewrite negb_false_iff. apply Z.eqb_eq. Qed.

(** Sums over lists of integers. *)
Definition Zsum (l : list Z) : Z := foldr Z.add 0 l.

Lemma Zsum_app l1 l2 : Zsum (l1 ++ l2) = Zsum l1 + Zsum l2.
Proof. induction l1 as [|x l1 IH]; [done|]. unfold Zsum in *. simpl. lia. Qed.

Lemma Zsum_cons x l : Zsum (x :: l) = x + Zsum l.
Proof. done. Qed.

(** Every value of a bounded integer range satisfies a decidable predicate;
    used to settle finite tables by computation. *)
Fixpoint Zrange_all (n : nat) (lo : Z) (P : Z -> bool) : bool :=
  match n with
  | O => true
  | S n' => P lo && Zrange_all n' (lo + 1) P
  end.

Lemma Zrange_all_spec n lo P :
  Zrange_all n lo P = true -> forall x, lo <= x < lo + Z.of_nat n -> P x = true.
Proof.
  revert lo. induction n as [|n IH]; intros lo H x Hx; [lia|].
  simpl in H. apply andb_true_iff in H as [H1 H2].
  destruct (Z.eq_dec x lo) as [->|Hne]; [done|].
  apply (IH (lo + 1)); [done|lia].
Qed.

(** ** Sums over finite maps *)

Definition msum `{Countable K} {A} (f : A -> Z) (m : gmap K A) : Z :=
  map_fold (fun _ x acc => f x + acc) 0 m.

Section MapSum.
Context `{Countable K} {A : Type}.
Implicit Types (f g : A -> Z) (m : gmap K A).

Lemma msum_empty f : msum f (∅ : gmap K A) = 0.
Proof. apply map_fold_empty. Qed.

Lemma msum_insert f m k x : m !! k = None -> msum f (<[k:=x]> m) = f x + msum f m.
Proof. intros Hk. unfold msum. rewrite map_fold_insert_L; [done| |done]. intros. lia. Qed.

Lemma msum_delete f m k x : m !! k = Some x -> msum f m = f x + msum f (delete k m).
Proof.
  intros Hk. rewrite <- (insert_delete_id m k x) at 1 by done.
  apply msum_insert, lookup_delete_eq.
Qed.

Lemma msum_update f m k x y : m !! k = Some x -> msum f (<[k:=y]> m) = msum f m - f x + f y.
Proof.
  intros Hk. rewrite (msum_delete f m k x Hk), <- insert_delete_eq, msum_insert.
  - lia.
  - apply lookup_delete_eq.
Qed.

Lemma msum_ext f g m :
  (forall k x, m !! k = Some x -> f x = g x) -> msum f m = msum g m.
Proof.
  induction m as [|k x m Hk IH] using map_ind; intros Hfg; [by rewrite !msum_empty|].
  rewrite !msum_insert by done. rewrite (Hfg k x) by apply lookup_insert_eq.
  f_equal. apply IH. intros j y Hj. apply (Hfg j). rewrite lookup_insert_ne; congruence.
Qed.

Lemma msum_nonneg f m : (forall x, 0 <= f x) -> 0 <= msum f m.
Proof.
  intros Hf. induction m as [|k x m Hk IH] using map_ind; [by rewrite msum_empty|].
  rewrite msum_insert by done. specialize (Hf x). lia.
Qed.

Lemma msum_ge f m k x : (forall y, 0 <= f y) -> m !! k = Some x -> f x <= msum f m.
Proof.
  intros Hf Hk. rewrite (msum_delete f m k x Hk).
  pose proof (msum_nonneg f (delete k m) Hf). lia.
Qed.

Lemma msum_pos f m :
  (forall x, 0 <= f x) -> 0 < msum f m -> exists k x, m !! k = Some x /\ 0 < f x.
Proof.
  intros Hf. induction m as [|k x m Hk IH] using map_ind; [by rewrite msum_empty|].
  rewrite msum_insert by done. intros Hpos.
  destruct (decide (0 < f x)) as [Hx|Hx].
  - exists k, x. split; [apply lookup_insert_eq|done].
  - destruct IH as (j & y & Hj & Hy); [lia|].
    exists j, y. split; [|done]. rewrite lookup_insert_ne; congruence.
Qed.

Lemma msum_fmap {B} (h : B -> Z) (k : A -> B) m : msum h (k <$> m) = msum (fun x => h (k x)) m.
Proof.
  induction m as [|i x m Hi IH] using map_ind; [by rewrite fmap_empty; unfold msum; rewrite !map_fold_empty|].
  rewrite fmap_insert. rewrite msum_insert by done. unfold msum at 1. rewrite map_fold_insert_L.
  - unfold msum in IH. by rewrite IH.
  - intros. lia.
  - by rewrite lookup_fmap, Hi.
Qed.

Lemma msum_wrap w f m : wrapu w (msum (fun x => wrapu w (f x)) m) = wrapu w (msum f m).
Proof.
  induction m as [|i x m Hi IH] using map_ind; [done|].
  rewrite !msum_insert by done. rewrite wrapu_add_l, <- wrapu_add_r, IH. apply wrapu_add_r.
Qed.

Lemma msum_alter f m k x (u : A -> A) :
  m !! k = Some x -> msum f (alter u k m) = msum f m - f x + f (u x).
Proof.
  intros Hk. rewrite <- (msum_update f m k x (u x) Hk). f_equal. apply map_eq. intros j.
  destruct (decide (j = k)) as [->|Hne].
  - by rewrite lookup_insert_eq, lookup_alter_eq, Hk.
  - by rewrite lookup_insert_ne, lookup_alter_ne.
Qed.
End MapSum.
