(* ===== verification/Task.v ===== *)
(** * Task: the task descriptor (hw3/question_2/my_call/sched.h)

    Task states, per-process flags, utilization-clamp and load records, and
    [task_struct] with the fields the modelled code reads or writes, among them
    the repository's own [process_switches_count].  A pointer to a task is a
    [ptr]; NULL is [None]. *)

From S2P Require Import Prelude.

(** ** Task state bitmask *)

Definition TASK_RUNNING : Z := 0x0000.
Definition TASK_INTERRUPTIBLE : Z := 0x0001.
Definition TASK_UNINTERRUPTIBLE : Z := 0x0002.
Definition __TASK_STOPPED : Z := 0x0004.
Definition __TASK_TRACED : Z := 0x0008.
Definition EXIT_DEAD : Z := 0x0010.
Definition EXIT_ZOMBIE : Z := 0x0020.
Definition TASK_PARKED : Z := 0x0040.
Definition TASK_DEAD : Z := 0x0080.
Definition TASK_WAKEKILL : Z := 0x0100.
Definition TASK_WAKING : Z := 0x0200.
Definition TASK_NOLOAD : Z := 0x0400.
Definition TASK_NEW : Z := 0x0800.
Definition TASK_STATE_MAX : Z := 0x1000.

Definition TASK_KILLABLE : Z := Z.lor TASK_WAKEKILL TASK_UNINTERRUPTIBLE.
Definition TASK_STOPPED : Z := Z.lor TASK_WAKEKILL __TASK_STOPPED.
Definition TASK_TRACED : Z := Z.lor TASK_WAKEKILL __TASK_TRACED.
Definition TASK_IDLE : Z := Z.lor TASK_UNINTERRUPTIBLE TASK_NOLOAD.
Definition TASK_NORMAL : Z := Z.lor TASK_INTERRUPTIBLE TASK_UNINTERRUPTIBLE.

Definition TASK_REPORT : Z :=
  Z.lor (Z.lor (Z.lor (Z.lor (Z.lor (Z.lor (Z.lor TASK_RUNNING TASK_INTERRUPTIBLE)
    TASK_UNINTERRUPTIBLE) __TASK_STOPPED) __TASK_TRACED) EXIT_DEAD) EXIT_ZOMBIE)
    TASK_PARKED.

(** States set with [set_special_state]. *)
Definition is_special_task_state (state : Z) : bool :=
  has state (Z.lor (Z.lor (Z.lor __TASK_STOPPED __TASK_TRACED) TASK_PARKED) TASK_DEAD).

(** ** Per-process flags the scheduler tests *)

Definition PF_IDLE : Z := 0x00000002.
Definition PF_WQ_WORKER : Z := 0x00000020.
Definition PF_NOFREEZE : Z := 0x00008000.
Definition PF_FROZEN : Z := 0x00010000.
Definition PF_KTHREAD : Z := 0x00200000.
Definition PF_NO_SETAFFINITY : Z := 0x04000000.
Definition PF_IO_WORKER : Z := 0x20000000.

(** ** Fixed point scale of capacities *)

Definition SCHED_FIXEDPOINT_SHIFT : Z := 10.
Definition SCHED_FIXEDPOINT_SCALE : Z := Z.shiftl 1 SCHED_FIXEDPOINT_SHIFT.
Definition SCHED_CAPACITY_SHIFT : Z := SCHED_FIXEDPOINT_SHIFT.
Definition SCHED_CAPACITY_SCALE : Z := Z.shiftl 1 SCHED_CAPACITY_SHIFT.

(** ** Records of the descriptor *)

Definition ptr : Type := positive.

(** [enum uclamp_id]; [UCLAMP_CNT] is the number of values. *)
Inductive uclamp_id := UCLAMP_MIN | UCLAMP_MAX.
#[export] Instance uclamp_id_eq_dec : EqDecision uclamp_id.
Proof. solve_decision. Defined.

(** The scheduling classes, by the names of their method tables. *)
Inductive sched_class :=
  | stop_sched_class | dl_sched_class | rt_sched_class
  | fair_sched_class | idle_sched_class.
#[export] Instance sched_class_eq_dec : EqDecision sched_class.
Proof. solve_decision. Defined.

(** [struct load_weight]. *)
Record load_weight := mk_load_weight {
  lw_weight : Z;  (* unsigned long weight *)
  lw_inv_weight : Z  (* u32 inv_weight *)
}.
#[export] Instance eta_load_weight : EtaRecord load_weight := fun x =>
  mk_load_weight (lw_weight x) (lw_inv_weight x).
#[export] Instance upd_lw_weight : FieldUpdate lw_weight := ltac:(field_update lw_weight).
#[export] Instance upd_lw_inv_weight : FieldUpdate lw_inv_weight := ltac:(field_update lw_inv_weight).

(** [struct uclamp_se]. *)
Record uclamp_se := mk_uclamp_se {
  uc_value : Z;  (* value, a bit field *)
  uc_bucket_id : Z;  (* bucket_id, a bit field *)
  uc_active : bool;  (* active *)
  uc_user_defined : bool  (* user_defined *)
}.
#[export] Instance eta_uclamp_se : EtaRecord uclamp_se := fun x =>
  mk_uclamp_se (uc_value x) (uc_bucket_id x) (uc_active x) (uc_user_defined x).
#[export] Instance upd_uc_value : FieldUpdate uc_value := ltac:(field_update uc_value).
#[export] Instance upd_uc_bucket_id : FieldUpdate uc_bucket_id := ltac:(field_update uc_bucket_id).
#[export] Instance upd_uc_active : FieldUpdate uc_active := ltac:(field_update uc_active).
#[export] Instance upd_uc_user_defined : FieldUpdate uc_user_defined := ltac:(field_update uc_user_defined).

(** [struct sched_entity], without the tree links and the load averages. *)
Record sched_entity := mk_sched_entity {
  se_load : load_weight;
  se_on_rq : Z;
  se_exec_start : Z;
  se_sum_exec_runtime : Z;
  se_vruntime : Z;
  se_prev_sum_exec_runtime : Z;
  se_nr_migrations : Z
}.
#[export] Instance eta_sched_entity : EtaRecord sched_entity := fun x =>
  mk_sched_entity (se_load x) (se_on_rq x) (se_exec_start x) (se_sum_exec_runtime x)
    (se_vruntime x) (se_prev_sum_exec_runtime x) (se_nr_migrations x).
#[export] Instance upd_se_load : FieldUpdate se_load := ltac:(field_update se_load).
#[export] Instance upd_se_on_rq : FieldUpdate se_on_rq := ltac:(field_update se_on_rq).
#[export] Instance upd_se_exec_start : FieldUpdate se_exec_start := ltac:(field_update se_exec_start).
#[export] Instance upd_se_sum_exec_runtime : FieldUpdate se_sum_exec_runtime := ltac:(field_update se_sum_exec_runtime).
#[export] Instance upd_se_vruntime : FieldUpdate se_vruntime := ltac:(field_update se_vruntime).
#[export] Instance upd_se_prev_sum_exec_runtime : FieldUpdate se_prev_sum_exec_runtime := ltac:(field_update se_prev_sum_exec_runtime).
#[export] Instance upd_se_nr_migrations : FieldUpdate se_nr_migrations := ltac:(field_update se_nr_migrations).

(** [struct sched_rt_entity], without its links. *)
Record sched_rt_entity := mk_sched_rt_entity {
  rt_timeout : Z;
  rt_time_slice : Z;
  rt_on_rq : Z;
  rt_on_list : Z
}.
#[export] Instance eta_sched_rt_entity : EtaRecord sched_rt_entity := fun x =>
  mk_sched_rt_entity (rt_timeout x) (rt_time_slice x) (rt_on_rq x) (rt_on_list x).
#[export] Instance upd_rt_timeout : FieldUpdate rt_timeout := ltac:(field_update rt_timeout).
#[export] Instance upd_rt_time_slice : FieldUpdate rt_time_slice := ltac:(field_update rt_time_slice).
#[export] Instance upd_rt_on_rq : FieldUpdate rt_on_rq := ltac:(field_update rt_on_rq).
#[export] Instance upd_rt_on_list : FieldUpdate rt_on_list := ltac:(field_update rt_on_list).

(** [struct sched_dl_entity], without timers and tree links. *)
Record sched_dl_entity := mk_sched_dl_entity {
  dl_runtime : Z;
  dl_deadline : Z;
  dl_period : Z;
  dl_bw : Z;
  dl_density : Z;
  dl_cur_runtime : Z;  (* runtime, may be negative *)
  dl_abs_deadline : Z;  (* deadline *)
  dl_flags : Z;  (* flags *)
  dl_throttled : bool;
  dl_boosted : bool;
  dl_yielded : bool;
  dl_non_contending : bool
}.
#[export] Instance eta_sched_dl_entity : EtaRecord sched_dl_entity := fun x =>
  mk_sched_dl_entity (dl_runtime x) (dl_deadline x) (dl_period x) (dl_bw x)
    (dl_density x) (dl_cur_runtime x) (dl_abs_deadline x) (dl_flags x) (dl_throttled x)
    (dl_boosted x) (dl_yielded x) (dl_non_contending x).
#[export] Instance upd_dl_runtime : FieldUpdate dl_runtime := ltac:(field_update dl_runtime).
#[export] Instance upd_dl_deadline : FieldUpdate dl_deadline := ltac:(field_update dl_deadline).
#[export] Instance upd_dl_period : FieldUpdate dl_period := ltac:(field_update dl_period).
#[export] Instance upd_dl_bw : FieldUpdate dl_bw := ltac:(field_update dl_bw).
#[export] Instance upd_dl_density : FieldUpdate dl_density := ltac:(field_update dl_density).
#[export] Instance upd_dl_cur_runtime : FieldUpdate dl_cur_runtime := ltac:(field_update dl_cur_runtime).
#[export] Instance upd_dl_abs_deadline : FieldUpdate dl_abs_deadline := ltac:(field_update dl_abs_deadline).
#[export] Instance upd_dl_flags : FieldUpdate dl_flags := ltac:(field_update dl_flags).
#[export] Instance upd_dl_throttled : FieldUpdate dl_throttled := ltac:(field_update dl_throttled).
#[export] Instance upd_dl_boosted : FieldUpdate dl_boosted := ltac:(field_update dl_boosted).
#[export] Instance upd_dl_yielded : FieldUpdate dl_yielded := ltac:(field_update dl_yielded).
#[export] Instance upd_dl_non_contending : FieldUpdate dl_non_contending := ltac:(field_update dl_non_contending).

(** [struct task_struct]. *)
Record task_struct := mk_task_struct {
  thread_info_flags : Z;  (* thread_info.flags *)
  t_state : Z;  (* volatile long state *)
  usage : Z;  (* refcount_t usage *)
  t_flags : Z;  (* PF_* *)
  on_cpu : Z;
  t_cpu : Z;  (* current CPU *)
  recent_used_cpu : Z;
  wake_cpu : Z;
  on_rq : Z;
  prio : Z;
  static_prio : Z;
  normal_prio : Z;
  rt_priority : Z;  (* unsigned int *)
  t_sched_class : sched_class;
  t_se : sched_entity;
  t_rt : sched_rt_entity;
  t_dl : sched_dl_entity;
  uclamp_req_min : uclamp_se;  (* uclamp_req[UCLAMP_MIN] *)
  uclamp_req_max : uclamp_se;  (* uclamp_req[UCLAMP_MAX] *)
  uclamp_min : uclamp_se;  (* uclamp[UCLAMP_MIN] *)
  uclamp_max : uclamp_se;  (* uclamp[UCLAMP_MAX] *)
  policy : Z;
  nr_cpus_allowed : Z;
  cpus_mask : gset Z;  (* also what cpus_ptr points to *)
  mm : option Z;
  active_mm : option Z;
  exit_state : Z;
  sched_reset_on_fork : bool;
  sched_contributes_to_load : bool;
  sched_remote_wakeup : bool;
  in_iowait : bool;
  pid : Z;
  nvcsw : Z;  (* unsigned long *)
  nivcsw : Z;  (* unsigned long *)
  pi_lock : bool;  (* raw_spinlock_t, held or not *)
  wake_q_next : option ptr;  (* wake_q.next *)
  pi_top_task : option ptr;
  numa_preferred_nid : Z;
  sched_task_group : option ptr;
  process_switches_count : Z  (* unsigned int, added by the course project *)
}.
#[export] Instance eta_task_struct : EtaRecord task_struct := fun x =>
  mk_task_struct (thread_info_flags x) (t_state x) (usage x) (t_flags x) (on_cpu x)
    (t_cpu x) (recent_used_cpu x) (wake_cpu x) (on_rq x) (prio x) (static_prio x)
    (normal_prio x) (rt_priority x) (t_sched_class x) (t_se x) (t_rt x) (t_dl x)
    (uclamp_req_min x) (uclamp_req_max x) (uclamp_min x) (uclamp_max x) (policy x)
    (nr_cpus_allowed x) (cpus_mask x) (mm x) (active_mm x) (exit_state x)
    (sched_reset_on_fork x) (sched_contributes_to_load x) (sched_remote_wakeup x)
    (in_iowait x) (pid x) (nvcsw x) (nivcsw x) (pi_lock x) (wake_q_next x)
    (pi_top_task x) (numa_preferred_nid x) (sched_task_group x)
    (process_switches_count x).
#[export] Instance upd_thread_info_flags : FieldUpdate thread_info_flags := ltac:(field_update thread_info_flags).
#[export] Instance upd_t_state : FieldUpdate t_state := ltac:(field_update t_state).
#[export] Instance upd_usage : FieldUpdate usage := ltac:(field_update usage).
#[export] Instance upd_t_flags : FieldUpdate t_flags := ltac:(field_update t_flags).
#[export] Instance upd_on_cpu : FieldUpdate on_cpu := ltac:(field_update on_cpu).
#[export] Instance upd_t_cpu : FieldUpdate t_cpu := ltac:(field_update t_cpu).
#[export] Instance upd_recent_used_cpu : FieldUpdate recent_used_cpu := ltac:(field_update recent_used_cpu).
#[export] Instance upd_wake_cpu : FieldUpdate wake_cpu := ltac:(field_update wake_cpu).
#[export] Instance upd_on_rq : FieldUpdate on_rq := ltac:(field_update on_rq).
#[export] Instance upd_prio : FieldUpdate prio := ltac:(field_update prio).
#[export] Instance upd_static_prio : FieldUpdate static_prio := ltac:(field_update static_prio).
#[export] Instance upd_normal_prio : FieldUpdate normal_prio := ltac:(field_update normal_prio).
#[export] Instance upd_rt_priority : FieldUpdate rt_priority := ltac:(field_update rt_priority).
#[export] Instance upd_t_sched_class : FieldUpdate t_sched_class := ltac:(field_update t_sched_class).
#[export] Instance upd_t_se : FieldUpdate t_se := ltac:(field_update t_se).
#[export] Instance upd_t_rt : FieldUpdate t_rt := ltac:(field_update t_rt).
#[export] Instance upd_t_dl : FieldUpdate t_dl := ltac:(field_update t_dl).
#[export] Instance upd_uclamp_req_min : FieldUpdate uclamp_req_min := ltac:(field_update uclamp_req_min).
#[export] Instance upd_uclamp_req_max : FieldUpdate uclamp_req_max := ltac:(field_update uclamp_req_max).
#[export] Instance upd_uclamp_min : FieldUpdate uclamp_min := ltac:(field_update uclamp_min).
#[export] Instance upd_uclamp_max : FieldUpdate uclamp_max := ltac:(field_update uclamp_max).
#[export] Instance upd_policy : FieldUpdate policy := ltac:(field_update policy).
#[export] Instance upd_nr_cpus_allowed : FieldUpdate nr_cpus_allowed := ltac:(field_update nr_cpus_allowed).
#[export] Instance upd_cpus_mask : FieldUpdate cpus_mask := ltac:(field_update cpus_mask).
#[export] Instance upd_mm : FieldUpdate mm := ltac:(field_update mm).
#[export] Instance upd_active_mm : FieldUpdate active_mm := ltac:(field_update active_mm).
#[export] Instance upd_exit_state : FieldUpdate exit_state := ltac:(field_update exit_state).
#[export] Instance upd_sched_reset_on_fork : FieldUpdate sched_reset_on_fork := ltac:(field_update sched_reset_on_fork).
#[export] Instance upd_sched_contributes_to_load : FieldUpdate sched_contributes_to_load := ltac:(field_update sched_contributes_to_load).
#[export] Instance upd_sched_remote_wakeup : FieldUpdate sched_remote_wakeup := ltac:(field_update sched_remote_wakeup).
#[export] Instance upd_in_iowait : FieldUpdate in_iowait := ltac:(field_update in_iowait).
#[export] Instance upd_pid : FieldUpdate pid := ltac:(field_update pid).
#[export] Instance upd_nvcsw : FieldUpdate nvcsw := ltac:(field_update nvcsw).
#[export] Instance upd_nivcsw : FieldUpdate nivcsw := ltac:(field_update nivcsw).
#[export] Instance upd_pi_lock : FieldUpdate pi_lock := ltac:(field_update pi_lock).
#[export] Instance upd_wake_q_next : FieldUpdate wake_q_next := ltac:(field_update wake_q_next).
#[export] Instance upd_pi_top_task : FieldUpdate pi_top_task := ltac:(field_update pi_top_task).
#[export] Instance upd_numa_preferred_nid : FieldUpdate numa_preferred_nid := ltac:(field_update numa_preferred_nid).
#[export] Instance upd_sched_task_group : FieldUpdate sched_task_group := ltac:(field_update sched_task_group).
#[export] Instance upd_process_switches_count : FieldUpdate process_switches_count := ltac:(field_update process_switches_count).

(** The clamp arrays indexed by [enum uclamp_id]. *)
Definition uclamp_req (t : task_struct) (id : uclamp_id) : uclamp_se :=
  match id with UCLAMP_MIN => uclamp_req_min t | UCLAMP_MAX => uclamp_req_max t end.
Definition uclamp (t : task_struct) (id : uclamp_id) : uclamp_se :=
  match id with UCLAMP_MIN => uclamp_min t | UCLAMP_MAX => uclamp_max t end.
Definition set_uclamp_req (t : task_struct) (id : uclamp_id) (u : uclamp_se) : task_struct :=
  match id with
  | UCLAMP_MIN => t <| uclamp_req_min := u |>
  | UCLAMP_MAX => t <| uclamp_req_max := u |>
  end.
Definition set_uclamp (t : task_struct) (id : uclamp_id) (u : uclamp_se) : task_struct :=
  match id with
  | UCLAMP_MIN => t <| uclamp_min := u |>
  | UCLAMP_MAX => t <| uclamp_max := u |>
  end.

(** A zeroed descriptor, as [kzalloc] and the static initialisers give it. *)
Definition zero_uclamp_se : uclamp_se := mk_uclamp_se 0 0 false false.
Definition zero_task : task_struct :=
  mk_task_struct 0 0 0 0 0 0 0 0 0 0 0 0 0 fair_sched_class
    (mk_sched_entity (mk_load_weight 0 0) 0 0 0 0 0 0)
    (mk_sched_rt_entity 0 0 0 0)
    (mk_sched_dl_entity 0 0 0 0 0 0 0 0 false false false false)
    zero_uclamp_se zero_uclamp_se zero_uclamp_se zero_uclamp_se
    0 0 empty None None 0 false false false false 0 0 0 false None None 0 None 0.

(** ** Queries on the descriptor *)

Definition task_is_stopped_or_traced (t : task_struct) : bool :=
  has (t_state t) (Z.lor __TASK_STOPPED __TASK_TRACED).

Definition is_idle_task (t : task_struct) : bool := has (t_flags t) PF_IDLE.

Definition task_cpu (t : task_struct) : Z := t_cpu t.

(** ** The state letter shown in /proc *)

Definition TASK_REPORT_IDLE : Z := TASK_REPORT + 1.
Definition TASK_REPORT_MAX : Z := Z.shiftl TASK_REPORT_IDLE 1.

Section StateLetter.
(** [fls] is the kernel's "find last set" bit operation. *)
Variable fls : Z -> Z.

Definition task_state_index (t : task_struct) : Z :=
  let tsk_state := u32 (t_state t) in
  let state := Z.land (Z.lor tsk_state (exit_state t)) TASK_REPORT in
  let state := if tsk_state =? TASK_IDLE then TASK_REPORT_IDLE else state in
  fls state.

Definition state_char : list Byte.byte :=
  [Byte.x52; Byte.x53; Byte.x44; Byte.x54; Byte.x74; Byte.x58; Byte.x5a; Byte.x50; Byte.x49].

(** The read of the static array is [None] past its last letter. *)
Definition task_index_to_char (state : Z) : option Byte.byte :=
  state_char !! Z.to_nat state.

Definition task_state_to_char (t : task_struct) : option Byte.byte :=
  task_index_to_char (task_state_index t).
End StateLetter.

(** [state_filter_match]: which tasks SysRq-t/w show. *)
Definition state_filter_match (state_filter : Z) (t : task_struct) : bool :=
  if negb (nz state_filter) then true
  else if negb (has (t_state t) state_filter) then false
  else if (state_filter =? TASK_UNINTERRUPTIBLE) && (t_state t =? TASK_IDLE) then false
  else true.
