(* ===== verification/TaskFlags.v ===== *)
(** * TaskFlags: flags and small helpers of tasks (hw3/question_2/my_call/sched.h)

    The per-process flags and the macros that change them, the atomic flags and
    the functions generated for each, thread flags, ids of tasks, and restartable
    sequences.  Fields of [task_struct] that only these use are in [task_extra]. *)

From S2P Require Import Prelude Task.

(** ** Bits *)

(** [set_bit], [clear_bit] and [test_bit] on one word. *)
Definition set_bit (nr w : Z) : Z := Z.lor w (2 ^ nr).
Definition clear_bit (nr w : Z) : Z := andnot w (2 ^ nr).
Definition test_bit (nr w : Z) : bool := Z.testbit w nr.

Lemma test_set_bit n m w : 0 <= n -> 0 <= m -> test_bit n (set_bit m w) = (n =? m) || test_bit n w.
Proof.
  intros Hn Hm. unfold test_bit, set_bit. rewrite Z.lor_spec, Z.pow2_bits_eqb by done.
  rewrite Z.eqb_sym. by destruct (n =? m), (Z.testbit w n).
Qed.

Lemma test_clear_bit n m w : 0 <= n -> 0 <= m -> test_bit n (clear_bit m w) = negb (n =? m) && test_bit n w.
Proof.
  intros Hn Hm. unfold test_bit, clear_bit, andnot. rewrite Z.land_spec, Z.lnot_spec, Z.pow2_bits_eqb by done.
  rewrite Z.eqb_sym. by destruct (n =? m), (Z.testbit w n).
Qed.

(** ** Per-process flags *)

Definition PF_EXITING : Z := 0x00000004.
Definition PF_VCPU : Z := 0x00000010.
Definition PF_FORKNOEXEC : Z := 0x00000040.
Definition PF_MCE_PROCESS : Z := 0x00000080.
Definition PF_SUPERPRIV : Z := 0x00000100.
Definition PF_DUMPCORE : Z := 0x00000200.
Definition PF_SIGNALED : Z := 0x00000400.
Definition PF_MEMALLOC : Z := 0x00000800.
Definition PF_NPROC_EXCEEDED : Z := 0x00001000.
Definition PF_USED_MATH : Z := 0x00002000.
Definition PF_USED_ASYNC : Z := 0x00004000.
Definition PF_KSWAPD : Z := 0x00020000.
Definition PF_MEMALLOC_NOFS : Z := 0x00040000.
Definition PF_MEMALLOC_NOIO : Z := 0x00080000.
Definition PF_LOCAL_THROTTLE : Z := 0x00100000.
Definition PF_RANDOMIZE : Z := 0x00400000.
Definition PF_SWAPWRITE : Z := 0x00800000.
Definition PF_UMH : Z := 0x02000000.
Definition PF_MCE_EARLY : Z := 0x08000000.
Definition PF_MEMALLOC_NOCMA : Z := 0x10000000.
Definition PF_FREEZER_SKIP : Z := 0x40000000.
Definition PF_SUSPEND_TASK : Z := 0x80000000.

(** The flags as the header lists them. *)
Definition process_flags : list Z :=
  [PF_IDLE; PF_EXITING; PF_VCPU; PF_WQ_WORKER; PF_FORKNOEXEC; PF_MCE_PROCESS; PF_SUPERPRIV; PF_DUMPCORE;
   PF_SIGNALED; PF_MEMALLOC; PF_NPROC_EXCEEDED; PF_USED_MATH; PF_USED_ASYNC; PF_NOFREEZE; PF_FROZEN; PF_KSWAPD;
   PF_MEMALLOC_NOFS; PF_MEMALLOC_NOIO; PF_LOCAL_THROTTLE; PF_KTHREAD; PF_RANDOMIZE; PF_SWAPWRITE; PF_UMH;
   PF_NO_SETAFFINITY; PF_MCE_EARLY; PF_MEMALLOC_NOCMA; PF_IO_WORKER; PF_FREEZER_SKIP; PF_SUSPEND_TASK].

(** The macros, on the flags word of the task they are given. *)
Definition clear_stopped_child_used_math (flags : Z) : Z := andnot flags PF_USED_MATH.
Definition set_stopped_child_used_math (flags : Z) : Z := Z.lor flags PF_USED_MATH.
Definition conditional_stopped_child_used_math (condition : bool) (flags : Z) : Z :=
  Z.lor (andnot flags PF_USED_MATH) (if condition then PF_USED_MATH else 0).
Definition copy_to_stopped_child_used_math (current_flags flags : Z) : Z :=
  Z.lor (andnot flags PF_USED_MATH) (Z.land current_flags PF_USED_MATH).
Definition tsk_used_math (flags : Z) : Z := Z.land flags PF_USED_MATH.

Definition is_percpu_thread (t : task_struct) : bool :=
  has (t_flags t) PF_NO_SETAFFINITY && (nr_cpus_allowed t =? 1).

Definition current_restore_flags (orig_flags flags current_flags : Z) : Z :=
  Z.lor (andnot current_flags flags) (Z.land orig_flags flags).

(** Tests of the state. *)
Definition task_is_traced (t : task_struct) : bool := has (t_state t) __TASK_TRACED.
Definition task_is_stopped (t : task_struct) : bool := has (t_state t) __TASK_STOPPED.

(** [exit_umh]: whether the helper's exit hook runs. *)
Definition exit_umh (flags : Z) : bool := has flags PF_UMH.

(** ** Fields of the helpers below *)

Record task_extra := mk_task_extra {
  atomic_flags : Z;  (* unsigned long *)
  tgid : Z;
  thread_pid : option ptr;
  real_parent : ptr;
  rseq : option ptr;  (* user address *)
  rseq_sig : Z;  (* u32 *)
  rseq_event_mask : Z  (* unsigned long *)
}.
#[export] Instance eta_task_extra : EtaRecord task_extra := fun x =>
  mk_task_extra (atomic_flags x) (tgid x) (thread_pid x) (real_parent x) (rseq x) (rseq_sig x) (rseq_event_mask x).
#[export] Instance upd_atomic_flags : FieldUpdate atomic_flags := ltac:(field_update atomic_flags).
#[export] Instance upd_rseq : FieldUpdate rseq := ltac:(field_update rseq).
#[export] Instance upd_rseq_sig : FieldUpdate rseq_sig := ltac:(field_update rseq_sig).
#[export] Instance upd_rseq_event_mask : FieldUpdate rseq_event_mask := ltac:(field_update rseq_event_mask).

(** ** Atomic flags *)

Definition PFA_NO_NEW_PRIVS : Z := 0.
Definition PFA_SPREAD_PAGE : Z := 1.
Definition PFA_SPREAD_SLAB : Z := 2.
Definition PFA_SPEC_SSB_DISABLE : Z := 3.
Definition PFA_SPEC_SSB_FORCE_DISABLE : Z := 4.
Definition PFA_SPEC_IB_DISABLE : Z := 5.
Definition PFA_SPEC_IB_FORCE_DISABLE : Z := 6.
Definition PFA_SPEC_SSB_NOEXEC : Z := 7.

(** The macros that generate the functions. *)
Definition TASK_PFA_TEST (nr : Z) (p : task_extra) : bool := test_bit nr (atomic_flags p).
Definition TASK_PFA_SET (nr : Z) (p : task_extra) : task_extra := p <| atomic_flags := set_bit nr (atomic_flags p) |>.
Definition TASK_PFA_CLEAR (nr : Z) (p : task_extra) : task_extra := p <| atomic_flags := clear_bit nr (atomic_flags p) |>.

Definition task_no_new_privs := TASK_PFA_TEST PFA_NO_NEW_PRIVS.
Definition task_set_no_new_privs := TASK_PFA_SET PFA_NO_NEW_PRIVS.
Definition task_spread_page := TASK_PFA_TEST PFA_SPREAD_PAGE.
Definition task_set_spread_page := TASK_PFA_SET PFA_SPREAD_PAGE.
Definition task_clear_spread_page := TASK_PFA_CLEAR PFA_SPREAD_PAGE.
Definition task_spread_slab := TASK_PFA_TEST PFA_SPREAD_SLAB.
Definition task_set_spread_slab := TASK_PFA_SET PFA_SPREAD_SLAB.
Definition task_clear_spread_slab := TASK_PFA_CLEAR PFA_SPREAD_SLAB.
Definition task_spec_ssb_disable := TASK_PFA_TEST PFA_SPEC_SSB_DISABLE.
Definition task_set_spec_ssb_disable := TASK_PFA_SET PFA_SPEC_SSB_DISABLE.
Definition task_clear_spec_ssb_disable := TASK_PFA_CLEAR PFA_SPEC_SSB_DISABLE.
Definition task_spec_ssb_noexec := TASK_PFA_TEST PFA_SPEC_SSB_NOEXEC.
Definition task_set_spec_ssb_noexec := TASK_PFA_SET PFA_SPEC_SSB_NOEXEC.
Definition task_clear_spec_ssb_noexec := TASK_PFA_CLEAR PFA_SPEC_SSB_NOEXEC.
Definition task_spec_ssb_force_disable := TASK_PFA_TEST PFA_SPEC_SSB_FORCE_DISABLE.
Definition task_set_spec_ssb_force_disable := TASK_PFA_SET PFA_SPEC_SSB_FORCE_DISABLE.
Definition task_spec_ib_disable := TASK_PFA_TEST PFA_SPEC_IB_DISABLE.
Definition task_set_spec_ib_disable := TASK_PFA_SET PFA_SPEC_IB_DISABLE.
Definition task_clear_spec_ib_disable := TASK_PFA_CLEAR PFA_SPEC_IB_DISABLE.
Definition task_spec_ib_force_disable := TASK_PFA_TEST PFA_SPEC_IB_FORCE_DISABLE.
Definition task_set_spec_ib_force_disable := TASK_PFA_SET PFA_SPEC_IB_FORCE_DISABLE.

(** Every function of the header that changes the atomic flags. *)
Definition pfa_changes : list (task_extra -> task_extra) :=
  [task_set_no_new_privs; task_set_spread_page; task_clear_spread_page; task_set_spread_slab;
   task_clear_spread_slab; task_set_spec_ssb_disable; task_clear_spec_ssb_disable; task_set_spec_ssb_noexec;
   task_clear_spec_ssb_noexec; task_set_spec_ssb_force_disable; task_set_spec_ib_disable;
   task_clear_spec_ib_disable; task_set_spec_ib_force_disable].

(** ** Thread flags *)

(** On the flags of the task's [thread_info]; the test-and-change functions return
    the old flag. *)
Definition set_tsk_thread_flag (t : task_struct) (flag : Z) : task_struct :=
  t <| thread_info_flags := set_bit flag (thread_info_flags t) |>.
Definition clear_tsk_thread_flag (t : task_struct) (flag : Z) : task_struct :=
  t <| thread_info_flags := clear_bit flag (thread_info_flags t) |>.
Definition update_tsk_thread_flag (t : task_struct) (flag : Z) (value : bool) : task_struct :=
  if value then set_tsk_thread_flag t flag else clear_tsk_thread_flag t flag.
Definition test_tsk_thread_flag (t : task_struct) (flag : Z) : bool := test_bit flag (thread_info_flags t).
Definition test_and_set_tsk_thread_flag (t : task_struct) (flag : Z) : bool * task_struct :=
  (test_tsk_thread_flag t flag, set_tsk_thread_flag t flag).
Definition test_and_clear_tsk_thread_flag (t : task_struct) (flag : Z) : bool * task_struct :=
  (test_tsk_thread_flag t flag, clear_tsk_thread_flag t flag).

(** ** Ids *)

Section Ids.
(** [__task_pid_nr_ns]: the id of a kind in a name space ([None]: the caller's). *)
Inductive pid_type := PIDTYPE_PID | PIDTYPE_TGID | PIDTYPE_PGID | PIDTYPE_SID.
Context (__task_pid_nr_ns : ptr -> pid_type -> option ptr -> Z) (init_pid_ns : ptr) (extra : ptr -> task_extra).

Definition task_pid_nr (t : task_struct) : Z := pid t.
Definition task_pid_nr_ns (tsk ns : ptr) : Z := __task_pid_nr_ns tsk PIDTYPE_PID (Some ns).
Definition task_pid_vnr (tsk : ptr) : Z := __task_pid_nr_ns tsk PIDTYPE_PID None.
Definition task_tgid_nr (tsk : ptr) : Z := tgid (extra tsk).
Definition pid_alive (p : ptr) : bool := bool_decide (is_Some (thread_pid (extra p))).
Definition task_pgrp_nr_ns (tsk ns : ptr) : Z := __task_pid_nr_ns tsk PIDTYPE_PGID (Some ns).
Definition task_pgrp_vnr (tsk : ptr) : Z := __task_pid_nr_ns tsk PIDTYPE_PGID None.
Definition task_session_nr_ns (tsk ns : ptr) : Z := __task_pid_nr_ns tsk PIDTYPE_SID (Some ns).
Definition task_session_vnr (tsk : ptr) : Z := __task_pid_nr_ns tsk PIDTYPE_SID None.
Definition task_tgid_nr_ns (tsk ns : ptr) : Z := __task_pid_nr_ns tsk PIDTYPE_TGID (Some ns).
Definition task_tgid_vnr (tsk : ptr) : Z := __task_pid_nr_ns tsk PIDTYPE_TGID None.
Definition task_ppid_nr_ns (tsk ns : ptr) : Z :=
  if pid_alive tsk then task_tgid_nr_ns (real_parent (extra tsk)) ns else 0.
Definition task_ppid_nr (tsk : ptr) : Z := task_ppid_nr_ns tsk init_pid_ns.
Definition task_pgrp_nr (tsk : ptr) : Z := task_pgrp_nr_ns tsk init_pid_ns.
Definition is_global_init (tsk : ptr) : bool := task_tgid_nr tsk =? 1.
End Ids.

(** ** Restartable sequences *)

Section Rseq.
(** Bits of uapi/linux/rseq.h, asm/thread_info.h and uapi/linux/sched.h. *)
Context (RSEQ_CS_FLAG_NO_RESTART_ON_PREEMPT_BIT RSEQ_CS_FLAG_NO_RESTART_ON_SIGNAL_BIT
  RSEQ_CS_FLAG_NO_RESTART_ON_MIGRATE_BIT TIF_NOTIFY_RESUME CLONE_VM : Z).

Definition RSEQ_EVENT_PREEMPT_BIT : Z := RSEQ_CS_FLAG_NO_RESTART_ON_PREEMPT_BIT.
Definition RSEQ_EVENT_SIGNAL_BIT : Z := RSEQ_CS_FLAG_NO_RESTART_ON_SIGNAL_BIT.
Definition RSEQ_EVENT_MIGRATE_BIT : Z := RSEQ_CS_FLAG_NO_RESTART_ON_MIGRATE_BIT.

(** A task with its extra fields. *)
Definition rseq_set_notify_resume (x : task_struct * task_extra) : task_struct * task_extra :=
  if bool_decide (is_Some (rseq x.2)) then (set_tsk_thread_flag x.1 TIF_NOTIFY_RESUME, x.2) else x.

Definition rseq_mark (bit : Z) (x : task_extra) : task_extra :=
  x <| rseq_event_mask := set_bit bit (rseq_event_mask x) |>.

(** The result says whether [__rseq_handle_notify_resume] is called. *)
Definition rseq_handle_notify_resume (x : task_extra) : bool := bool_decide (is_Some (rseq x)).
Definition rseq_signal_deliver (x : task_extra) : bool * task_extra :=
  let x := rseq_mark RSEQ_EVENT_SIGNAL_BIT x in (rseq_handle_notify_resume x, x).
Definition rseq_preempt (x : task_struct * task_extra) : task_struct * task_extra :=
  rseq_set_notify_resume (x.1, rseq_mark RSEQ_EVENT_PREEMPT_BIT x.2).
Definition rseq_migrate (x : task_struct * task_extra) : task_struct * task_extra :=
  rseq_set_notify_resume (x.1, rseq_mark RSEQ_EVENT_MIGRATE_BIT x.2).

Definition rseq_fork (current t : task_extra) (clone_flags : Z) : task_extra :=
  if has clone_flags CLONE_VM
  then t <| rseq := None |> <| rseq_sig := 0 |> <| rseq_event_mask := 0 |>
  else t <| rseq := rseq current |> <| rseq_sig := rseq_sig current |>
         <| rseq_event_mask := rseq_event_mask current |>.
Definition rseq_execve (t : task_extra) : task_extra :=
  t <| rseq := None |> <| rseq_sig := 0 |> <| rseq_event_mask := 0 |>.
End Rseq.

(** ** Facts *)

(** The process flags are different bits of an unsigned int. *)
Lemma process_flags_bits :
  exists bits, process_flags = (fun b => 2 ^ b) <$> bits /\ NoDup bits /\ Forall (fun b => 0 <= b < 32) bits.
Proof.
  exists [1; 2; 4; 5; 6; 7; 8; 9; 10; 11; 12; 13; 14; 15; 16; 17; 18; 19; 20; 21; 22; 23; 25; 26; 27; 28; 29; 30; 31].
  split; [reflexivity|]. split; [by apply (bool_decide_unpack _)|]. by apply (bool_decide_unpack _).
Qed.

(** The bit of [PF_USED_MATH] becomes what is asked for, the others stay. *)
Lemma conditional_used_math_bits condition flags i : 0 <= i ->
  Z.testbit (conditional_stopped_child_used_math condition flags) i =
    if i =? 13 then condition else Z.testbit flags i.
Proof.
  intros Hi. unfold conditional_stopped_child_used_math, andnot. change PF_USED_MATH with (2 ^ 13).
  rewrite Z.lor_spec, Z.land_spec, Z.lnot_spec, Z.pow2_bits_eqb by done. rewrite (Z.eqb_sym 13 i).
  destruct condition; [rewrite Z.pow2_bits_eqb, (Z.eqb_sym 13 i) by done|rewrite Z.bits_0];
    by destruct (i =? 13), (Z.testbit flags i).
Qed.

(** [tsk_used_math] is 0 or the flag, as its comment says, and tells what the
    macros set. *)
Lemma tsk_used_math_values condition flags :
  tsk_used_math (conditional_stopped_child_used_math condition flags) = if condition then PF_USED_MATH else 0.
Proof.
  unfold tsk_used_math. apply Z.bits_inj'. intros i Hi. rewrite Z.land_spec, conditional_used_math_bits by done.
  change PF_USED_MATH with (2 ^ 13).
  destruct condition; rewrite ?Z.bits_0, !Z.pow2_bits_eqb, (Z.eqb_sym 13 i) by done; by destruct (i =? 13), (Z.testbit flags i).
Qed.

(** Restoring the flags of a mask undoes every change within the mask, and only
    those. *)
Lemma current_restore_flags_exact orig mask now :
  (forall i, 0 <= i -> Z.testbit mask i = false -> Z.testbit now i = Z.testbit orig i) ->
  current_restore_flags orig mask now = orig.
Proof.
  intros Hsame. apply Z.bits_inj'. intros i Hi. unfold current_restore_flags, andnot.
  rewrite Z.lor_spec, !Z.land_spec, Z.lnot_spec by done. specialize (Hsame i Hi).
  destruct (Z.testbit mask i) eqn:Em; cbn [negb]; rewrite ?andb_false_r, ?andb_true_r; cbn [orb]; [done|].
  rewrite orb_false_r. by apply Hsame.
Qed.

(** The generated functions as sets and clears of one bit. *)
Inductive pfa_op := PfaSet (nr : Z) | PfaClear (nr : Z).
Definition pfa_run (o : pfa_op) : task_extra -> task_extra :=
  match o with PfaSet nr => TASK_PFA_SET nr | PfaClear nr => TASK_PFA_CLEAR nr end.
Definition pfa_ops : list pfa_op :=
  [PfaSet 0; PfaSet 1; PfaClear 1; PfaSet 2; PfaClear 2; PfaSet 3; PfaClear 3; PfaSet 7; PfaClear 7; PfaSet 4;
   PfaSet 5; PfaClear 5; PfaSet 6].

Lemma pfa_changes_ops : pfa_changes = pfa_run <$> pfa_ops.
Proof. reflexivity. Qed.

Definition pfa_all (fs : list (task_extra -> task_extra)) (p : task_extra) : task_extra := fold_left (fun p f => f p) fs p.

(** A run of generated functions keeps a set flag that none of them clears. *)
Lemma pfa_all_keeps nr fs p : 0 <= nr -> Forall (fun f => f ∈ pfa_changes) fs -> PfaClear nr ∉ pfa_ops ->
  TASK_PFA_TEST nr p = true -> TASK_PFA_TEST nr (pfa_all fs p) = true.
Proof.
  intros Hnr Hfs Hno. revert p. induction Hfs as [|f fs Hf _ IH]; intros p Hp; [done|]. apply IH.
  rewrite pfa_changes_ops in Hf. apply list_elem_of_fmap in Hf as (o & -> & Ho).
  assert (forall m, PfaSet m ∈ pfa_ops \/ PfaClear m ∈ pfa_ops -> 0 <= m) as Hpos.
  { assert (Forall (fun o => match o with PfaSet m | PfaClear m => 0 <= m end) pfa_ops) as Hall.
    { unfold pfa_ops. repeat constructor; lia. }
    rewrite Forall_forall in Hall. intros m [Hm|Hm]; by apply Hall in Hm. }
  unfold TASK_PFA_TEST in *. destruct o as [m|m]; cbn [pfa_run]; unfold TASK_PFA_SET, TASK_PFA_CLEAR; rsimpl.
  - rewrite test_set_bit, Hp by (done || apply Hpos; by left). apply orb_true_r.
  - rewrite test_clear_bit, Hp by (done || apply Hpos; by right). rewrite andb_true_r.
    apply negb_true_iff, Z.eqb_neq. by intros ->.
Qed.

(** Of the eight atomic flags, those that the generated functions can ever take
    back are the page and slab spreading and the speculation flags that were not
    forced; no_new_privs and the forced mitigations, once set, survive every
    sequence of calls. *)
Theorem permanent_restrictions (nr : Z) :
  0 <= nr < 8 ->
  (exists fs p, Forall (fun f => f ∈ pfa_changes) fs /\ TASK_PFA_TEST nr p = true /\
     TASK_PFA_TEST nr (pfa_all fs p) = false) <->
  ~ nr ∈ [PFA_NO_NEW_PRIVS; PFA_SPEC_SSB_FORCE_DISABLE; PFA_SPEC_IB_FORCE_DISABLE].
Proof.
  intros Hnr. split.
  - intros (fs & p & Hfs & Hset & Hclear) Hin.
    rewrite (pfa_all_keeps nr fs p) in Hclear; [done|lia|done| |done].
    rewrite !elem_of_cons in Hin. destruct Hin as [->|[->|[->|[]%elem_of_nil]]]; unfold pfa_ops;
      rewrite !elem_of_cons, elem_of_nil; intros Hx; by repeat destruct Hx as [Hx|Hx].
  - intros Hno. assert (nr = 1 \/ nr = 2 \/ nr = 3 \/ nr = 5 \/ nr = 7) as Hc.
    { rewrite !not_elem_of_cons in Hno. unfold PFA_NO_NEW_PRIVS, PFA_SPEC_SSB_FORCE_DISABLE, PFA_SPEC_IB_FORCE_DISABLE in Hno. lia. }
    set (p := TASK_PFA_SET nr (mk_task_extra 0 0 None 1%positive None 0 0)).
    exists [TASK_PFA_CLEAR nr], p. split.
    + constructor; [|done]. rewrite pfa_changes_ops. apply list_elem_of_fmap. exists (PfaClear nr). split; [done|].
      unfold pfa_ops. rewrite !elem_of_cons. intuition (subst; eauto 20).
    + unfold TASK_PFA_TEST, p, pfa_all, TASK_PFA_SET, TASK_PFA_CLEAR. cbn [fold_left]. rsimpl. cbn [atomic_flags].
      rewrite test_clear_bit, !test_set_bit by lia. by rewrite Z.eqb_refl.
Qed.

Lemma permanent_restrictions_witness :
  exists fs p, Forall (fun f => f ∈ pfa_changes) fs /\ TASK_PFA_TEST 3 p = true /\
    TASK_PFA_TEST 3 (pfa_all fs p) = false.
Proof. apply (permanent_restrictions 3); [lia|]. by apply (bool_decide_unpack _). Defined.

(** A thread flag that is updated reads as asked, the other flags as before. *)
Lemma update_thread_flag_test t flag flag' value : 0 <= flag -> 0 <= flag' ->
  test_tsk_thread_flag (update_tsk_thread_flag t flag value) flag' =
    if flag' =? flag then value else test_tsk_thread_flag t flag'.
Proof.
  intros H H'. unfold update_tsk_thread_flag, test_tsk_thread_flag. destruct value; cbn [set_tsk_thread_flag clear_tsk_thread_flag].
  - unfold set_tsk_thread_flag. rsimpl. rewrite test_set_bit by done. by destruct (flag' =? flag).
  - unfold clear_tsk_thread_flag. rsimpl. rewrite test_clear_bit by done. by destruct (flag' =? flag).
Qed.

(** A task that is migrated while it has a restartable sequence returns to user
    mode through the handler, with the event recorded. *)
Lemma rseq_migrate_notified mb tif t x : 0 <= mb -> 0 <= tif -> is_Some (rseq x) ->
  let '(t', x') := rseq_migrate mb tif (t, x) in
  test_tsk_thread_flag t' tif = true /\ test_bit mb (rseq_event_mask x') = true.
Proof.
  intros Hm Ht Hr. unfold rseq_migrate, rseq_set_notify_resume, rseq_mark. cbn [fst snd]. rsimpl.
  rewrite bool_decide_eq_true_2 by done. unfold RSEQ_EVENT_MIGRATE_BIT. split.
  - unfold test_tsk_thread_flag, set_tsk_thread_flag. rsimpl. rewrite test_set_bit by done. by rewrite Z.eqb_refl.
  - rsimpl. rewrite test_set_bit by done. by rewrite Z.eqb_refl.
Qed.
