(* ===== verification/Notifiers.v ===== *)
(** * Notifiers: preemption notifiers (core.c, CONFIG_PREEMPT_NOTIFIERS)

    A task has a list of notifiers whose callbacks run when it is switched out
    and in.  Callbacks belong to other code and may change whatever they like,
    the lists included; [hlist_del] poisons the links of what it removes, so that
    a loop that stands at a removed entry does not get further ([None]). *)

From S2P Require Import Prelude Task.

(** The count of the static key, the lists (newest first) and the data of the
    owners of the notifiers. *)
Record pn_state (X : Type) := mk_pn_state {
  preempt_notifier_key : Z;
  preempt_notifiers : ptr -> list ptr;
  pn_data : X
}.
Arguments mk_pn_state {X} _ _ _.
Arguments preempt_notifier_key {X} _.
Arguments preempt_notifiers {X} _ _.
Arguments pn_data {X} _.

Section Notifiers.
Context {X : Type}.
Abbreviation st := (pn_state X).

(** The callbacks of a notifier: [sched_in] with the CPU, [sched_out] with the
    next task. *)
Class NotifierOps := {
  sched_in : ptr -> Z -> st -> st;
  sched_out : ptr -> ptr -> st -> st
}.
Context {NO : NotifierOps}.

Definition preempt_notifier_inc (s : st) : st :=
  mk_pn_state (preempt_notifier_key s + 1) (preempt_notifiers s) (pn_data s).
Definition preempt_notifier_dec (s : st) : st :=
  mk_pn_state (preempt_notifier_key s - 1) (preempt_notifiers s) (pn_data s).

Definition set_notifiers (task : ptr) (l : list ptr) (s : st) : st :=
  mk_pn_state (preempt_notifier_key s) (fun q => if decide (q = task) then l else preempt_notifiers s q) (pn_data s).

(** For the current task; the result says whether it warns. *)
Definition preempt_notifier_register (current notifier : ptr) (s : st) : bool * st :=
  (negb (nz (preempt_notifier_key s)), set_notifiers current (notifier :: preempt_notifiers s current) s).

(** [hlist_del] finds the list by itself: a notifier is on one list at most. *)
Definition preempt_notifier_unregister (notifier : ptr) (s : st) : st :=
  mk_pn_state (preempt_notifier_key s) (fun q => filter (fun n => n <> notifier) (preempt_notifiers s q)) (pn_data s).

(** The entry after [n] of a list that has [n]. *)
Fixpoint entry_after (n : ptr) (l : list ptr) : option ptr :=
  match l with
  | [] => None
  | x :: l => if decide (x = n) then head l else entry_after n l
  end.

(** [hlist_for_each_entry]: the next entry is read after the callback. *)
Fixpoint fire (fuel : nat) (call : ptr -> st -> st) (task : ptr) (at_ : option ptr) (s : st) : option st :=
  match at_ with
  | None => Some s
  | Some n =>
      match fuel with
      | 0%nat => None
      | S fuel =>
          let s := call n s in
          let l := preempt_notifiers s task in
          if decide (n ∈ l) then fire fuel call task (entry_after n l) s else None
      end
  end.

Definition __fire_sched_in_preempt_notifiers (fuel : nat) (cpu : Z) (curr : ptr) (s : st) : option st :=
  fire fuel (fun n => sched_in n cpu) curr (head (preempt_notifiers s curr)) s.
Definition __fire_sched_out_preempt_notifiers (fuel : nat) (curr next : ptr) (s : st) : option st :=
  fire fuel (fun n => sched_out n next) curr (head (preempt_notifiers s curr)) s.

Definition fire_sched_in_preempt_notifiers (fuel : nat) (cpu : Z) (curr : ptr) (s : st) : option st :=
  if nz (preempt_notifier_key s) then __fire_sched_in_preempt_notifiers fuel cpu curr s else Some s.
Definition fire_sched_out_preempt_notifiers (fuel : nat) (curr next : ptr) (s : st) : option st :=
  if nz (preempt_notifier_key s) then __fire_sched_out_preempt_notifiers fuel curr next s else Some s.

(** ** Who is called *)

Lemma entry_after_app pre n l : n ∉ pre -> entry_after n (pre ++ n :: l) = head l.
Proof.
  induction pre as [|x pre IH]; intros Hn; cbn; [by rewrite decide_True|].
  apply not_elem_of_cons in Hn as [H1 H2]. rewrite decide_False by done. by apply IH.
Qed.

(** Callbacks that leave the list of the task alone. *)
Definition keeps_list (call : ptr -> st -> st) (task : ptr) : Prop :=
  forall n s, preempt_notifiers (call n s) task = preempt_notifiers s task.

Lemma fire_suffix call task : keeps_list call task -> forall l pre fuel s,
  preempt_notifiers s task = pre ++ l -> NoDup (pre ++ l) -> (length l <= fuel)%nat ->
  fire fuel call task (head l) s = Some (fold_left (fun s n => call n s) l s).
Proof.
  intros Hk. induction l as [|n l IH]; intros pre fuel s Hs Hnd Hf; [by destruct fuel|].
  destruct fuel as [|fuel]; [cbn in Hf; lia|]. cbn [head fire fold_left]. rewrite Hk, Hs.
  rewrite decide_True by (apply elem_of_app; right; by left).
  apply NoDup_app in Hnd as (Hnp & Hdis & Hnl).
  assert (n ∉ pre) as Hn by (intros Hx; apply (Hdis n Hx); by left).
  rewrite entry_after_app by done. apply (IH (pre ++ [n])).
  - by rewrite Hk, Hs, <- app_assoc.
  - rewrite <- app_assoc. cbn. apply NoDup_app. done.
  - cbn in Hf. lia.
Qed.

(** While notifiers are enabled a switch calls every notifier of the task exactly
    once, the one registered last first, if the callbacks leave the list alone;
    while they are disabled it calls none. *)
Lemma fire_calls_each cpu curr s :
  keeps_list (fun n => sched_in n cpu) curr -> NoDup (preempt_notifiers s curr) ->
  fire_sched_in_preempt_notifiers (length (preempt_notifiers s curr)) cpu curr s =
  Some (if nz (preempt_notifier_key s) then fold_left (fun s n => sched_in n cpu s) (preempt_notifiers s curr) s else s).
Proof.
  intros Hk Hnd. unfold fire_sched_in_preempt_notifiers. destruct (nz _); [|done].
  by apply (fire_suffix _ curr Hk _ []).
Qed.

Lemma fire_out_calls_each curr next s :
  keeps_list (fun n => sched_out n next) curr -> NoDup (preempt_notifiers s curr) ->
  fire_sched_out_preempt_notifiers (length (preempt_notifiers s curr)) curr next s =
  Some (if nz (preempt_notifier_key s) then fold_left (fun s n => sched_out n next s) (preempt_notifiers s curr) s else s).
Proof.
  intros Hk Hnd. unfold fire_sched_out_preempt_notifiers. destruct (nz _); [|done].
  by apply (fire_suffix _ curr Hk _ []).
Qed.

(** Registering and unregistering a new notifier changes nothing. *)
Lemma register_unregister current n s : (forall q, n ∉ preempt_notifiers s q) ->
  let s' := preempt_notifier_unregister n (preempt_notifier_register current n s).2 in
  preempt_notifier_key s' = preempt_notifier_key s /\ pn_data s' = pn_data s /\
  forall q, preempt_notifiers s' q = preempt_notifiers s q.
Proof.
  intros Hn. cbn. split; [done|]. split; [done|]. intros q.
  assert (forall l : list ptr, n ∉ l -> filter (fun m => m <> n) l = l) as Hf.
  { intros l Hl. induction l as [|x l IH]; [done|]. apply not_elem_of_cons in Hl as [H1 H2].
    rewrite filter_cons_True by congruence. by rewrite IH. }
  destruct (decide (q = current)) as [->|]; [|by apply Hf].
  rewrite filter_cons_False by (by intros []). by apply Hf.
Qed.

(** The comment of [preempt_notifier_unregister] is right: a notifier that
    unregisters itself in its callback stops the loop at poisoned links, whatever
    the fuel and wherever it is in the list. *)
Lemma unregister_in_callback_fails call task n fuel s :
  n ∈ preempt_notifiers s task ->
  (forall m s, m <> n -> preempt_notifiers (call m s) task = preempt_notifiers s task) ->
  (forall s, preempt_notifiers (call n s) task = filter (fun m => m <> n) (preempt_notifiers s task)) ->
  NoDup (preempt_notifiers s task) ->
  fire fuel call task (head (preempt_notifiers s task)) s = None.
Proof.
  intros Hl Hother Hself Hnd.
  apply list_elem_of_split in Hl as (l & r & Hr). enough (forall pre q, preempt_notifiers s task = pre ++ q ++ n :: r ->
    fire fuel call task (head (q ++ n :: r)) s = None) as Hgo by (rewrite Hr; by apply (Hgo [] l)).
  clear l Hr. revert s Hnd. induction fuel as [|fuel IH]; intros s Hnd pre q Hs; [by destruct q|].
  destruct q as [|x q]; cbn [app head fire].
  - rewrite Hself, decide_False; [done|]. intros [? _]%list_elem_of_filter. done.
  - assert (x <> n) as Hx.
    { intros ->. rewrite Hs in Hnd. apply NoDup_app in Hnd as (_ & _ & Hnd). cbn in Hnd. apply NoDup_cons in Hnd as [Hnd _].
      apply Hnd. apply elem_of_app. right. by left. }
    rewrite (Hother x s Hx), Hs. rewrite decide_True by (apply elem_of_app; right; by left).
    rewrite <- (Hother x s Hx) in Hs, Hnd.
    assert (x ∉ pre) as Hp.
    { rewrite Hs in Hnd. apply NoDup_app in Hnd as (_ & Hd & _). intros Hin. apply (Hd x Hin). by left. }
    change (pre ++ (x :: q) ++ n :: r) with (pre ++ x :: (q ++ n :: r)). rewrite entry_after_app by done.
    apply (IH (call x s) Hnd (pre ++ [x]) q). rewrite Hs. by rewrite <- app_assoc.
Qed.
End Notifiers.
