(* ===== verification/Checks.v ===== *)
(** * Checks: the scheduler's debugging checks and task dumps (core.c)

    [___might_sleep], [__might_sleep], [__cant_sleep] and [__schedule_bug], which
    look at the context they are called in and write reports, the functions that
    show tasks, and the helpers for debuggers.  What is written is a list of
    values; the static variables of the checks are their state. *)

From Stdlib Require Import Sorting.Sorted.
From S2P Require Import Prelude Task TaskFlags.

(** ** What the checks look at *)

(** The current task, with the fields that only debugging uses. *)
Record checked_task := mk_checked_task {
  ct_task : task_struct;
  comm : list Byte.byte;
  non_block_count : Z;
  task_state_change : Z;
  ct_preempt_disable_ip : Z
}.

(** A call: the moment, the CPU and the task that makes it. *)
Record context := mk_context {
  jiffies : Z;  (* unsigned long *)
  preempt_count : Z;
  rcu_preempt_depth : Z;
  irqs_disabled : bool;
  oops_in_progress : bool;
  panic_on_warn : bool;
  system_state : Z;
  stack_end_corrupted : bool;
  ctx_current : checked_task
}.

(** The configuration, and what other headers make of a preemption count. *)
Class CheckEnv := {
  HZ : Z;
  CONFIG_DEBUG_PREEMPT : bool;
  CONFIG_PREEMPT_COUNT : bool;
  SYSTEM_BOOTING : Z;
  SYSTEM_RUNNING : Z;
  in_atomic : Z -> bool;
  in_atomic_preempt_off : Z -> bool
}.

(** A line or an action of a report. *)
Inductive report :=
  | ScheduledWhileAtomic (name : list Byte.byte) (pid count : Z)
  | SleptInvalid (file : list Byte.byte) (line : Z)
  | AssumedAtomic (file : list Byte.byte) (line : Z)
  | CalledIn (atomic irqs_off : bool) (non_block : option Z) (pid : Z) (name : list Byte.byte)
  | BlockedWhileNotRunning (state change : Z)
  | ThreadOverranStack
  | HeldLocks
  | Modules
  | IrqTrace
  | PreemptionDisabledAt (ip : Z)
  | Panic
  | Stack
  | TaintWarn.

Section Checks.
Context {CE : CheckEnv}.

Definition get_preempt_disable_ip (p : checked_task) : Z :=
  if CONFIG_DEBUG_PREEMPT then ct_preempt_disable_ip p else 0.

Definition report_if (b : bool) (l : list report) : list report := if b then l else [].

(** [panic] does not return. *)
Definition __schedule_bug (c : context) (prev : checked_task) : list report :=
  let preempt_disable_ip := get_preempt_disable_ip (ctx_current c) in
  if oops_in_progress c then []
  else
    [ScheduledWhileAtomic (comm prev) (pid (ct_task prev)) (preempt_count c); HeldLocks; Modules] ++
    report_if (irqs_disabled c) [IrqTrace] ++
    report_if (CONFIG_DEBUG_PREEMPT && in_atomic_preempt_off (preempt_count c))
      [PreemptionDisabledAt preempt_disable_ip] ++
    (if panic_on_warn c then [Panic] else [Stack; TaintWarn]).

(** ** The latency of preemption

    With [ip] the caller of the lock code, and the count when called: the task
    after the call, and whether the tracer is told. *)
Definition preempt_latency_start (val count ip : Z) (p : checked_task) : checked_task * bool :=
  if count =? val then
    (if CONFIG_DEBUG_PREEMPT
     then mk_checked_task (ct_task p) (comm p) (non_block_count p) (task_state_change p) ip else p, true)
  else (p, false).
Definition preempt_latency_stop (val count : Z) : bool := count =? val.

(** Disabling preemption (the count is read after it is raised) and enabling it
    (before it is lowered): the tracer sees the outermost pair only. *)
Lemma latency_outermost val count ip p :
  (preempt_latency_start val (count + val) ip p).2 = (count =? 0) /\ preempt_latency_stop val (count + val) = (count =? 0).
Proof.
  unfold preempt_latency_start, preempt_latency_stop.
  destruct (Z.eqb_spec (count + val) val), (Z.eqb_spec count 0); try lia; done.
Qed.

(** ** Sleeping where one must not *)

Definition preempt_count_equals (c : context) (preempt_offset : Z) : bool :=
  s32 (preempt_count c + rcu_preempt_depth c) =? preempt_offset.

(** [time_before]: [a] is before [b], modulo the width of the counter. *)
Definition time_before (a b : Z) : bool := s64 (a - b) <? 0.

(** The condition to say nothing. *)
Definition sleeping_is_fine (c : context) (preempt_offset : Z) : bool :=
  (preempt_count_equals c preempt_offset && negb (irqs_disabled c) &&
   negb (is_idle_task (ct_task (ctx_current c))) && negb (nz (non_block_count (ctx_current c))))
  || (system_state c =? SYSTEM_BOOTING) || (SYSTEM_RUNNING <? system_state c) || oops_in_progress c.

(** The rate limit: the time of the last report, 0 for none. *)
Definition rate_limited (now prev_jiffy : Z) : bool := time_before now (u64 (prev_jiffy + HZ)) && nz prev_jiffy.

(** The new value of the static [prev_jiffy] and what is written. *)
Definition ___might_sleep (file : list Byte.byte) (line preempt_offset : Z) (c : context) (prev_jiffy : Z)
  : Z * list report :=
  if sleeping_is_fine c preempt_offset then (prev_jiffy, [])
  else if rate_limited (jiffies c) prev_jiffy then (prev_jiffy, [])
  else
    let cur := ctx_current c in
    (jiffies c,
     [SleptInvalid file line;
      CalledIn (in_atomic (preempt_count c)) (irqs_disabled c) (Some (non_block_count cur)) (pid (ct_task cur)) (comm cur)] ++
     report_if (stack_end_corrupted c) [ThreadOverranStack] ++
     [HeldLocks] ++
     report_if (irqs_disabled c) [IrqTrace] ++
     report_if (CONFIG_DEBUG_PREEMPT && negb (preempt_count_equals c preempt_offset))
       [PreemptionDisabledAt (get_preempt_disable_ip cur)] ++
     [Stack; TaintWarn]).

(** [WARN_ONCE] has a static flag of its own. *)
Definition __might_sleep (file : list Byte.byte) (line preempt_offset : Z) (c : context) (warned : bool) (prev_jiffy : Z)
  : bool * Z * list report :=
  let cur := ctx_current c in
  let warn := negb (t_state (ct_task cur) =? TASK_RUNNING) && nz (task_state_change cur) in
  let '(prev_jiffy, l) := ___might_sleep file line preempt_offset c prev_jiffy in
  (warned || warn, prev_jiffy,
   report_if (warn && negb warned) [BlockedWhileNotRunning (t_state (ct_task cur)) (task_state_change cur)] ++ l).

Definition __cant_sleep (file : list Byte.byte) (line preempt_offset : Z) (c : context) (prev_jiffy : Z)
  : Z * list report :=
  if irqs_disabled c then (prev_jiffy, [])
  else if negb CONFIG_PREEMPT_COUNT then (prev_jiffy, [])
  else if preempt_offset <? preempt_count c then (prev_jiffy, [])
  else if rate_limited (jiffies c) prev_jiffy then (prev_jiffy, [])
  else
    let cur := ctx_current c in
    (jiffies c,
     [AssumedAtomic file line;
      CalledIn (in_atomic (preempt_count c)) (irqs_disabled c) None (pid (ct_task cur)) (comm cur);
      HeldLocks; Stack; TaintWarn]).

(** ** Showing tasks *)

(** The line of a task: [running] for "running task", the free stack, its pid and
    its parent's, and its thread flags; then its worker and its stack follow. *)
Record task_line := mk_task_line {
  tl_task : ptr;
  tl_state : option Byte.byte;
  tl_running : bool;
  tl_free : Z;
  tl_pid : Z;
  tl_ppid : Z;
  tl_flags : Z
}.

Section Show.
(** [try_get_task_stack], [stack_not_used] (0 without CONFIG_DEBUG_STACK_USAGE)
    and [fls] are other code's. *)
Context (task_at : ptr -> task_struct) (extra : ptr -> task_extra) (fls : Z -> Z)
  (try_get_task_stack : ptr -> bool) (stack_not_used : ptr -> Z).

Definition sched_show_task (p : ptr) : option task_line :=
  if negb (try_get_task_stack p) then None
  else
    let t := task_at p in
    Some (mk_task_line p (task_state_to_char fls t) (t_state t =? TASK_RUNNING) (stack_not_used p)
            (task_pid_nr t)
            (if pid_alive extra p then task_pid_nr (task_at (real_parent (extra p))) else 0)
            (thread_info_flags t)).

(** What a dump shows: lines, the scheduler's own state, all locks. *)
Inductive shown := ShownTask (l : task_line) | ShownSchedDebug | ShownAllLocks | ShownCpu (cpu : Z).

Definition show_task (p : ptr) : list shown :=
  match sched_show_task p with Some l => [ShownTask l] | None => [] end.

(** The loop over all threads, in the order of the list. *)
Fixpoint show_tasks (state_filter : Z) (threads : list ptr) : list shown :=
  match threads with
  | [] => []
  | p :: threads =>
      (if state_filter_match state_filter (task_at p) then show_task p else []) ++ show_tasks state_filter threads
  end.

Definition show_state_filter (sched_debug : bool) (threads : list ptr) (state_filter : Z) : list shown :=
  show_tasks state_filter threads ++
  (if sched_debug && negb (nz state_filter) then [ShownSchedDebug] else []) ++
  (if negb (nz state_filter) then [ShownAllLocks] else []).

(** ** For debuggers *)

Definition curr_task (cpu_curr : Z -> ptr) (cpu : Z) : ptr := cpu_curr cpu.
Definition ia64_set_curr_task (cpu : Z) (p : ptr) (cpu_curr : Z -> ptr) : Z -> ptr :=
  fun i => if i =? cpu then p else cpu_curr i.

Definition dump_cpu_task (cpu_curr : Z -> ptr) (cpu : Z) : list shown := ShownCpu cpu :: show_task (curr_task cpu_curr cpu).

(** The text section of the scheduler; [in_lock_functions] is the lock code's. *)
Definition in_sched_functions (in_lock_functions : Z -> bool) (sched_text_start sched_text_end addr : Z) : bool :=
  in_lock_functions addr || ((sched_text_start <=? addr) && (addr <? sched_text_end)).

(** A filter of 0 shows every task that still has a stack. *)
Lemma show_tasks_in state_filter threads l :
  ShownTask l ∈ show_tasks state_filter threads <->
  exists p, p ∈ threads /\ state_filter_match state_filter (task_at p) = true /\ sched_show_task p = Some l.
Proof.
  induction threads as [|p threads IH]; cbn [show_tasks].
  { split; [by intros ?%elem_of_nil|intros (p & ?%elem_of_nil & _); done]. }
  rewrite elem_of_app, IH. split.
  - intros [H|(q & Hq & H)]; [|exists q; rewrite elem_of_cons; split; [by right|done]].
    exists p. rewrite elem_of_cons. destruct (state_filter_match _ _); [|by apply elem_of_nil in H].
    unfold show_task in H. destruct (sched_show_task p); [|by apply elem_of_nil in H].
    apply list_elem_of_singleton in H as [= ->]. split; [by left|done].
  - intros (q & [->|Hq]%elem_of_cons & Hm & E); [left|right; by exists q].
    rewrite Hm. unfold show_task. rewrite E. by apply list_elem_of_singleton.
Qed.

(** The dump of blocked tasks: those that sleep uninterruptibly, without idle
    kernel threads, and nothing else. *)
Lemma show_blocked sched_debug threads x :
  x ∈ show_state_filter sched_debug threads TASK_UNINTERRUPTIBLE ->
  exists p l, x = ShownTask l /\ tl_task l = p /\ p ∈ threads /\
    Z.testbit (t_state (task_at p)) 1 = true /\ t_state (task_at p) <> TASK_IDLE.
Proof.
  unfold show_state_filter. change (negb (nz TASK_UNINTERRUPTIBLE)) with false.
  rewrite andb_false_r, !app_nil_r. intros H.
  assert (exists l, x = ShownTask l) as [l ->].
  { revert H. induction threads as [|p threads IH]; cbn [show_tasks]; [by intros ?%elem_of_nil|].
    rewrite elem_of_app. intros [H|H]; [|auto]. destruct (state_filter_match _ _); [|by apply elem_of_nil in H].
    unfold show_task in H. destruct (sched_show_task p) as [l|]; [|by apply elem_of_nil in H].
    exists l. by apply list_elem_of_singleton in H. }
  apply show_tasks_in in H as (p & Hp & Hm & E). exists p, l. split; [done|].
  unfold sched_show_task in E. destruct (try_get_task_stack p); [|done]. injection E as <-. split; [done|]. split; [done|].
  unfold state_filter_match in Hm. change (nz TASK_UNINTERRUPTIBLE) with true in Hm. cbn [negb] in Hm.
  destruct (has (t_state (task_at p)) TASK_UNINTERRUPTIBLE) eqn:Hb; cbn [negb] in Hm; [|done].
  change (TASK_UNINTERRUPTIBLE =? TASK_UNINTERRUPTIBLE) with true in Hm. cbn [andb] in Hm.
  destruct (t_state (task_at p) =? TASK_IDLE) eqn:Hi; [done|]. bool_cases. split; [|done].
  destruct (Z.testbit _ 1) eqn:E1; [done|]. unfold has in Hb. apply nz_true in Hb. exfalso. apply Hb.
  apply Z.bits_inj'. intros n Hn. rewrite Z.land_spec, Z.bits_0. change TASK_UNINTERRUPTIBLE with (2 ^ 1).
  rewrite Z.pow2_bits_eqb by lia. destruct (Z.eqb_spec 1 n) as [<-|]; [by rewrite E1|by rewrite andb_false_r].
Qed.
End Show.

(** ** The rate limit of [___might_sleep]

    A run of calls from one place, and when they report. *)
Section Rate.
Context (file : list Byte.byte) (line offset : Z).

Fixpoint reported (calls : list context) (prev_jiffy : Z) : list Z :=
  match calls with
  | [] => []
  | c :: calls =>
      let '(prev_jiffy, l) := ___might_sleep file line offset c prev_jiffy in
      (if l is [] then [] else [jiffies c]) ++ reported calls prev_jiffy
  end.

(** The calls come in order, while the counter is in its first half. *)
Definition in_order : list context -> Prop := StronglySorted (fun c d => jiffies c <= jiffies d).
Definition apart : list Z -> Prop := StronglySorted (fun t u => t + HZ <= u).

Lemma rate_limited_within now prev :
  0 < HZ < 2 ^ 31 -> 0 < prev <= now -> now < 2 ^ 63 -> rate_limited now prev = (now <? prev + HZ).
Proof.
  intros Hz Hp Hn. unfold rate_limited, time_before. rewrite (proj2 (nz_true prev)), andb_true_r by lia.
  rewrite (wrapu_id 64 (prev + HZ)), wraps_id by lia.
  destruct (Z.ltb_spec (now - (prev + HZ)) 0), (Z.ltb_spec now (prev + HZ)); lia.
Qed.

(** A call with a previous report at [prev], or with none. *)
Lemma might_sleep_says c prev :
  0 < HZ < 2 ^ 31 -> 0 < jiffies c < 2 ^ 63 -> prev = 0 \/ 0 < prev <= jiffies c ->
  let '(prev', l) := ___might_sleep file line offset c prev in
  (l = [] /\ prev' = prev /\ (sleeping_is_fine c offset = true \/ 0 < prev /\ jiffies c < prev + HZ)) \/
  (l <> [] /\ prev' = jiffies c /\ sleeping_is_fine c offset = false /\ (prev = 0 \/ prev + HZ <= jiffies c)).
Proof.
  intros Hz Hc Hp. unfold ___might_sleep. destruct (sleeping_is_fine c offset) eqn:Hf; [left; auto|].
  destruct Hp as [->|Hp].
  { unfold rate_limited. change (nz 0) with false. rewrite andb_false_r. right. by split_and!; [|done|done|left]. }
  rewrite rate_limited_within by lia. destruct (Z.ltb_spec (jiffies c) (prev + HZ)); [left; auto with lia|].
  right. by split_and!; [|done|done|right].
Qed.

(** Reports of a run after one at [prev]. *)
Lemma reported_after calls : forall prev,
  0 < HZ < 2 ^ 31 -> in_order calls -> Forall (fun c => 0 < jiffies c < 2 ^ 63 /\ prev <= jiffies c) calls -> 0 <= prev ->
  apart (reported calls prev) /\
  Forall (fun t => prev = 0 \/ prev + HZ <= t) (reported calls prev) /\
  (forall t, t ∈ reported calls prev -> exists c, c ∈ calls /\ jiffies c = t /\ sleeping_is_fine c offset = false) /\
  (forall c, c ∈ calls -> sleeping_is_fine c offset = false ->
     (0 < prev /\ jiffies c < prev + HZ) \/ exists t, t ∈ reported calls prev /\ t <= jiffies c < t + HZ).
Proof.
  induction calls as [|c calls IH]; intros prev Hz Ho Hall Hp.
  { split_and!; [constructor|constructor|by intros ? ?%elem_of_nil|by intros ? ?%elem_of_nil]. }
  apply StronglySorted_inv in Ho as [Ho Hle]. inversion_clear Hall as [|? ? [Hc Hpc] Hall'].
  cbn [reported]. pose proof (might_sleep_says c prev Hz Hc ltac:(lia)) as Hs.
  destruct (___might_sleep file line offset c prev) as [prev' l].
  destruct Hs as [(-> & -> & Hs)|(Hl & -> & Hf & Hs)]; cbn [app].
  - destruct (IH prev Hz Ho Hall' Hp) as (H1 & H2 & H3 & H4). split_and!; [done|done| |].
    + intros t Ht. destruct (H3 t Ht) as (d & Hd & ?). exists d. by rewrite elem_of_cons; split; [right|].
    + intros d [->|Hd]%elem_of_cons Hf; [|auto]. destruct Hs as [Hs|Hs]; [congruence|by left].
  - assert (Forall (fun d => 0 < jiffies d < 2 ^ 63 /\ jiffies c <= jiffies d) calls) as Hall2.
    { apply Forall_forall. intros d Hd. rewrite Forall_forall in Hall', Hle. specialize (Hall' d Hd). specialize (Hle d Hd). lia. }
    destruct (IH (jiffies c) Hz Ho Hall2 ltac:(lia)) as (H1 & H2 & H3 & H4).
    destruct l as [|l0 l]; [done|]. cbn [app]. rewrite Forall_forall in H2. split_and!.
    + constructor; [done|]. apply Forall_forall. intros t Ht. destruct (H2 t Ht); lia.
    + constructor; [lia|]. apply Forall_forall. intros t Ht. destruct (H2 t Ht); lia.
    + intros t [->|Ht]%elem_of_cons; [exists c; by rewrite elem_of_cons; auto|].
      destruct (H3 t Ht) as (d & Hd & ?). exists d. by rewrite elem_of_cons; split; [right|].
    + intros d [->|Hd]%elem_of_cons Hd2; right.
      { exists (jiffies c). rewrite elem_of_cons. split; [by left|lia]. }
      destruct (H4 d Hd Hd2) as [H5|(t & Ht & H5)].
      * exists (jiffies c). rewrite elem_of_cons. rewrite Forall_forall in Hle. specialize (Hle d Hd). split; [by left|lia].
      * exists t. rewrite elem_of_cons. by split; [right|].
Qed.

(** The debugging check [___might_sleep] reports only calls from a context where
    sleeping is wrong, reports at least a second ([HZ]) apart, and is silent about
    such a call only within a second of a report: for calls in order, with a
    counter that is not 0. *)
Theorem might_sleep_rate calls :
  0 < HZ < 2 ^ 31 -> in_order calls -> Forall (fun c => 0 < jiffies c < 2 ^ 63) calls ->
  apart (reported calls 0) /\
  (forall t, t ∈ reported calls 0 -> exists c, c ∈ calls /\ jiffies c = t /\ sleeping_is_fine c offset = false) /\
  (forall c, c ∈ calls -> sleeping_is_fine c offset = false -> exists t, t ∈ reported calls 0 /\ t <= jiffies c < t + HZ).
Proof.
  intros Hz Ho Hall. destruct (reported_after calls 0) as (H1 & H2 & H3 & H4); [done|done| |done|].
  { eapply Forall_impl; [exact Hall|]. intros c Hc. cbv beta in *. lia. }
  split_and!; [done|done|]. intros c Hc Hf. destruct (H4 c Hc Hf) as [?|?]; [lia|done].
Qed.
End Rate.
End Checks.

(** ** A run *)

#[export] Instance demo_checks : CheckEnv := {
  HZ := 250;
  CONFIG_DEBUG_PREEMPT := true;
  CONFIG_PREEMPT_COUNT := true;
  SYSTEM_BOOTING := 0;
  SYSTEM_RUNNING := 2;
  in_atomic c := nz c;
  in_atomic_preempt_off c := negb (c =? 1)
}.

(** At a time, with a preemption count, in a running system. *)
Definition demo_context (now count : Z) : context :=
  mk_context now count 0 false false false 2 false (mk_checked_task zero_task [] 0 0 77).

(** Sleeping is right at 1010 and wrong at the other times: the report at 1000
    silences the calls at 1100 and 1249, and 1250 reports again. *)
Definition demo_calls : list context :=
  [demo_context 1000 1; demo_context 1010 0; demo_context 1100 2; demo_context 1249 1; demo_context 1250 1].

Lemma might_sleep_rate_witness :
  in_order demo_calls /\ reported [] 0 0 demo_calls 0 = [1000; 1250] /\ apart (reported [] 0 0 demo_calls 0).
Proof.
  assert (in_order demo_calls) as H1.
  { unfold in_order, demo_calls. repeat match goal with
    | |- StronglySorted _ (_ :: _) => apply SSorted_cons
    | |- StronglySorted _ [] => apply SSorted_nil
    | |- Forall _ (_ :: _) => apply Forall_cons_2; [by vm_compute|]
    | |- Forall _ [] => apply Forall_nil_2
    end. }
  split; [exact H1|]. split; [vm_compute; reflexivity|].
  refine (proj1 (might_sleep_rate [] 0 0 demo_calls _ H1 _)).
  - change (HZ) with 250. lia.
  - repeat (constructor; [split; reflexivity|]). constructor.
Defined.

(** A report when the counter is 0 is forgotten: the next call reports again. *)
Example report_at_zero_forgotten : reported [] 0 0 [demo_context 0 1; demo_context 1 1; demo_context 2 1] 0 = [0; 1].
Proof. vm_compute. reflexivity. Qed.
