(* ===== verification/PhysAddr.v ===== *)
(** * PhysAddr: translating a virtual address (my_other_get_phy_addr.c)

    The system call walks the page tables of the current process by hand, with
    the offset and test helpers of asm/pgtable.h, which are an interface here.
    [mmu_translate] is what the processor does with a four-level table; the
    theorems compare the two. *)

From S2P Require Import Prelude.

(** ** The helpers of asm/pgtable.h

    A table entry has a location and a value; an offset helper gets the location
    and the value of the entry one level up. *)
Class PgtableApi := {
  PAGE_SHIFT : Z;
  pgd_offset : Z -> Z -> Z;  (* mm->pgd, address *)
  p4d_offset : Z -> Z -> Z -> Z;
  pud_offset : Z -> Z -> Z -> Z;
  pmd_offset : Z -> Z -> Z -> Z;
  pte_offset_kernel : Z -> Z -> Z -> Z;
  pgd_none : Z -> bool;
  p4d_none : Z -> bool;
  pud_none : Z -> bool;
  pmd_none : Z -> bool;
  pte_none : Z -> bool
}.

(** The lines the call prints to the kernel log, without the values. *)
Inductive klog := not_mapped_pgd | not_mapped_p4d | not_mapped_pud | not_mapped_pmd | not_mapped_pte.

(** What the call returns and does: the result, what it writes to the user's
    [result] if the copy succeeds, the log, and the buffers it still holds. *)
Record phy_addr_effect := mk_phy_addr_effect {
  pa_ret : Z;
  pa_written : option Z;
  pa_log : list klog;
  pa_buffers : Z
}.

Section Walk.
Context {G : PgtableApi}.

(** Memory holding the tables. *)
Variable entry : Z -> Z.

Definition PAGE_MASK : Z := Z.lnot (2 ^ PAGE_SHIFT - 1).

(** The location of the last-level entry, and the messages on the way: an entry
    that maps nothing is reported and used all the same. *)
Definition page_walk (mm_pgd vaddr : Z) : Z * list klog :=
  let pgd := pgd_offset mm_pgd vaddr in
  let l1 := if pgd_none (entry pgd) then [not_mapped_pgd] else [] in
  let p4d := p4d_offset pgd (entry pgd) vaddr in
  let l2 := if p4d_none (entry p4d) then [not_mapped_p4d] else [] in
  let pud := pud_offset p4d (entry p4d) vaddr in
  let l3 := if pud_none (entry pud) then [not_mapped_pud] else [] in
  let pmd := pmd_offset pud (entry pud) vaddr in
  let l4 := if pmd_none (entry pmd) then [not_mapped_pmd] else [] in
  let pte := pte_offset_kernel pmd (entry pmd) vaddr in
  let l5 := if pte_none (entry pte) then [not_mapped_pte] else [] in
  (pte, l1 ++ l2 ++ l3 ++ l4 ++ l5).

(** The address the call computes from the last-level entry. *)
Definition phys_of (pte_val vaddr : Z) : Z :=
  let page_addr := u64 (Z.land pte_val PAGE_MASK) in
  let page_offset := u64 (Z.land vaddr (Z.lnot PAGE_MASK)) in
  Z.lor page_addr page_offset.

(** [copied_in] is what [copy_from_user] leaves in the buffer, [copy_ok] whether
    the copy to the user works; both allocations succeed. *)
Definition sys_my_other_get_phy_addr (mm_pgd copied_in : Z) (copy_ok : bool) : phy_addr_effect :=
  let '(pte, log) := page_walk mm_pgd copied_in in
  mk_phy_addr_effect 0 (if copy_ok then Some (phys_of (entry pte) copied_in) else None) log (1 + 1 - 1 - 1).

(** [get_phys_addr] of the test programs: the local variable keeps what the
    stack held when nothing is written. *)
Definition get_phys_addr (mm_pgd virtual_address stack_garbage : Z) (copy_ok : bool) : Z :=
  default stack_garbage (pa_written (sys_my_other_get_phy_addr mm_pgd virtual_address copy_ok)).
End Walk.

(** ** Four-level tables of x86-64 *)

Definition table_index (shift vaddr : Z) : Z := (vaddr / 2 ^ shift) mod 512.
(** The table an entry points to: bits 12..51. *)
Definition next_table (val : Z) : Z := (val / 2 ^ 12) mod 2 ^ 40 * 2 ^ 12.
Definition table_entry (table shift vaddr : Z) : Z := table + 8 * table_index shift vaddr.

(** With five levels folded into four, the p4d entry is the pgd entry. *)
Class PgtableLaws (G : PgtableApi) : Prop := {
  page_shift_12 : PAGE_SHIFT = 12;
  pgd_offset_spec m v : pgd_offset m v = table_entry m 39 v;
  p4d_offset_spec l x v : p4d_offset l x v = l;
  pud_offset_spec l x v : pud_offset l x v = table_entry (next_table x) 30 v;
  pmd_offset_spec l x v : pmd_offset l x v = table_entry (next_table x) 21 v;
  pte_offset_spec l x v : pte_offset_kernel l x v = table_entry (next_table x) 12 v;
  pgd_none_spec x : pgd_none x = false;
  none_spec x : Z.odd x = true ->
    p4d_none x = false /\ pud_none x = false /\ pmd_none x = false /\ pte_none x = false;
  none_zero : p4d_none 0 = true /\ pud_none 0 = true /\ pmd_none 0 = true /\ pte_none 0 = true
}.

#[export] Instance x86_64_four_level : PgtableApi := {|
  PAGE_SHIFT := 12;
  pgd_offset m v := table_entry m 39 v;
  p4d_offset l _ _ := l;
  pud_offset _ x v := table_entry (next_table x) 30 v;
  pmd_offset _ x v := table_entry (next_table x) 21 v;
  pte_offset_kernel _ x v := table_entry (next_table x) 12 v;
  pgd_none _ := false;
  p4d_none x := negb (nz (andnot x 0x60));
  pud_none x := negb (nz (andnot x 0x60));
  pmd_none x := negb (nz (andnot x 0x60));
  pte_none x := negb (nz (andnot x 0x60))
|}.

#[export] Instance x86_64_laws : PgtableLaws x86_64_four_level.
Proof.
  split; try done. intros x Hx. cbn [p4d_none pud_none pmd_none pte_none x86_64_four_level].
  assert (negb (nz (andnot x 0x60)) = false) as ->; [|done].
  unfold nz, andnot. rewrite negb_involutive. apply Z.eqb_neq. intros E.
  apply (f_equal (fun z => Z.testbit z 0)) in E. rewrite Z.land_spec, Z.bit0_odd, Hx in E. discriminate E.
Qed.

(** What the processor does: every entry on the way must be present (bit 0); the
    page frame is bits 12..51 of the last one.  Large pages (bit 7 at the two
    middle levels) end the walk early and are left out. *)
Definition present (x : Z) : bool := Z.odd x.
Definition large (x : Z) : bool := Z.testbit x 7.

Definition mmu_walk (entry : Z -> Z) (cr3 vaddr : Z) : option Z :=
  let e1 := entry (table_entry cr3 39 vaddr) in
  if negb (present e1) then None else
  let e2 := entry (table_entry (next_table e1) 30 vaddr) in
  if negb (present e2) || large e2 then None else
  let e3 := entry (table_entry (next_table e2) 21 vaddr) in
  if negb (present e3) || large e3 then None else
  let e4 := entry (table_entry (next_table e3) 12 vaddr) in
  if negb (present e4) then None else Some e4.

Definition mmu_translate (entry : Z -> Z) (cr3 vaddr : Z) : option Z :=
  (fun pte => next_table pte + vaddr mod 2 ^ 12) <$> mmu_walk entry cr3 vaddr.

Section Translate.
Context {G : PgtableApi} {GL : PgtableLaws G}.

(** The arithmetic behind the masks. *)
Lemma phys_of_sum pte vaddr :
  is_u64 pte -> is_u64 vaddr -> phys_of pte vaddr = pte / 2 ^ 12 * 2 ^ 12 + vaddr mod 2 ^ 12.
Proof using GL.
  intros Hp Hv. unfold phys_of, PAGE_MASK. rewrite page_shift_12.
  assert (2 ^ 12 - 1 = Z.ones 12) as -> by done.
  rewrite Z.lnot_involutive, Z.land_ones by lia.
  assert (Z.land pte (Z.lnot (Z.ones 12)) = pte / 2 ^ 12 * 2 ^ 12) as ->.
  { rewrite <- Z.ldiff_land, Z.ldiff_ones_r, Z.shiftl_mul_pow2, Z.shiftr_div_pow2 by lia. done. }
  unfold is_u64 in *. pose proof (Z.div_mod pte (2 ^ 12) ltac:(lia)).
  pose proof (Z.mod_pos_bound pte (2 ^ 12) ltac:(lia)). pose proof (Z.mod_pos_bound vaddr (2 ^ 12) ltac:(lia)).
  assert (0 <= pte / 2 ^ 12) by (apply Z.div_pos; lia). rewrite !wrapu_id by lia.
  symmetry. apply Z.add_nocarry_lor. rewrite <- Z.shiftl_mul_pow2, <- Z.land_ones by lia.
  apply Z.bits_inj'. intros n Hn. rewrite Z.land_spec, Z.land_spec, Z.bits_0, Z.testbit_ones_nonneg by lia.
  destruct (n <? 12) eqn:E; bool_cases; [rewrite Z.shiftl_spec_low by lia; done|by rewrite andb_false_r, andb_false_r].
Qed.

(** The walk goes on. *)
Ltac walk_step := cbv zeta; lazymatch goal with |- (if ?b then _ else _) = _ -> _ => destruct b eqn:?; [done|] end.

Lemma walk_is_mmu entry m v pte :
  mmu_walk entry m v = Some pte ->
  exists loc, page_walk entry m v = (loc, []) /\ entry loc = pte.
Proof using GL.
  unfold mmu_walk, page_walk. rewrite pgd_none_spec, pgd_offset_spec, p4d_offset_spec.
  set (l1 := table_entry m 39 v). walk_step. set (l2 := table_entry _ 30 v). walk_step.
  set (l3 := table_entry _ 21 v). walk_step. set (l4 := table_entry _ 12 v). walk_step. intros H. injection H as Hpte.
  rewrite pud_offset_spec. fold l2. rewrite pmd_offset_spec. fold l3. rewrite pte_offset_spec. fold l4.
  bool_cases. destruct (none_spec (entry l1)) as (-> & _); [done|]. destruct (none_spec (entry l2)) as (_ & -> & _); [done|].
  destruct (none_spec (entry l3)) as (_ & _ & -> & _); [done|]. destruct (none_spec (entry l4)) as (_ & _ & _ & ->); [done|].
  by exists l4.
Qed.

(** C38. For an address the processor translates through a small page, the call
    succeeds, logs nothing, frees its buffers and returns the processor's
    address in the low 52 bits, with the top 12 bits of the page-table entry
    on top: the result is the physical address exactly when those bits
    (no-execute and protection keys) are clear. *)
Theorem phy_addr_matches_mmu entry m vaddr pte :
  is_u64 vaddr -> is_u64 pte -> mmu_walk entry m vaddr = Some pte ->
  exists paddr r,
    mmu_translate entry m vaddr = Some paddr
    /\ sys_my_other_get_phy_addr entry m vaddr true = mk_phy_addr_effect 0 (Some r) [] 0
    /\ r = paddr + pte / 2 ^ 52 * 2 ^ 52 /\ 0 <= paddr < 2 ^ 52
    /\ (r = paddr <-> pte < 2 ^ 52).
Proof using GL.
  intros Hv Hp H. destruct (walk_is_mmu _ _ _ _ H) as (loc & Ew & El).
  exists (next_table pte + vaddr mod 2 ^ 12), (pte / 2 ^ 12 * 2 ^ 12 + vaddr mod 2 ^ 12).
  unfold mmu_translate. rewrite H. split; [done|].
  unfold sys_my_other_get_phy_addr. rewrite Ew, El, phys_of_sum by done. split; [done|].
  unfold next_table. unfold is_u64 in Hp.
  pose proof (Z.div_mod (pte / 2 ^ 12) (2 ^ 40) ltac:(lia)) as Hd. rewrite Z.div_div in Hd by lia.
  replace (2 ^ 12 * 2 ^ 40) with (2 ^ 52) in Hd by lia.
  pose proof (Z.mod_pos_bound (pte / 2 ^ 12) (2 ^ 40) ltac:(lia)).
  pose proof (Z.mod_pos_bound vaddr (2 ^ 12) ltac:(lia)).
  assert (0 <= pte / 2 ^ 52) by (apply Z.div_pos; lia).
  split; [|split; [lia|]]; [lia|]. split; intros Hx.
  - assert (pte / 2 ^ 52 = 0) as E by lia. pose proof (Z.div_mod pte (2 ^ 52) ltac:(lia)).
    pose proof (Z.mod_pos_bound pte (2 ^ 52) ltac:(lia)). lia.
  - rewrite (Z.div_small pte (2 ^ 52)) in Hd by lia. lia.
Qed.
(** An address that is not mapped is not an error: the call returns 0 for
    every table and address, and for an address whose last-level entry is empty
    it logs that and hands the user the offset in the page as a physical
    address. *)
Theorem phy_addr_unmapped_succeeds entry m vaddr copy_ok :
  is_u64 vaddr ->
  let e := sys_my_other_get_phy_addr entry m vaddr copy_ok in
  pa_ret e = 0 /\ pa_buffers e = 0 /\
  (entry (page_walk entry m vaddr).1 = 0 ->
     not_mapped_pte ∈ pa_log e /\ pa_written e = if copy_ok then Some (vaddr mod 2 ^ 12) else None).
Proof using GL.
  intros Hv. cbn zeta. unfold sys_my_other_get_phy_addr.
  destruct (page_walk entry m vaddr) as [pte log] eqn:Ew. cbn [pa_ret pa_buffers pa_log pa_written fst].
  split; [done|]. split; [done|]. intros H0. rewrite H0. split.
  - unfold page_walk in Ew. injection Ew as Epte <-. rewrite Epte, H0.
    destruct (none_zero) as (_ & _ & _ & ->). rewrite !elem_of_app. do 4 right. by apply list_elem_of_singleton.
  - rewrite phys_of_sum by done. by destruct copy_ok.
Qed.

End Translate.

(** The first line of hw1/p1/p1_output.txt: address 7f4ef9bc66fc, reported as
    80000003569e36fc. *)
Definition demo_table (l : Z) : Z :=
  if l =? table_entry 0x1000 39 0x7f4ef9bc66fc then 0x2067
  else if l =? table_entry 0x2000 30 0x7f4ef9bc66fc then 0x3067
  else if l =? table_entry 0x3000 21 0x7f4ef9bc66fc then 0x4067
  else if l =? table_entry 0x4000 12 0x7f4ef9bc66fc then 0x80000003569e3867
  else 0.

Lemma phy_addr_matches_mmu_witness :
  exists paddr r,
    mmu_translate demo_table 0x1000 0x7f4ef9bc66fc = Some paddr
    /\ sys_my_other_get_phy_addr demo_table 0x1000 0x7f4ef9bc66fc true = mk_phy_addr_effect 0 (Some r) [] 0
    /\ r = paddr + 0x80000003569e3867 / 2 ^ 52 * 2 ^ 52 /\ 0 <= paddr < 2 ^ 52
    /\ (r = paddr <-> 0x80000003569e3867 < 2 ^ 52).
Proof.
  apply (phy_addr_matches_mmu demo_table 0x1000 0x7f4ef9bc66fc 0x80000003569e3867).
  - vm_compute. split; congruence.
  - vm_compute. split; congruence.
  - vm_compute. reflexivity.
Defined.

(** The recorded output is what the model computes. *)
Example recorded_output : get_phys_addr demo_table 0x1000 0x7f4ef9bc66fc 0 true = 0x80000003569e36fc.
Proof. vm_compute. reflexivity. Qed.

(** heap_seg of the recorded output: the end of the heap is printed as 0. *)
Lemma phy_addr_unmapped_succeeds_witness :
  let e := sys_my_other_get_phy_addr demo_table 0x1000 0x565402f34000 true in
  pa_ret e = 0 /\ pa_buffers e = 0 /\ not_mapped_pte ∈ pa_log e /\ pa_written e = Some 0.
Proof.
  destruct (phy_addr_unmapped_succeeds demo_table 0x1000 0x565402f34000 true) as (H1 & H2 & H3);
    [vm_compute; split; congruence|].
  destruct H3 as [H3 H4]; [vm_compute; reflexivity|]. split; [exact H1|]. split; [exact H2|]. split; [exact H3|exact H4].
Defined.
