(* ===== verification/TaskGroup.v ===== *)
(** * TaskGroup: walking the tree of task groups (core.c)

    [walk_tg_tree_from] visits a subtree without recursion, following parent and
    sibling links.  [visit] is the recursive definition of the same traversal;
    the theorem says they agree, early stops included, and bounds the steps. *)

From S2P Require Import Prelude Task.

(** The links of a group. *)
Record tg_links := mk_tg_links {
  tg_parent : option ptr;
  tg_children : list ptr
}.

(** The elements after [c] of a list. *)
Fixpoint after (c : ptr) (l : list ptr) : list ptr :=
  match l with
  | [] => []
  | x :: l => if decide (x = c) then l else after c l
  end.

Section Walk.
(** The tree, and the callbacks, which change their data [D] and return an error
    number to stop the walk. *)
Context {D : Type} (tgs : gmap ptr tg_links) (down up : ptr -> D -> Z * D).

(** The labels of the code: [down:], and the loop over the children with those
    still to visit ([up:] continues it after the child just left). *)
Inductive walk_pc :=
  | at_down (parent : ptr)
  | at_children (parent : ptr) (rest : list ptr).

(** [None]: [fuel] steps were not enough, or a link leads nowhere. *)
Fixpoint walk (fuel : nat) (from : ptr) (pc : walk_pc) (d : D) : option (Z * D) :=
  match fuel with
  | O => None
  | S fuel =>
      match pc with
      | at_down parent =>
          let '(ret, d) := down parent d in
          if nz ret then Some (ret, d)
          else match tgs !! parent with
               | Some g => walk fuel from (at_children parent (tg_children g)) d
               | None => None
               end
      | at_children parent (child :: _) => walk fuel from (at_down child) d
      | at_children parent [] =>
          let '(ret, d) := up parent d in
          if nz ret || bool_decide (parent = from) then Some (ret, d)
          else match tgs !! parent with
               | Some g =>
                   match tg_parent g with
                   | None => Some (ret, d)
                   | Some q =>
                       match tgs !! q with
                       | Some gq => walk fuel from (at_children q (after parent (tg_children gq))) d
                       | None => None
                       end
                   end
               | None => None
               end
      end
  end.

Definition walk_tg_tree_from (fuel : nat) (from : ptr) (d : D) : option (Z * D) :=
  walk fuel from (at_down from) d.

(** ** The tree as a value, and the recursive traversal *)

Inductive group := Group (id : ptr) (children : list group).
Definition group_id (g : group) : ptr := let 'Group id _ := g in id.

Fixpoint visit (g : group) (d : D) : Z * D :=
  let 'Group id cs := g in
  let '(ret, d) := down id d in
  if nz ret then (ret, d)
  else
    let '(ret, d) :=
      (fix visit_all (cs : list group) (d : D) : Z * D :=
         match cs with
         | [] => (0, d)
         | c :: cs => let '(ret, d) := visit c d in if nz ret then (ret, d) else visit_all cs d
         end) cs d in
    if nz ret then (ret, d) else up id d.

Fixpoint visit_all (cs : list group) (d : D) : Z * D :=
  match cs with
  | [] => (0, d)
  | c :: cs => let '(ret, d) := visit c d in if nz ret then (ret, d) else visit_all cs d
  end.

Lemma visit_eq id cs d :
  visit (Group id cs) d =
    let '(ret, d) := down id d in
    if nz ret then (ret, d)
    else let '(ret, d) := visit_all cs d in if nz ret then (ret, d) else up id d.
Proof. done. Qed.

(** The number of groups, their ids. *)
Fixpoint ids (g : group) : list ptr := let 'Group id cs := g in id :: flat_map ids cs.
Definition size (g : group) : nat := length (ids g).

(** The links are those of the tree. *)
Fixpoint linked (parent : option ptr) (g : group) : Prop :=
  let 'Group id cs := g in
  tgs !! id = Some (mk_tg_links parent (map group_id cs)) /\
  (fix all (l : list group) : Prop := match l with [] => True | c :: l => linked (Some id) c /\ all l end) cs.

Lemma linked_children parent id cs c :
  linked parent (Group id cs) -> c ∈ cs -> linked (Some id) c.
Proof.
  intros [_ H]. induction cs as [|x cs IH]; [by intros ?%not_elem_of_nil|].
  destruct H as [Hx H]. intros [->|Hc]%elem_of_cons; [done|by apply IH].
Qed.

Lemma group_ind' (Q : group -> Prop) :
  (forall id cs, (forall c, c ∈ cs -> Q c) -> Q (Group id cs)) -> forall g, Q g.
Proof.
  intros H. fix IH 1. intros [id cs]. apply H, Forall_forall. revert cs.
  fix IHl 1. intros [|x cs]; constructor; [apply IH|apply IHl].
Qed.

(** ** The walk is the traversal *)

Definition cost (g : group) : nat := 3 * size g.

Lemma cost_children id cs : cost (Group id cs) = (3 + list_sum (map cost cs))%nat.
Proof.
  unfold cost, size. cbn [ids length]. assert (length (flat_map ids cs) = list_sum (map size cs)) as ->.
  { induction cs as [|c cs IH]; [done|]. cbn. by rewrite length_app, IH. }
  assert (3 * list_sum (map size cs) = list_sum (map cost cs))%nat; [|unfold cost, size in *; lia].
  induction cs as [|c cs IH]; [done|]. cbn [map list_sum foldr] in *. unfold cost at 1. unfold list_sum in *. cbn. lia.
Qed.

(** Walking [g] below [from] takes at most [cost g] steps and goes on with the
    siblings, or stops with an error. *)
Definition walks_to (from : ptr) (k : nat) (pc : walk_pc) (d : D) (r : Z * D) (next : walk_pc) : Prop :=
  forall fuel, walk (k + fuel) from pc d = if nz (r.1) then Some r else walk fuel from next r.2.

Lemma after_app c l1 l2 : c ∉ l1 -> after c (l1 ++ c :: l2) = l2.
Proof.
  induction l1 as [|x l1 IH]; intros H; cbn; [by rewrite decide_True|].
  apply not_elem_of_cons in H as [Hx H]. rewrite decide_False by done. by apply IH.
Qed.

Lemma walks_then from k1 k2 pc1 pc2 pc3 d r1 r2 :
  walks_to from k1 pc1 d r1 pc2 -> nz r1.1 = false -> walks_to from k2 pc2 r1.2 r2 pc3 ->
  walks_to from (k1 + k2) pc1 d r2 pc3.
Proof. intros H1 Hz H2 fuel. by rewrite <- Nat.add_assoc, H1, Hz, H2. Qed.

Lemma walks_stop from k pc d r next next' : walks_to from k pc d r next -> nz r.1 = true -> walks_to from k pc d r next'.
Proof. intros H Hz fuel. by rewrite H, Hz. Qed.

(** The loop over the children [cs] of [p], if each is walked right. *)
Lemma walk_children from p cs : forall pre d,
  (forall c pre' post d, pre ++ cs = pre' ++ c :: post -> exists k, (k < cost c)%nat /\
     walks_to from k (at_down (group_id c)) d (visit c d) (at_children p (map group_id post))) ->
  exists k, (k <= list_sum (map cost cs))%nat /\
    walks_to from k (at_children p (map group_id cs)) d (visit_all cs d) (at_children p []).
Proof.
  induction cs as [|c cs IH]; intros pre d Hc.
  { exists 0%nat. split; [done|]. intros fuel. reflexivity. }
  destruct (Hc c pre cs d eq_refl) as (k1 & Hk1 & H1).
  assert (walks_to from (S k1) (at_children p (map group_id (c :: cs))) d (visit c d) (at_children p (map group_id cs)))
    as H1' by (intros fuel; apply H1).
  cbn [visit_all map list_sum foldr]. destruct (visit c d) as [ret d1] eqn:Ev. destruct (nz ret) eqn:Ez.
  - exists (S k1). split; [lia|]. by eapply walks_stop.
  - destruct (IH (pre ++ [c]) d1) as (k2 & Hk2 & H2).
    { intros c' pre' post d' Hsplit. apply (Hc c' pre' post). by rewrite <- Hsplit, <- app_assoc. }
    exists (S k1 + k2)%nat. split; [unfold list_sum in Hk2; lia|]. by eapply walks_then.
Qed.

Lemma ids_child id cs c x : c ∈ cs -> x ∈ ids c -> x ∈ ids (Group id cs).
Proof. intros Hc Hx. cbn. right. apply list_elem_of_In, in_flat_map. exists c. by rewrite <- !list_elem_of_In. Qed.

Lemma nodup_children id cs : NoDup (ids (Group id cs)) -> NoDup (map group_id cs) /\ forall c, c ∈ cs -> NoDup (ids c).
Proof.
  intros [_ H]%NoDup_cons. induction cs as [|c cs IH]; [split; [constructor|by intros ? ?%not_elem_of_nil]|].
  cbn in H. apply NoDup_app in H as (H1 & H2 & H3). destruct (IH H3) as [H4 H5]. split.
  - cbn. constructor; [|done]. intros (c' & Hid & Hc')%list_elem_of_fmap. apply (H2 (group_id c)).
    + destruct c. by left.
    + apply list_elem_of_In, in_flat_map. exists c'. rewrite <- !list_elem_of_In. split; [done|]. rewrite Hid. destruct c'. by left.
  - intros c' [->|Hc']%elem_of_cons; [done|by apply H5].
Qed.

(** One group below [from]. *)
Lemma walk_sub from g : forall q pre post pq d,
  from ∉ ids g -> NoDup (ids g) -> linked (Some q) g ->
  tgs !! q = Some (mk_tg_links pq (map group_id (pre ++ g :: post))) -> group_id g ∉ map group_id pre ->
  exists k, (k < cost g)%nat /\
    walks_to from k (at_down (group_id g)) d (visit g d) (at_children q (map group_id post)).
Proof.
  induction g as [id cs IH] using group_ind'. intros q pre post pq d Hfrom Hnd Hl Hq Hpre.
  pose proof Hl as [Hid _]. destruct (nodup_children _ _ Hnd) as [Hnds Hndc]. rewrite cost_children.
  rewrite visit_eq. destruct (down id d) as [ret d1] eqn:Ed. destruct (nz ret) eqn:Ez.
  { exists 1%nat. split; [lia|]. intros fuel. cbn. by rewrite Ed, Ez. }
  assert (walks_to from 1 (at_down id) d (ret, d1) (at_children id (map group_id cs))) as H1.
  { intros fuel. cbn. by rewrite Ed, Ez, Hid. }
  destruct (walk_children from id cs [] d1) as (k2 & Hk2 & H2).
  { intros c pre' post' d' Hsplit. cbn in Hsplit. subst cs. assert (c ∈ pre' ++ c :: post') as Hc by set_solver.
    apply (IH c Hc id pre' post' (Some q) d').
    - intros Hin. apply Hfrom. by eapply ids_child.
    - by apply Hndc.
    - by eapply linked_children.
    - exact Hid.
    - rewrite map_app in Hnds. apply NoDup_app in Hnds as (_ & Hx & _). intros Hin. apply (Hx _ Hin). cbn. by left. }
  destruct (visit_all cs d1) as [ret2 d2] eqn:Ev. destruct (nz ret2) eqn:Ez2.
  { exists (1 + k2)%nat. split; [lia|]. eapply walks_stop; [by eapply walks_then|done]. }
  assert (walks_to from 1 (at_children id []) d2 (up id d2) (at_children q (map group_id post))) as H3.
  { intros fuel. cbn. destruct (up id d2) as [ret3 d3]. cbn [fst snd].
    rewrite (bool_decide_eq_false_2 (id = from)) by (intros ->; apply Hfrom; by left). rewrite orb_false_r.
    destruct (nz ret3); [done|]. rewrite Hid. cbn [tg_parent]. rewrite Hq. cbn [tg_children].
    rewrite map_app. cbn [map group_id]. by rewrite after_app. }
  exists (1 + (k2 + 1))%nat. split; [lia|]. eapply walks_then; [exact H1|done|]. by eapply walks_then.
Qed.

Lemma walk_tg_tree_from_correct fuel parent g d :
  linked parent g -> NoDup (ids g) -> (cost g <= fuel)%nat ->
  walk_tg_tree_from fuel (group_id g) d = Some (visit g d).
Proof.
  intros Hl Hnd Hf. destruct g as [id cs]. pose proof Hl as [Hid _]. destruct (nodup_children _ _ Hnd) as [Hnds Hndc].
  rewrite cost_children in Hf. unfold walk_tg_tree_from. cbn [group_id]. destruct fuel as [|fuel]; [lia|].
  rewrite visit_eq. cbn [walk]. destruct (down id d) as [ret d1] eqn:Ed. destruct (nz ret) eqn:Ez; [done|].
  rewrite Hid. cbn [tg_children]. destruct (walk_children id id cs [] d1) as (k2 & Hk2 & H2).
  { intros c pre' post' d' Hsplit. cbn in Hsplit. subst cs. assert (c ∈ pre' ++ c :: post') as Hc by set_solver.
    apply (walk_sub id c id pre' post' parent d').
    - intros Hin. apply NoDup_cons in Hnd as [Hni _]. apply Hni. apply list_elem_of_In, in_flat_map. exists c.
      by rewrite <- !list_elem_of_In.
    - by apply Hndc.
    - by eapply linked_children.
    - exact Hid.
    - rewrite map_app in Hnds. apply NoDup_app in Hnds as (_ & Hx & _). intros Hin. apply (Hx _ Hin). cbn. by left. }
  replace fuel with (k2 + S (fuel - k2 - 1))%nat by lia. rewrite H2. destruct (visit_all cs d1) as [ret2 d2].
  cbn [fst snd]. destruct (nz ret2); [done|]. cbn [walk]. destruct (up id d2) as [ret3 d3].
  by rewrite (bool_decide_eq_true_2 (id = id)), orb_true_r by done.
Qed.

(** C26. The walk along the links is the recursive traversal: [down] when a group
    is entered, its children in order, [up] when it is left, an error of either
    ending the walk with that error; and it ends: three steps a group are enough. *)
Theorem walk_tg_tree_from_visits fuel parent g d :
  linked parent g -> NoDup (ids g) -> (cost g <= fuel)%nat ->
  walk_tg_tree_from fuel (group_id g) d = Some (visit g d).
Proof. apply walk_tg_tree_from_correct. Qed.
End Walk.

(** Three groups, the second a child of the first, the third of the second: the
    walk enters them in order and leaves them in reverse. *)
Definition chain_links : gmap ptr tg_links :=
  {[ 1%positive := mk_tg_links None [2%positive];
     2%positive := mk_tg_links (Some 1%positive) [3%positive];
     3%positive := mk_tg_links (Some 2%positive) [] ]}.
Definition chain_tree : group := Group 1%positive [Group 2%positive [Group 3%positive []]].
Definition log_visit (p : ptr) (l : list ptr) : Z * list ptr := (0, l ++ [p]).

Lemma walk_tg_tree_from_visits_witness :
  walk_tg_tree_from chain_links log_visit log_visit 9 1%positive [] = Some (0, [1; 2; 3; 3; 2; 1]%positive).
Proof.
  apply (walk_tg_tree_from_visits chain_links log_visit log_visit 9 None chain_tree []).
  - repeat split.
  - change (NoDup [1; 2; 3]%positive). repeat (constructor; [set_solver|]). constructor.
  - exact (le_n 9).
Defined.
