(* ===== verification/Bandwidth.v ===== *)
(** * Bandwidth: limits on the CPU time of task groups (core.c)

    The cgroup files [cpu.cfs_quota_us], [cpu.cfs_period_us] and [cpu.max]: what
    they accept, the check of the whole hierarchy, and what changes when a limit
    is set.  Groups are visited with [walk_tg_tree_from]. *)

From S2P Require Import Prelude Task TaskGroup.

(** Constants of the private scheduler header and of time64.h; whether the cpu
    controller is on the default hierarchy (cgroup v2). *)
Class BandwidthApi := {
  RUNTIME_INF : Z;
  BW_SHIFT : Z;
  BW_UNIT : Z;
  MAX_BW : Z;
  NSEC_PER_USEC : Z;
  NSEC_PER_MSEC : Z;
  NSEC_PER_SEC : Z;
  cgroup_subsys_on_dfl : bool
}.

Class BandwidthLaws (B : BandwidthApi) : Prop := {
  law_runtime_inf : RUNTIME_INF = 2 ^ 64 - 1;
  law_bw : (BW_SHIFT, BW_UNIT, MAX_BW) = (20, 2 ^ 20, 2 ^ 44 - 1);
  law_nsec : (NSEC_PER_USEC, NSEC_PER_MSEC, NSEC_PER_SEC) = (10 ^ 3, 10 ^ 6, 10 ^ 9)
}.

#[export] Instance linux58_bandwidth (v2 : bool) : BandwidthApi := {|
  RUNTIME_INF := 2 ^ 64 - 1; BW_SHIFT := 20; BW_UNIT := 2 ^ 20; MAX_BW := 2 ^ 44 - 1;
  NSEC_PER_USEC := 10 ^ 3; NSEC_PER_MSEC := 10 ^ 6; NSEC_PER_SEC := 10 ^ 9; cgroup_subsys_on_dfl := v2
|}.
#[export] Instance linux58_bandwidth_laws v2 : BandwidthLaws (linux58_bandwidth v2).
Proof. by split. Qed.

(** The limit of a group: period in ns, quota in ns, what the check of the
    hierarchy last stored (an s64). *)
Record cfs_bandwidth := mk_cfs_bandwidth {
  cfs_period : Z;
  cfs_quota : Z;
  hierarchical_quota : Z;
  cfs_runtime : Z
}.
#[export] Instance eta_cfs_bandwidth : EtaRecord cfs_bandwidth :=
  fun b => mk_cfs_bandwidth (cfs_period b) (cfs_quota b) (hierarchical_quota b) (cfs_runtime b).
#[export] Instance upd_cfs_period : FieldUpdate cfs_period :=
  fun f b => mk_cfs_bandwidth (f (cfs_period b)) (cfs_quota b) (hierarchical_quota b) (cfs_runtime b).
#[export] Instance upd_cfs_quota : FieldUpdate cfs_quota :=
  fun f b => mk_cfs_bandwidth (cfs_period b) (f (cfs_quota b)) (hierarchical_quota b) (cfs_runtime b).
#[export] Instance upd_hierarchical_quota : FieldUpdate hierarchical_quota :=
  fun f b => mk_cfs_bandwidth (cfs_period b) (cfs_quota b) (f (hierarchical_quota b)) (cfs_runtime b).

(** The memory of the groups' limits. *)
Definition limits : Type := ptr -> cfs_bandwidth.
Definition set_limit (p : ptr) (f : cfs_bandwidth -> cfs_bandwidth) (d : limits) : limits :=
  fun q => if decide (q = p) then f (d q) else d q.

Section Bandwidth.
Context {B : BandwidthApi} (tgs : gmap ptr tg_links) (root : ptr).

Definition max_cfs_quota_period : Z := NSEC_PER_SEC.
Definition min_cfs_quota_period : Z := NSEC_PER_MSEC.
Definition max_cfs_runtime : Z := u64 (MAX_BW * NSEC_PER_USEC).

Definition to_ratio (period runtime : Z) : Z :=
  if runtime =? RUNTIME_INF then BW_UNIT
  else if period =? 0 then 0
  else u64 (Z.shiftl runtime BW_SHIFT) / period.

Definition tg_get_cfs_quota (b : cfs_bandwidth) : Z :=
  if cfs_quota b =? RUNTIME_INF then -1 else s64 (cfs_quota b / NSEC_PER_USEC).
Definition tg_get_cfs_period (b : cfs_bandwidth) : Z := s64 (cfs_period b / NSEC_PER_USEC).

(** ** The check of the hierarchy *)

Record cfs_schedulable_data := mk_cfs_schedulable_data { sd_tg : ptr; sd_period : Z; sd_quota : Z }.

Definition normalize_cfs_quota (tg : ptr) (d : cfs_schedulable_data) (bw : limits) : Z :=
  let '(period, quota) := if bool_decide (tg = sd_tg d) then (sd_period d, sd_quota d)
                          else (u64 (tg_get_cfs_period (bw tg)), u64 (tg_get_cfs_quota (bw tg))) in
  if (quota =? RUNTIME_INF) || (quota =? u64 (-1)) then RUNTIME_INF else to_ratio period quota.

Definition tg_cfs_schedulable_down (data : cfs_schedulable_data) (tg : ptr) (bw : limits) : Z * limits :=
  let store quota := (0, set_limit tg (fun b => b <| hierarchical_quota := quota |>) bw) in
  match tgs !! tg ≫= tg_parent with
  | None => store (s64 RUNTIME_INF)
  | Some parent =>
      let quota := s64 (normalize_cfs_quota tg data bw) in
      let parent_quota := hierarchical_quota (bw parent) in
      if cgroup_subsys_on_dfl then store (Z.min quota parent_quota)
      else if u64 quota =? RUNTIME_INF then store parent_quota
      else if negb (u64 parent_quota =? RUNTIME_INF) && (parent_quota <? quota) then (- EINVAL, bw)
      else store quota
  end.

Definition tg_nop (tg : ptr) (bw : limits) : Z * limits := (0, bw).

Definition __cfs_schedulable (fuel : nat) (tg : ptr) (period quota : Z) (bw : limits) : option (Z * limits) :=
  let data := if negb (quota =? RUNTIME_INF)
              then mk_cfs_schedulable_data tg (period / NSEC_PER_USEC) (quota / NSEC_PER_USEC)
              else mk_cfs_schedulable_data tg period quota in
  walk_tg_tree_from tgs (tg_cfs_schedulable_down data) tg_nop fuel root bw.
(** ** Setting a limit *)

(** What the fair class keeps of a group on a CPU. *)
Record cfs_rq := mk_cfs_rq { runtime_enabled : bool; runtime_remaining : Z; throttled : bool }.

(** [bw_users] is what [cfs_bandwidth_usage_inc] and [_dec] count. *)
Record bw_state := mk_bw_state {
  bw_limits : limits;
  bw_cfs_rq : ptr -> Z -> cfs_rq;
  bw_users : Z;
  bw_online : list Z
}.

(** Functions of the fair class: the runtime of a new period, throttling ends. *)
Context (refill : cfs_bandwidth -> cfs_bandwidth) (unthrottle_cfs_rq : cfs_rq -> cfs_rq).

(** One turn of the loop over the online CPUs. *)
Definition reset_cfs_rq (enabled : bool) (c : cfs_rq) : cfs_rq :=
  let c := mk_cfs_rq enabled 0 (throttled c) in
  if throttled c then unthrottle_cfs_rq c else c.

Definition tg_set_cfs_bandwidth (fuel : nat) (tg : ptr) (period quota : Z) (s : bw_state) : option (Z * bw_state) :=
  if bool_decide (tg = root) then Some (- EINVAL, s)
  else if (quota <? min_cfs_quota_period) || (period <? min_cfs_quota_period) then Some (- EINVAL, s)
  else if max_cfs_quota_period <? period then Some (- EINVAL, s)
  else if negb (quota =? RUNTIME_INF) && (max_cfs_runtime <? quota) then Some (- EINVAL, s)
  else match __cfs_schedulable fuel tg period quota (bw_limits s) with
  | None => None
  | Some (ret, bw) =>
      if nz ret then Some (ret, mk_bw_state bw (bw_cfs_rq s) (bw_users s) (bw_online s))
      else
        let enabled := negb (quota =? RUNTIME_INF) in
        let was_enabled := negb (cfs_quota (bw tg) =? RUNTIME_INF) in
        let users := if enabled && negb was_enabled then bw_users s + 1 else bw_users s in
        let bw := set_limit tg (fun b => refill (b <| cfs_period := period |> <| cfs_quota := quota |>)) bw in
        let rqs := fun p cpu => if decide (p = tg /\ cpu ∈ bw_online s) then reset_cfs_rq enabled (bw_cfs_rq s p cpu)
                                else bw_cfs_rq s p cpu in
        let users := if was_enabled && negb enabled then users - 1 else users in
        Some (0, mk_bw_state bw rqs users (bw_online s))
  end.

Definition U64_MAX : Z := 2 ^ 64 - 1.

(** The argument is a long. *)
Definition tg_set_cfs_quota (fuel : nat) (tg : ptr) (cfs_quota_us : Z) (s : bw_state) : option (Z * bw_state) :=
  let period := cfs_period (bw_limits s tg) in
  if cfs_quota_us <? 0 then tg_set_cfs_bandwidth fuel tg period RUNTIME_INF s
  else if u64 cfs_quota_us <=? U64_MAX / NSEC_PER_USEC
       then tg_set_cfs_bandwidth fuel tg period (u64 (u64 cfs_quota_us * NSEC_PER_USEC)) s
       else Some (- EINVAL, s).

Definition tg_set_cfs_period (fuel : nat) (tg : ptr) (cfs_period_us : Z) (s : bw_state) : option (Z * bw_state) :=
  if U64_MAX / NSEC_PER_USEC <? u64 cfs_period_us then Some (- EINVAL, s)
  else tg_set_cfs_bandwidth fuel tg (u64 (u64 cfs_period_us * NSEC_PER_USEC)) (cfs_quota (bw_limits s tg)) s.

Definition cpu_cfs_quota_read_s64 (s : bw_state) (tg : ptr) : Z := tg_get_cfs_quota (bw_limits s tg).
Definition cpu_cfs_quota_write_s64 := tg_set_cfs_quota.
Definition cpu_cfs_period_read_u64 (s : bw_state) (tg : ptr) : Z := u64 (tg_get_cfs_period (bw_limits s tg)).
(** The function called takes a long. *)
Definition cpu_cfs_period_write_u64 (fuel : nat) (tg : ptr) (cfs_period_us : Z) (s : bw_state) :=
  tg_set_cfs_period fuel tg (s64 cfs_period_us) s.

(** [cpu.max]: [parse] is what scanning the buffer gave, the first word ([None]:
    none) as a number, as the word "max" or as something else, and the second, a
    number in microseconds, if there is one. *)
Inductive quota_token := tok_number (us : Z) | tok_max | tok_other.

Definition cpu_period_quota_parse (parse : option (quota_token * option Z)) (period : Z) : option (Z * Z) :=
  match parse with
  | None => None
  | Some (tok, second) =>
      let period := u64 (default period second * NSEC_PER_USEC) in
      match tok with
      | tok_number us => Some (period, u64 (us * NSEC_PER_USEC))
      | tok_max => Some (period, RUNTIME_INF)
      | tok_other => None
      end
  end.

(** What is shown: "max" or a number, and a number. *)
Definition cpu_period_quota_print (period quota : Z) : quota_token * Z :=
  (if quota <? 0 then tok_max else tok_number quota, period).

Definition cpu_max_show (s : bw_state) (tg : ptr) : quota_token * Z :=
  cpu_period_quota_print (tg_get_cfs_period (bw_limits s tg)) (tg_get_cfs_quota (bw_limits s tg)).

Definition cpu_max_write (fuel : nat) (tg : ptr) (parse : option (quota_token * option Z)) (nbytes : Z) (s : bw_state)
    : option (Z * bw_state) :=
  match cpu_period_quota_parse parse (u64 (tg_get_cfs_period (bw_limits s tg))) with
  | None => Some (- EINVAL, s)
  | Some (period, quota) =>
      match tg_set_cfs_bandwidth fuel tg period quota s with
      | None => None
      | Some (ret, s) => Some (if nz ret then ret else nbytes, s)
      end
  end.
End Bandwidth.
