(* ===== verification/BandwidthSpec.v ===== *)
(** * BandwidthSpec: limits of task groups fit into each other

    On cgroup v1 the check of the hierarchy accepts a limit exactly when no group
    gets more than its nearest limited ancestor, whatever an earlier failed check
    left behind; on cgroup v2 it accepts everything, and what it stores for a
    group is always "unlimited". *)

From S2P Require Import Prelude Task TaskGroup Bandwidth.

Section Spec.
Context {B : BandwidthApi} {BL : BandwidthLaws B} (tgs : gmap ptr tg_links) (root : ptr).

(** Limits in the range the files accept. *)
Definition limit_ok (b : cfs_bandwidth) : Prop :=
  min_cfs_quota_period <= cfs_period b <= max_cfs_quota_period /\
  (cfs_quota b = RUNTIME_INF \/ 0 <= cfs_quota b <= max_cfs_runtime).

(** The share of a period a group may use, in 2^-20; [None]: no limit. *)
Definition share_of (period quota : Z) : option Z :=
  if decide (quota = RUNTIME_INF) then None
  else Some ((quota / 1000) * 2 ^ 20 / (period / 1000)).

(** The shares of all groups once [tg] has its new limit. *)
Definition shares (tg : ptr) (period quota : Z) (bw : limits) (p : ptr) : option Z :=
  if decide (p = tg) then share_of period quota else share_of (cfs_period (bw p)) (cfs_quota (bw p)).

Lemma nsec_values : NSEC_PER_USEC = 1000 /\ NSEC_PER_MSEC = 1000000 /\ NSEC_PER_SEC = 1000000000.
Proof using BL. pose proof law_nsec as H. injection H as -> -> ->. done. Qed.
Lemma bw_values : BW_SHIFT = 20 /\ MAX_BW = 2 ^ 44 - 1.
Proof using BL. pose proof law_bw as H. injection H as -> _ ->. done. Qed.

Lemma max_runtime_value : max_cfs_runtime = (2 ^ 44 - 1) * 1000.
Proof using BL.
  unfold max_cfs_runtime. rewrite (proj1 nsec_values), (proj2 bw_values). apply wrapu_id; lia.
Qed.

Lemma s64_inf : s64 RUNTIME_INF = -1 /\ u64 (-1) = RUNTIME_INF.
Proof using BL. rewrite law_runtime_inf. split; reflexivity. Qed.

Lemma share_bounds period quota x :
  min_cfs_quota_period <= period <= max_cfs_quota_period -> 0 <= quota <= max_cfs_runtime ->
  x = (quota / 1000) * 2 ^ 20 / (period / 1000) -> 0 <= x < 2 ^ 62 /\ 0 <= quota / 1000 * 2 ^ 20 < 2 ^ 64 /\ 1000 <= period / 1000.
Proof using BL.
  unfold min_cfs_quota_period, max_cfs_quota_period. destruct nsec_values as (_ & -> & ->). rewrite max_runtime_value.
  intros Hp Hq ->.
  assert (1000 <= period / 1000) by (apply Z.div_le_lower_bound; lia).
  assert (0 <= quota / 1000 <= 2 ^ 44 - 1) as Hq2 by (split; [apply Z.div_pos; lia|apply Z.div_le_upper_bound; lia]).
  split; [|lia]. split; [apply Z.div_pos; lia|]. apply Z.div_lt_upper_bound; [lia|].
  change (2 ^ 62) with (2 ^ 54 * 2 ^ 8). nia.
Qed.

(** The ratio the code computes. *)
Lemma to_ratio_share period quota :
  min_cfs_quota_period <= period <= max_cfs_quota_period -> 0 <= quota <= max_cfs_runtime ->
  to_ratio (period / 1000) (quota / 1000) = (quota / 1000) * 2 ^ 20 / (period / 1000).
Proof using BL.
  intros Hp Hq. destruct (share_bounds period quota _ Hp Hq eq_refl) as (H1 & H2 & H3). unfold to_ratio.
  rewrite law_runtime_inf. rewrite max_runtime_value in Hq.
  assert (quota / 1000 <= 2 ^ 44) by (apply Z.div_le_upper_bound; lia).
  rewrite (proj2 (Z.eqb_neq (quota / 1000) _)) by lia. rewrite (proj2 (Z.eqb_neq (period / 1000) _)) by lia.
  rewrite (proj1 bw_values), Z.shiftl_mul_pow2 by lia. by rewrite wrapu_id.
Qed.

Lemma runtime_below_inf x : 0 <= x <= max_cfs_runtime -> x <> RUNTIME_INF.
Proof using BL. rewrite max_runtime_value, law_runtime_inf. lia. Qed.

Lemma s64_small x : 0 <= x < 2 ^ 63 -> s64 x = x.
Proof. intros H. apply wraps_id; [done|]. change (2 ^ (64 - 1)) with (2 ^ 63). lia. Qed.
Lemma u64_small x : 0 <= x < 2 ^ 63 -> u64 x = x.
Proof. intros H. apply wrapu_id. change (2 ^ 64) with (2 * 2 ^ 63). lia. Qed.

(** A share as the code stores it. *)
Definition encode (o : option Z) : Z := match o with None => -1 | Some x => x end.

Lemma usec_pos q : 0 <= q <= max_cfs_runtime -> 0 <= q / 1000 < 2 ^ 63.
Proof using BL. rewrite max_runtime_value. intros H. split; [apply Z.div_pos; lia|apply Z.div_lt_upper_bound; lia]. Qed.

(** The data the check passes on. *)
Definition check_data (tg : ptr) (period quota : Z) : cfs_schedulable_data :=
  if negb (quota =? RUNTIME_INF)
  then mk_cfs_schedulable_data tg (period / NSEC_PER_USEC) (quota / NSEC_PER_USEC)
  else mk_cfs_schedulable_data tg period quota.

Lemma normalize_share tg period quota bw p :
  limit_ok (bw p) -> limit_ok (mk_cfs_bandwidth period quota 0 0) ->
  s64 (normalize_cfs_quota p (check_data tg period quota) bw) = encode (shares tg period quota bw p) /\
  (forall x, shares tg period quota bw p = Some x -> 0 <= x < 2 ^ 62).
Proof using BL.
  intros Hok [Hnp Hnq]. cbn in Hnp, Hnq. unfold normalize_cfs_quota, shares, check_data, share_of.
  destruct s64_inf as [Es Eu].
  assert (forall per quo, min_cfs_quota_period <= per <= max_cfs_quota_period -> 0 <= quo <= max_cfs_runtime ->
    s64 (if (quo / 1000 =? RUNTIME_INF) || (quo / 1000 =? u64 (-1)) then RUNTIME_INF else to_ratio (per / 1000) (quo / 1000)) =
    quo / 1000 * 2 ^ 20 / (per / 1000) /\ 0 <= quo / 1000 * 2 ^ 20 / (per / 1000) < 2 ^ 62) as Hmain.
  { intros per quo Hp Hq. rewrite Eu, orb_diag. pose proof (usec_pos quo Hq).
    rewrite (proj2 (Z.eqb_neq _ _)) by (rewrite law_runtime_inf; lia). rewrite to_ratio_share by done.
    destruct (share_bounds per quo _ Hp Hq eq_refl) as (Hx & _ & _). split; [|done]. apply wraps_id; lia. }
  destruct (decide (p = tg)) as [->|Hne].
  - destruct (quota =? RUNTIME_INF) eqn:Eq; cbn [negb sd_tg sd_period sd_quota]; rewrite bool_decide_eq_true_2 by done.
    + apply Z.eqb_eq in Eq. rewrite decide_True by done. rewrite Eq, Z.eqb_refl. split; [exact Es|done].
    + apply Z.eqb_neq in Eq. rewrite decide_False by done. rewrite (proj1 nsec_values).
      destruct Hnq as [?|Hnq]; [done|]. destruct (Hmain period quota Hnp Hnq) as [H1 H2].
      split; [exact H1|by intros x [= <-]].
  - assert (sd_tg (if negb (quota =? RUNTIME_INF)
      then mk_cfs_schedulable_data tg (period / NSEC_PER_USEC) (quota / NSEC_PER_USEC)
      else mk_cfs_schedulable_data tg period quota) = tg) as -> by by destruct (negb _).
    rewrite bool_decide_eq_false_2 by done. destruct Hok as [Hp Hq]. unfold tg_get_cfs_period, tg_get_cfs_quota.
    rewrite (proj1 nsec_values). destruct (decide (cfs_quota (bw p) = RUNTIME_INF)) as [Ei|Ei].
    + rewrite Ei, Z.eqb_refl, Eu, Z.eqb_refl. split; [exact Es|done].
    + destruct Hq as [?|Hq]; [done|]. rewrite (proj2 (Z.eqb_neq (cfs_quota (bw p)) _)) by done.
      pose proof (usec_pos _ Hq) as Hu. rewrite (s64_small (cfs_quota (bw p) / 1000)) by exact Hu.
      assert (0 <= cfs_period (bw p) / 1000 < 2 ^ 63) as Hu2.
      { unfold min_cfs_quota_period, max_cfs_quota_period in Hp. destruct nsec_values as (_ & E1 & E2). rewrite E1, E2 in Hp.
        split; [apply Z.div_pos; lia|apply Z.div_lt_upper_bound; lia]. }
      rewrite (s64_small (cfs_period (bw p) / 1000)) by exact Hu2.
      rewrite (u64_small (cfs_quota (bw p) / 1000)) by exact Hu. rewrite (u64_small (cfs_period (bw p) / 1000)) by exact Hu2.
      destruct (Hmain _ _ Hp Hq) as [H1 H2]. split; [exact H1|by intros x [= <-]].
Qed.
(** ** The verdict on a tree *)

(** No group has a larger share than its nearest limited ancestor. *)
Fixpoint fits (r : ptr -> option Z) (limit : option Z) (g : group) : bool :=
  let 'Group id cs := g in
  match r id with
  | None => forallb (fits r limit) cs
  | Some x => match limit with None => true | Some l => x <=? l end && forallb (fits r (Some x)) cs
  end.

(** Periods and quotas are as before. *)
Definition same_limits (bw bw' : limits) : Prop :=
  forall p, cfs_period (bw' p) = cfs_period (bw p) /\ cfs_quota (bw' p) = cfs_quota (bw p) /\ cfs_runtime (bw' p) = cfs_runtime (bw p).

#[local] Instance same_limits_preorder : PreOrder same_limits.
Proof.
  split; [by intros bw p|]. intros b1 b2 b3 H1 H2 p. destruct (H1 p) as (<- & <- & <-). destruct (H2 p) as (<- & <- & <-). done.
Qed.

Lemma same_limits_store p x bw : same_limits bw (set_limit p (fun b => b <| hierarchical_quota := x |>) bw).
Proof. intros q. unfold set_limit. by destruct (decide (q = p)). Qed.

Lemma stored_at p x bw : hierarchical_quota (set_limit p (fun b => b <| hierarchical_quota := x |>) bw p) = x.
Proof. unfold set_limit. by rewrite decide_True. Qed.
Lemma stored_other p q x bw : q <> p -> set_limit p (fun b => b <| hierarchical_quota := x |>) bw q = bw q.
Proof. intros H. unfold set_limit. by rewrite decide_False. Qed.

(** The shares [r] are what the check computes for the groups of [l]. *)
Definition computes (data : cfs_schedulable_data) (r : ptr -> option Z) (l : list ptr) (bw : limits) : Prop :=
  forall bw', same_limits bw bw' -> forall p, p ∈ l ->
    s64 (normalize_cfs_quota p data bw') = encode (r p) /\ forall x, r p = Some x -> 0 <= x < 2 ^ 62.

Lemma computes_sub data r l l' bw bw' :
  computes data r l bw -> (forall p, p ∈ l' -> p ∈ l) -> same_limits bw bw' -> computes data r l' bw'.
Proof. intros H Hl Hs bw2 Hs2 p Hp. apply H; [by etransitivity|by apply Hl]. Qed.

Definition limit_bounded (limit : option Z) : Prop := forall l, limit = Some l -> 0 <= l < 2 ^ 62.

Abbreviation down := (tg_cfs_schedulable_down tgs).

(** Entering a group on cgroup v1. *)
Lemma down_v1 data r id parent cs bw limit :
  cgroup_subsys_on_dfl = false -> tgs !! id = Some (mk_tg_links (Some parent) cs) ->
  computes data r [id] bw -> limit_bounded limit -> hierarchical_quota (bw parent) = encode limit ->
  let limit' := match r id with None => limit | Some x => Some x end in
  if match r id, limit with Some x, Some l => x <=? l | _, _ => true end
  then exists h, down data id bw = (0, set_limit id (fun b => b <| hierarchical_quota := h |>) bw) /\ h = encode limit'
  else down data id bw = (- EINVAL, bw).
Proof using BL.
  intros Hv1 Hid Hr Hb Hl. destruct (Hr bw ltac:(done) id ltac:(by left)) as [Hn Hx].
  unfold tg_cfs_schedulable_down. rewrite Hid. cbn [mbind option_bind tg_parent]. rewrite Hv1, Hn, Hl.
  destruct s64_inf as [_ Eu]. destruct (r id) as [x|] eqn:Er; cbn [encode].
  - specialize (Hx x eq_refl). rewrite (u64_small x) by lia.
    rewrite (proj2 (Z.eqb_neq x RUNTIME_INF)) by (rewrite law_runtime_inf; lia).
    destruct limit as [l|]; cbn [encode].
    + specialize (Hb l eq_refl). rewrite (u64_small l) by lia.
      rewrite (proj2 (Z.eqb_neq l RUNTIME_INF)) by (rewrite law_runtime_inf; lia). cbn [negb andb].
      rewrite Z.leb_antisym. destruct (l <? x); [done|]. by eexists.
    + rewrite Eu, Z.eqb_refl. by eexists.
  - rewrite Eu, Z.eqb_refl. by eexists.
Qed.

Lemma ids_head g : group_id g ∈ ids g.
Proof. destruct g. by left. Qed.

(** Visiting a subtree, and the children of a group, on cgroup v1. *)
Definition visits (r : ptr -> option Z) (limit : option Z) (l : list ptr) (ok : bool) (bw : limits) (o : Z * limits) : Prop :=
  o.1 = (if ok then 0 else - EINVAL) /\ same_limits bw o.2 /\ forall p, p ∉ l -> o.2 p = bw p.

Lemma visit_all_v1 data r q limit cs : forall bw,
  (forall c, c ∈ cs -> forall bw, computes data r (ids c) bw -> hierarchical_quota (bw q) = encode limit ->
     visits r limit (ids c) (fits r limit c) bw (visit (down data) tg_nop c bw)) ->
  computes data r (flat_map ids cs) bw -> q ∉ flat_map ids cs -> hierarchical_quota (bw q) = encode limit ->
  visits r limit (flat_map ids cs) (forallb (fits r limit) cs) bw (visit_all (down data) tg_nop cs bw).
Proof.
  induction cs as [|c cs IH]; intros bw Hc Hr Hq Hl; [done|]. cbn [visit_all forallb flat_map] in *.
  apply not_elem_of_app in Hq as [Hqc Hqs].
  destruct (Hc c ltac:(by left) bw) as (H1 & H2 & H3).
  { eapply computes_sub; [exact Hr| |done]. intros p Hp. apply elem_of_app. by left. }
  { exact Hl. }
  destruct (visit (down data) tg_nop c bw) as [ret bw1]. cbn [fst snd] in *. subst ret.
  destruct (fits r limit c); cbn [andb].
  - change (nz 0) with false. destruct (IH bw1) as (H4 & H5 & H6).
    + intros c' Hc'. apply Hc. by right.
    + eapply computes_sub; [exact Hr| |exact H2]. intros p Hp. apply elem_of_app. by right.
    + exact Hqs.
    + by rewrite H3.
    + split; [exact H4|]. split; [by etransitivity|]. intros p [Hp1 Hp2]%not_elem_of_app. by rewrite H6, H3.
  - change (nz (- EINVAL)) with true. split; [done|]. split; [exact H2|]. intros p [Hp1 Hp2]%not_elem_of_app. by apply H3.
Qed.
Lemma visit_v1 data r g : cgroup_subsys_on_dfl = false -> forall q limit bw,
  linked tgs (Some q) g -> NoDup (ids g) -> limit_bounded limit ->
  computes data r (ids g) bw -> hierarchical_quota (bw q) = encode limit ->
  visits r limit (ids g) (fits r limit g) bw (visit (down data) tg_nop g bw).
Proof using BL.
  intros Hv1. induction g as [id cs IH] using group_ind'. intros q limit bw Hlk Hnd Hb Hr Hl.
  pose proof Hlk as [Hid _]. destruct (nodup_children _ _ Hnd) as [_ Hndc]. apply NoDup_cons in Hnd as [Hni _].
  assert (computes data r [id] bw) as Hr1
    by (eapply computes_sub; [exact Hr| |done]; intros p ->%list_elem_of_singleton; by left).
  pose proof (down_v1 data r id q (map group_id cs) bw limit Hv1 Hid Hr1 Hb Hl) as Hd. cbv zeta in Hd.
  set (limit' := match r id with None => limit | Some x => Some x end) in *.
  assert (fits r limit (Group id cs) =
    (match r id, limit with Some x, Some l => x <=? l | _, _ => true end) && forallb (fits r limit') cs) as Ef
    by (subst limit'; cbn [fits]; destruct (r id), limit; done).
  rewrite Ef, visit_eq. destruct (match r id, limit with Some x, Some l => x <=? l | _, _ => true end).
  2: { rewrite Hd. cbn [andb fst snd]. change (nz (- EINVAL)) with true. by split. }
  destruct Hd as (h & -> & Hh). change (nz 0) with false. cbn [andb].
  set (bw1 := set_limit id _ bw) in *.
  assert (limit_bounded limit') as Hb'.
  { subst limit'. intros l. destruct (r id) as [x|] eqn:Ex; [|apply Hb]. intros [= <-].
    by apply (proj2 (Hr bw ltac:(done) id ltac:(by left))). }
  destruct (visit_all_v1 data r id limit' cs bw1) as (H1 & H2 & H3).
  - intros c Hc bw2 Hr2 Hl2. apply (IH c Hc id); [by eapply linked_children|by apply Hndc|done|done|done].
  - eapply computes_sub; [exact Hr| |apply same_limits_store]. intros p Hp. by right.
  - exact Hni.
  - subst bw1. by rewrite stored_at.
  - destruct (visit_all (down data) tg_nop cs bw1) as [ret bw2]. cbn [fst snd] in *. subst ret.
    assert (same_limits bw bw2 /\ forall p, p ∉ ids (Group id cs) -> bw2 p = bw p) as [H4 H5].
    { split; [etransitivity; [apply same_limits_store|exact H2]|]. intros p [Hp1 Hp2]%not_elem_of_cons.
      rewrite H3 by done. by apply stored_other. }
    destruct (forallb (fits r limit') cs); [by split|]. change (nz (- EINVAL)) with true. by split.
Qed.

(** A tree all of whose limits are in range. *)
Definition limits_ok (bw : limits) (g : group) : Prop := forall p, p ∈ ids g -> limit_ok (bw p).

Lemma limit_ok_same b b' :
  cfs_period b' = cfs_period b -> cfs_quota b' = cfs_quota b -> limit_ok b -> limit_ok b'.
Proof. intros E1 E2. unfold limit_ok. by rewrite E1, E2. Qed.

Lemma shares_computed tg period quota bw l :
  (forall p, p ∈ l -> limit_ok (bw p)) -> limit_ok (mk_cfs_bandwidth period quota 0 0) ->
  computes (check_data tg period quota) (shares tg period quota bw) l bw.
Proof using BL.
  intros Hok Hnew bw' Hs p Hp. destruct (Hs p) as (E1 & E2 & _).
  assert (shares tg period quota bw p = shares tg period quota bw' p) as -> by (unfold shares; by rewrite E1, E2).
  apply normalize_share; [|done]. eapply limit_ok_same; [exact E1|exact E2|]. by apply Hok.
Qed.

Lemma cfs_schedulable_correct fuel tg period quota bw cs :
  cgroup_subsys_on_dfl = false ->
  linked tgs None (Group root cs) -> NoDup (ids (Group root cs)) -> (cost (Group root cs) <= fuel)%nat ->
  limits_ok bw (Group root cs) -> limit_ok (mk_cfs_bandwidth period quota 0 0) ->
  exists bw', __cfs_schedulable tgs root fuel tg period quota bw =
      Some (if forallb (fits (shares tg period quota bw) None) cs then 0 else - EINVAL, bw') /\
    same_limits bw bw'.
Proof using BL.
  intros Hv1 Hlk Hnd Hf Hok Hnew. unfold __cfs_schedulable. fold (check_data tg period quota).
  pose proof (walk_tg_tree_from_correct tgs (down (check_data tg period quota)) tg_nop fuel None (Group root cs) bw Hlk Hnd Hf) as Hw.
  change (group_id (Group root cs)) with root in Hw. rewrite Hw. clear Hw.
  pose proof Hlk as [Hid _]. destruct (nodup_children _ _ Hnd) as [_ Hndc]. apply NoDup_cons in Hnd as [Hni _].
  rewrite visit_eq. unfold tg_cfs_schedulable_down at 1. rewrite Hid. cbn [mbind option_bind tg_parent].
  change (nz 0) with false. set (bw1 := set_limit root _ bw).
  destruct (visit_all_v1 (check_data tg period quota) (shares tg period quota bw) root None cs bw1) as (H1 & H2 & H3).
  - intros c Hc bw2 Hr2 Hl2. apply (visit_v1 _ _ c Hv1 root); [by eapply linked_children|by apply Hndc|done|done|done].
  - eapply computes_sub; [apply (shares_computed tg period quota bw (ids (Group root cs)))|
      intros p Hp; by right|apply same_limits_store]; [exact Hok|exact Hnew].
  - exact Hni.
  - subst bw1. rewrite stored_at. apply s64_inf.
  - destruct (visit_all _ _ cs bw1) as [ret bw2]. cbn [fst snd] in *. subst ret. exists bw2.
    assert (same_limits bw bw2) as H4 by (etransitivity; [apply same_limits_store|exact H2]).
    split; [|exact H4]. by destruct (forallb _ cs).
Qed.

(** C29. On cgroup v1 the check accepts a new limit exactly when no group of the
    tree then has a larger share of the CPU than its nearest limited ancestor.
    No u64 or s64 of the computation overflows, [RUNTIME_INF] read as -1 included,
    and what an earlier check stored does not matter; only the stored
    hierarchical quotas change. *)
Theorem cfs_schedulable_sound fuel tg period quota bw cs :
  cgroup_subsys_on_dfl = false ->
  linked tgs None (Group root cs) -> NoDup (ids (Group root cs)) -> (cost (Group root cs) <= fuel)%nat ->
  limits_ok bw (Group root cs) -> limit_ok (mk_cfs_bandwidth period quota 0 0) ->
  exists bw', __cfs_schedulable tgs root fuel tg period quota bw =
      Some (if forallb (fits (shares tg period quota bw) None) cs then 0 else - EINVAL, bw') /\
    same_limits bw bw'.
Proof using BL. apply cfs_schedulable_correct. Qed.
(** ** cgroup v2 *)

(** Every group of [l] is stored as unlimited. *)
Definition all_unlimited (l : list ptr) (bw bw' : limits) : Prop :=
  same_limits bw bw' /\ (forall p, p ∈ l -> hierarchical_quota (bw' p) = -1) /\ forall p, p ∉ l -> bw' p = bw p.

Lemma down_v2 data r id parent cs bw :
  cgroup_subsys_on_dfl = true -> tgs !! id = Some (mk_tg_links (Some parent) cs) ->
  computes data r [id] bw -> hierarchical_quota (bw parent) = -1 ->
  down data id bw = (0, set_limit id (fun b => b <| hierarchical_quota := -1 |>) bw).
Proof.
  intros Hv2 Hid Hr Hl. destruct (Hr bw ltac:(done) id ltac:(by left)) as [Hn Hx].
  unfold tg_cfs_schedulable_down. rewrite Hid. cbn [mbind option_bind tg_parent]. rewrite Hv2, Hn, Hl.
  assert (Z.min (encode (r id)) (-1) = -1) as ->; [|done].
  destruct (r id) as [x|]; cbn [encode]; [specialize (Hx x eq_refl)|]; lia.
Qed.

Lemma visit_all_v2 data r q cs : forall bw,
  (forall c, c ∈ cs -> forall bw, computes data r (ids c) bw -> hierarchical_quota (bw q) = -1 ->
     exists bw', visit (down data) tg_nop c bw = (0, bw') /\ all_unlimited (ids c) bw bw') ->
  computes data r (flat_map ids cs) bw -> q ∉ flat_map ids cs -> NoDup (flat_map ids cs) ->
  hierarchical_quota (bw q) = -1 ->
  exists bw', visit_all (down data) tg_nop cs bw = (0, bw') /\ all_unlimited (flat_map ids cs) bw bw'.
Proof.
  induction cs as [|c cs IH]; intros bw Hc Hr Hq Hnd Hl.
  { exists bw. split; [done|]. split; [done|]. by split; [intros p ?%not_elem_of_nil|]. }
  cbn [visit_all flat_map] in *. apply not_elem_of_app in Hq as [Hqc Hqs]. apply NoDup_app in Hnd as (_ & Hdis & Hnd).
  destruct (Hc c ltac:(by left) bw) as (bw1 & -> & H1 & H2 & H3).
  { eapply computes_sub; [exact Hr| |done]. intros p Hp. apply elem_of_app. by left. }
  { exact Hl. }
  change (nz 0) with false. destruct (IH bw1) as (bw2 & -> & H4 & H5 & H6).
  - intros c' Hc'. apply Hc. by right.
  - eapply computes_sub; [exact Hr| |exact H1]. intros p Hp. apply elem_of_app. by right.
  - exact Hqs.
  - exact Hnd.
  - by rewrite H3.
  - exists bw2. split; [done|]. split; [by etransitivity|]. split.
    + intros p [Hp|Hp]%elem_of_app; [|by apply H5]. rewrite H6 by (by apply Hdis). by apply H2.
    + intros p [Hp1 Hp2]%not_elem_of_app. by rewrite H6, H3.
Qed.

Lemma visit_v2 data r g : cgroup_subsys_on_dfl = true -> forall q bw,
  linked tgs (Some q) g -> NoDup (ids g) -> computes data r (ids g) bw -> hierarchical_quota (bw q) = -1 ->
  exists bw', visit (down data) tg_nop g bw = (0, bw') /\ all_unlimited (ids g) bw bw'.
Proof.
  intros Hv2. induction g as [id cs IH] using group_ind'. intros q bw Hlk Hnd Hr Hl.
  pose proof Hlk as [Hid _]. destruct (nodup_children _ _ Hnd) as [_ Hndc]. apply NoDup_cons in Hnd as [Hni Hndf].
  assert (computes data r [id] bw) as Hr1
    by (eapply computes_sub; [exact Hr| |done]; intros p ->%list_elem_of_singleton; by left).
  rewrite visit_eq, (down_v2 data r id q _ bw Hv2 Hid Hr1 Hl). change (nz 0) with false.
  set (bw1 := set_limit id _ bw).
  destruct (visit_all_v2 data r id cs bw1) as (bw2 & -> & H4 & H5 & H6).
  - intros c Hc bw2 Hr2 Hl2. apply (IH c Hc id); [by eapply linked_children|by apply Hndc|done|done].
  - eapply computes_sub; [exact Hr| |apply same_limits_store]. intros p Hp. by right.
  - exact Hni.
  - exact Hndf.
  - subst bw1. by rewrite stored_at.
  - change (nz 0) with false. exists bw2. split; [done|]. split; [etransitivity; [apply same_limits_store|exact H4]|]. split.
    + intros p [->|Hp]%elem_of_cons; [|by apply H5]. rewrite H6 by done. apply stored_at.
    + intros p [Hp1 Hp2]%not_elem_of_cons. rewrite H6 by done. by apply stored_other.
Qed.

Lemma cfs_schedulable_v2 fuel tg period quota bw cs :
  cgroup_subsys_on_dfl = true ->
  linked tgs None (Group root cs) -> NoDup (ids (Group root cs)) -> (cost (Group root cs) <= fuel)%nat ->
  limits_ok bw (Group root cs) -> limit_ok (mk_cfs_bandwidth period quota 0 0) ->
  exists bw', __cfs_schedulable tgs root fuel tg period quota bw = Some (0, bw') /\
    all_unlimited (ids (Group root cs)) bw bw'.
Proof using BL.
  intros Hv2 Hlk Hnd Hf Hok Hnew. unfold __cfs_schedulable. fold (check_data tg period quota).
  pose proof (walk_tg_tree_from_correct tgs (down (check_data tg period quota)) tg_nop fuel None (Group root cs) bw Hlk Hnd Hf) as Hw.
  change (group_id (Group root cs)) with root in Hw. rewrite Hw. clear Hw.
  pose proof Hlk as [Hid _]. destruct (nodup_children _ _ Hnd) as [_ Hndc]. apply NoDup_cons in Hnd as [Hni Hndf].
  rewrite visit_eq. unfold tg_cfs_schedulable_down at 1. rewrite Hid. cbn [mbind option_bind tg_parent].
  change (nz 0) with false. rewrite (proj1 s64_inf). set (bw1 := set_limit root _ bw).
  destruct (visit_all_v2 (check_data tg period quota) (shares tg period quota bw) root cs bw1) as (bw2 & -> & H1 & H2 & H3).
  - intros c Hc bw2 Hr2 Hl2. apply (visit_v2 _ (shares tg period quota bw) c Hv2 root); [by eapply linked_children|by apply Hndc|done|done].
  - eapply computes_sub; [apply (shares_computed tg period quota bw (ids (Group root cs)))|
      intros p Hp; by right|apply same_limits_store]; [exact Hok|exact Hnew].
  - exact Hni.
  - exact Hndf.
  - subst bw1. by rewrite stored_at.
  - change (nz 0) with false. exists bw2. split; [done|]. split; [etransitivity; [apply same_limits_store|exact H1]|]. split.
    + intros p [->|Hp]%elem_of_cons; [|by apply H2]. rewrite H3 by done. apply stored_at.
    + intros p [Hp1 Hp2]%not_elem_of_cons. rewrite H3 by done. by apply stored_other.
Qed.

(** On cgroup v2 the check accepts every limit, and the hierarchical quota it
    stores is -1, "no limit", for every group of the tree, the limited ones
    included: the minimum of a quota and its parent's is taken on signed numbers,
    where the root's [RUNTIME_INF] is -1. *)
Theorem cfs_hierarchical_quota_v2 fuel tg period quota bw cs :
  cgroup_subsys_on_dfl = true ->
  linked tgs None (Group root cs) -> NoDup (ids (Group root cs)) -> (cost (Group root cs) <= fuel)%nat ->
  limits_ok bw (Group root cs) -> limit_ok (mk_cfs_bandwidth period quota 0 0) ->
  exists bw', __cfs_schedulable tgs root fuel tg period quota bw = Some (0, bw') /\
    all_unlimited (ids (Group root cs)) bw bw'.
Proof using BL. apply cfs_schedulable_v2. Qed.
End Spec.
