(* ===== verification/BandwidthSet.v ===== *)
(** * BandwidthSet: setting the CPU limit of a group

    Setting a limit either changes nothing that counts or sets it everywhere:
    the group, its run queues on all online CPUs and the number of limited
    groups.  The theorems of [BandwidthSpec] and of this file at work on a tree of
    three groups are at the end. *)

From S2P Require Import Prelude Task TaskGroup Bandwidth BandwidthSpec.

Section Set_.
Context {B : BandwidthApi} {BL : BandwidthLaws B} (tgs : gmap ptr tg_links) (root : ptr) (cs : list group).
Context (refill : cfs_bandwidth -> cfs_bandwidth) (unthrottle : cfs_rq -> cfs_rq).

(** The fair class refills the runtime and ends throttling, no more. *)
Hypothesis refill_keeps : forall b, cfs_period (refill b) = cfs_period b /\ cfs_quota (refill b) = cfs_quota b.
Hypothesis unthrottle_keeps : forall c, runtime_enabled (unthrottle c) = runtime_enabled c.
Hypothesis tree : linked tgs None (Group root cs).
Hypothesis tree_nodup : NoDup (ids (Group root cs)).

Abbreviation groups := (ids (Group root cs)).
Abbreviation set_bandwidth := (tg_set_cfs_bandwidth tgs root refill unthrottle).

Definition limited (b : cfs_bandwidth) : bool := negb (cfs_quota b =? RUNTIME_INF).

(** The shares the limits in force give. *)
Definition current_shares (bw : limits) (p : ptr) : option Z := share_of (cfs_period (bw p)) (cfs_quota (bw p)).

(** The limits are in range and, on cgroup v1, no group has a larger share than its
    nearest limited ancestor; [bw_users] counts the limited groups; on every online
    CPU exactly the limited groups have their runtime enforced. *)
Record bw_ok (s : bw_state) : Prop := {
  bwo_limits : limits_ok (bw_limits s) (Group root cs);
  bwo_fits : cgroup_subsys_on_dfl = false -> forallb (fits (current_shares (bw_limits s)) None) cs = true;
  bwo_users : bw_users s = Zsum (map (fun p => Z.b2z (limited (bw_limits s p))) groups);
  bwo_enabled p cpu : p ∈ groups -> cpu ∈ bw_online s -> runtime_enabled (bw_cfs_rq s p cpu) = limited (bw_limits s p)
}.

(** What the range checks let through. *)
Definition acceptable (period quota : Z) : Prop :=
  min_cfs_quota_period <= period <= max_cfs_quota_period /\
  (quota = RUNTIME_INF \/ min_cfs_quota_period <= quota <= max_cfs_runtime).

Lemma acceptable_ok period quota : acceptable period quota -> limit_ok (mk_cfs_bandwidth period quota 0 0).
Proof using BL.
  intros [Hp Hq]. split; [exact Hp|]. cbn. destruct Hq as [?|Hq]; [by left|right].
  assert (0 <= min_cfs_quota_period) by (unfold min_cfs_quota_period; destruct nsec_values as (_ & -> & _); lia). lia.
Qed.

Lemma limits_ok_same bw bw' g : same_limits bw bw' -> limits_ok bw g -> limits_ok bw' g.
Proof. intros Hs Hok p Hp. destruct (Hs p) as (E1 & E2 & _). eapply limit_ok_same; [exact E1|exact E2|by apply Hok]. Qed.

(** The verdict on the tree is about shares only. *)
Lemma fits_ext (r r' : ptr -> option Z) g : (forall p, r' p = r p) -> forall limit, fits r' limit g = fits r limit g.
Proof.
  intros Hr. induction g as [id l IH] using group_ind'. intros limit. cbn [fits]. rewrite Hr.
  assert (forall x, forallb (fits r' x) l = forallb (fits r x) l) as Hl.
  { intros x. clear - IH. induction l as [|c l IHl]; [done|]. cbn [forallb]. rewrite (IH c) by (by left).
    rewrite IHl; [done|]. intros d Hd. apply IH. by right. }
  by destruct (r id); rewrite Hl.
Qed.
Lemma all_fit_ext (r r' : ptr -> option Z) l : (forall p, r' p = r p) -> forallb (fits r' None) l = forallb (fits r None) l.
Proof. intros Hr. induction l as [|c l IH]; [done|]. cbn [forallb]. by rewrite IH, (fits_ext r r'). Qed.

(** When a limit may be set: not for the root, numbers in range, and on cgroup v1
    every group then fits into its nearest limited ancestor. *)
Definition permitted (tg : ptr) (period quota : Z) (s : bw_state) : Prop :=
  tg <> root /\ acceptable period quota /\
  (cgroup_subsys_on_dfl = false -> forallb (fits (shares tg period quota (bw_limits s)) None) cs = true).

Lemma schedulable_total fuel tg period quota s :
  tg <> root -> acceptable period quota -> (cost (Group root cs) <= fuel)%nat -> limits_ok (bw_limits s) (Group root cs) ->
  exists ret bw', __cfs_schedulable tgs root fuel tg period quota (bw_limits s) = Some (ret, bw') /\
    (ret = 0 /\ permitted tg period quota s \/ ret = - EINVAL /\ ~ permitted tg period quota s) /\
    same_limits (bw_limits s) bw'.
Proof using BL tree tree_nodup.
  intros Hroot Hacc Hf Hok. pose proof (acceptable_ok _ _ Hacc) as Hnew. destruct cgroup_subsys_on_dfl eqn:Ev.
  - destruct (cfs_schedulable_v2 tgs root fuel tg period quota (bw_limits s) cs) as (bw' & E & H & _); [done..|].
    exists 0, bw'. split; [done|]. split; [|done]. left. split; [done|]. split; [done|]. split; [done|]. by rewrite Ev.
  - destruct (cfs_schedulable_correct tgs root fuel tg period quota (bw_limits s) cs) as (bw' & E & H); [done..|].
    eexists _, bw'. split; [exact E|]. split; [|done]. destruct (forallb _ _) eqn:Ef; [left|right]; (split; [done|]).
    + by split.
    + intros (_ & _ & Hp). rewrite Hp in Ef; done.
Qed.

(** Counting after one change. *)
Lemma count_change (f g : ptr -> bool) (l : list ptr) tg :
  NoDup l -> tg ∈ l -> (forall p, p <> tg -> g p = f p) ->
  Zsum (map (fun p => Z.b2z (g p)) l) = Zsum (map (fun p => Z.b2z (f p)) l) - Z.b2z (f tg) + Z.b2z (g tg).
Proof.
  intros Hnd Hin Hfg. induction l as [|x l IH]; [by apply not_elem_of_nil in Hin|].
  apply NoDup_cons in Hnd as [Hx Hnd]. cbn [map]. rewrite !Zsum_cons. destruct (decide (x = tg)) as [->|Hne].
  - assert (map (fun p => Z.b2z (g p)) l = map (fun p => Z.b2z (f p)) l) as ->; [|lia].
    apply map_ext_in. intros p Hp. rewrite Hfg; [done|]. intros ->. by apply Hx, list_elem_of_In.
  - apply elem_of_cons in Hin as [?|Hin]; [by subst|]. rewrite (IH Hnd Hin), (Hfg x Hne). lia.
Qed.

Lemma count_same bw bw' l : same_limits bw bw' ->
  map (fun p => Z.b2z (limited (bw' p))) l = map (fun p => Z.b2z (limited (bw p))) l.
Proof. intros Hs. apply map_ext. intros p. unfold limited. destruct (Hs p) as (_ & -> & _). done. Qed.

(** The state after a limit was set. *)
Definition limit_set (tg : ptr) (period quota : Z) (s s' : bw_state) : Prop :=
  cfs_period (bw_limits s' tg) = period /\ cfs_quota (bw_limits s' tg) = quota /\
  forall p, p <> tg -> cfs_period (bw_limits s' p) = cfs_period (bw_limits s p) /\
    cfs_quota (bw_limits s' p) = cfs_quota (bw_limits s p) /\
    forall cpu, bw_cfs_rq s' p cpu = bw_cfs_rq s p cpu.

(** ... and after a refusal. *)
Definition limit_refused (s s' : bw_state) : Prop :=
  same_limits (bw_limits s) (bw_limits s') /\ bw_cfs_rq s' = bw_cfs_rq s /\ bw_users s' = bw_users s.

Lemma refused_ok s s' : bw_ok s -> limit_refused s s' -> bw_online s' = bw_online s -> bw_ok s'.
Proof.
  intros [H1 Hfit H2 H3] (Hs & Er & Eu) Eo. split.
  - by eapply limits_ok_same.
  - intros Hv1. rewrite <- (Hfit Hv1). apply all_fit_ext. intros p. unfold current_shares. destruct (Hs p) as (-> & -> & _). done.
  - by rewrite Eu, H2, (count_same _ _ _ Hs).
  - intros p cpu Hp Hc. rewrite Er, H3 by (try done; by rewrite <- Eo). unfold limited. destruct (Hs p) as (_ & -> & _). done.
Qed.

(** The state the code builds when the check of the hierarchy has left [bw]. *)
Definition with_limit (tg : ptr) (period quota : Z) (bw : limits) (s : bw_state) : bw_state :=
  let enabled := negb (quota =? RUNTIME_INF) in
  let was_enabled := negb (cfs_quota (bw tg) =? RUNTIME_INF) in
  let users := if enabled && negb was_enabled then bw_users s + 1 else bw_users s in
  mk_bw_state (set_limit tg (fun b => refill (b <| cfs_period := period |> <| cfs_quota := quota |>)) bw)
    (fun p cpu => if decide (p = tg /\ cpu ∈ bw_online s) then reset_cfs_rq unthrottle enabled (bw_cfs_rq s p cpu)
                  else bw_cfs_rq s p cpu)
    (if was_enabled && negb enabled then users - 1 else users) (bw_online s).

Lemma with_limit_at tg period quota bw s :
  cfs_period (bw_limits (with_limit tg period quota bw s) tg) = period /\
  cfs_quota (bw_limits (with_limit tg period quota bw s) tg) = quota.
Proof using refill_keeps.
  cbn [with_limit bw_limits]. unfold set_limit. rewrite decide_True by done.
  destruct (refill_keeps ((bw tg) <| cfs_period := period |> <| cfs_quota := quota |>)) as [-> ->]. done.
Qed.

Lemma with_limit_other tg period quota bw s p : p <> tg -> bw_limits (with_limit tg period quota bw s) p = bw p.
Proof. intros Hp. cbn [with_limit bw_limits]. unfold set_limit. by rewrite decide_False. Qed.

Lemma set_bandwidth_set tg period quota bw s :
  same_limits (bw_limits s) bw -> limit_set tg period quota s (with_limit tg period quota bw s).
Proof using refill_keeps.
  intros Hs. destruct (with_limit_at tg period quota bw s) as [E1 E2]. split; [exact E1|]. split; [exact E2|].
  intros p Hp. rewrite with_limit_other by done. destruct (Hs p) as (-> & -> & _). split; [done|]. split; [done|].
  intros cpu. cbn [with_limit bw_cfs_rq]. rewrite decide_False; [done|]. by intros [? _].
Qed.

Lemma set_bandwidth_ok tg period quota bw s :
  bw_ok s -> tg ∈ groups -> permitted tg period quota s -> same_limits (bw_limits s) bw ->
  bw_ok (with_limit tg period quota bw s).
Proof using All.
  intros [Hlim _ Hus Hen] Htg (_ & Hacc & Hfit) Hs. destruct (with_limit_at tg period quota bw s) as [E1 E2].
  assert (limited (bw_limits (with_limit tg period quota bw s) tg) = negb (quota =? RUNTIME_INF)) as Elim
    by (unfold limited; by rewrite E2).
  split.
  - intros p Hp. destruct (decide (p = tg)) as [->|Hne].
    + apply (limit_ok_same (mk_cfs_bandwidth period quota 0 0)); [exact E1|exact E2|by apply acceptable_ok].
    + rewrite with_limit_other by done. by apply (limits_ok_same _ _ _ Hs Hlim).
  - intros Hv1. rewrite <- (Hfit Hv1). apply all_fit_ext. intros p. unfold current_shares, shares.
    destruct (decide (p = tg)) as [->|Hne]; [by rewrite E1, E2|]. rewrite with_limit_other by done.
    destruct (Hs p) as (-> & -> & _). done.
  - rewrite (count_change (fun p => limited (bw p)) _ groups tg tree_nodup Htg), Elim,
      (count_same _ _ groups Hs), <- Hus by (intros p Hp; by rewrite with_limit_other).
    cbn [with_limit bw_users]. unfold limited.
    destruct (quota =? RUNTIME_INF), (cfs_quota (bw tg) =? RUNTIME_INF); cbn; lia.
  - intros p cpu Hp Hc. cbn [with_limit bw_cfs_rq bw_online] in *. destruct (decide (p = tg /\ cpu ∈ bw_online s)) as [[-> _]|Hne].
    + unfold reset_cfs_rq. cbn [throttled]. rewrite Elim. destruct (throttled _); [by rewrite unthrottle_keeps|done].
    + assert (p <> tg) as Hpt by (intros ->; by apply Hne). rewrite (Hen p cpu Hp Hc), with_limit_other by done.
      unfold limited. by destruct (Hs p) as (_ & -> & _).
Qed.

(** The range checks in front of the check of the hierarchy. *)
Lemma range_checks tg period quota (s : bw_state) :
  (tg = root \/ ((quota <? min_cfs_quota_period) || (period <? min_cfs_quota_period)) = true \/
   (max_cfs_quota_period <? period) = true \/ (negb (quota =? RUNTIME_INF) && (max_cfs_runtime <? quota)) = true) ->
  ~ permitted tg period quota s.
Proof using BL.
  intros H (Hroot & [Hp Hq] & _). assert (min_cfs_quota_period <= RUNTIME_INF) as Hinf.
  { unfold min_cfs_quota_period. destruct nsec_values as (_ & -> & _). rewrite law_runtime_inf. lia. }
  destruct H as [?|[H|[H|H]]]; [done|..]; bool_cases; [|lia|].
  - apply orb_true_iff in H as [H|H]; bool_cases; [destruct Hq; subst; lia|lia].
  - destruct Hq as [->|Hq]; [|lia]. by destruct (RUNTIME_INF =? RUNTIME_INF) eqn:E; bool_cases.
Qed.

Lemma set_bandwidth_correct fuel tg period quota s :
  bw_ok s -> tg ∈ groups -> (cost (Group root cs) <= fuel)%nat ->
  exists ret s', set_bandwidth fuel tg period quota s = Some (ret, s') /\ bw_ok s' /\ bw_online s' = bw_online s /\
    (permitted tg period quota s /\ ret = 0 /\ limit_set tg period quota s s' \/
     ~ permitted tg period quota s /\ ret = - EINVAL /\ limit_refused s s').
Proof using All.
  intros Hok Htg Hf.
  assert (~ permitted tg period quota s ->
    exists ret s', Some (- EINVAL, s) = Some (ret, s') /\ bw_ok s' /\ bw_online s' = bw_online s /\
    (permitted tg period quota s /\ ret = 0 /\ limit_set tg period quota s s' \/
     ~ permitted tg period quota s /\ ret = - EINVAL /\ limit_refused s s')) as Hrefuse.
  { intros Hno. exists (- EINVAL), s. split; [done|]. split; [done|]. split; [done|]. by right. }
  unfold tg_set_cfs_bandwidth.
  destruct (bool_decide (tg = root)) eqn:Er; [apply Hrefuse, range_checks; left; by apply bool_decide_eq_true in Er|].
  apply bool_decide_eq_false in Er.
  destruct ((quota <? min_cfs_quota_period) || (period <? min_cfs_quota_period)) eqn:E1; [apply Hrefuse, range_checks; auto|].
  destruct (max_cfs_quota_period <? period) eqn:E2; [apply Hrefuse, range_checks; auto|].
  destruct (negb (quota =? RUNTIME_INF) && (max_cfs_runtime <? quota)) eqn:E3; [apply Hrefuse, range_checks; auto|].
  clear Hrefuse. bool_cases.
  assert (acceptable period quota) as Hacc.
  { split; [lia|]. apply andb_false_iff in E3 as [E3|E3]; bool_cases; [by left|right; lia]. }
  destruct (schedulable_total fuel tg period quota s Er Hacc Hf (bwo_limits _ Hok)) as (ret & bw & -> & Hret & Hs).
  destruct Hret as [[-> Hper]|[-> Hno]].
  2: { change (nz (- EINVAL)) with true. cbv iota. eexists _, _. split; [reflexivity|].
       assert (limit_refused s (mk_bw_state bw (bw_cfs_rq s) (bw_users s) (bw_online s))) as Href by by split.
       split; [by eapply refused_ok|]. split; [done|]. by right. }
  change (nz 0) with false. cbv iota zeta. eexists 0, _. split; [reflexivity|].
  split; [by apply set_bandwidth_ok|]. split; [done|]. left. split; [done|]. split; [done|]. by apply set_bandwidth_set.
Qed.

(** C27. Setting a group's limit is granted exactly when it may be: not for the root,
    with period and quota in range, and, on cgroup v1, when afterwards no group of
    the tree has a larger share than its nearest limited ancestor.  Then the call
    returns 0 and sets the limit of that group and nothing else's; otherwise it
    returns EINVAL and changes nothing but the hierarchical quotas, which every
    check computes anew.  Either way the state stays consistent: limits in range and
    fitting into each other up the tree, an exact count of limited groups, and on
    every online CPU exactly the limited groups enforced. *)
Theorem set_cfs_bandwidth_consistent fuel tg period quota s :
  bw_ok s -> tg ∈ groups -> (cost (Group root cs) <= fuel)%nat ->
  exists ret s', set_bandwidth fuel tg period quota s = Some (ret, s') /\ bw_ok s' /\ bw_online s' = bw_online s /\
    (permitted tg period quota s /\ ret = 0 /\ limit_set tg period quota s s' \/
     ~ permitted tg period quota s /\ ret = - EINVAL /\ limit_refused s s').
Proof using All. apply set_bandwidth_correct. Qed.

Lemma read_quota b q : cfs_quota b = q -> q <> RUNTIME_INF -> 0 <= q <= max_cfs_runtime -> tg_get_cfs_quota b = q / 1000.
Proof using BL.
  intros Eb Hq Hb. unfold tg_get_cfs_quota. rewrite Eb, (proj2 (Z.eqb_neq _ _)) by done. rewrite (proj1 nsec_values).
  apply s64_small. by apply usec_pos.
Qed.

(** What is written to [cpu.cfs_quota_us] is read back: microseconds as they
    are, a negative value as -1, no limit; the period stays.  A write that is
    refused leaves both as they were.  No number wraps around on the way. *)
Theorem cfs_quota_roundtrip fuel tg us s :
  bw_ok s -> tg ∈ groups -> (cost (Group root cs) <= fuel)%nat -> - 2 ^ 63 <= us < 2 ^ 63 ->
  exists ret s', cpu_cfs_quota_write_s64 tgs root refill unthrottle fuel tg us s = Some (ret, s') /\ bw_ok s' /\
    cpu_cfs_period_read_u64 s' tg = cpu_cfs_period_read_u64 s tg /\
    cpu_cfs_quota_read_s64 s' tg =
      (if ret =? 0 then Z.max us (-1) else cpu_cfs_quota_read_s64 s tg).
Proof using All.
  intros Hok Htg Hf Hus. unfold cpu_cfs_quota_write_s64, tg_set_cfs_quota, cpu_cfs_period_read_u64, cpu_cfs_quota_read_s64.
  assert (forall quota, (quota = RUNTIME_INF /\ us < 0 \/ quota = us * 1000 /\ 0 <= us /\ us * 1000 < 2 ^ 64) ->
    exists ret s', set_bandwidth fuel tg (cfs_period (bw_limits s tg)) quota s = Some (ret, s') /\ bw_ok s' /\
      u64 (tg_get_cfs_period (bw_limits s' tg)) = u64 (tg_get_cfs_period (bw_limits s tg)) /\
      tg_get_cfs_quota (bw_limits s' tg) = (if ret =? 0 then Z.max us (-1) else tg_get_cfs_quota (bw_limits s tg))) as Hset.
  { intros quota Hquota.
    destruct (set_bandwidth_correct fuel tg (cfs_period (bw_limits s tg)) quota s Hok Htg Hf)
      as (ret & s' & E1 & Hok' & _ & [((_ & [_ Hacc] & _) & -> & (Hp & Hq & _))|(_ & -> & (Hs & _ & _))]);
      eexists _, s'; (split; [exact E1|]; split; [exact Hok'|]).
    - unfold tg_get_cfs_period. rewrite Hp. split; [done|]. rewrite Z.eqb_refl.
      destruct Hquota as [[-> Hneg]|(-> & Hpos & Hw)].
      + unfold tg_get_cfs_quota. rewrite Hq, Z.eqb_refl. lia.
      + assert (us * 1000 <> RUNTIME_INF) as Hne by (rewrite law_runtime_inf; lia).
        destruct Hacc as [?|Hacc]; [done|]. rewrite (read_quota _ _ Hq Hne) by lia. rewrite Z.div_mul by lia. lia.
    - destruct (Hs tg) as (Ep & Eq & _). unfold tg_get_cfs_period, tg_get_cfs_quota. rewrite Ep, Eq. split; [done|].
      done. }
  cbv zeta. destruct (us <? 0) eqn:Eneg; bool_cases.
  - apply Hset. left. split; [done|lia].
  - rewrite (u64_small us) by lia. rewrite (proj1 nsec_values). unfold U64_MAX.
    destruct (us <=? (2 ^ 64 - 1) / 1000) eqn:E1; bool_cases.
    + assert (us * 1000 < 2 ^ 64) by (change ((2 ^ 64 - 1) / 1000) with 18446744073709551 in E1; lia).
      rewrite wrapu_id by lia. apply Hset. right. lia.
    + exists (- EINVAL), s. by split.
Qed.
(** ** cpu.max *)

Lemma read_period b : min_cfs_quota_period <= cfs_period b <= max_cfs_quota_period -> tg_get_cfs_period b = cfs_period b / 1000.
Proof using BL.
  unfold min_cfs_quota_period, max_cfs_quota_period. destruct nsec_values as (E & -> & ->). intros H. unfold tg_get_cfs_period.
  rewrite E. apply s64_small. split; [apply Z.div_pos; lia|]. apply Z.div_lt_upper_bound; lia.
Qed.

(** A multiplication by 1000 that wraps around does not give "no limit", and is
    seen when the number is read back. *)
Lemma usec_not_inf us : u64 (us * 1000) <> RUNTIME_INF.
Proof using BL.
  rewrite law_runtime_inf. unfold wrapu. intros H.
  assert ((us * 1000) mod 2 = 0) as H2 by (rewrite Z.mul_mod by done; change (1000 mod 2) with 0; by rewrite Z.mul_0_r).
  pose proof (Z.div_mod (us * 1000) (2 ^ 64) ltac:(done)) as H3. rewrite H in H3.
  replace (us * 1000) with (1 + (us * 1000 / 2 ^ 64 * 2 ^ 63 + (2 ^ 63 - 1)) * 2) in H2 by lia.
  rewrite Z.mod_add in H2 by done. done.
Qed.
Lemma usec_read_back us : 0 <= us -> u64 (us * 1000) / 1000 = us <-> us * 1000 < 2 ^ 64.
Proof.
  intros Hus. split.
  - intros H. pose proof (wrapu_range 64 (us * 1000) ltac:(lia)). pose proof (Z.mul_div_le (u64 (us * 1000)) 1000 ltac:(lia)). lia.
  - intros H. rewrite wrapu_id by lia. by apply Z.div_mul.
Qed.

(** What cpu.max shows. *)
Definition shown (tg : ptr) (s : bw_state) : quota_token * Z := cpu_max_show s tg.

Lemma show_same tg s s' : same_limits (bw_limits s) (bw_limits s') -> shown tg s' = shown tg s.
Proof.
  intros Hs. destruct (Hs tg) as (E1 & E2 & _). unfold shown, cpu_max_show, tg_get_cfs_period, tg_get_cfs_quota. by rewrite E1, E2.
Qed.

Lemma show_set tg us period s :
  cfs_period (bw_limits s tg) = period -> cfs_quota (bw_limits s tg) = u64 (us * 1000) ->
  acceptable period (u64 (us * 1000)) ->
  shown tg s = (tok_number (u64 (us * 1000) / 1000), period / 1000).
Proof using BL.
  intros Ep Eq [Hp [Hq|Hq]]; [by destruct (usec_not_inf us)|].
  assert (0 < min_cfs_quota_period) by (unfold min_cfs_quota_period; destruct nsec_values as (_ & -> & _); lia).
  unfold shown, cpu_max_show, cpu_period_quota_print. rewrite read_period by by rewrite Ep.
  rewrite (read_quota _ _ Eq (usec_not_inf us)) by lia. rewrite Ep, (proj2 (Z.ltb_ge _ _)); [done|]. apply Z.div_pos; lia.
Qed.

(** C28. Writing "quota period" to [cpu.max] sets exactly the products of the two
    numbers with 1000, modulo 2^64, exactly when a limit of these products may be
    set (see [permitted]), and returns the number of bytes; the file then shows the
    two numbers of microseconds again if neither product wraps around, and other
    numbers otherwise.  Any other write returns EINVAL, and all limits, run queues
    and counts and what the file shows stay as they were.  The products are not checked,
    while [cpu.cfs_quota_us] refuses a number whose product wraps: a limit that is
    far too high for the kernel is accepted if it wraps to an acceptable one. *)
Theorem cpu_max_write_shown fuel tg us period_us nbytes s :
  bw_ok s -> tg ∈ groups -> (cost (Group root cs) <= fuel)%nat -> 0 <= us -> 0 <= period_us -> 0 < nbytes ->
  exists ret s', cpu_max_write tgs root refill unthrottle fuel tg (Some (tok_number us, Some period_us)) nbytes s = Some (ret, s') /\
    bw_ok s' /\
    (permitted tg (u64 (period_us * 1000)) (u64 (us * 1000)) s /\ ret = nbytes /\
       limit_set tg (u64 (period_us * 1000)) (u64 (us * 1000)) s s' /\
       cpu_max_show s' tg = (tok_number (u64 (us * 1000) / 1000), u64 (period_us * 1000) / 1000) /\
       (cpu_max_show s' tg = (tok_number us, period_us) <-> us * 1000 < 2 ^ 64 /\ period_us * 1000 < 2 ^ 64) \/
     ~ permitted tg (u64 (period_us * 1000)) (u64 (us * 1000)) s /\ ret = - EINVAL /\
       limit_refused s s' /\ cpu_max_show s' tg = cpu_max_show s tg) /\
    (2 ^ 64 <= us * 1000 -> us < 2 ^ 63 ->
     cpu_cfs_quota_write_s64 tgs root refill unthrottle fuel tg us s = Some (- EINVAL, s)).
Proof using All.
  intros Hok Htg Hf Hus Hperiod Hn. unfold cpu_max_write, cpu_period_quota_parse.
  change (default ?x (Some period_us)) with period_us. rewrite (proj1 nsec_values).
  destruct (set_bandwidth_correct fuel tg (u64 (period_us * 1000)) (u64 (us * 1000)) s Hok Htg Hf)
    as (ret & s' & E1 & Hok' & _ & Hcase). rewrite E1.
  exists (if nz ret then ret else nbytes), s'. split; [done|]. split; [done|]. split.
  - destruct Hcase as [(Hper & -> & Hset)|(Hno & -> & Href)].
    + left. split; [done|]. split; [done|]. split; [done|]. pose proof Hset as (Hp & Hq & _).
      pose proof (show_set tg us _ s' Hp Hq (proj1 (proj2 Hper))) as Hshow. unfold shown in Hshow. rewrite Hshow.
      split; [done|]. rewrite <- (usec_read_back us Hus), <- (usec_read_back period_us Hperiod). split; [by intros [= -> ->]|].
      by intros [-> ->].
    + right. split; [done|]. split; [done|]. split; [done|]. exact (show_same tg s s' (proj1 Href)).
  - intros Hwrap Hlong. unfold cpu_cfs_quota_write_s64, tg_set_cfs_quota. rewrite (proj2 (Z.ltb_ge _ _)) by lia.
    rewrite u64_small, (proj1 nsec_values) by lia. rewrite (proj2 (Z.leb_gt _ _)); [done|].
    unfold U64_MAX. apply Z.div_lt_upper_bound; lia.
Qed.
End Set_.

(** ** A tree of three groups *)

(** Group 2, a child of the root, and its child 3. *)
Definition demo_tree : gmap ptr tg_links :=
  {[ 1%positive := mk_tg_links None [2%positive];
     2%positive := mk_tg_links (Some 1%positive) [3%positive];
     3%positive := mk_tg_links (Some 2%positive) [] ]}.
Definition demo_children : list group := [Group 2%positive [Group 3%positive []]].

Lemma demo_linked : linked demo_tree None (Group 1%positive demo_children).
Proof. repeat split. Qed.
Lemma demo_nodup : NoDup (ids (Group 1%positive demo_children)).
Proof. change (NoDup [1; 2; 3]%positive). repeat (constructor; [set_solver|]). constructor. Qed.

(** Group 2 may use half a CPU, group 3 is not limited; periods of 100 ms. *)
Definition demo_limits : limits := fun p =>
  mk_cfs_bandwidth 100000000 (if bool_decide (p = 2%positive) then 50000000 else 2 ^ 64 - 1) (-1) 0.
Definition demo_state : bw_state :=
  mk_bw_state demo_limits (fun p _ => mk_cfs_rq (bool_decide (p = 2%positive)) 0 false) 1 [0].

Lemma demo_limits_ok v2 : limits_ok (B := linux58_bandwidth v2) demo_limits (Group 1%positive demo_children).
Proof.
  intros p Hp. split; [split; done|]. cbn. destruct (bool_decide (p = 2%positive)); [right|by left]. split; done.
Qed.
Lemma demo_ok v2 : bw_ok (B := linux58_bandwidth v2) 1%positive demo_children demo_state.
Proof.
  split; [apply demo_limits_ok|by intros _; vm_compute|done|]. intros p cpu _ _. unfold limited. cbn.
  by destruct (bool_decide (p = 2%positive)).
Qed.
Lemma demo_new v2 q : 0 <= q <= 10 ^ 9 -> limit_ok (B := linux58_bandwidth v2) (mk_cfs_bandwidth 100000000 q 0 0).
Proof.
  intros Hq. split; [by split|]. right.
  change (0 <= q <= 17592186044415000). lia.
Qed.

(** Three quarters for group 3 are refused on cgroup v1. *)
Lemma cfs_schedulable_sound_witness :
  exists bw', __cfs_schedulable (B := linux58_bandwidth false) demo_tree 1%positive 9 3%positive 100000000 75000000 demo_limits =
      Some (- EINVAL, bw') /\ same_limits demo_limits bw'.
Proof.
  exact (cfs_schedulable_sound (B := linux58_bandwidth false) demo_tree 1%positive 9 3%positive 100000000 75000000 demo_limits
    demo_children eq_refl demo_linked demo_nodup (le_n 9) (demo_limits_ok false) (demo_new false 75000000 ltac:(lia))).
Defined.

(** On cgroup v2 they are accepted, and group 2 shows no limit. *)
Lemma cfs_hierarchical_quota_v2_witness :
  exists bw', __cfs_schedulable (B := linux58_bandwidth true) demo_tree 1%positive 9 3%positive 100000000 75000000 demo_limits =
      Some (0, bw') /\ all_unlimited (ids (Group 1%positive demo_children)) demo_limits bw'.
Proof.
  exact (cfs_hierarchical_quota_v2 (B := linux58_bandwidth true) demo_tree 1%positive 9 3%positive 100000000 75000000 demo_limits
    demo_children eq_refl demo_linked demo_nodup (le_n 9) (demo_limits_ok true) (demo_new true 75000000 ltac:(lia))).
Defined.

Lemma set_cfs_bandwidth_consistent_witness :
  exists ret s', tg_set_cfs_bandwidth (B := linux58_bandwidth false) demo_tree 1%positive id id 9 2%positive 100000000 (2 ^ 64 - 1)
      demo_state = Some (ret, s') /\ bw_ok (B := linux58_bandwidth false) 1%positive demo_children s' /\
      bw_online s' = [0] /\
    (permitted (B := linux58_bandwidth false) 1%positive demo_children 2%positive 100000000 (2 ^ 64 - 1) demo_state /\
       ret = 0 /\ limit_set 2%positive 100000000 (2 ^ 64 - 1) demo_state s' \/
     ~ permitted (B := linux58_bandwidth false) 1%positive demo_children 2%positive 100000000 (2 ^ 64 - 1) demo_state /\
       ret = - EINVAL /\ limit_refused demo_state s').
Proof.
  apply (set_cfs_bandwidth_consistent (B := linux58_bandwidth false) demo_tree 1%positive demo_children id id
    (fun b => conj eq_refl eq_refl) (fun c => eq_refl) demo_linked demo_nodup 9 2%positive).
  - apply demo_ok.
  - right. left.
  - exact (le_n 9).
Defined.

Lemma cfs_quota_roundtrip_witness :
  exists ret s', cpu_cfs_quota_write_s64 (B := linux58_bandwidth false) demo_tree 1%positive id id 9 2%positive 20000 demo_state =
      Some (ret, s') /\ bw_ok (B := linux58_bandwidth false) 1%positive demo_children s' /\
    cpu_cfs_period_read_u64 (B := linux58_bandwidth false) s' 2%positive =
      cpu_cfs_period_read_u64 (B := linux58_bandwidth false) demo_state 2%positive /\
    cpu_cfs_quota_read_s64 (B := linux58_bandwidth false) s' 2%positive =
      (if ret =? 0 then 20000 else cpu_cfs_quota_read_s64 (B := linux58_bandwidth false) demo_state 2%positive).
Proof.
  apply (cfs_quota_roundtrip (B := linux58_bandwidth false) demo_tree 1%positive demo_children id id
    (fun b => conj eq_refl eq_refl) (fun c => eq_refl) demo_linked demo_nodup 9 2%positive 20000).
  - apply demo_ok.
  - right. left.
  - exact (le_n 9).
  - lia.
Defined.

(** 18446744073.710552 seconds every 0.1 seconds become 1 millisecond, which is
    permitted. *)
Lemma cpu_max_write_shown_witness :
  permitted (B := linux58_bandwidth false) 1%positive demo_children 2%positive (u64 (100000 * 1000))
    (u64 (18446744073710552 * 1000)) demo_state /\
  exists ret s', cpu_max_write (B := linux58_bandwidth false) demo_tree 1%positive id id 9 2%positive
      (Some (tok_number 18446744073710552, Some 100000)) 25 demo_state = Some (ret, s') /\
    bw_ok (B := linux58_bandwidth false) 1%positive demo_children s' /\ ret = 25 /\
    cpu_max_show (B := linux58_bandwidth false) s' 2%positive = (tok_number 1000, 100000).
Proof.
  assert (permitted (B := linux58_bandwidth false) 1%positive demo_children 2%positive (u64 (100000 * 1000))
    (u64 (18446744073710552 * 1000)) demo_state) as Hper.
  { split; [done|]. split; [|by vm_compute]. split; [by vm_compute|]. right. by vm_compute. }
  split; [exact Hper|].
  destruct (cpu_max_write_shown (B := linux58_bandwidth false) demo_tree 1%positive demo_children id id
    (fun b => conj eq_refl eq_refl) (fun c => eq_refl) demo_linked demo_nodup 9 2%positive 18446744073710552 100000 25 demo_state)
    as (ret & s' & E1 & Hok & [(_ & Hret & _ & Hshow & _)|(Hno & _)] & _); try lia.
  - apply demo_ok.
  - right. left.
  - exact (le_n 9).
  - exists ret, s'. split; [exact E1|]. split; [exact Hok|]. split; [exact Hret|exact Hshow].
  - exfalso. exact (Hno Hper).
Defined.

(** A share of three quarters for group 3, below half of group 2, is not. *)
Example too_large_refused :
  match cpu_max_write (B := linux58_bandwidth false) demo_tree 1%positive id id 9 3%positive
      (Some (tok_number 75000, Some 100000)) 25 demo_state with
  | Some (ret, s') => Some (ret, cpu_max_show (B := linux58_bandwidth false) s' 3%positive)
  | None => None end = Some (- EINVAL, (tok_max, 100000)).
Proof. vm_compute. reflexivity. Qed.

Example wrapped_quota_accepted :
  match cpu_max_write (B := linux58_bandwidth false) demo_tree 1%positive id id 9 2%positive
      (Some (tok_number 18446744073710552, Some 100000)) 25 demo_state with
  | Some (ret, s') => Some (ret, cpu_max_show (B := linux58_bandwidth false) s' 2%positive)
  | None => None end = Some (25, (tok_number 1000, 100000)).
Proof. vm_compute. reflexivity. Qed.
