(* ===== verification/Segments.v ===== *)
(** * Segments: reporting the segments of a process (my_get_segment.c) and the
    sizes the test programs print (test_multi_thread.c, test_single_thread.c)

    The call copies a structure in, fills it from the address space of the task
    the structure names and copies it back.  Buffers are byte lists of their
    declared length, so that [strcpy] can overflow; a NULL dereference is
    [None]. *)

From Stdlib Require Import Strings.Byte Strings.String.
From S2P Require Import Prelude.
Close Scope string_scope.

Definition MAX_BUF_SIZE : Z := 128.

(** [struct Segment] and [struct ProcessSegments]. *)
Record Segment := mk_Segment {
  start_addr : Z;
  end_addr : Z;
  seg_name : list byte
}.
Record ProcessSegments := mk_ProcessSegments {
  ps_pid : Z;
  code_seg : Segment;
  data_seg : Segment;
  heap_seg : Segment;
  stack_seg : Segment
}.

(** The fields of [struct mm_struct] the call reads; [stack_vm] counts pages. *)
Record mm_layout := mk_mm_layout {
  start_code : Z; end_code : Z;
  start_data : Z; end_data : Z;
  start_brk : Z; brk : Z;
  start_stack : Z; stack_vm : Z
}.

(** C strings in a buffer: [strcpy] writes the characters and a zero byte and
    leaves the rest; [None] is a write past the end. *)
Definition strcpy (dst src : list byte) : option (list byte) :=
  if Nat.ltb (length src) (length dst) then Some (src ++ x00 :: drop (S (length src)) dst) else None.
Fixpoint c_string (buf : list byte) : list byte :=
  match buf with
  | [] => []
  | b :: rest => if Byte.eqb b x00 then [] else b :: c_string rest
  end.

(** One segment of the buffer: its addresses and its name. *)
Definition fill_segment (seg : Segment) (first last : Z) (name : list byte) : option Segment :=
  buf ← strcpy (seg_name seg) name;
  Some (mk_Segment first last buf).

Definition name_of (s : string) : list byte := list_byte_of_string s.

Definition fill_segments (ps : ProcessSegments) (mm : mm_layout) : option ProcessSegments :=
  code ← fill_segment (code_seg ps) (start_code mm) (end_code mm) (name_of "code_seg");
  data ← fill_segment (data_seg ps) (start_data mm) (end_data mm) (name_of "data_seg");
  heap ← fill_segment (heap_seg ps) (start_brk mm) (brk mm) (name_of "heap_seg");
  stack ← fill_segment (stack_seg ps) (start_stack mm) (u64 (start_stack mm + stack_vm mm)) (name_of "stack_seg");
  Some (mk_ProcessSegments (ps_pid ps) code data heap stack).

(** What the call is given: how many bytes the two copies leave out, and the task
    table.  A task without an address space is [Some None].  The allocation of
    the buffer succeeds. *)
Record segment_env := mk_segment_env {
  not_copied_in : Z;
  not_copied_out : Z;
  vpid_mm : Z -> option (option mm_layout)
}.

(** The result, what the user's structure holds after a complete copy, and how
    many buffers stay allocated. *)
Record segment_effect := mk_segment_effect {
  sg_ret : Z;
  sg_written : option ProcessSegments;
  sg_held : Z
}.

Definition sys_my_get_segment (env : segment_env) (user_thread_seg : ProcessSegments) : option segment_effect :=
  if nz (not_copied_in env) then Some (mk_segment_effect (not_copied_in env) None 1)
  else match vpid_mm env (ps_pid user_thread_seg) with
  | None => Some (mk_segment_effect 0 None 1)
  | Some None => None
  | Some (Some mm) =>
      ps ← fill_segments user_thread_seg mm;
      let ret := not_copied_out env in
      Some (mk_segment_effect ret (if nz ret then None else Some ps) 1)
  end.

(** ** The test programs

    [_segment_size_in_bytes] is [unsigned long]; it is printed with [%u]. *)
Definition segment_size_in_bytes (segment_start_addr segment_end_addr : Z) : Z :=
  u64 (segment_start_addr - segment_end_addr).
Definition printed_size (segment_start_addr segment_end_addr : Z) : Z :=
  u32 (segment_size_in_bytes segment_start_addr segment_end_addr).

(** ** Facts *)

(** Buffers of their declared length. *)
Definition buffers_ok (ps : ProcessSegments) : Prop :=
  Forall (fun seg => Z.of_nat (length (seg_name seg)) = MAX_BUF_SIZE)
    [code_seg ps; data_seg ps; heap_seg ps; stack_seg ps].

Lemma c_string_strcpy dst src buf :
  Forall (fun b => b <> x00) src -> strcpy dst src = Some buf -> c_string buf = src /\ length buf = length dst.
Proof.
  intros Hs. unfold strcpy. destruct (Nat.ltb _ _) eqn:E; [|done]. apply Nat.ltb_lt in E. intros [= <-]. split.
  - clear E. generalize (drop (S (length src)) dst). intros rest. induction Hs as [|b src Hb Hs IH]; [done|]. cbn [app c_string].
    destruct (Byte.eqb b x00) eqn:E; [|by rewrite IH]. destruct Hb. by apply Byte.byte_dec_bl.
  - rewrite length_app. cbn [length]. rewrite length_drop. lia.
Qed.

Lemma fill_segment_ok seg first last name :
  Z.of_nat (length (seg_name seg)) = MAX_BUF_SIZE -> (length name < 128)%nat -> Forall (fun b => b <> x00) name ->
  exists buf, fill_segment seg first last name = Some (mk_Segment first last buf)
    /\ c_string buf = name /\ Z.of_nat (length buf) = MAX_BUF_SIZE.
Proof.
  intros Hl Hn Hs. unfold MAX_BUF_SIZE in *.
  assert (exists buf, strcpy (seg_name seg) name = Some buf) as [buf Eb].
  { unfold strcpy. rewrite (proj2 (Nat.ltb_lt _ _)) by lia. by eexists. }
  destruct (c_string_strcpy _ _ _ Hs Eb) as [Hc Hlen]. exists buf. unfold fill_segment. rewrite Eb.
  split; [done|]. split; [done|]. lia.
Qed.

(** The segment as the user reads it. *)
Definition seg_view (seg : Segment) : Z * Z * list byte := (start_addr seg, end_addr seg, c_string (seg_name seg)).

(** C39. [my_get_segment] fills the caller's structure: the names fit their
    buffers and can be read back, code, data and heap have the bounds the
    address space records, the pid is kept, the result is 0; the stack's end is
    [stack_vm] bytes past its start although that field counts pages. *)
Theorem my_get_segment_fills env ps mm :
  buffers_ok ps -> not_copied_in env = 0 -> not_copied_out env = 0 ->
  vpid_mm env (ps_pid ps) = Some (Some mm) -> 0 <= start_stack mm -> 0 <= stack_vm mm -> start_stack mm + stack_vm mm < 2 ^ 64 ->
  exists ps', sys_my_get_segment env ps = Some (mk_segment_effect 0 (Some ps') 1)
    /\ buffers_ok ps' /\ ps_pid ps' = ps_pid ps
    /\ seg_view (code_seg ps') = (start_code mm, end_code mm, name_of "code_seg")
    /\ seg_view (data_seg ps') = (start_data mm, end_data mm, name_of "data_seg")
    /\ seg_view (heap_seg ps') = (start_brk mm, brk mm, name_of "heap_seg")
    /\ seg_view (stack_seg ps') = (start_stack mm, start_stack mm + stack_vm mm, name_of "stack_seg").
Proof.
  intros Hb Hi Ho Hp Hs1 Hs2 Hs3. unfold buffers_ok in Hb. rewrite !Forall_cons in Hb. destruct Hb as (B1 & B2 & B3 & B4 & _).
  unfold sys_my_get_segment. rewrite Hi, Ho, Hp. change (nz 0) with false. cbv iota. unfold fill_segments.
  destruct (fill_segment_ok (code_seg ps) (start_code mm) (end_code mm) (name_of "code_seg") B1) as (b1 & -> & C1 & L1);
    [simpl; lia|by repeat constructor|].
  destruct (fill_segment_ok (data_seg ps) (start_data mm) (end_data mm) (name_of "data_seg") B2) as (b2 & -> & C2 & L2);
    [simpl; lia|by repeat constructor|].
  destruct (fill_segment_ok (heap_seg ps) (start_brk mm) (brk mm) (name_of "heap_seg") B3) as (b3 & -> & C3 & L3);
    [simpl; lia|by repeat constructor|].
  destruct (fill_segment_ok (stack_seg ps) (start_stack mm) (u64 (start_stack mm + stack_vm mm)) (name_of "stack_seg") B4)
    as (b4 & -> & C4 & L4); [simpl; lia|by repeat constructor|].
  rewrite wrapu_id by lia. eexists. split; [reflexivity|]. unfold buffers_ok, seg_view. simpl.
  rewrite C1, C2, C3, C4. repeat split; repeat constructor; done.
Qed.

Definition demo_layout : mm_layout :=
  mk_mm_layout 0x565402a42000 0x565402a433a5 0x565402a45d5c 0x565402a46014 0x565402f13000 0x565402f34000
    0x7ffc8c1cb550 0x21.
Definition blank_segment : Segment := mk_Segment 0 0 (replicate 128 xff).
Definition demo_request : ProcessSegments := mk_ProcessSegments 2732 blank_segment blank_segment blank_segment blank_segment.
Definition demo_segment_env : segment_env :=
  mk_segment_env 0 0 (fun pid => if pid =? 2732 then Some (Some demo_layout) else None).

(** The process of hw1/p1/p1_output.txt. *)
Lemma my_get_segment_fills_witness :
  exists ps', sys_my_get_segment demo_segment_env demo_request = Some (mk_segment_effect 0 (Some ps') 1)
    /\ seg_view (stack_seg ps') = (0x7ffc8c1cb550, 0x7ffc8c1cb571, name_of "stack_seg").
Proof.
  destruct (my_get_segment_fills demo_segment_env demo_request demo_layout) as (ps' & E & _ & _ & _ & _ & _ & H);
    try reflexivity; try (vm_compute; congruence); [repeat constructor|]. exists ps'. split; [exact E|exact H].
Defined.

(** Every call that returns keeps its buffer: none of its paths frees it, so a
    history of calls leaves as many buffers as calls; a pid no task has
    returns 0 like a success and writes nothing. *)
Theorem my_get_segment_leaks (calls : list (segment_env * ProcessSegments)) effects :
  mapM (fun c => sys_my_get_segment c.1 c.2) calls = Some effects ->
  Zsum (sg_held <$> effects) = Z.of_nat (length calls)
  /\ forall env ps, (env, ps) ∈ calls -> not_copied_in env = 0 -> vpid_mm env (ps_pid ps) = None ->
       sys_my_get_segment env ps = Some (mk_segment_effect 0 None 1).
Proof.
  intros H. apply mapM_Some_1 in H. split.
  - induction H as [|[env ps] e calls es Hc H IH]; [done|]. rewrite fmap_cons, Zsum_cons, IH. cbn [length].
    assert (sg_held e = 1) as ->; [|lia]. revert Hc. unfold sys_my_get_segment. cbn [fst snd].
    destruct (nz (not_copied_in _)); [by intros [= <-]|].
    destruct (vpid_mm env (ps_pid ps)) as [[mm|]|]; [|done|by intros [= <-]].
    destruct (fill_segments ps mm); [|done]. by intros [= <-].
  - intros env ps Hin Hi Hp. apply list_elem_of_lookup_1 in Hin as [i Hi'].
    destruct (Forall2_lookup_l _ _ _ _ _ H Hi') as (e & _ & He). revert He. unfold sys_my_get_segment. cbn [fst snd].
    by rewrite Hi, Hp.
Qed.

Lemma my_get_segment_leaks_witness :
  exists effects,
    mapM (fun c => sys_my_get_segment c.1 c.2) (replicate 3 (demo_segment_env, demo_request)) = Some effects
    /\ Zsum (sg_held <$> effects) = 3.
Proof.
  destruct (mapM (fun c => sys_my_get_segment c.1 c.2) (replicate 3 (demo_segment_env, demo_request))) as [effects|] eqn:E.
  - exists effects. split; [reflexivity|].
    exact (proj1 (my_get_segment_leaks (replicate 3 (demo_segment_env, demo_request)) effects E)).
  - vm_compute in E. discriminate E.
Defined.

(** The size the test programs print is not the size of the segment: for a
    segment of [n] bytes, [0 < n < 2^32], they print [2^32 - n], because they
    subtract the end from the start and print 32 bits. *)
Theorem printed_size_wrong segment_start segment_end :
  0 < segment_end - segment_start < 2 ^ 32 ->
  printed_size segment_start segment_end = 2 ^ 32 - (segment_end - segment_start)
  /\ (printed_size segment_start segment_end = segment_end - segment_start <-> segment_end - segment_start = 2 ^ 31).
Proof.
  intros H. assert (printed_size segment_start segment_end = 2 ^ 32 - (segment_end - segment_start)) as E.
  { unfold printed_size, segment_size_in_bytes, wrapu. rewrite <- (Z.mod_unique (segment_start - segment_end) (2 ^ 64) (-1)
      (2 ^ 64 - (segment_end - segment_start))) by lia.
    symmetry. apply (Z.mod_unique _ _ (2 ^ 32 - 1)); lia. }
  split; [exact E|]. rewrite E. lia.
Qed.

(** The code segment of hw1/p1/p1_output.txt: 13221 bytes, printed 4294954075. *)
Lemma printed_size_wrong_witness : printed_size 0x3bd4cc000 0x3bd4cf3a5 = 4294954075.
Proof. exact (proj1 (printed_size_wrong 0x3bd4cc000 0x3bd4cf3a5 ltac:(lia))). Defined.
