(* ===== verification/Threads.v ===== *)
(** * The thread examples (hw1/multihread_c_examples)

    Two user programs: main starts children that all run [child], waits for each,
    prints the sum it computed and frees the memory it was handed.  Main and the
    children interleave; the heap, the thread handles and the variables of main
    are modelled, and so are the failures of malloc and pthread_create, which the
    programs do not look at.  Undefined behaviour of C is the outcome [Crash].

    [check_script] is a static check of a main function (each child joined once,
    its result used between the join and the free); [script_sound] shows that a
    main that passes it runs to its end in every interleaving, without a race. *)

From Stdlib Require Import Ascii.
From stdpp Require Import strings pretty.
From S2P Require Import Prelude.

(** ** Memory *)

(** A pointer value; a variable that was never set is [Undef]. *)
Inductive pval := Undef | Null | Ptr (l : positive).
#[global] Instance pval_eq : EqDecision pval.
Proof. solve_decision. Defined.

(** A heap maps the address of each live array of int to its cells; a cell
    without a value is not initialised. *)
Abbreviation heap_t := (gmap positive (list (option Z))).

(** The array [int input[2] = {1, 2}], and where it is. *)
Definition input_loc : positive := 1.
Definition input : list Z := [1; 2].

Definition load (h : heap_t) (p : pval) (i : nat) : option Z :=
  match p with
  | Ptr l => b ← h !! l; mjoin (b !! i)
  | _ => None
  end.

Definition store (h : heap_t) (p : pval) (i : nat) (v : Z) : option heap_t :=
  match p with
  | Ptr l => b ← h !! l; if decide (i < length b)%nat
                         then Some (<[l := <[i := Some v]> b]> h) else None
  | _ => None
  end.

(** [free] of NULL does nothing; the array [input] was not allocated. *)
Definition free (h : heap_t) (p : pval) : option heap_t :=
  match p with
  | Null => Some h
  | Ptr l => if decide (l <> input_loc /\ is_Some (h !! l)) then Some (delete l h) else None
  | Undef => None
  end.

(** Addition of two int values: overflow is undefined. *)
Definition int_add (a b : Z) : option Z :=
  if decide (- 2 ^ 31 <= a + b < 2 ^ 31) then Some (a + b) else None.

(** ** A child *)

(** Where a child is, with its variables [input] and [result]. *)
Inductive child_pc :=
| AtStart (arg : pval)
| AtMalloc (input : pval)
| AtCompute (input result : pval)
| AtExit (result : pval).

(** A thread: running, ended by [pthread_exit] with a value, or joined. *)
Inductive thread := Run (pc : child_pc) | Exited (v : pval) | Joined.

(** The next statement of [child]; [a] is what malloc would return. *)
Definition child (a : pval) (h : heap_t) (pc : child_pc) : option (heap_t * thread) :=
  match pc with
  | AtStart arg => Some (h, Run (AtMalloc arg))
  | AtMalloc input =>
      let h' := match a with Ptr l => <[l := [None]]> h | _ => h end in
      Some (h', Run (AtCompute input a))
  | AtCompute input result =>
      x ← load h input 0;
      y ← load h input 1;
      v ← int_add x y;
      h' ← store h result 0 v;
      Some (h', Run (AtExit result))
  | AtExit result => Some (h, Exited result)
  end.

(** ** Main *)

(** The statements of the two main functions.  [t] stands for the variables t1,
    t2 or t, [r] for result_1, result_2 or result. *)
Inductive instr :=
| PthreadCreate (t : positive)
| PthreadJoin (t : positive)
| TakeResult (r : positive)
| PrintSum (r : positive)
| Free (r : positive)
| Return.

Definition main_example : list instr :=
  [PthreadCreate 1; PthreadCreate 2;
   PthreadJoin 1; TakeResult 1; PrintSum 1; Free 1;
   PthreadJoin 2; TakeResult 2; PrintSum 2; Free 2;
   Return].

Definition main_example_two : list instr :=
  [PthreadCreate 1; PthreadJoin 1; TakeResult 1; PrintSum 1; Free 1; Return].

(** A process: what main has still to do, its variables, the threads it created
    (a thread is named by its place), the heap and what was printed. *)
Record process := Process {
  code : list instr;
  t_var : gmap positive nat;
  ret : pval;
  r_var : gmap positive pval;
  threads : list thread;
  heap : heap_t;
  out : list string }.
#[global] Instance process_eta : EtaRecord process := fun x =>
  Process (code x) (t_var x) (ret x) (r_var x) (threads x) (heap x) (out x).
#[global] Instance upd_code : FieldUpdate code. Proof. field_update code. Defined.
#[global] Instance upd_t_var : FieldUpdate t_var. Proof. field_update t_var. Defined.
#[global] Instance upd_ret : FieldUpdate ret. Proof. field_update ret. Defined.
#[global] Instance upd_r_var : FieldUpdate r_var. Proof. field_update r_var. Defined.
#[global] Instance upd_threads : FieldUpdate threads. Proof. field_update threads. Defined.
#[global] Instance upd_heap : FieldUpdate heap. Proof. field_update heap. Defined.
#[global] Instance upd_out : FieldUpdate out. Proof. field_update out. Defined.

Definition initial (main : list instr) : process :=
  Process main ∅ Undef ∅ [] {[ input_loc := Some <$> input ]} [].

(** [printf("%d + %d = %d\n", a, b, c)] *)
Definition sum_line (a b c : Z) : string :=
  pretty a +:+ " + " +:+ pretty b +:+ " = " +:+ pretty c
  +:+ String (ascii_of_nat 10) EmptyString.

(** The outcome of a step: main waits in [pthread_join], undefined behaviour, or
    another process. *)
Inductive outcome := Blocked | Crash | Next (p : process).

Definition or_crash {A} (o : option A) (k : A -> outcome) : outcome :=
  match o with Some a => k a | None => Crash end.

(** One statement of main; [created] says whether pthread_create works. *)
Definition exec (created : bool) (i : instr) (p : process) : outcome :=
  match i with
  | PthreadCreate t =>
      if created
      then Next (p <| t_var := <[t := length (threads p)]> (t_var p) |>
                   <| threads := threads p ++ [Run (AtStart (Ptr input_loc))] |>)
      else Next p
  | PthreadJoin t =>
      or_crash (t_var p !! t) (fun i =>
      or_crash (threads p !! i) (fun th =>
        match th with
        | Run _ => Blocked
        | Exited v => Next (p <| ret := v |> <| threads := <[i := Joined]> (threads p) |>)
        | Joined => Crash
        end))
  | TakeResult r =>
      if decide (ret p = Undef) then Crash
      else Next (p <| r_var := <[r := ret p]> (r_var p) |>)
  | PrintSum r =>
      or_crash (r_var p !! r) (fun q =>
      or_crash (load (heap p) (Ptr input_loc) 0) (fun a =>
      or_crash (load (heap p) (Ptr input_loc) 1) (fun b =>
      or_crash (load (heap p) q 0) (fun c =>
        Next (p <| out := out p ++ [sum_line a b c] |>)))))
  | Free r =>
      or_crash (r_var p !! r) (fun q =>
      or_crash (free (heap p) q) (fun h => Next (p <| heap := h |>)))
  | Return => Next (p <| code := [] |>)
  end.

Definition main_step (created : bool) (p : process) : outcome :=
  match code p with
  | [] => Blocked
  | i :: k => exec created i (p <| code := k |>)
  end.

Definition child_step (a : pval) (i : nat) (p : process) : outcome :=
  match threads p !! i with
  | Some (Run pc) =>
      or_crash (child a (heap p) pc) (fun '(h, th) =>
        Next (p <| heap := h |> <| threads := <[i := th]> (threads p) |>))
  | _ => Blocked
  end.

(** What the C library may do. *)
Record libc := Libc { malloc_may_fail : bool; create_may_fail : bool }.
Definition reliable : libc := Libc false false.

Definition malloc_returns (L : libc) (h : heap_t) (a : pval) : Prop :=
  match a with
  | Ptr l => h !! l = None
  | Null => malloc_may_fail L = true
  | Undef => False
  end.

(** A step of the process: main or a child executes a statement.  Once main has
    returned there are no threads. *)
Inductive step (L : libc) (p : process) : outcome -> Prop :=
| step_main created o :
    created = true \/ create_may_fail L = true ->
    main_step created p = o -> o <> Blocked -> step L p o
| step_child a i o :
    code p <> [] -> malloc_returns L (heap p) a ->
    child_step a i p = o -> o <> Blocked -> step L p o.

(** Every run from [p] comes to a process in [Q], without a crash on the way. *)
Inductive ends_in (L : libc) (Q : process -> Prop) (p : process) : Prop :=
| ends_now : Q p -> ends_in L Q p
| ends_later : (exists p', step L p (Next p')) -> ~ step L p Crash ->
    (forall p', step L p (Next p') -> ends_in L Q p') -> ends_in L Q p.

Inductive reachable (L : libc) (p : process) : process -> Prop :=
| reach_refl : reachable L p p
| reach_step q r : reachable L p q -> step L q (Next r) -> reachable L p r.

(** ** Races *)

(** The addresses that the next statement reads and writes. *)
Definition addr (p : pval) : list positive := match p with Ptr l => [l] | _ => [] end.

Definition thread_accesses (th : thread) : list positive * list positive :=
  match th with
  | Run (AtCompute input result) => (addr input, addr result)
  | _ => ([], [])
  end.

Definition main_accesses (p : process) : list positive * list positive :=
  match code p with
  | PrintSum r :: _ => (input_loc :: addr (default Undef (r_var p !! r)), [])
  | Free r :: _ => ([], addr (default Undef (r_var p !! r)))
  | _ => ([], [])
  end.

Definition conflict (x y : list positive * list positive) : Prop :=
  exists l, (l ∈ x.2 /\ (l ∈ y.1 \/ l ∈ y.2)) \/ (l ∈ y.2 /\ (l ∈ x.1 \/ l ∈ x.2)).

(** No two threads are about to access a cell that one of them writes. *)
Definition race_free (p : process) : Prop :=
  (forall i th, threads p !! i = Some th -> ~ conflict (main_accesses p) (thread_accesses th)) /\
  (forall i j th th', i <> j -> threads p !! i = Some th -> threads p !! j = Some th' ->
     ~ conflict (thread_accesses th) (thread_accesses th')).

(** ** A static check of main *)

(** What the check knows of a child: it may run, its result is held, or its
    result was freed. *)
Inductive stage := Live | Held | Gone.
#[global] Instance stage_eq : EqDecision stage.
Proof. solve_decision. Defined.

Record view := View {
  handles : gmap positive nat;
  stages : list stage;
  in_ret : option nat;
  results : gmap positive nat }.

Definition check_instr (i : instr) (v : view) : option view :=
  match i with
  | PthreadCreate t =>
      Some (View (<[t := length (stages v)]> (handles v)) (stages v ++ [Live])
                 (in_ret v) (results v))
  | PthreadJoin t =>
      i ← handles v !! t;
      if decide (stages v !! i = Some Live)
      then Some (View (handles v) (<[i := Held]> (stages v)) (Some i) (results v)) else None
  | TakeResult r =>
      i ← in_ret v;
      if decide (stages v !! i = Some Held)
      then Some (View (handles v) (stages v) (in_ret v) (<[r := i]> (results v))) else None
  | PrintSum r =>
      i ← results v !! r;
      if decide (stages v !! i = Some Held) then Some v else None
  | Free r =>
      i ← results v !! r;
      if decide (stages v !! i = Some Held)
      then Some (View (handles v) (<[i := Gone]> (stages v)) (in_ret v) (results v)) else None
  | Return => None
  end.

(** Main returns last, and with every child joined and every result freed. *)
Fixpoint check_code (k : list instr) (v : view) : bool :=
  match k with
  | [] => false
  | [Return] => forallb (fun s => bool_decide (s = Gone)) (stages v)
  | i :: k => match check_instr i v with Some v' => check_code k v' | None => false end
  end.

Definition check_script (main : list instr) : bool := check_code main (View ∅ [] None ∅).

(** How often main prints. *)
Fixpoint prints (k : list instr) : nat :=
  match k with
  | [] => 0
  | PrintSum _ :: k => S (prints k)
  | _ :: k => prints k
  end.

Definition the_line : string := sum_line 1 2 3.

(** How a process should end: main has returned, each print wrote the sum, each
    child was joined, and the heap is as it was. *)
Definition ended_well (main : list instr) (p : process) : Prop :=
  code p = [] /\ out p = replicate (prints main) the_line /\
  Forall (fun th => th = Joined) (threads p) /\ heap p = heap (initial main).

(** ** The invariant *)

Section Invariant.
Context (main : list instr).

Definition the_input : list (option Z) := Some <$> input.

(** A child with what the check knows of it and the block it owns. *)
Definition thread_ok (h : heap_t) (th : thread) (s : stage) (b : option positive) : Prop :=
  match th, s, b with
  | Run (AtStart a), Live, None => a = Ptr input_loc
  | Run (AtMalloc a), Live, None => a = Ptr input_loc
  | Run (AtCompute a r), Live, Some l =>
      a = Ptr input_loc /\ r = Ptr l /\ h !! l = Some [None]
  | Run (AtExit r), Live, Some l => r = Ptr l /\ h !! l = Some [Some 3]
  | Exited r, Live, Some l => r = Ptr l /\ h !! l = Some [Some 3]
  | Joined, Held, Some l => h !! l = Some [Some 3]
  | Joined, Gone, None => True
  | _, _, _ => False
  end.

(** A variable of main that, as the check knows, has the result of child [i]. *)
Definition holds (v : view) (bs : list (option positive)) (i : nat) (q : pval) : Prop :=
  (exists s, stages v !! i = Some s /\ s <> Live) /\
  (stages v !! i = Some Held -> exists l, bs !! i = Some (Some l) /\ q = Ptr l).

Record heap_inv (h : heap_t) (bs : list (option positive)) : Prop := {
  hi_input : h !! input_loc = Some the_input;
  hi_apart : forall i, bs !! i <> Some (Some input_loc);
  hi_inj : forall i j l, bs !! i = Some (Some l) -> bs !! j = Some (Some l) -> i = j;
  hi_live : forall i l, bs !! i = Some (Some l) -> is_Some (h !! l);
  hi_owned : forall l, is_Some (h !! l) -> l = input_loc \/ exists i, bs !! i = Some (Some l) }.

Record inv (v : view) (bs : list (option positive)) (p : process) : Prop := {
  inv_stages : length (stages v) = length (threads p);
  inv_blocks : length bs = length (threads p);
  inv_heap : heap_inv (heap p) bs;
  inv_threads : forall i th s b, threads p !! i = Some th -> stages v !! i = Some s ->
    bs !! i = Some b -> thread_ok (heap p) th s b;
  inv_handles : t_var p = handles v;
  inv_ret : forall i, in_ret v = Some i -> holds v bs i (ret p);
  inv_results : forall r i, results v !! r = Some i ->
    exists q, r_var p !! r = Some q /\ holds v bs i q;
  inv_out : out p ++ replicate (prints (code p)) the_line = replicate (prints main) the_line }.

Definition good (p : process) : Prop :=
  ended_well main p \/
  exists v bs, check_code (code p) v = true /\ inv v bs p.
End Invariant.

(** ** The heap *)

Lemma heap_inv_alloc h bs i l : heap_inv h bs -> bs !! i = Some None -> h !! l = None ->
  heap_inv (<[l := [None]]> h) (<[i := Some l]> bs).
Proof.
  intros I Ei El.
  assert (Hl : l <> input_loc) by (intros ->; rewrite (hi_input _ _ I) in El; done).
  assert (Hn : forall j, bs !! j <> Some (Some l)).
  { intros j Ej. destruct (hi_live _ _ I _ _ Ej). simplify_eq. }
  assert (L : (i < length bs)%nat) by (by eapply lookup_lt_Some).
  split.
  - rewrite lookup_insert_ne by done. apply I.
  - intros j. destruct (decide (j = i)) as [->|]; [rewrite list_lookup_insert_eq by done; congruence|].
    rewrite list_lookup_insert_ne by done. apply I.
  - intros j k l' Ej Ek.
    rewrite list_lookup_insert_Some in Ej, Ek.
    destruct Ej as [[? [[= <-] ?]]|[? Ej]], Ek as [[? [[= ] ?]]|[? Ek]]; subst; try done;
      try by (exfalso; eapply Hn).
    by eapply I.
  - intros j l' Ej. apply list_lookup_insert_Some in Ej as [[-> [[= <-] ?]]|[? Ej]].
    + rewrite lookup_insert_eq. eauto.
    + rewrite lookup_insert_is_Some'. right. by eapply hi_live.
  - intros l' [? [[<- ?]|[? E']]%lookup_insert_Some].
    + right. exists i. by rewrite list_lookup_insert_eq.
    + destruct (hi_owned _ _ I l') as [|[j Ej]]; [eauto|by left|right].
      exists j. rewrite list_lookup_insert_ne; [done|]. intros <-. congruence.
Qed.

Lemma heap_inv_store h bs i l b : heap_inv h bs -> bs !! i = Some (Some l) ->
  heap_inv (<[l := b]> h) bs.
Proof.
  intros I Ei. split; try apply I.
  - rewrite lookup_insert_ne; [apply I|]. intros ->. by eapply hi_apart.
  - intros j l' Ej. rewrite lookup_insert_is_Some'. right. by eapply hi_live.
  - intros l' [? [[<- ?]|[? E']]%lookup_insert_Some]; [eauto|]. eapply hi_owned; eauto.
Qed.

Lemma heap_inv_free h bs i l : heap_inv h bs -> bs !! i = Some (Some l) ->
  heap_inv (delete l h) (<[i := None]> bs).
Proof.
  intros I Ei.
  assert (L : (i < length bs)%nat) by (by eapply lookup_lt_Some).
  assert (Old : forall j l', <[i := None]> bs !! j = Some (Some l') ->
    j <> i /\ l' <> l /\ bs !! j = Some (Some l')).
  { intros j l' [[-> [[=] ?]]|[? Ej]]%list_lookup_insert_Some. repeat split; [done| |done].
    intros ->. assert (i = j) by by eapply I. done. }
  split.
  - rewrite lookup_delete_ne; [apply I|]. intros ->. by eapply hi_apart.
  - intros j (_ & _ & Ej)%Old. by eapply hi_apart.
  - intros j k l' (_ & _ & Ej)%Old (_ & _ & Ek)%Old. by eapply I.
  - intros j l' (_ & ? & Ej)%Old. rewrite lookup_delete_ne by done. by eapply hi_live.
  - intros l' [? [? E']%lookup_delete_Some].
    destruct (hi_owned _ _ I l') as [|[j Ej]]; [eauto|by left|right].
    exists j. rewrite list_lookup_insert_ne; [done|]. intros <-. congruence.
Qed.

Lemma heap_inv_create h bs : heap_inv h bs -> heap_inv h (bs ++ [None]).
Proof.
  intros I.
  assert (Old : forall j l, (bs ++ [None]) !! j = Some (Some l) -> bs !! j = Some (Some l)).
  { intros j l [|[_ E]]%lookup_app_Some; [done|]. by apply list_lookup_singleton_Some in E as []. }
  split.
  - apply I.
  - intros j Ej. eapply hi_apart; eauto.
  - intros. eapply (hi_inj _ _ I); eauto.
  - intros. eapply (hi_live _ _ I); eauto.
  - intros l Hl. destruct (hi_owned _ _ I l Hl) as [|[j Ej]]; [by left|right].
    exists j. by apply lookup_app_l_Some.
Qed.

(** With all results freed the heap has only the input. *)
Lemma heap_inv_end h bs : heap_inv h bs -> (forall i l, bs !! i <> Some (Some l)) ->
  h = {[ input_loc := the_input ]}.
Proof.
  intros I N. apply map_eq. intros l.
  destruct (decide (l = input_loc)) as [->|Hl].
  - rewrite lookup_singleton_eq. apply I.
  - rewrite lookup_singleton_ne by done. apply eq_None_not_Some. intros Hs.
    destruct (hi_owned _ _ I l Hs) as [|[i Ei]]; [done|]. by eapply N.
Qed.

(** ** A step of a child *)

(** [thread_ok] looks at no other cell than the child's own. *)
Lemma thread_ok_frame h h' th s b :
  (forall l, b = Some l -> h' !! l = h !! l) -> thread_ok h th s b -> thread_ok h' th s b.
Proof. intros E'. destruct th as [[]| |], s, b; simpl; try done; by rewrite E'. Qed.

Lemma holds_other v bs i j b q : holds v bs i q -> stages v !! j <> Some Held ->
  holds v (<[j := b]> bs) i q.
Proof.
  intros [S H] N. split; [done|]. intros Hs. destruct (H Hs) as (l & ? & ?).
  exists l. rewrite list_lookup_insert_ne; [done|]. congruence.
Qed.

(** What a child finds when it runs. *)
Lemma inv_running main v bs p i pc : inv main v bs p -> threads p !! i = Some (Run pc) ->
  stages v !! i = Some Live /\
  exists b, bs !! i = Some b /\ thread_ok (heap p) (Run pc) Live b.
Proof.
  intros I Ei.
  assert (Hi : (i < length (threads p))%nat) by (by eapply lookup_lt_Some).
  destruct (lookup_lt_is_Some_2 (stages v) i) as [s Es]; [by rewrite (inv_stages _ _ _ _ I)|].
  destruct (lookup_lt_is_Some_2 bs i) as [b Eb]; [by rewrite (inv_blocks _ _ _ _ I)|].
  assert (T' := inv_threads _ _ _ _ I _ _ _ _ Ei Es Eb).
  assert (s = Live) as -> by (by destruct pc, s). eauto.
Qed.

(** A child that keeps its stage: the invariant needs the new heap, the new
    thread, and that the blocks of the others are as they were. *)
Lemma inv_child main v bs p i pc h th b :
  inv main v bs p -> threads p !! i = Some (Run pc) ->
  heap_inv h (<[i := b]> bs) -> thread_ok h th Live b ->
  (forall j l, j <> i -> bs !! j = Some (Some l) -> h !! l = heap p !! l) ->
  inv main v (<[i := b]> bs) (p <| heap := h |> <| threads := <[i := th]> (threads p) |>).
Proof.
  intros I Ei Hh Ht Hf.
  assert (Hi : (i < length (threads p))%nat) by (by eapply lookup_lt_Some).
  assert (Hs : stages v !! i = Some Live).
  { by eapply inv_running. }
  split; rsimpl; rewrite ?length_insert; try apply I; try done.
  - intros j th' s' b' Ej Es Eb. destruct (decide (j = i)) as [->|N].
    + rewrite list_lookup_insert_eq in Ej by done.
      rewrite list_lookup_insert_eq in Eb by (by rewrite (inv_blocks _ _ _ _ I)).
      by simplify_eq.
    + rewrite list_lookup_insert_ne in Ej by done. rewrite list_lookup_insert_ne in Eb by done.
      eapply thread_ok_frame; [|by eapply (inv_threads _ _ _ _ I)].
      intros l ->. by eapply Hf.
  - intros j Ej. apply holds_other; [by apply (inv_ret _ _ _ _ I)|congruence].
  - intros r j Er. destruct (inv_results _ _ _ _ I _ _ Er) as (q & ? & ?).
    exists q. split; [done|]. apply holds_other; [done|congruence].
Qed.

Lemma child_step_inv main v bs p i a o :
  inv main v bs p -> malloc_returns reliable (heap p) a -> child_step a i p = o ->
  o <> Blocked ->
  exists p' bs', o = Next p' /\ inv main v bs' p' /\ code p' = code p.
Proof.
  intros I Ha Es Ho. unfold child_step in Es.
  destruct (threads p !! i) as [[pc| |]|] eqn:Ei; try by subst o.
  destruct (inv_running _ _ _ _ _ _ I Ei) as (Hs & b & Eb & Hb).
  assert (Hself : <[i := b]> bs = bs) by (by apply list_insert_id).
  destruct pc as [arg|inp|inp r|r]; simpl in Es.
  - destruct b; [done|]. subst o. do 2 eexists. split; [done|]. split; [|done].
    eapply (inv_child _ _ _ _ _ _ _ _ None); rewrite ?Hself; eauto using inv_heap.
  - destruct b; [done|]. destruct a as [| |l]; try done. subst o.
    do 2 eexists. split; [done|]. split; [|done].
    eapply (inv_child _ _ _ _ _ _ _ _ (Some l)); eauto.
    + by apply heap_inv_alloc; [eapply inv_heap| |].
    + cbn. by rewrite lookup_insert_eq.
    + intros j l' N Ej. apply lookup_insert_ne. intros <-.
      destruct (hi_live _ _ (inv_heap _ _ _ _ I) _ _ Ej). simplify_eq/=.
  - destruct b as [l|]; [|done]. destruct Hb as (-> & -> & El). simpl in Es.
    rewrite (hi_input _ _ (inv_heap _ _ _ _ I)), El in Es. cbn in Es. subst o.
    do 2 eexists. split; [done|]. split; [|done].
    eapply (inv_child _ _ _ _ _ _ _ _ (Some l)); rewrite ?Hself; eauto.
    + by eapply heap_inv_store; [eapply inv_heap|].
    + cbn. by rewrite lookup_insert_eq.
    + intros j l' N Ej. apply lookup_insert_ne. intros <-. apply N.
      by eapply (hi_inj _ _ (inv_heap _ _ _ _ I)).
  - destruct b as [l|]; [|done]. subst o. do 2 eexists. split; [done|]. split; [|done].
    eapply (inv_child _ _ _ _ _ _ _ _ (Some l)); rewrite ?Hself; eauto using inv_heap.
Qed.

(** ** A step of main *)

(** The child behind a result that the check lets main use. *)
Lemma inv_held main v bs p i q : inv main v bs p -> stages v !! i = Some Held ->
  holds v bs i q ->
  exists l, q = Ptr l /\ bs !! i = Some (Some l) /\ heap p !! l = Some [Some 3] /\
    threads p !! i = Some Joined.
Proof.
  intros I Es [_ H]. destruct (H Es) as (l & Eb & ->). exists l.
  assert (Hi : (i < length (stages v))%nat) by (by eapply lookup_lt_Some).
  destruct (lookup_lt_is_Some_2 (threads p) i) as [th Et]; [by rewrite <- (inv_stages _ _ _ _ I)|].
  assert (T' := inv_threads _ _ _ _ I _ _ _ _ Et Es Eb). by destruct th as [[]| |].
Qed.

Lemma inv_create main v bs p t k : inv main v bs p -> code p = PthreadCreate t :: k ->
  inv main (View (<[t := length (stages v)]> (handles v)) (stages v ++ [Live])
              (in_ret v) (results v)) (bs ++ [None])
    (p <| code := k |> <| t_var := <[t := length (threads p)]> (t_var p) |>
       <| threads := threads p ++ [Run (AtStart (Ptr input_loc))] |>).
Proof.
  intros I Ec.
  assert (Hh : forall i q, holds v bs i q ->
    holds (View (<[t := length (stages v)]> (handles v)) (stages v ++ [Live])
             (in_ret v) (results v)) (bs ++ [None]) i q).
  { intros i q [(s & Es & Hs) H]. split; cbn; rewrite (lookup_app_l_Some _ _ _ _ Es); [eauto|].
    intros [= ->]. destruct (H Es) as (l & Eb & ->). exists l. by rewrite (lookup_app_l_Some _ _ _ _ Eb). }
  split; rsimpl; cbn [stages handles in_ret results]; rewrite ?length_app.
  - by rewrite (inv_stages _ _ _ _ I).
  - by rewrite (inv_blocks _ _ _ _ I).
  - apply heap_inv_create, I.
  - intros i th s b Et Es Eb. destruct (decide (i < length (threads p))%nat).
    + rewrite lookup_app_l in Et by done.
      rewrite lookup_app_l in Es by (by rewrite (inv_stages _ _ _ _ I)).
      rewrite lookup_app_l in Eb by (by rewrite (inv_blocks _ _ _ _ I)).
      by eapply (inv_threads _ _ _ _ I).
    + rewrite lookup_app_r in Et by lia.
      rewrite lookup_app_r in Es by (rewrite (inv_stages _ _ _ _ I); lia).
      rewrite lookup_app_r in Eb by (rewrite (inv_blocks _ _ _ _ I); lia).
      apply list_lookup_singleton_Some in Et as [_ <-], Es as [_ <-], Eb as [_ <-]. done.
  - by rewrite (inv_handles _ _ _ _ I), (inv_stages _ _ _ _ I).
  - intros i Ei. by apply Hh, (inv_ret _ _ _ _ I).
  - intros r i Er. destruct (inv_results _ _ _ _ I _ _ Er) as (q & ? & ?). eauto.
  - rewrite <- (inv_out _ _ _ _ I), Ec. done.
Qed.

(** What main holds of a child survives a change of another child's stage, and
    of its own to [Gone]. *)
Lemma holds_restage v bs bs' i j s q hs rt rs :
  holds v bs j q -> (j = i -> s = Gone) -> (forall k, k <> i -> bs' !! k = bs !! k) ->
  holds (View hs (<[i := s]> (stages v)) rt rs) bs' j q.
Proof.
  intros [(s0 & Es & Hn) H] Hg Hb. split; cbn; destruct (decide (j = i)) as [->|N].
  - exists s. rewrite list_lookup_insert_eq by (by eapply lookup_lt_Some). by rewrite Hg.
  - rewrite list_lookup_insert_ne by done. eauto.
  - rewrite list_lookup_insert_eq by (by eapply lookup_lt_Some). by rewrite Hg.
  - rewrite list_lookup_insert_ne, Hb by done. apply H.
Qed.

Lemma inv_join main v bs p t k i q : inv main v bs p -> code p = PthreadJoin t :: k ->
  stages v !! i = Some Live -> threads p !! i = Some (Exited q) ->
  inv main (View (handles v) (<[i := Held]> (stages v)) (Some i) (results v)) bs
    (p <| code := k |> <| ret := q |> <| threads := <[i := Joined]> (threads p) |>).
Proof.
  intros I Ec Es Et.
  assert (Hs : (i < length (stages v))%nat) by (by eapply lookup_lt_Some).
  assert (Ht : (i < length (threads p))%nat) by (by eapply lookup_lt_Some).
  destruct (lookup_lt_is_Some_2 bs i) as [b Eb]; [by rewrite (inv_blocks _ _ _ _ I)|].
  assert (T' := inv_threads _ _ _ _ I _ _ _ _ Et Es Eb).
  destruct b as [l|]; [|done]. destruct T' as [-> El].
  split; rsimpl; cbn [stages handles in_ret results]; rewrite ?length_insert; try apply I.
  - intros j th s b Ej Ejs Ejb. destruct (decide (j = i)) as [->|N].
    + rewrite list_lookup_insert_eq in Ej by done. rewrite list_lookup_insert_eq in Ejs by done.
      by simplify_eq.
    + rewrite list_lookup_insert_ne in Ej by done. rewrite list_lookup_insert_ne in Ejs by done.
      by eapply (inv_threads _ _ _ _ I).
  - intros j [= <-]. split; cbn; [|eauto]. exists Held. by rewrite list_lookup_insert_eq.
  - intros r j Er. destruct (inv_results _ _ _ _ I _ _ Er) as (q & ? & Hh).
    exists q. split; [done|]. eapply holds_restage; [done| |done].
    intros ->. destruct Hh as [(s & ? & ?) _]. congruence.
  - rewrite <- (inv_out _ _ _ _ I), Ec. done.
Qed.

Lemma inv_free main v bs p r k i l : inv main v bs p -> code p = Free r :: k ->
  stages v !! i = Some Held -> bs !! i = Some (Some l) -> threads p !! i = Some Joined ->
  inv main (View (handles v) (<[i := Gone]> (stages v)) (in_ret v) (results v))
    (<[i := None]> bs) (p <| code := k |> <| heap := delete l (heap p) |>).
Proof.
  intros I Ec Es Eb Et.
  assert (Hs : (i < length (stages v))%nat) by (by eapply lookup_lt_Some).
  assert (Hb : forall k, k <> i -> <[i := None]> bs !! k = bs !! k).
  { intros. by rewrite list_lookup_insert_ne. }
  split; rsimpl; cbn [stages handles in_ret results]; rewrite ?length_insert; try apply I.
  - eapply heap_inv_free; [apply I|done].
  - intros j th s b Ej Ejs Ejb. destruct (decide (j = i)) as [->|N].
    + rewrite list_lookup_insert_eq in Ejs by done.
      rewrite list_lookup_insert_eq in Ejb by (by eapply lookup_lt_Some). by simplify_eq.
    + rewrite list_lookup_insert_ne in Ejs by done. rewrite Hb in Ejb by done.
      eapply thread_ok_frame; [|by eapply (inv_threads _ _ _ _ I)].
      intros l' ->. apply lookup_delete_ne. intros <-. apply N.
      by eapply (hi_inj _ _ (inv_heap _ _ _ _ I)).
  - intros j Ej. eapply holds_restage; [by apply (inv_ret _ _ _ _ I)|done|done].
  - intros r' j Er. destruct (inv_results _ _ _ _ I _ _ Er) as (q & ? & ?).
    exists q. split; [done|]. by eapply holds_restage.
  - rewrite <- (inv_out _ _ _ _ I), Ec. done.
Qed.

Lemma inv_take main v bs p r k i : inv main v bs p -> code p = TakeResult r :: k ->
  in_ret v = Some i ->
  inv main (View (handles v) (stages v) (in_ret v) (<[r := i]> (results v))) bs
    (p <| code := k |> <| r_var := <[r := ret p]> (r_var p) |>).
Proof.
  intros I Ec Ei. split; rsimpl; cbn [stages handles in_ret results]; try apply I.
  - intros r' j [[<- <-]|[N Er]]%lookup_insert_Some.
    + exists (ret p). rewrite lookup_insert_eq. split; [done|]. by apply (inv_ret _ _ _ _ I).
    + rewrite lookup_insert_ne by done. by apply (inv_results _ _ _ _ I).
  - rewrite <- (inv_out _ _ _ _ I), Ec. done.
Qed.

Lemma inv_print main v bs p r k : inv main v bs p -> code p = PrintSum r :: k ->
  inv main v bs (p <| code := k |> <| out := out p ++ [the_line] |>).
Proof.
  intros I Ec. split; rsimpl; try apply I.
  rewrite <- (inv_out _ _ _ _ I), Ec, <- app_assoc. done.
Qed.

Lemma check_cons i k v : check_code (i :: k) v = true ->
  (i = Return /\ k = [] /\ Forall (fun s => s = Gone) (stages v)) \/
  exists v', check_instr i v = Some v' /\ check_code k v' = true.
Proof.
  intros H. cbn in H.
  destruct i; try (right; destruct (check_instr _ v) as [v'|] eqn:E'; [eauto|done]).
  destruct k; [left|done]. repeat split. apply Forall_forall. intros s Hs%list_elem_of_In.
  rewrite forallb_forall in H. specialize (H _ Hs). by apply bool_decide_eq_true_1 in H.
Qed.

(** When main returns, all is as it should be. *)
Lemma inv_return main v bs p : inv main v bs p -> code p = [Return] ->
  Forall (fun s => s = Gone) (stages v) -> ended_well main (p <| code := [] |> <| code := [] |>).
Proof.
  intros I Ec Hg.
  assert (Hall : forall i th, threads p !! i = Some th -> th = Joined /\ bs !! i = Some None).
  { intros i th Et. assert (Hi : (i < length (threads p))%nat) by (by eapply lookup_lt_Some).
    destruct (lookup_lt_is_Some_2 (stages v) i) as [s Es]; [by rewrite (inv_stages _ _ _ _ I)|].
    destruct (lookup_lt_is_Some_2 bs i) as [b Eb]; [by rewrite (inv_blocks _ _ _ _ I)|].
    assert (T' := inv_threads _ _ _ _ I _ _ _ _ Et Es Eb).
    rewrite Forall_lookup in Hg. rewrite (Hg _ _ Es) in T'.
    destruct th as [[]| |], b; try done. }
  split; [done|]. rsimpl. split; [|split].
  - rewrite <- (inv_out _ _ _ _ I), Ec. cbn. by rewrite app_nil_r.
  - apply Forall_lookup. intros i th Et. by destruct (Hall _ _ Et).
  - eapply heap_inv_end; [apply I|]. intros i l Eb.
    assert (Hi : (i < length (threads p))%nat)
      by (rewrite <- (inv_blocks _ _ _ _ I); by eapply lookup_lt_Some).
    apply lookup_lt_is_Some_2 in Hi as [th Et]. destruct (Hall _ _ Et). congruence.
Qed.

(** The read of a result that the check allows. *)
Lemma inv_result main v bs p r i : inv main v bs p -> results v !! r = Some i ->
  stages v !! i = Some Held ->
  exists l, r_var p !! r = Some (Ptr l) /\ bs !! i = Some (Some l) /\
    heap p !! l = Some [Some 3] /\ threads p !! i = Some Joined.
Proof.
  intros I Er Es. destruct (inv_results _ _ _ _ I _ _ Er) as (q & Eq & Hq).
  destruct (inv_held _ _ _ _ _ _ I Es Hq) as (l & -> & ?). eauto.
Qed.

Lemma main_step_good main v bs p :
  check_code (code p) v = true -> inv main v bs p ->
  (main_step true p = Blocked /\ exists i pc, threads p !! i = Some (Run pc)) \/
  exists p', main_step true p = Next p' /\ good main p'.
Proof.
  intros Hc I. unfold main_step. destruct (code p) as [|ins k] eqn:Ec; [by cbn in Hc|].
  apply check_cons in Hc as [(-> & -> & Hg)|(v' & Ev & Hk)].
  { right. eexists. split; [done|]. left. by eapply inv_return. }
  destruct ins as [t|t|r|r|r|]; cbn in Ev |- *.
  - simplify_eq. rsimpl. right. eexists. split; [done|]. right. do 2 eexists. split; [done|].
    by apply inv_create.
  - destruct (handles v !! t) as [i|] eqn:Eh; [|done]. cbn in Ev. case_decide as Hs; [|done].
    simplify_eq/=. rsimpl. rewrite (inv_handles _ _ _ _ I), Eh. cbn.
    assert (Hi : (i < length (stages v))%nat) by (by eapply lookup_lt_Some).
    destruct (lookup_lt_is_Some_2 (threads p) i) as [th Et]; [by rewrite <- (inv_stages _ _ _ _ I)|].
    destruct (lookup_lt_is_Some_2 bs i) as [b Eb];
      [by rewrite (inv_blocks _ _ _ _ I), <- (inv_stages _ _ _ _ I)|].
    assert (T' := inv_threads _ _ _ _ I _ _ _ _ Et Hs Eb). rewrite Et. cbn.
    destruct th as [pc|q|]; [left; eauto|right|by destruct b].
    eexists. split; [done|]. right. do 2 eexists. split; [done|]. by eapply inv_join.
  - destruct (in_ret v) as [i|] eqn:Ei; [|done]. cbn in Ev. case_decide as Hs; [|done].
    simplify_eq/=. rsimpl. assert (Hh := inv_ret _ _ _ _ I _ Ei).
    destruct (inv_held _ _ _ _ _ _ I Hs Hh) as (l & Eq & _). rewrite Eq.
    case_decide; [done|]. right. eexists. split; [done|].
    right. do 2 eexists. split; [done|]. rewrite <- Eq, <- Ei. by apply inv_take.
  - destruct (results v !! r) as [i|] eqn:Er; [|done]. cbn in Ev. case_decide as Hs; [|done].
    simplify_eq/=. rsimpl. destruct (inv_result _ _ _ _ _ _ I Er Hs) as (l & Eq & _ & El & _).
    rewrite Eq. cbn. rewrite (hi_input _ _ (inv_heap _ _ _ _ I)), El.
    right. eexists. split; [reflexivity|]. right. do 2 eexists. split; [done|]. by eapply inv_print.
  - destruct (results v !! r) as [i|] eqn:Er; [|done]. cbn in Ev. case_decide as Hs; [|done].
    simplify_eq/=. rsimpl. destruct (inv_result _ _ _ _ _ _ I Er Hs) as (l & Eq & Eb & El & Et).
    rewrite Eq. cbn. rewrite decide_True.
    2:{ rewrite El. split; [|eauto]. intros ->. by eapply (hi_apart _ _ (inv_heap _ _ _ _ I)). }
    right. eexists. split; [done|]. right. do 2 eexists. split; [done|]. by eapply inv_free.
  - done.
Qed.

(** ** Every run ends *)

Definition weight (i : instr) : nat := match i with PthreadCreate _ => 5 | _ => 1 end.

Definition remaining (th : thread) : nat :=
  match th with
  | Run (AtStart _) => 4
  | Run (AtMalloc _) => 3
  | Run (AtCompute _ _) => 2
  | Run (AtExit _) => 1
  | Exited _ | Joined => 0
  end.

(** At most so many statements will still be executed. *)
Definition steps_left (p : process) : nat :=
  sum_list_with weight (code p) + sum_list_with remaining (threads p).

Lemma sum_list_insert {A} (f : A -> nat) (l : list A) i x y : l !! i = Some x ->
  (sum_list_with f (<[i := y]> l) + f x = sum_list_with f l + f y)%nat.
Proof.
  revert i. induction l as [|z l IH]; intros [|i] H; simplify_eq/=; [lia|].
  specialize (IH _ H). lia.
Qed.

Lemma or_crash_next {A} (o : option A) k p : or_crash o k = Next p ->
  exists a, o = Some a /\ k a = Next p.
Proof. destruct o; [eauto|done]. Qed.

Lemma exec_decreases created i p p' : exec created i p = Next p' ->
  (steps_left p' < weight i + steps_left p)%nat.
Proof.
  unfold steps_left. destruct i as [t|t|r|r|r|]; cbn [exec weight]; intros H;
    repeat (apply or_crash_next in H as (? & ? & H)).
  - destruct created; simplify_eq; rsimpl; [|lia]. rewrite sum_list_with_app. cbn. lia.
  - match goal with Et : threads p !! _ = Some ?th |- _ =>
      destruct th; simplify_eq; rsimpl; assert (S' := sum_list_insert remaining _ _ _ Joined Et)
    end. cbn in S'. lia.
  - case_decide; simplify_eq. rsimpl. lia.
  - simplify_eq. rsimpl. lia.
  - simplify_eq. rsimpl. lia.
  - simplify_eq. rsimpl. cbn. lia.
Qed.

Lemma child_remaining a h pc h' th : child a h pc = Some (h', th) ->
  (remaining th < remaining (Run pc))%nat.
Proof.
  destruct pc as [?|?|i r|?]; cbn; intros H; simplify_eq; cbn; try lia.
  repeat (match type of H with (?o ≫= _) = _ => destruct o; cbn in H; [|done] end).
  simplify_eq. cbn. lia.
Qed.

(** Whatever malloc and pthread_create do, each step leaves fewer. *)
Lemma step_decreases L p p' : step L p (Next p') -> (steps_left p' < steps_left p)%nat.
Proof.
  inversion 1 as [c o _ E1 _|a i o _ _ E1 _]; subst o.
  - unfold main_step in E1. destruct (code p) as [|ins k] eqn:Ec; [done|].
    apply exec_decreases in E1. unfold steps_left in *. rewrite Ec. rsimpl_in E1. cbn. lia.
  - unfold child_step in E1. destruct (threads p !! i) as [[pc| |]|] eqn:Et; try done.
    destruct (child a (heap p) pc) as [[h th]|] eqn:Eh; [|done]. cbn in E1. simplify_eq.
    apply child_remaining in Eh. unfold steps_left. rsimpl.
    assert (S' := sum_list_insert remaining _ _ _ th Et). lia.
Qed.

(** ** Soundness of the check *)

Lemma good_initial main : check_script main = true -> good main (initial main).
Proof.
  intros H. right. exists (View ∅ [] None ∅), []. split; [done|].
  split; cbn; try done.
  split; try done.
  intros l [? [<- ?]%lookup_singleton_Some]. by left.
Qed.

Lemma good_step main p o : good main p -> code p <> [] -> step reliable p o ->
  exists p', o = Next p' /\ good main p'.
Proof.
  intros [[? _]|(v & bs & Hc & I)] Hn Hs; [done|]. destruct Hs as [c o Hcr Hm Ho|a i o _ Ha Hm Ho].
  - destruct Hcr as [->|]; [|done].
    destruct (main_step_good _ _ _ _ Hc I) as [[? _]|(p' & E' & Hg)]; [congruence|].
    exists p'. split; [congruence|done].
  - destruct (child_step_inv _ _ _ _ _ _ _ I Ha Hm Ho) as (p' & bs' & -> & I' & Ec).
    exists p'. split; [done|]. right. exists v, bs'. by rewrite Ec.
Qed.

(** A running child can go on: there is always a free address. *)
Lemma running_steps main v bs p i pc : inv main v bs p -> code p <> [] ->
  threads p !! i = Some (Run pc) -> exists p', step reliable p (Next p').
Proof.
  intros I Hn Ei.
  assert (Ha : malloc_returns reliable (heap p) (Ptr (fresh (dom (heap p))))).
  { cbn. apply not_elem_of_dom, is_fresh. }
  destruct (child_step (Ptr (fresh (dom (heap p)))) i p) as [| |p'] eqn:Es.
  - unfold child_step in Es. rewrite Ei in Es. by destruct (child _ _ pc) as [[]|].
  - by destruct (child_step_inv _ _ _ _ _ _ _ I Ha Es) as (? & ? & ? & _).
  - exists p'. by eapply step_child.
Qed.

Lemma good_progress main p : good main p ->
  ended_well main p \/ code p <> [] /\ exists p', step reliable p (Next p').
Proof.
  intros [He|(v & bs & Hc & I)]; [by left|right].
  assert (Hn : code p <> []) by (intros E'; by rewrite E' in Hc). split; [done|].
  destruct (main_step_good _ _ _ _ Hc I) as [(_ & i & pc & Ei)|(p' & E' & _)].
  - by eapply running_steps.
  - exists p'. apply (step_main _ _ true); [by left|exact E'|done].
Qed.

(** A cell that the next statement touches: the input, which is read, or the
    block of child [i] at the stage [s]. *)
Definition owned_by (v : view) (bs : list (option positive)) (i : nat) (s : stage) (l : positive) :=
  stages v !! i = Some s /\ bs !! i = Some (Some l).

Lemma elem_of_addr l q : l ∈ addr q <-> q = Ptr l.
Proof.
  destruct q; cbn; rewrite ?elem_of_nil, ?list_elem_of_singleton; naive_solver.
Qed.

Lemma thread_touches main v bs p i th l : inv main v bs p -> threads p !! i = Some th ->
  (l ∈ (thread_accesses th).1 -> l = input_loc) /\
  (l ∈ (thread_accesses th).2 -> owned_by v bs i Live l).
Proof.
  intros I Et.
  destruct th as [[arg|a|a r|r]| |]; cbn; rewrite ?elem_of_nil, ?elem_of_addr; try done.
  destruct (inv_running _ _ _ _ _ _ I Et) as (Es & [l'|] & Eb & Hb); [|done].
  destruct Hb as (-> & -> & _). split; [congruence|]. intros [= ->]. done.
Qed.

Lemma main_touches main v bs p l : inv main v bs p -> check_code (code p) v = true ->
  (l ∈ (main_accesses p).1 -> l = input_loc \/ exists j, owned_by v bs j Held l) /\
  (l ∈ (main_accesses p).2 -> exists j, owned_by v bs j Held l).
Proof.
  intros I Hc. unfold main_accesses. destruct (code p) as [|ins k]; [by rewrite !elem_of_nil|].
  destruct (check_cons _ _ _ Hc) as [(-> & _)|(v' & Ev & _)]; [by rewrite !elem_of_nil|].
  destruct ins; cbn in Ev |- *; rewrite ?elem_of_nil; try done;
    destruct (results v !! r) as [j|] eqn:Er; try done; cbn in Ev; case_decide as Hs; try done;
    destruct (inv_result _ _ _ _ _ _ I Er Hs) as (l' & -> & Eb & _); cbn;
    rewrite ?elem_of_cons, ?elem_of_nil; unfold owned_by; naive_solver.
Qed.

Lemma good_race_free main p : good main p -> race_free p.
Proof.
  intros [(Ec & _ & Hj & _)|(v & bs & Hc & I)].
  { assert (Hn : forall i th, threads p !! i = Some th -> thread_accesses th = ([], [])).
    { intros i th Et. rewrite Forall_lookup in Hj. by rewrite (Hj _ _ Et). }
    unfold race_free, conflict, main_accesses. rewrite Ec. split.
    - intros i th Et [l Hl]. rewrite (Hn _ _ Et) in Hl. cbn in Hl. rewrite !elem_of_nil in Hl. tauto.
    - intros i j th th' _ Et Et' [l Hl]. rewrite (Hn _ _ Et), (Hn _ _ Et') in Hl. cbn in Hl.
      rewrite !elem_of_nil in Hl. tauto. }
  assert (Hin : forall i s, ~ owned_by v bs i s input_loc).
  { intros i s [_ Eb]. by eapply (hi_apart _ _ (inv_heap _ _ _ _ I)). }
  assert (Hone : forall i j s s' l, owned_by v bs i s l -> owned_by v bs j s' l -> i = j /\ s = s').
  { intros i j s s' l [Es Eb] [Es' Eb'].
    assert (i = j) as <- by by eapply (hi_inj _ _ (inv_heap _ _ _ _ I)). naive_solver. }
  split.
  - intros i th Et [l Hl]. destruct (main_touches _ _ _ _ l I Hc) as [M1 M2].
    destruct (thread_touches _ _ _ _ _ _ l I Et) as [T1 T2].
    assert (Hheld : forall j, owned_by v bs j Held l -> owned_by v bs i Live l -> False).
    { intros j O1 O2. by destruct (Hone _ _ _ _ _ O1 O2). }
    destruct Hl as [[Hm [Ht|Ht]]|[Ht [Hm|Hm]]].
    + destruct (M2 Hm) as [j O1]. rewrite (T1 Ht) in O1. by apply Hin in O1.
    + destruct (M2 Hm) as [j O1]. by apply (Hheld j), T2.
    + destruct (M1 Hm) as [E|[j O1]]; [|by apply (Hheld j), T2]. apply T2 in Ht. rewrite E in Ht. by apply Hin in Ht.
    + destruct (M2 Hm) as [j O1]. by apply (Hheld j), T2.
  - intros i j th th' N Et Et' [l Hl].
    destruct (thread_touches _ _ _ _ _ _ l I Et) as [T1 T2].
    destruct (thread_touches _ _ _ _ _ _ l I Et') as [T1' T2'].
    destruct Hl as [[A [B|B]]|[A [B|B]]].
    + apply T2 in A. rewrite (T1' B) in A. by apply Hin in A.
    + apply N. by apply (Hone i j Live Live l); [apply T2|apply T2'].
    + apply T2' in A. rewrite (T1 B) in A. by apply Hin in A.
    + apply N. by apply (Hone i j Live Live l); [apply T2|apply T2'].
Qed.

Lemma good_reachable main p q : good main p -> reachable reliable p q -> good main q.
Proof.
  intros Hg H. induction H as [|q r H IH Hs]; [done|].
  destruct (good_progress _ _ IH) as [He|[Hn _]].
  - exfalso. destruct He as [Ec _]. inversion Hs as [c o Hc Hm|a i o Hn]; [|done].
    unfold main_step in Hm. rewrite Ec in Hm. done.
  - by destruct (good_step _ _ _ IH Hn Hs) as (? & [= <-] & ?).
Qed.

Lemma good_ends main p : good main p -> ends_in reliable (ended_well main) p.
Proof.
  induction p as [p IH] using (induction_ltof1 _ steps_left). unfold ltof in IH. intros Hg.
  destruct (good_progress _ _ Hg) as [He|[Hn Hs]]; [by apply ends_now|apply ends_later; [done| |]].
  - intros Hcr. by destruct (good_step _ _ _ Hg Hn Hcr) as (? & ? & _).
  - intros p' Hp. apply IH; [by eapply step_decreases|].
    by destruct (good_step _ _ _ Hg Hn Hp) as (? & [= <-] & ?).
Qed.

(** A main function that runs as it should: every run ends, without undefined
    behaviour, and no two threads are ever about to access a cell that one of
    them writes. *)
Definition runs_well (main : list instr) : Prop :=
  ends_in reliable (ended_well main) (initial main) /\
  forall p, reachable reliable (initial main) p -> race_free p.

Lemma script_sound main : check_script main = true -> runs_well main.
Proof.
  intros H. split; [by apply good_ends, good_initial|].
  intros p Hp. eapply good_race_free, good_reachable; [by apply good_initial|done].
Qed.

Lemma example_checks main : main = main_example \/ main = main_example_two ->
  check_script main = true.
Proof. by intros [-> | ->]. Qed.

(** C40. Both thread examples do what they are for, in every interleaving of main
    and its children and with whatever addresses malloc hands out: as long as
    malloc and pthread_create succeed, each runs to its end without undefined
    behaviour; then each print has written "1 + 2 = 3", every child is joined
    and the memory it allocated is freed.  On the way no two threads are ever
    about to access a cell that one of them writes. *)
Theorem thread_examples_correct (main : list instr) :
  main = main_example \/ main = main_example_two -> runs_well main.
Proof. intros H. by apply script_sound, example_checks. Qed.

(** The first program ends with the sum printed twice. *)
Lemma thread_examples_correct_witness :
  runs_well main_example /\ runs_well main_example_two /\
  (forall p, ended_well main_example p -> out p = [the_line; the_line]) /\
  the_line = "1 + 2 = 3" +:+ String (ascii_of_nat 10) EmptyString.
Proof.
  split; [apply thread_examples_correct; by left|].
  split; [apply thread_examples_correct; by right|].
  split; [by intros p (_ & -> & _)|reflexivity].
Defined.

(** ** Failures that the programs do not look at *)

Definition crashes (L : libc) (main : list instr) : Prop :=
  exists p, reachable L (initial main) p /\ step L p Crash.

(** A step of main, or of a child whose malloc returns NULL, by computation. *)
Lemma reach_main L p q created r : reachable L p q ->
  created = true \/ create_may_fail L = true -> main_step created q = Next r -> reachable L p r.
Proof. intros. eapply reach_step; [done|]. by eapply (step_main _ _ created). Qed.

Lemma reach_child L p q i r : reachable L p q -> malloc_may_fail L = true ->
  code q <> [] -> child_step Null i q = Next r -> reachable L p r.
Proof. intros. eapply reach_step; [done|]. by eapply (step_child _ _ Null i). Qed.

Lemma crash_without_memory L main : malloc_may_fail L = true ->
  main = main_example \/ main = main_example_two -> crashes L main.
Proof.
  intros HL Hm.
  assert (R : exists p, reachable L (initial main) p /\ code p <> [] /\
    child_step Null 0 p = Crash).
  { destruct Hm as [-> | ->]; eexists; (split; [
      eapply (reach_child _ _ _ 0); [eapply (reach_child _ _ _ 0); [eapply (reach_main _ _ _ true);
        [apply reach_refl|by left|reflexivity]|exact HL|done|reflexivity]|exact HL|done|reflexivity]
     |done]). }
  destruct R as (p & Hr & Hc & Hs). exists p. split; [done|].
  by eapply (step_child _ _ Null 0).
Qed.

Lemma crash_without_thread L main : create_may_fail L = true ->
  main = main_example \/ main = main_example_two -> crashes L main.
Proof.
  intros HL Hm.
  assert (R : exists p, reachable L (initial main) p /\ main_step true p = Crash).
  { destruct Hm as [-> | ->]; eexists; split.
    - eapply (reach_main _ _ _ false); [eapply (reach_main _ _ _ false);
        [apply reach_refl|by right|reflexivity]|by right|reflexivity].
    - reflexivity.
    - eapply (reach_main _ _ _ false); [apply reach_refl|by right|reflexivity].
    - reflexivity. }
  destruct R as (p & Hr & E). exists p. split; [done|]. by apply (step_main _ _ true); [left| |].
Qed.

(** The thread examples do not look at what malloc and pthread_create
    return, and the C library matters exactly there: a run can reach undefined
    behaviour (a child that writes through NULL, a join of a handle that was
    never set) if and only if one of the two may fail. *)
Theorem thread_examples_crash_iff (L : libc) (main : list instr) :
  main = main_example \/ main = main_example_two ->
  (crashes L main <-> malloc_may_fail L = true \/ create_may_fail L = true).
Proof.
  intros Hm. split.
  - intros (p & Hr & Hs). destruct L as [[] []]; cbn; try tauto. exfalso.
    assert (Hg := good_reachable _ _ _ (good_initial _ (example_checks _ Hm)) Hr).
    destruct (decide (code p = [])) as [Ec|Hn].
    + inversion Hs as [c o _ Em|a i o Hn]; [|done]. unfold main_step in Em.
      by rewrite Ec in Em.
    + by destruct (good_step _ _ _ Hg Hn Hs) as (? & ? & _).
  - intros [H|H]; [by apply crash_without_memory|by apply crash_without_thread].
Qed.

Lemma thread_examples_crash_iff_witness :
  crashes (Libc true false) main_example_two /\ ~ crashes reliable main_example.
Proof.
  split.
  - apply (thread_examples_crash_iff (Libc true false)); [by right|by left].
  - intros H. apply (thread_examples_crash_iff reliable) in H; [|by left].
    by destruct H.
Defined.
