(* ===== verification/KernelApi.v ===== *)
(** * KernelApi: what the modelled code takes from headers that are not in the tree

    [core.c] includes the private [kernel/sched/sched.h] and many public
    headers; only [include/linux/sched.h] is part of this repository.  The
    constants and the small pure helpers it takes from the others are the
    fields of the classes below, their documented properties are the classes of
    laws, and [linux58] gives the values of Linux 5.8, for which every law is
    proved and with which the witnesses compute. *)

From S2P Require Import Prelude.

(** ** Priorities and nice levels (linux/sched/prio.h, rt.h, deadline.h) *)

Class PrioApi := {
  MAX_USER_RT_PRIO : Z;
  MAX_RT_PRIO : Z;
  MAX_DL_PRIO : Z;
  MIN_NICE : Z;
  MAX_NICE : Z;
  NICE_WIDTH : Z;
  NICE_TO_PRIO : Z -> Z;
  PRIO_TO_NICE : Z -> Z;
  nice_to_rlimit : Z -> Z;
  rt_prio : Z -> bool;
  dl_prio : Z -> bool;
  WEIGHT_IDLEPRIO : Z;
  WMULT_IDLEPRIO : Z;
  scale_load : Z -> Z;
  scale_load_down : Z -> Z
}.

(** Nice levels are [MIN_NICE .. MAX_NICE], one below zero and one at or above
    it; [NICE_TO_PRIO] maps them, in order, to the priorities just above the
    real-time ones; [dl_prio] and [rt_prio] are the comparisons with
    [MAX_DL_PRIO] and [MAX_RT_PRIO]. *)
Class PrioLaws (P : PrioApi) : Prop := {
  user_rt_prio_bound : 1 < MAX_USER_RT_PRIO <= MAX_RT_PRIO;
  rt_prio_bound : MAX_RT_PRIO < 2 ^ 16;
  dl_below_rt : MAX_DL_PRIO = 0;
  nice_range : MIN_NICE < 0 <= MAX_NICE;
  nice_width : NICE_WIDTH = MAX_NICE - MIN_NICE + 1;
  nice_width_bound : NICE_WIDTH < 2 ^ 16;
  nice_to_prio_spec n : NICE_TO_PRIO n = MAX_RT_PRIO + (n - MIN_NICE);
  prio_to_nice_spec p : PRIO_TO_NICE p = p - MAX_RT_PRIO + MIN_NICE;
  nice_to_rlimit_spec n : nice_to_rlimit n = MAX_NICE - n + 1;
  rt_prio_spec p : rt_prio p = (p <? MAX_RT_PRIO);
  dl_prio_spec p : dl_prio p = (p <? MAX_DL_PRIO);
  scale_load_spec w : scale_load w = u64 (w * 2 ^ 10);
  scale_load_down_spec w : scale_load_down w = if w =? 0 then 0 else Z.max 2 (w / 2 ^ 10)
}.

(** Scaling up and down again; weights of 0 and 1 do not survive it. *)
Lemma scale_load_down_scale {P : PrioApi} {PL : PrioLaws P} w :
  2 <= w < 2 ^ 32 -> scale_load_down (scale_load w) = w.
Proof.
  intros Hw. rewrite scale_load_spec, wrapu_id by lia. rewrite scale_load_down_spec, (proj2 (Z.eqb_neq _ _)) by lia.
  rewrite Z.div_mul by done. lia.
Qed.

(** ** Scheduling policies (uapi/linux/sched.h, kernel/sched/sched.h) *)

Class PolicyApi := {
  SCHED_NORMAL : Z;
  SCHED_FIFO : Z;
  SCHED_RR : Z;
  SCHED_BATCH : Z;
  SCHED_IDLE : Z;
  SCHED_DEADLINE : Z;
  SCHED_RESET_ON_FORK : Z;
  idle_policy : Z -> bool;
  fair_policy : Z -> bool;
  rt_policy : Z -> bool;
  dl_policy : Z -> bool;
  valid_policy : Z -> bool
}.

(** Each policy number belongs to exactly one of the four predicates, and a
    policy is valid when one of them holds. *)
Class PolicyLaws (P : PolicyApi) : Prop := {
  valid_policy_spec p :
    valid_policy p = idle_policy p || fair_policy p || rt_policy p || dl_policy p;
  idle_policy_spec p : idle_policy p = (p =? SCHED_IDLE);
  fair_policy_spec p : fair_policy p = (p =? SCHED_NORMAL) || (p =? SCHED_BATCH);
  rt_policy_spec p : rt_policy p = (p =? SCHED_FIFO) || (p =? SCHED_RR);
  dl_policy_spec p : dl_policy p = (p =? SCHED_DEADLINE);
  policies_distinct :
    NoDup [SCHED_NORMAL; SCHED_FIFO; SCHED_RR; SCHED_BATCH; SCHED_IDLE; SCHED_DEADLINE];
  policies_nonneg :
    Forall (fun p => 0 <= p) [SCHED_NORMAL; SCHED_FIFO; SCHED_RR; SCHED_BATCH; SCHED_IDLE; SCHED_DEADLINE]
}.

(** ** Flag bits (kernel/sched/sched.h, asm/thread_info.h) *)

Class FlagApi := {
  ENQUEUE_WAKEUP : Z;
  ENQUEUE_RESTORE : Z;
  ENQUEUE_MOVE : Z;
  ENQUEUE_NOCLOCK : Z;
  ENQUEUE_HEAD : Z;
  ENQUEUE_REPLENISH : Z;
  ENQUEUE_MIGRATED : Z;
  DEQUEUE_SLEEP : Z;
  DEQUEUE_SAVE : Z;
  DEQUEUE_MOVE : Z;
  DEQUEUE_NOCLOCK : Z;
  WF_SYNC : Z;
  WF_FORK : Z;
  WF_MIGRATED : Z;
  WF_ON_CPU : Z;
  RQCF_REQ_SKIP : Z;
  RQCF_ACT_SKIP : Z;
  RQCF_UPDATED : Z;
  TASK_ON_RQ_QUEUED : Z;
  TASK_ON_RQ_MIGRATING : Z;
  TIF_NEED_RESCHED_MASK : Z;
  TIF_POLLING_NRFLAG_MASK : Z;
  UCLAMP_FLAG_IDLE : Z
}.

(** Distinct flags are distinct bits; the dequeue flags are the enqueue flags of
    the same meaning, so that one value can be passed to both; shifting the skip
    request left makes it the active skip. *)
Class FlagLaws (F : FlagApi) : Prop := {
  enqueue_bits :
    [ENQUEUE_WAKEUP; ENQUEUE_RESTORE; ENQUEUE_MOVE; ENQUEUE_NOCLOCK; ENQUEUE_HEAD;
     ENQUEUE_REPLENISH; ENQUEUE_MIGRATED] = [2 ^ 0; 2 ^ 1; 2 ^ 2; 2 ^ 3; 2 ^ 4; 2 ^ 5; 2 ^ 6];
  dequeue_bits :
    [DEQUEUE_SLEEP; DEQUEUE_SAVE; DEQUEUE_MOVE; DEQUEUE_NOCLOCK] =
    [ENQUEUE_WAKEUP; ENQUEUE_RESTORE; ENQUEUE_MOVE; ENQUEUE_NOCLOCK];
  wake_bits : [WF_SYNC; WF_FORK; WF_MIGRATED; WF_ON_CPU] = [2 ^ 0; 2 ^ 1; 2 ^ 2; 2 ^ 3];
  clock_bits : [RQCF_REQ_SKIP; RQCF_ACT_SKIP; RQCF_UPDATED] = [2 ^ 0; 2 ^ 1; 2 ^ 2];
  on_rq_values : TASK_ON_RQ_QUEUED = 1 /\ TASK_ON_RQ_MIGRATING = 2;
  thread_bits :
    exists i j, 0 <= i /\ 0 <= j /\ i <> j /\
      TIF_NEED_RESCHED_MASK = 2 ^ i /\ TIF_POLLING_NRFLAG_MASK = 2 ^ j;
  uclamp_idle_bit : UCLAMP_FLAG_IDLE = 1
}.

(** ** The values of Linux 5.8 *)

#[export] Instance linux58_prio : PrioApi := {|
  MAX_USER_RT_PRIO := 100;
  MAX_RT_PRIO := 100;
  MAX_DL_PRIO := 0;
  MIN_NICE := -20;
  MAX_NICE := 19;
  NICE_WIDTH := 40;
  NICE_TO_PRIO n := n + 120;
  PRIO_TO_NICE p := p - 120;
  nice_to_rlimit n := 19 - n + 1;
  rt_prio p := p <? 100;
  dl_prio p := p <? 0;
  WEIGHT_IDLEPRIO := 3;
  WMULT_IDLEPRIO := 1431655765;
  scale_load w := u64 (Z.shiftl w 10);
  scale_load_down w := if w =? 0 then 0 else Z.max 2 (Z.shiftr w 10)
|}.

#[export] Instance linux58_prio_laws : PrioLaws linux58_prio.
Proof.
  split; simpl; try lia.
  - intros w. by rewrite Z.shiftl_mul_pow2.
  - intros w. by rewrite Z.shiftr_div_pow2.
Qed.

#[export] Instance linux58_policy : PolicyApi := {|
  SCHED_NORMAL := 0;
  SCHED_FIFO := 1;
  SCHED_RR := 2;
  SCHED_BATCH := 3;
  SCHED_IDLE := 5;
  SCHED_DEADLINE := 6;
  SCHED_RESET_ON_FORK := 0x40000000;
  idle_policy p := p =? 5;
  fair_policy p := (p =? 0) || (p =? 3);
  rt_policy p := (p =? 1) || (p =? 2);
  dl_policy p := p =? 6;
  valid_policy p := (p =? 5) || ((p =? 0) || (p =? 3)) || ((p =? 1) || (p =? 2)) || (p =? 6)
|}.

#[export] Instance linux58_policy_laws : PolicyLaws linux58_policy.
Proof.
  split; intros; try done.
  - simpl. rewrite !NoDup_cons, !not_elem_of_cons. repeat split; try lia; [set_solver..|apply NoDup_nil_2].
  - simpl. repeat constructor; lia.
Qed.

#[export] Instance linux58_flags : FlagApi := {|
  ENQUEUE_WAKEUP := 0x01; ENQUEUE_RESTORE := 0x02; ENQUEUE_MOVE := 0x04;
  ENQUEUE_NOCLOCK := 0x08; ENQUEUE_HEAD := 0x10; ENQUEUE_REPLENISH := 0x20;
  ENQUEUE_MIGRATED := 0x40;
  DEQUEUE_SLEEP := 0x01; DEQUEUE_SAVE := 0x02; DEQUEUE_MOVE := 0x04;
  DEQUEUE_NOCLOCK := 0x08;
  WF_SYNC := 0x01; WF_FORK := 0x02; WF_MIGRATED := 0x04; WF_ON_CPU := 0x08;
  RQCF_REQ_SKIP := 0x01; RQCF_ACT_SKIP := 0x02; RQCF_UPDATED := 0x04;
  TASK_ON_RQ_QUEUED := 1; TASK_ON_RQ_MIGRATING := 2;
  TIF_NEED_RESCHED_MASK := 0x8; TIF_POLLING_NRFLAG_MASK := 0x200000;
  UCLAMP_FLAG_IDLE := 1
|}.

#[export] Instance linux58_flag_laws : FlagLaws linux58_flags.
Proof. split; try done. exists 3, 21. repeat split; lia. Qed.

(** Nice levels and priorities correspond one to one. *)
Section PrioLemmas.
Context `{PL : PrioLaws}.

Lemma prio_to_nice_to_prio n : PRIO_TO_NICE (NICE_TO_PRIO n) = n.
Proof using PL. rewrite prio_to_nice_spec, nice_to_prio_spec. lia. Qed.

Lemma nice_to_prio_to_nice p : NICE_TO_PRIO (PRIO_TO_NICE p) = p.
Proof using PL. rewrite nice_to_prio_spec, prio_to_nice_spec. lia. Qed.

Lemma nice_prio_not_rt n : MIN_NICE <= n -> rt_prio (NICE_TO_PRIO n) = false.
Proof using PL. intros. rewrite rt_prio_spec, nice_to_prio_spec. apply Z.ltb_ge. lia. Qed.

Lemma rt_prio_of_dl p : dl_prio p = true -> rt_prio p = true.
Proof using PL.
  rewrite dl_prio_spec, rt_prio_spec, dl_below_rt.
  pose proof user_rt_prio_bound. intros ?%Z.ltb_lt. apply Z.ltb_lt. lia.
Qed.
End PrioLemmas.

(** The inequalities behind [policies_distinct]. *)
Ltac policy_neq :=
  let H := fresh in
  pose proof policies_distinct as H;
  rewrite !NoDup_cons, !not_elem_of_cons in H; destruct_and! H.

Section PolicyLemmas.
Context `{PL : PolicyLaws}.

(** A policy satisfies at most one of the predicates. *)
Lemma rt_policy_not_dl p : rt_policy p = true -> dl_policy p = false.
Proof using PL.
  rewrite rt_policy_spec, dl_policy_spec, orb_true_iff, !Z.eqb_eq, Z.eqb_neq.
  policy_neq.
  intros [-> | ->] E; congruence.
Qed.

Lemma fair_policy_not_rt_dl p :
  fair_policy p = true -> rt_policy p = false /\ dl_policy p = false.
Proof using PL.
  rewrite fair_policy_spec, rt_policy_spec, dl_policy_spec, orb_true_iff, orb_false_iff,
    !Z.eqb_eq, !Z.eqb_neq.
  policy_neq.
  intros [-> | ->]; repeat split; intros E; congruence.
Qed.

Lemma idle_policy_not_other p :
  idle_policy p = true -> fair_policy p = false /\ rt_policy p = false /\ dl_policy p = false.
Proof using PL.
  rewrite idle_policy_spec, fair_policy_spec, rt_policy_spec, dl_policy_spec, !orb_false_iff,
    Z.eqb_eq, !Z.eqb_neq.
  policy_neq.
  intros ->; repeat split; intros E; congruence.
Qed.
End PolicyLemmas.
