(* ===== verification/Prio.v ===== *)
(** * Prio: priorities, nice levels and load weights (core.c)

    The weight tables, [set_load_weight], the three priority functions, the
    priority system calls that read no other state, and the cgroup knobs that
    translate weights and nice levels ([cpu.weight], [cpu.weight.nice]). *)

From S2P Require Import Prelude Task KernelApi.

Section Prio.
Context {P : PrioApi} {Y : PolicyApi}.

(** Inline wrappers of the private scheduler header. *)
Definition task_has_idle_policy (t : task_struct) : bool := idle_policy (policy t).
Definition task_has_rt_policy (t : task_struct) : bool := rt_policy (policy t).
Definition task_has_dl_policy (t : task_struct) : bool := dl_policy (policy t).
Definition rt_task (t : task_struct) : bool := rt_prio (prio t).
Definition dl_task (t : task_struct) : bool := dl_prio (prio t).

(** ** Weight tables *)

Definition sched_prio_to_weight : list Z :=
  [ 88761; 71755; 56483; 46273; 36291;
    29154; 23254; 18705; 14949; 11916;
    9548; 7620; 6100; 4904; 3906;
    3121; 2501; 1991; 1586; 1277;
    1024; 820; 655; 526; 423;
    335; 272; 215; 172; 137;
    110; 87; 70; 56; 45;
    36; 29; 23; 18; 15 ].

Definition sched_prio_to_wmult : list Z :=
  [ 48388; 59856; 76040; 92818; 118348;
    147320; 184698; 229616; 287308; 360437;
    449829; 563644; 704093; 875809; 1099582;
    1376151; 1717300; 2157191; 2708050; 3363326;
    4194304; 5237765; 6557202; 8165337; 10153587;
    12820798; 15790321; 19976592; 24970740; 31350126;
    39045157; 49367440; 61356676; 76695844; 95443717;
    119304647; 148102320; 186737708; 238609294; 286331153 ].

(** A C array read; [None] out of range. *)
Definition array_get (l : list Z) (i : Z) : option Z :=
  if i <? 0 then None else l !! Z.to_nat i.

(** [set_load_weight]: [None] is a read outside the weight tables;
    [reweight_task] belongs to the fair class. *)
Definition set_load_weight (reweight_task : task_struct -> Z -> task_struct)
    (t : task_struct) (update_load : bool) : option task_struct :=
  let prio := static_prio t - MAX_RT_PRIO in
  if task_has_idle_policy t then
    Some (t <| t_se := (t_se t) <| se_load :=
            mk_load_weight (scale_load WEIGHT_IDLEPRIO) WMULT_IDLEPRIO |> |>)
  else if update_load && bool_decide (t_sched_class t = fair_sched_class) then
    Some (reweight_task t prio)
  else
    weight ← array_get sched_prio_to_weight prio;
    inv_weight ← array_get sched_prio_to_wmult prio;
    Some (t <| t_se := (t_se t) <| se_load :=
            mk_load_weight (scale_load weight) inv_weight |> |>).

(** ** Priorities *)

Definition __normal_prio (t : task_struct) : Z := static_prio t.

(** [rt_priority] is unsigned, so the real-time branch is computed in 32 bits
    without a sign and converted back to [int]. *)
Definition normal_prio_of (t : task_struct) : Z :=
  if task_has_dl_policy t then MAX_DL_PRIO - 1
  else if task_has_rt_policy t then s32 (u32 (MAX_RT_PRIO - 1 - rt_priority t))
  else __normal_prio t.

(** [effective_prio] stores [normal_prio] and returns the new priority. *)
Definition effective_prio (t : task_struct) : task_struct * Z :=
  let t := t <| normal_prio := normal_prio_of t |> in
  if negb (rt_prio (prio t)) then (t, normal_prio t) else (t, prio t).

Definition task_prio (t : task_struct) : Z := prio t - MAX_RT_PRIO.

Definition task_nice (t : task_struct) : Z := PRIO_TO_NICE (static_prio t).

(** [can_nice]; the resource limit and the capability test are the caller's
    credentials. *)
Definition can_nice (rlimit_nice : Z) (cap_sys_nice : bool) (nice : Z) : bool :=
  let nice_rlim := nice_to_rlimit nice in
  (nice_rlim <=? rlimit_nice) || cap_sys_nice.

(** [__rt_effective_prio]: a waiter lends its priority. *)
Definition __rt_effective_prio (pi_task : option task_struct) (prio : Z) : Z :=
  match pi_task with
  | Some w => Z.min prio (Task.prio w)
  | None => prio
  end.
End Prio.

(** ** Priority ranges of a policy *)
Section PriorityRange.
Context {P : PrioApi} {Y : PolicyApi}.

Definition sys_sched_get_priority_max (policy : Z) : Z :=
  if (policy =? SCHED_FIFO) || (policy =? SCHED_RR) then MAX_USER_RT_PRIO - 1
  else if (policy =? SCHED_DEADLINE) || (policy =? SCHED_NORMAL)
       || (policy =? SCHED_BATCH) || (policy =? SCHED_IDLE) then 0
  else - EINVAL.

Definition sys_sched_get_priority_min (policy : Z) : Z :=
  if (policy =? SCHED_FIFO) || (policy =? SCHED_RR) then 1
  else if (policy =? SCHED_DEADLINE) || (policy =? SCHED_NORMAL)
       || (policy =? SCHED_BATCH) || (policy =? SCHED_IDLE) then 0
  else - EINVAL.
End PriorityRange.

(** ** cgroup weight knobs *)
Section Weights.
Context {P : PrioApi}.

(** The group's shares and the call that stores them: [sched_group_set_shares]
    of the fair class returns an error code and the new shares. *)
Variable sched_group_set_shares : Z -> Z -> Z * Z.
(** [DIV_ROUND_CLOSEST_ULL] (linux/math64.h) and [array_index_nospec]
    (linux/nospec.h). *)
Variable DIV_ROUND_CLOSEST_ULL : Z -> Z -> Z.
Variable array_index_nospec : Z -> Z -> Z.

Definition CGROUP_WEIGHT_MIN : Z := 1.
Definition CGROUP_WEIGHT_DFL : Z := 100.
Definition CGROUP_WEIGHT_MAX : Z := 10000.

Definition cpu_weight_read_u64 (shares : Z) : Z :=
  let weight := scale_load_down shares in
  DIV_ROUND_CLOSEST_ULL (u64 (weight * CGROUP_WEIGHT_DFL)) 1024.

(** Returns the error code and the group's shares after the call. *)
Definition cpu_weight_write_u64 (shares weight : Z) : Z * Z :=
  if (weight <? CGROUP_WEIGHT_MIN) || (CGROUP_WEIGHT_MAX <? weight) then (- ERANGE, shares)
  else
    let weight := DIV_ROUND_CLOSEST_ULL (u64 (weight * 1024)) CGROUP_WEIGHT_DFL in
    sched_group_set_shares shares (scale_load weight).

(** The scan of [cpu_weight_nice_read_s64] from table index [prio]: [delta] is
    an [int]; [abs] converts the unsigned difference to a signed one first. *)
Fixpoint nice_scan (table : list Z) (weight : Z) (prio last_delta : Z) : Z :=
  match table with
  | [] => prio
  | w :: rest =>
      let delta := s32 (Z.abs (s64 (u64 (w - weight)))) in
      if last_delta <=? delta then prio
      else nice_scan rest weight (prio + 1) delta
  end.

Definition cpu_weight_nice_read_s64 (shares : Z) : Z :=
  let weight := scale_load_down shares in
  let prio := nice_scan sched_prio_to_weight weight 0 INT_MAX in
  PRIO_TO_NICE (prio - 1 + MAX_RT_PRIO).

(** [None] is a read outside the weight table. *)
Definition cpu_weight_nice_write_s64 (shares nice : Z) : option (Z * Z) :=
  if (nice <? MIN_NICE) || (MAX_NICE <? nice) then Some (- ERANGE, shares)
  else
    let idx := NICE_TO_PRIO nice - MAX_RT_PRIO in
    let idx := array_index_nospec idx 40 in
    weight ← array_get sched_prio_to_weight idx;
    Some (sched_group_set_shares shares (scale_load weight)).
End Weights.

(** ** Tables *)

(** Two consecutive nice levels differ by a factor between 1.2 and 1.29. *)
Fixpoint gentle_steps (l : list Z) : bool :=
  match l with
  | a :: (b :: _) as rest => (120 * b <=? 100 * a) && (100 * a <=? 129 * b) && gentle_steps rest
  | _ => true
  end.

Definition inverse_ok (wi : Z * Z) : bool :=
  (Z.abs (2 ^ 32 - wi.1 * wi.2) <? wi.1) && (0 <? wi.1) && (wi.2 <? 2 ^ 32).

Lemma array_get_lookup l i x : array_get l i = Some x <-> 0 <= i /\ l !! Z.to_nat i = Some x.
Proof.
  unfold array_get. destruct (i <? 0) eqn:E; bool_cases.
  - split; [done|lia].
  - split; [done|by intros [_ ?]].
Qed.

Lemma array_get_is_Some l i : 0 <= i < Z.of_nat (length l) -> is_Some (array_get l i).
Proof.
  intros H. unfold array_get. rewrite (proj2 (Z.ltb_ge i 0)) by lia.
  apply lookup_lt_is_Some. lia.
Qed.

Lemma forallb_zip_lookup {A B} (f : A * B -> bool) l1 l2 i x y :
  forallb f (zip l1 l2) = true -> l1 !! i = Some x -> l2 !! i = Some y -> f (x, y) = true.
Proof.
  revert l2 i. induction l1 as [|a l1 IH]; intros [|b l2] [|i] H H1 H2; simplify_eq/=.
  - by apply andb_true_iff in H as [H _].
  - apply andb_true_iff in H as [_ H]. eauto.
Qed.

(** [set_load_weight] never reads outside the weight tables for a nice level
    in range, and the weight and inverse weight it stores belong together: the
    product is within one weight of 2^32, the error the table comment allows. *)
Theorem set_load_weight_sound {P : PrioApi} {PL : PrioLaws P} {Y : PolicyApi} rw t :
  NICE_WIDTH = 40 -> MAX_RT_PRIO <= static_prio t < MAX_RT_PRIO + NICE_WIDTH ->
  task_has_idle_policy t = false ->
  exists t' w, set_load_weight rw t false = Some t'
    /\ lw_weight (se_load (t_se t')) = scale_load w
    /\ sched_prio_to_weight !! Z.to_nat (static_prio t - MAX_RT_PRIO) = Some w
    /\ Z.abs (2 ^ 32 - w * lw_inv_weight (se_load (t_se t'))) < w
    /\ t' = t <| t_se := (t_se t) <| se_load := se_load (t_se t') |> |>.
Proof.
  intros Hw Hr Hidle. unfold set_load_weight. rewrite Hidle. simpl andb. cbv iota.
  set (i := static_prio t - MAX_RT_PRIO).
  destruct (array_get_is_Some sched_prio_to_weight i) as [w Ew]; [simpl; lia|].
  destruct (array_get_is_Some sched_prio_to_wmult i) as [m Em]; [simpl; lia|].
  rewrite Ew, Em. simpl. eexists _, w. split; [done|].
  apply array_get_lookup in Ew as [_ Ew], Em as [_ Em].
  assert (inverse_ok (w, m) = true) as Hok.
  { by apply (forallb_zip_lookup _ sched_prio_to_weight sched_prio_to_wmult (Z.to_nat i)). }
  unfold inverse_ok in Hok. simpl in Hok. bool_cases. rsimpl. repeat split; done.
Qed.

Lemma set_load_weight_sound_witness :
  let t := zero_task <| static_prio := 105 |> in
  exists t' w, set_load_weight (P := linux58_prio) (Y := linux58_policy) (fun t _ => t) t false = Some t'
    /\ lw_weight (se_load (t_se t')) = scale_load w
    /\ sched_prio_to_weight !! Z.to_nat (static_prio t - MAX_RT_PRIO) = Some w
    /\ Z.abs (2 ^ 32 - w * lw_inv_weight (se_load (t_se t'))) < w
    /\ t' = t <| t_se := (t_se t) <| se_load := se_load (t_se t') |> |>.
Proof.
  apply (set_load_weight_sound (P := linux58_prio) (Y := linux58_policy) (fun t _ => t)
           (zero_task <| static_prio := 105 |>)); [reflexivity|vm_compute; split; congruence|reflexivity].
Defined.

(** ** The nice level closest to a weight *)

(** Each element of [l] is below the previous one, [y] being before the first. *)
Fixpoint descending (y : Z) (l : list Z) : bool :=
  match l with
  | [] => true
  | x :: rest => (x <? y) && (0 <=? x) && descending x rest
  end.

Lemma descending_below y l : descending y l = true -> Forall (fun x => 0 <= x < y) l.
Proof.
  revert y. induction l as [|x l IH]; intros y H; [done|].
  simpl in H. bool_cases. constructor; [lia|].
  eapply Forall_impl; [by apply IH|]. simpl. lia.
Qed.

Lemma scan_delta x w :
  0 <= x < 2 ^ 31 -> 0 <= w < 2 ^ 31 -> s32 (Z.abs (s64 (u64 (x - w)))) = Z.abs (x - w).
Proof.
  intros Hx Hw. assert (s64 (u64 (x - w)) = x - w) as ->.
  { unfold wraps, wrapu. rewrite Zplus_mod_idemp_l, Z.mod_small by lia. lia. }
  apply wraps_id; lia.
Qed.

(** The scan stops at an element that is closest among all the elements seen and
    unseen: beyond the first non-decreasing distance, distances only grow. *)
Lemma nice_scan_closest l w p y :
  descending y l = true -> 0 <= y < 2 ^ 31 -> 0 <= w < 2 ^ 31 ->
  exists k m, nice_scan l w p (Z.abs (y - w)) = p + Z.of_nat k
    /\ (y :: l) !! k = Some m /\ Forall (fun x => Z.abs (m - w) <= Z.abs (x - w)) (y :: l).
Proof.
  revert p y. induction l as [|x l IH]; intros p y Hd Hy Hw.
  { exists 0%nat, y. split; [simpl; lia|]. split; [done|]. repeat constructor. lia. }
  simpl in Hd. bool_cases. simpl. rewrite scan_delta by lia.
  destruct (Z.abs (y - w) <=? Z.abs (x - w)) eqn:E; bool_cases.
  - exists 0%nat, y. split; [lia|]. split; [done|]. constructor; [lia|]. constructor; [lia|].
    eapply Forall_impl; [by apply descending_below|]. simpl. lia.
  - destruct (IH (p + 1) x) as (k & m & E1 & E2 & E3); [done|lia|done|].
    exists (S k), m. split; [lia|]. split; [done|]. constructor; [|done].
    apply Forall_cons in E3 as [E3 _]. lia.
Qed.

(** The scan started at a table entry stops just after it. *)
Definition nice_table_ok (k : Z) : bool :=
  match array_get sched_prio_to_weight k with
  | Some v => (nice_scan sched_prio_to_weight v 0 INT_MAX - 1 =? k) && (2 <=? v) && (v <? 2 ^ 32)
  | None => false
  end.

Section ReadNice.
Context {P : PrioApi} {PL : PrioLaws P}.

(** [cpu_weight_nice_read_s64] finds the closest nice value: its early exit on
    the first growing distance loses nothing, for every group weight an [int]
    can hold, and the value returned is in the nice range. *)
Theorem cpu_weight_nice_read_closest shares n :
  NICE_WIDTH = 40 -> 0 <= scale_load_down shares < 2 ^ 31 ->
  cpu_weight_nice_read_s64 shares = n ->
  MIN_NICE <= n <= MAX_NICE /\
  exists m, sched_prio_to_weight !! Z.to_nat (n - MIN_NICE) = Some m /\
    forall x, x ∈ sched_prio_to_weight ->
      Z.abs (m - scale_load_down shares) <= Z.abs (x - scale_load_down shares).
Proof.
  intros Hnw Hs <-. unfold cpu_weight_nice_read_s64.
  set (w := scale_load_down shares) in *. rewrite prio_to_nice_spec.
  destruct (nice_scan_closest (tail sched_prio_to_weight) w 1 88761)
    as (k & m & E1 & E2 & E3); [done|lia|done|].
  assert (nice_scan sched_prio_to_weight w 0 INT_MAX = 1 + Z.of_nat k) as ->.
  { rewrite <- E1. change sched_prio_to_weight with (88761 :: tail sched_prio_to_weight).
    cbn [nice_scan tail]. rewrite scan_delta by lia. unfold INT_MAX.
    rewrite (proj2 (Z.leb_gt _ _)) by lia. done. }
  pose proof (lookup_lt_Some _ _ _ E2) as Hk. simpl in Hk.
  pose proof nice_width. split; [lia|]. exists m.
  replace (Z.to_nat _) with k by lia. split; [done|].
  intros x Hx. rewrite Forall_forall in E3. by apply E3.
Qed.

(** Writing a nice level to [cpu.weight.nice] and reading it back returns that
    level, for each of the 40 levels, when the fair class stores the shares it
    is given. *)
Theorem cpu_weight_nice_roundtrip sgss ain shares nice shares' :
  NICE_WIDTH = 40 -> (forall i, 0 <= i < 40 -> ain i 40 = i) ->
  (forall s v, sgss s v = (0, v)) ->
  MIN_NICE <= nice <= MAX_NICE ->
  cpu_weight_nice_write_s64 sgss ain shares nice = Some (0, shares') ->
  cpu_weight_nice_read_s64 shares' = nice.
Proof.
  intros Hnw Hain Hs Hn. unfold cpu_weight_nice_write_s64.
  rewrite (proj2 (Z.ltb_ge nice _)), (proj2 (Z.ltb_ge _ nice)) by lia. simpl.
  pose proof nice_width. rewrite nice_to_prio_spec, Hain by lia.
  replace (MAX_RT_PRIO + (nice - MIN_NICE) - MAX_RT_PRIO) with (nice - MIN_NICE) by lia.
  destruct (array_get _ _) as [w|] eqn:Ew; [|done]. simpl. rewrite Hs.
  intros [= <-]. unfold cpu_weight_nice_read_s64.
  pose proof (Zrange_all_spec 40 0 nice_table_ok eq_refl) as Htab.
  specialize (Htab (nice - MIN_NICE) ltac:(lia)). unfold nice_table_ok in Htab.
  rewrite Ew in Htab. bool_cases.
  rewrite scale_load_down_scale, prio_to_nice_spec by lia. lia.
Qed.

(** The comment of [cpu_weight_write_u64] holds: the conversion of a cgroup
    weight to shares and back preserves every weight of the range 1..10000. *)
Theorem cpu_weight_roundtrip sgss drc shares weight shares' :
  (forall x d, 0 <= x -> 0 < d -> drc x d = (x + d / 2) / d) ->
  (forall s v, sgss s v = (0, v)) ->
  cpu_weight_write_u64 sgss drc shares weight = (0, shares') ->
  cpu_weight_read_u64 drc shares' = weight.
Proof.
  intros Hdrc Hs. unfold cpu_weight_write_u64, cpu_weight_read_u64.
  unfold CGROUP_WEIGHT_MIN, CGROUP_WEIGHT_MAX, CGROUP_WEIGHT_DFL.
  destruct ((weight <? 1) || (10000 <? weight)) eqn:Hr; [intros [=]|].
  apply orb_false_iff in Hr as [Hr1 Hr2]. bool_cases. rewrite Hs. intros [= <-].
  rewrite !(wrapu_id 64 (weight * 1024)), (Hdrc (weight * 1024) 100) by lia.
  change (100 / 2) with 50.
  assert (2 <= (weight * 1024 + 50) / 100 < 2 ^ 32) as Hb.
  { split; [apply Z.div_le_lower_bound; lia|]. apply Z.div_lt_upper_bound; lia. }
  rewrite scale_load_down_scale, wrapu_id, Hdrc by lia. change (1024 / 2) with 512.
  pose proof (Z.div_mod (weight * 1024 + 50) 100 ltac:(lia)).
  pose proof (Z.mod_pos_bound (weight * 1024 + 50) 100 ltac:(lia)).
  symmetry. apply Z.div_unique with
    (r := (weight * 1024 + 50) / 100 * 100 + 512 - 1024 * weight); lia.
Qed.
End ReadNice.

Lemma cpu_weight_nice_read_closest_witness :
  let n := cpu_weight_nice_read_s64 (P := linux58_prio) (Z.shiftl 1000 10) in
  MIN_NICE <= n <= MAX_NICE /\
  exists m, sched_prio_to_weight !! Z.to_nat (n - MIN_NICE) = Some m /\
    forall x, x ∈ sched_prio_to_weight ->
      Z.abs (m - scale_load_down (Z.shiftl 1000 10)) <= Z.abs (x - scale_load_down (Z.shiftl 1000 10)).
Proof.
  apply (cpu_weight_nice_read_closest (P := linux58_prio) (Z.shiftl 1000 10));
    [reflexivity|vm_compute; split; congruence|reflexivity].
Defined.

Lemma cpu_weight_nice_roundtrip_witness :
  cpu_weight_nice_read_s64 (P := linux58_prio) (scale_load 3121) = -5.
Proof.
  apply (cpu_weight_nice_roundtrip (P := linux58_prio) (fun _ v => (0, v)) (fun i _ => i) 0 (-5));
    [reflexivity|reflexivity|reflexivity|vm_compute; split; congruence|vm_compute; reflexivity].
Defined.

Lemma cpu_weight_roundtrip_witness :
  cpu_weight_read_u64 (P := linux58_prio) (fun x d => (x + d / 2) / d) (scale_load 1034) = 101.
Proof.
  apply (cpu_weight_roundtrip (P := linux58_prio) (fun _ v => (0, v)) (fun x d => (x + d / 2) / d) 0 101);
    [reflexivity|reflexivity|vm_compute; reflexivity].
Defined.
