(* ===== verification/Rq.v ===== *)
(** * Rq: the run queue

    [struct rq] and the clamp buckets it holds are declared in the private
    scheduler header; the records below have the fields core.c reads or writes,
    the fields of the classes' own queues being the counters it looks at. *)

From S2P Require Import Prelude Task.

(** A clamp bucket: the largest clamp of its RUNNABLE tasks and their number. *)
Record uclamp_bucket := mk_uclamp_bucket {
  bkt_value : Z;
  bkt_tasks : Z
}.
#[export] Instance eta_uclamp_bucket : EtaRecord uclamp_bucket := fun x =>
  mk_uclamp_bucket (bkt_value x) (bkt_tasks x).
#[export] Instance upd_bkt_value : FieldUpdate bkt_value := ltac:(field_update bkt_value).
#[export] Instance upd_bkt_tasks : FieldUpdate bkt_tasks := ltac:(field_update bkt_tasks).

(** The clamp state of a run queue for one clamp index. *)
Record uclamp_rq := mk_uclamp_rq {
  ucr_value : Z;
  ucr_bucket : list uclamp_bucket
}.
#[export] Instance eta_uclamp_rq : EtaRecord uclamp_rq := fun x =>
  mk_uclamp_rq (ucr_value x) (ucr_bucket x).
#[export] Instance upd_ucr_value : FieldUpdate ucr_value := ltac:(field_update ucr_value).
#[export] Instance upd_ucr_bucket : FieldUpdate ucr_bucket := ltac:(field_update ucr_bucket).

(** [struct rq]. *)
Record rq := mk_rq {
  rq_cpu : Z;
  rq_lock : bool;  (* raw_spinlock_t, held or not *)
  nr_running : Z;
  cfs_h_nr_running : Z;  (* cfs.h_nr_running *)
  dl_nr_running : Z;  (* dl.dl_nr_running *)
  rt_nr_running : Z;  (* rt.rt_nr_running *)
  rr_nr_running : Z;  (* rt.rr_nr_running *)
  nr_switches : Z;  (* u64 *)
  nr_uninterruptible : Z;  (* unsigned long *)
  curr : ptr;
  idle : ptr;
  stop : option ptr;
  prev_mm : option Z;
  clock_update_flags : Z;  (* unsigned int *)
  clock : Z;  (* u64 *)
  clock_task : Z;  (* u64 *)
  prev_irq_time : Z;  (* u64 *)
  prev_steal_time_rq : Z;  (* u64 *)
  nr_iowait : Z;  (* atomic_t *)
  rq_uclamp_min : uclamp_rq;  (* uclamp[UCLAMP_MIN] *)
  rq_uclamp_max : uclamp_rq;  (* uclamp[UCLAMP_MAX] *)
  uclamp_flags : Z;  (* unsigned int *)
  ttwu_pending : bool;
  online : bool;
  balance_callback : list Z;  (* queued callbacks, by identity *)
  idle_stamp : Z;  (* u64 *)
  avg_idle : Z;  (* u64 *)
  max_idle_balance_cost : Z;  (* u64 *)
  idle_balance : bool;  (* unsigned char *)
  nohz_idle_balance : Z;  (* unsigned int *)
  nohz_flags : Z;  (* atomic_t *)
  rq_calc_load_update : Z  (* calc_load_update *)
}.
#[export] Instance eta_rq : EtaRecord rq := fun x =>
  mk_rq (rq_cpu x) (rq_lock x) (nr_running x) (cfs_h_nr_running x) (dl_nr_running x)
    (rt_nr_running x) (rr_nr_running x) (nr_switches x) (nr_uninterruptible x) (curr x)
    (idle x) (stop x) (prev_mm x) (clock_update_flags x) (clock x) (clock_task x)
    (prev_irq_time x) (prev_steal_time_rq x) (nr_iowait x) (rq_uclamp_min x)
    (rq_uclamp_max x) (uclamp_flags x) (ttwu_pending x) (online x) (balance_callback x)
    (idle_stamp x) (avg_idle x) (max_idle_balance_cost x)
    (idle_balance x) (nohz_idle_balance x) (nohz_flags x) (rq_calc_load_update x).
#[export] Instance upd_rq_cpu : FieldUpdate rq_cpu := ltac:(field_update rq_cpu).
#[export] Instance upd_rq_lock : FieldUpdate rq_lock := ltac:(field_update rq_lock).
#[export] Instance upd_nr_running : FieldUpdate nr_running := ltac:(field_update nr_running).
#[export] Instance upd_cfs_h_nr_running : FieldUpdate cfs_h_nr_running := ltac:(field_update cfs_h_nr_running).
#[export] Instance upd_dl_nr_running : FieldUpdate dl_nr_running := ltac:(field_update dl_nr_running).
#[export] Instance upd_rt_nr_running : FieldUpdate rt_nr_running := ltac:(field_update rt_nr_running).
#[export] Instance upd_rr_nr_running : FieldUpdate rr_nr_running := ltac:(field_update rr_nr_running).
#[export] Instance upd_nr_switches : FieldUpdate nr_switches := ltac:(field_update nr_switches).
#[export] Instance upd_nr_uninterruptible : FieldUpdate nr_uninterruptible := ltac:(field_update nr_uninterruptible).
#[export] Instance upd_curr : FieldUpdate curr := ltac:(field_update curr).
#[export] Instance upd_idle : FieldUpdate idle := ltac:(field_update idle).
#[export] Instance upd_stop : FieldUpdate stop := ltac:(field_update stop).
#[export] Instance upd_prev_mm : FieldUpdate prev_mm := ltac:(field_update prev_mm).
#[export] Instance upd_clock_update_flags : FieldUpdate clock_update_flags := ltac:(field_update clock_update_flags).
#[export] Instance upd_clock : FieldUpdate clock := ltac:(field_update clock).
#[export] Instance upd_clock_task : FieldUpdate clock_task := ltac:(field_update clock_task).
#[export] Instance upd_prev_irq_time : FieldUpdate prev_irq_time := ltac:(field_update prev_irq_time).
#[export] Instance upd_prev_steal_time_rq : FieldUpdate prev_steal_time_rq := ltac:(field_update prev_steal_time_rq).
#[export] Instance upd_nr_iowait : FieldUpdate nr_iowait := ltac:(field_update nr_iowait).
#[export] Instance upd_rq_uclamp_min : FieldUpdate rq_uclamp_min := ltac:(field_update rq_uclamp_min).
#[export] Instance upd_rq_uclamp_max : FieldUpdate rq_uclamp_max := ltac:(field_update rq_uclamp_max).
#[export] Instance upd_uclamp_flags : FieldUpdate uclamp_flags := ltac:(field_update uclamp_flags).
#[export] Instance upd_ttwu_pending : FieldUpdate ttwu_pending := ltac:(field_update ttwu_pending).
#[export] Instance upd_online : FieldUpdate online := ltac:(field_update online).
#[export] Instance upd_balance_callback : FieldUpdate balance_callback := ltac:(field_update balance_callback).
#[export] Instance upd_idle_stamp : FieldUpdate idle_stamp := ltac:(field_update idle_stamp).
#[export] Instance upd_avg_idle : FieldUpdate avg_idle := ltac:(field_update avg_idle).
#[export] Instance upd_max_idle_balance_cost : FieldUpdate max_idle_balance_cost := ltac:(field_update max_idle_balance_cost).
#[export] Instance upd_idle_balance : FieldUpdate idle_balance := ltac:(field_update idle_balance).
#[export] Instance upd_nohz_idle_balance : FieldUpdate nohz_idle_balance := ltac:(field_update nohz_idle_balance).
#[export] Instance upd_nohz_flags : FieldUpdate nohz_flags := ltac:(field_update nohz_flags).
#[export] Instance upd_rq_calc_load_update : FieldUpdate rq_calc_load_update := ltac:(field_update rq_calc_load_update).

(** [rq->uclamp[clamp_id]]. *)
Definition rq_uclamp (r : rq) (id : uclamp_id) : uclamp_rq :=
  match id with UCLAMP_MIN => rq_uclamp_min r | UCLAMP_MAX => rq_uclamp_max r end.
Definition set_rq_uclamp (r : rq) (id : uclamp_id) (u : uclamp_rq) : rq :=
  match id with
  | UCLAMP_MIN => r <| rq_uclamp_min := u |>
  | UCLAMP_MAX => r <| rq_uclamp_max := u |>
  end.

Definition zero_uclamp_rq : uclamp_rq := mk_uclamp_rq 0 [].
Definition zero_rq (cpu : Z) (swapper : ptr) : rq :=
  mk_rq cpu false 0 0 0 0 0 0 0 swapper swapper None None 0 0 0 0 0 0
    zero_uclamp_rq zero_uclamp_rq 0 false false [] 0 0 0 false 0 0 0.

(** [rq_of_uclamp] laws: the two clamp indices are separate cells. *)
Lemma rq_uclamp_set r id u : rq_uclamp (set_rq_uclamp r id u) id = u.
Proof. by destruct id. Qed.
Lemma rq_uclamp_set_ne r id id' u :
  id <> id' -> rq_uclamp (set_rq_uclamp r id u) id' = rq_uclamp r id'.
Proof. by destruct id, id'. Qed.
Create Rewrite HintDb rqrw.
#[export] Hint Rewrite rq_uclamp_set : rqrw.

(** [sched_can_stop_tick]: may the periodic tick stop on this CPU? *)
Definition sched_can_stop_tick (r : rq) : bool :=
  if nz (dl_nr_running r) then false
  else if nz (rr_nr_running r) then rr_nr_running r =? 1
  else
    let fifo_nr_running := s32 (u32 (rt_nr_running r - rr_nr_running r)) in
    if nz fifo_nr_running then true
    else if 1 <? nr_running r then false
    else true.
