(* ===== verification/RqClock.v ===== *)
(** * RqClock: the clocks of a run queue (core.c)

    [update_rq_clock] advances [rq->clock] and splits the elapsed time between
    interrupts, a hypervisor's stolen time and [rq->clock_task]. *)

From S2P Require Import Prelude Task KernelApi Rq.

(** The build options the two functions test, and the static key of the
    paravirtual clock. *)
Class ClockConfig := {
  CONFIG_IRQ_TIME_ACCOUNTING : bool;
  CONFIG_PARAVIRT_TIME_ACCOUNTING : bool;
  CONFIG_SCHED_DEBUG : bool;
  paravirt_steal_rq_enabled : bool
}.

(** One reading of the clock sources of a CPU: [sched_clock_cpu],
    [irq_time_read] and [paravirt_steal_clock]. *)
Record clock_reading := {
  sched_clock : Z;
  irq_time : Z;
  steal_clock : Z
}.

Section Clock.
Context {C : ClockConfig} {F : FlagApi}.

(** The interrupt part of [update_rq_clock_task]: the run queue and what is left
    of [delta]. *)
Definition account_irq (r : rq) (c : clock_reading) (delta : Z) : rq * Z :=
  if CONFIG_IRQ_TIME_ACCOUNTING then
    let irq_delta := s64 (u64 (irq_time c - prev_irq_time r)) in
    let irq_delta := if delta <? irq_delta then delta else irq_delta in
    (r <| prev_irq_time := u64 (prev_irq_time r + irq_delta) |>, s64 (delta - irq_delta))
  else (r, delta).

(** The stolen-time part. *)
Definition account_steal (r : rq) (c : clock_reading) (delta : Z) : rq * Z :=
  if CONFIG_PARAVIRT_TIME_ACCOUNTING && paravirt_steal_rq_enabled then
    let steal := s64 (u64 (s64 (steal_clock c) - prev_steal_time_rq r)) in
    let steal := if delta <? steal then delta else steal in
    (r <| prev_steal_time_rq := u64 (prev_steal_time_rq r + steal) |>, s64 (delta - steal))
  else (r, delta).

Definition update_rq_clock_task (r : rq) (c : clock_reading) (delta : Z) : rq :=
  let '(r, delta) := account_irq r c delta in
  let '(r, delta) := account_steal r c delta in
  r <| clock_task := u64 (clock_task r + delta) |>.

Definition update_rq_clock (c : clock_reading) (r : rq) : rq :=
  if has (clock_update_flags r) RQCF_ACT_SKIP then r
  else
    let r := if CONFIG_SCHED_DEBUG
             then r <| clock_update_flags := Z.lor (clock_update_flags r) RQCF_UPDATED |>
             else r in
    let delta := s64 (u64 (sched_clock c - clock r)) in
    if delta <? 0 then r
    else update_rq_clock_task (r <| clock := u64 (clock r + delta) |>) c delta.

(** ** Conservation of time *)

(** The time [rq->clock] shows that no account has received. *)
Definition unaccounted (r : rq) : Z :=
  u64 (clock r - clock_task r - prev_irq_time r - prev_steal_time_rq r).

Lemma account_irq_sum r c delta r' d :
  account_irq r c delta = (r', d) ->
  u64 (prev_irq_time r' + d) = u64 (prev_irq_time r + delta) /\
  clock r' = clock r /\ clock_task r' = clock_task r
  /\ prev_steal_time_rq r' = prev_steal_time_rq r.
Proof.
  unfold account_irq. destruct CONFIG_IRQ_TIME_ACCOUNTING; intros [= <- <-]; rsimpl; [|done].
  split; [|done]. rewrite wrapu_add_l, Z.add_comm, <- wrapu_add_l, wrapu_wraps, wrapu_add_l by lia.
  f_equal. lia.
Qed.

Lemma account_steal_sum r c delta r' d :
  account_steal r c delta = (r', d) ->
  u64 (prev_steal_time_rq r' + d) = u64 (prev_steal_time_rq r + delta) /\
  clock r' = clock r /\ clock_task r' = clock_task r /\ prev_irq_time r' = prev_irq_time r.
Proof.
  unfold account_steal.
  destruct (CONFIG_PARAVIRT_TIME_ACCOUNTING && _); intros [= <- <-]; rsimpl; [|done].
  split; [|done]. rewrite wrapu_add_l, Z.add_comm, <- wrapu_add_l, wrapu_wraps, wrapu_add_l by lia.
  f_equal. lia.
Qed.
End Clock.

Section Monotone.
Context {C : ClockConfig} {F : FlagApi}.

(** Time is neither lost nor created: whatever the clock sources return and
    whatever wraps around, [update_rq_clock] keeps the difference between
    [rq->clock] and the three accounts it feeds, [clock_task], [prev_irq_time]
    and [prev_steal_time_rq], modulo 2^64. *)
Theorem update_rq_clock_conserves c r : unaccounted (update_rq_clock c r) = unaccounted r.
Proof.
  unfold update_rq_clock. destruct (has _ _); [done|].
  set (r0 := if CONFIG_SCHED_DEBUG then _ else r).
  assert (unaccounted r0 = unaccounted r /\ clock r0 = clock r) as [Hu Hc].
  { by subst r0; destruct CONFIG_SCHED_DEBUG. }
  rewrite <- Hu. set (delta := s64 _). destruct (delta <? 0); [done|].
  unfold update_rq_clock_task.
  set (r1 := r0 <| clock := u64 (clock r0 + delta) |>).
  destruct (account_irq r1 c delta) as [r2 d2] eqn:E2.
  destruct (account_steal r2 c d2) as [r3 d3] eqn:E3.
  apply account_irq_sum in E2 as (E2 & Ec2 & Et2 & Es2).
  apply account_steal_sum in E3 as (E3 & Ec3 & Et3 & Ei3).
  unfold unaccounted. rsimpl. rewrite Ec3, Ec2, Et3, Et2, Ei3. subst r1.
  rsimpl_in E2. rsimpl_in Es2. rsimpl. rewrite Es2 in E3. revert E2 E3.
  unfold wrapu. intros E2 E3.
  assert (forall a b, a mod 2 ^ 64 = b mod 2 ^ 64 <-> exists k, a = b + k * 2 ^ 64) as Hm.
  { intros a b. split.
    - intros H. exists (a / 2 ^ 64 - b / 2 ^ 64).
      pose proof (Z_div_mod_eq_full a (2 ^ 64)). pose proof (Z_div_mod_eq_full b (2 ^ 64)). lia.
    - intros [k ->]. apply Z.mod_add. lia. }
  apply Hm in E2 as [k2 E2], E3 as [k3 E3]. apply Hm.
  exists (- k2 - k3 - (clock r0 + delta) / 2 ^ 64 + (clock_task r0 + d3) / 2 ^ 64).
  pose proof (Z_div_mod_eq_full (clock r0 + delta) (2 ^ 64)).
  pose proof (Z_div_mod_eq_full (clock_task r0 + d3) (2 ^ 64)). lia.
Qed.

(** Far below the wrap-around, with the accounts behind their sources. *)
Definition clock_small (r : rq) : Prop :=
  0 <= clock r < 2 ^ 62 /\ 0 <= clock_task r < 2 ^ 62 /\
  0 <= prev_irq_time r < 2 ^ 62 /\ 0 <= prev_steal_time_rq r < 2 ^ 62 /\
  clock_task r <= clock r.

Definition reading_small (c : clock_reading) : Prop :=
  0 <= sched_clock c < 2 ^ 62 /\ 0 <= irq_time c < 2 ^ 62 /\ 0 <= steal_clock c < 2 ^ 62.

Definition behind (r : rq) (c : clock_reading) : Prop :=
  prev_irq_time r <= irq_time c /\ prev_steal_time_rq r <= steal_clock c.

(** One step, without wrap-around, in plain arithmetic. *)
Lemma account_irq_small r c delta r' d :
  0 <= delta < 2 ^ 62 -> clock_small r -> reading_small c -> behind r c ->
  account_irq r c delta = (r', d) ->
  0 <= d <= delta /\ prev_irq_time r' = prev_irq_time r + (delta - d)
  /\ prev_irq_time r' <= irq_time c.
Proof.
  intros Hd Hr Hc Hb. unfold account_irq, clock_small, reading_small, behind in *.
  destruct CONFIG_IRQ_TIME_ACCOUNTING; intros [= <- <-]; rsimpl; [|lia].
  rewrite (wrapu_id 64 (_ - _)), (wraps_id 64 (irq_time c - _)) by lia.
  case_ifs; bool_cases; rewrite wraps_id, wrapu_id by lia; lia.
Qed.

Lemma account_steal_small r c delta r' d :
  0 <= delta < 2 ^ 62 -> clock_small r -> reading_small c ->
  prev_steal_time_rq r <= steal_clock c ->
  account_steal r c delta = (r', d) ->
  0 <= d <= delta /\ prev_steal_time_rq r' = prev_steal_time_rq r + (delta - d)
  /\ prev_steal_time_rq r' <= steal_clock c.
Proof.
  intros Hd Hr Hc Hb. unfold account_steal, clock_small, reading_small in *.
  destruct (CONFIG_PARAVIRT_TIME_ACCOUNTING && _); intros [= <- <-]; rsimpl; [|lia].
  rewrite (wraps_id 64 (steal_clock c)), (wrapu_id 64 (_ - _)), (wraps_id 64 (steal_clock c - _)) by lia.
  case_ifs; bool_cases; rewrite wraps_id, wrapu_id by lia; lia.
Qed.

(** What one update does to the four times. *)
Definition clock_step (r r' : rq) : Prop :=
  clock r <= clock r' /\ clock_task r <= clock_task r' /\
  (clock_task r' - clock_task r) + (prev_irq_time r' - prev_irq_time r)
    + (prev_steal_time_rq r' - prev_steal_time_rq r) = clock r' - clock r.

Lemma update_rq_clock_step c r :
  clock_small r -> reading_small c -> behind r c ->
  let r' := update_rq_clock c r in
  clock_small r' /\ behind r' c /\ clock_step r r'.
Proof.
  intros Hr Hc Hb. cbn zeta. unfold update_rq_clock.
  destruct (has _ _); [unfold clock_step; split_and!; try done; lia|].
  set (r0 := if CONFIG_SCHED_DEBUG then _ else r).
  assert (clock r0 = clock r /\ clock_task r0 = clock_task r /\ prev_irq_time r0 = prev_irq_time r
    /\ prev_steal_time_rq r0 = prev_steal_time_rq r) as (Hc0 & Ht0 & Hi0 & Hs0).
  { by subst r0; destruct CONFIG_SCHED_DEBUG. }
  assert (clock_small r0 /\ behind r0 c) as [Hr0 Hb0].
  { unfold clock_small, behind. by rewrite Hc0, Ht0, Hi0, Hs0. }
  unfold clock_step. rewrite <- Hc0, <- Ht0, <- Hi0, <- Hs0. clear Hc0 Ht0 Hi0 Hs0 Hr Hb.
  assert (s64 (u64 (sched_clock c - clock r0)) = sched_clock c - clock r0) as ->.
  { unfold clock_small, reading_small in *. unfold wraps, wrapu.
    rewrite Zplus_mod_idemp_l, Z.mod_small by lia. lia. }
  destruct (_ <? 0) eqn:Ed; bool_cases; [split_and!; try done; lia|].
  set (delta := sched_clock c - clock r0) in *.
  assert (u64 (clock r0 + delta) = clock r0 + delta) as Ek.
  { apply wrapu_id. unfold clock_small, reading_small in *. lia. }
  rewrite Ek. unfold update_rq_clock_task.
  set (r1 := r0 <| clock := clock r0 + delta |>).
  assert (clock_small r1) as Hr1.
  { subst r1. unfold clock_small, reading_small in *. rsimpl. lia. }
  destruct (account_irq r1 c delta) as [r2 d2] eqn:E2.
  destruct (account_steal r2 c d2) as [r3 d3] eqn:E3.
  pose proof (account_irq_sum _ _ _ _ _ E2) as (_ & Ec2 & Et2 & Es2).
  pose proof (account_steal_sum _ _ _ _ _ E3) as (_ & Ec3 & Et3 & Ei3).
  apply account_irq_small in E2 as (H2 & H2' & H2''); try done.
  2:{ unfold clock_small, reading_small in *. lia. }
  subst r1. rsimpl_in Ec2. rsimpl_in Et2. rsimpl_in Es2. rsimpl_in H2'.
  apply account_steal_small in E3 as (H3 & H3' & H3''); try done.
  2:{ unfold clock_small, reading_small in *. lia. }
  2:{ unfold clock_small, reading_small, behind in *. rsimpl. lia. }
  2:{ unfold behind in *. lia. }
  unfold clock_small, reading_small, behind in *. rsimpl.
  rewrite (wrapu_id 64 (clock_task r3 + d3)) by lia. lia.
Qed.

(** Clock readings whose interrupt and stolen times never decrease. *)
Fixpoint sources_ok (irq steal : Z) (cs : list clock_reading) : Prop :=
  match cs with
  | [] => True
  | c :: cs =>
      irq <= irq_time c /\ steal <= steal_clock c /\ reading_small c
      /\ sources_ok (irq_time c) (steal_clock c) cs
  end.

Definition update_rq_clocks (cs : list clock_reading) (r : rq) : rq :=
  fold_left (fun r c => update_rq_clock c r) cs r.

(** C7. As the comments of [update_rq_clock_task] claim, the clocks are monotonic:
    over any sequence of updates, [sched_clock] jumping backwards included,
    [rq->clock] and [rq->clock_task] never decrease and the time accounted to
    tasks, interrupts and the hypervisor adds up to the time elapsed. *)
Theorem rq_clocks_monotonic cs r irq steal :
  clock_small r -> prev_irq_time r <= irq -> prev_steal_time_rq r <= steal ->
  sources_ok irq steal cs ->
  clock_step r (update_rq_clocks cs r).
Proof.
  revert r irq steal. induction cs as [|c cs IH]; intros r irq steal Hr Hi Hs Hcs.
  { unfold clock_step. simpl. lia. }
  destruct Hcs as (Hi' & Hs' & Hc & Hcs). simpl.
  destruct (update_rq_clock_step c r) as (Hr1 & [Hb1 Hb2] & H1); [done|done|split; lia|].
  pose proof (IH _ _ _ Hr1 Hb1 Hb2 Hcs) as H2.
  unfold clock_step, update_rq_clocks in *. lia.
Qed.
End Monotone.

Lemma rq_clocks_monotonic_witness :
  let C := {| CONFIG_IRQ_TIME_ACCOUNTING := true; CONFIG_PARAVIRT_TIME_ACCOUNTING := true;
              CONFIG_SCHED_DEBUG := true; paravirt_steal_rq_enabled := true |} in
  let r := zero_rq 0 1%positive in
  let cs := [ {| sched_clock := 1000; irq_time := 300; steal_clock := 50 |};
              {| sched_clock := 900; irq_time := 400; steal_clock := 60 |};
              {| sched_clock := 1500; irq_time := 1100; steal_clock := 70 |} ] in
  clock_task (update_rq_clocks (C := C) (F := linux58_flags) cs r) = 650
  /\ clock_step r (update_rq_clocks (C := C) (F := linux58_flags) cs r).
Proof.
  split; [by vm_compute|].
  apply (rq_clocks_monotonic _ _ 0 0); vm_compute; repeat split; discriminate.
Defined.
