(* ===== verification/Settings.v ===== *)
(** * Settings: switches, knobs and statistics files (core.c)

    The static keys for schedstats and NUMA balancing with their sysctls and boot
    parameter, the legacy files cpu.shares and cpu.rt_* of a task group, and what
    cpu.stat shows.  Parsing a sysctl's text, storing shares and real-time limits
    belong to other files and are parameters. *)

From stdpp Require Import strings.
From S2P Require Import Prelude Task KernelApi Prio TaskGroup Bandwidth.

(** ** Static keys *)

(** [sched_numa_balancing], [sched_schedstats], and what the boot parameter asked
    for before keys could be patched. *)
Record sched_keys := mk_sched_keys {
  sched_numa_balancing : bool;
  sched_schedstats : bool;
  __sched_schedstats : bool
}.
#[export] Instance eta_sched_keys : EtaRecord sched_keys := fun x =>
  mk_sched_keys (sched_numa_balancing x) (sched_schedstats x) (__sched_schedstats x).
#[export] Instance upd_sched_numa_balancing : FieldUpdate sched_numa_balancing := ltac:(field_update sched_numa_balancing).
#[export] Instance upd_sched_schedstats : FieldUpdate sched_schedstats := ltac:(field_update sched_schedstats).
#[export] Instance upd___sched_schedstats : FieldUpdate __sched_schedstats := ltac:(field_update __sched_schedstats).

(** [static_branch_enable] and [static_branch_disable]. *)
Definition set_numabalancing_state (enabled : bool) (k : sched_keys) : sched_keys :=
  if enabled then k <| sched_numa_balancing := true |> else k <| sched_numa_balancing := false |>.
Definition set_schedstats (enabled : bool) (k : sched_keys) : sched_keys :=
  if enabled then k <| sched_schedstats := true |> else k <| sched_schedstats := false |>.

Definition force_schedstat_enabled (k : sched_keys) : sched_keys :=
  if negb (sched_schedstats k) then k <| sched_schedstats := true |> else k.

(** The boot parameter schedstats=; [None] is a missing value. *)
Definition setup_schedstats (str : option string) (k : sched_keys) : Z * sched_keys :=
  match str with
  | None => (0, k)
  | Some s =>
      if bool_decide (s = "enable") then (1, k <| __sched_schedstats := true |>)
      else if bool_decide (s = "disable") then (1, k <| __sched_schedstats := false |>)
      else (0, k)
  end%string.

Definition init_schedstats (k : sched_keys) : sched_keys := set_schedstats (__sched_schedstats k) k.

Section Sysctl.
(** [capable(CAP_SYS_ADMIN)], and [proc_dointvec_minmax] on a copy of the table
    whose data is the integer given: an error or 0, and the integer afterwards. *)
Context (capable_sys_admin : bool) (proc_dointvec_minmax : bool -> Z -> Z * Z).

Definition sysctl_numa_balancing (write : bool) (k : sched_keys) : Z * Z * sched_keys :=
  let state := Z.b2z (sched_numa_balancing k) in
  if write && negb capable_sys_admin then (- EPERM, state, k)
  else
    let '(err, state) := proc_dointvec_minmax write state in
    if err <? 0 then (err, state, k)
    else if write then (err, state, set_numabalancing_state (nz state) k)
    else (err, state, k).

Definition sysctl_schedstats (write : bool) (k : sched_keys) : Z * Z * sched_keys :=
  let state := Z.b2z (sched_schedstats k) in
  if write && negb capable_sys_admin then (- EPERM, state, k)
  else
    let '(err, state) := proc_dointvec_minmax write state in
    if err <? 0 then (err, state, k)
    else if write then (err, state, set_schedstats (nz state) k)
    else (err, state, k).
End Sysctl.

(** ** cpu.shares *)
Section Shares.
Context {P : PrioApi}.
(** [sched_group_set_shares] of the fair class: an error and the new shares. *)
Variable sched_group_set_shares : Z -> Z -> Z * Z.

(** Constants of the private scheduler header. *)
Definition MIN_SHARES : Z := 2.
Definition MAX_SHARES : Z := 2 ^ 18.

Definition cpu_shares_write_u64 (shares shareval : Z) : Z * Z :=
  let shareval := if scale_load_down U64_MAX <? shareval then MAX_SHARES else shareval in
  sched_group_set_shares shares (scale_load shareval).

Definition cpu_shares_read_u64 (shares : Z) : Z := u64 (scale_load_down shares).
End Shares.

(** ** cpu.rt_runtime_us and cpu.rt_period_us *)
Section RtKnobs.
(** The limits of the real-time class, and its setters and getters. *)
Context {R : Type} (sched_group_set_rt_runtime sched_group_set_rt_period : Z -> R -> Z * R)
  (sched_group_rt_runtime sched_group_rt_period : R -> Z).

Definition cpu_rt_runtime_write (val : Z) (tg : R) : Z * R := sched_group_set_rt_runtime val tg.
Definition cpu_rt_runtime_read (tg : R) : Z := sched_group_rt_runtime tg.
Definition cpu_rt_period_write_uint (rt_period_us : Z) (tg : R) : Z * R := sched_group_set_rt_period rt_period_us tg.
Definition cpu_rt_period_read_uint (tg : R) : Z := u64 (sched_group_rt_period tg).
End RtKnobs.

(** ** cpu.stat *)
Section Stat.
Context {B : BandwidthApi}.

(** What the fair class counts of a throttled group. *)
Record cfs_throttle := mk_cfs_throttle {
  nr_periods : Z;  (* int *)
  nr_throttled : Z;  (* int *)
  throttled_time : Z  (* u64, ns *)
}.

(** The lines of the file: a name and the number behind it. *)
Definition stat_line : Type := string * Z.

(** [wait_sum i] is what CPU [i] has in [tg->se[i]->statistics.wait_sum]. *)
Definition cpu_cfs_stat_show (k : sched_keys) (is_root : bool) (possible : list Z) (wait_sum : Z -> Z)
    (c : cfs_throttle) : list stat_line :=
  [("nr_periods", nr_periods c); ("nr_throttled", nr_throttled c); ("throttled_time", throttled_time c)]%string
  ++ (if sched_schedstats k && negb is_root
      then [("wait_sum", fold_left (fun ws i => u64 (ws + wait_sum i)) possible 0)]%string else []).

Definition cpu_extra_stat_show (c : cfs_throttle) : list stat_line :=
  let throttled_usec := throttled_time c / NSEC_PER_USEC in
  [("nr_periods", nr_periods c); ("nr_throttled", nr_throttled c); ("throttled_usec", throttled_usec)]%string.
End Stat.

(** ** What the switches do *)

Section SwitchFacts.
Context (capable_sys_admin : bool) (proc : bool -> Z -> Z * Z).

(** [proc_dointvec_minmax] with the limits 0 and 1 of these tables: a read leaves
    the data alone, a write that works stores a number within the limits. *)
Class ProcMinmax : Prop := {
  proc_read x : (proc false x).2 = x;
  proc_write x : 0 <= (proc true x).1 -> 0 <= (proc true x).2 <= 1
}.

Lemma b2z_nz x : 0 <= x <= 1 -> Z.b2z (nz x) = x.
Proof. intros H. assert (x = 0 \/ x = 1) as [-> | ->] by lia; done. Qed.

(** One sysctl of the two, as the switch it sets. *)
Definition switch_sysctl (write old : bool) : Z * Z * bool :=
  if write && negb capable_sys_admin then (- EPERM, Z.b2z old, old)
  else
    let '(err, state) := proc write (Z.b2z old) in
    (err, state, if write && (0 <=? err) then nz state else old).

Lemma sysctl_schedstats_switch write k :
  sysctl_schedstats capable_sys_admin proc write k =
  let '(err, shown, new) := switch_sysctl write (sched_schedstats k) in
  (err, shown, k <| sched_schedstats := new |>).
Proof.
  destruct k as [n s b]. unfold sysctl_schedstats, switch_sysctl. rsimpl. cbn [sched_schedstats].
  destruct (write && negb capable_sys_admin); [done|]. destruct (proc write (Z.b2z s)) as [err st].
  rewrite Z.ltb_antisym. destruct (0 <=? err), write; cbn; try done. by destruct (nz st).
Qed.

Lemma sysctl_numa_balancing_switch write k :
  sysctl_numa_balancing capable_sys_admin proc write k =
  let '(err, shown, new) := switch_sysctl write (sched_numa_balancing k) in
  (err, shown, k <| sched_numa_balancing := new |>).
Proof.
  destruct k as [n s b]. unfold sysctl_numa_balancing, switch_sysctl. rsimpl. cbn [sched_numa_balancing].
  destruct (write && negb capable_sys_admin); [done|]. destruct (proc write (Z.b2z n)) as [err st].
  rewrite Z.ltb_antisym. destruct (0 <=? err), write; cbn; try done. by destruct (nz st).
Qed.
End SwitchFacts.
Arguments ProcMinmax proc : assert.

(** Each sysctl sets its own switch and no other; only a privileged write that
    works sets it, to what was written, and a read afterwards shows that; an
    unprivileged write is refused. *)
Theorem switches_sysctl_sound (cap : bool) (proc : bool -> Z -> Z * Z) (k k' : sched_keys) (err shown : Z) :
  ProcMinmax proc ->
  sysctl_schedstats cap proc true k = (err, shown, k') ->
  sched_numa_balancing k' = sched_numa_balancing k /\ __sched_schedstats k' = __sched_schedstats k /\
  (cap = false -> err = - EPERM /\ k' = k) /\ (err < 0 -> k' = k) /\
  (0 <= err -> cap = true /\ sched_schedstats k' = nz shown /\
     (sysctl_schedstats cap proc false k').1.2 = shown).
Proof.
  intros Hp. rewrite sysctl_schedstats_switch. unfold switch_sysctl. cbn [andb].
  destruct cap; cbn [negb]; [|].
  - destruct (proc true _) as [e st] eqn:Ep. intros [= <- <- <-]. rsimpl.
    split; [done|]. split; [done|]. split; [done|].
    split.
    + intros He. rewrite (proj2 (Z.leb_gt _ _)) by lia. by destruct k.
    + intros He. rewrite (proj2 (Z.leb_le _ _)) by lia. split; [done|]. split; [done|].
      rewrite sysctl_schedstats_switch. unfold switch_sysctl. cbn [andb]. rsimpl.
      pose proof (proc_read proc (Z.b2z (nz st))) as Hr. destruct (proc false _) as [e2 st2]. cbn in *. subst st2.
      apply b2z_nz. pose proof (proc_write proc (Z.b2z (sched_schedstats k))) as Hw. rewrite Ep in Hw. by apply Hw.
  - intros [= <- <- <-]. rsimpl. split; [done|]. split; [done|]. split; [intros _; split; [done|by destruct k]|].
    split; [intros _; by destruct k|]. done.
Qed.

Definition simple_proc (asked : Z) (write : bool) (x : Z) : Z * Z :=
  if write then if (0 <=? asked) && (asked <=? 1) then (0, asked) else (- EINVAL, x) else (0, x).

#[export] Instance simple_proc_minmax asked : ProcMinmax (simple_proc asked).
Proof.
  split; [done|]. intros x. unfold simple_proc. destruct (_ && _) eqn:E1; cbn; [intros _; bool_cases; lia|].
  unfold EINVAL. lia.
Qed.

Lemma switches_sysctl_sound_witness :
  sched_schedstats (mk_sched_keys false true false) = nz 1 /\
  (sysctl_schedstats true (simple_proc 1) false (mk_sched_keys false true false)).1.2 = 1.
Proof.
  eapply (switches_sysctl_sound true (simple_proc 1) (mk_sched_keys false false false) _ 0 1);
    [apply simple_proc_minmax|reflexivity|lia].
Defined.

(** The boot parameter decides how the key starts. *)
Lemma schedstats_boot str k :
  sched_schedstats (init_schedstats (setup_schedstats str k).2) =
  match str with
  | Some s => if bool_decide (s = "enable") then true
              else if bool_decide (s = "disable") then false else __sched_schedstats k
  | None => __sched_schedstats k
  end%string.
Proof.
  destruct k as [n a []], str as [s|]; cbn; try done; do 2 (case_bool_decide; cbn; try done).
Qed.

(** ** Shares *)

(** [sched_group_set_shares]: the root group's shares are fixed; others get theirs
    clamped. *)
Definition clamp_shares {P : PrioApi} (is_root : bool) (old shares : Z) : Z * Z :=
  if is_root then (- EINVAL, old)
  else (0, Z.max (scale_load MIN_SHARES) (Z.min shares (scale_load MAX_SHARES))).

Section SharesFacts.
Context {P : PrioApi} {PL : PrioLaws P}.

Lemma scale_load_exact w : 0 <= w < 2 ^ 54 -> scale_load w = w * 2 ^ 10.
Proof using PL. intros Hw. rewrite scale_load_spec. apply wrapu_id. lia. Qed.

(** The guard of [cpu_shares_write_u64] is what keeps the scaling inside 64 bits. *)
Lemma shares_guard v : 0 <= v < 2 ^ 64 -> v <= scale_load_down U64_MAX <-> v < 2 ^ 54.
Proof using PL.
  intros Hv. rewrite scale_load_down_spec. replace (U64_MAX =? 0) with false by done.
  replace (Z.max 2 (U64_MAX / 2 ^ 10)) with (2 ^ 54 - 1) by done. lia.
Qed.

(** Whatever 64-bit number is written to cpu.shares of a group other than the
    root, what is read back is that number, brought into [MIN_SHARES ..
    MAX_SHARES]: the scaling to the finer weights inside neither wraps around nor
    loses a share.  Without the guard a write of [2 ^ 54] would wrap to the
    smallest weight. *)
Theorem cpu_shares_roundtrip (shares v : Z) :
  0 <= v < 2 ^ 64 ->
  let '(ret, shares') := cpu_shares_write_u64 (clamp_shares false) shares v in
  ret = 0 /\ cpu_shares_read_u64 shares' = Z.max MIN_SHARES (Z.min v MAX_SHARES) /\
  scale_load MIN_SHARES <= shares' <= scale_load MAX_SHARES /\
  scale_load (2 ^ 54) < scale_load MIN_SHARES.
Proof using PL.
  intros Hv. unfold cpu_shares_write_u64, clamp_shares, cpu_shares_read_u64.
  set (w := if scale_load_down U64_MAX <? v then MAX_SHARES else v).
  assert (0 <= w < 2 ^ 54 /\ Z.min w MAX_SHARES = Z.min v MAX_SHARES) as [Hw Em].
  { unfold w. pose proof (shares_guard v Hv) as Hg. unfold MAX_SHARES.
    destruct (Z.ltb_spec (scale_load_down U64_MAX) v); [|lia].
    assert (~ v < 2 ^ 54) by (rewrite <- Hg; lia). lia. }
  rewrite (scale_load_exact w Hw), !scale_load_exact by (unfold MIN_SHARES, MAX_SHARES; lia).
  set (x := Z.max _ _).
  assert (Ex : x = Z.max MIN_SHARES (Z.min v MAX_SHARES) * 2 ^ 10).
  { unfold x. rewrite <- Em, !Z.mul_min_distr_nonneg_r, Z.mul_max_distr_nonneg_r by lia. done. }
  set (y := Z.max MIN_SHARES (Z.min v MAX_SHARES)) in *.
  assert (2 <= y <= 2 ^ 18) by (unfold y, MIN_SHARES, MAX_SHARES; lia).
  split; [done|]. rewrite Ex. split; [|split].
  - rewrite scale_load_down_spec, (proj2 (Z.eqb_neq _ _)), Z.div_mul by lia.
    rewrite Z.max_r by lia. apply wrapu_id. lia.
  - unfold MIN_SHARES, MAX_SHARES. lia.
  - by rewrite scale_load_spec.
Qed.
End SharesFacts.

Lemma cpu_shares_roundtrip_witness :
  let '(ret, shares') := cpu_shares_write_u64 (clamp_shares false) 0 (2 ^ 54) in
  ret = 0 /\ cpu_shares_read_u64 shares' = MAX_SHARES /\ scale_load (2 ^ 54) < scale_load MIN_SHARES.
Proof.
  assert (W' := cpu_shares_roundtrip 0 (2 ^ 54) ltac:(lia)).
  destruct (cpu_shares_write_u64 (clamp_shares false) 0 (2 ^ 54)) as [ret shares'].
  destruct W' as (H1 & H2 & _ & H4). split; [exact H1|]. split; [rewrite H2; reflexivity|exact H4].
Defined.

(** The sum over the CPUs wraps once, not per addition. *)
Lemma wait_sum_total (wait_sum : Z -> Z) (l : list Z) a :
  fold_left (fun ws i => u64 (ws + wait_sum i)) l (u64 a) = u64 (a + Zsum (wait_sum <$> l)).
Proof.
  revert a. induction l as [|i l IH]; intros a; cbn [fold_left fmap list_fmap]; [by rewrite Z.add_0_r|].
  rewrite wrapu_add_l, IH, Zsum_cons. f_equal. lia.
Qed.
