(* ===== verification/Uclamp.v ===== *)
(** * Uclamp: utilization clamping (core.c, CONFIG_UCLAMP_TASK)

    Requested and effective clamps of tasks, their aggregation in the buckets of
    a run queue, the sysctl that sets the system defaults and the two
    operations of [sched_setattr] on clamps.  The proofs about the aggregation
    are in [UclampFacts]. *)

From S2P Require Import Prelude Task KernelApi Rq Prio.

(** ** Build options and macros from other headers *)

Class UclampApi := {
  UCLAMP_BUCKETS : Z;
  CONFIG_UCLAMP_TASK_GROUP : bool;
  DIV_ROUND_CLOSEST : Z -> Z -> Z;
  bits_per : Z -> Z
}.

(** [CONFIG_UCLAMP_BUCKETS_COUNT] ranges over 5..20; [bits_per n] bits hold [n]. *)
Class UclampLaws (U : UclampApi) : Prop := {
  uclamp_buckets_range : 5 <= UCLAMP_BUCKETS <= 20;
  div_round_closest_spec x d : 0 <= x -> 0 < d -> DIV_ROUND_CLOSEST x d = (x + d / 2) / d;
  bits_per_spec n : 0 < n -> 0 <= bits_per n /\ n < 2 ^ bits_per n
}.

Definition uclamp_config (buckets : Z) : UclampApi := {|
  UCLAMP_BUCKETS := buckets;
  CONFIG_UCLAMP_TASK_GROUP := true;
  DIV_ROUND_CLOSEST x d := (x + d / 2) / d;
  bits_per n := if n =? 0 then 1 else Z.log2 n + 1
|}.

Lemma uclamp_config_laws buckets : 5 <= buckets <= 20 -> UclampLaws (uclamp_config buckets).
Proof.
  intros H. split; [done|done|]. intros n Hn. simpl.
  rewrite (proj2 (Z.eqb_neq n 0)) by lia.
  pose proof (Z.log2_spec n Hn). pose proof (Z.log2_nonneg n).
  rewrite <- Z.add_1_r in *. lia.
Qed.

(** Bits of [sched_attr::sched_flags] (uapi/linux/sched.h). *)
Class AttrFlagApi := {
  SCHED_FLAG_RESET_ON_FORK : Z;
  SCHED_FLAG_KEEP_POLICY : Z;
  SCHED_FLAG_KEEP_PARAMS : Z;
  SCHED_FLAG_UTIL_CLAMP_MIN : Z;
  SCHED_FLAG_UTIL_CLAMP_MAX : Z;
  SCHED_FLAG_UTIL_CLAMP : Z;
  SCHED_FLAG_ALL : Z;
  SCHED_FLAG_SUGOV : Z
}.

(** The two clamp flags are different bits and [SCHED_FLAG_UTIL_CLAMP] is both. *)
Class AttrFlagLaws (A : AttrFlagApi) : Prop := {
  util_clamp_bits : exists i j, 0 <= i /\ 0 <= j /\ i <> j /\
    SCHED_FLAG_UTIL_CLAMP_MIN = 2 ^ i /\ SCHED_FLAG_UTIL_CLAMP_MAX = 2 ^ j;
  util_clamp_both :
    SCHED_FLAG_UTIL_CLAMP = Z.lor SCHED_FLAG_UTIL_CLAMP_MIN SCHED_FLAG_UTIL_CLAMP_MAX
}.

#[export] Instance linux58_attr_flags : AttrFlagApi := {|
  SCHED_FLAG_RESET_ON_FORK := 0x01; SCHED_FLAG_KEEP_POLICY := 0x08;
  SCHED_FLAG_KEEP_PARAMS := 0x10; SCHED_FLAG_UTIL_CLAMP_MIN := 0x20;
  SCHED_FLAG_UTIL_CLAMP_MAX := 0x40; SCHED_FLAG_UTIL_CLAMP := 0x60;
  SCHED_FLAG_ALL := 0x7f; SCHED_FLAG_SUGOV := 0x10000000
|}.

#[export] Instance linux58_attr_flag_laws : AttrFlagLaws linux58_attr_flags.
Proof. split; [|done]. exists 5, 6. repeat split; lia. Qed.

(** [struct sched_attr] (uapi/linux/sched/types.h). *)
Record sched_attr := mk_sched_attr {
  sched_policy : Z;  (* u32 *)
  sched_flags : Z;  (* u64 *)
  sched_nice : Z;  (* s32 *)
  sched_priority : Z;  (* u32 *)
  sched_runtime : Z;  (* u64 *)
  sched_deadline : Z;  (* u64 *)
  sched_period : Z;  (* u64 *)
  sched_util_min : Z;  (* u32 *)
  sched_util_max : Z  (* u32 *)
}.
#[export] Instance eta_sched_attr : EtaRecord sched_attr := fun x =>
  mk_sched_attr (sched_policy x) (sched_flags x) (sched_nice x) (sched_priority x)
    (sched_runtime x) (sched_deadline x) (sched_period x) (sched_util_min x)
    (sched_util_max x).
#[export] Instance upd_sched_policy : FieldUpdate sched_policy := ltac:(field_update sched_policy).
#[export] Instance upd_sched_flags : FieldUpdate sched_flags := ltac:(field_update sched_flags).
#[export] Instance upd_sched_nice : FieldUpdate sched_nice := ltac:(field_update sched_nice).
#[export] Instance upd_sched_priority : FieldUpdate sched_priority := ltac:(field_update sched_priority).
#[export] Instance upd_sched_runtime : FieldUpdate sched_runtime := ltac:(field_update sched_runtime).
#[export] Instance upd_sched_deadline : FieldUpdate sched_deadline := ltac:(field_update sched_deadline).
#[export] Instance upd_sched_period : FieldUpdate sched_period := ltac:(field_update sched_period).
#[export] Instance upd_sched_util_min : FieldUpdate sched_util_min := ltac:(field_update sched_util_min).
#[export] Instance upd_sched_util_max : FieldUpdate sched_util_max := ltac:(field_update sched_util_max).

(** The system-wide clamp variables of core.c. *)
Record uclamp_sys := mk_uclamp_sys {
  sysctl_sched_uclamp_util_min : Z;  (* unsigned int *)
  sysctl_sched_uclamp_util_max : Z;  (* unsigned int *)
  uclamp_default_min : uclamp_se;  (* uclamp_default[UCLAMP_MIN] *)
  uclamp_default_max : uclamp_se  (* uclamp_default[UCLAMP_MAX] *)
}.
#[export] Instance eta_uclamp_sys : EtaRecord uclamp_sys := fun x =>
  mk_uclamp_sys (sysctl_sched_uclamp_util_min x) (sysctl_sched_uclamp_util_max x)
    (uclamp_default_min x) (uclamp_default_max x).
#[export] Instance upd_sysctl_sched_uclamp_util_min : FieldUpdate sysctl_sched_uclamp_util_min := ltac:(field_update sysctl_sched_uclamp_util_min).
#[export] Instance upd_sysctl_sched_uclamp_util_max : FieldUpdate sysctl_sched_uclamp_util_max := ltac:(field_update sysctl_sched_uclamp_util_max).
#[export] Instance upd_uclamp_default_min : FieldUpdate uclamp_default_min := ltac:(field_update uclamp_default_min).
#[export] Instance upd_uclamp_default_max : FieldUpdate uclamp_default_max := ltac:(field_update uclamp_default_max).

Definition uclamp_default (y : uclamp_sys) (id : uclamp_id) : uclamp_se :=
  match id with UCLAMP_MIN => uclamp_default_min y | UCLAMP_MAX => uclamp_default_max y end.

(** What [uclamp_tg_restrict] looks at in the task's group. *)
Record tg_view := {
  tg_is_autogroup : bool;
  tg_is_root : bool;
  tg_uclamp : uclamp_id -> uclamp_se
}.

Section Uclamp.
Context {U : UclampApi} {F : FlagApi}.

(** ** Buckets *)

Definition UCLAMP_BUCKET_DELTA : Z := DIV_ROUND_CLOSEST SCHED_CAPACITY_SCALE UCLAMP_BUCKETS.

Definition uclamp_bucket_id (clamp_value : Z) : Z := clamp_value / UCLAMP_BUCKET_DELTA.

Definition uclamp_bucket_base_value (clamp_value : Z) : Z :=
  u32 (UCLAMP_BUCKET_DELTA * uclamp_bucket_id clamp_value).

Definition uclamp_none (id : uclamp_id) : Z :=
  match id with UCLAMP_MIN => 0 | UCLAMP_MAX => SCHED_CAPACITY_SCALE end.

(** The stores truncate to the width of the bit fields. *)
Definition uclamp_se_set (uc_se : uclamp_se) (value : Z) (user_defined : bool) : uclamp_se :=
  mk_uclamp_se (wrapu (bits_per SCHED_CAPACITY_SCALE) value)
    (wrapu (bits_per UCLAMP_BUCKETS) (uclamp_bucket_id value))
    (uc_active uc_se) user_defined.

(** ** The value of a run queue *)

Definition uclamp_idle_value (r : rq) (id : uclamp_id) (clamp_value : Z) : rq * Z :=
  match id with
  | UCLAMP_MAX => (r <| uclamp_flags := Z.lor (uclamp_flags r) UCLAMP_FLAG_IDLE |>, clamp_value)
  | UCLAMP_MIN => (r, uclamp_none UCLAMP_MIN)
  end.

Definition set_ucr_value (r : rq) (id : uclamp_id) (v : Z) : rq :=
  set_rq_uclamp r id ((rq_uclamp r id) <| ucr_value := v |>).

Definition set_ucr_bucket (r : rq) (id : uclamp_id) (b : nat) (bk : uclamp_bucket) : rq :=
  set_rq_uclamp r id ((rq_uclamp r id) <| ucr_bucket := <[b := bk]> (ucr_bucket (rq_uclamp r id)) |>).

Definition uclamp_idle_reset (r : rq) (id : uclamp_id) (clamp_value : Z) : rq :=
  if negb (has (uclamp_flags r) UCLAMP_FLAG_IDLE) then r
  else set_ucr_value r id clamp_value.

(** The loop of [uclamp_rq_max_value] over the first [n] buckets, from the top;
    [None] is a read past the array. *)
Fixpoint top_bucket (bucket : list uclamp_bucket) (n : nat) : option (option Z) :=
  match n with
  | O => Some None
  | S bucket_id =>
      bk ← bucket !! bucket_id;
      if negb (nz (bkt_tasks bk)) then top_bucket bucket bucket_id
      else Some (Some (bkt_value bk))
  end.

Definition uclamp_rq_max_value (r : rq) (id : uclamp_id) (clamp_value : Z) : option (rq * Z) :=
  found ← top_bucket (ucr_bucket (rq_uclamp r id)) (Z.to_nat UCLAMP_BUCKETS);
  match found with
  | Some v => Some (r, v)
  | None => Some (uclamp_idle_value r id clamp_value)
  end.

(** ** Effective clamps *)

Definition uclamp_tg_restrict (g : tg_view) (t : task_struct) (id : uclamp_id) : uclamp_se :=
  let uc_req := uclamp_req t id in
  if CONFIG_UCLAMP_TASK_GROUP then
    if tg_is_autogroup g then uc_req
    else if tg_is_root g then uc_req
    else
      let uc_max := tg_uclamp g id in
      if (uc_value uc_max <? uc_value uc_req) || negb (uc_user_defined uc_req)
      then uc_max else uc_req
  else uc_req.

Definition uclamp_eff_get (y : uclamp_sys) (g : tg_view) (t : task_struct) (id : uclamp_id)
    : uclamp_se :=
  let uc_req := uclamp_tg_restrict g t id in
  let uc_max := uclamp_default y id in
  if uc_value uc_max <? uc_value uc_req then uc_max else uc_req.

Definition uclamp_eff_value (y : uclamp_sys) (g : tg_view) (t : task_struct) (id : uclamp_id) : Z :=
  if uc_active (uclamp t id) then uc_value (uclamp t id)
  else uc_value (uclamp_eff_get y g t id).

(** ** Reference counting; [None] is an access outside the bucket array *)

Definition uclamp_rq_inc_id (y : uclamp_sys) (g : tg_view) (r : rq) (t : task_struct)
    (id : uclamp_id) : option (rq * task_struct) :=
  let uc_se := uclamp_eff_get y g t id in
  let b := Z.to_nat (uc_bucket_id uc_se) in
  bk ← ucr_bucket (rq_uclamp r id) !! b;
  let bk := bk <| bkt_tasks := bkt_tasks bk + 1 |> in
  let r := set_ucr_bucket r id b bk in
  let uc_se := uc_se <| uc_active := true |> in
  let t := set_uclamp t id uc_se in
  let r := uclamp_idle_reset r id (uc_value uc_se) in
  let r := if (bkt_tasks bk =? 1) || (bkt_value bk <? uc_value uc_se)
           then set_ucr_bucket r id b (bk <| bkt_value := uc_value uc_se |>) else r in
  let r := if ucr_value (rq_uclamp r id) <? uc_value uc_se
           then set_ucr_value r id (uc_value uc_se) else r in
  Some (r, t).

Definition uclamp_rq_dec_id (r : rq) (t : task_struct) (id : uclamp_id)
    : option (rq * task_struct) :=
  let uc_se := uclamp t id in
  let b := Z.to_nat (uc_bucket_id uc_se) in
  bk ← ucr_bucket (rq_uclamp r id) !! b;
  let bk := if nz (bkt_tasks bk) then bk <| bkt_tasks := bkt_tasks bk - 1 |> else bk in
  let r := set_ucr_bucket r id b bk in
  let t := set_uclamp t id (uc_se <| uc_active := false |>) in
  if nz (bkt_tasks bk) then Some (r, t)
  else
    let rq_clamp := ucr_value (rq_uclamp r id) in
    if rq_clamp <=? bkt_value bk then
      '(r, bkt_clamp) ← uclamp_rq_max_value r id (uc_value uc_se);
      Some (set_ucr_value r id bkt_clamp, t)
    else Some (r, t).

(** [for_each_clamp_id] visits UCLAMP_MIN, then UCLAMP_MAX. *)
Definition uclamp_rq_inc (uclamp_enabled : sched_class -> bool) (y : uclamp_sys) (g : tg_view)
    (r : rq) (t : task_struct) : option (rq * task_struct) :=
  if negb (uclamp_enabled (t_sched_class t)) then Some (r, t)
  else
    '(r, t) ← uclamp_rq_inc_id y g r t UCLAMP_MIN;
    '(r, t) ← uclamp_rq_inc_id y g r t UCLAMP_MAX;
    let r := if has (uclamp_flags r) UCLAMP_FLAG_IDLE
             then r <| uclamp_flags := andnot (uclamp_flags r) UCLAMP_FLAG_IDLE |> else r in
    Some (r, t).

Definition uclamp_rq_dec (uclamp_enabled : sched_class -> bool) (r : rq) (t : task_struct)
    : option (rq * task_struct) :=
  if negb (uclamp_enabled (t_sched_class t)) then Some (r, t)
  else
    '(r, t) ← uclamp_rq_dec_id r t UCLAMP_MIN;
    uclamp_rq_dec_id r t UCLAMP_MAX.

(** [uclamp_update_active], with the run queue of the task locked. *)
Definition uclamp_update_active (y : uclamp_sys) (g : tg_view) (r : rq) (t : task_struct)
    (id : uclamp_id) : option (rq * task_struct) :=
  if uc_active (uclamp t id) then
    '(r, t) ← uclamp_rq_dec_id r t id;
    uclamp_rq_inc_id y g r t id
  else Some (r, t).

(** ** System defaults *)

(** [sysctl_sched_uclamp_handler].  [proc_dointvec] returns its result and the
    values it leaves in the two variables; the last component says whether the
    root group must be updated. *)
Definition sysctl_sched_uclamp_handler
    (proc_dointvec : Z * Z -> Z * (Z * Z)) (write : bool) (y : uclamp_sys)
    : Z * uclamp_sys * bool :=
  let old_min := sysctl_sched_uclamp_util_min y in
  let old_max := sysctl_sched_uclamp_util_max y in
  let undo (y : uclamp_sys) :=
    y <| sysctl_sched_uclamp_util_min := u32 (s32 old_min) |>
      <| sysctl_sched_uclamp_util_max := u32 (s32 old_max) |> in
  let '(result, (new_min, new_max)) := proc_dointvec (old_min, old_max) in
  let y := y <| sysctl_sched_uclamp_util_min := u32 new_min |>
             <| sysctl_sched_uclamp_util_max := u32 new_max |> in
  if nz result then (result, undo y, false)
  else if negb write then (0, y, false)
  else if (sysctl_sched_uclamp_util_max y <? sysctl_sched_uclamp_util_min y)
       || (SCHED_CAPACITY_SCALE <? sysctl_sched_uclamp_util_max y)
  then (- EINVAL, undo y, false)
  else
    let min_changed := negb (s32 old_min =? s32 (sysctl_sched_uclamp_util_min y)) in
    let max_changed := negb (s32 old_max =? s32 (sysctl_sched_uclamp_util_max y)) in
    let y := if min_changed
      then y <| uclamp_default_min :=
             uclamp_se_set (uclamp_default_min y) (sysctl_sched_uclamp_util_min y) false |>
      else y in
    let y := if max_changed
      then y <| uclamp_default_max :=
             uclamp_se_set (uclamp_default_max y) (sysctl_sched_uclamp_util_max y) false |>
      else y in
    (0, y, min_changed || max_changed).

(** [init_uclamp]: the defaults and a run queue; [UCLAMP_BUCKETS] empty buckets. *)
Definition init_uclamp_sys (y : uclamp_sys) : uclamp_sys :=
  let uc_max := uclamp_se_set zero_uclamp_se (uclamp_none UCLAMP_MAX) false in
  y <| uclamp_default_min := uc_max |> <| uclamp_default_max := uc_max |>.

Definition init_uclamp_rq (r : rq) : rq :=
  let zero := mk_uclamp_rq 0 (replicate (Z.to_nat UCLAMP_BUCKETS) (mk_uclamp_bucket 0 0)) in
  r <| rq_uclamp_min := zero |> <| rq_uclamp_max := zero |> <| uclamp_flags := 0 |>.

(** [uclamp_fork]. *)
Definition uclamp_fork (t : task_struct) : task_struct :=
  let clear (t : task_struct) id := set_uclamp t id ((uclamp t id) <| uc_active := false |>) in
  let t := clear (clear t UCLAMP_MIN) UCLAMP_MAX in
  if negb (sched_reset_on_fork t) then t
  else
    let reset (t : task_struct) id :=
      set_uclamp_req t id (uclamp_se_set (uclamp_req t id) (uclamp_none id) false) in
    reset (reset t UCLAMP_MIN) UCLAMP_MAX.
End Uclamp.

(** ** Clamps of sched_setattr *)
Section SetClamps.
Context {P : PrioApi} {U : UclampApi} {A : AttrFlagApi}.

Definition uclamp_validate (t : task_struct) (attr : sched_attr) : Z :=
  let lower_bound := uc_value (uclamp_req t UCLAMP_MIN) in
  let upper_bound := uc_value (uclamp_req t UCLAMP_MAX) in
  let lower_bound := if has (sched_flags attr) SCHED_FLAG_UTIL_CLAMP_MIN
                     then sched_util_min attr else lower_bound in
  let upper_bound := if has (sched_flags attr) SCHED_FLAG_UTIL_CLAMP_MAX
                     then sched_util_max attr else upper_bound in
  if upper_bound <? lower_bound then - EINVAL
  else if SCHED_CAPACITY_SCALE <? upper_bound then - EINVAL
  else 0.

(** One turn of the first loop of [__setscheduler_uclamp]. *)
Definition reset_default_clamp (t : task_struct) (id : uclamp_id) : task_struct :=
  let uc_se := uclamp_req t id in
  if uc_user_defined uc_se then t
  else
    let clamp_value :=
      if rt_task t && bool_decide (id = UCLAMP_MIN) then uclamp_none UCLAMP_MAX
      else uclamp_none id in
    set_uclamp_req t id (uclamp_se_set uc_se clamp_value false).

Definition __setscheduler_uclamp (t : task_struct) (attr : sched_attr) : task_struct :=
  let t := reset_default_clamp (reset_default_clamp t UCLAMP_MIN) UCLAMP_MAX in
  if negb (has (sched_flags attr) SCHED_FLAG_UTIL_CLAMP) then t
  else
    let t := if has (sched_flags attr) SCHED_FLAG_UTIL_CLAMP_MIN
      then set_uclamp_req t UCLAMP_MIN
             (uclamp_se_set (uclamp_req t UCLAMP_MIN) (sched_util_min attr) true)
      else t in
    if has (sched_flags attr) SCHED_FLAG_UTIL_CLAMP_MAX
    then set_uclamp_req t UCLAMP_MAX
           (uclamp_se_set (uclamp_req t UCLAMP_MAX) (sched_util_max attr) true)
    else t.
End SetClamps.
