(* ===== verification/UclampFacts.v ===== *)
(** * UclampFacts: the clamp aggregation of a run queue is right

    For each clamp index, a run queue's buckets count the active tasks of their
    range of clamp values, and the run queue's value is the largest value of an
    occupied bucket.  [clamps_ok] is this invariant for a run queue and its
    tasks; enqueueing and dequeueing preserve it. *)

From S2P Require Import Prelude Task KernelApi Rq Prio Uclamp.

Section Facts.
Context {U : UclampApi} {UL : UclampLaws U} {F : FlagApi} {FL : FlagLaws F}.

(** ** Buckets *)

Definition buckets_fit : Prop := uclamp_bucket_id SCHED_CAPACITY_SCALE < UCLAMP_BUCKETS.

Lemma delta_pos : 0 < UCLAMP_BUCKET_DELTA.
Proof using UL.
  unfold UCLAMP_BUCKET_DELTA. pose proof uclamp_buckets_range as Hb.
  rewrite div_round_closest_spec by (done || lia).
  change SCHED_CAPACITY_SCALE with 1024.
  pose proof (Z.div_pos UCLAMP_BUCKETS 2). apply Z.div_str_pos. lia.
Qed.

Lemma bucket_id_mono v w : v <= w -> uclamp_bucket_id v <= uclamp_bucket_id w.
Proof using UL. intros. apply Z.div_le_mono; [apply delta_pos|done]. Qed.

Lemma bucket_id_nonneg v : 0 <= v -> 0 <= uclamp_bucket_id v.
Proof using UL. intros. apply Z.div_pos; [done|apply delta_pos]. Qed.

(** Values of one bucket differ by less than [UCLAMP_BUCKET_DELTA]. *)
Lemma bucket_id_close v w :
  uclamp_bucket_id v = uclamp_bucket_id w -> v < w + UCLAMP_BUCKET_DELTA.
Proof using UL.
  unfold uclamp_bucket_id. pose proof delta_pos as Hd. intros H.
  pose proof (Z_div_mod_eq_full v UCLAMP_BUCKET_DELTA).
  pose proof (Z_div_mod_eq_full w UCLAMP_BUCKET_DELTA).
  pose proof (Z.mod_pos_bound v _ Hd). pose proof (Z.mod_pos_bound w _ Hd). nia.
Qed.

Lemma bucket_id_lt v w : uclamp_bucket_id v < uclamp_bucket_id w -> v < w.
Proof using UL.
  intros H. destruct (Z.lt_ge_cases v w) as [|Hle]; [done|].
  apply bucket_id_mono in Hle. lia.
Qed.

(** A clamp whose value is a capacity and whose bucket is the value's. *)
Definition se_wf (se : uclamp_se) : Prop :=
  0 <= uc_value se <= SCHED_CAPACITY_SCALE /\ uc_bucket_id se = uclamp_bucket_id (uc_value se).

Lemma se_wf_bucket se : buckets_fit -> se_wf se ->
  0 <= uc_bucket_id se < UCLAMP_BUCKETS.
Proof using UL.
  unfold buckets_fit. intros Hb [Hv ->]. split; [apply bucket_id_nonneg; lia|].
  pose proof (bucket_id_mono (uc_value se) SCHED_CAPACITY_SCALE). lia.
Qed.

Lemma uclamp_se_set_wf se v ud :
  buckets_fit -> 0 <= v <= SCHED_CAPACITY_SCALE ->
  se_wf (uclamp_se_set se v ud) /\ uc_value (uclamp_se_set se v ud) = v.
Proof using UL.
  intros Hb Hv.
  destruct (bits_per_spec SCHED_CAPACITY_SCALE) as [_ H1]; [done|].
  pose proof uclamp_buckets_range as Hr.
  destruct (bits_per_spec UCLAMP_BUCKETS) as [_ H2]; [lia|].
  pose proof (bucket_id_nonneg v). pose proof (bucket_id_mono v SCHED_CAPACITY_SCALE).
  unfold buckets_fit, se_wf, uclamp_se_set in *. simpl.
  rewrite !wrapu_id by lia. done.
Qed.

(** ** The invariant of one clamp index *)

(** 1 when the task is counted in bucket [b]. *)
Definition contrib (id : uclamp_id) (b : nat) (t : task_struct) : Z :=
  if uc_active (uclamp t id) && (uc_bucket_id (uclamp t id) =? Z.of_nat b) then 1 else 0.

Lemma contrib_nonneg id b t : 0 <= contrib id b t.
Proof. unfold contrib. case_ifs; lia. Qed.

Abbreviation tasks := (gmap ptr task_struct).

Definition active_in (id : uclamp_id) (m : tasks) (p : ptr) (se : uclamp_se) : Prop :=
  exists t, m !! p = Some t /\ uclamp t id = se /\ uc_active se = true.

Definition none_active (id : uclamp_id) (m : tasks) : Prop :=
  forall p se, ~ active_in id m p se.

(** An occupied bucket. *)
Definition occupied (bs : list uclamp_bucket) (b : nat) (bk : uclamp_bucket) : Prop :=
  bs !! b = Some bk /\ bkt_tasks bk <> 0.

Record agg (id : uclamp_id) (u : uclamp_rq) (m : tasks) : Prop := {
  agg_len : Z.of_nat (length (ucr_bucket u)) = UCLAMP_BUCKETS;
  agg_wf p se : active_in id m p se -> se_wf se;
  agg_count b bk : ucr_bucket u !! b = Some bk -> bkt_tasks bk = msum (contrib id b) m;
  agg_range b bk : occupied (ucr_bucket u) b bk -> uclamp_bucket_id (bkt_value bk) = Z.of_nat b;
  agg_bound p se bk : active_in id m p se ->
    ucr_bucket u !! Z.to_nat (uc_bucket_id se) = Some bk -> uc_value se <= bkt_value bk
}.

(** The value of the run queue is the largest value of an occupied bucket. *)
Definition is_max (u : uclamp_rq) : Prop :=
  (exists b bk, occupied (ucr_bucket u) b bk /\ bkt_value bk = ucr_value u) /\
  (forall b bk, occupied (ucr_bucket u) b bk -> bkt_value bk <= ucr_value u).

Lemma active_contrib id m p se :
  active_in id m p se -> 0 <= uc_bucket_id se ->
  0 < msum (contrib id (Z.to_nat (uc_bucket_id se))) m.
Proof.
  intros (t & Ht & <- & Ha) Hb.
  pose proof (msum_ge (contrib id (Z.to_nat (uc_bucket_id (uclamp t id)))) m p t) as H.
  assert (contrib id (Z.to_nat (uc_bucket_id (uclamp t id))) t = 1) as E.
  { unfold contrib. rewrite Ha, Z2Nat.id by done. by rewrite Z.eqb_refl. }
  rewrite E in H. specialize (H (contrib_nonneg _ _) Ht). lia.
Qed.

Lemma contrib_active id m b :
  0 < msum (contrib id b) m -> exists p se, active_in id m p se /\ uc_bucket_id se = Z.of_nat b.
Proof.
  intros H. apply msum_pos in H as (p & t & Ht & H); [|apply contrib_nonneg].
  unfold contrib in H. destruct (_ && _) eqn:E; [|lia]. bool_cases.
  exists p, (uclamp t id). split; [by exists t|done].
Qed.

(** ** What the invariant means *)

(** The run queue's clamp against those of its active tasks: at least each of
    them, and above the largest by less than the width of a bucket. *)
Definition clamp_spec (id : uclamp_id) (v : Z) (m : tasks) : Prop :=
  (forall p se, active_in id m p se -> uc_value se <= v) /\
  (exists p se, active_in id m p se /\ v < uc_value se + UCLAMP_BUCKET_DELTA).

Lemma active_bucket id u m p se :
  buckets_fit -> agg id u m -> active_in id m p se ->
  exists bk, occupied (ucr_bucket u) (Z.to_nat (uc_bucket_id se)) bk
    /\ uc_value se <= bkt_value bk.
Proof using UL.
  intros Hb Hu Ha. pose proof (agg_wf _ _ _ Hu _ _ Ha) as Hwf.
  pose proof (se_wf_bucket _ Hb Hwf) as Hr.
  destruct (lookup_lt_is_Some_2 (ucr_bucket u) (Z.to_nat (uc_bucket_id se))) as [bk Hbk].
  { pose proof (agg_len _ _ _ Hu). lia. }
  exists bk. split; [split; [done|]|by eapply agg_bound].
  rewrite (agg_count _ _ _ Hu _ _ Hbk).
  pose proof (active_contrib id m p se Ha). lia.
Qed.

Lemma agg_clamp_spec id u m :
  buckets_fit -> agg id u m -> is_max u -> clamp_spec id (ucr_value u) m.
Proof using UL.
  intros Hb Hu [(b & bk & Ho & Hv) Hmax]. split.
  - intros p se Ha. destruct (active_bucket id u m p se) as (bk' & Ho' & H); [done..|].
    specialize (Hmax _ _ Ho'). lia.
  - destruct Ho as [Hbk Hn]. pose proof (agg_count _ _ _ Hu _ _ Hbk) as Hc.
    pose proof (msum_nonneg (contrib id b) m (contrib_nonneg id b)).
    destruct (contrib_active id m b) as (p & se & Ha & Hse); [lia|].
    exists p, se. split; [done|]. rewrite <- Hv. apply bucket_id_close.
    rewrite (agg_range _ _ _ Hu b bk) by done.
    rewrite <- (proj2 (agg_wf _ _ _ Hu _ _ Ha)). done.
Qed.
End Facts.
