(* ===== verification/UclampInv.v ===== *)
(** * UclampInv: enqueueing and dequeueing keep the clamp aggregation right

    The two reference-counting operations on one clamp index are first shown
    equal to functions of the run queue's clamp record alone ([inc_u],
    [dec_u]); these preserve the invariant of [UclampFacts], and so do
    [uclamp_rq_inc] and [uclamp_rq_dec] for both indices and the idle flag. *)

From S2P Require Import Prelude Task KernelApi Rq Prio Uclamp UclampFacts.

Section Inv.
Context {U : UclampApi} {UL : UclampLaws U} {F : FlagApi} {FL : FlagLaws F}.
Abbreviation tasks := (gmap ptr task_struct).

Definition idle_flag (r : rq) : bool := has (uclamp_flags r) UCLAMP_FLAG_IDLE.

(** ** Changing one task *)

Definition activated (se : uclamp_se) : uclamp_se := se <| uc_active := true |>.
Definition deactivated (se : uclamp_se) : uclamp_se := se <| uc_active := false |>.

Lemma active_in_insert id m p t q se :
  active_in id (<[p:=t]> m) q se <->
  (q = p /\ uclamp t id = se /\ uc_active se = true) \/ (q <> p /\ active_in id m q se).
Proof.
  unfold active_in. destruct (decide (q = p)) as [->|Hne].
  - split.
    + intros (x & Hx & H). rewrite lookup_insert_eq in Hx. simplify_eq. by left.
    + intros [(_ & H)|(? & _)]; [|done]. exists t. by rewrite lookup_insert_eq.
  - rewrite lookup_insert_ne by done. split; [by right|]. by intros [(-> & _)|(_ & ?)].
Qed.

Lemma contrib_ext id b t t' : uclamp t' id = uclamp t id -> contrib id b t' = contrib id b t.
Proof. unfold contrib. by intros ->. Qed.

(** A change of the other clamp index is not seen. *)
Lemma agg_other id u m p t t' :
  m !! p = Some t -> uclamp t' id = uclamp t id -> agg id u m -> agg id u (<[p:=t']> m).
Proof.
  intros Hp He Hu.
  assert (forall q se, active_in id (<[p:=t']> m) q se -> active_in id m q se) as Ha.
  { intros q se [(-> & <- & H)|(_ & H)]%active_in_insert; [|done].
    exists t. rewrite <- He. done. }
  split.
  - apply Hu.
  - intros q se H. eapply agg_wf; eauto.
  - intros b bk Hb. rewrite (msum_update _ _ _ _ _ Hp), (contrib_ext id b t t') by done.
    rewrite (agg_count _ _ _ Hu b bk) by done. lia.
  - intros b bk H. by eapply agg_range.
  - intros q se bk H Hb. eapply agg_bound; eauto.
Qed.

Lemma none_active_other id m p t t' :
  m !! p = Some t -> uclamp t' id = uclamp t id ->
  none_active id m -> none_active id (<[p:=t']> m).
Proof.
  intros Hp He Hn q se [(-> & <- & H)|(_ & H)]%active_in_insert; [|by eapply Hn].
  apply (Hn p (uclamp t id)). exists t. rewrite <- He. done.
Qed.

(** ** One more active task *)

Definition inc_u (idle : bool) (u : uclamp_rq) (se : uclamp_se) (bk : uclamp_bucket) : uclamp_rq :=
  let v := uc_value se in
  let bv := if (bkt_tasks bk + 1 =? 1) || (bkt_value bk <? v) then v else bkt_value bk in
  let cur := if idle then v else ucr_value u in
  mk_uclamp_rq (if cur <? v then v else cur)
    (<[Z.to_nat (uc_bucket_id se) := mk_uclamp_bucket bv (bkt_tasks bk + 1)]> (ucr_bucket u)).

Lemma set_rq_uclamp_twice r id u u' :
  set_rq_uclamp (set_rq_uclamp r id u) id u' = set_rq_uclamp r id u'.
Proof. by destruct id. Qed.

Lemma set_rq_uclamp_flags r id u : uclamp_flags (set_rq_uclamp r id u) = uclamp_flags r.
Proof. by destruct id. Qed.

Lemma set_ucr_bucket_eq r id b bk :
  set_ucr_bucket r id b bk = set_rq_uclamp r id
    (mk_uclamp_rq (ucr_value (rq_uclamp r id)) (<[b := bk]> (ucr_bucket (rq_uclamp r id)))).
Proof. done. Qed.

Lemma set_ucr_value_eq r id v :
  set_ucr_value r id v = set_rq_uclamp r id (mk_uclamp_rq v (ucr_bucket (rq_uclamp r id))).
Proof. done. Qed.

Create Rewrite HintDb ucrw.
Hint Rewrite set_rq_uclamp_twice set_rq_uclamp_flags set_ucr_bucket_eq set_ucr_value_eq
  rq_uclamp_set : ucrw.

Lemma inc_id_inc_u y g r t id bk :
  ucr_bucket (rq_uclamp r id) !! Z.to_nat (uc_bucket_id (uclamp_eff_get y g t id)) = Some bk ->
  uclamp_rq_inc_id y g r t id =
  Some (set_rq_uclamp r id (inc_u (idle_flag r) (rq_uclamp r id) (uclamp_eff_get y g t id) bk),
        set_uclamp t id (activated (uclamp_eff_get y g t id))).
Proof.
  intros Hbk. unfold uclamp_rq_inc_id. rewrite Hbk. cbn [mbind option_bind]. f_equal. f_equal.
  unfold uclamp_idle_reset, inc_u, idle_flag.
  set (se := uclamp_eff_get y g t id) in *.
  change (uc_value (se <| uc_active := true |>)) with (uc_value se).
  change (bkt_tasks (bk <| bkt_tasks := bkt_tasks bk + 1 |>)) with (bkt_tasks bk + 1).
  change (bkt_value (bk <| bkt_tasks := bkt_tasks bk + 1 |>)) with (bkt_value bk).
  autorewrite with ucrw. destruct (has _ _), (_ || _); cbn [negb];
    autorewrite with ucrw; cbn [ucr_value ucr_bucket];
    rewrite ?Z.ltb_irrefl; case_ifs; autorewrite with ucrw; cbn [ucr_value ucr_bucket];
    rewrite ?list_insert_insert_eq; try done.
Qed.

Lemma none_active_tasks id u m b bk :
  agg id u m -> none_active id m -> ucr_bucket u !! b = Some bk -> bkt_tasks bk = 0.
Proof.
  intros Hu Hn Hb. pose proof (agg_count _ _ _ Hu b bk Hb) as Hc.
  pose proof (msum_nonneg (contrib id b) m (contrib_nonneg id b)).
  destruct (Z.eq_dec (bkt_tasks bk) 0) as [|Hne]; [done|].
  destruct (contrib_active id m b) as (q & se & Ha & _); [lia|]. by apply Hn in Ha.
Qed.

(** Where the value of a run queue can stand between two operations. *)
Definition max_ok (idle : bool) (id : uclamp_id) (u : uclamp_rq) (m : tasks) : Prop :=
  if idle then none_active id m else is_max u \/ (none_active id m /\ ucr_value u = 0).

Lemma occupied_insert bs b bk c bc :
  occupied (<[b := bk]> bs) c bc ->
  (c = b /\ bc = bk /\ bkt_tasks bk <> 0) \/ (c <> b /\ occupied bs c bc).
Proof.
  intros [H Hn]. destruct (decide (c = b)) as [->|Hne].
  - destruct (bs !! b) eqn:E.
    + rewrite list_lookup_insert_eq in H by (by eapply lookup_lt_Some). simplify_eq. by left.
    + rewrite list_insert_ge in H by (by apply lookup_ge_None). congruence.
  - rewrite list_lookup_insert_ne in H by done. right. done.
Qed.

Section Inc.
Context (id : uclamp_id) (u : uclamp_rq) (m : tasks) (p : ptr) (t t' : task_struct)
  (se : uclamp_se) (bk : uclamp_bucket) (idle : bool).
Hypothesis Hfit : buckets_fit.
Hypothesis Hu : agg id u m.
Hypothesis Hp : m !! p = Some t.
Hypothesis Hin : uc_active (uclamp t id) = false.
Hypothesis Hwf : se_wf se.
Hypothesis Hbk : ucr_bucket u !! Z.to_nat (uc_bucket_id se) = Some bk.
Hypothesis Ht' : uclamp t' id = activated se.

Lemma inc_bv_ge : uc_value se <=
  (if (bkt_tasks bk + 1 =? 1) || (bkt_value bk <? uc_value se) then uc_value se else bkt_value bk).
Proof. destruct (_ || _) eqn:E; bool_cases; lia. Qed.

Lemma inc_u_count b bc :
  ucr_bucket (inc_u idle u se bk) !! b = Some bc ->
  bkt_tasks bc = msum (contrib id b) (<[p:=t']> m).
Proof using All.
  intros Hb. rewrite (msum_update _ _ _ _ _ Hp). pose proof (se_wf_bucket se Hfit Hwf) as Hr.
  assert (contrib id b t = 0) as -> by (unfold contrib; by rewrite Hin).
  unfold contrib at 2. rewrite Ht'. cbn [activated]. rsimpl.
  change (uc_active (activated se)) with true. change (uc_bucket_id (activated se)) with (uc_bucket_id se).
  cbn [andb]. simpl in Hb. destruct (decide (b = Z.to_nat (uc_bucket_id se))) as [->|Hne].
  - rewrite list_lookup_insert_eq in Hb by (by eapply lookup_lt_Some). simplify_eq. cbn [bkt_tasks].
    rewrite (agg_count _ _ _ Hu _ bk) by done. rewrite Z2Nat.id, Z.eqb_refl by lia. lia.
  - rewrite list_lookup_insert_ne in Hb by done.
    rewrite (agg_count _ _ _ Hu _ bc) by done. rewrite (proj2 (Z.eqb_neq _ _)) by lia. lia.
Qed.

Lemma inc_u_agg : agg id (inc_u idle u se bk) (<[p:=t']> m).
Proof using All.
  pose proof (se_wf_bucket se Hfit Hwf) as Hr. split.
  - simpl. rewrite length_insert. apply Hu.
  - intros q s [(-> & <- & H)|(_ & H)]%active_in_insert; [by rewrite Ht'|by eapply agg_wf].
  - apply inc_u_count.
  - intros b bc [(-> & -> & _)|(Hne & H)]%occupied_insert; [|by eapply agg_range].
    cbn [bkt_value]. destruct (_ || _) eqn:E; bool_cases.
    + rewrite <- (proj2 Hwf). lia.
    + apply (agg_range _ _ _ Hu). split; [done|lia].
  - intros q s bc Ha Hb. simpl in Hb. apply active_in_insert in Ha as [(-> & <- & _)|(Hne & Ha)].
    + rewrite Ht' in *. change (uc_bucket_id (activated se)) with (uc_bucket_id se) in Hb.
      rewrite list_lookup_insert_eq in Hb by (by eapply lookup_lt_Some). simplify_eq.
      apply inc_bv_ge.
    + destruct (decide (Z.to_nat (uc_bucket_id s) = Z.to_nat (uc_bucket_id se))) as [E|E].
      * rewrite E, list_lookup_insert_eq in Hb by (by eapply lookup_lt_Some). simplify_eq.
        pose proof (agg_bound _ _ _ Hu q s bk Ha ltac:(by rewrite E)). cbn [bkt_value].
        destruct (active_bucket id u m q s) as (bk' & [Hbk' Hocc] & _); [done..|].
        rewrite E, Hbk in Hbk'. simplify_eq. destruct (_ || _) eqn:E'; bool_cases; [|lia].
        apply orb_true_iff in E' as [E'|E']; bool_cases; lia.
      * rewrite list_lookup_insert_ne in Hb by done. by eapply agg_bound.
Qed.

(** What [inc_u] starts from. *)
Definition inc_cur : Z := if idle then uc_value se else ucr_value u.

Lemma inc_cur_bound b bc :
  max_ok idle id u m -> occupied (ucr_bucket u) b bc -> bkt_value bc <= inc_cur.
Proof using Hu.
  unfold max_ok, inc_cur. intros Hmax [Hb Hocc].
  assert (none_active id m -> bkt_tasks bc = 0) as H0 by (intros; by eapply none_active_tasks).
  destruct idle; [by destruct Hocc; auto|]. destruct Hmax as [[_ Hm]|[Hn _]].
  - by apply (Hm b).
  - by destruct Hocc; auto.
Qed.

(** Either the bucket of the clamp is empty and holds nothing larger, or some
    occupied bucket has the value [inc_u] starts from. *)
Lemma inc_cur_attained :
  max_ok idle id u m ->
  (bkt_tasks bk = 0 /\ inc_cur <= uc_value se) \/
  exists b bc, occupied (ucr_bucket u) b bc /\ bkt_value bc = inc_cur.
Proof using Hu Hwf Hbk.
  unfold max_ok, inc_cur. intros Hmax. destruct idle.
  - left. split; [by eapply none_active_tasks|lia].
  - destruct Hmax as [[He _]|[Hn ->]]; [by right|]. left.
    split; [by eapply none_active_tasks|apply Hwf].
Qed.

(** Once a clamp is counted, the value is the largest one again. *)
Lemma inc_u_max : max_ok idle id u m -> is_max (inc_u idle u se bk).
Proof using All.
  intros Hmax. pose proof (lookup_lt_Some _ _ _ Hbk) as Hlt.
  assert (0 <= bkt_tasks bk) as Hpos.
  { rewrite (agg_count _ _ _ Hu _ _ Hbk). apply msum_nonneg, contrib_nonneg. }
  pose proof (fun b bc => inc_cur_bound b bc Hmax) as Hle.
  assert (bkt_tasks bk <> 0 -> bkt_value bk <= inc_cur) as Hbkle.
  { intros Hn. by apply (Hle (Z.to_nat (uc_bucket_id se))). }
  unfold inc_u. fold inc_cur. set (bv := if _ || _ then _ else bkt_value bk).
  assert (bv = if (bkt_tasks bk =? 0) then uc_value se else Z.max (bkt_value bk) (uc_value se)) as Ebv.
  { subst bv. destruct (_ || _) eqn:E; bool_cases.
    - apply orb_true_iff in E as [E|E]; case_ifs; bool_cases; lia.
    - case_ifs; bool_cases; lia. }
  assert ((if inc_cur <? uc_value se then uc_value se else inc_cur) = Z.max inc_cur (uc_value se)) as ->.
  { case_ifs; bool_cases; lia. }
  split; cbn [ucr_value ucr_bucket].
  - assert (bv = Z.max inc_cur (uc_value se) \/ exists b bc, b <> Z.to_nat (uc_bucket_id se) /\
      occupied (ucr_bucket u) b bc /\ bkt_value bc = Z.max inc_cur (uc_value se))
      as [E|(b & bc & Hne & [Hb Hn] & E)].
    + destruct (inc_cur_attained Hmax) as [[H0 H]|(b & bc & Hocc & H)]; [left; rewrite Ebv, H0; simpl; lia|].
      destruct (decide (b = Z.to_nat (uc_bucket_id se))) as [->|Hne].
      * left. destruct Hocc as [Hb Hn]. simplify_eq. rewrite Ebv. case_ifs; bool_cases; lia.
      * destruct (Z.le_gt_cases (uc_value se) inc_cur); [right; exists b, bc; split_and!; [done..|lia]|].
        left. rewrite Ebv. case_ifs; bool_cases; [lia|]. specialize (Hbkle ltac:(done)). lia.
    + eexists _, _. split; [split; [by apply list_lookup_insert_eq|cbn [bkt_tasks]; lia]|done].
    + exists b, bc. split; [split; [by rewrite list_lookup_insert_ne|done]|done].
  - intros b bc [(-> & -> & _)|(Hne & H)]%occupied_insert.
    + cbn [bkt_value]. rewrite Ebv. case_ifs; bool_cases; [lia|]. specialize (Hbkle ltac:(done)). lia.
    + apply Hle in H. lia.
Qed.
End Inc.

(** ** One active task less *)

Lemma top_bucket_spec bs n :
  (n <= length bs)%nat ->
  (top_bucket bs n = Some None /\
     forall b bk, (b < n)%nat -> bs !! b = Some bk -> bkt_tasks bk = 0) \/
  (exists b bk, occupied bs b bk /\ (b < n)%nat /\ top_bucket bs n = Some (Some (bkt_value bk)) /\
     forall c bc, (b < c < n)%nat -> bs !! c = Some bc -> bkt_tasks bc = 0).
Proof.
  induction n as [|n IH]; intros Hn; [left; split; [done|lia]|].
  destruct (lookup_lt_is_Some_2 bs n ltac:(lia)) as [bk Hbk].
  simpl. rewrite Hbk. cbn [mbind option_bind]. destruct (nz (bkt_tasks bk)) eqn:E; cbn [negb].
  - right. exists n, bk. apply nz_true in E. split_and!; [done|lia|done|]. intros c bc ?. lia.
  - apply nz_false in E. destruct IH as [[-> H]|(b & bb & Ho & Hb & -> & H)]; [lia| |].
    + left. split; [done|]. intros b bb Hb Hbb. destruct (decide (b = n)) as [->|]; [congruence|].
      eapply H; [|done]. lia.
    + right. exists b, bb. split_and!; [done|lia|done|]. intros c bc Hc Hbc.
      destruct (decide (c = n)) as [->|]; [congruence|]. eapply H; [|done]. lia.
Qed.

Section Dec.
Context (id : uclamp_id) (u : uclamp_rq) (m : tasks) (p : ptr) (t t' : task_struct)
  (bk : uclamp_bucket).
Hypothesis Hfit : buckets_fit.
Hypothesis Hu : agg id u m.
Hypothesis Hp : m !! p = Some t.
Hypothesis Hact : uc_active (uclamp t id) = true.
Hypothesis Hbk : ucr_bucket u !! Z.to_nat (uc_bucket_id (uclamp t id)) = Some bk.
Hypothesis Ht' : uclamp t' id = deactivated (uclamp t id).

Definition dec_buckets : list uclamp_bucket :=
  <[Z.to_nat (uc_bucket_id (uclamp t id)) := mk_uclamp_bucket (bkt_value bk) (bkt_tasks bk - 1)]>
    (ucr_bucket u).

Lemma dec_active_in q s : active_in id (<[p:=t']> m) q s -> q <> p /\ active_in id m q s.
Proof using Ht'. intros [(_ & <- & H)|?]%active_in_insert; [by rewrite Ht' in H|done]. Qed.

Lemma dec_tasks_pos : 0 < bkt_tasks bk.
Proof using All.
  rewrite (agg_count _ _ _ Hu _ _ Hbk). assert (active_in id m p (uclamp t id)) as Ha by by exists t.
  pose proof (se_wf_bucket _ Hfit (agg_wf _ _ _ Hu _ _ Ha)).
  apply (active_contrib id m p); [done|lia].
Qed.

Lemma dec_count v b bc :
  ucr_bucket (mk_uclamp_rq v dec_buckets) !! b = Some bc ->
  bkt_tasks bc = msum (contrib id b) (<[p:=t']> m).
Proof using All.
  intros Hb. assert (active_in id m p (uclamp t id)) as Ha by by exists t.
  pose proof (se_wf_bucket _ Hfit (agg_wf _ _ _ Hu _ _ Ha)) as Hr.
  rewrite (msum_update _ _ _ _ _ Hp).
  assert (contrib id b t' = 0) as -> by (unfold contrib; by rewrite Ht').
  unfold contrib at 2. rewrite Hact. cbn [andb]. simpl in Hb. unfold dec_buckets in Hb.
  destruct (decide (b = Z.to_nat (uc_bucket_id (uclamp t id)))) as [->|Hne].
  - rewrite list_lookup_insert_eq in Hb by (by eapply lookup_lt_Some). simplify_eq. cbn [bkt_tasks].
    rewrite (agg_count _ _ _ Hu _ bk) by done. rewrite Z2Nat.id, Z.eqb_refl by lia. lia.
  - rewrite list_lookup_insert_ne in Hb by done.
    rewrite (agg_count _ _ _ Hu _ bc) by done. rewrite (proj2 (Z.eqb_neq _ _)) by lia. lia.
Qed.

Lemma dec_agg v : agg id (mk_uclamp_rq v dec_buckets) (<[p:=t']> m).
Proof using All.
  pose proof dec_tasks_pos as Hpos. split.
  - simpl. unfold dec_buckets. rewrite length_insert. apply Hu.
  - intros q s [_ H]%dec_active_in. by eapply agg_wf.
  - apply dec_count.
  - intros b bc [(-> & -> & _)|(Hne & H)]%occupied_insert; [|by eapply agg_range].
    cbn [bkt_value]. apply (agg_range _ _ _ Hu _ bk). split; [done|lia].
  - intros q s bc [Hq Ha]%dec_active_in Hb. simpl in Hb. unfold dec_buckets in Hb.
    destruct (decide (Z.to_nat (uc_bucket_id s) = Z.to_nat (uc_bucket_id (uclamp t id)))) as [E|E].
    + rewrite E, list_lookup_insert_eq in Hb by (by eapply lookup_lt_Some).
      injection Hb as <-. cbn [bkt_value]. apply (agg_bound _ _ _ Hu q s bk); [done|by rewrite E].
    + rewrite list_lookup_insert_ne in Hb by done. by eapply agg_bound.
Qed.

(** The value stays right when the bucket stays occupied or is not the top. *)
Lemma dec_keep_max :
  bkt_tasks bk - 1 <> 0 \/ bkt_value bk < ucr_value u -> is_max u ->
  is_max (mk_uclamp_rq (ucr_value u) dec_buckets).
Proof using All.
  intros Hor [(b & bc & [Hb Hn] & Hv) Hle]. pose proof (lookup_lt_Some _ _ _ Hbk) as Hlt.
  split; cbn [ucr_value ucr_bucket].
  - destruct (decide (b = Z.to_nat (uc_bucket_id (uclamp t id)))) as [->|Hne].
    + rewrite Hbk in Hb. injection Hb as <-. destruct Hor as [Hor|Hor]; [|lia].
      exists (Z.to_nat (uc_bucket_id (uclamp t id))), (mk_uclamp_bucket (bkt_value bk) (bkt_tasks bk - 1)).
      split; [split; [by apply list_lookup_insert_eq|done]|done].
    + exists b, bc. split; [split; [by unfold dec_buckets; rewrite list_lookup_insert_ne|done]|done].
  - intros c cc [(-> & -> & _)|(_ & H)]%occupied_insert; [|by eapply Hle].
    cbn [bkt_value]. eapply Hle. split; [done|]. pose proof dec_tasks_pos. lia.
Qed.

(** No bucket is occupied: no task is active. *)
Lemma dec_none :
  (forall b bc, (b < length dec_buckets)%nat -> dec_buckets !! b = Some bc -> bkt_tasks bc = 0) ->
  none_active id (<[p:=t']> m).
Proof using All.
  intros H0 q s Ha.
  destruct (active_bucket id (mk_uclamp_rq 0 dec_buckets) (<[p:=t']> m) q s) as (bc & [Hb Hn] & _);
    [done|apply dec_agg|done|].
  apply Hn, (H0 (Z.to_nat (uc_bucket_id s))); [by eapply lookup_lt_Some|done].
Qed.

(** The highest occupied bucket has the largest value. *)
Lemma top_is_max v b bc m' :
  agg id (mk_uclamp_rq v dec_buckets) m' -> occupied dec_buckets b bc ->
  (forall c cc, (b < c)%nat -> dec_buckets !! c = Some cc -> bkt_tasks cc = 0) ->
  is_max (mk_uclamp_rq (bkt_value bc) dec_buckets).
Proof using UL.
  intros Ha Ho Habove. split; [by exists b, bc|]. cbn [ucr_value ucr_bucket]. intros c cc Hoc.
  destruct (decide (c = b)) as [->|Hne].
  { destruct Ho as [Ho _], Hoc as [Hoc _]. rewrite Ho in Hoc. by simplify_eq. }
  apply Z.lt_le_incl, bucket_id_lt.
  rewrite (agg_range _ _ _ Ha c cc Hoc), (agg_range _ _ _ Ha b bc Ho).
  destruct (Nat.lt_ge_cases c b); [lia|].
  destruct Hoc as [Hoc Hn]. destruct Hn. apply (Habove c); [lia|done].
Qed.
End Dec.

(** What a dequeue leaves for one clamp index. *)
Definition dec_post (id : uclamp_id) (r r' : rq) (m' : tasks) : Prop :=
  (is_max (rq_uclamp r' id) /\ uclamp_flags r' = uclamp_flags r) \/
  (none_active id m' /\
   match id with
   | UCLAMP_MIN => ucr_value (rq_uclamp r' id) = 0 /\ uclamp_flags r' = uclamp_flags r
   | UCLAMP_MAX => idle_flag r' = true
   end).

Lemma idle_flag_set x : has (Z.lor x UCLAMP_FLAG_IDLE) UCLAMP_FLAG_IDLE = true.
Proof using FL.
  rewrite uclamp_idle_bit. unfold has. apply nz_true.
  rewrite Z.land_lor_distr_l. by intros [_ H]%Z.lor_eq_0_iff.
Qed.

Lemma dec_id_ok id r m p t t' :
  buckets_fit -> agg id (rq_uclamp r id) m -> is_max (rq_uclamp r id) ->
  m !! p = Some t -> uc_active (uclamp t id) = true ->
  uclamp t' id = deactivated (uclamp t id) ->
  exists r', uclamp_rq_dec_id r t id = Some (r', set_uclamp t id (deactivated (uclamp t id)))
    /\ agg id (rq_uclamp r' id) (<[p:=t']> m)
    /\ (forall id', id' <> id -> rq_uclamp r' id' = rq_uclamp r id')
    /\ dec_post id r r' (<[p:=t']> m).
Proof using UL FL.
  intros Hfit Hu Hmax Hp Hact Ht'.
  destruct (active_bucket id (rq_uclamp r id) m p (uclamp t id)) as (bk & [Hbk Hn] & _);
    [done|done|by exists t|].
  pose proof (dec_agg id (rq_uclamp r id) m p t t' bk Hfit Hu Hp Hact Hbk Ht') as Hagg.
  pose proof (dec_keep_max id (rq_uclamp r id) m p t t' bk Hfit Hu Hp Hact Hbk Ht') as Hkeep.
  pose proof (dec_none id (rq_uclamp r id) m p t t' bk Hfit Hu Hp Hact Hbk Ht') as Hnone.
  pose proof (fun v b bc => top_is_max id (rq_uclamp r id) t bk v b bc (<[p:=t']> m) (Hagg v)) as Htop.
  unfold uclamp_rq_dec_id. rewrite Hbk. cbn [mbind option_bind].
  rewrite (proj2 (nz_true _) Hn). autorewrite with ucrw.
  change (bk <| bkt_tasks := bkt_tasks bk - 1 |>)
    with (mk_uclamp_bucket (bkt_value bk) (bkt_tasks bk - 1)).
  cbn [bkt_tasks bkt_value ucr_value].
  set (bs := dec_buckets id (rq_uclamp r id) t bk) in *. fold (dec_buckets id (rq_uclamp r id) t bk). fold bs.
  assert (forall v id', id' <> id -> rq_uclamp (set_rq_uclamp r id (mk_uclamp_rq v bs)) id' = rq_uclamp r id')
    as Hother by (intros; by apply rq_uclamp_set_ne).
  destruct (nz (bkt_tasks bk - 1)) eqn:Enz.
  { eexists. split; [done|]. rewrite rq_uclamp_set. split_and!; [done|by auto|].
    left. rewrite rq_uclamp_set, set_rq_uclamp_flags. apply nz_true in Enz. auto. }
  destruct (_ <=? _) eqn:Ele; bool_cases.
  2:{ eexists. split; [done|]. rewrite rq_uclamp_set. split_and!; [done|by auto|].
      left. rewrite rq_uclamp_set, set_rq_uclamp_flags. auto. }
  unfold uclamp_rq_max_value. rewrite rq_uclamp_set. cbn [ucr_bucket].
  assert (Z.to_nat UCLAMP_BUCKETS = length bs) as ->.
  { pose proof (agg_len _ _ _ (Hagg 0)) as H. cbn [ucr_bucket] in H. lia. }
  destruct (top_bucket_spec bs (length bs)) as [[-> H0]|(b & bc & Ho & Hb & -> & H0)]; [done| |].
  - specialize (Hnone H0). cbn [mbind option_bind]. destruct id; unfold uclamp_idle_value.
    + cbn [mbind option_bind]. autorewrite with ucrw. cbn [ucr_bucket]. eexists. split; [done|].
      rewrite rq_uclamp_set. split_and!; [done|by auto|]. right. split; [done|].
      rewrite rq_uclamp_set, set_rq_uclamp_flags. done.
    + cbn [mbind option_bind]. eexists. split; [done|]. autorewrite with ucrw. split_and!; [exact (Hagg (uc_value (uclamp t UCLAMP_MAX)))| |].
      * intros [] Hne; [|done]. done.
      * right. split; [done|]. unfold idle_flag. rewrite set_rq_uclamp_flags. rsimpl. apply idle_flag_set.
  - cbn [mbind option_bind]. autorewrite with ucrw. cbn [ucr_bucket].
    eexists. split; [done|]. rewrite rq_uclamp_set. split_and!; [done|by auto|].
    left. rewrite rq_uclamp_set, set_rq_uclamp_flags. split; [|done]. apply (Htop 0 b); [done|].
    intros c cc Hc Hcc. apply (H0 c); [|done]. apply lookup_lt_Some in Hcc. lia.
Qed.
End Inv.
