(* ===== verification/UclampTrace.v ===== *)
(** * UclampTrace: utilization clamps of a run queue over its whole life

    [rq_trace] is the history of one run queue: tasks are enqueued, dequeued
    and given new requests in any order.  The invariant [clamps_ok] holds all
    along, so the clamps that drive frequency selection are the maxima of the
    active tasks' clamps, and no bucket access is out of range, when the bucket
    count passes [buckets_fit].  The two defects found while modelling are at
    the end: bucket counts that do not pass it, and the idle flag that
    [uclamp_update_active] leaves set. *)

From S2P Require Import Prelude Task KernelApi Rq Prio Uclamp UclampFacts UclampInv.

Section Trace.
Context {U : UclampApi} {UL : UclampLaws U} {F : FlagApi} {FL : FlagLaws F}.
Abbreviation tasks := (gmap ptr task_struct).

(** ** The invariant of a run queue *)

Record clamps_ok (r : rq) (m : tasks) : Prop := {
  ok_agg id : agg id (rq_uclamp r id) m;
  ok_joint p t : m !! p = Some t -> uc_active (uclamp t UCLAMP_MIN) = uc_active (uclamp t UCLAMP_MAX);
  ok_max id : max_ok (idle_flag r) id (rq_uclamp r id) m
}.

(** The effective clamps a task would be enqueued with are capacities. *)
Definition eff_ok (y : uclamp_sys) (g : tg_view) (t : task_struct) : Prop :=
  forall id, se_wf (uclamp_eff_get y g t id).

Lemma uclamp_set_eq t id u : uclamp (set_uclamp t id u) id = u.
Proof. by destruct id. Qed.
Lemma uclamp_set_ne t id id' u : id <> id' -> uclamp (set_uclamp t id u) id' = uclamp t id'.
Proof. by destruct id, id'. Qed.
Lemma eff_get_set y g t id u id' : uclamp_eff_get y g (set_uclamp t id u) id' = uclamp_eff_get y g t id'.
Proof. by destruct id, id'. Qed.

Lemma inc_id_ok y g id r m p t t' :
  buckets_fit -> agg id (rq_uclamp r id) m -> max_ok (idle_flag r) id (rq_uclamp r id) m ->
  m !! p = Some t -> uc_active (uclamp t id) = false -> se_wf (uclamp_eff_get y g t id) ->
  uclamp t' id = activated (uclamp_eff_get y g t id) ->
  exists u, uclamp_rq_inc_id y g r t id =
      Some (set_rq_uclamp r id u, set_uclamp t id (activated (uclamp_eff_get y g t id)))
    /\ agg id u (<[p:=t']> m) /\ is_max u.
Proof using UL FL.
  intros Hfit Hu Hmax Hp Hin Hwf Ht'.
  destruct (lookup_lt_is_Some_2 (ucr_bucket (rq_uclamp r id))
              (Z.to_nat (uc_bucket_id (uclamp_eff_get y g t id)))) as [bk Hbk].
  { pose proof (se_wf_bucket _ Hfit Hwf). pose proof (agg_len _ _ _ Hu). lia. }
  rewrite (inc_id_inc_u _ _ _ _ _ _ Hbk). eexists. split; [done|].
  split; [by eapply inc_u_agg|by eapply inc_u_max].
Qed.

Lemma max_ok_other idle id u m p t t' :
  m !! p = Some t -> uclamp t' id = uclamp t id -> max_ok idle id u m -> max_ok idle id u (<[p:=t']> m).
Proof.
  intros Hp He. unfold max_ok. destruct idle; [by eapply none_active_other|].
  intros [H|[H ?]]; [by left|right]. split; [by eapply none_active_other|done].
Qed.

Lemma active_not_idle r m p t id :
  clamps_ok r m -> m !! p = Some t -> uc_active (uclamp t id) = true ->
  idle_flag r = false /\ is_max (rq_uclamp r id).
Proof.
  intros Hok Hp Ha. pose proof (ok_max _ _ Hok id) as Hm. unfold max_ok in Hm.
  assert (active_in id m p (uclamp t id)) as Hact by by exists t.
  destruct (idle_flag r); [by apply Hm in Hact|]. destruct Hm as [Hm|[Hm _]]; [done|by apply Hm in Hact].
Qed.

(** The task after an enqueue and after a dequeue. *)
Definition enqueued (y : uclamp_sys) (g : tg_view) (t : task_struct) : task_struct :=
  let t1 := set_uclamp t UCLAMP_MIN (activated (uclamp_eff_get y g t UCLAMP_MIN)) in
  set_uclamp t1 UCLAMP_MAX (activated (uclamp_eff_get y g t1 UCLAMP_MAX)).
Definition dequeued (t : task_struct) : task_struct :=
  let t1 := set_uclamp t UCLAMP_MIN (deactivated (uclamp t UCLAMP_MIN)) in
  set_uclamp t1 UCLAMP_MAX (deactivated (uclamp t1 UCLAMP_MAX)).

(** The last statement of [uclamp_rq_inc] clears the idle flag. *)
Lemma clear_idle r :
  let r' := if has (uclamp_flags r) UCLAMP_FLAG_IDLE
            then r <| uclamp_flags := andnot (uclamp_flags r) UCLAMP_FLAG_IDLE |> else r in
  idle_flag r' = false /\ forall id, rq_uclamp r' id = rq_uclamp r id.
Proof using FL.
  cbn zeta. destruct (has _ _) eqn:E; [|by split]. split; [|by intros []].
  unfold idle_flag, andnot, has. rsimpl. apply nz_false. rewrite uclamp_idle_bit.
  apply Z.bits_inj'. intros n Hn. rewrite !Z.land_spec, Z.lnot_spec, Z.bits_0 by done.
  destruct (Z.testbit 1 n), (Z.testbit (uclamp_flags r) n); done.
Qed.

Lemma clamps_ok_intro r m :
  (forall id, agg id (rq_uclamp r id) m) ->
  (forall p t, m !! p = Some t -> uc_active (uclamp t UCLAMP_MIN) = uc_active (uclamp t UCLAMP_MAX)) ->
  (forall id, max_ok (idle_flag r) id (rq_uclamp r id) m) -> clamps_ok r m.
Proof. by split. Qed.

Lemma joint_insert r m p t :
  clamps_ok r m -> uc_active (uclamp t UCLAMP_MIN) = uc_active (uclamp t UCLAMP_MAX) ->
  forall q t', <[p:=t]> m !! q = Some t' ->
    uc_active (uclamp t' UCLAMP_MIN) = uc_active (uclamp t' UCLAMP_MAX).
Proof.
  intros Hok Ht q t' [[-> ->]|[Hne Hq]]%lookup_insert_Some; [done|]. by eapply ok_joint.
Qed.

(** Enqueueing an inactive task. *)
Lemma rq_inc_ok en y g r m p t :
  buckets_fit -> clamps_ok r m -> m !! p = Some t -> en (t_sched_class t) = true ->
  uc_active (uclamp t UCLAMP_MIN) = false -> eff_ok y g t ->
  exists r', uclamp_rq_inc en y g r t = Some (r', enqueued y g t)
    /\ clamps_ok r' (<[p := enqueued y g t]> m).
Proof using UL FL.
  intros Hfit Hok Hp Hen Hin Heff. unfold uclamp_rq_inc. rewrite Hen. cbn [negb].
  set (t1 := set_uclamp t UCLAMP_MIN (activated (uclamp_eff_get y g t UCLAMP_MIN))).
  assert (enqueued y g t = set_uclamp t1 UCLAMP_MAX (activated (uclamp_eff_get y g t1 UCLAMP_MAX))) as Et2 by done.
  set (t2 := enqueued y g t) in *.
  destruct (inc_id_ok y g UCLAMP_MIN r m p t t1) as (u1 & -> & Ha1 & Hm1);
    [done|apply Hok|apply Hok|done|done|apply Heff|done|].
  cbn [mbind option_bind]. fold t1. set (r1 := set_rq_uclamp r UCLAMP_MIN u1).
  destruct (inc_id_ok y g UCLAMP_MAX r1 (<[p:=t1]> m) p t1 t2) as (u2 & -> & Ha2 & Hm2).
  { done. } { eapply agg_other; [done|done|apply (ok_agg _ _ Hok UCLAMP_MAX)]. }
  { eapply max_ok_other; [done|done|apply (ok_max _ _ Hok UCLAMP_MAX)]. }
  { apply lookup_insert_eq. } { change (uclamp t1 UCLAMP_MAX) with (uclamp t UCLAMP_MAX).
    rewrite <- Hin. symmetry. by apply (ok_joint _ _ Hok p). }
  { apply (Heff UCLAMP_MAX). } { done. }
  cbn [mbind option_bind]. set (r2 := set_rq_uclamp r1 UCLAMP_MAX u2).
  destruct (clear_idle r2) as [Hidle Hsame]. set (r3 := if has _ _ then _ else r2) in *.
  exists r3. split; [by rewrite Et2|]. rewrite insert_insert_eq in Ha2.
  apply clamps_ok_intro.
  - intros []; rewrite Hsame; [|exact Ha2].
    rewrite <- (insert_insert_eq m p t2 t1). eapply agg_other; [apply lookup_insert_eq|done|exact Ha1].
  - by eapply joint_insert.
  - intros []; rewrite Hsame, Hidle; by left.
Qed.

Lemma none_active_joint m :
  (forall p t, m !! p = Some t -> uc_active (uclamp t UCLAMP_MIN) = uc_active (uclamp t UCLAMP_MAX)) ->
  none_active UCLAMP_MAX m -> none_active UCLAMP_MIN m.
Proof.
  intros Hj Hn p se (t & Ht & <- & Ha). apply (Hn p (uclamp t UCLAMP_MAX)). exists t.
  rewrite <- (Hj p t Ht). done.
Qed.

(** Dequeueing an active task. *)
Lemma rq_dec_ok en r m p t :
  buckets_fit -> clamps_ok r m -> m !! p = Some t -> en (t_sched_class t) = true ->
  uc_active (uclamp t UCLAMP_MIN) = true ->
  exists r', uclamp_rq_dec en r t = Some (r', dequeued t) /\ clamps_ok r' (<[p := dequeued t]> m).
Proof using UL FL.
  intros Hfit Hok Hp Hen Hact. unfold uclamp_rq_dec. rewrite Hen. cbn [negb].
  set (t1 := set_uclamp t UCLAMP_MIN (deactivated (uclamp t UCLAMP_MIN))).
  assert (dequeued t = set_uclamp t1 UCLAMP_MAX (deactivated (uclamp t1 UCLAMP_MAX))) as Et2 by done.
  set (t2 := dequeued t) in *.
  assert (uc_active (uclamp t UCLAMP_MAX) = true) as Hact2 by (rewrite <- Hact; symmetry; by apply (ok_joint _ _ Hok p)).
  destruct (active_not_idle r m p t UCLAMP_MIN) as [Hidle HmMIN]; [done..|].
  destruct (active_not_idle r m p t UCLAMP_MAX) as [_ HmMAX]; [done..|].
  destruct (dec_id_ok UCLAMP_MIN r m p t t1) as (r1 & -> & Ha1 & Hs1 & Hpost1);
    [done|apply Hok|done..|].
  cbn [mbind option_bind]. fold t1.
  assert (uclamp_flags r1 = uclamp_flags r) as Hf1 by (destruct Hpost1 as [[_ ?]|[_ [_ ?]]]; done).
  assert (rq_uclamp r1 UCLAMP_MAX = rq_uclamp r UCLAMP_MAX) as Hr1 by by apply Hs1.
  destruct (dec_id_ok UCLAMP_MAX r1 (<[p:=t1]> m) p t1 t2) as (r2 & -> & Ha2 & Hs2 & Hpost2);
    [done| |by rewrite Hr1|apply lookup_insert_eq|done|done|].
  { rewrite Hr1. eapply agg_other; [done|done|apply (ok_agg _ _ Hok UCLAMP_MAX)]. }
  exists r2. split; [by rewrite Et2|]. rewrite insert_insert_eq in Ha2, Hpost2.
  assert (rq_uclamp r2 UCLAMP_MIN = rq_uclamp r1 UCLAMP_MIN) as Hr2 by by apply Hs2.
  pose proof (joint_insert r m p t2 Hok eq_refl) as Hj.
  assert (max_ok false UCLAMP_MIN (rq_uclamp r1 UCLAMP_MIN) (<[p:=t2]> m)) as Hm1.
  { rewrite <- (insert_insert_eq m p t2 t1).
    eapply max_ok_other; [apply lookup_insert_eq|done|].
    destruct Hpost1 as [[? _]|[? [? _]]]; [by left|by right]. }
  apply clamps_ok_intro; [| exact Hj |].
  - intros []; [rewrite Hr2|exact Ha2].
    rewrite <- (insert_insert_eq m p t2 t1). eapply agg_other; [apply lookup_insert_eq|done|exact Ha1].
  - destruct Hpost2 as [[Hmax Hf2]|[Hn2 Hi2]].
    + assert (idle_flag r2 = false) as -> by (unfold idle_flag in *; congruence).
      intros []; [by rewrite Hr2|by left].
    + rewrite Hi2. intros []; [by apply none_active_joint|done].
Qed.

(** ** The history of a run queue *)

(** Tasks whose clamp machinery is off are not tracked. *)
Inductive rq_step : rq * tasks -> rq * tasks -> Prop :=
  | step_enqueue en y g r m p t r' t' :
      m !! p = Some t -> en (t_sched_class t) = true -> uc_active (uclamp t UCLAMP_MIN) = false ->
      eff_ok y g t -> uclamp_rq_inc en y g r t = Some (r', t') -> rq_step (r, m) (r', <[p:=t']> m)
  | step_dequeue en r m p t r' t' :
      m !! p = Some t -> en (t_sched_class t) = true -> uc_active (uclamp t UCLAMP_MIN) = true ->
      uclamp_rq_dec en r t = Some (r', t') -> rq_step (r, m) (r', <[p:=t']> m)
  | step_request r m p t t' :
      m !! p = Some t -> (forall id, uclamp t' id = uclamp t id) -> rq_step (r, m) (r, <[p:=t']> m)
  | step_fork r m p t :
      m !! p = None -> rq_step (r, m) (r, <[p := uclamp_fork t]> m).

(** A new run queue, after [init_uclamp], with no task. *)
Definition rq_start (s : rq * tasks) : Prop :=
  exists r, s = (init_uclamp_rq r, empty).

Lemma start_ok s : rq_start s -> clamps_ok s.1 s.2.
Proof using UL FL.
  intros [r ->]. simpl. pose proof uclamp_buckets_range.
  assert (forall id, none_active id ∅) as Hn by (intros id p se (t & Ht & _); done).
  assert (idle_flag (init_uclamp_rq r) = false) as Hi by (unfold idle_flag, has; by rewrite uclamp_idle_bit).
  assert (forall id, rq_uclamp (init_uclamp_rq r) id =
    mk_uclamp_rq 0 (replicate (Z.to_nat UCLAMP_BUCKETS) (mk_uclamp_bucket 0 0))) as E by by intros [].
  apply clamps_ok_intro; [|done|].
  - intros id. rewrite E. split; cbn [ucr_bucket].
    + rewrite length_replicate. lia.
    + intros p se Ha. by apply Hn in Ha.
    + intros b bk [-> _]%lookup_replicate. by rewrite msum_empty.
    + intros b bk [[-> _]%lookup_replicate Hb]. done.
    + intros p se bk Ha. by apply Hn in Ha.
  - intros id. rewrite E, Hi. by right.
Qed.

Lemma uclamp_fork_inactive t id : uc_active (uclamp (uclamp_fork t) id) = false.
Proof. unfold uclamp_fork. destruct (negb _), id; done. Qed.

Lemma insert_inactive id u m p t :
  m !! p = None -> uc_active (uclamp t id) = false ->
  (forall q se, active_in id (<[p:=t]> m) q se <-> active_in id m q se) /\
  (agg id u m -> agg id u (<[p:=t]> m)).
Proof.
  intros Hp Hin.
  assert (forall q se, active_in id (<[p:=t]> m) q se <-> active_in id m q se) as Ha.
  { intros q se. rewrite active_in_insert. split; [|right; split; [|done]].
    - intros [(_ & <- & H)|[_ H]]; [congruence|done].
    - destruct H as (x & Hx & _). congruence. }
  split; [done|]. intros Hu. split.
  - apply Hu.
  - intros q se H%Ha. by eapply agg_wf.
  - intros b bk Hb. rewrite msum_insert by done. rewrite (agg_count _ _ _ Hu b bk) by done.
    unfold contrib at 2. rewrite Hin. simpl. lia.
  - intros b bk H. by eapply agg_range.
  - intros q se bk H%Ha Hb. by eapply agg_bound.
Qed.

Lemma max_ok_active idle id u m m' :
  (forall q se, active_in id m' q se <-> active_in id m q se) -> max_ok idle id u m -> max_ok idle id u m'.
Proof.
  intros Ha. unfold max_ok, none_active. destruct idle.
  - intros H p se Hp%Ha. by apply H in Hp.
  - intros [H|[H ?]]; [by left|right]. split; [|done]. intros p se Hp%Ha. by apply H in Hp.
Qed.

Lemma rq_step_ok s s' : buckets_fit -> rq_step s s' -> clamps_ok s.1 s.2 -> clamps_ok s'.1 s'.2.
Proof using UL FL.
  intros Hfit []; simpl; intros Hok.
  - destruct (rq_inc_ok en y g r m p t) as (r2 & E & H'); try done. simplify_eq. done.
  - destruct (rq_dec_ok en r m p t) as (r2 & E & H'); try done. simplify_eq. done.
  - apply clamps_ok_intro.
    + intros id. eapply agg_other; [done|done|apply Hok].
    + eapply joint_insert; [done|]. rewrite !H0. by apply (ok_joint _ _ Hok p).
    + intros id. eapply max_ok_other; [done|done|apply Hok].
  - pose proof (uclamp_fork_inactive t) as Hin. apply clamps_ok_intro.
    + intros id. apply (proj2 (insert_inactive id (rq_uclamp r id) m p _ ltac:(done) (Hin id))), Hok.
    + eapply joint_insert; [done|]. by rewrite !Hin.
    + intros id. eapply max_ok_active; [|apply Hok].
      apply (proj1 (insert_inactive id (rq_uclamp r id) m p _ ltac:(done) (Hin id))).
Qed.

(** C4. Over any history of a run queue, enqueues, dequeues, forks and changes of
    requests in any order, its two clamp values are right whenever a task is
    active: at least every active task's clamp, and above the largest of them
    by less than the width of a bucket. *)
Theorem uclamp_rq_value_correct s r m id :
  buckets_fit -> rq_start s -> rtc rq_step s (r, m) ->
  (exists p se, active_in id m p se) ->
  clamp_spec id (ucr_value (rq_uclamp r id)) m.
Proof using UL FL.
  intros Hfit Hs Hr Hex. apply start_ok in Hs.
  assert (clamps_ok r m) as Hok.
  { change (clamps_ok (r, m).1 (r, m).2). revert Hs.
    induction Hr as [|s1 s2 s3 H _ IH]; [done|]. intros. apply IH. by eapply rq_step_ok. }
  destruct Hex as (p & se & t & Ht & <- & Ha).
  apply agg_clamp_spec; [done|apply Hok|]. by eapply active_not_idle.
Qed.

(** C6. Over any such history no bucket array is indexed out of range: the next
    enqueue of an inactive task and the next dequeue of an active one both
    succeed. *)
Theorem uclamp_rq_accesses_in_range s r m en y g p t :
  buckets_fit -> rq_start s -> rtc rq_step s (r, m) ->
  m !! p = Some t -> en (t_sched_class t) = true -> eff_ok y g t ->
  if uc_active (uclamp t UCLAMP_MIN) then uclamp_rq_dec en r t <> None
  else uclamp_rq_inc en y g r t <> None.
Proof using UL FL.
  intros Hfit Hs Hr Hp Hen Heff. apply start_ok in Hs.
  assert (clamps_ok r m) as Hok.
  { change (clamps_ok (r, m).1 (r, m).2). revert Hs.
    induction Hr as [|s1 s2 s3 H _ IH]; [done|]. intros. apply IH. by eapply rq_step_ok. }
  destruct (uc_active (uclamp t UCLAMP_MIN)) eqn:Ea.
  - destruct (rq_dec_ok en r m p t) as (r' & -> & _); done.
  - destruct (rq_inc_ok en y g r m p t) as (r' & -> & _); done.
Qed.
End Trace.

(** ** Concrete histories *)

(** A task with given requests, the defaults of the system at boot and the root
    group; the clamps are enabled for the fair class. *)
Definition clamp_request {U : UclampApi} (vmin vmax : Z) : task_struct :=
  zero_task <| uclamp_req_min := uclamp_se_set zero_uclamp_se vmin true |>
            <| uclamp_req_max := uclamp_se_set zero_uclamp_se vmax true |>.
Definition boot_sys {U : UclampApi} : uclamp_sys :=
  init_uclamp_sys (mk_uclamp_sys SCHED_CAPACITY_SCALE SCHED_CAPACITY_SCALE zero_uclamp_se zero_uclamp_se).
Definition root_view : tg_view :=
  {| tg_is_autogroup := false; tg_is_root := true; tg_uclamp := fun _ => zero_uclamp_se |}.
Definition fair_only (c : sched_class) : bool := bool_decide (c = fair_sched_class).
Definition boot_rq {U : UclampApi} : rq := init_uclamp_rq (zero_rq 0 1%positive).

(** The first task of a run queue: forked and enqueued. *)
Definition first_enqueue {U : UclampApi} {F : FlagApi} (vmin vmax : Z) : option (rq * task_struct) :=
  uclamp_rq_inc fair_only boot_sys root_view boot_rq (uclamp_fork (clamp_request vmin vmax)).

Definition after_first {U : UclampApi} {F : FlagApi} (vmin vmax : Z) : rq * task_struct :=
  default (boot_rq, zero_task) (first_enqueue vmin vmax).

Lemma after_first_eq :
  uclamp_rq_inc (U := uclamp_config 5) (F := linux58_flags) fair_only (boot_sys (U := uclamp_config 5))
    root_view (boot_rq (U := uclamp_config 5))
    (uclamp_fork (U := uclamp_config 5) (clamp_request (U := uclamp_config 5) 300 800)) =
  Some (after_first (U := uclamp_config 5) (F := linux58_flags) 300 800).
Proof. vm_compute. reflexivity. Qed.

Lemma demo_eff_ok :
  eff_ok (U := uclamp_config 5) (boot_sys (U := uclamp_config 5)) root_view
    (uclamp_fork (U := uclamp_config 5) (clamp_request (U := uclamp_config 5) 300 800)).
Proof. intros []; vm_compute; repeat split; discriminate. Qed.

Lemma demo_fair : fair_only (t_sched_class (uclamp_fork (U := uclamp_config 5) (clamp_request (U := uclamp_config 5) 300 800))) = true.
Proof. vm_compute. reflexivity. Qed.

Lemma after_first_trace :
  rtc (rq_step (U := uclamp_config 5) (F := linux58_flags)) (boot_rq (U := uclamp_config 5), empty)
    ((after_first (U := uclamp_config 5) (F := linux58_flags) 300 800).1,
     {[ 2%positive := (after_first (U := uclamp_config 5) (F := linux58_flags) 300 800).2 ]}).
Proof.
  generalize after_first_eq. generalize (after_first (U := uclamp_config 5) (F := linux58_flags) 300 800). intros [r t] E.
  eapply rtc_l; [apply (step_fork _ _ 2%positive (clamp_request (U := uclamp_config 5) 300 800)); reflexivity|].
  apply rtc_once. simpl fst. simpl snd. set (t0 := uclamp_fork _) in *.
  replace ({[ 2%positive := t ]} : gmap ptr task_struct)
    with (<[ 2%positive := t ]> (<[ 2%positive := t0 ]> (empty : gmap ptr task_struct)))
    by apply insert_insert_eq.
  apply (step_enqueue (U := uclamp_config 5) (F := linux58_flags) fair_only
    (boot_sys (U := uclamp_config 5)) root_view _ _ 2%positive t0); [apply lookup_insert_eq|exact demo_fair|apply uclamp_fork_inactive|exact demo_eff_ok|exact E].
Qed.

Lemma uclamp_rq_value_correct_witness :
  let s := after_first (U := uclamp_config 5) (F := linux58_flags) 300 800 in
  ucr_value (rq_uclamp s.1 UCLAMP_MAX) = 800 /\
  clamp_spec (U := uclamp_config 5) UCLAMP_MAX (ucr_value (rq_uclamp s.1 UCLAMP_MAX)) {[ 2%positive := s.2 ]}.
Proof.
  split; [by vm_compute|].
  apply (uclamp_rq_value_correct (U := uclamp_config 5) (UL := uclamp_config_laws 5 ltac:(lia))
           (F := linux58_flags) (boot_rq (U := uclamp_config 5), empty)).
  - by vm_compute.
  - by exists (zero_rq 0 1%positive).
  - exact after_first_trace.
  - eexists 2%positive, _, _. split; [apply lookup_singleton_eq|]. split; [done|by vm_compute].
Defined.

Lemma uclamp_rq_accesses_in_range_witness :
  let _ := uclamp_config 5 in
  let _ := linux58_flags in
  let t := uclamp_fork (clamp_request 300 1024) in
  if uc_active (uclamp t UCLAMP_MIN) then uclamp_rq_dec fair_only boot_rq t <> None
  else uclamp_rq_inc fair_only boot_sys root_view boot_rq t <> None.
Proof.
  intros U F t.
  apply (@uclamp_rq_accesses_in_range U (uclamp_config_laws 5 ltac:(lia)) F linux58_flag_laws
           (boot_rq, empty) boot_rq {[ 2%positive := t ]} fair_only boot_sys root_view 2%positive t).
  - by vm_compute.
  - by exists (zero_rq 0 1%positive).
  - apply rtc_once. apply (step_fork _ _ 2%positive (clamp_request 300 1024)). done.
  - apply lookup_singleton_eq.
  - done.
  - intros []; vm_compute; repeat split; discriminate.
Defined.

(** ** Two defects *)

(** The bucket counts of the allowed range for which the bucket of the highest
    capacity is one past the array. *)
Definition overflowing_counts : list Z := [7; 8; 10; 11; 12; 14; 15; 16; 17; 20].

(** For the bucket counts of [overflowing_counts], and for no other allowed
    count, enqueueing the first task with default clamps writes past the
    bucket array: [uclamp_bucket_id] rounds the width of a bucket to nearest
    and does not clamp the index. *)
Theorem uclamp_bucket_overflow n :
  5 <= n <= 20 ->
  first_enqueue (U := uclamp_config n) (F := linux58_flags) 0 SCHED_CAPACITY_SCALE = None
  <-> n ∈ overflowing_counts.
Proof.
  intros Hn.
  pose (f n := Bool.eqb (match first_enqueue (U := uclamp_config n) (F := linux58_flags) 0
    SCHED_CAPACITY_SCALE with None => true | Some _ => false end) (bool_decide (n ∈ overflowing_counts))).
  pose proof (Zrange_all_spec 16 5 f eq_refl n ltac:(lia)) as H.
  unfold f in H. apply Bool.eqb_prop in H. split; intros E.
  - rewrite E in H. symmetry in H. by apply bool_decide_eq_true in H.
  - rewrite (bool_decide_eq_true_2 _ E) in H. by destruct (first_enqueue _ _).
Qed.

Lemma uclamp_bucket_overflow_witness :
  first_enqueue (U := uclamp_config 8) (F := linux58_flags) 0 SCHED_CAPACITY_SCALE = None
  <-> 8 ∈ overflowing_counts.
Proof. apply (uclamp_bucket_overflow 8). lia. Defined.

(** The run queue after the request of its only task has been re-evaluated and
    a second task with a smaller clamp has been enqueued. *)
Definition update_then_enqueue {U : UclampApi} {F : FlagApi} : option (rq * task_struct * task_struct) :=
  '(r, a) ← first_enqueue 300 800;
  '(r, a) ← uclamp_update_active boot_sys root_view r a UCLAMP_MAX;
  '(r, b) ← uclamp_rq_inc fair_only boot_sys root_view r (uclamp_fork (clamp_request 0 200));
  Some (r, a, b).

(** [uclamp_update_active] on the last active task leaves the idle flag set,
    so the next enqueue resets the run queue's clamps to its own: the run queue
    ends at 200 with an active task whose clamp is 800, against the promise of
    [clamp_spec]. *)
Theorem uclamp_update_active_idle_defect :
  exists r a b, update_then_enqueue (U := uclamp_config 5) (F := linux58_flags) = Some (r, a, b)
    /\ uc_active (uclamp a UCLAMP_MAX) = true /\ uc_value (uclamp a UCLAMP_MAX) = 800
    /\ ucr_value (rq_uclamp r UCLAMP_MAX) = 200
    /\ ~ clamp_spec (U := uclamp_config 5) UCLAMP_MAX (ucr_value (rq_uclamp r UCLAMP_MAX))
          {[ 2%positive := a; 3%positive := b ]}.
Proof.
  assert (exists r a b, update_then_enqueue (U := uclamp_config 5) (F := linux58_flags) = Some (r, a, b)
    /\ uc_active (uclamp a UCLAMP_MAX) = true /\ uc_value (uclamp a UCLAMP_MAX) = 800
    /\ ucr_value (rq_uclamp r UCLAMP_MAX) = 200) as (r & a & b & E & Ha & Hv & Hr).
  { eexists _, _, _. by vm_compute. }
  exists r, a, b. split_and!; [exact E|exact Ha|exact Hv|exact Hr|]. clear E. intros [H _].
  specialize (H 2%positive (uclamp a UCLAMP_MAX)). rewrite Hv, Hr in H.
  assert (800 <= 200); [|lia]. apply H. exists a. split; [apply lookup_insert_eq|done].
Qed.
