(* ===== verification/UclampAttr.v ===== *)
(** * UclampAttr: clamp requests and system defaults stay valid

    The system-wide sysctl keeps its two variables and the default clamps in
    step; [sched_setattr] keeps a task's minimum below its maximum; what a task
    gets never exceeds the system default nor, in a group, the group's clamp. *)

From S2P Require Import Prelude Task KernelApi Rq Prio Uclamp UclampFacts.

Section Sysctl.
Context {U : UclampApi} {UL : UclampLaws U}.

(** Valid limits, and defaults that hold them. *)
Definition sys_ok (y : uclamp_sys) : Prop :=
  0 <= sysctl_sched_uclamp_util_min y <= sysctl_sched_uclamp_util_max y
  /\ sysctl_sched_uclamp_util_max y <= SCHED_CAPACITY_SCALE
  /\ uc_value (uclamp_default_min y) = sysctl_sched_uclamp_util_min y
  /\ uc_value (uclamp_default_max y) = sysctl_sched_uclamp_util_max y.

Lemma s32_small x : 0 <= x <= 1024 -> u32 (s32 x) = x.
Proof. intros H. rewrite wraps_id by lia. apply wrapu_id. lia. Qed.

(** The sysctl handler keeps the two variables and the default clamps in step
    and valid, whatever the parser of the request stores in the variables and
    returns, and on an error the variables are what they were. *)
Theorem sysctl_sched_uclamp_handler_ok proc write y ret y' update :
  buckets_fit ->
  (forall v, write = false -> (proc v).1 = 0 -> (proc v).2 = v) ->
  sys_ok y -> sysctl_sched_uclamp_handler proc write y = (ret, y', update) ->
  sys_ok y' /\ (ret <> 0 -> y' = y /\ update = false).
Proof using UL.
  intros Hfit Hproc Hy. unfold sysctl_sched_uclamp_handler.
  set (old_min := sysctl_sched_uclamp_util_min y). set (old_max := sysctl_sched_uclamp_util_max y).
  assert (forall a b, y <| sysctl_sched_uclamp_util_min := a |> <| sysctl_sched_uclamp_util_max := b |>
      <| sysctl_sched_uclamp_util_min := u32 (s32 old_min) |>
      <| sysctl_sched_uclamp_util_max := u32 (s32 old_max) |> = y) as Hundo.
  { intros a b. destruct Hy as (H1 & H2 & _). change SCHED_CAPACITY_SCALE with 1024 in H2.
    rewrite !s32_small by lia. by destruct y. }
  destruct (proc (old_min, old_max)) as [result [nmin nmax]] eqn:Ep.
  destruct (nz result) eqn:Er; [intros [= <- <- <-]; by rewrite Hundo|].
  apply nz_false in Er as ->. destruct write; cbn [negb].
  2:{ intros [= <- <- <-]. specialize (Hproc (old_min, old_max)). rewrite Ep in Hproc.
      injection (Hproc eq_refl eq_refl) as -> ->. split; [|done]. destruct Hy as (H1 & H2 & H3 & H4).
      change SCHED_CAPACITY_SCALE with 1024 in *. unfold sys_ok. rsimpl.
      subst old_min old_max. rewrite !wrapu_id by lia. done. }
  rsimpl. destruct (_ || _) eqn:Echk; [intros [= <- <- <-]; by rewrite Hundo|].
  apply orb_false_iff in Echk as [E1 E2]. bool_cases. change SCHED_CAPACITY_SCALE with 1024 in *.
  pose proof (wrapu_range 32 nmin ltac:(lia)). pose proof (wrapu_range 32 nmax ltac:(lia)).
  intros [= <- <- <-]. split; [|done]. destruct Hy as (H1 & H2 & H3 & H4).
  change SCHED_CAPACITY_SCALE with 1024 in *. fold old_min old_max in H1, H2, H3, H4.
  rewrite (wraps_id 32 (u32 nmin)), (wraps_id 32 (u32 nmax)), (wraps_id 32 old_min),
    (wraps_id 32 old_max) by lia.
  destruct (uclamp_se_set_wf (uclamp_default_min y) (u32 nmin) false Hfit) as [_ Evmin].
  { change SCHED_CAPACITY_SCALE with 1024. lia. }
  destruct (uclamp_se_set_wf (uclamp_default_max y) (u32 nmax) false Hfit) as [_ Evmax].
  { change SCHED_CAPACITY_SCALE with 1024. lia. }
  destruct (old_min =? u32 nmin) eqn:Cmin, (old_max =? u32 nmax) eqn:Cmax; cbn [negb];
    bool_cases; unfold sys_ok; change SCHED_CAPACITY_SCALE with 1024; rsimpl;
    rewrite ?Evmin, ?Evmax; lia.
Qed.

End Sysctl.

Lemma sysctl_sched_uclamp_handler_ok_witness :
  let U := uclamp_config 5 in
  let y := mk_uclamp_sys 1024 1024 (mk_uclamp_se 1024 4 false false) (mk_uclamp_se 1024 4 false false) in
  let '(ret, y', _) := sysctl_sched_uclamp_handler (U := U) (fun _ => (0, (100, 700))) true y in
  sys_ok y' /\ ret = 0 /\ uc_value (uclamp_default_max y') = 700.
Proof.
  intros U y. destruct (sysctl_sched_uclamp_handler _ true y) as [[ret y'] upd] eqn:E.
  split; [|vm_compute in E; by injection E as <- <- <-].
  eapply (sysctl_sched_uclamp_handler_ok (U := U) (UL := uclamp_config_laws 5 ltac:(lia))
    (fun _ => (0, (100, 700))) true y ret y' upd); [by vm_compute|done| |exact E].
  vm_compute. repeat split; discriminate.
Defined.

Section Request.
Context {P : PrioApi} {U : UclampApi} {UL : UclampLaws U} {A : AttrFlagApi} {AL : AttrFlagLaws A}.

(** A task's requests: a minimum not above the maximum, which is a capacity. *)
Definition request_ok (t : task_struct) : Prop :=
  0 <= uc_value (uclamp_req t UCLAMP_MIN) <= uc_value (uclamp_req t UCLAMP_MAX)
  /\ uc_value (uclamp_req t UCLAMP_MAX) <= SCHED_CAPACITY_SCALE.

(** [SCHED_FLAG_UTIL_CLAMP] is tested as the two flags. *)
Lemma has_util_clamp x :
  has x SCHED_FLAG_UTIL_CLAMP = has x SCHED_FLAG_UTIL_CLAMP_MIN || has x SCHED_FLAG_UTIL_CLAMP_MAX.
Proof using AL.
  rewrite util_clamp_both. unfold has, nz. rewrite Z.land_lor_distr_r.
  destruct (Z.land x SCHED_FLAG_UTIL_CLAMP_MIN =? 0) eqn:E1, (Z.land x SCHED_FLAG_UTIL_CLAMP_MAX =? 0) eqn:E2;
    bool_cases; rewrite ?E1, ?E2; simpl; try done; apply negb_true_iff, Z.eqb_neq;
    intros [H1 H2]%Z.lor_eq_0_iff; lia.
Qed.

Lemma reset_default_value t id : buckets_fit ->
  0 <= uc_value (uclamp_req t id) ->
  let t' := reset_default_clamp t id in
  prio t' = prio t
  /\ (forall id', id' <> id -> uclamp_req t' id' = uclamp_req t id')
  /\ uc_user_defined (uclamp_req t' id) = uc_user_defined (uclamp_req t id)
  /\ uc_value (uclamp_req t' id) =
     if uc_user_defined (uclamp_req t id) then uc_value (uclamp_req t id)
     else if rt_task t && bool_decide (id = UCLAMP_MIN) then SCHED_CAPACITY_SCALE else uclamp_none id.
Proof using UL.
  intros Hfit Hv. cbn zeta. unfold reset_default_clamp. destruct (uc_user_defined _) eqn:Eu; [by rewrite Eu|].
  set (v := if _ && _ then uclamp_none UCLAMP_MAX else uclamp_none id).
  assert (0 <= v <= SCHED_CAPACITY_SCALE) as Hr by (subst v; destruct (_ && _), id; done).
  destruct (uclamp_se_set_wf (uclamp_req t id) v false Hfit Hr) as [_ Ev].
  split; [by destruct id|]. split; [by destruct id; intros []|].
  assert (forall u, uclamp_req (set_uclamp_req t id u) id = u) as -> by by destruct id.
  split; [done|]. rewrite Ev. subst v. by destruct (_ && _).
Qed.

(** When [uclamp_validate] accepts the attributes, [__setscheduler_uclamp]
    leaves a task that is not real-time with a minimum not above its maximum
    and a maximum that is a capacity, whichever of the two were set, kept or
    reset to their defaults. *)
Theorem setscheduler_uclamp_keeps_order t attr :
  buckets_fit -> request_ok t -> rt_task t = false ->
  0 <= sched_util_min attr -> uclamp_validate t attr = 0 ->
  request_ok (__setscheduler_uclamp t attr).
Proof using UL AL.
  intros Hfit Hreq Hrt Hpos. unfold uclamp_validate, __setscheduler_uclamp.
  destruct (reset_default_value t UCLAMP_MIN Hfit) as (Hp1 & Ho1 & _ & Hv1); [apply Hreq|].
  set (t1 := reset_default_clamp t UCLAMP_MIN) in *.
  specialize (Ho1 UCLAMP_MAX ltac:(done)).
  destruct (reset_default_value t1 UCLAMP_MAX Hfit) as (_ & Ho2 & _ & Hv2).
  { rewrite Ho1. destruct Hreq. lia. }
  set (t2 := reset_default_clamp t1 UCLAMP_MAX) in *. specialize (Ho2 UCLAMP_MIN ltac:(done)).
  rewrite Ho1 in Hv2. rewrite Hrt in Hv1. rewrite andb_false_r in Hv2. rewrite andb_false_l in Hv1.
  rewrite has_util_clamp. intros Hval.
  destruct Hreq as [Hr1 Hr2]. cbn [uclamp_none] in *. change SCHED_CAPACITY_SCALE with 1024 in *.
  destruct (_ <? _) eqn:El in Hval; [done|]. destruct (1024 <? _) eqn:Em in Hval; [done|]. clear Hval.
  assert (forall v, 0 <= v <= 1024 -> forall u ud, uc_value (uclamp_se_set u v ud) = v) as Hset.
  { intros v Hv u ud. by apply uclamp_se_set_wf. }
  unfold request_ok. change SCHED_CAPACITY_SCALE with 1024.
  rewrite <- Ho2 in Hv1. clearbody t1 t2. clear Ho1 Ho2 Hp1.
  destruct (has _ SCHED_FLAG_UTIL_CLAMP_MIN), (has _ SCHED_FLAG_UTIL_CLAMP_MAX);
    cbn [orb negb]; bool_cases; unfold uclamp_req, set_uclamp_req in *; rsimpl; rewrite ?Hset by lia;
    destruct (uc_user_defined (uclamp_req_min t)), (uc_user_defined (uclamp_req_max t)); lia.
Qed.

End Request.

Lemma setscheduler_uclamp_keeps_order_witness :
  let t := zero_task <| prio := 120 |> <| uclamp_req_max := mk_uclamp_se 1024 4 false false |> in
  let attr := mk_sched_attr 0 0x60 0 0 0 0 0 100 600 in
  request_ok (__setscheduler_uclamp (P := linux58_prio) (U := uclamp_config 5) (A := linux58_attr_flags) t attr).
Proof.
  apply (setscheduler_uclamp_keeps_order (P := linux58_prio) (U := uclamp_config 5) (A := linux58_attr_flags)
           (UL := uclamp_config_laws 5 ltac:(lia))); try (vm_compute; repeat split; discriminate); by vm_compute.
Defined.

Section Effective.
Context {U : UclampApi}.

(** The task's group restricts it. *)
Definition group_restricts (g : tg_view) : bool :=
  CONFIG_UCLAMP_TASK_GROUP && negb (tg_is_autogroup g) && negb (tg_is_root g).

(** The effective clamp of a task is never above the system default, and for
    a task of a group that is neither the root nor an autogroup it is never
    above the group's clamp either; a request within both is granted. *)
Theorem uclamp_eff_get_restricted y g t id :
  let v := uc_value (uclamp_eff_get y g t id) in
  let req := uc_value (uclamp_req t id) in
  v <= uc_value (uclamp_default y id)
  /\ (if group_restricts g then v <= uc_value (tg_uclamp g id) else True)
  /\ (if (req <=? uc_value (uclamp_default y id))
         && (negb (group_restricts g) || ((req <=? uc_value (tg_uclamp g id)) && uc_user_defined (uclamp_req t id)))
      then v = req else True).
Proof.
  cbn zeta. unfold uclamp_eff_get, uclamp_tg_restrict, group_restricts.
  destruct ((uc_value (tg_uclamp g id) <? uc_value (uclamp_req t id))
    || negb (uc_user_defined (uclamp_req t id))) eqn:Hg;
  destruct CONFIG_UCLAMP_TASK_GROUP, (tg_is_autogroup g), (tg_is_root g); cbn [andb negb orb];
    case_ifs; bool_cases; repeat split; try lia;
    repeat match goal with H : _ || _ = true |- _ => apply orb_true_iff in H as [?|?] end;
    bool_cases; try lia; congruence.
Qed.
End Effective.
