(* ===== verification/GroupClamps.v ===== *)
(** * GroupClamps: utilization clamps of task groups (core.c, CONFIG_UCLAMP_TASK_GROUP)

    The files [cpu.uclamp.min] and [cpu.uclamp.max], and [cpu_util_update_eff],
    which carries a group's new clamps down the tree and stops at groups whose
    effective clamps do not change. *)

From S2P Require Import Prelude Task KernelApi Rq Prio Uclamp TaskGroup.

(** The clamps of a group: requested and effective, and the request in percent
    with two decimals. *)
Record tg_uclamp := mk_tg_uclamp {
  tgu_req_min : uclamp_se;
  tgu_req_max : uclamp_se;
  tgu_min : uclamp_se;
  tgu_max : uclamp_se;
  tgu_pct_min : Z;
  tgu_pct_max : Z
}.
Definition tgu_req (b : tg_uclamp) (id : uclamp_id) : uclamp_se :=
  match id with UCLAMP_MIN => tgu_req_min b | UCLAMP_MAX => tgu_req_max b end.
Definition tgu (b : tg_uclamp) (id : uclamp_id) : uclamp_se :=
  match id with UCLAMP_MIN => tgu_min b | UCLAMP_MAX => tgu_max b end.
Definition set_tgu_req (b : tg_uclamp) (id : uclamp_id) (se : uclamp_se) (pct : Z) : tg_uclamp :=
  match id with
  | UCLAMP_MIN => mk_tg_uclamp se (tgu_req_max b) (tgu_min b) (tgu_max b) pct (tgu_pct_max b)
  | UCLAMP_MAX => mk_tg_uclamp (tgu_req_min b) se (tgu_min b) (tgu_max b) (tgu_pct_min b) pct
  end.
Definition set_tgu (b : tg_uclamp) (emin emax : uclamp_se) : tg_uclamp :=
  mk_tg_uclamp (tgu_req_min b) (tgu_req_max b) emin emax (tgu_pct_min b) (tgu_pct_max b).

(** The memory of the groups. *)
Definition group_clamps : Type := ptr -> tg_uclamp.
Definition set_group (p : ptr) (b : tg_uclamp) (m : group_clamps) : group_clamps :=
  fun q => if decide (q = p) then b else m q.

Section GroupClamps.
Context {U : UclampApi}.
(** Updating the runnable tasks of a group for the clamps of a bit mask, on the
    rest of the state; [GroupTasks] has the code. *)
Context {X : Type} (uclamp_update_active_tasks : group_clamps -> ptr -> Z -> X -> X).

(** ** cpu_util_update_eff *)

(** The new value of one clamp before the protection is capped by the limit. *)
Definition eff_clamp (parent : option tg_uclamp) (b : tg_uclamp) (id : uclamp_id) : Z :=
  let eff := uc_value (tgu_req b id) in
  match parent with
  | Some q => if uc_value (tgu q id) <? eff then uc_value (tgu q id) else eff
  | None => eff
  end.

(** Storing a value in the bit fields. *)
Definition store_clamp (se : uclamp_se) (eff : Z) : uclamp_se :=
  se <| uc_value := wrapu (bits_per SCHED_CAPACITY_SCALE) eff |>
     <| uc_bucket_id := wrapu (bits_per UCLAMP_BUCKETS) (uclamp_bucket_id eff) |>.

(** The group with its new effective clamps, and the mask of those that changed. *)
Definition update_group (parent : option tg_uclamp) (b : tg_uclamp) : tg_uclamp * Z :=
  let eff_min := eff_clamp parent b UCLAMP_MIN in
  let eff_max := eff_clamp parent b UCLAMP_MAX in
  let eff_min := Z.min eff_min eff_max in
  let '(se_min, clamps) := if eff_min =? uc_value (tgu_min b) then (tgu_min b, 0)
                           else (store_clamp (tgu_min b) eff_min, Z.shiftl 1 0) in
  let '(se_max, clamps) := if eff_max =? uc_value (tgu_max b) then (tgu_max b, clamps)
                           else (store_clamp (tgu_max b) eff_max, Z.lor clamps (Z.shiftl 1 1)) in
  (set_tgu b se_min se_max, clamps).

(** The descendants in pre-order; a group that does not change is skipped with
    all its descendants ([css_rightmost_descendant]). *)
Fixpoint update_eff (parent : option ptr) (g : group) (mx : group_clamps * X) : group_clamps * X :=
  let 'Group id cs := g in
  let '(m, x) := mx in
  let '(b, clamps) := update_group (m <$> parent) (m id) in
  if clamps =? 0 then (m, x)
  else
    let m := set_group id b m in
    fold_left (fun mx c => update_eff (Some id) c mx) cs (m, uclamp_update_active_tasks m id clamps x).

Definition cpu_util_update_eff (parent : option ptr) (g : group) (m : group_clamps) (x : X) : group_clamps * X :=
  update_eff parent g (m, x).

(** The root group follows the sysctl. *)
Definition uclamp_update_root_tg (util_min util_max : Z) (root : group) (m : group_clamps) (x : X) : group_clamps * X :=
  let tg := group_id root in
  let b := m tg in
  let m := set_group tg (mk_tg_uclamp (uclamp_se_set (tgu_req_min b) util_min false)
                           (uclamp_se_set (tgu_req_max b) util_max false)
                           (tgu_min b) (tgu_max b) (tgu_pct_min b) (tgu_pct_max b)) m in
  cpu_util_update_eff None root m x.

(** A new group requests nothing and starts with its parent's effective clamps. *)
Definition alloc_uclamp_sched_group (parent b : tg_uclamp) : tg_uclamp :=
  mk_tg_uclamp (uclamp_se_set (tgu_req_min b) (uclamp_none UCLAMP_MIN) false)
    (uclamp_se_set (tgu_req_max b) (uclamp_none UCLAMP_MAX) false)
    (tgu_min parent) (tgu_max parent) (tgu_pct_min b) (tgu_pct_max b).

(** ** The files *)

Definition UCLAMP_PERCENT_SCALE : Z := 100 * 100.

(** What the buffer holds: the word "max", or what [cgroup_parse_float] makes of
    it, an error number or hundredths of a percent. *)
Inductive percent_text := text_max | text_float (parsed : Z + Z).

Record uclamp_request := mk_uclamp_request { req_percent : Z; req_util : Z; req_ret : Z }.

Definition capacity_from_percent (buf : percent_text) : uclamp_request :=
  match buf with
  | text_max => mk_uclamp_request UCLAMP_PERCENT_SCALE SCHED_CAPACITY_SCALE 0
  | text_float (inl ret) => mk_uclamp_request UCLAMP_PERCENT_SCALE SCHED_CAPACITY_SCALE ret
  | text_float (inr percent) =>
      if UCLAMP_PERCENT_SCALE <? u64 percent then mk_uclamp_request percent SCHED_CAPACITY_SCALE (- ERANGE)
      else mk_uclamp_request percent
             (DIV_ROUND_CLOSEST (u64 (Z.shiftl percent SCHED_CAPACITY_SHIFT)) UCLAMP_PERCENT_SCALE) 0
  end.

Definition cpu_uclamp_write (buf : percent_text) (nbytes : Z) (parent : option ptr) (g : group) (clamp_id : uclamp_id)
    (m : group_clamps) (x : X) : Z * (group_clamps * X) :=
  let req := capacity_from_percent buf in
  if nz (req_ret req) then (req_ret req, (m, x))
  else
    let tg := group_id g in
    let se := tgu_req (m tg) clamp_id in
    let se := if negb (uc_value se =? req_util req) then uclamp_se_set se (req_util req) false else se in
    let m := set_group tg (set_tgu_req (m tg) clamp_id se (req_percent req)) m in
    (nbytes, cpu_util_update_eff parent g m x).

Definition cpu_uclamp_min_write (buf : percent_text) (nbytes : Z) (parent : option ptr) (g : group) :=
  cpu_uclamp_write buf nbytes parent g UCLAMP_MIN.
Definition cpu_uclamp_max_write (buf : percent_text) (nbytes : Z) (parent : option ptr) (g : group) :=
  cpu_uclamp_write buf nbytes parent g UCLAMP_MAX.

(** What is shown: "max", or the whole and the hundredths of a percentage. *)
Inductive shown_clamp := shown_max | shown_percent (whole hundredths : Z).

Definition cpu_uclamp_print (b : tg_uclamp) (clamp_id : uclamp_id) : shown_clamp :=
  if uc_value (tgu_req b clamp_id) =? SCHED_CAPACITY_SCALE then shown_max
  else
    let percent := match clamp_id with UCLAMP_MIN => tgu_pct_min b | UCLAMP_MAX => tgu_pct_max b end in
    shown_percent (percent / 100) (percent mod 100).

(** The files cpu.uclamp.min and cpu.uclamp.max. *)
Definition cpu_uclamp_min_show (b : tg_uclamp) : shown_clamp := cpu_uclamp_print b UCLAMP_MIN.
Definition cpu_uclamp_max_show (b : tg_uclamp) : shown_clamp := cpu_uclamp_print b UCLAMP_MAX.
End GroupClamps.
