(* ===== verification/GroupClampsSpec.v ===== *)
(** * GroupClampsSpec: effective clamps are the most restrictive of the tree

    [consistent]: the effective clamps of every group are its requests, capped by
    the effective clamps of its parent, and its protection is capped by its
    limit.  The update restores this for the whole subtree of a group whose
    requests changed, although it stops where nothing changes. *)

From S2P Require Import Prelude Task KernelApi Rq Prio Uclamp UclampFacts TaskGroup GroupClamps.

Section Spec.
Context {U : UclampApi} {UL : UclampLaws U}.
Context {X : Type} (update_tasks : group_clamps -> ptr -> Z -> X -> X).

(** Effective minimum and maximum. *)
Definition values (b : tg_uclamp) : Z * Z := (uc_value (tgu_min b), uc_value (tgu_max b)).
Definition requests (b : tg_uclamp) : Z * Z := (uc_value (tgu_req_min b), uc_value (tgu_req_max b)).

(** What a group gets of its requests below a parent. *)
Definition restricted (parent : option (Z * Z)) (req : Z * Z) : Z * Z :=
  let '(lo, hi) := match parent with Some p => (Z.min req.1 p.1, Z.min req.2 p.2) | None => req end in
  (Z.min lo hi, hi).

Definition bucket_ok (se : uclamp_se) : Prop :=
  uc_bucket_id se = wrapu (bits_per UCLAMP_BUCKETS) (uclamp_bucket_id (uc_value se)).

Definition group_ok (parent : option tg_uclamp) (b : tg_uclamp) : Prop :=
  values b = restricted (values <$> parent) (requests b).

Fixpoint consistent (m : group_clamps) (parent : option ptr) (g : group) : Prop :=
  let 'Group id cs := g in
  group_ok (m <$> parent) (m id) /\
  (fix all (l : list group) : Prop := match l with [] => True | c :: l => consistent m (Some id) c /\ all l end) cs.

Definition children (g : group) : list group := let 'Group _ cs := g in cs.

Lemma consistent_iff m parent g :
  consistent m parent g <-> group_ok (m <$> parent) (m (group_id g)) /\ Forall (consistent m (Some (group_id g))) (children g).
Proof.
  destruct g as [id cs]. cbn. split; intros [H1 H2]; (split; [done|]); clear H1.
  - induction cs as [|c cs IH]; constructor; [apply H2|apply IH, H2].
  - induction cs as [|c cs IH]; [done|]. apply Forall_cons in H2 as [H2 H3]. split; [done|by apply IH].
Qed.

(** The values fit the bit fields. *)
Definition in_range (v : Z) : Prop := 0 <= v <= SCHED_CAPACITY_SCALE.
Definition pair_in_range (p : Z * Z) : Prop := in_range p.1 /\ in_range p.2.

Lemma restricted_range parent req :
  (forall p, parent = Some p -> pair_in_range p) -> pair_in_range req -> pair_in_range (restricted parent req).
Proof.
  unfold restricted, pair_in_range, in_range. intros Hp Hr.
  destruct parent as [p|]; cbn [fst snd]; [specialize (Hp p eq_refl)|destruct req; cbn in *]; lia.
Qed.

Lemma store_clamp_value se v : in_range v -> uc_value (store_clamp se v) = v /\ bucket_ok (store_clamp se v).
Proof using UL.
  intros Hv. assert (uc_value (store_clamp se v) = v) as E.
  { unfold store_clamp. rsimpl. unfold in_range in Hv. destruct (bits_per_spec SCHED_CAPACITY_SCALE ltac:(done)) as [H1 H2].
    apply wrapu_id. lia. }
  split; [exact E|]. unfold bucket_ok. rewrite E. reflexivity.
Qed.

(** One group: the requests stay, the effective clamps become the restricted
    requests, and the mask is zero exactly when they were already. *)
Lemma update_group_spec parent b :
  (forall q, parent = Some q -> pair_in_range (values q)) -> pair_in_range (requests b) ->
  let '(b', clamps) := update_group parent b in
  group_ok parent b' /\ requests b' = requests b /\ tgu_pct_min b' = tgu_pct_min b /\ tgu_pct_max b' = tgu_pct_max b /\
  (clamps = 0 <-> group_ok parent b) /\
  (bucket_ok (tgu_min b) -> bucket_ok (tgu_min b')) /\ (bucket_ok (tgu_max b) -> bucket_ok (tgu_max b')).
Proof using UL.
  intros Hp Hb. unfold update_group.
  set (lo := Z.min (eff_clamp parent b UCLAMP_MIN) (eff_clamp parent b UCLAMP_MAX)).
  set (hi := eff_clamp parent b UCLAMP_MAX).
  assert (restricted (values <$> parent) (requests b) = (lo, hi)) as Er.
  { subst lo hi. unfold eff_clamp, restricted, values, requests. destruct parent as [q|]; [|done]. cbn.
    set (a := uc_value (tgu_req_min b)). set (c := uc_value (tgu_req_max b)).
    set (a' := uc_value (tgu_min q)). set (c' := uc_value (tgu_max q)).
    destruct (a' <? a) eqn:Ea, (c' <? c) eqn:Ec; bool_cases; f_equal; lia. }
  assert (pair_in_range (lo, hi)) as Hr.
  { rewrite <- Er. apply restricted_range; [|done]. intros p. destruct parent as [q|]; [|done]. intros [= <-]. by apply Hp. }
  destruct Hr as [Hlo Hhi]. cbn in Hlo, Hhi.
  destruct (store_clamp_value (tgu_min b) lo Hlo) as [V1 B1]. destruct (store_clamp_value (tgu_max b) hi Hhi) as [V2 B2].
  destruct (lo =? uc_value (tgu_min b)) eqn:E1, (hi =? uc_value (tgu_max b)) eqn:E2; bool_cases;
    unfold group_ok, set_tgu, values at 1; cbn [tgu_min tgu_max tgu_pct_min tgu_pct_max]; unfold requests at 1 2;
    cbn [tgu_req_min tgu_req_max]; fold (requests b); rewrite Er.
  - split; [by rewrite E1, E2|]. repeat split; try done. intros _. unfold values. by rewrite E1, E2.
  - rewrite V2. split; [by rewrite <- E1|]. repeat split; try done. unfold values. intros [= _ ?]. congruence.
  - rewrite V1. split; [by rewrite <- E2|]. repeat split; try done. unfold values. intros [= ? _]. congruence.
  - rewrite V1, V2. repeat split; try done. unfold values. intros [= ? _]. congruence.
Qed.

(** ** Trees *)

Lemma ids_eq g : ids g = group_id g :: flat_map ids (children g).
Proof. by destruct g. Qed.

Lemma child_ids (c g : group) : c ∈ children g -> ids c ⊆ ids g.
Proof.
  intros Hc p Hp. rewrite ids_eq. right. apply list_elem_of_In, in_flat_map.
  exists c. by rewrite <- !list_elem_of_In.
Qed.

(** Consistency reads the groups of the subtree and the parent's effective clamps. *)
Lemma consistent_ext_values m m' g parent :
  (forall p, p ∈ ids g -> m' p = m p) -> (forall p, parent = Some p -> values (m' p) = values (m p)) ->
  consistent m parent g -> consistent m' parent g.
Proof.
  revert parent. induction g as [id cs IH] using group_ind'. intros parent Hin Hp.
  rewrite !consistent_iff. intros [H1 H2]. cbn [group_id children] in *. split.
  - rewrite (Hin id) by (rewrite ids_eq; by left). unfold group_ok in *. rewrite H1.
    destruct parent as [p|]; [|done].
    change (restricted (Some (values (m p))) (requests (m id)) = restricted (Some (values (m' p))) (requests (m id))).
    by rewrite (Hp p eq_refl).
  - apply list.Forall_forall. intros c Hc. rewrite list.Forall_forall in H2.
    apply IH; [done| | |by apply H2].
    + intros p Hp'. apply Hin. by apply (child_ids c (Group id cs)).
    + intros p [= <-]. rewrite Hin; [done|]. rewrite ids_eq. by left.
Qed.

Lemma consistent_ext m m' g parent :
  (forall p, p ∈ ids g -> m' p = m p) -> (forall p, parent = Some p -> m' p = m p) ->
  consistent m parent g -> consistent m' parent g.
Proof. intros H1 H2. apply consistent_ext_values; [done|]. intros p Hp. by rewrite H2. Qed.

(** The groups of a list of siblings. *)
Definition forest (cs : list group) : list ptr := flat_map ids cs.

Lemma forest_elem c cs : c ∈ cs -> ids c ⊆ forest cs.
Proof. intros Hc p Hp. apply list_elem_of_In, in_flat_map. exists c. by rewrite <- !list_elem_of_In. Qed.

Lemma forest_NoDup c cs : c ∈ cs -> NoDup (forest cs) -> NoDup (ids c).
Proof.
  intros Hc Hnd. induction cs as [|e cs IH]; [by apply not_elem_of_nil in Hc|].
  apply NoDup_app in Hnd as (H1 & _ & H2). apply elem_of_cons in Hc as [->|Hc]; [done|by apply IH].
Qed.

Lemma forest_disjoint c d cs p :
  NoDup (forest cs) -> c ∈ cs -> d ∈ cs -> p ∈ ids c -> p ∈ ids d -> c = d.
Proof.
  intros Hnd Hc Hd Hpc Hpd. induction cs as [|e cs IH]; [by apply not_elem_of_nil in Hc|].
  apply NoDup_app in Hnd as (_ & Hdis & Hnd). fold (forest cs) in Hdis.
  apply elem_of_cons in Hc as [->|Hc]; apply elem_of_cons in Hd as [->|Hd]; [done| | |by apply IH].
  - exfalso. apply (Hdis p Hpc). by apply (forest_elem d cs).
  - exfalso. apply (Hdis p Hpd). by apply (forest_elem c cs).
Qed.

(** The requests of the groups of a set fit the bit fields. *)
Definition requests_ok (m : group_clamps) (l : list ptr) : Prop := forall p, p ∈ l -> pair_in_range (requests (m p)).
Definition parent_ok (m : group_clamps) (parent : option ptr) : Prop :=
  forall p, parent = Some p -> pair_in_range (values (m p)).

(** What an update of the groups [l] may do: the others stay, the requests stay. *)
Definition updates (l : list ptr) (m m' : group_clamps) : Prop :=
  (forall p, p ∉ l -> m' p = m p) /\ (forall p, requests (m' p) = requests (m p)).

Lemma updates_refl l m : updates l m m.
Proof. done. Qed.

Lemma updates_trans l l1 l2 m1 m2 m3 :
  l1 ⊆ l -> l2 ⊆ l -> updates l1 m1 m2 -> updates l2 m2 m3 -> updates l m1 m3.
Proof.
  intros H1 H2 [A1 B1] [A2 B2]. split; intros p.
  - intros Hp. rewrite A2, A1; [done| |]; intros Hx; apply Hp; [by apply H1|by apply H2].
  - by rewrite B2, B1.
Qed.

Lemma updates_requests_ok l l' m m' : updates l m m' -> requests_ok m l' -> requests_ok m' l'.
Proof. intros [_ Hu] H p Hp. rewrite Hu. by apply H. Qed.

(** ** The traversal restores consistency *)

(** Evidence that the tasks of a group were updated. *)
Context (updated : ptr -> X -> Prop).
Context (updated_now : forall m p c x, updated p (update_tasks m p c x)).
Context (updated_keep : forall m q p c x, updated p x -> updated p (update_tasks m q c x)).

Definition restores (parent : option ptr) (g : group) : Prop :=
  forall m x, parent_ok m parent -> requests_ok m (ids g) -> Forall (consistent m (Some (group_id g))) (children g) ->
  let '(m', x') := update_eff update_tasks parent g (m, x) in
  consistent m' parent g /\ updates (ids g) m m' /\
  (forall p, updated p x -> updated p x') /\ (forall p, m' p = m p \/ updated p x').

(** Siblings are restored one after the other. *)
Lemma restores_siblings id cs :
  (forall c, c ∈ cs -> restores (Some id) c) -> NoDup (forest cs) -> id ∉ forest cs ->
  forall m x, parent_ok m (Some id) -> requests_ok m (forest cs) ->
  (forall c, c ∈ cs -> Forall (consistent m (Some (group_id c))) (children c)) ->
  let '(m', x') := fold_left (fun mx c => update_eff update_tasks (Some id) c mx) cs (m, x) in
  Forall (consistent m' (Some id)) cs /\ updates (forest cs) m m' /\
  (forall p, updated p x -> updated p x') /\ (forall p, m' p = m p \/ updated p x').
Proof.
  intros Hr Hnd Hid. induction cs as [|c cs IH]; intros m x Hp Hreq Hcs.
  { cbn. repeat split; [constructor|done|by left]. }
  unfold forest in Hnd, Hid, Hreq. cbn [flat_map] in Hnd, Hid, Hreq. fold (forest cs) in Hnd, Hid, Hreq.
  apply NoDup_app in Hnd as (Hc & Hdis & Hnd). rewrite not_elem_of_app in Hid. destruct Hid as [Hid1 Hid2].
  cbn [fold_left]. pose proof (Hr c ltac:(by left) m x Hp) as Hone.
  destruct (update_eff update_tasks (Some id) c (m, x)) as [m1 x1].
  destruct Hone as (K1 & K2 & K3 & K4);
    [intros p Hpp; apply Hreq; apply elem_of_app; by left|apply Hcs; by left|].
  specialize (IH ltac:(intros; apply Hr; by right) Hnd Hid2 m1 x1).
  destruct (fold_left _ cs (m1, x1)) as [m2 x2]. destruct IH as (L1 & L2 & L3 & L4).
  - intros p [= <-]. rewrite (proj1 K2) by done. by apply Hp.
  - apply (updates_requests_ok (ids c) _ m); [done|]. intros p Hpp. apply Hreq, elem_of_app. by right.
  - intros d Hd. specialize (Hcs d ltac:(by right)). rewrite list.Forall_forall in Hcs |- *.
    assert (forall p, p ∈ ids d -> m1 p = m p) as Hsame.
    { intros p Hpd. apply (proj1 K2). intros Hpc. apply (Hdis p Hpc). by apply (forest_elem d cs). }
    intros e He. apply (consistent_ext m); [| |by apply Hcs].
    + intros p Hpe. apply Hsame. by apply (child_ids e d).
    + intros p [= <-]. apply Hsame. rewrite ids_eq. by left.
  - repeat split.
    + constructor; [|done]. apply (consistent_ext m1); [| |done].
      * intros p Hpc. apply (proj1 L2). by apply Hdis.
      * intros p [= <-]. by apply (proj1 L2).
    + apply (updates_trans _ (ids c) (forest cs) _ m1); [| |done..]; intros p Hpp; apply elem_of_app; tauto.
    + intros p. by rewrite (proj2 L2), (proj2 K2).
    + intros p Hpp. by apply L3, K3.
    + intros p. destruct (L4 p) as [->|]; [|by right]. destruct (K4 p); [by left|right; by apply L3].
Qed.

Lemma set_group_same p b m : set_group p b m p = b.
Proof. unfold set_group. by rewrite decide_True. Qed.
Lemma set_group_other p q b m : q <> p -> set_group p b m q = m q.
Proof. intros H. unfold set_group. by rewrite decide_False. Qed.

Lemma update_eff_restores g :
  forall parent, NoDup (ids g) -> (forall p, parent = Some p -> p ∉ ids g) -> restores parent g.
Proof using UL updated_now updated_keep.
  induction g as [id cs IH] using group_ind'. intros parent Hnd Hpar m x Hp Hreq Hcs.
  cbn [group_id children update_eff] in *. rewrite ids_eq in Hnd, Hreq. cbn [group_id children] in Hnd, Hreq.
  fold (forest cs) in Hnd, Hreq. apply NoDup_cons in Hnd as [Hid Hnd].
  pose proof (update_group_spec (m <$> parent) (m id)) as Hg.
  destruct (update_group (m <$> parent) (m id)) as [b clamps].
  destruct Hg as (G1 & G2 & _ & _ & G5 & _); [|apply Hreq; by left|].
  { intros q. destruct parent as [p|]; [|done]. intros [= <-]. by apply Hp. }
  destruct (Z.eqb_spec clamps 0) as [Hz|Hz].
  { split; [apply consistent_iff; split; [by apply G5|done]|]. repeat split; [done|by left]. }
  pose proof (restores_siblings id cs) as Hs.
  set (m1 := set_group id b m) in *. set (x1 := update_tasks m1 id clamps x).
  assert (updates [id] m m1) as Hu1.
  { split; intros p; [intros Hpi; apply set_group_other; intros ->; apply Hpi; by left|].
    destruct (decide (p = id)) as [->|Hne]; subst m1; [by rewrite set_group_same|by rewrite set_group_other]. }
  assert (forall c, c ∈ cs -> restores (Some id) c) as Hr.
  { intros c Hc. apply IH; [done| |].
    - by apply (forest_NoDup c cs).
    - intros p [= <-] Hx. apply Hid. by apply (forest_elem c cs). }
  specialize (Hs Hr Hnd Hid m1 x1).
  destruct (fold_left _ cs (m1, x1)) as [m2 x2]. destruct Hs as (L1 & L2 & L3 & L4).
  - intros p [= <-]. subst m1. rewrite set_group_same.
    replace (values b) with (restricted (values <$> (m <$> parent)) (requests b)) by done.
    apply restricted_range; [|rewrite G2; apply Hreq; by left].
    intros q. destruct parent as [p|]; [|done]. intros [= <-]. by apply Hp.
  - apply (updates_requests_ok [id] _ m); [done|]. intros p Hpp. apply Hreq. by right.
  - intros c Hc. rewrite list.Forall_forall in Hcs. specialize (Hcs c Hc). apply consistent_iff in Hcs as [_ Hcs].
    rewrite list.Forall_forall in Hcs |- *. intros e He.
    assert (forall p, p ∈ ids c -> m1 p = m p) as Hsame.
    { intros p Hpc. apply set_group_other. intros ->. apply Hid. by apply (forest_elem c cs). }
    apply (consistent_ext m); [| |by apply Hcs].
    + intros p Hpe. apply Hsame. by apply (child_ids e c).
    + intros p [= <-]. apply Hsame. rewrite ids_eq. by left.
  - assert (m2 id = b) as Hmid. { rewrite (proj1 L2) by done. apply set_group_same. }
    assert (updates (ids (Group id cs)) m m2) as Hu.
    { apply (updates_trans _ [id] (forest cs) _ m1); [| |done..]; rewrite ids_eq; cbn [group_id children];
        fold (forest cs); intros p Hpp; [apply elem_of_cons in Hpp as [->|Hpp]; [by left|by apply not_elem_of_nil in Hpp]|by right]. }
    split; [|split; [done|split]].
    + apply consistent_iff. split; [|done]. cbn [group_id]. rewrite Hmid. destruct parent as [p|]; [|done].
      cbn in *. rewrite (proj1 Hu); [done|]. by apply Hpar.
    + intros p Hpp. by apply L3, updated_keep.
    + intros p. destruct (L4 p) as [->|]; [|by right].
      destruct (decide (p = id)) as [->|Hne]; [right; apply L3, updated_now|left; by apply set_group_other].
Qed.

(** ** A group inside the tree *)

Inductive occurs : option ptr -> group -> option ptr -> group -> Prop :=
  | occurs_here parent g : occurs parent g parent g
  | occurs_below parent id cs c q g : c ∈ cs -> occurs (Some id) c q g -> occurs parent (Group id cs) q g.

Lemma consistent_range m parent g :
  parent_ok m parent -> requests_ok m (ids g) -> consistent m parent g -> parent_ok m (Some (group_id g)).
Proof.
  intros Hp Hr [H _]%consistent_iff p [= <-]. unfold group_ok in H. rewrite H.
  apply restricted_range; [|apply Hr; rewrite ids_eq; by left].
  intros q. destruct parent as [p|]; [|done]. intros [= <-]. by apply Hp.
Qed.

(** What holds at a group of a consistent tree. *)
Lemma occurs_inv m parent t q g :
  occurs parent t q g -> NoDup (ids t) -> (forall p, parent = Some p -> p ∉ ids t) ->
  parent_ok m parent -> requests_ok m (ids t) -> consistent m parent t ->
  ids g ⊆ ids t /\ NoDup (ids g) /\ (forall p, q = Some p -> p ∉ ids g) /\ parent_ok m q /\ consistent m q g.
Proof.
  induction 1 as [parent g|parent id cs c q g Hc Ho IH]; intros Hnd Hpar Hp Hr Hcons; [done|].
  pose proof (consistent_range _ _ _ Hp Hr Hcons) as Hp'. apply consistent_iff in Hcons as [_ Hcons].
  pose proof (child_ids c (Group id cs) Hc) as Hsub. cbn [group_id children] in *.
  rewrite list.Forall_forall in Hcons. rewrite ids_eq in Hnd. apply NoDup_cons in Hnd as [Hid Hnd]. cbn in Hid, Hnd.
  destruct IH as (I1 & I2 & I3 & I4 & I5).
  - by apply (forest_NoDup c cs).
  - intros p [= <-] Hx. apply Hid. by apply (forest_elem c cs).
  - done.
  - intros p Hpp. by apply Hr, Hsub.
  - by apply Hcons.
  - split; [|done]. intros p Hpp. by apply Hsub, I1.
Qed.

Lemma occurs_ids parent t q g : occurs parent t q g -> ids g ⊆ ids t.
Proof.
  induction 1 as [|parent id cs c q g Hc Ho IH]; [done|].
  intros p Hp. apply (child_ids c (Group id cs) Hc). by apply IH.
Qed.

(** Replacing a subtree by a consistent one keeps the tree consistent. *)
Lemma occurs_replace m m' parent t q g :
  occurs parent t q g -> NoDup (ids t) -> (forall p, parent = Some p -> p ∉ ids t) ->
  (forall p, p ∉ ids g -> m' p = m p) -> consistent m' q g -> consistent m parent t -> consistent m' parent t.
Proof.
  induction 1 as [parent g|parent id cs c q g Hc Ho IH]; intros Hnd Hpar Hsame Hg Hcons; [done|].
  pose proof (occurs_ids _ _ _ _ Ho) as Hsub. apply consistent_iff in Hcons as [Hok Hcons].
  rewrite ids_eq in Hnd. apply NoDup_cons in Hnd as [Hid Hnd]. cbn [group_id children] in *. fold (forest cs) in Hid, Hnd.
  assert (id ∉ ids g) as Hidg. { intros Hx. apply Hid, (forest_elem c cs Hc). by apply Hsub. }
  rewrite list.Forall_forall in Hcons. apply consistent_iff. cbn [group_id children]. split.
  - rewrite Hsame by done. destruct parent as [p|]; [|done]. cbn in *. rewrite Hsame; [done|].
    intros Hx. apply (Hpar p eq_refl). apply (child_ids c (Group id cs) Hc). by apply Hsub.
  - apply list.Forall_forall. intros d Hd.
    assert (d = c \/ forall p, p ∈ ids d -> p ∉ ids g) as [->|Hdis].
    { destruct (decide (Exists (fun p => p ∈ ids c) (ids d))) as [(p & Hp1 & Hp2)%list.Exists_exists|Hn].
      - left. by apply (forest_disjoint d c cs p).
      - right. intros p Hp Hx. apply Hn, list.Exists_exists. exists p. split; [done|by apply Hsub]. }
    + apply IH; [by apply (forest_NoDup c cs)| |done|done|by apply Hcons].
      intros p [= <-] Hx. apply Hid. by apply (forest_elem c cs).
    + apply (consistent_ext m); [| |by apply Hcons]; [intros p Hp; by apply Hsame, Hdis|].
      intros p [= <-]. by apply Hsame.
Qed.
End Spec.
