(* ===== verification/RemoteTick.v ===== *)
(** * RemoteTick: the work that ticks for a CPU without a tick (core.c)

    The state diagram of [struct tick_work] and the workqueue it lives on, and the
    proof that a CPU's work is never lost and never doubled. *)

From S2P Require Import Prelude.

(** housekeeping_cpu(cpu, HK_FLAG_TICK): the CPU keeps its own tick. *)
Class Housekeeping := housekeeping_cpu_tick : Z -> bool.

(** ** The state diagram *)

Definition TICK_SCHED_REMOTE_OFFLINE : Z := 0.
Definition TICK_SCHED_REMOTE_OFFLINING : Z := 1.
Definition TICK_SCHED_REMOTE_RUNNING : Z := 2.

(** The work of a CPU on the workqueue: waiting for its time, executing up to the
    atomic operation on the state, or about to queue itself again. *)
Inductive work_phase := Waiting | Executing | Requeueing.
#[export] Instance work_phase_eq : EqDecision work_phase.
Proof. solve_decision. Defined.

(** [struct tick_work] of every CPU (its [state]), and the works alive. *)
Record tick_sys := mk_tick_sys {
  tw_state : gmap Z Z;
  tw_works : list (Z * work_phase)
}.
#[export] Instance eta_tick_sys : EtaRecord tick_sys := fun x => mk_tick_sys (tw_state x) (tw_works x).
#[export] Instance upd_tw_state : FieldUpdate tw_state := ltac:(field_update tw_state).
#[export] Instance upd_tw_works : FieldUpdate tw_works := ltac:(field_update tw_works).

(** [alloc_percpu] clears what it allocates. *)
Definition sched_tick_offload_init (possible : gset Z) : tick_sys :=
  mk_tick_sys (gset_to_gmap TICK_SCHED_REMOTE_OFFLINE possible) [].

(** A work that already waits is not queued twice; initialising one that waits
    destroys the queue ([None]). *)
Definition queue_delayed_work (cpu : Z) (y : tick_sys) : tick_sys :=
  if bool_decide ((cpu, Waiting) ∈ tw_works y) then y
  else y <| tw_works := (cpu, Waiting) :: tw_works y |>.
Definition init_delayed_work (cpu : Z) (y : tick_sys) : option tick_sys :=
  if bool_decide ((cpu, Waiting) ∈ tw_works y) then None else Some y.

Section RemoteTick.
Context {T : Housekeeping}.

Definition sched_tick_start (cpu : Z) (y : tick_sys) : option tick_sys :=
  if housekeeping_cpu_tick cpu then Some y
  else
    os ← tw_state y !! cpu;
    let y := y <| tw_state := <[cpu := TICK_SCHED_REMOTE_RUNNING]> (tw_state y) |> in
    if os =? TICK_SCHED_REMOTE_OFFLINE then
      y ← init_delayed_work cpu y; Some (queue_delayed_work cpu y)
    else Some y.

Definition sched_tick_stop (cpu : Z) (y : tick_sys) : option tick_sys :=
  if housekeeping_cpu_tick cpu then Some y
  else
    os ← tw_state y !! cpu;
    Some (y <| tw_state := <[cpu := TICK_SCHED_REMOTE_OFFLINING]> (tw_state y) |>).

(** [atomic_fetch_add_unless(&twork->state, -1, TICK_SCHED_REMOTE_RUNNING)]: the
    old value. *)
Definition tick_remote_state (cpu : Z) (y : tick_sys) : option (tick_sys * Z) :=
  os ← tw_state y !! cpu;
  Some (if os =? TICK_SCHED_REMOTE_RUNNING then y else y <| tw_state := <[cpu := s32 (os - 1)]> (tw_state y) |>, os).

(** Does the work queue itself again? *)
Definition tick_remote_again (os : Z) : bool := os =? TICK_SCHED_REMOTE_RUNNING.

(** [sched_tick_remote] as the workqueue sees it: it starts to execute, decides,
    queues itself.  CPUs come and go through the other two functions; a CPU is
    stopped only after it was started. *)
Definition retire (x : Z * work_phase) (l : list (Z * work_phase)) : list (Z * work_phase) :=
  match list_find (fun y => y = x) l with
  | Some (i, _) => delete i l
  | None => l
  end.

Inductive remote_step : tick_sys -> tick_sys -> Prop :=
  | rs_start cpu y y' : sched_tick_start cpu y = Some y' -> remote_step y y'
  | rs_stop cpu y y' :
      tw_state y !! cpu = Some TICK_SCHED_REMOTE_RUNNING -> sched_tick_stop cpu y = Some y' -> remote_step y y'
  | rs_begin cpu y :
      (cpu, Waiting) ∈ tw_works y ->
      remote_step y (y <| tw_works := (cpu, Executing) :: retire (cpu, Waiting) (tw_works y) |>)
  | rs_decide cpu y y' os :
      (cpu, Executing) ∈ tw_works y -> tick_remote_state cpu y = Some (y', os) ->
      remote_step y (y' <| tw_works :=
        (if tick_remote_again os then [(cpu, Requeueing)] else []) ++ retire (cpu, Executing) (tw_works y') |>)
  | rs_requeue cpu y :
      (cpu, Requeueing) ∈ tw_works y ->
      remote_step y (queue_delayed_work cpu (y <| tw_works := retire (cpu, Requeueing) (tw_works y) |>)).
End RemoteTick.

(** ** Taking one work off the list *)

Lemma retire_perm x l : x ∈ l -> l ≡ₚ x :: retire x l.
Proof.
  intros Hx. unfold retire. destruct (list_find (fun y => y = x) l) as [[i y]|] eqn:Hf.
  - apply list_find_Some in Hf as (Hi & -> & _). by apply delete_Permutation.
  - rewrite list_find_None, Forall_forall in Hf. by destruct (Hf x Hx).
Qed.

Section Remote.
Context {T : Housekeeping}.

(** The phases of the works of a CPU. *)
Definition works_of (cpu : Z) (y : tick_sys) : list work_phase :=
  snd <$> filter (fun x => x.1 = cpu) (tw_works y).

(** What the state of a CPU says about its works. *)
Definition one_work (o : option Z) (works : list work_phase) : Prop :=
  match o with
  | Some st =>
      st = TICK_SCHED_REMOTE_OFFLINE /\ works = [] \/
      (st = TICK_SCHED_REMOTE_OFFLINING \/ st = TICK_SCHED_REMOTE_RUNNING) /\ exists ph, works = [ph]
  | None => works = []
  end.
Definition diagram (y : tick_sys) : Prop := forall cpu, one_work (tw_state y !! cpu) (works_of cpu y).

Lemma works_of_cons c ph l st cpu :
  works_of cpu (mk_tick_sys st ((c, ph) :: l)) =
  (if decide (c = cpu) then [ph] else []) ++ works_of cpu (mk_tick_sys st l).
Proof. unfold works_of, tw_works. rewrite filter_cons. cbn [fst]. by destruct (decide (c = cpu)). Qed.

Lemma works_of_perm st l l' cpu : l ≡ₚ l' -> works_of cpu (mk_tick_sys st l) ≡ₚ works_of cpu (mk_tick_sys st l').
Proof. intros H. unfold works_of, tw_works. by rewrite H. Qed.

(** Among the works of a CPU that has at most one, taking that one leaves none. *)
Lemma works_of_retire st c ph l cpu o :
  (c, ph) ∈ l -> one_work o (works_of c (mk_tick_sys st l)) ->
  (exists x, o = Some x /\ x <> TICK_SCHED_REMOTE_OFFLINE) /\
  works_of cpu (mk_tick_sys st (retire (c, ph) l)) =
  (if decide (c = cpu) then [] else works_of cpu (mk_tick_sys st l)).
Proof.
  intros Hin Ho. pose proof (retire_perm _ _ Hin) as Hp.
  pose proof (works_of_perm st _ _ c Hp) as Hc. rewrite works_of_cons, decide_True in Hc by done.
  assert (exists x, o = Some x /\ (x = TICK_SCHED_REMOTE_OFFLINING \/ x = TICK_SCHED_REMOTE_RUNNING) /\
    exists ph', works_of c (mk_tick_sys st l) = [ph']) as (x & Hx & Hx' & ph' & Hl).
  { destruct o as [x|]; unfold one_work in Ho.
    - destruct Ho as [[_ Hn]|[H1 H2]]; [by rewrite Hn in Hc; apply Permutation_nil_l in Hc|by exists x].
    - rewrite Ho in Hc. by apply Permutation_nil_l in Hc. }
  split; [exists x; split; [done|by destruct Hx' as [->| ->]]|].
  rewrite Hl in Hc. apply Permutation_length in Hc. rewrite length_app in Hc. change (length [_]) with 1%nat in Hc.
  destruct (decide (c = cpu)) as [<-|Ecpu]; [apply nil_length_inv; lia|].
  assert (filter (fun x : Z * work_phase => x.1 = cpu) (retire (c, ph) l) = filter (fun x => x.1 = cpu) l) as Ef;
    [|unfold works_of, tw_works; by rewrite Ef].
  unfold retire. destruct (list_find (fun y => y = (c, ph)) l) as [[i y]|] eqn:Hf; [|done].
  apply list_find_Some in Hf as (Hi & -> & _).
  rewrite <- (take_drop_middle l i (c, ph) Hi) at 2. rewrite delete_take_drop, !filter_app, filter_cons_False; done.
Qed.

Lemma not_waiting cpu y : works_of cpu y = [] -> (cpu, Waiting) ∉ tw_works y.
Proof.
  intros H Hin. assert (Waiting ∈ works_of cpu y) as Hx; [|rewrite H in Hx; by apply elem_of_nil in Hx].
  unfold works_of. apply list_elem_of_fmap. exists (cpu, Waiting). split; [done|]. by apply list_elem_of_filter.
Qed.

Lemma queue_works c y cpu :
  works_of c y = [] ->
  works_of cpu (queue_delayed_work c y) = (if decide (c = cpu) then [Waiting] else works_of cpu y) /\
  tw_state (queue_delayed_work c y) = tw_state y.
Proof.
  intros Hn. unfold queue_delayed_work. rewrite bool_decide_eq_false_2 by (by apply not_waiting).
  destruct y as [st l]. split; [|done]. change (_ <| tw_works := ?v |>) with (mk_tick_sys st v).
  rewrite works_of_cons. change (tw_works (mk_tick_sys st l)) with l. destruct (decide (c = cpu)) as [<-|]; [by rewrite Hn|done].
Qed.

Lemma queued_start_ok cpu y : diagram y -> is_Some (tw_state y !! cpu) ->
  exists y', sched_tick_start cpu y = Some y' /\ diagram y'.
Proof.
  intros Hd [st Hst]. unfold sched_tick_start. destruct (housekeeping_cpu_tick cpu); [by exists y|].
  rewrite Hst. cbn. pose proof (Hd cpu) as Hc. rewrite Hst in Hc. destruct y as [m l].
  change (_ <| tw_state := ?v |>) with (mk_tick_sys v l). cbn [tw_state tw_works] in *.
  set (m' := <[cpu := TICK_SCHED_REMOTE_RUNNING]> m).
  assert (forall c, works_of c (mk_tick_sys m' l) = works_of c (mk_tick_sys m l)) as Ew by done.
  destruct Hc as [[-> Hn]|[Hst' [ph Hph]]].
  - change (TICK_SCHED_REMOTE_OFFLINE =? TICK_SCHED_REMOTE_OFFLINE) with true. cbn iota.
    unfold init_delayed_work. rewrite bool_decide_eq_false_2 by (by apply not_waiting). cbn.
    eexists. split; [reflexivity|]. intros c. destruct (queue_works cpu (mk_tick_sys m' l) c Hn) as [-> ->].
    unfold m'. cbn. case_decide as Ec; [subst; rewrite lookup_insert_eq; cbn; right; split; [by right|by exists Waiting]|].
    rewrite lookup_insert_ne by done. apply (Hd c).
  - replace (st =? TICK_SCHED_REMOTE_OFFLINE) with false by (by destruct Hst' as [->| ->]).
    eexists. split; [reflexivity|]. intros c. rewrite Ew. unfold m'. cbn.
    destruct (decide (c = cpu)) as [->|Hne]; [rewrite lookup_insert_eq; cbn; right; split; [by right|by exists ph]|].
    rewrite lookup_insert_ne by done. apply (Hd c).
Qed.

Lemma diagram_step y y' : remote_step y y' -> diagram y -> diagram y'.
Proof.
  intros [cpu x x' Hs|cpu x x' Hst Hs|cpu x Hin|cpu x x' os Hin Hs|cpu x Hin] Hd.
  - unfold sched_tick_start in Hs. destruct (housekeeping_cpu_tick cpu) eqn:Hk; [by injection Hs as <-|].
    destruct (tw_state x !! cpu) as [st|] eqn:Hst; [|done].
    destruct (queued_start_ok cpu x Hd) as (x2 & E & H2); [by eexists|].
    unfold sched_tick_start in E. rewrite Hk, Hst in E. rewrite E in Hs. by injection Hs as <-.
  - unfold sched_tick_stop in Hs. destruct (housekeeping_cpu_tick cpu); [by injection Hs as <-|].
    rewrite Hst in Hs. cbn in Hs. injection Hs as <-. intros c. pose proof (Hd c) as Hc. destruct x as [m l].
    change (_ <| tw_state := ?v |>) with (mk_tick_sys v l). cbn [tw_state] in *.
    destruct (decide (c = cpu)) as [->|Hne]; [|by rewrite lookup_insert_ne].
    rewrite lookup_insert_eq. rewrite Hst in Hc. destruct Hc as [[Hx _]|[_ Hx]]; [discriminate Hx|].
    cbn. right. split; [by left|exact Hx].
  - destruct x as [m l]. change (_ <| tw_works := ?v |>) with (mk_tick_sys m v). cbn [tw_works] in *. intros c.
    destruct (works_of_retire m cpu Waiting l c _ Hin (Hd cpu)) as [(st & Hst & Hne) Hr].
    rewrite works_of_cons, Hr. pose proof (Hd c) as Hc. cbn [tw_state] in *.
    case_decide as Ec; [subst c; rewrite Hst in *|exact Hc].
    destruct Hc as [[-> _]|[Hx _]]; [done|]. right. split; [exact Hx|by exists Executing].
  - unfold tick_remote_state in Hs. destruct x as [m l]. cbn [tw_state tw_works] in *.
    destruct (works_of_retire m cpu Executing l cpu _ Hin (Hd cpu)) as [(st & Hst & Hne) _]. cbn in Hst.
    pose proof (Hd cpu) as Hcpu. cbn [tw_state] in Hcpu. rewrite Hst in Hs, Hcpu. cbn in Hs. injection Hs as <- <-.
    intros c. pose proof (Hd c) as Hc. cbn [tw_state] in Hc.
    destruct (works_of_retire m cpu Executing l c _ Hin (Hd cpu)) as [_ Hr].
    destruct Hcpu as [[-> _]|[[->| ->] _]]; [done| |]; cbn [Z.eqb tick_remote_again TICK_SCHED_REMOTE_OFFLINING
      TICK_SCHED_REMOTE_RUNNING Pos.eqb app].
    + change (1 - 1) with 0. change (s32 0) with 0. repeat change (upd_field ?f ?g ?x) with (g (f x)).
      change (one_work (<[cpu := 0]> m !! c) (works_of c (mk_tick_sys m (retire (cpu, Executing) l)))).
      rewrite Hr. case_decide as Ec; [subst; rewrite lookup_insert_eq; cbn; by left|by rewrite lookup_insert_ne].
    + change (one_work (m !! c) (works_of c (mk_tick_sys m ((cpu, Requeueing) :: retire (cpu, Executing) l)))).
      rewrite works_of_cons, Hr. case_decide as Ec; [subst; rewrite Hst; cbn; right; split; [by right|by exists Requeueing]|exact Hc].
  - destruct x as [m l]. change (_ <| tw_works := ?v |>) with (mk_tick_sys m v). cbn [tw_works] in *. intros c.
    destruct (works_of_retire m cpu Requeueing l cpu _ Hin (Hd cpu)) as [(st & Hst & Hne) Hr0].
    rewrite decide_True in Hr0 by done.
    destruct (queue_works cpu _ c Hr0) as [-> ->].
    destruct (works_of_retire m cpu Requeueing l c _ Hin (Hd cpu)) as [_ Hr]. pose proof (Hd c) as Hc. cbn [tw_state] in *.
    case_decide as Ec; [subst c; rewrite Hst in *|by rewrite Hr].
    destruct Hc as [[-> _]|[Hx _]]; [done|]. right. split; [exact Hx|by exists Waiting].
Qed.

Lemma diagram_init possible : diagram (sched_tick_offload_init possible).
Proof.
  intros c. unfold sched_tick_offload_init. cbn. rewrite lookup_gset_to_gmap.
  destruct (guard (c ∈ possible)) eqn:E; cbn; [by left|done].
Qed.

Lemma diagram_dom y y' : remote_step y y' -> dom (tw_state y') = dom (tw_state y).
Proof.
  intros [cpu x x' Hs|cpu x x' Hst Hs|cpu x Hin|cpu x x' os Hin Hs|cpu x Hin]; [| |done| |].
  - unfold sched_tick_start in Hs. destruct (housekeeping_cpu_tick cpu); [by injection Hs as <-|].
    destruct (tw_state x !! cpu) as [st|] eqn:Hst; [|done]. cbn in Hs.
    assert (dom (<[cpu := TICK_SCHED_REMOTE_RUNNING]> (tw_state x)) = dom (tw_state x)) as Ed.
    { apply dom_insert_lookup_L. by eexists. }
    destruct (st =? _); [|by injection Hs as <-]. unfold init_delayed_work in Hs. case_bool_decide; [done|].
    cbn in Hs. injection Hs as <-. unfold queue_delayed_work. by case_bool_decide.
  - unfold sched_tick_stop in Hs. destruct (housekeeping_cpu_tick cpu); [by injection Hs as <-|].
    rewrite Hst in Hs. cbn in Hs. injection Hs as <-. apply dom_insert_lookup_L. by eexists.
  - unfold tick_remote_state in Hs. destruct (tw_state x !! cpu) as [st|] eqn:Hst; [|done]. cbn in Hs.
    injection Hs as <- <-. destruct (st =? _); [done|]. apply dom_insert_lookup_L. by eexists.
  - unfold queue_delayed_work. by case_bool_decide.
Qed.

(** C21. The remote tick of a CPU is never lost and never doubled.  Whatever order
    CPUs are started and stopped in while their works execute and queue themselves
    again: a CPU whose state is RUNNING or OFFLINING has exactly one work, waiting,
    executing or on its way back to the queue; an OFFLINE CPU has none, so that
    starting it again never initialises a work that is still queued. *)
Theorem remote_tick_unique possible y cpu :
  rtc remote_step (sched_tick_offload_init possible) y -> cpu ∈ possible ->
  (exists st, tw_state y !! cpu = Some st /\ one_work (Some st) (works_of cpu y)) /\
  is_Some (sched_tick_start cpu y).
Proof.
  intros Hr Hcpu. assert (diagram y /\ dom (tw_state y) = possible) as [Hd Hdom].
  { assert (diagram (sched_tick_offload_init possible) /\ dom (tw_state (sched_tick_offload_init possible)) = possible)
      as H0 by (split; [apply diagram_init|apply dom_gset_to_gmap]).
    clear Hcpu. revert H0. induction Hr as [x|x x1 z Hx _ IH]; [done|]. intros [H1 H2]. apply IH. split.
    - by apply (diagram_step x).
    - by rewrite (diagram_dom x). }
  assert (is_Some (tw_state y !! cpu)) as [st Hst] by (apply elem_of_dom; by rewrite Hdom).
  split.
  - exists st. split; [done|]. specialize (Hd cpu). by rewrite Hst in Hd.
  - destruct (queued_start_ok cpu y Hd) as (y' & -> & _); by eexists.
Qed.
End Remote.

(** ** A CPU that goes down and up while its work executes *)

#[export] Instance first_keeps_house : Housekeeping := fun cpu => cpu =? 0.

(** CPU 1 goes up, its work executes, the CPU goes down and up again before the work
    looks at the state, and the work queues itself again. *)
Definition tick_0 : tick_sys := sched_tick_offload_init {[ 0; 1 ]}.
Definition tick_1 : tick_sys := default tick_0 (sched_tick_start 1 tick_0).
Definition tick_2 : tick_sys := tick_1 <| tw_works := (1, Executing) :: retire (1, Waiting) (tw_works tick_1) |>.
Definition tick_3 : tick_sys := default tick_2 (sched_tick_stop 1 tick_2).
Definition tick_4 : tick_sys := default tick_3 (sched_tick_start 1 tick_3).
Definition tick_5 : tick_sys := tick_4 <| tw_works := (1, Requeueing) :: retire (1, Executing) (tw_works tick_4) |>.
Definition tick_6 : tick_sys :=
  queue_delayed_work 1 (tick_5 <| tw_works := retire (1, Requeueing) (tw_works tick_5) |>).

Example tick_down_and_up : (tw_works tick_3, tw_works tick_6, tw_state tick_6 !! 1) = ([(1, Executing)], [(1, Waiting)], Some 2).
Proof. vm_compute. reflexivity. Qed.

Lemma remote_tick_unique_witness :
  (exists st, tw_state tick_6 !! 1 = Some st /\ one_work (Some st) (works_of 1 tick_6)) /\
  is_Some (sched_tick_start 1 tick_6).
Proof.
  apply (remote_tick_unique {[ 0; 1 ]} tick_6 1); [|change (1 ∈ ({[ 0; 1 ]} : gset Z)); set_solver].
  apply (rtc_l _ _ tick_1); [by apply (rs_start 1)|].
  apply (rtc_l _ _ tick_2); [apply (rs_begin 1); vm_compute; by left|].
  apply (rtc_l _ _ tick_3); [by apply (rs_stop 1)|].
  apply (rtc_l _ _ tick_4); [by apply (rs_start 1)|].
  apply (rtc_l _ _ tick_5); [apply (rs_decide 1 tick_4 tick_4 2); [vm_compute; by left|reflexivity]|].
  apply rtc_once, (rs_requeue 1). vm_compute. by left.
Defined.
