(* ===== verification/State.v ===== *)
(** * State: the machine the scheduler runs on

    All tasks, all run queues and what one CPU keeps for itself, the outcome
    monad in which the stateful code is written, locks, and the scheduling
    classes as an interface.

    The code of one CPU runs to completion between two events; a lock that is
    already held when the code asks for it makes the outcome [Hang], a BUG(),
    a NULL dereference or an access outside an array makes it [Bug]. *)

From S2P Require Import Prelude Task KernelApi Rq RqClock Uclamp RemoteTick.

(** The state. *)
Record kstate := mk_kstate {
  k_tasks : gmap ptr task_struct;
  k_rqs : gmap Z rq;  (* the per-CPU run queues *)
  k_this_cpu : Z;  (* smp_processor_id() *)
  k_preempt : Z;  (* preempt_count of this CPU *)
  k_irqs_off : bool;  (* interrupts of this CPU *)
  k_ipis : list Z;  (* reschedule interrupts sent, newest first *)
  k_sys : uclamp_sys;
  k_mm_count : gmap Z Z;  (* mm_struct::mm_count *)
  k_online : gset Z;  (* cpu_online_mask *)
  k_active : gset Z;  (* cpu_active_mask *)
  k_possible : gset Z;  (* cpu_possible_mask *)
  k_cpuset : Z;  (* readers of cpuset_rwsem *)
  k_wake_list : list (Z * ptr);  (* tasks queued for a CPU to wake, newest first *)
  k_ticks : tick_sys;  (* the works that tick for other CPUs *)
  k_smp_initialized : bool;  (* sched_smp_initialized *)
  k_smt_present : Z;  (* sched_smt_present *)
  k_cpus_frozen : Z;  (* num_cpus_frozen *)
  k_rd_online : gset Z  (* the CPUs in the online mask of their root domain *)
}.
#[export] Instance eta_kstate : EtaRecord kstate := fun x =>
  mk_kstate (k_tasks x) (k_rqs x) (k_this_cpu x) (k_preempt x) (k_irqs_off x) (k_ipis x)
    (k_sys x) (k_mm_count x) (k_online x) (k_active x) (k_possible x) (k_cpuset x) (k_wake_list x)
    (k_ticks x) (k_smp_initialized x) (k_smt_present x) (k_cpus_frozen x) (k_rd_online x).
#[export] Instance upd_k_tasks : FieldUpdate k_tasks := ltac:(field_update k_tasks).
#[export] Instance upd_k_rqs : FieldUpdate k_rqs := ltac:(field_update k_rqs).
#[export] Instance upd_k_this_cpu : FieldUpdate k_this_cpu := ltac:(field_update k_this_cpu).
#[export] Instance upd_k_preempt : FieldUpdate k_preempt := ltac:(field_update k_preempt).
#[export] Instance upd_k_irqs_off : FieldUpdate k_irqs_off := ltac:(field_update k_irqs_off).
#[export] Instance upd_k_ipis : FieldUpdate k_ipis := ltac:(field_update k_ipis).
#[export] Instance upd_k_sys : FieldUpdate k_sys := ltac:(field_update k_sys).
#[export] Instance upd_k_mm_count : FieldUpdate k_mm_count := ltac:(field_update k_mm_count).
#[export] Instance upd_k_online : FieldUpdate k_online := ltac:(field_update k_online).
#[export] Instance upd_k_active : FieldUpdate k_active := ltac:(field_update k_active).
#[export] Instance upd_k_possible : FieldUpdate k_possible := ltac:(field_update k_possible).
#[export] Instance upd_k_cpuset : FieldUpdate k_cpuset := ltac:(field_update k_cpuset).
#[export] Instance upd_k_wake_list : FieldUpdate k_wake_list := ltac:(field_update k_wake_list).
#[export] Instance upd_k_ticks : FieldUpdate k_ticks := ltac:(field_update k_ticks).
#[export] Instance upd_k_smp_initialized : FieldUpdate k_smp_initialized := ltac:(field_update k_smp_initialized).
#[export] Instance upd_k_smt_present : FieldUpdate k_smt_present := ltac:(field_update k_smt_present).
#[export] Instance upd_k_cpus_frozen : FieldUpdate k_cpus_frozen := ltac:(field_update k_cpus_frozen).
#[export] Instance upd_k_rd_online : FieldUpdate k_rd_online := ltac:(field_update k_rd_online).

(** ** Outcomes *)

Inductive outcome (A : Type) :=
  | Ok (a : A) (s : kstate)
  | Bug
  | Hang.
Arguments Ok {A} a s.
Arguments Bug {A}.
Arguments Hang {A}.

Definition M (A : Type) : Type := kstate -> outcome A.
#[export] Instance M_ret : MRet M := fun A a s => Ok a s.
#[export] Instance M_bind : MBind M := fun A B f m s =>
  match m s with Ok a s' => f a s' | Bug => Bug | Hang => Hang end.

Definition bug {A} : M A := fun _ => Bug.
Definition hang {A} : M A := fun _ => Hang.
Definition get : M kstate := fun s => Ok s s.
Definition modify (f : kstate -> kstate) : M unit := fun s => Ok tt (f s).
Definition when (b : bool) (m : M unit) : M unit := if b then m else mret tt.
Definition lift_option {A} (o : option A) : M A := match o with Some a => mret a | None => bug end.

(** Dereferencing a task pointer and a run queue. *)
Definition task_of (p : ptr) : M task_struct := fun s =>
  match k_tasks s !! p with Some t => Ok t s | None => Bug end.
Definition rq_of (cpu : Z) : M rq := fun s =>
  match k_rqs s !! cpu with Some r => Ok r s | None => Bug end.
Definition put_task (p : ptr) (t : task_struct) : M unit :=
  modify (fun s => s <| k_tasks := <[p := t]> (k_tasks s) |>).
Definition put_rq (cpu : Z) (r : rq) : M unit :=
  modify (fun s => s <| k_rqs := <[cpu := r]> (k_rqs s) |>).
Definition set_task (p : ptr) (f : task_struct -> task_struct) : M unit :=
  t ← task_of p; put_task p (f t).
Definition set_rq (cpu : Z) (f : rq -> rq) : M unit :=
  r ← rq_of cpu; put_rq cpu (f r).

Definition smp_processor_id : M Z := s ← get; mret (k_this_cpu s).
(** [current]: the task the run queue of this CPU says is running. *)
Definition current : M ptr := cpu ← smp_processor_id; r ← rq_of cpu; mret (curr r).

(** ** Locks and interrupts; taking a spinlock disables preemption *)

Definition local_irq_disable : M unit := modify (fun s => s <| k_irqs_off := true |>).
Definition local_irq_enable : M unit := modify (fun s => s <| k_irqs_off := false |>).
Definition preempt_count_inc (v : Z) : M unit :=
  modify (fun s => s <| k_preempt := k_preempt s + v |>).

Definition lock_rq (cpu : Z) : M unit :=
  r ← rq_of cpu;
  if rq_lock r then hang
  else preempt_count_inc 1;; put_rq cpu (r <| rq_lock := true |>).
Definition unlock_rq (cpu : Z) : M unit :=
  r ← rq_of cpu;
  if rq_lock r then put_rq cpu (r <| rq_lock := false |>);; preempt_count_inc (- 1)
  else bug.
Definition lock_pi (p : ptr) : M unit :=
  t ← task_of p;
  if pi_lock t then hang
  else preempt_count_inc 1;; put_task p (t <| pi_lock := true |>).
Definition unlock_pi (p : ptr) : M unit :=
  t ← task_of p;
  if pi_lock t then put_task p (t <| pi_lock := false |>);; preempt_count_inc (- 1)
  else bug.

(** ** The scheduling classes

    The method tables of the five classes and the other parts of the kernel the
    core calls are a parameter.  A method that a class leaves NULL is the
    identity.  [Retry] is RETRY_TASK. *)

Inductive pick := Retry | Pick (p : ptr) | NoTask.

Class SchedClassOps := {
  op_enqueue_task : sched_class -> Z -> ptr -> Z -> kstate -> kstate;
  op_dequeue_task : sched_class -> Z -> ptr -> Z -> kstate -> kstate;
  op_yield_task : sched_class -> Z -> kstate -> kstate;
  op_check_preempt_curr : sched_class -> Z -> ptr -> Z -> kstate -> kstate;
  op_pick_next_task : sched_class -> Z -> kstate -> kstate * option ptr;
  op_pick_next_task_fair : Z -> ptr -> kstate -> kstate * pick;
  op_put_prev_task : sched_class -> Z -> ptr -> kstate -> kstate;
  op_set_next_task : sched_class -> Z -> ptr -> kstate -> kstate;
  op_balance : sched_class -> Z -> ptr -> kstate -> kstate * bool;
  op_select_task_rq : sched_class -> ptr -> Z -> Z -> Z -> kstate -> Z;
  op_migrate_task_rq : sched_class -> ptr -> Z -> kstate -> kstate;
  op_task_woken : sched_class -> Z -> ptr -> kstate -> kstate;
  op_task_tick : sched_class -> Z -> ptr -> Z -> kstate -> kstate;
  op_task_fork : sched_class -> ptr -> kstate -> kstate;
  op_task_dead : sched_class -> ptr -> kstate -> kstate;
  op_switched_from : sched_class -> Z -> ptr -> kstate -> kstate;
  op_switched_to : sched_class -> Z -> ptr -> kstate -> kstate;
  op_prio_changed : sched_class -> Z -> ptr -> Z -> kstate -> kstate;
  op_get_rr_interval : sched_class -> Z -> ptr -> kstate -> Z;
  op_callback : Z -> Z -> kstate -> kstate;
  rq_clock_skip_update : Z -> kstate -> kstate;
  sched_feat_HRTICK : bool;
  hrtimer_active : kstate -> Z -> bool;
  hrtimer_cancel : Z -> kstate -> kstate;
  op_rseq_preempt : ptr -> kstate -> kstate;
  op_rseq_migrate : ptr -> kstate -> kstate;
  op_sched_out_notifiers : ptr -> ptr -> kstate -> kstate;
  op_sched_in_notifiers : ptr -> kstate -> kstate;
  put_task_struct_rcu_user : ptr -> kstate -> kstate;
  wq_worker_sleeping : ptr -> kstate -> kstate;
  io_wq_worker_sleeping : ptr -> kstate -> kstate;
  wq_worker_running : ptr -> kstate -> kstate;
  io_wq_worker_running : ptr -> kstate -> kstate;
  tsk_is_pi_blocked : kstate -> ptr -> bool;
  blk_needs_flush_plug : kstate -> ptr -> bool;
  blk_schedule_flush_plug : ptr -> kstate -> kstate;
  panic_on_warn : bool;
  oops_in_progress : bool;
  class_uclamp_enabled : sched_class -> bool;
  read_clock : kstate -> Z -> clock_reading;
  group_of : kstate -> ptr -> tg_view;
  signal_pending_state : Z -> ptr -> bool
}.

(** ** What the classes leave alone

    [erase_task] forgets the fields a class may write: the need-resched flag,
    the scheduling entities, the active clamps and hints.  A method that may
    balance run queues ([w = true]) may also move queued tasks: what stays is
    whether a task is queued. *)

Definition zero_se : sched_entity := t_se zero_task.
Definition erase_task (w : bool) (t : task_struct) : task_struct :=
  let t' := t <| thread_info_flags := 0 |> <| t_se := zero_se |> <| t_rt := t_rt zero_task |>
    <| t_dl := t_dl zero_task |> <| uclamp_min := zero_uclamp_se |> <| uclamp_max := zero_uclamp_se |>
    <| recent_used_cpu := 0 |> <| wake_cpu := 0 |> <| numa_preferred_nid := 0 |> in
  if w then t' <| on_rq := if nz (on_rq t) then 1 else 0 |> <| t_cpu := 0 |> else t'.
Arguments erase_task w t : simpl never.

Definition erase_rq (r : rq) : rq :=
  r <| nr_running := 0 |> <| cfs_h_nr_running := 0 |> <| dl_nr_running := 0 |>
    <| rt_nr_running := 0 |> <| rr_nr_running := 0 |> <| clock_update_flags := 0 |>
    <| clock := 0 |> <| clock_task := 0 |> <| prev_irq_time := 0 |> <| prev_steal_time_rq := 0 |>
    <| rq_uclamp_min := zero_uclamp_rq |> <| rq_uclamp_max := zero_uclamp_rq |> <| uclamp_flags := 0 |>
    <| balance_callback := [] |> <| idle_stamp := 0 |> <| avg_idle := 0 |> <| max_idle_balance_cost := 0 |>
    <| idle_balance := false |> <| nohz_idle_balance := 0 |> <| nohz_flags := 0 |>
    <| rq_calc_load_update := 0 |>.

Arguments erase_rq r : simpl never.

Definition erase (w : bool) (s : kstate) : kstate :=
  s <| k_tasks := erase_task w <$> k_tasks s |> <| k_rqs := erase_rq <$> k_rqs s |> <| k_ipis := [] |>.

Definition core_same (w : bool) (s s' : kstate) : Prop := erase w s' = erase w s.

#[export] Instance core_same_equiv w : Equivalence (core_same w).
Proof. unfold core_same. split; repeat intro; congruence. Qed.

Lemma erase_task_weaken t t' : erase_task false t' = erase_task false t -> erase_task true t' = erase_task true t.
Proof.
  intros H. assert (forall x, erase_task true x =
    (erase_task false x) <| on_rq := if nz (on_rq (erase_task false x)) then 1 else 0 |> <| t_cpu := 0 |>)
    as E by done.
  rewrite (E t'), (E t), H. reflexivity.
Qed.

Lemma core_same_lookup w s s' :
  core_same w s s' ->
  (forall p t, k_tasks s !! p = Some t ->
     exists t', k_tasks s' !! p = Some t' /\ erase_task w t' = erase_task w t) /\
  (forall c r, k_rqs s !! c = Some r -> exists r', k_rqs s' !! c = Some r' /\ erase_rq r' = erase_rq r).
Proof.
  intros H. unfold core_same in H. split.
  - intros p t Hp. apply (f_equal k_tasks) in H. unfold erase in H. rsimpl_in H.
    assert ((erase_task w <$> k_tasks s') !! p = Some (erase_task w t)) as E
      by (rewrite H, lookup_fmap, Hp; done).
    rewrite lookup_fmap in E. destruct (k_tasks s' !! p) as [t'|]; [|done].
    exists t'. split; [done|]. exact (inj Some _ _ E).
  - intros c r Hr. apply (f_equal k_rqs) in H. unfold erase in H. rsimpl_in H.
    assert ((erase_rq <$> k_rqs s') !! c = Some (erase_rq r)) as E
      by (rewrite H, lookup_fmap, Hr; done).
    rewrite lookup_fmap in E. destruct (k_rqs s' !! c) as [r'|]; [|done].
    exists r'. split; [done|]. exact (inj Some _ _ E).
Qed.

Lemma core_same_weaken s s' : core_same false s s' -> core_same true s s'.
Proof.
  intros H. pose proof (f_equal k_tasks H) as Ht. unfold erase in Ht. rsimpl_in Ht.
  assert (erase_task true <$> k_tasks s' = erase_task true <$> k_tasks s) as E.
  { apply map_eq. intros p. apply (f_equal (lookup p)) in Ht. rewrite !lookup_fmap in *.
    destruct (k_tasks s' !! p), (k_tasks s !! p); cbn [fmap option_fmap option_map] in *;
      [|discriminate Ht|discriminate Ht|reflexivity].
    apply f_equal, erase_task_weaken. exact (inj Some _ _ Ht). }
  assert (forall x, erase true x = (erase false x) <| k_tasks := erase_task true <$> k_tasks x |>) as Ex by done.
  change (erase true s' = erase true s). rewrite (Ex s'), (Ex s), E.
  unfold core_same in H. rewrite H. reflexivity.
Qed.

(** ** Clamp indices in range

    What keeps the clamp code of an enqueue or a dequeue inside its arrays. *)

Definition se_in_range {U : UclampApi} (se : uclamp_se) : Prop := 0 <= uc_bucket_id se < UCLAMP_BUCKETS.

Definition task_in_range {U : UclampApi} (t : task_struct) : Prop :=
  forall id, se_in_range (uclamp t id) /\ se_in_range (uclamp_req t id).

Definition rq_in_range {U : UclampApi} (r : rq) : Prop :=
  forall id, Z.of_nat (length (ucr_bucket (rq_uclamp r id))) = UCLAMP_BUCKETS.

Record clamps_in_range {U : UclampApi} (s : kstate) : Prop := {
  cir_tasks p t : k_tasks s !! p = Some t -> task_in_range t;
  cir_rqs c r : k_rqs s !! c = Some r -> rq_in_range r;
  cir_sys id : se_in_range (uclamp_default (k_sys s) id)
}.

(** What one step of a class or of the core's own helpers keeps. *)
Record kframe {U : UclampApi} (w : bool) (s s' : kstate) : Prop := {
  kf_core : core_same w s s';
  kf_clamps : clamps_in_range s -> clamps_in_range s'
}.

#[export] Instance kframe_preorder {U : UclampApi} w : PreOrder (kframe w).
Proof.
  split.
  - intros s. by split.
  - intros s1 s2 s3 [H1 H1'] [H2 H2']. split; [by etransitivity|auto].
Qed.

Lemma kframe_weaken {U : UclampApi} w s s' : kframe false s s' -> kframe w s s'.
Proof. intros [H1 H2]. destruct w; [split; [by apply core_same_weaken|done]|by split]. Qed.

(** ** The contract of the classes

    Methods keep to their fields; only [balance] and the fair class's combined
    pick may move queued tasks.  A class picks existing tasks that do not run
    elsewhere and are queued, or are the idle task; the idle class always picks
    that. *)

Definition pickable (s : kstate) (cpu : Z) (p : ptr) : Prop :=
  exists t, k_tasks s !! p = Some t /\
    (on_cpu t = 0 \/ exists r, k_rqs s !! cpu = Some r /\ curr r = p) /\
    (nz (on_rq t) = true \/ exists r, k_rqs s !! cpu = Some r /\ idle r = p).

(** The idle task of a CPU is there to be picked. *)
Definition idle_ok (s : kstate) (cpu : Z) : Prop :=
  exists r, k_rqs s !! cpu = Some r /\ pickable s cpu (idle r).

Class SchedClassLaws {U : UclampApi} (O : SchedClassOps) : Prop := {
  law_enqueue c cpu p fl s : kframe false s (op_enqueue_task c cpu p fl s);
  law_dequeue c cpu p fl s : kframe false s (op_dequeue_task c cpu p fl s);
  law_yield c cpu s : kframe false s (op_yield_task c cpu s);
  law_check_preempt c cpu p fl s : kframe false s (op_check_preempt_curr c cpu p fl s);
  law_pick c cpu s : kframe false s (op_pick_next_task c cpu s).1;
  law_pick_ok c cpu s p : (op_pick_next_task c cpu s).2 = Some p -> pickable s cpu p;
  law_pick_idle cpu s r : k_rqs s !! cpu = Some r -> pickable s cpu (idle r) ->
    (op_pick_next_task idle_sched_class cpu s).2 = Some (idle r);
  law_pick_fair cpu p s : kframe true s (op_pick_next_task_fair cpu p s).1;
  law_pick_fair_ok cpu p s q : (op_pick_next_task_fair cpu p s).2 = Pick q -> pickable s cpu q;
  law_put_prev c cpu p s : kframe false s (op_put_prev_task c cpu p s);
  law_set_next c cpu p s : kframe false s (op_set_next_task c cpu p s);
  law_balance c cpu p s : kframe true s (op_balance c cpu p s).1;
  law_migrate c p cpu s : kframe false s (op_migrate_task_rq c p cpu s);
  law_task_woken c cpu p s : kframe true s (op_task_woken c cpu p s);
  law_task_tick c cpu p q s : kframe false s (op_task_tick c cpu p q s);
  law_task_fork c p s : kframe false s (op_task_fork c p s);
  law_task_dead c p s : kframe false s (op_task_dead c p s);
  law_switched_from c cpu p s : kframe false s (op_switched_from c cpu p s);
  law_switched_to c cpu p s : kframe false s (op_switched_to c cpu p s);
  law_prio_changed c cpu p o s : kframe false s (op_prio_changed c cpu p o s);
  law_callback f cpu s : kframe true s (op_callback f cpu s);
  law_clock_skip cpu s : kframe false s (rq_clock_skip_update cpu s);
  law_hrtimer_cancel cpu s : kframe false s (hrtimer_cancel cpu s);
  law_rseq_preempt p s : kframe false s (op_rseq_preempt p s);
  law_rseq_migrate p s : kframe false s (op_rseq_migrate p s);
  law_sched_out p q s : kframe false s (op_sched_out_notifiers p q s);
  law_sched_in p s : kframe false s (op_sched_in_notifiers p s);
  law_put_dead p s : kframe false s (put_task_struct_rcu_user p s);
  law_group s p id : se_in_range (tg_uclamp (group_of s p) id)
}.

(** ** Running a sequence step by step *)

Lemma bind_ok {X Z'} (m : M X) (f : X -> M Z') s a s' : m s = Ok a s' -> (m ≫= f) s = f a s'.
Proof. unfold mbind, M_bind. by intros ->. Qed.

Lemma task_of_run p s t : k_tasks s !! p = Some t -> task_of p s = Ok t s.
Proof. intros Ht. unfold task_of. by rewrite Ht. Qed.
Lemma bind_bind {X1 X2 X3} (m : M X1) (f : X1 -> M X2) (g : X2 -> M X3) s :
  ((m ≫= f) ≫= g) s = (m ≫= (fun x => f x ≫= g)) s.
Proof. unfold mbind, M_bind. by destruct (m s). Qed.

Lemma bind_ext {X1 X2} (m : M X1) (f g : X1 -> M X2) s :
  (forall a s', m s = Ok a s' -> f a s' = g a s') -> (m ≫= f) s = (m ≫= g) s.
Proof. intros H. unfold mbind, M_bind. destruct (m s) eqn:E1; [by apply H|done..]. Qed.

Lemma bind_inv {X X'} (m : M X) (f : X -> M X') s a s' :
  (m ≫= f) s = Ok a s' -> exists b s1, m s = Ok b s1 /\ f b s1 = Ok a s'.
Proof. unfold mbind, M_bind. destruct (m s) as [b s1| |]; [|done..]. intros H. by exists b, s1. Qed.
Lemma task_of_inv p s t s' : task_of p s = Ok t s' -> s' = s /\ k_tasks s !! p = Some t.
Proof. unfold task_of. destruct (k_tasks s !! p); [|done]. by intros [= -> ->]. Qed.
Lemma rq_of_inv c s r s' : rq_of c s = Ok r s' -> s' = s /\ k_rqs s !! c = Some r.
Proof. unfold rq_of. destruct (k_rqs s !! c); [|done]. by intros [= -> ->]. Qed.

Lemma set_task_run p f s t :
  k_tasks s !! p = Some t -> set_task p f s = Ok tt (s <| k_tasks := <[p := f t]> (k_tasks s) |>).
Proof. intros Ht. unfold set_task, mbind, M_bind, task_of. by rewrite Ht. Qed.

Lemma rq_of_run c s r : k_rqs s !! c = Some r -> rq_of c s = Ok r s.
Proof. intros Hr. unfold rq_of. by rewrite Hr. Qed.
Lemma set_rq_run c f s r :
  k_rqs s !! c = Some r -> set_rq c f s = Ok tt (s <| k_rqs := <[c := f r]> (k_rqs s) |>).
Proof. intros Hr. unfold set_rq, mbind, M_bind, rq_of. by rewrite Hr. Qed.

(** ** Weakest preconditions

    [wp m Q s]: from [s], [m] runs to the end, without BUG and without waiting
    for a lock, and what it returns and leaves satisfies [Q]. *)

Definition wp {A} (m : M A) (Q : A -> kstate -> Prop) (s : kstate) : Prop :=
  match m s with Ok a s' => Q a s' | _ => False end.

Section Wp.
Context {A B : Type}.

Lemma wp_elim (m : M A) Q s : wp m Q s -> exists a s', m s = Ok a s' /\ Q a s'.
Proof. unfold wp. destruct (m s); [eauto|done..]. Qed.

Lemma wp_ok (m : M A) Q s a s' : wp m Q s -> m s = Ok a s' -> Q a s'.
Proof. unfold wp. by intros H E; rewrite E in H. Qed.

Lemma wp_bind (m : M A) (f : A -> M B) Q s :
  wp m (fun a s' => wp (f a) Q s') s -> wp (m ≫= f) Q s.
Proof. unfold wp, mbind, M_bind. by destruct (m s). Qed.

Lemma wp_ret (a : A) Q s : Q a s -> wp (mret a) Q s.
Proof. done. Qed.

Lemma wp_mono (m : M A) (Q Q' : A -> kstate -> Prop) s :
  wp m Q s -> (forall a s', Q a s' -> Q' a s') -> wp m Q' s.
Proof. unfold wp. destruct (m s); auto. Qed.

Lemma wp_lift_option (a : A) Q s : Q a s -> wp (lift_option (Some a)) Q s.
Proof. done. Qed.
End Wp.

Lemma wp_get (Q : kstate -> kstate -> Prop) s : Q s s -> wp get Q s.
Proof. done. Qed.

Lemma wp_modify f (Q : unit -> kstate -> Prop) s : Q tt (f s) -> wp (modify f) Q s.
Proof. done. Qed.

Lemma wp_task_of p t (Q : task_struct -> kstate -> Prop) s :
  k_tasks s !! p = Some t -> Q t s -> wp (task_of p) Q s.
Proof. unfold wp, task_of. by intros ->. Qed.

Lemma wp_rq_of c r (Q : rq -> kstate -> Prop) s :
  k_rqs s !! c = Some r -> Q r s -> wp (rq_of c) Q s.
Proof. unfold wp, rq_of. by intros ->. Qed.

Lemma wp_put_task p t (Q : unit -> kstate -> Prop) s :
  Q tt (s <| k_tasks := <[p := t]> (k_tasks s) |>) -> wp (put_task p t) Q s.
Proof. done. Qed.

Lemma wp_put_rq c r (Q : unit -> kstate -> Prop) s :
  Q tt (s <| k_rqs := <[c := r]> (k_rqs s) |>) -> wp (put_rq c r) Q s.
Proof. done. Qed.

Lemma wp_set_task p f t (Q : unit -> kstate -> Prop) s :
  k_tasks s !! p = Some t -> Q tt (s <| k_tasks := <[p := f t]> (k_tasks s) |>) -> wp (set_task p f) Q s.
Proof. intros Ht H. apply wp_bind. by eapply wp_task_of. Qed.

Lemma wp_set_rq c f r (Q : unit -> kstate -> Prop) s :
  k_rqs s !! c = Some r -> Q tt (s <| k_rqs := <[c := f r]> (k_rqs s) |>) -> wp (set_rq c f) Q s.
Proof. intros Ht H. apply wp_bind. by eapply wp_rq_of. Qed.

Lemma wp_when b m (Q : unit -> kstate -> Prop) s :
  (b = true -> wp m Q s) -> (b = false -> Q tt s) -> wp (when b m) Q s.
Proof. unfold when. intros H1 H2. destruct b; [by apply H1|by apply wp_ret, H2]. Qed.

Lemma wp_if {A} (b : bool) (m1 m2 : M A) Q s :
  (b = true -> wp m1 Q s) -> (b = false -> wp m2 Q s) -> wp (if b then m1 else m2) Q s.
Proof. intros H1 H2. destruct b; [by apply H1|by apply H2]. Qed.

Lemma wp_current r (Q : ptr -> kstate -> Prop) s :
  k_rqs s !! k_this_cpu s = Some r -> Q (curr r) s -> wp current Q s.
Proof. intros Hr H. repeat apply wp_bind. unfold wp, smp_processor_id, mbind, M_bind, get, rq_of. simpl. by rewrite Hr. Qed.

Lemma wp_lock_rq c r (Q : unit -> kstate -> Prop) s :
  k_rqs s !! c = Some r -> rq_lock r = false ->
  Q tt (s <| k_preempt := k_preempt s + 1 |> <| k_rqs := <[c := r <| rq_lock := true |>]> (k_rqs s) |>) ->
  wp (lock_rq c) Q s.
Proof. intros Hr Hl H. apply wp_bind. eapply wp_rq_of; [done|]. rewrite Hl. done. Qed.

Lemma wp_unlock_rq c r (Q : unit -> kstate -> Prop) s :
  k_rqs s !! c = Some r -> rq_lock r = true ->
  Q tt (s <| k_rqs := <[c := r <| rq_lock := false |>]> (k_rqs s) |> <| k_preempt := k_preempt s - 1 |>) ->
  wp (unlock_rq c) Q s.
Proof. intros Hr Hl H. apply wp_bind. eapply wp_rq_of; [done|]. rewrite Hl. done. Qed.

Lemma wp_lock_pi p t (Q : unit -> kstate -> Prop) s :
  k_tasks s !! p = Some t -> pi_lock t = false ->
  Q tt (s <| k_preempt := k_preempt s + 1 |> <| k_tasks := <[p := t <| pi_lock := true |>]> (k_tasks s) |>) ->
  wp (lock_pi p) Q s.
Proof. intros Hr Hl H. apply wp_bind. eapply wp_task_of; [done|]. rewrite Hl. done. Qed.

Lemma wp_unlock_pi p t (Q : unit -> kstate -> Prop) s :
  k_tasks s !! p = Some t -> pi_lock t = true ->
  Q tt (s <| k_tasks := <[p := t <| pi_lock := false |>]> (k_tasks s) |> <| k_preempt := k_preempt s - 1 |>) ->
  wp (unlock_pi p) Q s.
Proof. intros Hr Hl H. apply wp_bind. eapply wp_task_of; [done|]. rewrite Hl. done. Qed.

(** Open sequencing, reading a run queue or a task that is known. *)
Ltac wp_go :=
  repeat (cbn beta; lazymatch goal with
  | |- wp (mbind _ _) _ _ => apply wp_bind
  | |- wp get _ _ => apply wp_get
  | |- wp (modify _) _ _ => apply wp_modify
  | |- wp (put_task _ _) _ _ => apply wp_put_task
  | |- wp (put_rq _ _) _ _ => apply wp_put_rq
  | |- wp (mret _) _ _ => apply wp_ret
  | |- wp (lift_option (Some _)) _ _ => apply wp_lift_option
  | |- wp (rq_of _) _ _ => eapply wp_rq_of; [eassumption|]
  | |- wp (task_of _) _ _ => eapply wp_task_of; [eassumption|]
  | |- wp current _ _ => eapply wp_current; [eassumption|]
  | |- wp smp_processor_id _ _ => unfold smp_processor_id
  end).

(** ** Frames of the primitive updates *)

(** Updates in place. *)
Definition upd_task (p : ptr) (f : task_struct -> task_struct) (s : kstate) : kstate :=
  s <| k_tasks := alter f p (k_tasks s) |>.
Definition upd_rq (c : Z) (f : rq -> rq) (s : kstate) : kstate :=
  s <| k_rqs := alter f c (k_rqs s) |>.

Lemma insert_alter `{Countable J} {X} (m : gmap J X) k x f :
  m !! k = Some x -> <[k := f x]> m = alter f k m.
Proof.
  intros Hk. apply map_eq. intros j. destruct (decide (j = k)) as [->|Hne].
  - by rewrite lookup_insert_eq, lookup_alter_eq, Hk.
  - by rewrite lookup_insert_ne, lookup_alter_ne.
Qed.

Lemma wp_upd_task p f (Q : unit -> kstate -> Prop) s :
  is_Some (k_tasks s !! p) -> Q tt (upd_task p f s) -> wp (set_task p f) Q s.
Proof.
  intros [t Ht] H. eapply wp_set_task; [done|].
  by rewrite (insert_alter (k_tasks s) p t f Ht).
Qed.

Lemma wp_upd_rq c f (Q : unit -> kstate -> Prop) s :
  is_Some (k_rqs s !! c) -> Q tt (upd_rq c f s) -> wp (set_rq c f) Q s.
Proof.
  intros [r Hr] H. eapply wp_set_rq; [done|].
  by rewrite (insert_alter (k_rqs s) c r f Hr).
Qed.

Lemma upd_task_lookup p f s q :
  k_tasks (upd_task p f s) !! q = (if decide (q = p) then f <$> k_tasks s !! q else k_tasks s !! q).
Proof.
  unfold upd_task. rsimpl. case_decide as E; [subst; apply lookup_alter_eq|by apply lookup_alter_ne].
Qed.

Lemma upd_rq_lookup c f s d :
  k_rqs (upd_rq c f s) !! d = (if decide (d = c) then f <$> k_rqs s !! d else k_rqs s !! d).
Proof.
  unfold upd_rq. rsimpl. case_decide as E; [subst; apply lookup_alter_eq|by apply lookup_alter_ne].
Qed.

Lemma upd_task_some p f s q : is_Some (k_tasks (upd_task p f s) !! q) <-> is_Some (k_tasks s !! q).
Proof. rewrite upd_task_lookup. case_decide; [apply fmap_is_Some|done]. Qed.
Lemma upd_rq_some c f s d : is_Some (k_rqs (upd_rq c f s) !! d) <-> is_Some (k_rqs s !! d).
Proof. rewrite upd_rq_lookup. case_decide; [apply fmap_is_Some|done]. Qed.

Lemma core_same_put_task w s p t t' :
  k_tasks s !! p = Some t -> erase_task w t' = erase_task w t ->
  core_same w s (s <| k_tasks := <[p := t']> (k_tasks s) |>).
Proof.
  intros Hp He. unfold core_same, erase. rsimpl. rewrite fmap_insert, He, <- fmap_insert.
  by rewrite insert_id.
Qed.

Lemma core_same_put_rq w s c r r' :
  k_rqs s !! c = Some r -> erase_rq r' = erase_rq r ->
  core_same w s (s <| k_rqs := <[c := r']> (k_rqs s) |>).
Proof.
  intros Hp He. unfold core_same, erase. rsimpl. rewrite fmap_insert, He, <- fmap_insert.
  by rewrite insert_id.
Qed.

Lemma kframe_put_task {U : UclampApi} w s p t t' :
  k_tasks s !! p = Some t -> erase_task w t' = erase_task w t -> (task_in_range t -> task_in_range t') ->
  kframe w s (s <| k_tasks := <[p := t']> (k_tasks s) |>).
Proof.
  intros Hp He Hr. split; [by eapply core_same_put_task|]. intros [H1 H2 H3]. split; [|done|done].
  intros q x. rsimpl. intros [[<- <-]|[_ Hq]]%lookup_insert_Some; [apply Hr|]; by eapply H1.
Qed.

Lemma kframe_put_rq {U : UclampApi} w s c r r' :
  k_rqs s !! c = Some r -> erase_rq r' = erase_rq r -> (rq_in_range r -> rq_in_range r') ->
  kframe w s (s <| k_rqs := <[c := r']> (k_rqs s) |>).
Proof.
  intros Hp He Hr. split; [by eapply core_same_put_rq|]. intros [H1 H2 H3]. split; [done| |done].
  intros q x. rsimpl. intros [[<- <-]|[_ Hq]]%lookup_insert_Some; [apply Hr|]; by eapply H2.
Qed.

Lemma kframe_rq {U : UclampApi} w s s' c r :
  kframe w s s' -> k_rqs s !! c = Some r ->
  exists r', k_rqs s' !! c = Some r' /\ erase_rq r' = erase_rq r.
Proof. intros [H _]. apply (proj2 (core_same_lookup _ _ _ H)). Qed.

Lemma kframe_task {U : UclampApi} w s s' p t :
  kframe w s s' -> k_tasks s !! p = Some t ->
  exists t', k_tasks s' !! p = Some t' /\ erase_task w t' = erase_task w t.
Proof. intros [H _]. apply (proj1 (core_same_lookup _ _ _ H)). Qed.

(** A field the classes leave alone, read through [erase_task] or [erase_rq]. *)
Lemma erase_field {X} w (f : task_struct -> X) t t' :
  (forall x, f (erase_task w x) = f x) -> erase_task w t' = erase_task w t -> f t' = f t.
Proof. intros H E. by rewrite <- (H t'), E, H. Qed.
Lemma erase_rq_field {X} (f : rq -> X) r r' :
  (forall x, f (erase_rq x) = f x) -> erase_rq r' = erase_rq r -> f r' = f r.
Proof. intros H E. by rewrite <- (H r'), E, H. Qed.

Ltac kept_field :=
  intros; unfold erase_task; cbn zeta; first [reflexivity | match goal with w : bool |- _ => by destruct w end].

Lemma erase_queued w t : nz (on_rq (erase_task w t)) = nz (on_rq t).
Proof. destruct w; [|done]. change (on_rq (erase_task true t)) with (if nz (on_rq t) then 1 else 0). by destruct (nz (on_rq t)). Qed.

(** Fields that the classes leave alone, read on both sides of a frame. *)
Lemma core_same_view {X} (f : task_struct -> X) s s' p :
  (forall t, f (erase_task true t) = f t) -> core_same true s s' ->
  f <$> k_tasks s' !! p = f <$> k_tasks s !! p.
Proof.
  intros Hf H. pose proof (f_equal (fun s => f <$> k_tasks s !! p) H) as E. cbv beta in E.
  change (k_tasks (erase true ?x)) with (erase_task true <$> k_tasks x) in E.
  rewrite !lookup_fmap in E. destruct (k_tasks s' !! p), (k_tasks s !! p); simpl in *; rewrite ?Hf in E; done.
Qed.

Lemma core_same_rq_view {X} (f : rq -> X) s s' c :
  (forall r, f (erase_rq r) = f r) -> core_same true s s' -> f <$> k_rqs s' !! c = f <$> k_rqs s !! c.
Proof.
  intros Hf H. pose proof (f_equal (fun s => f <$> k_rqs s !! c) H) as E. cbv beta in E.
  change (k_rqs (erase true ?x)) with (erase_rq <$> k_rqs x) in E.
  rewrite !lookup_fmap in E. destruct (k_rqs s' !! c), (k_rqs s !! c); simpl in *; rewrite ?Hf in E; done.
Qed.
