(* ===== verification/Sched.v ===== *)
(** * Sched: queueing, picking and switching tasks (core.c)

    The operations of the main scheduler, in the order of the source: marking a
    task for rescheduling, enqueue and dequeue, preemption checks, the context
    switch, picking the next task, [__schedule] and the functions that loop on
    it.  Tracing, statistics and accounting hooks ([sched_info_*], [psi_*],
    [perf_*], [rcu_*]) have no effect on the state modelled. *)

From S2P Require Import Prelude Task KernelApi Prio Rq RqClock Uclamp State.

Section Sched.
Context {U : UclampApi} {F : FlagApi} {C : ClockConfig} {K : SchedClassOps}.

(** The classes in the order of [for_each_class]. *)
Definition classes : list sched_class :=
  [stop_sched_class; dl_sched_class; rt_sched_class; fair_sched_class; idle_sched_class].

(** ** Rescheduling *)

Definition test_tsk_need_resched (t : task_struct) : bool := has (thread_info_flags t) TIF_NEED_RESCHED_MASK.
Definition set_tsk_need_resched (t : task_struct) : task_struct :=
  t <| thread_info_flags := Z.lor (thread_info_flags t) TIF_NEED_RESCHED_MASK |>.
Definition clear_tsk_need_resched (t : task_struct) : task_struct :=
  t <| thread_info_flags := andnot (thread_info_flags t) TIF_NEED_RESCHED_MASK |>.
Definition task_on_rq_queued (t : task_struct) : bool := on_rq t =? TASK_ON_RQ_QUEUED.
Definition task_on_rq_migrating (t : task_struct) : bool := on_rq t =? TASK_ON_RQ_MIGRATING.

Definition need_resched : M bool := p ← current; t ← task_of p; mret (test_tsk_need_resched t).

(** The flag word after the call, and the result. *)
Definition set_nr_and_not_polling (p : ptr) : M bool :=
  t ← task_of p;
  put_task p (set_tsk_need_resched t);;
  mret (negb (has (thread_info_flags t) TIF_POLLING_NRFLAG_MASK)).

Definition set_nr_if_polling (p : ptr) : M bool :=
  t ← task_of p;
  if negb (has (thread_info_flags t) TIF_POLLING_NRFLAG_MASK) then mret false
  else if has (thread_info_flags t) TIF_NEED_RESCHED_MASK then mret true
  else put_task p (set_tsk_need_resched t);; mret true.

Definition smp_send_reschedule (cpu : Z) : M unit :=
  modify (fun s => s <| k_ipis := cpu :: k_ipis s |>).

Definition resched_curr (cpu : Z) : M unit :=
  r ← rq_of cpu;
  t ← task_of (curr r);
  if test_tsk_need_resched t then mret tt
  else
    this ← smp_processor_id;
    if cpu =? this then put_task (curr r) (set_tsk_need_resched t)
    else
      not_polling ← set_nr_and_not_polling (curr r);
      when not_polling (smp_send_reschedule cpu).

Definition resched_cpu (cpu : Z) : M unit :=
  lock_rq cpu;;
  s ← get;
  when (bool_decide (cpu ∈ k_online s) || (cpu =? k_this_cpu s)) (resched_curr cpu);;
  unlock_rq cpu.

(** ** Enqueue and dequeue *)

(** [update_rq_clock] on the run queue of a CPU. *)
Definition update_clock (cpu : Z) : M unit :=
  s ← get;
  set_rq cpu (update_rq_clock (read_clock s cpu)).

Definition enqueue_task (cpu : Z) (p : ptr) (flags : Z) : M unit :=
  when (negb (has flags ENQUEUE_NOCLOCK)) (update_clock cpu);;
  s ← get;
  r ← rq_of cpu;
  t ← task_of p;
  '(r, t) ← lift_option (uclamp_rq_inc class_uclamp_enabled (k_sys s) (group_of s p) r t);
  put_rq cpu r;;
  put_task p t;;
  modify (op_enqueue_task (t_sched_class t) cpu p flags).

Definition dequeue_task (cpu : Z) (p : ptr) (flags : Z) : M unit :=
  when (negb (has flags DEQUEUE_NOCLOCK)) (update_clock cpu);;
  r ← rq_of cpu;
  t ← task_of p;
  '(r, t) ← lift_option (uclamp_rq_dec class_uclamp_enabled r t);
  put_rq cpu r;;
  put_task p t;;
  modify (op_dequeue_task (t_sched_class t) cpu p flags).

Definition activate_task (cpu : Z) (p : ptr) (flags : Z) : M unit :=
  enqueue_task cpu p flags;;
  set_task p (fun t => t <| on_rq := TASK_ON_RQ_QUEUED |>).

Definition deactivate_task (cpu : Z) (p : ptr) (flags : Z) : M unit :=
  set_task p (fun t => t <| on_rq := if has flags DEQUEUE_SLEEP then 0 else TASK_ON_RQ_MIGRATING |>);;
  dequeue_task cpu p flags.

Definition task_curr (p : ptr) : M bool :=
  t ← task_of p;
  r ← rq_of (task_cpu t);
  mret (bool_decide (curr r = p)).

(** ** Preemption checks *)

Definition check_class_changed {P : PrioApi} (cpu : Z) (p : ptr) (prev_class : sched_class)
    (oldprio : Z) : M unit :=
  t ← task_of p;
  if negb (bool_decide (prev_class = t_sched_class t)) then
    modify (op_switched_from prev_class cpu p);;
    t ← task_of p;
    modify (op_switched_to (t_sched_class t) cpu p)
  else when (negb (oldprio =? prio t) || dl_task t)
    (modify (op_prio_changed (t_sched_class t) cpu p oldprio)).

(** The loop over the classes: does the class of the new task come before the
    class of the current one? *)
Fixpoint class_preempts (l : list sched_class) (curr_class p_class : sched_class) : bool :=
  match l with
  | [] => false
  | class :: l =>
      if bool_decide (class = curr_class) then false
      else if bool_decide (class = p_class) then true
      else class_preempts l curr_class p_class
  end.

Definition check_preempt_curr (cpu : Z) (p : ptr) (flags : Z) : M unit :=
  r ← rq_of cpu;
  t ← task_of p;
  c ← task_of (curr r);
  (if bool_decide (t_sched_class t = t_sched_class c)
   then modify (op_check_preempt_curr (t_sched_class c) cpu p flags)
   else when (class_preempts classes (t_sched_class c) (t_sched_class t)) (resched_curr cpu));;
  r ← rq_of cpu;
  c ← task_of (curr r);
  when (task_on_rq_queued c && test_tsk_need_resched c) (modify (rq_clock_skip_update cpu)).

(** ** The context switch *)

Definition mmgrab (mm : Z) : M unit :=
  modify (fun s => s <| k_mm_count := <[mm := default 0 (k_mm_count s !! mm) + 1]> (k_mm_count s) |>).
Definition mmdrop (mm : Z) : M unit :=
  modify (fun s => s <| k_mm_count := <[mm := default 0 (k_mm_count s !! mm) - 1]> (k_mm_count s) |>).

Definition prepare_task (next : ptr) : M unit := set_task next (fun t => t <| on_cpu := 1 |>).
Definition finish_task (prev : ptr) : M unit := set_task prev (fun t => t <| on_cpu := 0 |>).

(** Before the switch the restartable sequence of the outgoing task is told and
    its preemption notifiers run, then the next task is claimed; the hooks for
    coverage, statistics and perf change nothing of this state. *)
Definition prepare_task_switch (prev next : ptr) : M unit :=
  modify (op_rseq_preempt prev);;
  modify (op_sched_out_notifiers prev next);;
  prepare_task next.

Definition PREEMPT_DISABLE_OFFSET : Z := 1.
Definition FORK_PREEMPT_COUNT : Z := 2 * PREEMPT_DISABLE_OFFSET.

Definition finish_lock_switch (cpu : Z) : M unit := unlock_rq cpu;; local_irq_enable.

Definition finish_task_switch (prev : ptr) : M Z :=
  cpu ← smp_processor_id;
  r ← rq_of cpu;
  let mm := prev_mm r in
  modify (fun s => if k_preempt s =? 2 * PREEMPT_DISABLE_OFFSET then s
                   else s <| k_preempt := FORK_PREEMPT_COUNT |>);;
  put_rq cpu (r <| prev_mm := None |>);;
  t ← task_of prev;
  let prev_state := t_state t in
  finish_task prev;;
  finish_lock_switch cpu;;
  now ← current;
  modify (op_sched_in_notifiers now);;
  match mm with Some mm => mmdrop mm | None => mret tt end;;
  when (prev_state =? TASK_DEAD)
    (t ← task_of prev;
     modify (op_task_dead (t_sched_class t) prev);;
     modify (put_task_struct_rcu_user prev));;
  mret cpu.

(** The list is taken under the lock and its callbacks run in order; one queued
    meanwhile waits for the next call. *)
Definition __balance_callback (cpu : Z) : M unit :=
  lock_rq cpu;;
  r ← rq_of cpu;
  put_rq cpu (r <| balance_callback := [] |>);;
  foldr (fun f k => modify (op_callback f cpu);; k) (mret tt) (balance_callback r);;
  unlock_rq cpu.

Definition balance_callback (cpu : Z) : M unit :=
  r ← rq_of cpu;
  match Rq.balance_callback r with
  | [] => mret tt
  | _ => __balance_callback cpu
  end.

Definition context_switch (cpu : Z) (prev next : ptr) : M Z :=
  prepare_task_switch prev next;;
  n ← task_of next;
  p ← task_of prev;
  match mm n with
  | None =>
      set_task next (fun t => t <| active_mm := active_mm p |>);;
      match mm p with
      | Some _ => match active_mm p with Some m => mmgrab m | None => bug end
      | None => set_task prev (fun t => t <| active_mm := None |>)
      end
  | Some _ =>
      match mm p with
      | Some _ => mret tt
      | None =>
          set_rq cpu (fun r => r <| prev_mm := active_mm p |>);;
          set_task prev (fun t => t <| active_mm := None |>)
      end
  end;;
  set_rq cpu (fun r => r <| clock_update_flags :=
    andnot (clock_update_flags r) (Z.lor RQCF_ACT_SKIP RQCF_REQ_SKIP) |>);;
  finish_task_switch prev.

(** ** Picking the next task *)

(** [for_class_range(class, from, &idle_sched_class)]. *)
Definition classes_from (from : sched_class) : list sched_class :=
  match from with
  | stop_sched_class => [stop_sched_class; dl_sched_class; rt_sched_class; fair_sched_class]
  | dl_sched_class => [dl_sched_class; rt_sched_class; fair_sched_class]
  | rt_sched_class => [rt_sched_class; fair_sched_class]
  | fair_sched_class => [fair_sched_class]
  | idle_sched_class => []
  end.

Fixpoint balance_pass (l : list sched_class) (cpu : Z) (prev : ptr) : M unit :=
  match l with
  | [] => mret tt
  | class :: l =>
      s ← get;
      let '(s', found) := op_balance class cpu prev s in
      modify (fun _ => s');;
      if found : bool then mret tt else balance_pass l cpu prev
  end.

Definition put_prev_task (cpu : Z) (prev : ptr) : M unit :=
  t ← task_of prev;
  modify (op_put_prev_task (t_sched_class t) cpu prev).

Definition put_prev_task_balance (cpu : Z) (prev : ptr) : M unit :=
  t ← task_of prev;
  balance_pass (classes_from (t_sched_class t)) cpu prev;;
  put_prev_task cpu prev.

(** A class's [pick_next_task]. *)
Definition class_pick (class : sched_class) (cpu : Z) : M (option ptr) := fun s =>
  let '(s', o) := op_pick_next_task class cpu s in Ok o s'.

Fixpoint pick_loop (l : list sched_class) (cpu : Z) : M ptr :=
  match l with
  | [] => bug
  | class :: l =>
      o ← class_pick class cpu;
      match o with
      | Some p => mret p
      | None => pick_loop l cpu
      end
  end.

Definition pick_restart (cpu : Z) (prev : ptr) : M ptr :=
  put_prev_task_balance cpu prev;;
  pick_loop classes cpu.

Definition pick_next_task (cpu : Z) (prev : ptr) : M ptr :=
  r ← rq_of cpu;
  t ← task_of prev;
  if (bool_decide (t_sched_class t = idle_sched_class) || bool_decide (t_sched_class t = fair_sched_class))
     && (nr_running r =? cfs_h_nr_running r)
  then
    s ← get;
    let '(s', p) := op_pick_next_task_fair cpu prev s in
    modify (fun _ => s');;
    match p with
    | Retry => pick_restart cpu prev
    | Pick p => mret p
    | NoTask =>
        put_prev_task cpu prev;;
        o ← class_pick idle_sched_class cpu;
        lift_option o
    end
  else pick_restart cpu prev.

(** ** The main scheduler *)

(** A wrong preemption count is reported and repaired. *)
Definition schedule_debug (prev : ptr) (preempt : bool) : M unit :=
  s ← get;
  if k_preempt s =? PREEMPT_DISABLE_OFFSET then mret tt
  else
    (if negb oops_in_progress && panic_on_warn then bug else mret tt);;
    modify (fun s => s <| k_preempt := PREEMPT_DISABLE_OFFSET |>).

Definition hrtick_clear (cpu : Z) : M unit :=
  s ← get; when (hrtimer_active s cpu) (modify (hrtimer_cancel cpu)).

(** The part of [__schedule] that blocks the previous task; the result says
    whether the switch counts as voluntary. *)
Definition try_to_block (cpu : Z) (prev : ptr) (preempt : bool) : M bool :=
  t ← task_of prev;
  let prev_state := t_state t in
  if negb preempt && nz prev_state then
    (if signal_pending_state prev_state prev then
       set_task prev (fun t => t <| t_state := TASK_RUNNING |>)
     else
       let contributes := has prev_state TASK_UNINTERRUPTIBLE && negb (has prev_state TASK_NOLOAD)
                          && negb (has (t_flags t) PF_FROZEN) in
       set_task prev (fun t => t <| sched_contributes_to_load := contributes |>);;
       when contributes (set_rq cpu (fun r => r <| nr_uninterruptible := u64 (nr_uninterruptible r + 1) |>));;
       deactivate_task cpu prev (Z.lor DEQUEUE_SLEEP DEQUEUE_NOCLOCK);;
       t ← task_of prev;
       when (in_iowait t) (set_rq cpu (fun r => r <| nr_iowait := nr_iowait r + 1 |>)));;
    mret true
  else mret false.

(** The part that switches, when another task was picked. *)
Definition switch_tasks (cpu : Z) (prev next : ptr) (voluntary : bool) : M Z :=
  set_rq cpu (fun r => r <| nr_switches := u64 (nr_switches r + 1) |>);;
  set_rq cpu (fun r => r <| curr := next |>);;
  set_task prev (fun t => if voluntary then t <| nvcsw := u64 (nvcsw t + 1) |>
                          else t <| nivcsw := u64 (nivcsw t + 1) |>);;
  set_task next (fun t => t <| process_switches_count := u32 (process_switches_count t + 1) |>);;
  context_switch cpu prev next.

Definition __schedule (preempt : bool) : M unit :=
  cpu ← smp_processor_id;
  prev ← current;
  schedule_debug prev preempt;;
  when sched_feat_HRTICK (hrtick_clear cpu);;
  local_irq_disable;;
  lock_rq cpu;;
  set_rq cpu (fun r => r <| clock_update_flags := u32 (Z.shiftl (clock_update_flags r) 1) |>);;
  update_clock cpu;;
  voluntary ← try_to_block cpu prev preempt;
  next ← pick_next_task cpu prev;
  set_task prev clear_tsk_need_resched;;
  cpu ← (if negb (bool_decide (prev = next)) then switch_tasks cpu prev next voluntary
         else
           set_rq cpu (fun r => r <| clock_update_flags :=
             andnot (clock_update_flags r) (Z.lor RQCF_ACT_SKIP RQCF_REQ_SKIP) |>);;
           unlock_rq cpu;; local_irq_enable;; mret cpu);
  balance_callback cpu.

(** [sched_preempt_enable_no_resched] and [preempt_disable]. *)
Definition preempt_disable : M unit := preempt_count_inc PREEMPT_DISABLE_OFFSET.
Definition preempt_enable_no_resched : M unit := preempt_count_inc (- PREEMPT_DISABLE_OFFSET).

(** The loops of [schedule], [schedule_idle], [preempt_schedule_common] and
    [preempt_schedule_irq]: do [body] while the current task must reschedule.
    The environment decides how often; [fuel] bounds the rounds. *)
Fixpoint do_while_resched (fuel : nat) (body : M unit) : M unit :=
  match fuel with
  | O => hang
  | S fuel => body;; again ← need_resched; if again : bool then do_while_resched fuel body else mret tt
  end.

(** Before a task sleeps, worker pools and plugged I/O are told. *)
Definition sched_submit_work (tsk : ptr) : M unit :=
  t ← task_of tsk;
  if negb (nz (t_state t)) then mret tt
  else
    when (has (t_flags t) (Z.lor PF_WQ_WORKER PF_IO_WORKER))
      (preempt_disable;;
       (if has (t_flags t) PF_WQ_WORKER then modify (wq_worker_sleeping tsk)
        else modify (io_wq_worker_sleeping tsk));;
       preempt_enable_no_resched);;
    s ← get;
    if tsk_is_pi_blocked s tsk then mret tt
    else when (blk_needs_flush_plug s tsk) (modify (blk_schedule_flush_plug tsk)).

Definition sched_update_worker (tsk : ptr) : M unit :=
  t ← task_of tsk;
  when (has (t_flags t) (Z.lor PF_WQ_WORKER PF_IO_WORKER))
    (if has (t_flags t) PF_WQ_WORKER then modify (wq_worker_running tsk)
     else modify (io_wq_worker_running tsk)).

(** After the loop another task's call of [schedule] returns, with its own local
    variable [tsk]: the task now running. *)
Definition schedule (fuel : nat) : M unit :=
  tsk ← current;
  sched_submit_work tsk;;
  do_while_resched fuel (preempt_disable;; __schedule false;; preempt_enable_no_resched);;
  tsk ← current;
  sched_update_worker tsk.

Definition schedule_idle (fuel : nat) : M unit := do_while_resched fuel (__schedule false).

Definition schedule_preempt_disabled (fuel : nat) : M unit :=
  preempt_enable_no_resched;; schedule fuel;; preempt_disable.

Definition preempt_schedule_common (fuel : nat) : M unit :=
  do_while_resched fuel (preempt_disable;; __schedule true;; preempt_enable_no_resched).

Definition preempt_schedule (fuel : nat) : M unit :=
  s ← get;
  if negb ((k_preempt s =? 0) && negb (k_irqs_off s)) then mret tt else preempt_schedule_common fuel.

Definition preempt_schedule_irq (fuel : nat) : M unit :=
  s ← get;
  if nz (k_preempt s) || negb (k_irqs_off s) then bug
  else do_while_resched fuel
    (preempt_disable;; local_irq_enable;; __schedule true;; local_irq_disable;; preempt_enable_no_resched).

(** The first thing a new task does.  Its thread id also goes to user memory, at
    [set_child_tid], and its pending signals are computed. *)
Definition schedule_tail (prev : ptr) : M unit :=
  cpu ← finish_task_switch prev;
  balance_callback cpu;;
  preempt_enable_no_resched.

(** [set_current_state] is [__set_current_state] and a memory barrier. *)
Definition __set_current_state (state_value : Z) : M unit :=
  p ← current;
  set_task p (fun t => t <| t_state := state_value |>).
Definition set_current_state (state_value : Z) : M unit := __set_current_state state_value.

(** [set_special_state] on the current task. *)
Definition set_special_state (state_value : Z) : M unit :=
  p ← current;
  lock_pi p;;
  set_task p (fun t => t <| t_state := state_value |>);;
  unlock_pi p.

(** The task must not come back from [__schedule]; the CPU goes on with the next. *)
Definition do_task_dead : M unit :=
  set_special_state TASK_DEAD;;
  p ← current;
  set_task p (fun t => t <| t_flags := Z.lor (t_flags t) PF_NOFREEZE |>);;
  __schedule false;;
  now ← current;
  if bool_decide (now = p) then bug else mret tt.
End Sched.
