(* ===== verification/SchedFacts.v ===== *)
(** * SchedFacts: queueing and picking run to the end and keep to their fields

    Every helper of [__schedule] is total on states whose clamp indices are in
    range and whose run queue is there, and leaves the fields of [kframe]
    unchanged. *)

From S2P Require Import Prelude Task KernelApi Prio Rq RqClock Uclamp UclampFacts UclampInv UclampTrace.
From S2P Require Import State Sched.

(** The clamp code does not look at fields that are not its own. *)
Section Blind.
Context {U : UclampApi} {F : FlagApi} {X X' : Type} (f : rq -> X) (g : task_struct -> X')
  (Hf : forall r id u, f (set_rq_uclamp r id u) = f r) (Hg : forall t id u, g (set_uclamp t id u) = g t)
  (Hf' : forall r v, f (r <| uclamp_flags := v |>) = f r).

Lemma inc_id_blind y tg r t id r' t' :
  uclamp_rq_inc_id y tg r t id = Some (r', t') -> f r' = f r /\ g t' = g t.
Proof using Hf Hg Hf'.
  unfold uclamp_rq_inc_id, uclamp_idle_reset, set_ucr_value, set_ucr_bucket. cbv zeta.
  destruct (ucr_bucket _ !! _); [|done]. cbn [mbind option_bind]. intros [= <- <-].
  split; [|apply Hg]. case_ifs; by rewrite ?Hf.
Qed.

Lemma idle_value_blind r id v : f (uclamp_idle_value r id v).1 = f r.
Proof using Hf'. destruct id; [done|apply Hf']. Qed.

Lemma dec_id_blind r t id r' t' : uclamp_rq_dec_id r t id = Some (r', t') -> f r' = f r /\ g t' = g t.
Proof using Hf Hg Hf'.
  unfold uclamp_rq_dec_id, uclamp_rq_max_value, set_ucr_value, set_ucr_bucket. cbv zeta.
  destruct (ucr_bucket _ !! _); [|done]. cbn [mbind option_bind].
  case_ifs; try (intros [= <- <-]; split; [by rewrite ?Hf|apply Hg]).
  all: destruct (top_bucket _ _) as [[v|]|]; cbn [mbind option_bind];
    [intros [= <- <-]; split; [by rewrite !Hf|apply Hg]| |done].
  all: match goal with |- context [uclamp_idle_value ?x ?i ?v] =>
    pose proof (idle_value_blind x i v) as Hi; destruct (uclamp_idle_value x i v) as [r2 v2] end.
  all: cbn [fst mbind option_bind] in *; intros [= <- <-]; split; [by rewrite Hf, Hi, !Hf|apply Hg].
Qed.

Lemma inc_blind en y tg r t r' t' : uclamp_rq_inc en y tg r t = Some (r', t') -> f r' = f r /\ g t' = g t.
Proof using Hf Hg Hf'.
  unfold uclamp_rq_inc. destruct (negb _); [by intros [= <- <-]|].
  destruct (uclamp_rq_inc_id y tg r t UCLAMP_MIN) as [[r1 t1]|] eqn:E1; [|done]. cbn [mbind option_bind].
  destruct (uclamp_rq_inc_id y tg r1 t1 UCLAMP_MAX) as [[r2 t2]|] eqn:E2; [|done]. cbn [mbind option_bind].
  apply inc_id_blind in E1 as [<- <-]. apply inc_id_blind in E2 as [<- <-]. intros [= <- <-]. split; [|done].
  by destruct (has _ _).
Qed.

Lemma dec_blind en r t r' t' : uclamp_rq_dec en r t = Some (r', t') -> f r' = f r /\ g t' = g t.
Proof using Hf Hg Hf'.
  unfold uclamp_rq_dec. destruct (negb _); [by intros [= <- <-]|].
  destruct (uclamp_rq_dec_id r t UCLAMP_MIN) as [[r1 t1]|] eqn:E1; [|done]. cbn [mbind option_bind].
  intros E2. apply dec_id_blind in E1 as [<- <-]. by apply dec_id_blind in E2.
Qed.
End Blind.

Section Clamps.
Context {U : UclampApi} {F : FlagApi}.

Lemma erase_set_rq_uclamp r id u : erase_rq (set_rq_uclamp r id u) = erase_rq r.
Proof. by destruct id. Qed.
Lemma erase_set_uclamp w t id u : erase_task w (set_uclamp t id u) = erase_task w t.
Proof. by destruct id. Qed.

Lemma rq_in_range_set r id u :
  rq_in_range r -> Z.of_nat (length (ucr_bucket u)) = UCLAMP_BUCKETS -> rq_in_range (set_rq_uclamp r id u).
Proof. intros Hr Hu id'. destruct id, id'; try done; [apply (Hr UCLAMP_MAX)|apply (Hr UCLAMP_MIN)]. Qed.

Lemma rq_in_range_flags r x : rq_in_range r -> rq_in_range (r <| uclamp_flags := x |>).
Proof. intros Hr []; [apply (Hr UCLAMP_MIN)|apply (Hr UCLAMP_MAX)]. Qed.

Lemma task_in_range_set t id u : task_in_range t -> se_in_range u -> task_in_range (set_uclamp t id u).
Proof.
  intros Ht Hu id'. pose proof (Ht UCLAMP_MIN) as [? ?]. pose proof (Ht UCLAMP_MAX) as [? ?].
  split; destruct id, id'; done.
Qed.

Lemma bucket_lookup r id se :
  rq_in_range r -> se_in_range se ->
  exists bk, ucr_bucket (rq_uclamp r id) !! Z.to_nat (uc_bucket_id se) = Some bk.
Proof. intros Hr Hs. apply lookup_lt_is_Some_2. specialize (Hr id). unfold se_in_range in Hs. lia. Qed.

Lemma inc_id_frame y g r t id :
  rq_in_range r -> se_in_range (uclamp_eff_get y g t id) ->
  exists u, uclamp_rq_inc_id y g r t id =
      Some (set_rq_uclamp r id u, set_uclamp t id (activated (uclamp_eff_get y g t id)))
    /\ rq_in_range (set_rq_uclamp r id u).
Proof.
  intros Hr Hs. destruct (bucket_lookup r id _ Hr Hs) as [bk Hbk].
  rewrite (inc_id_inc_u _ _ _ _ _ _ Hbk). eexists. split; [done|].
  apply rq_in_range_set; [done|]. unfold inc_u. cbn [ucr_bucket]. rewrite length_insert. apply Hr.
Qed.

Lemma dec_id_frame r t id :
  rq_in_range r -> se_in_range (uclamp t id) ->
  exists r', uclamp_rq_dec_id r t id = Some (r', set_uclamp t id (deactivated (uclamp t id)))
    /\ erase_rq r' = erase_rq r /\ rq_in_range r'.
Proof.
  intros Hr Hs. destruct (bucket_lookup r id _ Hr Hs) as [bk Hbk].
  unfold uclamp_rq_dec_id. rewrite Hbk. cbn [mbind option_bind].
  set (bk' := if nz (bkt_tasks bk) then _ else bk). rewrite set_ucr_bucket_eq.
  set (bs := <[_ := bk']> _).
  assert (Z.of_nat (length bs) = UCLAMP_BUCKETS) as Hlen by (subst bs; rewrite length_insert; apply Hr).
  assert (forall v, rq_in_range (set_rq_uclamp r id (mk_uclamp_rq v bs))) as Hrr
    by (intros; by apply rq_in_range_set).
  destruct (nz (bkt_tasks bk')); [eexists; split; [done|]; by rewrite erase_set_rq_uclamp|].
  destruct (_ <=? _); [|eexists; split; [done|]; by rewrite erase_set_rq_uclamp].
  unfold uclamp_rq_max_value. rewrite rq_uclamp_set. cbn [ucr_bucket].
  assert (exists o, top_bucket bs (Z.to_nat UCLAMP_BUCKETS) = Some o) as [o ->].
  { destruct (top_bucket_spec bs (Z.to_nat UCLAMP_BUCKETS)) as [[-> _]|(b & bc & _ & _ & -> & _)]; [lia|eauto..]. }
  cbn [mbind option_bind]. destruct o as [v|].
  - cbn [mbind option_bind]. eexists. split; [done|].
    rewrite set_ucr_value_eq, set_rq_uclamp_twice, rq_uclamp_set, erase_set_rq_uclamp. done.
  - destruct id; unfold uclamp_idle_value; cbn [mbind option_bind]; eexists; (split; [done|]);
      rewrite set_ucr_value_eq, erase_set_rq_uclamp; (split; [done|]);
      apply rq_in_range_set; try done; first [apply Hrr | apply rq_in_range_flags, Hrr].
Qed.

Lemma eff_in_range y g t id :
  se_in_range (uclamp_req t id) -> se_in_range (uclamp_default y id) -> se_in_range (tg_uclamp g id) ->
  se_in_range (uclamp_eff_get y g t id).
Proof. intros. unfold uclamp_eff_get, uclamp_tg_restrict. case_ifs; done. Qed.

Lemma rq_inc_frame en y g r t :
  rq_in_range r -> task_in_range t -> (forall id, se_in_range (uclamp_default y id)) ->
  (forall id, se_in_range (tg_uclamp g id)) ->
  exists r' t', uclamp_rq_inc en y g r t = Some (r', t')
    /\ erase_rq r' = erase_rq r /\ erase_task false t' = erase_task false t
    /\ rq_in_range r' /\ task_in_range t' /\ t_sched_class t' = t_sched_class t.
Proof.
  intros Hr Ht Hy Hg. unfold uclamp_rq_inc. destruct (negb _); [by exists r, t|].
  assert (forall t id, task_in_range t -> se_in_range (uclamp_eff_get y g t id)) as He.
  { intros x id Hx. apply eff_in_range; [apply Hx|done..]. }
  destruct (inc_id_frame y g r t UCLAMP_MIN) as (u1 & -> & Hr1); [done|by apply He|].
  cbn [mbind option_bind]. set (t1 := set_uclamp t _ _).
  assert (task_in_range t1) as Ht1 by (apply task_in_range_set; [done|by apply He]).
  destruct (inc_id_frame y g (set_rq_uclamp r UCLAMP_MIN u1) t1 UCLAMP_MAX) as (u2 & -> & Hr2); [done|by apply He|].
  cbn [mbind option_bind]. set (r2 := set_rq_uclamp _ _ u2) in *. eexists _, _. split; [done|].
  assert (task_in_range (set_uclamp t1 UCLAMP_MAX (activated (uclamp_eff_get y g t1 UCLAMP_MAX)))) as Ht2
    by (apply task_in_range_set; [done|by apply He]).
  assert (erase_rq r2 = erase_rq r) as E2 by (subst r2; by rewrite !erase_set_rq_uclamp).
  destruct (has _ _); split_and!; done.
Qed.

Lemma rq_dec_frame en r t :
  rq_in_range r -> task_in_range t ->
  exists r' t', uclamp_rq_dec en r t = Some (r', t')
    /\ erase_rq r' = erase_rq r /\ erase_task false t' = erase_task false t
    /\ rq_in_range r' /\ task_in_range t' /\ t_sched_class t' = t_sched_class t.
Proof.
  intros Hr Ht. unfold uclamp_rq_dec. destruct (negb _); [by exists r, t|].
  destruct (dec_id_frame r t UCLAMP_MIN) as (r1 & -> & E1 & Hr1); [done|apply Ht|].
  cbn [mbind option_bind]. set (t1 := set_uclamp t _ _).
  assert (task_in_range t1) as Ht1 by (apply task_in_range_set; [done|apply Ht]).
  destruct (dec_id_frame r1 t1 UCLAMP_MAX) as (r2 & -> & E2 & Hr2); [done|apply Ht1|].
  eexists _, _. split; [done|]. rewrite E2, E1, !erase_set_uclamp. split_and!; try done.
  apply task_in_range_set; [done|apply Ht1].
Qed.

Lemma update_rq_clock_frame {C : ClockConfig} c r :
  erase_rq (update_rq_clock c r) = erase_rq r
  /\ (forall id, rq_uclamp (update_rq_clock c r) id = rq_uclamp r id).
Proof.
  unfold update_rq_clock, update_rq_clock_task, account_irq, account_steal.
  destruct (has _ _); [by split|]. destruct CONFIG_SCHED_DEBUG, (_ <? 0); try (by split; [|intros []]);
    destruct CONFIG_IRQ_TIME_ACCOUNTING, (CONFIG_PARAVIRT_TIME_ACCOUNTING && paravirt_steal_rq_enabled);
    by split; [|intros []].
Qed.
End Clamps.

Section Frames.
Context {U : UclampApi} {F : FlagApi} {C : ClockConfig} {K : SchedClassOps} {KL : SchedClassLaws K}.

(** A run queue or a task that is there stays there along a frame. *)
Lemma kframe_rq_some w s s' c : kframe w s s' -> is_Some (k_rqs s !! c) -> is_Some (k_rqs s' !! c).
Proof. intros H [r Hr]. destruct (kframe_rq _ _ _ _ _ H Hr) as (r' & ? & _). eauto. Qed.
Lemma kframe_task_some w s s' p : kframe w s s' -> is_Some (k_tasks s !! p) -> is_Some (k_tasks s' !! p).
Proof. intros H [t Ht]. destruct (kframe_task _ _ _ _ _ H Ht) as (t' & ? & _). eauto. Qed.

Lemma kframe_this_cpu w s s' : kframe w s s' -> k_this_cpu s' = k_this_cpu s.
Proof. intros [H _]. apply (f_equal k_this_cpu) in H. done. Qed.

Lemma wp_update_clock cpu s :
  is_Some (k_rqs s !! cpu) -> wp (update_clock cpu) (fun _ s' => kframe false s s') s.
Proof.
  intros [r Hr]. unfold update_clock. wp_go. eapply wp_set_rq; [done|].
  destruct (update_rq_clock_frame (read_clock s cpu) r) as [He Hu].
  eapply kframe_put_rq; [done|done|]. intros H id. by rewrite Hu.
Qed.

(** Two successive updates of a run queue and a task. *)
Lemma kframe_put_both w s cpu r r' p t t' :
  k_rqs s !! cpu = Some r -> k_tasks s !! p = Some t ->
  erase_rq r' = erase_rq r -> erase_task w t' = erase_task w t -> rq_in_range r' -> task_in_range t' ->
  kframe w s (s <| k_rqs := <[cpu := r']> (k_rqs s) |> <| k_tasks := <[p := t']> (k_tasks s) |>).
Proof.
  intros Hr Ht Er Et Rr Rt.
  set (s1 := s <| k_rqs := <[cpu := r']> (k_rqs s) |>).
  transitivity s1; [by eapply kframe_put_rq|].
  change (<[p := t']> (k_tasks s)) with (<[p := t']> (k_tasks s1)). by eapply kframe_put_task.
Qed.

Lemma wp_enqueue_task cpu p flags s :
  clamps_in_range s -> is_Some (k_rqs s !! cpu) -> is_Some (k_tasks s !! p) ->
  wp (enqueue_task cpu p flags) (fun _ s' => kframe false s s') s.
Proof using KL.
  intros Hc Hr Ht. unfold enqueue_task. apply wp_bind.
  eapply (wp_mono _ (fun _ s' => kframe false s s')).
  { apply wp_when; [by intros _; apply wp_update_clock|done]. }
  cbn beta. intros _ s1 H1. apply kf_clamps in H1 as Hc1; [|done].
  destruct (kframe_rq_some _ _ _ _ H1 Hr) as [r1 Hr1]. destruct (kframe_task_some _ _ _ _ H1 Ht) as [t1 Ht1].
  wp_go.
  destruct (rq_inc_frame class_uclamp_enabled (k_sys s1) (group_of s1 p) r1 t1)
    as (r2 & t2 & -> & Er & Et & Rr & Rt & _);
    [by eapply cir_rqs|by eapply cir_tasks|by apply cir_sys|by apply law_group|].
  apply wp_lift_option. wp_go. rsimpl. etransitivity; [exact H1|].
  etransitivity; [|apply law_enqueue]. by eapply kframe_put_both.
Qed.

Lemma wp_dequeue_task cpu p flags s :
  clamps_in_range s -> is_Some (k_rqs s !! cpu) -> is_Some (k_tasks s !! p) ->
  wp (dequeue_task cpu p flags) (fun _ s' => kframe false s s') s.
Proof using KL.
  intros Hc Hr Ht. unfold dequeue_task. apply wp_bind.
  eapply (wp_mono _ (fun _ s' => kframe false s s')).
  { apply wp_when; [by intros _; apply wp_update_clock|done]. }
  cbn beta. intros _ s1 H1. apply kf_clamps in H1 as Hc1; [|done].
  destruct (kframe_rq_some _ _ _ _ H1 Hr) as [r1 Hr1]. destruct (kframe_task_some _ _ _ _ H1 Ht) as [t1 Ht1].
  wp_go.
  destruct (rq_dec_frame class_uclamp_enabled r1 t1) as (r2 & t2 & -> & Er & Et & Rr & Rt & _);
    [by eapply cir_rqs|by eapply cir_tasks|].
  apply wp_lift_option. wp_go. rsimpl. etransitivity; [exact H1|].
  etransitivity; [|apply law_dequeue]. by eapply kframe_put_both.
Qed.

(** A change of a field the clamps do not depend on. *)
Lemma clamps_put_task s p t t' :
  k_tasks s !! p = Some t -> (forall id, uclamp t' id = uclamp t id /\ uclamp_req t' id = uclamp_req t id) ->
  clamps_in_range s -> clamps_in_range (s <| k_tasks := <[p := t']> (k_tasks s) |>).
Proof.
  intros Hp He [H1 H2 H3]. split; [|done|done]. intros q x. rsimpl.
  intros [[<- <-]|[_ Hq]]%lookup_insert_Some; [|by eapply H1]. intros id.
  destruct (He id) as [-> ->]. by apply (H1 p).
Qed.

Lemma wp_deactivate_task cpu p flags s t :
  clamps_in_range s -> is_Some (k_rqs s !! cpu) -> k_tasks s !! p = Some t ->
  wp (deactivate_task cpu p flags) (fun _ s' =>
    kframe false (s <| k_tasks := <[p := t <| on_rq := if has flags DEQUEUE_SLEEP then 0
                                             else TASK_ON_RQ_MIGRATING |>]> (k_tasks s) |>) s') s.
Proof using KL.
  intros Hc Hr Ht. apply wp_bind. eapply wp_set_task; [done|].
  apply wp_dequeue_task; [|done|].
  - eapply clamps_put_task; [done| |done]. by intros [].
  - rsimpl. rewrite lookup_insert_eq. eauto.
Qed.

Lemma wp_activate_task cpu p flags s :
  clamps_in_range s -> is_Some (k_rqs s !! cpu) -> is_Some (k_tasks s !! p) ->
  wp (activate_task cpu p flags) (fun _ s' => exists s1 t, kframe false s s1 /\ k_tasks s1 !! p = Some t /\
    s' = s1 <| k_tasks := <[p := t <| on_rq := TASK_ON_RQ_QUEUED |>]> (k_tasks s1) |>) s.
Proof using KL.
  intros Hc Hr Ht. apply wp_bind. eapply wp_mono; [by apply wp_enqueue_task|].
  cbn beta. intros _ s1 H1. destruct (kframe_task_some _ _ _ _ H1 Ht) as [t1 Ht1].
  eapply wp_set_task; [done|]. exists s1, t1. done.
Qed.

(** ** Rescheduling *)

Lemma kframe_flags w s p t x :
  k_tasks s !! p = Some t -> kframe w s (s <| k_tasks := <[p := t <| thread_info_flags := x |>]> (k_tasks s) |>).
Proof.
  intros Ht. eapply kframe_put_task; [done|done|]. intros H id. destruct id; [apply (H UCLAMP_MIN)|apply (H UCLAMP_MAX)].
Qed.

Lemma kframe_ipis w s x : kframe w s (s <| k_ipis := x |>).
Proof. split; [done|]. by intros [H1 H2 H3]; split. Qed.

Lemma wp_resched_curr cpu r s :
  k_rqs s !! cpu = Some r -> is_Some (k_tasks s !! curr r) ->
  wp (resched_curr cpu) (fun _ s' => kframe false s s') s.
Proof.
  intros Hr [t Ht]. unfold resched_curr. wp_go. destruct (test_tsk_need_resched t); [done|].
  unfold smp_processor_id. wp_go. destruct (cpu =? _); [by apply kframe_flags|].
  unfold set_nr_and_not_polling. wp_go. apply wp_ret.
  apply wp_when; intros _; [|by apply kframe_flags].
  apply wp_modify. etransitivity; [by apply kframe_flags|apply kframe_ipis].
Qed.

(** ** Picking *)

(** Whether a task can be picked is not up to the classes. *)
Lemma pickable_core w s s' cpu p : core_same w s s' -> pickable s cpu p -> pickable s' cpu p.
Proof.
  intros H (t & Ht & Hor). destruct (core_same_lookup _ _ _ H) as [H1 H2].
  destruct (H1 _ _ Ht) as (t0 & Ht0 & E). exists t0. split; [done|].
  rewrite (erase_field w on_cpu _ _ ltac:(kept_field) E), (erase_field w (fun t => nz (on_rq t)) _ _ (erase_queued w) E).
  split; [destruct Hor as [[?|(r & Hr & Hc)] _]|destruct Hor as [_ [?|(r & Hr & Hc)]]]; [by left|right|by left|right];
    destruct (H2 _ _ Hr) as (r0 & Hr0 & Er); exists r0; (split; [done|]).
  - by rewrite (erase_rq_field curr _ _ ltac:(done) Er).
  - by rewrite (erase_rq_field idle _ _ ltac:(done) Er).
Qed.

Lemma pickable_back w s s' cpu p : kframe w s s' -> pickable s' cpu p -> pickable s cpu p.
Proof. intros [H _]. apply (pickable_core w). by symmetry. Qed.

Lemma pickable_frame w s s' cpu p : kframe w s s' -> pickable s cpu p -> pickable s' cpu p.
Proof. intros [H _]. by apply (pickable_core w). Qed.

(** Whether a task is queued, and that the task that was picked is, or is the idle
    task of its CPU. *)
Definition queued (s : kstate) (p : ptr) : option bool := (fun t => nz (on_rq t)) <$> k_tasks s !! p.

Lemma queued_core w s s' p : core_same w s s' -> queued s' p = queued s p.
Proof.
  intros H. apply (core_same_view (fun t => nz (on_rq t))); [apply erase_queued|].
  destruct w; [exact H|by apply core_same_weaken].
Qed.

Lemma pickable_ready w s s' cpu p i :
  kframe w s s' -> pickable s cpu p -> idle <$> k_rqs s !! cpu = Some i -> i = p \/ queued s' p = Some true.
Proof.
  intros [H _] (t & Ht & _ & [Hq|(r & Hr & <-)]) Hi; [right|left].
  - rewrite (queued_core _ _ _ _ H). unfold queued. by rewrite Ht, <- Hq.
  - rewrite Hr in Hi. by injection Hi.
Qed.

Lemma idle_ok_core w s s' cpu : core_same w s s' -> idle_ok s cpu -> idle_ok s' cpu.
Proof.
  intros H (r & Hr & Hi). destruct (proj2 (core_same_lookup _ _ _ H) _ _ Hr) as (r' & Hr' & E).
  exists r'. split; [done|]. rewrite (erase_rq_field idle _ _ ltac:(done) E). by eapply pickable_core.
Qed.

Lemma idle_ok_frame w s s' cpu : kframe w s s' -> idle_ok s cpu -> idle_ok s' cpu.
Proof. intros [H _]. by apply (idle_ok_core w). Qed.

Lemma wp_balance_pass l cpu prev s :
  wp (balance_pass l cpu prev) (fun _ s' => kframe true s s') s.
Proof using KL.
  revert s. induction l as [|c l IH]; intros s; [apply wp_ret; done|].
  cbn [balance_pass]. wp_go. pose proof (law_balance c cpu prev s) as Hb.
  destruct (op_balance c cpu prev s) as [s1 found]. apply wp_bind, wp_modify.
  destruct found; [by apply wp_ret|]. eapply wp_mono; [apply IH|]. simpl. intros _ s2 H2. by etransitivity.
Qed.

Lemma wp_put_prev_task cpu prev s :
  is_Some (k_tasks s !! prev) -> wp (put_prev_task cpu prev) (fun _ s' => kframe false s s') s.
Proof using KL. intros [t Ht]. unfold put_prev_task. wp_go. apply law_put_prev. Qed.

Lemma wp_pick_loop l cpu s :
  idle_ok s cpu -> idle_sched_class ∈ l ->
  wp (pick_loop l cpu) (fun p s' => kframe false s s' /\ pickable s cpu p) s.
Proof using KL.
  revert s. induction l as [|c l IH]; intros s Hr Hin; [by apply elem_of_nil in Hin|].
  cbn [pick_loop]. apply wp_bind. unfold class_pick, wp at 1.
  pose proof (law_pick c cpu s) as H1. pose proof (law_pick_ok c cpu s) as H2.
  pose proof Hr as (r & Hr' & Hi). pose proof (law_pick_idle cpu s r Hr' Hi) as H3.
  destruct (op_pick_next_task c cpu s) as [s1 o] eqn:E. simpl in *.
  destruct o as [p|]; [apply wp_ret; auto|].
  apply elem_of_cons in Hin as [<-|Hin]; [rewrite E in H3; done|].
  eapply wp_mono; [apply IH; [|done]|].
  - by eapply idle_ok_frame.
  - simpl. intros p s2 [H4 H5]. split; [by etransitivity|by eapply pickable_back].
Qed.

Lemma wp_pick_restart cpu prev s :
  idle_ok s cpu -> is_Some (k_tasks s !! prev) ->
  wp (pick_restart cpu prev) (fun p s' => kframe true s s' /\ pickable s cpu p) s.
Proof using KL.
  intros Hr [t Ht]. unfold pick_restart, put_prev_task_balance. repeat apply wp_bind.
  eapply wp_task_of; [done|]. apply wp_bind.
  eapply wp_mono; [apply wp_balance_pass|]. cbn beta. intros _ s1 H1.
  eapply wp_mono; [apply wp_put_prev_task; by eapply kframe_task_some; eauto|]. cbn beta. intros _ s2 H2.
  assert (kframe true s s2) as H12 by (etransitivity; [exact H1|by apply kframe_weaken]).
  eapply wp_mono; [apply wp_pick_loop; [by eapply idle_ok_frame|]|].
  { by apply (bool_decide_unpack _). }
  simpl. intros p s3 [H3 H4]. split; [etransitivity; [exact H12|by apply kframe_weaken]|by eapply pickable_back].
Qed.

Lemma wp_pick_next_task cpu prev s :
  idle_ok s cpu -> is_Some (k_tasks s !! prev) ->
  wp (pick_next_task cpu prev) (fun p s' => kframe true s s' /\ pickable s cpu p) s.
Proof using KL.
  intros Hi [t Ht]. pose proof Hi as (r & Hr & _). unfold pick_next_task. wp_go.
  destruct (_ && _); [|apply wp_pick_restart; eauto].
  wp_go. pose proof (law_pick_fair cpu prev s) as H1. pose proof (law_pick_fair_ok cpu prev s) as H2.
  destruct (op_pick_next_task_fair cpu prev s) as [s1 o]. apply wp_bind, wp_modify. simpl in *.
  destruct o as [|p|].
  - eapply wp_mono; [apply wp_pick_restart; [by eapply idle_ok_frame|eapply kframe_task_some; eauto]|].
    simpl. intros p s2 [H3 H4]. split; [by etransitivity|by eapply pickable_back].
  - apply wp_ret. auto.
  - apply wp_bind. eapply wp_mono; [apply wp_put_prev_task; eapply kframe_task_some; eauto|].
    cbn beta. intros _ s2 H3. assert (kframe true s s2) as H12 by (etransitivity; [exact H1|by apply kframe_weaken]).
    apply wp_bind. unfold class_pick, wp at 1.
    pose proof (law_pick idle_sched_class cpu s2) as H4. pose proof (law_pick_ok idle_sched_class cpu s2) as H5.
    destruct (idle_ok_frame _ _ _ _ H12 Hi) as (r2 & Hr2 & Hi2). pose proof (law_pick_idle cpu s2 r2 Hr2 Hi2) as H6.
    destruct (op_pick_next_task idle_sched_class cpu s2) as [s3 o]. simpl in *. subst o.
    apply wp_lift_option. split; [etransitivity; [exact H12|by apply kframe_weaken]|].
    eapply pickable_back; eauto.
Qed.
End Frames.
