(* ===== verification/AtomicFlags.v ===== *)
(** * AtomicFlags: marking a task against concurrent changes of its flags (core.c)

    The flags of a task's thread_info are changed by several CPUs at once.
    [fetch_or] and [set_nr_if_polling] are loops around cmpxchg.  Here each access
    to the word is a step of its own, with other calls and other code between the
    steps; the calls turn out to be atomic, as [Sched] takes them to be, and to
    come to an end. *)

From S2P Require Import Prelude Task KernelApi Prio Rq RqClock Uclamp State Sched SchedFacts.

Section AtomicFlags.
Context {F : FlagApi}.

(** ** The calls, an access at a time *)

(** [fetch_or]: [_val] has been read; cmpxchg stores if the word is still that. *)
Inductive fetch_or_at := FoRead | FoTry (_val : Z) | FoDone (_old : Z).

Definition fetch_or_access (mask : Z) (c : fetch_or_at) (word : Z) : fetch_or_at * Z :=
  match c with
  | FoRead => (FoTry word, word)
  | FoTry _val =>
      let _old := word in
      if _old =? _val then (FoDone _old, Z.lor _val mask) else (FoTry _old, word)
  | FoDone _old => (FoDone _old, word)
  end.

(** [set_nr_if_polling]: what is done with a value that was read. *)
Inductive if_polling_at := IpRead | IpTry (val : Z) | IpDone (ret : bool).

Definition if_polling_loop (val : Z) : if_polling_at :=
  if negb (has val TIF_POLLING_NRFLAG_MASK) then IpDone false
  else if has val TIF_NEED_RESCHED_MASK then IpDone true
  else IpTry val.

Definition if_polling_access (c : if_polling_at) (word : Z) : if_polling_at * Z :=
  match c with
  | IpRead => (if_polling_loop word, word)
  | IpTry val =>
      let old := word in
      if old =? val then (IpDone true, Z.lor val TIF_NEED_RESCHED_MASK) else (if_polling_loop old, word)
  | IpDone ret => (IpDone ret, word)
  end.

(** A call by some CPU: [set_nr_and_not_polling] is a [fetch_or] of one flag. *)
Inductive flag_call := NotPolling (c : fetch_or_at) | IfPolling (c : if_polling_at).

Definition call_access (c : flag_call) (word : Z) : flag_call * Z :=
  match c with
  | NotPolling c => let '(c, word) := fetch_or_access TIF_NEED_RESCHED_MASK c word in (NotPolling c, word)
  | IfPolling c => let '(c, word) := if_polling_access c word in (IfPolling c, word)
  end.

(** What a call that has returned returned. *)
Definition call_result (c : flag_call) : option bool :=
  match c with
  | NotPolling (FoDone _old) => Some (negb (has _old TIF_POLLING_NRFLAG_MASK))
  | IfPolling (IpDone ret) => Some ret
  | _ => None
  end.

Definition starts (c : flag_call) : Prop := c = NotPolling FoRead \/ c = IfPolling IpRead.

(** ** Many calls *)

Record flag_sys := mk_flag_sys { word : Z; calls : list flag_call }.

(** A call that has not returned makes an access, or other code changes the word. *)
Inductive flag_event := Access (i : nat) | Changed (w : Z).

Inductive flag_step : flag_event -> flag_sys -> flag_sys -> Prop :=
  | fs_access i c c' w w' cs :
      cs !! i = Some c -> call_result c = None -> call_access c w = (c', w') ->
      flag_step (Access i) (mk_flag_sys w cs) (mk_flag_sys w' (<[i := c']> cs))
  | fs_changed w w' cs : flag_step (Changed w') (mk_flag_sys w cs) (mk_flag_sys w' cs).

Inductive flag_run : list flag_event -> flag_sys -> flag_sys -> Prop :=
  | fr_nil x : flag_run [] x x
  | fr_cons e es x y z : flag_step e x y -> flag_run es y z -> flag_run (e :: es) x z.

Definition is_access (e : flag_event) : bool := match e with Access _ => true | Changed _ => false end.
Definition accesses (es : list flag_event) : nat := sum_list_with (fun e => if is_access e then 1 else 0)%nat es.
Definition changes (es : list flag_event) : nat := sum_list_with (fun e => if is_access e then 0 else 1)%nat es.

(** ** The atomic calls *)

Definition atomic_not_polling (w : Z) : Z * bool :=
  (Z.lor w TIF_NEED_RESCHED_MASK, negb (has w TIF_POLLING_NRFLAG_MASK)).
Definition atomic_if_polling (w : Z) : Z * bool :=
  if negb (has w TIF_POLLING_NRFLAG_MASK) then (w, false)
  else if has w TIF_NEED_RESCHED_MASK then (w, true)
  else (Z.lor w TIF_NEED_RESCHED_MASK, true).
Definition atomic_call (c : flag_call) : Z -> Z * bool :=
  match c with NotPolling _ => atomic_not_polling | IfPolling _ => atomic_if_polling end.

(** The word and the results so far.  Call [i] takes effect at once, or other code
    changes the word. *)
Record atomic_sys := mk_atomic_sys { a_word : Z; a_results : list (option bool) }.

Inductive atomic_step (kinds : list flag_call) : atomic_sys -> atomic_sys -> Prop :=
  | as_call i c w w' b rs :
      kinds !! i = Some c -> rs !! i = Some None -> atomic_call c w = (w', b) ->
      atomic_step kinds (mk_atomic_sys w rs) (mk_atomic_sys w' (<[i := Some b]> rs))
  | as_changed w w' rs : atomic_step kinds (mk_atomic_sys w rs) (mk_atomic_sys w' rs).

Definition seen_atomic (x : flag_sys) : atomic_sys := mk_atomic_sys (word x) (call_result <$> calls x).

(** ** Every access is a call that takes effect, or nothing *)

(** A value that [set_nr_if_polling] tries has the one flag and lacks the other. *)
Definition tries_well (c : flag_call) : Prop :=
  match c with
  | IfPolling (IpTry val) => has val TIF_POLLING_NRFLAG_MASK = true /\ has val TIF_NEED_RESCHED_MASK = false
  | _ => True
  end.

Lemma if_polling_loop_atomic w :
  let c := IfPolling (if_polling_loop w) in
  tries_well c /\ forall b, call_result c = Some b -> atomic_if_polling w = (w, b).
Proof.
  unfold if_polling_loop, atomic_if_polling. destruct (has w TIF_POLLING_NRFLAG_MASK) eqn:E1, (has w TIF_NEED_RESCHED_MASK) eqn:E2;
    cbn; (split; [done|]); by intros b [= <-].
Qed.

Lemma call_access_atomic c w c' w' :
  tries_well c -> call_result c = None -> call_access c w = (c', w') ->
  tries_well c' /\ atomic_call c' = atomic_call c /\
  match call_result c' with Some b => atomic_call c w = (w', b) | None => w' = w end.
Proof.
  destruct c as [[|v|v]|[|v|b]]; cbn [call_access fetch_or_access if_polling_access]; intros Ht Hc; try done.
  - by intros [= <- <-].
  - destruct (Z.eqb_spec w v) as [->|Hne]; by intros [= <- <-].
  - intros [= <- <-]. destruct (if_polling_loop_atomic w) as [H1 H2]. split; [done|]. split; [done|].
    revert H2. destruct (call_result (IfPolling (if_polling_loop w))); [intros H2; exact (H2 _ eq_refl)|done].
  - destruct (Z.eqb_spec w v) as [->|Hne]; intros [= <- <-].
    + destruct Ht as [H1 H2]. split; [done|]. split; [done|]. cbn. unfold atomic_if_polling. by rewrite H1, H2.
    + destruct (if_polling_loop_atomic w) as [H1 H2]. split; [done|]. split; [done|].
      revert H2. destruct (call_result (IfPolling (if_polling_loop w))); [intros H2; exact (H2 _ eq_refl)|done].
Qed.

(** The system as it goes on: the calls are the ones that were started. *)
Record going (kinds : list flag_call) (x : flag_sys) : Prop := {
  go_tries : Forall tries_well (calls x);
  go_kinds : atomic_call <$> calls x = atomic_call <$> kinds
}.

Lemma going_start x : Forall starts (calls x) -> going (calls x) x.
Proof. intros H. split; [|done]. eapply Forall_impl; [exact H|]. by intros c [-> | ->]. Qed.

Lemma step_atomic kinds e x y :
  going kinds x -> flag_step e x y -> going kinds y /\ rtc (atomic_step kinds) (seen_atomic x) (seen_atomic y).
Proof.
  intros Hg Hs. destruct Hs as [i c c' w w' cs Hi Hc E|w w' cs]; destruct Hg as [Ht Hk]; cbn [calls] in *.
  2:{ split; [split; [exact Ht|exact Hk]|]. apply rtc_once, as_changed. }
  destruct (call_access_atomic c w c' w' (Forall_lookup_1 _ _ _ _ Ht Hi) Hc E) as (Ht' & Ek & Hr). split.
  { split; cbn [calls]; [by apply Forall_insert|]. rewrite list_fmap_insert, Ek, <- Hk. apply list_insert_id.
    by rewrite list_lookup_fmap, Hi. }
  unfold seen_atomic. cbn [word calls]. rewrite list_fmap_insert. destruct (call_result c') as [b|] eqn:Eb.
  - apply rtc_once. assert (exists k, kinds !! i = Some k /\ atomic_call k = atomic_call c) as (k & Hki & Ekc).
    { pose proof (f_equal (fun l => l !! i) Hk) as Hl. cbn in Hl. rewrite !list_lookup_fmap, Hi in Hl.
      destruct (kinds !! i) as [k|]; [|done]. exists k. split; [done|]. injection Hl as Hl. done. }
    eapply as_call; [exact Hki|by rewrite list_lookup_fmap, Hi; cbn; rewrite Hc|by rewrite Ekc].
  - subst w'. rewrite list_insert_id; [done|]. rewrite list_lookup_fmap, Hi. cbn. by rewrite Hc.
Qed.

Lemma run_atomic kinds es x y :
  flag_run es x y -> going kinds x -> going kinds y /\ rtc (atomic_step kinds) (seen_atomic x) (seen_atomic y).
Proof.
  induction 1 as [x|e es x y z Hs _ IH]; [done|]. intros Hx. destruct (step_atomic _ _ _ _ Hx Hs) as [Hy H1].
  destruct (IH Hy) as [Hz H2]. split; [done|]. by etrans.
Qed.

(** ** The calls come to an end

    A call is up to date when the value it tries is the word.  Accesses that are
    not become so; a change spoils that for the others, but uses up a call that
    has not returned, or one of the [n] changes by other code. *)

Definition up_to_date (w : Z) (c : flag_call) : bool :=
  match c with NotPolling (FoTry v) | IfPolling (IpTry v) => v =? w | _ => false end.
Definition pending_calls (cs : list flag_call) : nat := length (filter (fun c => call_result c = None) cs).
Definition call_cost (r : nat) (w : Z) (c : flag_call) : nat :=
  match call_result c with Some _ => 0 | None => r + (if up_to_date w c then 0 else 1) end.
Definition flag_cost (n : nat) (x : flag_sys) : nat :=
  sum_list_with (call_cost (n + pending_calls (calls x)) (word x)) (calls x).

Lemma call_cost_le r r' w w' c : (r' < r)%nat -> (call_cost r' w' c <= call_cost r w c)%nat.
Proof. unfold call_cost. destruct (call_result c), (up_to_date w c), (up_to_date w' c); lia. Qed.
Lemma call_cost_r r r' w c : (r' <= r)%nat -> (call_cost r' w c <= call_cost r w c)%nat.
Proof. unfold call_cost. destruct (call_result c); lia. Qed.

Lemma sum_le (f g : flag_call -> nat) cs : (forall c, f c <= g c)%nat -> (sum_list_with f cs <= sum_list_with g cs)%nat.
Proof. intros H. induction cs as [|c cs IH]; cbn; [done|]. specialize (H c). lia. Qed.
Lemma sum_insert (f : flag_call -> nat) cs i c c' :
  cs !! i = Some c -> (sum_list_with f (<[i := c']> cs) + f c = sum_list_with f cs + f c')%nat.
Proof.
  revert i. induction cs as [|d cs IH]; intros [|i] H; cbn in *; try done; [injection H as ->; lia|].
  specialize (IH i H).
  change (f d + sum_list_with f (<[i:=c']> cs) + f c = f d + sum_list_with f cs + f c')%nat. lia.
Qed.
Lemma pending_insert cs i c c' :
  cs !! i = Some c -> call_result c = None ->
  pending_calls cs = (pending_calls (<[i := c']> cs) + match call_result c' with Some _ => 1 | None => 0 end)%nat.
Proof.
  unfold pending_calls. revert i. induction cs as [|d cs IH]; intros [|i] H Hc; simpl in H; try done.
  - injection H as ->. change (<[0%nat:=c']> (c :: cs)) with (c' :: cs). rewrite !filter_cons. rewrite decide_True by done. destruct (call_result c') eqn:E.
    + rewrite decide_False by done. cbn. lia.
    + rewrite decide_True by done. cbn. lia.
  - change (<[S i:=c']> (d :: cs)) with (d :: <[i:=c']> cs). rewrite !filter_cons. specialize (IH i H Hc). destruct (decide _); cbn; lia.
Qed.

(** An access that does not return leaves the call up to date. *)
Lemma access_settles c w c' w' :
  call_result c = None -> call_access c w = (c', w') -> call_result c' = None ->
  up_to_date w c = false /\ w' = w /\ up_to_date w c' = true.
Proof.
  destruct c as [[|v|v]|[|v|b]]; cbn [call_access fetch_or_access if_polling_access]; intros Hc E Hc'; try done.
  - injection E as <- <-. cbn. by rewrite Z.eqb_refl.
  - destruct (Z.eqb_spec w v) as [->|Hne]; injection E as <- <-; [done|]. cbn.
    rewrite Z.eqb_refl. split; [|done]. apply Z.eqb_neq. by intros ->.
  - injection E as <- <-. revert Hc'. unfold if_polling_loop. repeat case_match; cbn; try done.
    by rewrite Z.eqb_refl.
  - destruct (Z.eqb_spec w v) as [->|Hne]; injection E as <- <-; [done|]. revert Hc'. unfold if_polling_loop.
    repeat case_match; cbn; try done. rewrite Z.eqb_refl. split; [|done]. apply Z.eqb_neq. by intros ->.
Qed.

Lemma access_cost n i x y : flag_step (Access i) x y -> (flag_cost n y < flag_cost n x)%nat.
Proof.
  intros Hs. inversion Hs as [i' c c' w w' cs Hi Hc E|]; subst. unfold flag_cost. cbn [word calls].
  pose proof (pending_insert cs i c c' Hi Hc) as Hp. set (r := pending_calls cs) in *.
  set (r' := pending_calls (<[i := c']> cs)) in *.
  destruct (call_result c') as [b|] eqn:Ec'.
  - pose proof (sum_le _ _ (<[i:=c']> cs) (fun d => call_cost_le (n + r) (n + r') w w' d ltac:(lia))) as Hle.
    pose proof (sum_insert (call_cost (n + r) w) cs i c c' Hi) as Hsum2.
    unfold call_cost at 2 4 in Hsum2. rewrite Hc, Ec' in Hsum2. lia.
  - destruct (access_settles c w c' w' Hc E Ec') as (H1 & -> & H2).
    assert (r' = r) as -> by lia. pose proof (sum_insert (call_cost (n + r) w) cs i c c' Hi) as Hsum. unfold call_cost at 2 4 in Hsum. rewrite Hc, Ec', H1, H2 in Hsum. lia.
Qed.

Lemma change_cost n w x y : flag_step (Changed w) x y -> (flag_cost n y <= flag_cost (S n) x)%nat.
Proof. intros Hs. inversion Hs; subst. apply sum_le. intros c. apply call_cost_le. cbn. lia. Qed.

Lemma run_cost es x y : flag_run es x y -> forall n, (accesses es + flag_cost n y <= flag_cost (changes es + n) x)%nat.
Proof.
  induction 1 as [x|e es x y z Hs _ IH]; intros n; [exact (le_n _)|]. specialize (IH n). destruct e as [i|w].
  - pose proof (access_cost (changes es + n) i x y Hs).
    change (1 + accesses es + flag_cost n z <= flag_cost (changes es + n) x)%nat. lia.
  - pose proof (change_cost (changes es + n) w x y Hs).
    change (accesses es + flag_cost n z <= flag_cost (S (changes es + n)) x)%nat. lia.
Qed.

Lemma flag_cost_bound n x : (flag_cost n x <= length (calls x) * (length (calls x) + n + 1))%nat.
Proof.
  assert (pending_calls (calls x) <= length (calls x))%nat as Hp by apply length_filter.
  unfold flag_cost. set (r := (n + pending_calls (calls x))%nat).
  assert (forall cs, sum_list_with (call_cost r (word x)) cs <= length cs * (r + 1))%nat as H.
  { induction cs as [|c cs IH]; [done|]. cbn [sum_list_with length]. unfold call_cost at 1.
    destruct (call_result c), (up_to_date (word x) c); lia. }
  specialize (H (calls x)). nia.
Qed.

(** ** The machine's calls *)

Lemma upd_task_flags p s t f :
  k_tasks s !! p = Some t -> upd_task p f s = s <| k_tasks := <[p := f t]> (k_tasks s) |>.
Proof. intros Ht. unfold upd_task. by rewrite <- (insert_alter (k_tasks s) p t f Ht). Qed.

Lemma upd_task_same p s t f : k_tasks s !! p = Some t -> f t = t -> upd_task p f s = s.
Proof. intros Ht Ef. rewrite (upd_task_flags _ _ _ _ Ht), Ef, insert_id by done. by destruct s. Qed.

Lemma not_polling_machine s p t :
  k_tasks s !! p = Some t ->
  set_nr_and_not_polling p s =
    (let '(w, b) := atomic_not_polling (thread_info_flags t) in Ok b (upd_task p (fun t => t <| thread_info_flags := w |>) s)).
Proof.
  intros Ht. unfold set_nr_and_not_polling. rewrite (bind_ok _ _ _ _ _ (task_of_run p s t Ht)).
  unfold atomic_not_polling. by rewrite (upd_task_flags _ _ _ _ Ht).
Qed.

Lemma if_polling_machine s p t :
  k_tasks s !! p = Some t ->
  set_nr_if_polling p s =
    (let '(w, b) := atomic_if_polling (thread_info_flags t) in Ok b (upd_task p (fun t => t <| thread_info_flags := w |>) s)).
Proof.
  intros Ht. assert (t <| thread_info_flags := thread_info_flags t |> = t) as Eid by by destruct t.
  unfold set_nr_if_polling, atomic_if_polling. rewrite (bind_ok _ _ _ _ _ (task_of_run p s t Ht)).
  pose proof (upd_task_same p s t (fun t' => t' <| thread_info_flags := thread_info_flags t |>) Ht Eid) as Es.
  destruct (negb _); [by rewrite <- Es at 1|]. destruct (has _ TIF_NEED_RESCHED_MASK); [by rewrite <- Es at 1|].
  by rewrite (upd_task_flags _ _ _ _ Ht).
Qed.

(** C15. The lock-free loops that mark a task for rescheduling are atomic and come
    to an end.  However the accesses of any number of concurrent calls of
    [set_nr_and_not_polling] ([fetch_or]) and [set_nr_if_polling] interleave with
    each other and with other changes of the flags, word and results are those of
    a run in which each call takes effect at once at some moment between its start
    and its return; these atomic calls are the ones of the scheduler's model; and
    [n] calls make at most [n * (n + changes + 1)] accesses, so that no call loops
    on its own. *)
Theorem flag_calls_atomic es x y :
  Forall starts (calls x) -> flag_run es x y ->
  rtc (atomic_step (calls x)) (seen_atomic x) (seen_atomic y) /\
  (accesses es <= length (calls x) * (length (calls x) + changes es + 1))%nat /\
  forall s p t, k_tasks s !! p = Some t ->
    set_nr_and_not_polling p s =
      (let '(w, b) := atomic_not_polling (thread_info_flags t) in Ok b (upd_task p (fun t => t <| thread_info_flags := w |>) s)) /\
    set_nr_if_polling p s =
      (let '(w, b) := atomic_if_polling (thread_info_flags t) in Ok b (upd_task p (fun t => t <| thread_info_flags := w |>) s)).
Proof.
  intros Hst Hr. split; [by apply (run_atomic _ _ _ _ Hr), going_start|]. split.
  - pose proof (run_cost _ _ _ Hr 0) as H. pose proof (flag_cost_bound (changes es + 0) x). lia.
  - intros s p t Ht. split; [by apply not_polling_machine|by apply if_polling_machine].
Qed.
End AtomicFlags.

(** Two CPUs at once: the first marks the task while the second has read the flags
    of an idle task that polls; the second's cmpxchg fails, and it finds the mark. *)
Definition racing : flag_sys := mk_flag_sys 0x200000 [NotPolling FoRead; IfPolling IpRead].
Definition raced : flag_sys := mk_flag_sys 0x200008 [NotPolling (FoDone 0x200000); IfPolling (IpDone true)].
Definition race_events : list flag_event := [Access 1; Access 0; Access 0; Access 1].

Lemma race_run : flag_run (F := linux58_flags) race_events racing raced.
Proof.
  repeat (eapply fr_cons; [eapply fs_access; [reflexivity..]|]). apply fr_nil.
Qed.

Lemma flag_calls_atomic_witness :
  rtc (atomic_step (F := linux58_flags) (calls racing)) (seen_atomic (F := linux58_flags) racing) (seen_atomic (F := linux58_flags) raced) /\
  (accesses race_events <= length (calls racing) * (length (calls racing) + changes race_events + 1))%nat /\
  forall s p t, k_tasks s !! p = Some t ->
    set_nr_and_not_polling (F := linux58_flags) p s =
      (let '(w, b) := atomic_not_polling (F := linux58_flags) (thread_info_flags t) in
       Ok b (upd_task p (fun t => t <| thread_info_flags := w |>) s)) /\
    set_nr_if_polling (F := linux58_flags) p s =
      (let '(w, b) := atomic_if_polling (F := linux58_flags) (thread_info_flags t) in
       Ok b (upd_task p (fun t => t <| thread_info_flags := w |>) s)).
Proof.
  apply (flag_calls_atomic (F := linux58_flags) race_events racing raced); [|exact race_run].
  apply Forall_cons. split; [by left|]. apply Forall_cons. split; [by right|]. apply Forall_nil_2.
Defined.
