(* ===== verification/ScheduleSpec.v ===== *)
(** * ScheduleSpec: what [__schedule] promises, and that it keeps it

    [schedule_spec] is the abstract specification: a pure function of the state,
    of the task picked and of the kind of call, with no lock, no class and no
    clock.  [schedule_refines] shows that [__schedule] runs to the end and leaves
    the state of the specification, up to the fields the scheduling classes own. *)

From S2P Require Import Prelude Task KernelApi Prio Rq RqClock Uclamp UclampFacts UclampInv UclampTrace.
From S2P Require Import State Sched SchedFacts.

(** ** The specification *)

Section Spec.
Context {K : SchedClassOps}.

(** The previous task blocks, unless it was preempted, is runnable or has a
    signal to handle. *)
Definition spec_block (preempt : bool) (cpu : Z) (prev : ptr) (t : task_struct) (s : kstate) : kstate :=
  if negb preempt && nz (t_state t) then
    if signal_pending_state (t_state t) prev then upd_task prev (fun t => t <| t_state := TASK_RUNNING |>) s
    else
      let contributes := has (t_state t) TASK_UNINTERRUPTIBLE && negb (has (t_state t) TASK_NOLOAD)
                         && negb (has (t_flags t) PF_FROZEN) in
      let s := upd_task prev (fun t => t <| sched_contributes_to_load := contributes |>) s in
      let s := if contributes
        then upd_rq cpu (fun r => r <| nr_uninterruptible := u64 (nr_uninterruptible r + 1) |>) s else s in
      let s := upd_task prev (fun t => t <| on_rq := 0 |>) s in
      if in_iowait t then upd_rq cpu (fun r => r <| nr_iowait := nr_iowait r + 1 |>) s else s
  else s.

(** References to address spaces: a kernel thread borrows the one in use, a user
    task gives a borrowed one back. *)
Definition spec_mm (p n : task_struct) (prev next : ptr) (s : kstate) : kstate :=
  match mm n, mm p with
  | None, Some _ =>
      let s := upd_task next (fun t => t <| active_mm := active_mm p |>) s in
      match active_mm p with
      | Some m => s <| k_mm_count := <[m := default 0 (k_mm_count s !! m) + 1]> (k_mm_count s) |>
      | None => s
      end
  | None, None =>
      upd_task prev (fun t => t <| active_mm := None |>)
        (upd_task next (fun t => t <| active_mm := active_mm p |>) s)
  | Some _, Some _ => s
  | Some _, None => upd_task prev (fun t => t <| active_mm := None |>) s
  end.

(** The borrowed address space that the switch gives back, if any. *)
Definition dropped_mm (p n : task_struct) : option Z :=
  match mm n, mm p with Some _, None => active_mm p | _, _ => None end.

Definition spec_drop (m : option Z) (s : kstate) : kstate :=
  match m with
  | Some m => s <| k_mm_count := <[m := default 0 (k_mm_count s !! m) - 1]> (k_mm_count s) |>
  | None => s
  end.

(** The switch: the counters, [curr], the two [on_cpu] flags, address spaces. *)
Definition spec_switch (voluntary : bool) (cpu : Z) (prev next : ptr) (p n : task_struct) (s : kstate)
    : kstate :=
  let s := upd_rq cpu (fun r => r <| nr_switches := u64 (nr_switches r + 1) |>) s in
  let s := upd_rq cpu (fun r => r <| curr := next |>) s in
  let s := upd_task prev (fun t => if voluntary then t <| nvcsw := u64 (nvcsw t + 1) |>
                                   else t <| nivcsw := u64 (nivcsw t + 1) |>) s in
  let s := upd_task next (fun t =>
             t <| process_switches_count := u32 (process_switches_count t + 1) |>) s in
  let s := upd_task next (fun t => t <| on_cpu := 1 |>) s in
  let s := spec_mm p n prev next s in
  let s := upd_rq cpu (fun r => r <| prev_mm := None |>) s in
  let s := upd_task prev (fun t => t <| on_cpu := 0 |>) s in
  spec_drop (dropped_mm p n) s.

Definition schedule_spec (preempt : bool) (next : ptr) (s : kstate) : kstate :=
  let cpu := k_this_cpu s in
  match k_rqs s !! cpu with
  | None => s
  | Some r =>
      let prev := curr r in
      match k_tasks s !! prev, k_tasks s !! next with
      | Some p, Some n =>
          let s := spec_block preempt cpu prev p s in
          let s := if bool_decide (prev = next) then s
                   else spec_switch (negb preempt && nz (t_state p)) cpu prev next p n s in
          s <| k_irqs_off := false |>
      | _, _ => s
      end
  end.

(** States [__schedule] can be called in. *)
Record schedule_pre {U : UclampApi} (s : kstate) (r : rq) (p : task_struct) : Prop := {
  pre_rq : k_rqs s !! k_this_cpu s = Some r;
  pre_unlocked : rq_lock r = false;
  pre_prev_mm : prev_mm r = None;
  pre_curr : k_tasks s !! curr r = Some p;
  pre_idle : idle_ok s (k_this_cpu s);
  pre_preempt : k_preempt s = 1;
  pre_mm : is_Some (mm p) -> is_Some (active_mm p);
  pre_clamps : clamps_in_range s
}.
End Spec.

(** ** Tracking the specification *)

Section Track.
Context {U : UclampApi}.

(** The machine state [s] agrees with [g]. *)
Record tracks (g s : kstate) : Prop := {
  tr_core : core_same true g s;
  tr_clamps : clamps_in_range s
}.

Lemma tracks_frame w g s s' : kframe w s s' -> tracks g s -> tracks g s'.
Proof.
  intros [H1 H2] [H3 H4]. split; [|auto]. etransitivity; [exact H3|].
  destruct w; [done|by apply core_same_weaken].
Qed.

(** Updates of fields that the classes do not own. *)
Definition task_commutes (f : task_struct -> task_struct) : Prop :=
  (forall t, erase_task true (f t) = f (erase_task true t)) /\
  (forall t id, uclamp (f t) id = uclamp t id /\ uclamp_req (f t) id = uclamp_req t id).
Definition rq_commutes (f : rq -> rq) : Prop :=
  (forall r, erase_rq (f r) = f (erase_rq r)) /\ (forall r id, rq_uclamp (f r) id = rq_uclamp r id).

Lemma erase_upd_task w p f s :
  (forall t, erase_task w (f t) = f (erase_task w t)) ->
  erase w (upd_task p f s) = upd_task p f (erase w s).
Proof.
  intros Hf. unfold erase, upd_task. rsimpl.
  assert (erase_task w <$> alter f p (k_tasks s) = alter f p (erase_task w <$> k_tasks s)) as ->; [|reflexivity].
  apply map_eq. intros q. rewrite lookup_fmap. destruct (decide (q = p)) as [->|Hne].
  - rewrite !lookup_alter_eq, lookup_fmap. destruct (k_tasks s !! p); [|reflexivity]. simpl. by rewrite Hf.
  - rewrite lookup_alter_ne by done. rewrite lookup_alter_ne by done. rewrite lookup_fmap. reflexivity.
Qed.

Lemma erase_upd_rq c f s :
  (forall r, erase_rq (f r) = f (erase_rq r)) -> erase true (upd_rq c f s) = upd_rq c f (erase true s).
Proof.
  intros Hf. unfold erase, upd_rq. rsimpl.
  assert (erase_rq <$> alter f c (k_rqs s) = alter f c (erase_rq <$> k_rqs s)) as ->; [|reflexivity].
  apply map_eq. intros q. rewrite lookup_fmap. destruct (decide (q = c)) as [->|Hne].
  - rewrite !lookup_alter_eq, lookup_fmap. destruct (k_rqs s !! c); [|reflexivity]. simpl. by rewrite Hf.
  - rewrite lookup_alter_ne by done. rewrite lookup_alter_ne by done. rewrite lookup_fmap. reflexivity.
Qed.

Lemma clamps_upd_task p f s :
  (forall t id, uclamp (f t) id = uclamp t id /\ uclamp_req (f t) id = uclamp_req t id) ->
  clamps_in_range s -> clamps_in_range (upd_task p f s).
Proof.
  intros Hf [H1 H2 H3]. split; [|done|done]. intros q t. rewrite upd_task_lookup.
  case_decide as E; [|apply H1]. intros (t0 & Ht & ->)%fmap_Some. intros id.
  destruct (Hf t0 id) as [-> ->]. by apply (H1 q).
Qed.

Lemma clamps_upd_rq c f s :
  (forall r id, rq_uclamp (f r) id = rq_uclamp r id) -> clamps_in_range s -> clamps_in_range (upd_rq c f s).
Proof.
  intros Hf [H1 H2 H3]. split; [done| |done]. intros q r. rewrite upd_rq_lookup.
  case_decide as E; [|apply H2]. intros (r0 & Hr & ->)%fmap_Some. intros id. rewrite Hf. by apply (H2 q).
Qed.

Lemma kframe_upd_task w p f s s' :
  (forall t, erase_task w (f t) = f (erase_task w t)) ->
  (forall t id, uclamp (f t) id = uclamp t id /\ uclamp_req (f t) id = uclamp_req t id) ->
  clamps_in_range s -> kframe w s s' -> kframe w (upd_task p f s) (upd_task p f s').
Proof.
  intros Hf Hc Hs [H1 H2]. split; [|intros _; by apply clamps_upd_task, H2].
  unfold core_same in *. rewrite !erase_upd_task by exact Hf. rewrite H1. reflexivity.
Qed.

Lemma tracks_upd_task p f g s : task_commutes f -> tracks g s -> tracks (upd_task p f g) (upd_task p f s).
Proof.
  intros [Hf Hc] [H1 H2]. split; [|by apply clamps_upd_task].
  unfold core_same in *. rewrite !erase_upd_task by exact Hf. rewrite H1. reflexivity.
Qed.

Lemma tracks_upd_rq c f g s : rq_commutes f -> tracks g s -> tracks (upd_rq c f g) (upd_rq c f s).
Proof.
  intros [Hf Hc] [H1 H2]. split; [|by apply clamps_upd_rq].
  unfold core_same in *. rewrite !erase_upd_rq by exact Hf. rewrite H1. reflexivity.
Qed.

Lemma tracks_task g s p t :
  tracks g s -> k_tasks g !! p = Some t ->
  exists t', k_tasks s !! p = Some t' /\ erase_task true t' = erase_task true t.
Proof. intros [H _]. apply (proj1 (core_same_lookup _ _ _ H)). Qed.
Lemma tracks_rq g s c r :
  tracks g s -> k_rqs g !! c = Some r -> exists r', k_rqs s !! c = Some r' /\ erase_rq r' = erase_rq r.
Proof. intros [H _]. apply (proj2 (core_same_lookup _ _ _ H)). Qed.
Lemma tracks_task_some g s p : tracks g s -> is_Some (k_tasks g !! p) -> is_Some (k_tasks s !! p).
Proof. intros H [t Ht]. destruct (tracks_task _ _ _ _ H Ht) as (t' & ? & _). eauto. Qed.
Lemma tracks_rq_some g s c : tracks g s -> is_Some (k_rqs g !! c) -> is_Some (k_rqs s !! c).
Proof. intros H [t Ht]. destruct (tracks_rq _ _ _ _ H Ht) as (t' & ? & _). eauto. Qed.
End Track.

Ltac commutes := split; [intros; reflexivity | intros ? []; first [reflexivity | split; reflexivity]].

(** ** The parts of [__schedule] *)

Section Parts.
Context {U : UclampApi} {F : FlagApi} {FL : FlagLaws F} {C : ClockConfig} {K : SchedClassOps}
  {KL : SchedClassLaws K}.

Lemma wp_track_task g s p f (Q : unit -> kstate -> Prop) :
  tracks g s -> is_Some (k_tasks g !! p) -> task_commutes f ->
  (forall s', tracks (upd_task p f g) s' -> Q tt s') -> wp (set_task p f) Q s.
Proof.
  intros H Hp Hf HQ. apply wp_upd_task; [by eapply tracks_task_some|]. apply HQ. by apply tracks_upd_task.
Qed.

Lemma wp_track_rq g s c f (Q : unit -> kstate -> Prop) :
  tracks g s -> is_Some (k_rqs g !! c) -> rq_commutes f ->
  (forall s', tracks (upd_rq c f g) s' -> Q tt s') -> wp (set_rq c f) Q s.
Proof.
  intros H Hp Hf HQ. apply wp_upd_rq; [by eapply tracks_rq_some|]. apply HQ. by apply tracks_upd_rq.
Qed.

(** Updates of fields the classes own are not seen. *)
Lemma wp_absorb_rq g s c f (Q : unit -> kstate -> Prop) :
  tracks g s -> is_Some (k_rqs g !! c) ->
  (forall r, erase_rq (f r) = erase_rq r) -> (forall r id, rq_uclamp (f r) id = rq_uclamp r id) ->
  (forall s', tracks g s' -> Q tt s') -> wp (set_rq c f) Q s.
Proof.
  intros H Hc Hf Hu HQ. destruct (tracks_rq_some _ _ _ H Hc) as [r Hr].
  eapply wp_set_rq; [done|]. apply HQ. eapply (tracks_frame true); [|exact H].
  eapply kframe_put_rq; [done|apply Hf|]. intros Hrange id. rewrite Hu. apply Hrange.
Qed.

Lemma dequeue_sleep_flag : has (Z.lor DEQUEUE_SLEEP DEQUEUE_NOCLOCK) DEQUEUE_SLEEP = true.
Proof using FL.
  pose proof dequeue_bits as Hd. pose proof enqueue_bits as He. injection Hd as -> _ _ ->.
  injection He as -> _ _ -> _ _ _. done.
Qed.

Lemma wp_track_deactivate g s cpu prev :
  tracks g s -> is_Some (k_rqs g !! cpu) -> is_Some (k_tasks g !! prev) ->
  wp (deactivate_task cpu prev (Z.lor DEQUEUE_SLEEP DEQUEUE_NOCLOCK))
    (fun _ s' => tracks (upd_task prev (fun t => t <| on_rq := 0 |>) g) s') s.
Proof using FL KL.
  intros H Hr Hp. destruct (tracks_task_some _ _ _ H Hp) as [t Ht].
  eapply wp_mono; [apply wp_deactivate_task; [apply H|by eapply tracks_rq_some|done]|].
  cbn beta. intros _ s' Hs'. rewrite dequeue_sleep_flag in Hs'.
  rewrite (insert_alter (k_tasks s) prev t (fun t => t <| on_rq := 0 |>) Ht) in Hs'.
  eapply tracks_frame; [exact Hs'|]. apply tracks_upd_task; [commutes|done].
Qed.

Lemma wp_try_to_block g s preempt cpu prev p :
  tracks g s -> is_Some (k_rqs g !! cpu) -> k_tasks g !! prev = Some p ->
  wp (try_to_block cpu prev preempt)
    (fun v s' => v = negb preempt && nz (t_state p) /\ tracks (spec_block preempt cpu prev p g) s') s.
Proof using FL KL.
  intros H Hr Hp. destruct (tracks_task _ _ _ _ H Hp) as (t & Ht & E).
  unfold try_to_block, spec_block. apply wp_bind. eapply wp_task_of; [done|].
  rewrite (erase_field true t_state _ _ ltac:(kept_field) E).
  rewrite (erase_field true t_flags _ _ ltac:(kept_field) E).
  destruct (negb preempt && nz (t_state p)); [|by apply wp_ret]. apply wp_bind.
  destruct (signal_pending_state (t_state p) prev).
  { eapply wp_track_task; [done|by rewrite Hp|commutes|]. intros s' Hs'. apply wp_ret. done. }
  set (contributes := has _ _ && _ && _). apply wp_bind.
  eapply wp_track_task; [done|by rewrite Hp|commutes|]. intros s1 H1. apply wp_bind.
  set (g1 := upd_task prev _ g) in *.
  set (g2 := if contributes then upd_rq cpu _ g1 else g1).
  assert (is_Some (k_tasks g1 !! prev)) as Hp1 by (apply upd_task_some; by rewrite Hp).
  assert (is_Some (k_rqs g2 !! cpu) /\ is_Some (k_tasks g2 !! prev)) as [Hr2 Hp2].
  { subst g2. destruct contributes; [|done]. split; [by apply upd_rq_some|done]. }
  apply (wp_mono _ (fun _ s' => tracks g2 s')).
  { apply wp_when; intros Ec; subst g2; rewrite Ec; [|done]. eapply wp_track_rq; [done|done|commutes|done]. }
  intros _ s2 H2. apply wp_bind. eapply wp_mono; [by apply (wp_track_deactivate g2)|].
  cbn beta. intros _ s3 H3. set (g3 := upd_task prev _ g2) in *.
  assert (in_iowait <$> k_tasks g3 !! prev = Some (in_iowait p)) as Hio.
  { subst g3 g2 g1. rewrite upd_task_lookup, decide_True by done. destruct contributes;
      [change (k_tasks (upd_rq ?c ?f ?x)) with (k_tasks x)|]; by rewrite upd_task_lookup, decide_True, Hp. }
  apply fmap_Some in Hio as (p3 & Hp3 & Eio).
  destruct (tracks_task _ _ _ _ H3 Hp3) as (t3 & Ht3 & E3). apply wp_bind. eapply wp_task_of; [done|].
  rewrite (erase_field true in_iowait _ _ ltac:(kept_field) E3), <- Eio.
  apply wp_when; intros Ei; rewrite Ei; [|by apply wp_ret].
  eapply wp_track_rq; [done|done|commutes|]. intros s4 H4. apply wp_ret. done.
Qed.

(** ** The switch *)

Lemma tracks_this_cpu g s : tracks g s -> k_this_cpu s = k_this_cpu g.
Proof. intros [H _]. exact (f_equal k_this_cpu H). Qed.
Lemma tracks_preempt g s : tracks g s -> k_preempt s = k_preempt g.
Proof. intros [H _]. exact (f_equal k_preempt H). Qed.
Lemma tracks_mm_count g s : tracks g s -> k_mm_count s = k_mm_count g.
Proof. intros [H _]. exact (f_equal k_mm_count H). Qed.

(** Updates of the state's own fields. *)
Lemma tracks_state (f : kstate -> kstate) g s :
  (forall x, erase true (f x) = f (erase true x)) ->
  (forall x, k_tasks (f x) = k_tasks x /\ k_rqs (f x) = k_rqs x /\ k_sys (f x) = k_sys x) ->
  tracks g s -> tracks (f g) (f s).
Proof.
  intros Hf Hs [H1 H2]. split.
  - unfold core_same in *. rewrite !Hf, H1. reflexivity.
  - destruct (Hs s) as (E1 & E2 & E3). destruct H2 as [A1 A2 A3].
    split; [rewrite E1; exact A1|rewrite E2; exact A2|rewrite E3; exact A3].
Qed.

Definition unlock_g (cpu : Z) (g : kstate) : kstate :=
  (upd_rq cpu (fun r => r <| rq_lock := false |>) g) <| k_preempt := k_preempt g - 1 |>
    <| k_irqs_off := false |>.

Lemma wp_track_unlock g s cpu r (Q : unit -> kstate -> Prop) :
  tracks g s -> k_rqs g !! cpu = Some r -> rq_lock r = true ->
  (forall s', tracks (unlock_g cpu g) s' -> Q tt s') ->
  wp (unlock_rq cpu;; local_irq_enable) Q s.
Proof.
  intros H Hr Hl HQ. destruct (tracks_rq _ _ _ _ H Hr) as (r' & Hr' & E). apply wp_bind.
  eapply wp_unlock_rq; [done|by rewrite (erase_rq_field rq_lock _ _ ltac:(done) E)|].
  apply wp_modify, HQ.
  rewrite (insert_alter (k_rqs s) cpu r' (fun r => r <| rq_lock := false |>) Hr'), (tracks_preempt _ _ H).
  unfold unlock_g. apply (tracks_state (fun x => x <| k_irqs_off := false |>)); [done|done|].
  apply (tracks_state (fun x => x <| k_preempt := k_preempt g - 1 |>)); [done|done|].
  apply (tracks_upd_rq cpu (fun r => r <| rq_lock := false |>)); [commutes|done].
Qed.

Lemma wp_track_drop g s mm (Q : unit -> kstate -> Prop) :
  tracks g s -> (forall s', tracks (spec_drop mm g) s' -> Q tt s') ->
  wp (match mm with Some mm => mmdrop mm | None => mret tt end) Q s.
Proof.
  intros H HQ. destruct mm as [m|]; [|by apply HQ]. apply wp_modify, HQ.
  rewrite (tracks_mm_count _ _ H). unfold spec_drop.
  by apply (tracks_state (fun x => x <| k_mm_count := _ |>)).
Qed.

(** A hook that runs for the current task. *)
Lemma wp_current_hook {X} g s r (f : ptr -> kstate -> kstate) (k : M X) (Q : X -> kstate -> Prop) :
  tracks g s -> k_rqs g !! k_this_cpu g = Some r -> (forall p s, kframe false s (f p s)) ->
  (forall s', tracks g s' -> wp k Q s') -> wp (now ← current; modify (f now);; k) Q s.
Proof.
  intros H Hr Hf HQ. destruct (tracks_rq _ _ _ _ H Hr) as (r' & Hr' & _).
  apply wp_bind. eapply wp_current; [by rewrite (tracks_this_cpu _ _ H)|].
  apply wp_bind, wp_modify, HQ. eapply tracks_frame; [apply Hf|done].
Qed.

Lemma wp_finish_task_switch g s cpu r prev :
  tracks g s -> k_this_cpu g = cpu -> k_rqs g !! cpu = Some r -> rq_lock r = true ->
  k_preempt g = 2 -> is_Some (k_tasks g !! prev) ->
  wp (finish_task_switch prev) (fun c s' => c = cpu /\
    tracks (spec_drop (prev_mm r) (unlock_g cpu (upd_task prev (fun t => t <| on_cpu := 0 |>)
      (upd_rq cpu (fun r => r <| prev_mm := None |>) g)))) s') s.
Proof using KL.
  intros H Hcpu Hr Hl Hpre [p Hp]. unfold finish_task_switch.
  destruct (tracks_rq _ _ _ _ H Hr) as (r' & Hr' & E).
  unfold smp_processor_id. do 2 apply wp_bind. apply wp_get, wp_ret.
  rewrite (tracks_this_cpu _ _ H), Hcpu. apply wp_bind. eapply wp_rq_of; [done|].
  rewrite (erase_rq_field prev_mm _ _ ltac:(done) E).
  apply wp_bind, wp_modify. rewrite (tracks_preempt _ _ H), Hpre, Z.eqb_refl.
  apply wp_bind, wp_put_rq.
  rewrite (insert_alter (k_rqs s) cpu r' (fun r => r <| prev_mm := None |>) Hr').
  assert (tracks (upd_rq cpu (fun r => r <| prev_mm := None |>) g) (upd_rq cpu (fun r => r <| prev_mm := None |>) s))
    as H1 by (apply tracks_upd_rq; [commutes|done]).
  fold (upd_rq cpu (fun r => r <| prev_mm := None |>) s). revert H1.
  generalize (upd_rq cpu (fun r => r <| prev_mm := None |>) s). intros s1 H1.
  set (g1 := upd_rq cpu _ g) in *.
  destruct (tracks_task g1 s1 prev p H1 Hp) as (t & Ht & Et).
  apply wp_bind. eapply wp_task_of; [done|]. apply wp_bind.
  eapply wp_track_task; [done|by exists p|commutes|]. intros s2 H2. apply wp_bind.
  eapply (wp_track_unlock _ _ _ (r <| prev_mm := None |>)); [done| |done|].
  { change (k_rqs g1 !! cpu = Some (r <| prev_mm := None |>)). subst g1.
    rewrite upd_rq_lookup, decide_True, Hr by done. reflexivity. }
  intros s3 H3. eapply (wp_current_hook _ _ (r <| prev_mm := None |> <| rq_lock := false |>)); [exact H3| |apply law_sched_in|].
  { change (k_rqs (upd_rq cpu (fun r => r <| rq_lock := false |>) g1) !! k_this_cpu g = Some (r <| prev_mm := None |> <| rq_lock := false |>)).
    rewrite Hcpu, upd_rq_lookup, decide_True by done. subst g1. by rewrite upd_rq_lookup, decide_True, Hr. }
  clear s3 H3. intros s3 H3. apply wp_bind. eapply wp_track_drop; [done|]. intros s4 H4.
  apply wp_bind. match type of H4 with tracks ?x _ => set (g4 := x) in * end.
  apply (wp_mono _ (fun _ s' => tracks g4 s')); [|intros _ s5 H5; by apply wp_ret].
  apply wp_when; [|done]. intros _.
  assert (is_Some (k_tasks g4 !! prev)) as Hp4.
  { subst g4. destruct (prev_mm r); apply upd_task_some; by exists p. }
  destruct (tracks_task_some _ _ _ H4 Hp4) as [t4 Ht4]. apply wp_bind. eapply wp_task_of; [done|].
  apply wp_bind, wp_modify, wp_modify.
  eapply tracks_frame; [apply law_put_dead|]. eapply tracks_frame; [apply law_task_dead|done].
Qed.

(** The address-space part of [context_switch], in the order of the code. *)
Definition ghost_mm (cpu : Z) (p n : task_struct) (prev next : ptr) (g : kstate) : kstate :=
  match mm n, mm p with
  | Some _, None => upd_task prev (fun t => t <| active_mm := None |>)
                      (upd_rq cpu (fun r => r <| prev_mm := active_mm p |>) g)
  | _, _ => spec_mm p n prev next g
  end.

Lemma wp_context_switch g s cpu r prev next p n :
  tracks g s -> k_this_cpu g = cpu -> k_rqs g !! cpu = Some r -> rq_lock r = true -> prev_mm r = None ->
  k_preempt g = 2 -> prev <> next -> k_tasks g !! prev = Some p -> k_tasks g !! next = Some n ->
  (is_Some (mm p) -> is_Some (active_mm p)) ->
  wp (context_switch cpu prev next) (fun c s' => c = cpu /\
    tracks (spec_drop (dropped_mm p n) (unlock_g cpu (upd_task prev (fun t => t <| on_cpu := 0 |>)
      (upd_rq cpu (fun r => r <| prev_mm := None |>)
        (ghost_mm cpu p n prev next (upd_task next (fun t => t <| on_cpu := 1 |>) g)))))) s') s.
Proof using KL.
  intros H Hcpu Hr Hl Hpm Hpre Hne Hp Hn Hmm. unfold context_switch, prepare_task_switch, prepare_task.
  apply wp_bind. do 2 apply wp_bind, wp_modify. revert H. intros H%(tracks_frame _ _ _ _ (law_rseq_preempt prev s)).
  apply (tracks_frame _ _ _ _ (law_sched_out prev next _)) in H.
  eapply wp_track_task; [exact H|by exists n|commutes|]. intros s1 H1.
  set (g1 := upd_task next _ g) in *.
  assert (k_tasks g1 !! prev = Some p) as Hp1 by (subst g1; by rewrite upd_task_lookup, decide_False).
  assert (k_tasks g1 !! next = Some (n <| on_cpu := 1 |>)) as Hn1
    by (subst g1; by rewrite upd_task_lookup, decide_True, Hn).
  destruct (tracks_task _ _ _ _ H1 Hp1) as (p1 & Hp1' & Ep). destruct (tracks_task _ _ _ _ H1 Hn1) as (n1 & Hn1' & En).
  apply wp_bind. eapply wp_task_of; [exact Hn1'|]. apply wp_bind. eapply wp_task_of; [exact Hp1'|].
  rewrite (erase_field true mm _ _ ltac:(kept_field) En), (erase_field true mm _ _ ltac:(kept_field) Ep).
  rewrite (erase_field true active_mm _ _ ltac:(kept_field) Ep).
  change (mm (n <| on_cpu := 1 |>)) with (mm n). apply wp_bind.
  apply (wp_mono _ (fun _ s' => tracks (ghost_mm cpu p n prev next g1) s')).
  { unfold ghost_mm, spec_mm. destruct (mm n) as [mn|].
    - destruct (mm p) as [mp|]; [by apply wp_ret|]. apply wp_bind.
      eapply wp_track_rq; [done|by exists r|commutes|]. intros s2 H2.
      eapply wp_track_task; [done|by exists p|commutes|done].
    - apply wp_bind. eapply wp_track_task; [done|by eexists|commutes|]. intros s2 H2.
      destruct (mm p) as [mp|].
      + destruct Hmm as [m Hm]; [eauto|]. rewrite Hm in *. apply wp_modify. rewrite (tracks_mm_count _ _ H2).
        by apply (tracks_state (fun x => x <| k_mm_count := _ |>)).
      + eapply wp_track_task; [done| |commutes|done]. apply upd_task_some. by exists p. }
  intros _ s2 H2. apply wp_bind. set (g2 := ghost_mm _ _ _ _ _ _) in *.
  assert (exists r2, k_rqs g2 !! cpu = Some r2 /\ rq_lock r2 = true /\ prev_mm r2 = dropped_mm p n
    /\ k_this_cpu g2 = cpu /\ k_preempt g2 = 2 /\ is_Some (k_tasks g2 !! prev)) as (r2 & Hr2 & Hl2 & Hm2 & Hc2 & Hpre2 & Hp2).
  { subst g2. unfold ghost_mm, spec_mm, dropped_mm.
    assert (k_rqs (upd_task prev (fun t => t <| active_mm := None |>)
      (upd_rq cpu (fun r => r <| prev_mm := active_mm p |>) g1)) !! cpu = Some (r <| prev_mm := active_mm p |>)) as Hr1.
    { change (k_rqs (upd_task ?a ?b ?c)) with (k_rqs c). rewrite upd_rq_lookup, decide_True by done.
      change (k_rqs g1) with (k_rqs g). by rewrite Hr. }
    destruct (mm n), (mm p), (active_mm p); eexists; split_and!;
      lazymatch goal with
      | |- k_rqs _ !! _ = _ => first [exact Hr1 | exact Hr]
      | |- is_Some _ => rsimpl; repeat apply upd_task_some; by exists p
      | |- _ => done
      end. }
  eapply wp_absorb_rq; [done|by exists r2|done|by intros ? []|]. intros s3 H3.
  eapply wp_mono; [apply (wp_finish_task_switch g2 s3 cpu r2 prev); done|].
  cbn beta. rewrite Hm2. done.
Qed.

(** The code's order and the specification's agree. *)
Lemma upd_rq_twice c f f' g : upd_rq c f (upd_rq c f' g) = upd_rq c (fun r => f (f' r)) g.
Proof.
  unfold upd_rq. rsimpl.
  assert (alter f c (alter f' c (k_rqs g)) = alter (fun r => f (f' r)) c (k_rqs g)) as <-; [|reflexivity].
  apply map_eq. intros d. destruct (decide (d = c)) as [->|Hne].
  - rewrite !lookup_alter_eq. by destruct (k_rqs g !! c).
  - by rewrite !lookup_alter_ne.
Qed.

Lemma upd_rq_ext c f f' g : (forall r, f r = f' r) -> upd_rq c f g = upd_rq c f' g.
Proof.
  intros Hf. unfold upd_rq. assert (alter f c (k_rqs g) = alter f' c (k_rqs g)) as ->; [|reflexivity].
  apply alter_ext. auto.
Qed.

Lemma ghost_mm_spec cpu p n prev next g :
  upd_rq cpu (fun r => r <| prev_mm := None |>) (ghost_mm cpu p n prev next g) =
  upd_rq cpu (fun r => r <| prev_mm := None |>) (spec_mm p n prev next g).
Proof.
  unfold ghost_mm, spec_mm. destruct (mm n), (mm p); try done.
  change (upd_task prev ?f (upd_rq cpu ?h g)) with (upd_rq cpu h (upd_task prev f g)).
  by rewrite upd_rq_twice.
Qed.

Lemma wp_switch_tasks g s cpu r prev next p n vol :
  tracks g s -> k_this_cpu g = cpu -> k_rqs g !! cpu = Some r -> rq_lock r = true -> prev_mm r = None ->
  k_preempt g = 2 -> prev <> next -> k_tasks g !! prev = Some p -> k_tasks g !! next = Some n ->
  (is_Some (mm p) -> is_Some (active_mm p)) ->
  wp (switch_tasks cpu prev next vol) (fun c s' => c = cpu /\
    tracks (unlock_g cpu (spec_switch vol cpu prev next p n g)) s') s.
Proof using KL.
  intros H Hcpu Hr Hl Hpm Hpre Hne Hp Hn Hmm. unfold switch_tasks.
  apply wp_bind. eapply wp_track_rq; [done|by exists r|commutes|]. intros s1 H1.
  apply wp_bind. eapply wp_track_rq; [done|apply upd_rq_some; by exists r|commutes|]. intros s2 H2.
  apply wp_bind. eapply wp_track_task; [done|by exists p| |].
  { split; [by destruct vol|by destruct vol; intros ? []]. }
  intros s3 H3. apply wp_bind. eapply wp_track_task; [done|apply upd_task_some; by exists n|commutes|]. intros s4 H4.
  match type of H4 with tracks ?x _ => set (g4 := x) in * end.
  assert (exists p4 n4, k_tasks g4 !! prev = Some p4 /\ k_tasks g4 !! next = Some n4 /\ mm p4 = mm p
    /\ active_mm p4 = active_mm p /\ mm n4 = mm n) as (p4 & n4 & Hp4 & Hn4 & E1 & E2 & E3).
  { assert (next <> prev) as Hne' by congruence. subst g4. eexists _, _. split_and!.
    - rewrite upd_task_lookup, decide_False by exact Hne. rewrite upd_task_lookup, decide_True by reflexivity.
      change (k_tasks (upd_rq _ _ _) !! prev) with (k_tasks g !! prev). rewrite Hp. reflexivity.
    - rewrite upd_task_lookup, decide_True by reflexivity. rewrite upd_task_lookup, decide_False by exact Hne'.
      change (k_tasks (upd_rq _ _ _) !! next) with (k_tasks g !! next). rewrite Hn. reflexivity.
    - by destruct vol.
    - by destruct vol.
    - reflexivity. }
  assert (exists r4, k_rqs g4 !! cpu = Some r4 /\ rq_lock r4 = true /\ prev_mm r4 = None) as (r4 & Hr4 & Hl4 & Hm4).
  { subst g4. eexists. split; [|split].
    - change (k_rqs (upd_task _ _ _) !! cpu)
        with (k_rqs (upd_rq cpu (fun r => r <| curr := next |>)
                       (upd_rq cpu (fun r => r <| nr_switches := u64 (nr_switches r + 1) |>) g)) !! cpu).
      rewrite upd_rq_lookup, decide_True by reflexivity. rewrite upd_rq_lookup, decide_True by reflexivity.
      rewrite Hr. reflexivity.
    - exact Hl.
    - exact Hpm. }
  eapply wp_mono; [apply (wp_context_switch g4 s4 cpu r4 prev next p4 n4); try done; by rewrite E1, E2|].
  cbn beta. intros c s5 [-> H5]. split; [done|].
  assert (dropped_mm p4 n4 = dropped_mm p n) as Ed by (unfold dropped_mm; by rewrite E1, E2, E3).
  assert (forall x, spec_mm p4 n4 prev next x = spec_mm p n prev next x) as Em
    by (intros; unfold spec_mm; by rewrite E1, E2, E3).
  rewrite Ed, ghost_mm_spec, Em in H5. unfold spec_switch. fold g4.
  destruct (dropped_mm p n); exact H5.
Qed.
End Parts.

(** ** Locking and unlocking around the specification *)

Definition locked_g (cpu : Z) (g : kstate) : kstate :=
  (upd_rq cpu (fun r => r <| rq_lock := true |>) g) <| k_preempt := k_preempt g + 1 |>.

Lemma upd_rq_id c f g : (forall r, k_rqs g !! c = Some r -> f r = r) -> upd_rq c f g = g.
Proof.
  intros Hf. assert (alter f c (k_rqs g) = k_rqs g) as E.
  { apply map_eq. intros d. destruct (decide (d = c)) as [->|Hne].
    - rewrite lookup_alter_eq. destruct (k_rqs g !! c) eqn:Hc; [|done]. simpl. by rewrite Hf.
    - by rewrite lookup_alter_ne. }
  unfold upd_rq. rewrite E. by destruct g.
Qed.

(** Taking and releasing the lock changes nothing else. *)
Lemma unlock_locked cpu g r :
  k_rqs g !! cpu = Some r -> rq_lock r = false ->
  (upd_rq cpu (fun r => r <| rq_lock := false |>) (locked_g cpu g))
    <| k_preempt := k_preempt (locked_g cpu g) - 1 |> = g.
Proof.
  intros Hr Hl.
  assert (upd_rq cpu (fun r => r <| rq_lock := false |>) (upd_rq cpu (fun r => r <| rq_lock := true |>) g) = g) as E.
  { rewrite upd_rq_twice. apply upd_rq_id. intros r' Hr'. rewrite Hr in Hr'. injection Hr' as <-.
    destruct r. cbn in Hl. subst. reflexivity. }
  transitivity ((upd_rq cpu (fun r => r <| rq_lock := false |>) (upd_rq cpu (fun r => r <| rq_lock := true |>) g))
    <| k_preempt := k_preempt g + 1 - 1 |>); [reflexivity|].
  rewrite E, Z.add_simpl_r. by destruct g.
Qed.

Lemma unlock_g_locked cpu g r :
  k_rqs g !! cpu = Some r -> rq_lock r = false -> unlock_g cpu (locked_g cpu g) = g <| k_irqs_off := false |>.
Proof. intros Hr Hl. unfold unlock_g. by rewrite (unlock_locked cpu g r Hr Hl). Qed.

Lemma locked_upd_rq c f g :
  (forall r, f (r <| rq_lock := true |>) = (f r) <| rq_lock := true |>) ->
  upd_rq c f (locked_g c g) = locked_g c (upd_rq c f g).
Proof.
  intros Hf. assert (upd_rq c f (upd_rq c (fun r => r <| rq_lock := true |>) g) =
    upd_rq c (fun r => r <| rq_lock := true |>) (upd_rq c f g)) as E.
  { rewrite !upd_rq_twice. apply upd_rq_ext. done. }
  transitivity ((upd_rq c f (upd_rq c (fun r => r <| rq_lock := true |>) g)) <| k_preempt := k_preempt g + 1 |>);
    [reflexivity|]. rewrite E. reflexivity.
Qed.

(** Fields the specification of a call does not change. *)
Section Views.
Context {K : SchedClassOps} {X : Type}.

Lemma upd_task_view (f : task_struct -> X) p h s q :
  (forall t, f (h t) = f t) -> f <$> k_tasks (upd_task p h s) !! q = f <$> k_tasks s !! q.
Proof.
  intros Hf. rewrite upd_task_lookup. case_decide; [|done].
  destruct (k_tasks s !! q); [|done]. simpl. by rewrite Hf.
Qed.
Lemma upd_rq_view (f : rq -> X) c h s d :
  (forall r, f (h r) = f r) -> f <$> k_rqs (upd_rq c h s) !! d = f <$> k_rqs s !! d.
Proof.
  intros Hf. rewrite upd_rq_lookup. case_decide; [|done].
  destruct (k_rqs s !! d); [|done]. simpl. by rewrite Hf.
Qed.

Lemma spec_block_task (f : task_struct -> X) preempt cpu prev p s q :
  (forall t v, f (t <| t_state := v |>) = f t) -> (forall t v, f (t <| sched_contributes_to_load := v |>) = f t) ->
  (forall t v, f (t <| on_rq := v |>) = f t) ->
  f <$> k_tasks (spec_block preempt cpu prev p s) !! q = f <$> k_tasks s !! q.
Proof.
  intros H1 H2 H3. unfold spec_block. destruct (_ && nz _); [|done].
  destruct (signal_pending_state _ _); [by apply upd_task_view|].
  set (c := has _ _ && _ && _).
  transitivity (f <$> k_tasks (upd_task prev (fun t => t <| on_rq := 0 |>)
    (upd_task prev (fun t => t <| sched_contributes_to_load := c |>) s)) !! q); [by destruct (in_iowait p), c|].
  rewrite upd_task_view by done. by apply upd_task_view.
Qed.

Lemma spec_block_rq (f : rq -> X) preempt cpu prev p s d :
  (forall r v, f (r <| nr_uninterruptible := v |>) = f r) -> (forall r v, f (r <| nr_iowait := v |>) = f r) ->
  f <$> k_rqs (spec_block preempt cpu prev p s) !! d = f <$> k_rqs s !! d.
Proof.
  intros H1 H2. unfold spec_block. destruct (_ && nz _); [|done].
  destruct (signal_pending_state _ _); [done|]. set (c := has _ _ && _ && _).
  destruct (in_iowait p), c; rewrite ?upd_rq_view by done; try done;
    change (k_rqs (upd_task _ _ (upd_rq ?a ?b (upd_task _ _ s)))) with (k_rqs (upd_rq a b s));
    by rewrite ?upd_rq_view by done.
Qed.

(** The two updates of a switch that other views see. *)
Definition charge_out (voluntary : bool) (t : task_struct) : task_struct :=
  if voluntary then t <| nvcsw := u64 (nvcsw t + 1) |> else t <| nivcsw := u64 (nivcsw t + 1) |>.
Definition charge_in (t : task_struct) : task_struct :=
  t <| process_switches_count := u32 (process_switches_count t + 1) |>.

Lemma spec_switch_task (f : task_struct -> X) vol cpu prev next p n g q :
  (forall t v, f (t <| on_cpu := v |>) = f t) -> (forall t v, f (t <| active_mm := v |>) = f t) ->
  f <$> k_tasks (spec_switch vol cpu prev next p n g) !! q =
  f <$> k_tasks (upd_task next charge_in (upd_task prev (charge_out vol) g)) !! q.
Proof.
  intros H1 H2. unfold spec_switch. cbv zeta.
  set (g1 := upd_task next _ (upd_task prev _ _)).
  transitivity (f <$> k_tasks (spec_mm p n prev next (upd_task next (fun t => t <| on_cpu := 1 |>) g1)) !! q).
  - transitivity (f <$> k_tasks (upd_task prev (fun t => t <| on_cpu := 0 |>)
      (spec_mm p n prev next (upd_task next (fun t => t <| on_cpu := 1 |>) g1))) !! q);
      [by destruct (dropped_mm p n)|by apply upd_task_view].
  - transitivity (f <$> k_tasks (upd_task next (fun t => t <| on_cpu := 1 |>) g1) !! q);
      [|rewrite upd_task_view by done; reflexivity].
    unfold spec_mm. destruct (mm n), (mm p); [done|by apply upd_task_view| |].
    + destruct (active_mm p); by apply (upd_task_view f next).
    + rewrite upd_task_view by done. by apply upd_task_view.
Qed.

Lemma spec_switch_rq (f : rq -> X) vol cpu prev next p n g d :
  (forall r v, f (r <| prev_mm := v |>) = f r) ->
  f <$> k_rqs (spec_switch vol cpu prev next p n g) !! d =
  f <$> k_rqs (upd_rq cpu (fun r => r <| curr := next |>)
                 (upd_rq cpu (fun r => r <| nr_switches := u64 (nr_switches r + 1) |>) g)) !! d.
Proof.
  intros H. symmetry. rewrite <- (upd_rq_view f cpu (fun r => r <| prev_mm := None |>)) by done.
  unfold spec_switch, spec_mm, spec_drop, dropped_mm. by destruct (mm n), (mm p), (active_mm p).
Qed.
End Views.

Section Refine.
Context {U : UclampApi} {F : FlagApi} {FL : FlagLaws F} {C : ClockConfig} {K : SchedClassOps}
  {KL : SchedClassLaws K}.

Lemma locked_block preempt cpu prev p g :
  spec_block preempt cpu prev p (locked_g cpu g) = locked_g cpu (spec_block preempt cpu prev p g).
Proof.
  unfold spec_block. destruct (_ && nz _); [|done]. destruct (signal_pending_state _ _); [done|].
  set (c := has _ _ && _ && _).
  assert (forall h x, upd_task prev h (locked_g cpu x) = locked_g cpu (upd_task prev h x)) as Ht by done.
  destruct (in_iowait p), c; rewrite ?Ht, ?locked_upd_rq, ?Ht, ?locked_upd_rq by done; done.
Qed.

Lemma irqs_block preempt cpu prev p g b :
  spec_block preempt cpu prev p (g <| k_irqs_off := b |>) = (spec_block preempt cpu prev p g) <| k_irqs_off := b |>.
Proof.
  unfold spec_block. destruct (_ && nz _); [|done]. destruct (signal_pending_state _ _); [done|].
  set (c := has _ _ && _ && _). by destruct (in_iowait p), c.
Qed.

Lemma locked_switch vol cpu prev next p n g :
  spec_switch vol cpu prev next p n (locked_g cpu g) = locked_g cpu (spec_switch vol cpu prev next p n g).
Proof.
  unfold spec_switch. cbv zeta. rewrite locked_upd_rq by done. rewrite locked_upd_rq by done.
  assert (forall q f x, upd_task q f (locked_g cpu x) = locked_g cpu (upd_task q f x)) as Ht by done.
  rewrite !Ht. set (g2 := upd_task next _ (upd_task next _ _)).
  assert (spec_mm p n prev next (locked_g cpu g2) = locked_g cpu (spec_mm p n prev next g2)) as ->.
  { unfold spec_mm. by destruct (mm n), (mm p), (active_mm p). }
  rewrite locked_upd_rq by done. rewrite Ht. unfold spec_drop. by destruct (dropped_mm p n).
Qed.

Lemma irqs_switch vol cpu prev next p n g b :
  spec_switch vol cpu prev next p n (g <| k_irqs_off := b |>) =
  (spec_switch vol cpu prev next p n g) <| k_irqs_off := b |>.
Proof. unfold spec_switch, spec_mm, spec_drop, dropped_mm. by destruct (mm n), (mm p), (active_mm p). Qed.

(** ** Callbacks *)

Lemma wp_callbacks l cpu s :
  wp (foldr (fun f k => modify (op_callback f cpu);; k) (mret tt) l) (fun _ s' => kframe true s s') s.
Proof using KL.
  revert s. induction l as [|f l IH]; intros s; cbn [foldr]; [by apply wp_ret|].
  apply wp_bind, wp_modify. eapply wp_mono; [apply IH|]. cbn beta. intros _ s' H.
  etransitivity; [apply law_callback|exact H].
Qed.

Lemma wp_track_lock g s cpu r (Q : unit -> kstate -> Prop) :
  tracks g s -> k_rqs g !! cpu = Some r -> rq_lock r = false ->
  (forall s', tracks (locked_g cpu g) s' -> Q tt s') -> wp (lock_rq cpu) Q s.
Proof.
  intros H Hr Hl HQ. destruct (tracks_rq _ _ _ _ H Hr) as (r' & Hr' & E).
  eapply wp_lock_rq; [done|by rewrite (erase_rq_field rq_lock _ _ ltac:(done) E)|]. apply HQ.
  rewrite (insert_alter (k_rqs s) cpu r' (fun r => r <| rq_lock := true |>) Hr'), (tracks_preempt _ _ H).
  change (s <| k_preempt := ?x |> <| k_rqs := ?y |>) with (s <| k_rqs := y |> <| k_preempt := x |>).
  unfold locked_g. apply (tracks_state (fun x => x <| k_preempt := k_preempt g + 1 |>)); [done|done|].
  apply (tracks_upd_rq cpu (fun r => r <| rq_lock := true |>)); [commutes|done].
Qed.

Lemma wp_balance_callback g s cpu r :
  tracks g s -> k_rqs g !! cpu = Some r -> rq_lock r = false ->
  wp (balance_callback cpu) (fun _ s' => tracks g s') s.
Proof using KL.
  intros H Hr Hl. destruct (tracks_rq _ _ _ _ H Hr) as (r0 & Hr0 & E0).
  unfold balance_callback. apply wp_bind. eapply wp_rq_of; [done|].
  destruct (Rq.balance_callback r0); [by apply wp_ret|]. unfold __balance_callback. apply wp_bind.
  eapply wp_track_lock; [done..|]. intros s1 H1.
  assert (k_rqs (locked_g cpu g) !! cpu = Some (r <| rq_lock := true |>)) as Hr1.
  { change (k_rqs (locked_g cpu g)) with (k_rqs (upd_rq cpu (fun r => r <| rq_lock := true |>) g)).
    by rewrite upd_rq_lookup, decide_True, Hr. }
  destruct (tracks_rq _ _ _ _ H1 Hr1) as (r2 & Hr2 & E2).
  apply wp_bind. eapply wp_rq_of; [done|]. apply wp_bind, wp_put_rq.
  set (s2 := s1 <| k_rqs := _ |>).
  assert (tracks (locked_g cpu g) s2) as H2.
  { eapply (tracks_frame true); [|exact H1]. eapply kframe_put_rq; [done|reflexivity|].
    intros Hx id. destruct id; [apply (Hx UCLAMP_MIN)|apply (Hx UCLAMP_MAX)]. }
  apply wp_bind. eapply wp_mono; [apply wp_callbacks|]. cbn beta. intros _ s3 H3.
  assert (tracks (locked_g cpu g) s3) as H4 by by eapply tracks_frame.
  destruct (tracks_rq _ _ _ _ H4 Hr1) as (r4 & Hr4 & E4).
  eapply wp_unlock_rq; [done|by rewrite (erase_rq_field rq_lock _ _ ltac:(done) E4)|].
  rewrite (insert_alter (k_rqs s3) cpu r4 (fun r => r <| rq_lock := false |>) Hr4), (tracks_preempt _ _ H4).
  apply (tracks_upd_rq cpu (fun r => r <| rq_lock := false |>)) in H4; [|commutes].
  apply (tracks_state (fun x => x <| k_preempt := k_preempt (locked_g cpu g) - 1 |>)) in H4; [|done|done].
  rewrite (unlock_locked cpu g r Hr Hl) in H4. exact H4.
Qed.

(** The task picked can be read in the state before the call. *)
Lemma pickable_block s0 s cpu preempt prev p q :
  tracks (spec_block preempt cpu prev p (locked_g cpu s0)) s -> pickable s cpu q ->
  exists n, k_tasks s0 !! q = Some n /\
    (on_cpu n = 0 \/ exists r, k_rqs s0 !! cpu = Some r /\ curr r = q).
Proof.
  intros [H _] (t & Ht & Hor & _). symmetry in H. destruct (core_same_lookup _ _ _ H) as [H1 H2].
  rewrite locked_block in H1, H2. destruct (H1 _ _ Ht) as (t0 & Ht0 & E).
  change (k_tasks (locked_g cpu ?x)) with (k_tasks x) in Ht0.
  pose proof (spec_block_task on_cpu preempt cpu prev p s0 q ltac:(done) ltac:(done) ltac:(done)) as Hv.
  rewrite Ht0 in Hv. symmetry in Hv. apply fmap_Some in Hv as (n & Hn & En). exists n. split; [done|].
  rewrite <- En, (erase_field true on_cpu _ _ ltac:(kept_field) E).
  destruct Hor as [Hor|(r & Hr & Hc)]; [by left|right].
  destruct (H2 _ _ Hr) as (r0 & Hr0 & Er).
  assert (curr <$> k_rqs (locked_g cpu (spec_block preempt cpu prev p s0)) !! cpu = curr <$> k_rqs s0 !! cpu) as Hw.
  { change (k_rqs (locked_g cpu ?x)) with (k_rqs (upd_rq cpu (fun r => r <| rq_lock := true |>) x)).
    rewrite upd_rq_view by done. by apply spec_block_rq. }
  rewrite Hr0 in Hw. symmetry in Hw. apply fmap_Some in Hw as (r1 & Hr1 & Er1).
  exists r1. split; [done|]. rewrite <- Er1, (erase_rq_field curr _ _ ltac:(done) Er). done.
Qed.

Lemma idle_ok_block preempt cpu prev p s0 b :
  idle_ok s0 cpu -> idle_ok (spec_block preempt cpu prev p (locked_g cpu (s0 <| k_irqs_off := b |>))) cpu.
Proof.
  intros (r & Hr & t & Ht & Hor & _). rewrite locked_block, irqs_block.
  set (g := spec_block preempt cpu prev p s0).
  assert ((fun r => (curr r, idle r)) <$> k_rqs (locked_g cpu (g <| k_irqs_off := b |>)) !! cpu
    = Some (curr r, idle r)) as Hv.
  { change (k_rqs (locked_g cpu (g <| k_irqs_off := b |>)))
      with (k_rqs (upd_rq cpu (fun r => r <| rq_lock := true |>) g)).
    rewrite upd_rq_view by done. subst g. rewrite spec_block_rq by done. by rewrite Hr. }
  apply fmap_Some in Hv as (r' & Hr' & E). injection E as E1 E2. exists r'. split; [done|]. rewrite <- E2.
  pose proof (spec_block_task on_cpu preempt cpu prev p s0 (idle r) ltac:(done) ltac:(done) ltac:(done)) as Hw.
  rewrite Ht in Hw. apply fmap_Some in Hw as (t' & Ht' & E3). exists t'. split; [exact Ht'|].
  split; [|right; by exists r']. rewrite <- E3. destruct Hor as [?|(r1 & Hr1 & Hc)]; [by left|right]. exists r'. split; [done|].
  rewrite <- E1. congruence.
Qed.

(** What the blocking part keeps for the switch. *)
Lemma block_keeps preempt cpu prev p g r next n :
  k_rqs g !! cpu = Some r -> k_tasks g !! prev = Some p -> k_tasks g !! next = Some n ->
  let g' := spec_block preempt cpu prev p g in
  (exists r', k_rqs g' !! cpu = Some r' /\ rq_lock r' = rq_lock r /\ prev_mm r' = prev_mm r /\ idle r' = idle r) /\
  (exists p' n', k_tasks g' !! prev = Some p' /\ k_tasks g' !! next = Some n' /\
     (mm p', active_mm p') = (mm p, active_mm p) /\ mm n' = mm n) /\
  k_this_cpu g' = k_this_cpu g /\ k_preempt g' = k_preempt g.
Proof.
  intros Hr Hp Hn g'. split_and!.
  - pose proof (spec_block_rq (fun r => (rq_lock r, prev_mm r, idle r)) preempt cpu prev p g cpu ltac:(done) ltac:(done)) as H.
    rewrite Hr in H. apply fmap_Some in H as (r' & Hr' & E). injection E as -> -> ->. eauto.
  - pose proof (fun q => spec_block_task (fun t => (mm t, active_mm t)) preempt cpu prev p g q
                           ltac:(done) ltac:(done) ltac:(done)) as H.
    pose proof (H prev) as H1. pose proof (H next) as H2. rewrite Hp in H1. rewrite Hn in H2.
    apply fmap_Some in H1 as (p' & Hp' & E1). apply fmap_Some in H2 as (n' & Hn' & E2).
    exists p', n'. split_and!; [done|done|done|congruence].
  - subst g'. unfold spec_block. case_ifs; done.
  - subst g'. unfold spec_block. case_ifs; done.
Qed.

(** The lock bit of the specification's run queue. *)
Lemma switch_lock vol cpu prev next p n g :
  rq_lock <$> k_rqs (spec_switch vol cpu prev next p n g) !! cpu = rq_lock <$> k_rqs g !! cpu.
Proof.
  transitivity (rq_lock <$> k_rqs (upd_rq cpu (fun r => r <| prev_mm := None |>)
    (upd_rq cpu (fun r => r <| curr := next |>)
       (upd_rq cpu (fun r => r <| nr_switches := u64 (nr_switches r + 1) |>) g))) !! cpu).
  - unfold spec_switch, spec_mm, spec_drop, dropped_mm. by destruct (mm n), (mm p), (active_mm p).
  - rewrite upd_rq_view by done. rewrite upd_rq_view by done. by apply upd_rq_view.
Qed.

Lemma switch_ext vol cpu prev next p p' n n' g :
  (mm p', active_mm p') = (mm p, active_mm p) -> mm n' = mm n ->
  spec_switch vol cpu prev next p' n' g = spec_switch vol cpu prev next p n g.
Proof. intros [= E1 E2] E3. unfold spec_switch, spec_mm, spec_drop, dropped_mm. by rewrite E1, E2, E3. Qed.

(** The high-resolution tick of the last task is cancelled, where it is used. *)
Lemma wp_hrtick_clear g s cpu (b : bool) :
  tracks g s -> wp (when b (hrtick_clear cpu)) (fun _ s' => tracks g s') s.
Proof using KL.
  intros H. apply wp_when; [|done]. intros _. unfold hrtick_clear. apply wp_bind, wp_get.
  apply wp_when; [|done]. intros _. apply wp_modify. eapply tracks_frame; [apply law_hrtimer_cancel|done].
Qed.

(** Up to the choice of the next task. *)
Lemma wp_schedule_front preempt s r p :
  schedule_pre s r p ->
  let cpu := k_this_cpu s in
  let g := spec_block preempt cpu (curr r) p (locked_g cpu (s <| k_irqs_off := true |>)) in
  forall Q : unit -> kstate -> Prop,
  (forall next s', tracks g s' ->
     (exists n, k_tasks s !! next = Some n /\ (on_cpu n = 0 \/ curr r = next)) ->
     (idle r = next \/ queued s' next = Some true) ->
     wp (set_task (curr r) clear_tsk_need_resched;;
         cpu ← (if negb (bool_decide (curr r = next))
                then switch_tasks cpu (curr r) next (negb preempt && nz (t_state p))
                else set_rq cpu (fun r => r <| clock_update_flags :=
                       andnot (clock_update_flags r) (Z.lor RQCF_ACT_SKIP RQCF_REQ_SKIP) |>);;
                     unlock_rq cpu;; local_irq_enable;; mret cpu);
         balance_callback cpu) Q s') ->
  wp (__schedule preempt) Q s.
Proof using FL KL.
  intros [Hr Hl Hpm Hp Hidle Hpre Hmm Hc] cpu g Q HQ. unfold __schedule, smp_processor_id.
  do 2 apply wp_bind. apply wp_get, wp_ret. apply wp_bind. eapply wp_current; [done|].
  apply wp_bind. unfold schedule_debug. apply wp_bind, wp_get. rewrite Hpre, Z.eqb_refl. apply wp_ret.
  apply wp_bind. eapply wp_mono; [apply wp_hrtick_clear; by split|]. cbn beta. intros _ s0 H0.
  apply wp_bind, wp_modify. set (s1 := s <| k_irqs_off := true |>).
  assert (tracks s1 (s0 <| k_irqs_off := true |>)) as H1 by by apply (tracks_state (fun x => x <| k_irqs_off := true |>)).
  apply wp_bind. eapply (wp_track_lock s1); [done|exact Hr|exact Hl|]. intros s2 H2.
  assert (is_Some (k_rqs (locked_g cpu s1) !! cpu)) as Hr2
    by (apply (upd_rq_some cpu (fun r => r <| rq_lock := true |>)); by exists r).
  assert (k_tasks (locked_g cpu s1) !! curr r = Some p) as Hp2 by exact Hp.
  apply wp_bind. eapply wp_absorb_rq; [done|done|done|by intros ? []|]. intros s3 H3.
  apply wp_bind. eapply wp_mono; [apply wp_update_clock; by eapply tracks_rq_some|].
  cbn beta. intros _ s4 H4. assert (tracks (locked_g cpu s1) s4) as H5 by by eapply tracks_frame.
  apply wp_bind. eapply wp_mono; [by apply (wp_try_to_block (locked_g cpu s1) s4)|].
  cbn beta. intros vol s5 [-> H6]. fold g in H6. apply wp_bind.
  destruct (block_keeps preempt cpu (curr r) p (locked_g cpu s1) (r <| rq_lock := true |>) (curr r) p)
    as ((r6 & Hr6 & _ & _ & Ei6) & (p6 & _ & Hp6 & _) & _); [|done|done|].
  { change (k_rqs (locked_g cpu s1)) with (k_rqs (upd_rq cpu (fun r => r <| rq_lock := true |>) s)).
    by rewrite upd_rq_lookup, decide_True, (Hr : k_rqs s !! cpu = Some r). }
  eapply wp_mono; [apply wp_pick_next_task|].
  { eapply idle_ok_core; [apply H6|]. subst g. by apply idle_ok_block. } { eapply tracks_task_some; [exact H6|by exists p6]. }
  cbn beta. intros next s7 [H7 H8]. apply HQ; [by eapply tracks_frame| |].
  2: { apply (pickable_ready true s5 s7 cpu next (idle r) H7 H8). destruct (tracks_rq _ _ _ _ H6 Hr6) as (r7 & Hr7 & E7).
    rewrite Hr7. cbn. by rewrite (erase_rq_field idle _ _ ltac:(done) E7), Ei6. }
  destruct (pickable_block s1 s5 cpu preempt (curr r) p next H6 H8) as (n & Hn & Hor).
  exists n. split; [exact Hn|]. destruct Hor as [?|(r' & Hr' & <-)]; [by left|right].
  change (k_rqs s !! k_this_cpu s = Some r') in Hr'. rewrite Hr in Hr'. by injection Hr' as ->.
Qed.

(** The rest, when the previous task goes on. *)
Lemma wp_schedule_same g s r cpu :
  tracks (locked_g cpu g) s -> k_rqs g !! cpu = Some r -> rq_lock r = false ->
  wp (cpu ← (set_rq cpu (fun r => r <| clock_update_flags :=
                 andnot (clock_update_flags r) (Z.lor RQCF_ACT_SKIP RQCF_REQ_SKIP) |>);;
               unlock_rq cpu;; local_irq_enable;; mret cpu);
      balance_callback cpu) (fun _ s' => tracks (g <| k_irqs_off := false |>) s') s.
Proof using KL.
  intros H Hr Hl.
  assert (k_rqs (locked_g cpu g) !! cpu = Some (r <| rq_lock := true |>)) as Hr1.
  { change (k_rqs (locked_g cpu g)) with (k_rqs (upd_rq cpu (fun r => r <| rq_lock := true |>) g)).
    by rewrite upd_rq_lookup, decide_True, Hr. }
  do 2 apply wp_bind. eapply wp_absorb_rq; [done|by eexists|done|by intros ? []|]. intros s1 H1.
  assert (wp (unlock_rq cpu;; local_irq_enable)
    (fun _ s' => tracks (g <| k_irqs_off := false |>) s') s1) as Hu.
  { eapply wp_track_unlock; [done|done|done|]. intros s2 H2. by rewrite (unlock_g_locked cpu g r) in H2. }
  apply wp_elim in Hu as ([] & s2 & Eu & H2). revert Eu. unfold mbind, M_bind, local_irq_enable, modify.
  unfold wp. destruct (unlock_rq cpu s1); [|done|done]. intros [= <-].
  apply (wp_balance_callback _ _ _ r); [exact H2|done|done].
Qed.

Lemma wp_schedule_back preempt s r p next n :
  schedule_pre s r p -> k_tasks s !! next = Some n ->
  let cpu := k_this_cpu s in
  forall s', tracks (spec_block preempt cpu (curr r) p (locked_g cpu (s <| k_irqs_off := true |>))) s' ->
  wp (cpu ← (if negb (bool_decide (curr r = next))
             then switch_tasks cpu (curr r) next (negb preempt && nz (t_state p))
             else set_rq cpu (fun r => r <| clock_update_flags :=
                    andnot (clock_update_flags r) (Z.lor RQCF_ACT_SKIP RQCF_REQ_SKIP) |>);;
                  unlock_rq cpu;; local_irq_enable;; mret cpu);
      balance_callback cpu) (fun _ s'' => tracks (schedule_spec preempt next s) s'') s'.
Proof using KL.
  intros [Hr Hl Hpm Hp Hidle Hpre Hmm Hc] Hn cpu s' H. unfold schedule_spec. fold cpu.
  rewrite (Hr : k_rqs s !! cpu = Some r), Hp, Hn. rewrite locked_block, irqs_block in H.
  set (g := spec_block preempt cpu (curr r) p s) in *.
  destruct (block_keeps preempt cpu (curr r) p s r next n) as ((r1 & Hr1 & El & Em & _) & (p1 & n1 & Hp1 & Hn1 & E1 & E2) & Ec & Epre);
    [done..|]. fold g in Hr1, Hp1, Hn1, Ec, Epre. rewrite Hl in El. rewrite Hpm in Em.
  destruct (bool_decide (curr r = next)) eqn:Eb; cbn [negb].
  { eapply wp_mono; [by apply (wp_schedule_same (g <| k_irqs_off := true |>) s' r1 cpu)|].
    cbn beta. intros _ s2 H2. exact H2. }
  apply bool_decide_eq_false in Eb.
  set (g1 := locked_g cpu (g <| k_irqs_off := true |>)) in *.
  assert (k_rqs g1 !! cpu = Some (r1 <| rq_lock := true |>)) as Hg1.
  { subst g1. change (k_rqs (locked_g cpu ?x)) with (k_rqs (upd_rq cpu (fun r => r <| rq_lock := true |>) x)).
    rewrite upd_rq_lookup, decide_True by done. change (k_rqs (g <| k_irqs_off := true |>)) with (k_rqs g). by rewrite Hr1. }
  apply wp_bind. eapply wp_mono.
  { apply (wp_switch_tasks g1 s' cpu (r1 <| rq_lock := true |>) (curr r) next p1 n1).
    - exact H.
    - exact Ec.
    - exact Hg1.
    - reflexivity.
    - exact Em.
    - change (k_preempt g + 1 = 2). rewrite Epre, Hpre. reflexivity.
    - exact Eb.
    - exact Hp1.
    - exact Hn1.
    - injection E1 as -> ->. exact Hmm. }
  cbn beta. intros c s2 [-> H2]. rewrite (switch_ext _ _ _ _ p p1 n n1) in H2 by done.
  subst g1. rewrite locked_switch, irqs_switch in H2. set (g2 := spec_switch _ cpu _ next p n g) in *.
  pose proof (switch_lock (negb preempt && nz (t_state p)) cpu (curr r) next p n g) as Hsl. fold g2 in Hsl.
  rewrite Hr1 in Hsl. apply fmap_Some in Hsl as (r2 & Hr2 & El2). rewrite El in El2.
  rewrite (unlock_g_locked cpu (g2 <| k_irqs_off := true |>) r2) in H2 by done.
  apply (wp_balance_callback _ _ _ r2); [exact H2|exact Hr2|done].
Qed.

(** The switch takes nobody off the queue. *)
Lemma schedule_spec_queued preempt next s r p n q :
  k_rqs s !! k_this_cpu s = Some r -> k_tasks s !! curr r = Some p -> k_tasks s !! next = Some n ->
  queued (schedule_spec preempt next s) q = queued (spec_block preempt (k_this_cpu s) (curr r) p s) q.
Proof using.
  intros Hr Hp Hn. unfold schedule_spec. rewrite Hr, Hp, Hn. set (g := spec_block _ _ _ _ _).
  change (queued (?x <| k_irqs_off := false |>) q) with (queued x q).
  destruct (bool_decide _); [done|]. unfold queued. rewrite spec_switch_task by done.
  rewrite !(upd_task_view (fun t => nz (on_rq t))); [done|by destruct (_ && _)|done].
Qed.

(** The whole of [__schedule]. *)
Lemma schedule_correct preempt s r p :
  schedule_pre s r p ->
  exists next n s', __schedule preempt s = Ok tt s'
    /\ k_tasks s !! next = Some n /\ (on_cpu n = 0 \/ curr r = next)
    /\ core_same true (schedule_spec preempt next s) s' /\ clamps_in_range s'
    /\ (idle r = next \/ queued s' next = Some true).
Proof using FL KL.
  intros Hpre.
  assert (wp (__schedule preempt) (fun _ s' => exists next n, k_tasks s !! next = Some n
    /\ (on_cpu n = 0 \/ curr r = next) /\ tracks (schedule_spec preempt next s) s'
    /\ (idle r = next \/ queued s' next = Some true)) s) as H.
  { apply (wp_schedule_front preempt s r p Hpre). intros next s1 H1 (n & Hn & Hor) Hq. apply wp_bind.
    destruct (block_keeps preempt (k_this_cpu s) (curr r) p (locked_g (k_this_cpu s) (s <| k_irqs_off := true |>))
      (r <| rq_lock := true |>) (curr r) p) as (_ & (p1 & _ & Hp1 & _) & _); [|apply Hpre|apply Hpre|].
    { change (k_rqs (locked_g ?c _)) with (k_rqs (upd_rq c (fun r => r <| rq_lock := true |>) s)).
      by rewrite upd_rq_lookup, decide_True, (pre_rq _ _ _ Hpre). }
    destruct (tracks_task _ _ _ _ H1 Hp1) as (t1 & Ht1 & _).
    eapply wp_set_task; [done|]. eapply wp_mono.
    - apply (wp_schedule_back preempt s r p next n Hpre Hn).
      eapply (tracks_frame true); [apply kframe_flags; exact Ht1|exact H1].
    - cbn beta. intros _ s2 H2. exists next, n. split_and!; [done|done|done|]. destruct Hq as [Hq|Hq]; [by left|right].
      rewrite (queued_core _ _ _ _ (tr_core _ _ H2)), (schedule_spec_queued preempt next s r p n) by (done || apply Hpre).
      by rewrite <- Hq, (queued_core _ _ _ _ (tr_core _ _ H1)), locked_block, irqs_block. }
  apply wp_elim in H as ([] & s' & E & next & n & Hn & Hor & [H1 H2] & Hq). exists next, n, s'. done.
Qed.

(** C1. [__schedule] implements its specification: called with preemption disabled
    and the run queue unlocked it runs to the end, without BUG and without
    waiting, hands the CPU to an existing task that runs nowhere else (or goes
    on with the same one) and is queued or the idle task, and leaves the state
    [schedule_spec] describes, up to what the scheduling classes own; interrupts
    are on, the lock is free again. *)
Theorem schedule_refines preempt s r p :
  schedule_pre s r p ->
  exists next n s', __schedule preempt s = Ok tt s'
    /\ k_tasks s !! next = Some n /\ (on_cpu n = 0 \/ curr r = next)
    /\ core_same true (schedule_spec preempt next s) s' /\ clamps_in_range s'
    /\ (idle r = next \/ queued s' next = Some true).
Proof using FL KL. apply schedule_correct. Qed.
End Refine.
