(* ===== verification/Machine.v ===== *)
(** * Machine: a small concrete machine

    One CPU, an idle task and two user tasks, five clamp buckets, and scheduling
    classes that pick a given task when it can run.  The laws of
    [SchedClassLaws] are proved for them; the examples and witnesses of the
    scheduler's theorems compute on this machine. *)

From S2P Require Import Prelude RemoteTick Task KernelApi Prio Rq RqClock Uclamp UclampTrace.
From S2P Require Import State Sched SchedFacts ScheduleSpec.

#[export] Instance five_buckets : UclampApi := uclamp_config 5.
#[export] Instance plain_clock : ClockConfig :=
  {| CONFIG_IRQ_TIME_ACCOUNTING := false; CONFIG_PARAVIRT_TIME_ACCOUNTING := false;
     CONFIG_SCHED_DEBUG := false; paravirt_steal_rq_enabled := false |}.

Definition pickable_b (s : kstate) (cpu : Z) (p : ptr) : bool :=
  let is_rq (f : rq -> ptr) := match k_rqs s !! cpu with Some r => bool_decide (f r = p) | None => false end in
  match k_tasks s !! p with
  | Some t => ((on_cpu t =? 0) || is_rq curr) && (nz (on_rq t) || is_rq idle)
  | None => false
  end.

Lemma is_rq_ok s cpu p (f : rq -> ptr) :
  match k_rqs s !! cpu with Some r => bool_decide (f r = p) | None => false end = true <->
  exists r, k_rqs s !! cpu = Some r /\ f r = p.
Proof.
  destruct (k_rqs s !! cpu) as [r|]; [|by split; [|intros (? & ? & ?)]]. rewrite bool_decide_eq_true.
  split; [intros H; by exists r|]. by intros (? & [= <-] & H).
Qed.

Lemma pickable_b_ok s cpu p : pickable_b s cpu p = true <-> pickable s cpu p.
Proof.
  unfold pickable_b, pickable. cbv zeta. destruct (k_tasks s !! p) as [t|]; [|by split; [|intros (? & ? & ?)]].
  rewrite andb_true_iff, !orb_true_iff, !is_rq_ok, Z.eqb_eq. split; [intros [H1 H2]; by exists t|].
  by intros (? & [= <-] & H).
Qed.

(** The fair class picks [choice] when it can; the idle class picks its task. *)
#[export] Instance choosing (choice : ptr) : SchedClassOps := {|
  op_enqueue_task _ _ _ _ s := s;
  op_dequeue_task _ _ _ _ s := s;
  op_yield_task _ _ s := s;
  op_check_preempt_curr _ _ _ _ s := s;
  op_pick_next_task c cpu s :=
    (s, match c, k_rqs s !! cpu with
        | idle_sched_class, Some r => if pickable_b s cpu (idle r) then Some (idle r) else None
        | _, _ => None
        end);
  op_pick_next_task_fair cpu _ s := (s, if pickable_b s cpu choice then Pick choice else NoTask);
  op_put_prev_task _ _ _ s := s;
  op_set_next_task _ _ _ s := s;
  op_balance _ _ _ s := (s, false);
  op_select_task_rq _ _ cpu _ _ _ := cpu;
  op_migrate_task_rq _ _ _ s := s;
  op_task_woken _ _ _ s := s;
  op_task_tick _ _ _ _ s := s;
  op_task_fork _ _ s := s;
  op_task_dead _ _ s := s;
  op_switched_from _ _ _ s := s;
  op_switched_to _ _ _ s := s;
  op_prio_changed _ _ _ _ s := s;
  op_get_rr_interval _ _ _ _ := 0;
  op_callback _ _ s := s;
  rq_clock_skip_update _ s := s;
  sched_feat_HRTICK := false;
  hrtimer_active _ _ := false;
  hrtimer_cancel _ s := s;
  op_rseq_preempt _ s := s;
  op_rseq_migrate _ s := s;
  op_sched_out_notifiers _ _ s := s;
  op_sched_in_notifiers _ s := s;
  put_task_struct_rcu_user _ s := s;
  wq_worker_sleeping _ s := s;
  io_wq_worker_sleeping _ s := s;
  wq_worker_running _ s := s;
  io_wq_worker_running _ s := s;
  tsk_is_pi_blocked _ _ := false;
  blk_needs_flush_plug _ _ := false;
  blk_schedule_flush_plug _ s := s;
  panic_on_warn := false;
  oops_in_progress := false;
  class_uclamp_enabled c := bool_decide (c = fair_sched_class);
  read_clock _ _ := {| sched_clock := 0; irq_time := 0; steal_clock := 0 |};
  group_of _ _ := root_view;
  signal_pending_state _ _ := false
|}.

#[export] Instance choosing_laws choice : SchedClassLaws (choosing choice).
Proof.
  split; intros; simpl; try reflexivity.
  - destruct c; simpl in *; try done. destruct (k_rqs s !! cpu) as [r|]; [|done].
    destruct (pickable_b s cpu (idle r)) eqn:E; [|done]. simplify_eq/=. by apply pickable_b_ok.
  - simpl. rewrite H. apply pickable_b_ok in H0. by rewrite H0.
  - simpl in H. destruct (pickable_b s cpu choice) eqn:E; [|done]. simplify_eq. by apply pickable_b_ok.
  - unfold se_in_range. simpl. lia.
Qed.

(** ** Checking clamp indices by computation *)

Definition se_b (se : uclamp_se) : bool := (0 <=? uc_bucket_id se) && (uc_bucket_id se <? UCLAMP_BUCKETS).
Definition clamps_b (s : kstate) : bool :=
  forallb (fun x : ptr * task_struct => se_b (uclamp_min x.2) && se_b (uclamp_max x.2)
             && se_b (uclamp_req_min x.2) && se_b (uclamp_req_max x.2)) (map_to_list (k_tasks s))
  && forallb (fun x : Z * rq => (Z.of_nat (length (ucr_bucket (rq_uclamp_min x.2))) =? UCLAMP_BUCKETS)
             && (Z.of_nat (length (ucr_bucket (rq_uclamp_max x.2))) =? UCLAMP_BUCKETS)) (map_to_list (k_rqs s))
  && se_b (uclamp_default_min (k_sys s)) && se_b (uclamp_default_max (k_sys s)).

Lemma se_b_ok se : se_b se = true -> se_in_range se.
Proof. unfold se_b, se_in_range. intros. bool_cases. lia. Qed.

Lemma clamps_b_ok s : clamps_b s = true -> clamps_in_range s.
Proof.
  unfold clamps_b. intros H. bool_cases. rewrite forallb_forall in *. split.
  - intros p t Ht id. specialize (H (p, t)). rewrite <- list_elem_of_In, elem_of_map_to_list in H.
    specialize (H Ht). simpl in H. bool_cases. destruct id; split; by apply se_b_ok.
  - intros c r Hr id. specialize (H2 (c, r)). rewrite <- list_elem_of_In, elem_of_map_to_list in H2.
    specialize (H2 Hr). simpl in H2. bool_cases. by destruct id.
  - intros []; by apply se_b_ok.
Qed.

(** Whether [__schedule] can be called. *)
Definition pre_b (s : kstate) : bool :=
  match k_rqs s !! k_this_cpu s with
  | Some r =>
      match k_tasks s !! curr r with
      | Some p =>
          negb (rq_lock r) && bool_decide (prev_mm r = None) && (k_preempt s =? 1)
          && pickable_b s (k_this_cpu s) (idle r)
          && implb (bool_decide (is_Some (mm p))) (bool_decide (is_Some (active_mm p))) && clamps_b s
      | None => false
      end
  | None => false
  end.

Lemma pre_b_ok s r p :
  k_rqs s !! k_this_cpu s = Some r -> k_tasks s !! curr r = Some p -> pre_b s = true -> schedule_pre s r p.
Proof.
  intros Hr Hp. unfold pre_b. rewrite Hr, Hp. intros H. bool_cases.
  split; try done.
  - match goal with H : bool_decide (prev_mm r = None) = true |- _ => by apply bool_decide_eq_true in H end.
  - exists r. split; [done|]. by apply pickable_b_ok.
  - intros Hm. match goal with H : implb _ _ = true |- _ => rewrite (bool_decide_eq_true_2 _ Hm) in H;
      simpl in H; by apply bool_decide_eq_true in H end.
  - by apply clamps_b_ok.
Qed.

(** ** The machine *)

Definition machine_rq : rq := (init_uclamp_rq (zero_rq 0 1%positive)) <| curr := 2%positive |>
  <| nr_running := 2 |> <| cfs_h_nr_running := 2 |>.
Definition idle_task_1 : task_struct :=
  zero_task <| t_flags := PF_IDLE |> <| t_sched_class := idle_sched_class |>.
Definition user_task (as_ : Z) : task_struct :=
  zero_task <| mm := Some as_ |> <| active_mm := Some as_ |> <| on_rq := 1 |>.

Definition machine : kstate :=
  mk_kstate {[ 1%positive := idle_task_1; 2%positive := (user_task 20) <| on_cpu := 1 |>; 3%positive := user_task 30 ]}
    {[ 0 := machine_rq ]} 0 1 false [] boot_sys {[ 20 := 1; 30 := 1 ]} {[ 0 ]} {[ 0 ]} {[ 0 ]} 0 []
    (sched_tick_offload_init {[ 0 ]}) true 0 0 {[ 0 ]}.

(** The state a successful call leaves. *)
Definition exec {A} (m : M A) (s : kstate) : kstate := match m s with Ok _ s' => s' | _ => s end.

Lemma schedule_refines_witness :
  exists next n s', __schedule (K := choosing 3%positive) false machine = Ok tt s'
    /\ k_tasks machine !! next = Some n /\ (on_cpu n = 0 \/ curr machine_rq = next)
    /\ core_same true (schedule_spec (K := choosing 3%positive) false next machine) s' /\ clamps_in_range s'
    /\ (idle machine_rq = next \/ queued s' next = Some true).
Proof.
  apply (schedule_refines (K := choosing 3%positive) false machine machine_rq
           ((user_task 20) <| on_cpu := 1 |>)).
  apply pre_b_ok; vm_compute; reflexivity.
Defined.
