(* ===== verification/GroupClampsWrite.v ===== *)
(** * GroupClampsWrite: writing the clamps of a group

    A write to [cpu.uclamp.min] or [cpu.uclamp.max] of any group of a consistent
    tree leaves the whole tree consistent, refreshes the tasks of every group
    whose effective clamps changed, and can be read back. *)

From S2P Require Import Prelude Task KernelApi Rq Prio Uclamp UclampFacts Machine TaskGroup GroupClamps GroupClampsSpec.

Section Write.
Context {U : UclampApi} {UL : UclampLaws U}.
Context {X : Type} (update_tasks : group_clamps -> ptr -> Z -> X -> X).

(** A request that is not refused is a capacity: hundredths of a percent of 1024,
    rounded to the nearest. *)
Lemma capacity_of_percent percent :
  0 <= percent <= UCLAMP_PERCENT_SCALE ->
  DIV_ROUND_CLOSEST (u64 (Z.shiftl percent SCHED_CAPACITY_SHIFT)) UCLAMP_PERCENT_SCALE = (percent * 1024 + 5000) / 10000 /\
  in_range ((percent * 1024 + 5000) / 10000).
Proof using UL.
  unfold in_range. change SCHED_CAPACITY_SCALE with 1024. change SCHED_CAPACITY_SHIFT with 10.
  change UCLAMP_PERCENT_SCALE with 10000. intros H.
  rewrite Z.shiftl_mul_pow2 by lia. change (2 ^ 10) with 1024. rewrite wrapu_id by lia.
  rewrite div_round_closest_spec by lia. split; [done|].
  split; [apply Z.div_pos; lia|]. apply Z.lt_succ_r, Z.div_lt_upper_bound; lia.
Qed.

Lemma request_in_range buf : req_ret (capacity_from_percent buf) = 0 -> in_range (req_util (capacity_from_percent buf)).
Proof using UL.
  destruct buf as [|[ret|percent]]; cbn; [done..|]. destruct (Z.ltb_spec UCLAMP_PERCENT_SCALE (u64 percent)) as [|H]; [done|].
  cbn. intros _.
  replace (u64 (Z.shiftl percent SCHED_CAPACITY_SHIFT)) with (u64 (Z.shiftl (u64 percent) SCHED_CAPACITY_SHIFT)).
  - destruct (capacity_of_percent (u64 percent)) as [-> ?]; [|done]. unfold wrapu. split; [by apply Z.mod_pos_bound|done].
  - rewrite !Z.shiftl_mul_pow2 by done. unfold wrapu. by rewrite Zmult_mod_idemp_l.
Qed.

Lemma uclamp_se_set_value se v : in_range v -> uc_value (uclamp_se_set se v false) = v.
Proof using UL.
  intros Hv. unfold uclamp_se_set. rsimpl. unfold in_range in Hv.
  destruct (bits_per_spec SCHED_CAPACITY_SCALE ltac:(done)). apply wrapu_id. lia.
Qed.

(** The request after the write. *)
Definition wanted (se : uclamp_se) (util : Z) : uclamp_se :=
  if negb (uc_value se =? util) then uclamp_se_set se util false else se.

Lemma wanted_value se util : in_range util -> uc_value (wanted se util) = util.
Proof using UL.
  intros H. unfold wanted. destruct (Z.eqb_spec (uc_value se) util) as [E|]; [done|by apply uclamp_se_set_value].
Qed.

Lemma set_tgu_req_get b id se pct : tgu_req (set_tgu_req b id se pct) id = se.
Proof. by destruct id. Qed.
Lemma set_tgu_req_values b id se pct : values (set_tgu_req b id se pct) = values b.
Proof. by destruct id. Qed.
Lemma set_tgu_req_requests b id se pct :
  pair_in_range (requests b) -> in_range (uc_value se) -> pair_in_range (requests (set_tgu_req b id se pct)).
Proof. unfold pair_in_range. by destruct id; cbn; intros [? ?]. Qed.

(** ** What was asked for is kept *)

Definition asked (b : tg_uclamp) : uclamp_se * uclamp_se * Z * Z :=
  (tgu_req_min b, tgu_req_max b, tgu_pct_min b, tgu_pct_max b).

Lemma update_group_asked parent b : asked (update_group parent b).1 = asked b.
Proof. unfold update_group. by repeat case_match; simplify_eq. Qed.

Lemma update_eff_asked g : forall parent mx p, asked ((update_eff update_tasks parent g mx).1 p) = asked (mx.1 p).
Proof.
  induction g as [id cs IH] using group_ind'. intros parent [m x] p. cbn [update_eff].
  pose proof (update_group_asked (m <$> parent) (m id)) as Hg.
  destruct (update_group (m <$> parent) (m id)) as [b clamps]. destruct (clamps =? 0); [done|].
  assert (forall cs', cs' ⊆ cs -> forall mx, asked ((fold_left (fun mx c => update_eff update_tasks (Some id) c mx) cs' mx).1 p)
    = asked (mx.1 p)) as Hf.
  { induction cs' as [|c cs' IHc]; intros Hsub mx; [done|]. cbn [fold_left].
    rewrite IHc, IH; [done| |]; [apply Hsub; by left|intros y Hy; apply Hsub; by right]. }
  rewrite Hf by done. cbn. destruct (decide (p = id)) as [->|Hne]; [by rewrite set_group_same|by rewrite set_group_other].
Qed.

(** Reading one clamp back. *)
Lemma print_asked b b' id : asked b = asked b' -> cpu_uclamp_print b id = cpu_uclamp_print b' id.
Proof. unfold asked, cpu_uclamp_print, tgu_req. intros [= E1 E2 E3 E4]. by rewrite E1, E2, E3, E4. Qed.

(** What a write of a percentage with two decimals says is what the file shows
    afterwards, digit for digit, unless the percentage rounds to the full capacity,
    which is shown as "max": so from 99.96 percent on the exact value is lost. *)
Theorem uclamp_percent_roundtrip (m : group_clamps) (x : X) parent g nbytes id percent :
  0 <= percent <= UCLAMP_PERCENT_SCALE ->
  let '(ret, (m', _)) := cpu_uclamp_write update_tasks (text_float (inr percent)) nbytes parent g id m x in
  ret = nbytes /\
  cpu_uclamp_print (m' (group_id g)) id =
    if percent <? 9996 then shown_percent (percent / 100) (percent mod 100) else shown_max.
Proof using UL.
  intros Hp. destruct (capacity_of_percent percent Hp) as [Ec Hr]. unfold cpu_uclamp_write, capacity_from_percent.
  replace (u64 percent) with percent by (symmetry; apply wrapu_id; change UCLAMP_PERCENT_SCALE with 10000 in Hp; lia).
  rewrite (proj2 (Z.ltb_ge _ _)) by lia. cbn [req_ret req_util req_percent nz Z.eqb negb]. rewrite Ec.
  set (util := (percent * 1024 + 5000) / 10000) in *. cbn [negb].
  fold (wanted (tgu_req (m (group_id g)) id) util).
  match goal with |- context [set_group _ ?b m] => set (b1 := b); set (m1 := set_group (group_id g) b1 m) end.
  pose proof (update_eff_asked g parent (m1, x) (group_id g)) as Ha. unfold cpu_util_update_eff.
  destruct (update_eff update_tasks parent g (m1, x)) as [m' x']. split; [done|].
  cbn [fst] in Ha. rewrite (print_asked _ _ id Ha). subst m1. rewrite set_group_same. unfold cpu_uclamp_print.
  assert (uc_value (tgu_req b1 id) = util) as Ev.
  { subst b1. rewrite set_tgu_req_get. by apply wanted_value. }
  rewrite Ev.
  assert (match id with UCLAMP_MIN => tgu_pct_min b1 | UCLAMP_MAX => tgu_pct_max b1 end = percent) as ->.
  { subst b1. by destruct id. }
  change SCHED_CAPACITY_SCALE with 1024. change UCLAMP_PERCENT_SCALE with 10000 in Hp.
  destruct (Z.ltb_spec percent 9996) as [Hlt|Hge].
  - rewrite (proj2 (Z.eqb_neq _ _)); [done|]. subst util.
    assert ((percent * 1024 + 5000) / 10000 < 1024) by (apply Z.div_lt_upper_bound; lia). lia.
  - rewrite (proj2 (Z.eqb_eq _ _)); [done|]. unfold in_range in Hr. change SCHED_CAPACITY_SCALE with 1024 in Hr.
    assert (1024 <= util) by (apply Z.div_le_lower_bound; lia). lia.
Qed.

(** ** Consistency of the whole tree *)

Context (updated : ptr -> X -> Prop).
Context (updated_now : forall m p c x, updated p (update_tasks m p c x)).
Context (updated_keep : forall m q p c x, updated p x -> updated p (update_tasks m q c x)).

Definition other_requests_kept (g : group) (m m' : group_clamps) : Prop :=
  forall p, p <> group_id g -> requests (m' p) = requests (m p).

(** C30. A write to the clamps of any group of a tree keeps the tree consistent:
    afterwards every group's effective clamps are again its requests capped by
    its parent's, the protection capped by the limit, although the update stops
    at groups that did not change.  The written clamp is the request, no other
    request and no group outside the subtree changes, and the runnable tasks of
    every group whose clamps changed are updated.  A text that is refused changes
    nothing and its error number is returned. *)
Theorem cpu_uclamp_write_consistent (m : group_clamps) (x : X) t q g buf nbytes id :
  NoDup (ids t) -> occurs None t q g -> requests_ok m (ids t) -> consistent m None t ->
  let req := capacity_from_percent buf in
  let '(ret, (m', x')) := cpu_uclamp_write update_tasks buf nbytes q g id m x in
  if nz (req_ret req) then ret = req_ret req /\ m' = m /\ x' = x
  else ret = nbytes /\ consistent m' None t /\ requests_ok m' (ids t) /\
    uc_value (tgu_req (m' (group_id g)) id) = req_util req /\
    other_requests_kept g m m' /\
    (forall p, p ∉ ids g -> m' p = m p) /\
    (forall p, values (m' p) = values (m p) \/ updated p x').
Proof using UL updated_now updated_keep.
  intros Hnd Ho Hreq Hcons req. unfold cpu_uclamp_write. fold req. unfold nz.
  destruct (Z.eqb_spec (req_ret req) 0) as [Hret|Hret]; cbn [negb]; [|done].
  pose proof (request_in_range buf Hret) as Hutil. fold req in Hutil.
  fold (wanted (tgu_req (m (group_id g)) id) (req_util req)).
  set (b1 := set_tgu_req _ id _ _). set (m1 := set_group (group_id g) b1 m).
  pose proof (occurs_ids _ _ _ _ Ho) as Hsub.
  destruct (occurs_inv m None t q g Ho Hnd ltac:(done) ltac:(done) Hreq Hcons) as (_ & G1 & G2 & G3 & G4).
  assert (group_id g ∈ ids g) as Hg by (rewrite ids_eq; by left).
  assert (Hout : forall p, p ∉ ids g -> m1 p = m p).
  { intros p Hp. apply set_group_other. by intros ->. }
  assert (Hval : forall p, values (m1 p) = values (m p)).
  { intros p. subst m1. destruct (decide (p = group_id g)) as [->|]; [|by rewrite set_group_other].
    rewrite set_group_same. apply set_tgu_req_values. }
  assert (Hreq1 : requests_ok m1 (ids t)).
  { intros p Hp. subst m1. destruct (decide (p = group_id g)) as [->|]; [|rewrite set_group_other by done; by apply Hreq].
    rewrite set_group_same. apply set_tgu_req_requests; [by apply Hreq|by rewrite wanted_value]. }
  pose proof (update_eff_restores update_tasks updated updated_now updated_keep g q G1 G2 m1 x) as Hu.
  pose proof (update_eff_asked g q (m1, x) (group_id g)) as Ha. unfold cpu_util_update_eff.
  destruct (update_eff update_tasks q g (m1, x)) as [m' x']. cbn [fst] in Ha.
  destruct Hu as (C1 & C2 & C3 & C4).
  { intros p Hp. rewrite Hval. by apply G3. }
  { intros p Hp. by apply Hreq1, Hsub. }
  { apply consistent_iff in G4 as [_ G4]. rewrite list.Forall_forall in G4 |- *. intros c Hc.
    apply (consistent_ext_values m); [|done|by apply G4]. intros p Hp. apply set_group_other. intros ->.
    rewrite ids_eq in G1. apply NoDup_cons in G1 as [G1 _]. apply G1. by apply (forest_elem c (children g)). }
  assert (Hfr : forall p, p ∉ ids g -> m' p = m p) by (intros p Hp; rewrite (proj1 C2) by done; by apply Hout).
  split; [done|]. split; [by apply (occurs_replace m m' None t q g)|].
  split; [by apply (updates_requests_ok (ids g) _ m1)|]. split.
  { unfold tgu_req. injection Ha as E1 E2 _ _. rewrite E1, E2. subst m1. rewrite set_group_same.
    fold (tgu_req b1 id). subst b1. rewrite set_tgu_req_get. by apply wanted_value. }
  split; [intros p Hp; rewrite (proj2 C2); subst m1; by rewrite set_group_other|]. split; [done|].
  intros p. destruct (C4 p) as [E|]; [left; by rewrite E|by right].
Qed.
End Write.

(** ** A machine with four groups *)

(** 1 is the root, 2 and 3 its children, 4 a child of 2. *)
Definition demo_tree : group := (Group 1 [Group 2 [Group 4 []]; Group 3 []])%positive.
Definition demo_group : group := (Group 2 [Group 4 []])%positive.
Definition demo_se (v : Z) : uclamp_se := uclamp_se_set (mk_uclamp_se 0 0 false false) v false.
(** Every group asks for at least 512; the limits are the full capacity. *)
Definition demo_clamps : group_clamps := fun _ => mk_tg_uclamp (demo_se 512) (demo_se 1024) (demo_se 512) (demo_se 1024) 5000 10000.
Definition demo_update (m : group_clamps) (p : ptr) (c : Z) (x : list ptr) : list ptr := p :: x.

(** A limit of 25.00 on group 2. *)
Example demo_write :
  let '(ret, (m, x)) := cpu_uclamp_write demo_update (text_float (inr 2500)) 6 (Some 1%positive) demo_group
                          UCLAMP_MAX demo_clamps [] in
  (ret, map (fun p => values (m p)) [1; 2; 3; 4]%positive, x) =
  (6, [(512, 1024); (256, 256); (512, 1024); (256, 256)], [4; 2]%positive).
Proof. vm_compute. reflexivity. Qed.

Lemma demo_requests : requests_ok demo_clamps (ids demo_tree).
Proof. intros p _. vm_compute. repeat split; discriminate. Qed.
Lemma demo_consistent : consistent demo_clamps None demo_tree.
Proof. vm_compute. repeat split. Qed.
Lemma demo_NoDup : NoDup (ids demo_tree).
Proof. change (NoDup [1; 2; 4; 3]%positive). by apply (bool_decide_unpack (NoDup _)). Qed.

Definition demo_updated (p : ptr) (x : list ptr) : Prop := p ∈ x.
Lemma demo_updated_now m p c x : demo_updated p (demo_update m p c x).
Proof. by left. Qed.
Lemma demo_updated_keep m q p c x : demo_updated p x -> demo_updated p (demo_update m q c x).
Proof. by right. Qed.
Lemma demo_occurs : occurs None demo_tree (Some 1%positive) demo_group.
Proof. eapply occurs_below; [by left|apply occurs_here]. Qed.

Lemma cpu_uclamp_write_consistent_witness :
  consistent (cpu_uclamp_write demo_update (text_float (inr 2500)) 6 (Some 1%positive) demo_group
                UCLAMP_MAX demo_clamps []).2.1 None demo_tree.
Proof.
  pose proof (cpu_uclamp_write_consistent (U := five_buckets) (UL := uclamp_config_laws 5 ltac:(lia)) demo_update demo_updated
    demo_updated_now demo_updated_keep demo_clamps [] demo_tree (Some 1%positive)
    demo_group (text_float (inr 2500)) 6 UCLAMP_MAX demo_NoDup) as H.
  specialize (H demo_occurs demo_requests demo_consistent).
  destruct (cpu_uclamp_write _ _ _ _ _ _ _ _) as [ret [m' x']]. cbv zeta in H.
  assert (nz (req_ret (capacity_from_percent (U := five_buckets) (text_float (inr 2500)))) = false) as E by (by vm_compute).
  rewrite E in H. apply H.
Defined.

Lemma uclamp_percent_roundtrip_witness :
  cpu_uclamp_print ((cpu_uclamp_write demo_update (text_float (inr 2525)) 6 None demo_tree
                       UCLAMP_MIN demo_clamps []).2.1 1%positive) UCLAMP_MIN = shown_percent 25 25.
Proof.
  pose proof (uclamp_percent_roundtrip (U := five_buckets) (UL := uclamp_config_laws 5 ltac:(lia)) demo_update demo_clamps [] None demo_tree
    6 UCLAMP_MIN 2525 ltac:(by vm_compute)) as H.
  destruct (cpu_uclamp_write _ _ _ _ _ _ _ _) as [ret [m' x']].
  apply H.
Defined.
