(* ===== verification/GroupLife.v ===== *)
(** * GroupLife: task groups that come and go (core.c, CONFIG_CGROUP_SCHED)

    Creating a group, putting it into the tree and taking it out again, and the
    callbacks with which the cpu cgroup does so.  A new group becomes visible
    ([sched_online_group]) after it is complete and disappears before it is
    freed, so that the walks of [TaskGroup] never meet half a group. *)

From S2P Require Import Prelude Task KernelApi Rq Prio Uclamp UclampFacts Machine TaskGroup.
From S2P Require Import GroupClamps GroupClampsSpec GroupClampsWrite.

(** The links of the groups, the list of all groups, their clamps. *)
Record tg_sys := mk_tg_sys {
  tg_tree : gmap ptr tg_links;
  task_groups : list ptr;
  tg_clamps : group_clamps
}.

(** The per-group data of the fair and real-time classes may fail to be allocated. *)
Class GroupAlloc := {
  alloc_fair_sched_group : ptr -> ptr -> bool;
  alloc_rt_sched_group : ptr -> ptr -> bool;
  root_task_group : ptr
}.

Section GroupLife.
Context {U : UclampApi} {L : GroupAlloc}.
Context {X : Type} (update_tasks : group_clamps -> ptr -> Z -> X -> X).

(** ** The code *)

Definition zero_tg_uclamp : tg_uclamp :=
  mk_tg_uclamp zero_uclamp_se zero_uclamp_se zero_uclamp_se zero_uclamp_se 0 0.

Definition sched_free_group (tg : ptr) (s : tg_sys) : tg_sys :=
  mk_tg_sys (delete tg (tg_tree s)) (task_groups s) (tg_clamps s).

(** [mem] is what the allocator returns; the memory is zeroed.  The result is an
    error or the group. *)
Definition sched_create_group (mem : option ptr) (parent : ptr) (s : tg_sys) : (Z + ptr) * tg_sys :=
  match mem with
  | None => (inl (- ENOMEM), s)
  | Some tg =>
      let s := mk_tg_sys (<[tg := mk_tg_links None []]> (tg_tree s)) (task_groups s)
                 (set_group tg zero_tg_uclamp (tg_clamps s)) in
      if negb (alloc_fair_sched_group tg parent) then (inl (- ENOMEM), sched_free_group tg s)
      else if negb (alloc_rt_sched_group tg parent) then (inl (- ENOMEM), sched_free_group tg s)
      else
        let m := tg_clamps s in
        (inr tg, mk_tg_sys (tg_tree s) (task_groups s) (set_group tg (alloc_uclamp_sched_group (m parent) (m tg)) m))
  end.

(** [list_add_rcu] puts at the head. *)
Definition sched_online_group (tg parent : ptr) (s : tg_sys) : tg_sys :=
  let tree := <[tg := mk_tg_links (Some parent) []]> (tg_tree s) in
  let tree := alter (fun g => mk_tg_links (tg_parent g) (tg :: tg_children g)) parent tree in
  mk_tg_sys tree (tg :: task_groups s) (tg_clamps s).

(** [list_del_rcu]. *)
Definition unlink (tg : ptr) (l : list ptr) : list ptr := filter (fun p => p <> tg) l.

Definition sched_offline_group (tg : ptr) (s : tg_sys) : tg_sys :=
  let tree := match tg_tree s !! tg ≫= tg_parent with
    | Some parent => alter (fun g => mk_tg_links (tg_parent g) (unlink tg (tg_children g))) parent (tg_tree s)
    | None => tg_tree s
    end in
  mk_tg_sys tree (unlink tg (task_groups s)) (tg_clamps s).

(** After a grace period. *)
Definition sched_free_group_rcu (tg : ptr) (s : tg_sys) : tg_sys := sched_free_group tg s.
(** [call_rcu], when the readers are done. *)
Definition sched_destroy_group (tg : ptr) (s : tg_sys) : tg_sys := sched_free_group_rcu tg s.

(** A css is embedded in its group. *)
Definition css_tg (css : option ptr) : option ptr := css.

Definition cpu_cgroup_css_alloc (mem parent_css : option ptr) (s : tg_sys) : (Z + ptr) * tg_sys :=
  match css_tg parent_css with
  | None => (inr root_task_group, s)
  | Some parent =>
      match sched_create_group mem parent s with
      | (inl _, s) => (inl (- ENOMEM), s)
      | (inr tg, s) => (inr tg, s)
      end
  end.

(** A css has no descendants when it comes online. *)
Definition cpu_cgroup_css_online (tg : ptr) (parent_css : option ptr) (s : tg_sys) (x : X) : Z * (tg_sys * X) :=
  let s := match css_tg parent_css with Some parent => sched_online_group tg parent s | None => s end in
  let '(m, x) := cpu_util_update_eff update_tasks parent_css (Group tg []) (tg_clamps s) x in
  (0, (mk_tg_sys (tg_tree s) (task_groups s) m, x)).

Definition cpu_cgroup_css_released (tg : ptr) (s : tg_sys) : tg_sys := sched_offline_group tg s.
Definition cpu_cgroup_css_free (tg : ptr) (s : tg_sys) : tg_sys := sched_free_group tg s.

(** ** The tree with a new group *)

Fixpoint add_child (parent tg : ptr) (g : group) : group :=
  let 'Group id cs := g in
  if decide (id = parent) then Group id (Group tg [] :: cs) else Group id (map (add_child parent tg) cs).

Lemma add_child_id parent tg g : group_id (add_child parent tg g) = group_id g.
Proof. destruct g as [id cs]. cbn. by case_decide. Qed.

Lemma flat_map_elem p cs : p ∈ flat_map ids cs <-> exists c, c ∈ cs /\ p ∈ ids c.
Proof.
  rewrite list_elem_of_In, in_flat_map. split; intros (c & H1 & H2); exists c; by rewrite !list_elem_of_In in *.
Qed.

(** Where the parent is not, nothing changes. *)
Lemma add_child_absent parent tg g : parent ∉ ids g -> add_child parent tg g = g.
Proof.
  induction g as [id cs IH] using group_ind'. intros Hp. rewrite ids_eq in Hp. cbn [group_id children] in Hp.
  apply not_elem_of_cons in Hp as [Hne Hp]. cbn. rewrite decide_False by congruence. f_equal.
  rewrite <- (map_id cs) at 2. apply map_ext_in. intros c Hc%list_elem_of_In. apply IH; [done|].
  intros Hx. apply Hp, flat_map_elem. by exists c.
Qed.

Lemma add_child_ids parent tg g : NoDup (ids g) -> parent ∈ ids g -> ids (add_child parent tg g) ≡ₚ tg :: ids g.
Proof.
  induction g as [id cs IH] using group_ind'. intros Hnd Hp. rewrite ids_eq in Hnd, Hp. cbn [group_id children] in *.
  apply NoDup_cons in Hnd as [Hid Hnd]. cbn [add_child]. case_decide as Ed.
  { cbn. apply Permutation_swap. }
  apply elem_of_cons in Hp as [Hp|Hp]; [congruence|]. change (id :: flat_map ids (map (add_child parent tg) cs) ≡ₚ tg :: id :: flat_map ids cs).
  rewrite Permutation_swap. f_equiv. clear Ed Hid.
  induction cs as [|c cs IHcs]; [by apply not_elem_of_nil in Hp|]. cbn [map flat_map] in *.
  apply NoDup_app in Hnd as (Hc & Hdis & Hnd). apply elem_of_app in Hp as [Hp|Hp].
  - rewrite (IH c) by (done || by left).
    assert (map (add_child parent tg) cs = cs) as ->; [|done].
    rewrite <- (map_id cs) at 2. apply map_ext_in. intros d Hd%list_elem_of_In. apply add_child_absent.
    intros Hx. apply (Hdis parent Hp). apply flat_map_elem. by exists d.
  - rewrite (add_child_absent parent tg c) by (intros Hx; by apply (Hdis parent Hx)).
    rewrite IHcs; [|by intros; apply IH; [right|..]|done|done]. by rewrite Permutation_middle.
Qed.

Lemma linked_iff tgs parent g :
  linked tgs parent g <->
  tgs !! group_id g = Some (mk_tg_links parent (map group_id (children g))) /\
  Forall (linked tgs (Some (group_id g))) (children g).
Proof.
  destruct g as [id cs]. cbn. split; intros [H1 H2]; (split; [done|]); clear H1.
  - induction cs as [|c cs IH]; constructor; [apply H2|apply IH, H2].
  - induction cs as [|c cs IH]; [done|]. apply Forall_cons in H2 as [H2 H3]. split; [done|by apply IH].
Qed.

Lemma linked_ext tgs tgs' g : forall parent,
  (forall p, p ∈ ids g -> tgs' !! p = tgs !! p) -> linked tgs parent g -> linked tgs' parent g.
Proof.
  induction g as [id cs IH] using group_ind'. intros parent Hsame. rewrite !linked_iff. cbn [group_id children].
  intros [H1 H2]. split; [rewrite Hsame; [done|rewrite ids_eq; by left]|].
  rewrite list.Forall_forall in H2 |- *. intros c Hc. apply IH; [done| |by apply H2].
  intros p Hp. by apply Hsame, (ids_child id cs c p).
Qed.

(** The links after a group has gone online. *)
Definition online_links (tg parent : ptr) (tgs : gmap ptr tg_links) : gmap ptr tg_links :=
  alter (fun g => mk_tg_links (tg_parent g) (tg :: tg_children g)) parent (<[tg := mk_tg_links (Some parent) []]> tgs).

Lemma online_at tg parent tgs p : p <> tg -> p <> parent -> online_links tg parent tgs !! p = tgs !! p.
Proof. intros H1 H2. unfold online_links. by rewrite lookup_alter_ne, lookup_insert_ne. Qed.

Lemma online_linked tg parent tgs g : forall q,
  linked tgs q g -> NoDup (ids g) -> tg ∉ ids g -> tg <> parent -> linked (online_links tg parent tgs) q (add_child parent tg g).
Proof.
  induction g as [id cs IH] using group_ind'. intros q Hl Hnd Htg Hne. rewrite linked_iff in Hl.
  destruct Hl as [Hid Hcs]. cbn [group_id children] in *. rewrite list.Forall_forall in Hcs.
  rewrite ids_eq in Hnd, Htg. cbn [group_id children] in *. apply not_elem_of_cons in Htg as [Htid Htg].
  apply NoDup_cons in Hnd as [Hidn Hnd].
  assert (forall c p, c ∈ cs -> p ∈ ids c -> p <> tg /\ p <> id) as Hout.
  { intros c p Hc Hp. split; intros ->; [apply Htg|apply Hidn]; apply flat_map_elem; by exists c. }
  cbn [add_child]. case_decide as Ed; apply linked_iff; cbn [group_id children].
  - subst parent. split.
    + unfold online_links. rewrite lookup_alter_eq, lookup_insert_ne, Hid by done. reflexivity.
    + constructor.
      * apply linked_iff. cbn [group_id children]. split; [|constructor].
        unfold online_links. rewrite lookup_alter_ne, lookup_insert_eq by done. reflexivity.
      * apply list.Forall_forall. intros c Hc. apply (linked_ext tgs); [|by apply Hcs].
        intros p Hp. destruct (Hout c p Hc Hp). by apply online_at.
  - split.
    + rewrite online_at, Hid by done. do 2 f_equal. rewrite map_map. apply map_ext. intros c. by rewrite add_child_id.
    + apply list.Forall_forall. intros c (d & -> & Hd)%list_elem_of_fmap. apply IH; [done|by apply Hcs|by apply (forest_NoDup d cs)| |done].
      intros Hx. by destruct (Hout d tg Hd Hx).
Qed.

(** Taking it offline again undoes that. *)
Lemma unlink_absent tg l : tg ∉ l -> unlink tg l = l.
Proof.
  induction l as [|x l IH]; intros H; [done|]. apply not_elem_of_cons in H as [H1 H2]. unfold unlink.
  rewrite filter_cons_True by congruence. f_equal. by apply IH.
Qed.
Lemma unlink_head tg l : tg ∉ l -> unlink tg (tg :: l) = l.
Proof. intros H. unfold unlink. rewrite filter_cons_False by (intros Hx; by apply Hx). by apply unlink_absent. Qed.

Lemma offline_links tg parent tgs :
  tgs !! tg = None -> tg <> parent -> (forall g, tgs !! parent = Some g -> tg ∉ tg_children g) ->
  delete tg (alter (fun g => mk_tg_links (tg_parent g) (unlink tg (tg_children g))) parent (online_links tg parent tgs)) = tgs.
Proof.
  intros Hn Hne Hc. apply map_eq. intros p. destruct (decide (p = tg)) as [->|Hp]; [by rewrite lookup_delete_eq, Hn|].
  rewrite lookup_delete_ne by done. unfold online_links. destruct (decide (p = parent)) as [->|Hq].
  - rewrite !lookup_alter_eq, lookup_insert_ne by done. destruct (tgs !! parent) as [g|] eqn:Eg; [|done].
    cbn [fmap option_fmap option_map tg_parent tg_children]. rewrite unlink_head by by apply Hc. by destruct g.
  - by rewrite !lookup_alter_ne, lookup_insert_ne by done.
Qed.

(** ** Clamps of the new group *)

Context {UL : UclampLaws U}.

Lemma add_child_consistent m m' parent tg g : forall q,
  consistent m q g -> NoDup (ids g) -> tg ∉ ids g -> q <> Some tg -> tg <> parent ->
  (forall p, p <> tg -> m' p = m p) -> group_ok (Some (m parent)) (m' tg) ->
  consistent m' q (add_child parent tg g).
Proof.
  induction g as [id cs IH] using group_ind'. intros q Hc Hnd Htg Hq Hne Hsame Hok. rewrite consistent_iff in Hc.
  destruct Hc as [Hid Hcs]. cbn [group_id children] in *. rewrite list.Forall_forall in Hcs.
  rewrite ids_eq in Hnd, Htg. cbn [group_id children] in *. apply not_elem_of_cons in Htg as [Htid Htg].
  apply NoDup_cons in Hnd as [Hidn Hnd].
  assert (group_ok (m' <$> q) (m' id)) as Hid'.
  { rewrite Hsame by done. destruct q as [p|]; [|done]. cbn in *. rewrite Hsame; [done|congruence]. }
  assert (forall c, c ∈ cs -> tg ∉ ids c) as Hout.
  { intros c Hc Hx. apply Htg, flat_map_elem. by exists c. }
  cbn [add_child]. case_decide as Ed; apply consistent_iff; cbn [group_id children]; (split; [exact Hid'|]).
  - subst parent. constructor.
    + apply consistent_iff. cbn [group_id children]. split; [|constructor]. cbn. by rewrite Hsame.
    + apply list.Forall_forall. intros c Hc. apply (consistent_ext m); [| |by apply Hcs].
      * intros p Hp. apply Hsame. intros ->. by apply (Hout c Hc).
      * intros p [= <-]. by apply Hsame.
  - apply list.Forall_forall. intros c (d & -> & Hd)%list_elem_of_fmap.
    apply IH; [done|by apply Hcs|by apply (forest_NoDup d cs)|by apply Hout|congruence|done..].
Qed.

(** ** A group's life *)

(** The links are those of the tree [g], the list holds its groups, each once, and
    the effective clamps are the most restrictive ones. *)
Record groups_ok (s : tg_sys) (g : group) : Prop := {
  go_linked : linked (tg_tree s) None g;
  go_ids : NoDup (ids g);
  go_list : task_groups s ≡ₚ ids g;
  go_clamps : consistent (tg_clamps s) None g;
  go_requests : requests_ok (tg_clamps s) (ids g)
}.

Lemma linked_children_ids tgs g : forall q p l, linked tgs q g -> p ∈ ids g -> tgs !! p = Some l -> tg_children l ⊆ ids g.
Proof.
  induction g as [id cs IH] using group_ind'. intros q p l Hl Hp Hlk. apply linked_iff in Hl as [Hid Hcs].
  cbn [group_id children] in *. rewrite list.Forall_forall in Hcs. rewrite ids_eq in Hp. cbn [group_id children] in Hp.
  apply elem_of_cons in Hp as [->|(c & Hc & Hp)%flat_map_elem].
  - rewrite Hid in Hlk. injection Hlk as <-. intros x (c & -> & Hc)%list_elem_of_fmap.
    apply (ids_child id cs c); [done|]. rewrite ids_eq. by left.
  - intros x Hx. apply (ids_child id cs c); [done|]. by apply (IH c Hc (Some id) p l (Hcs c Hc)).
Qed.

(** A change of what is not in the tree. *)
Lemma groups_ok_ext s s' g :
  groups_ok s g -> (forall p, p ∈ ids g -> tg_tree s' !! p = tg_tree s !! p) -> task_groups s' = task_groups s ->
  (forall p, p ∈ ids g -> tg_clamps s' p = tg_clamps s p) -> groups_ok s' g.
Proof.
  intros [H1 H2 H3 H4 H5] Ht Hl Hc. split.
  - by eapply linked_ext.
  - done.
  - by rewrite Hl.
  - by apply (consistent_ext (tg_clamps s)).
  - intros p Hp. rewrite Hc by done. by apply H5.
Qed.

(** The clamps a new group requests. *)
Lemma new_group_requests q b : requests (alloc_uclamp_sched_group q b) = (0, SCHED_CAPACITY_SCALE).
Proof using UL. unfold requests, alloc_uclamp_sched_group. cbn [tgu_req_min tgu_req_max]. by rewrite !uclamp_se_set_value. Qed.

(** Going online, the effective clamps become the request as far as the parent allows. *)
Lemma leaf_update m x parent tg :
  pair_in_range (values (m parent)) -> pair_in_range (requests (m tg)) -> parent <> tg ->
  let '(m', x') := cpu_util_update_eff update_tasks (Some parent) (Group tg []) m x in
  group_ok (Some (m parent)) (m' tg) /\ requests (m' tg) = requests (m tg) /\ (forall p, p <> tg -> m' p = m p).
Proof using UL.
  intros Hp Hr Hne. unfold cpu_util_update_eff. cbn [update_eff fold_left].
  pose proof (update_group_spec (Some (m parent)) (m tg)) as Hg. cbn [fmap option_fmap option_map].
  destruct (update_group (Some (m parent)) (m tg)) as [b clamps].
  destruct Hg as (G1 & G2 & _ & _ & G5 & _); [by intros q [= <-]|done|].
  destruct (Z.eqb_spec clamps 0) as [Hz|Hz]; [split; [by apply G5|done]|].
  rewrite set_group_same. split; [done|split; [done|]]. intros p Hpt. by apply set_group_other.
Qed.

Lemma parent_in_range m g parent :
  consistent m None g -> requests_ok m (ids g) -> parent ∈ ids g -> pair_in_range (values (m parent)).
Proof.
  assert (forall q, parent_ok m q -> consistent m q g -> requests_ok m (ids g) -> parent ∈ ids g ->
    pair_in_range (values (m parent))) as H; [|intros; by apply (H None)].
  induction g as [id cs IH] using group_ind'. intros q Hq Hc Hr Hp.
  pose proof (consistent_range _ _ _ Hq Hr Hc) as Hid. cbn [group_id] in Hid.
  apply consistent_iff in Hc as [_ Hc]. cbn [group_id children] in *. rewrite list.Forall_forall in Hc.
  rewrite ids_eq in Hp. apply elem_of_cons in Hp as [->|(c & Hin & Hp)%flat_map_elem]; [by apply Hid|].
  apply (IH c Hin (Some id)); [done|by apply Hc| |done]. intros p Hpc. apply Hr. by apply (ids_child id cs c).
Qed.


(** The states of a group's life: allocated, and with the clamps [m] online. *)
Definition allocated (tg parent : ptr) (s : tg_sys) : tg_sys :=
  let m0 := set_group tg zero_tg_uclamp (tg_clamps s) in
  mk_tg_sys (<[tg := mk_tg_links None []]> (tg_tree s)) (task_groups s)
    (set_group tg (alloc_uclamp_sched_group (m0 parent) (m0 tg)) m0).
Definition brought_online (tg parent : ptr) (m : group_clamps) (s : tg_sys) : tg_sys :=
  mk_tg_sys (online_links tg parent (tg_tree s)) (tg :: task_groups s) m.

Lemma allocated_clamps tg parent s :
  (forall p, p <> tg -> tg_clamps (allocated tg parent s) p = tg_clamps s p) /\
  requests (tg_clamps (allocated tg parent s) tg) = (0, SCHED_CAPACITY_SCALE).
Proof using UL.
  split; [intros p Hp; cbn [tg_clamps allocated]; by rewrite !set_group_other|].
  cbn [tg_clamps allocated]. rewrite set_group_same. apply new_group_requests.
Qed.

Lemma allocated_ok tg parent s g : groups_ok s g -> tg ∉ ids g -> groups_ok (allocated tg parent s) g.
Proof using UL.
  intros Hok Htg. apply (groups_ok_ext s); [done| |done|]; intros p Hp; assert (p <> tg) by (by intros ->).
  - by apply lookup_insert_ne.
  - by apply allocated_clamps.
Qed.

Lemma brought_online_ok tg parent m s g :
  groups_ok s g -> parent ∈ ids g -> tg ∉ ids g -> (forall p, p <> tg -> m p = tg_clamps s p) ->
  group_ok (Some (tg_clamps s parent)) (m tg) -> pair_in_range (requests (m tg)) ->
  groups_ok (brought_online tg parent m s) (add_child parent tg g).
Proof.
  intros [Hl Hnd Hlist Hc Hr] Hp Htg Hm Hg Hq. assert (tg <> parent) as Hne by (by intros ->).
  split; cbn [tg_tree task_groups tg_clamps brought_online].
  - by apply online_linked.
  - rewrite add_child_ids by done. by constructor.
  - rewrite add_child_ids by done. by f_equiv.
  - by apply (add_child_consistent (tg_clamps s)).
  - intros p Hpg. rewrite add_child_ids in Hpg by done. apply elem_of_cons in Hpg as [->|Hpg]; [done|].
    rewrite Hm by (by intros ->). by apply Hr.
Qed.

(** Out of the tree and freed, the links and the list are what they were. *)
Lemma released_free tg parent m s g :
  groups_ok s g -> parent ∈ ids g -> tg ∉ ids g -> tg_tree s !! tg = None ->
  let s3 := cpu_cgroup_css_released tg (brought_online tg parent m s) in
  task_groups s3 = task_groups s /\ tg_clamps s3 = m /\ delete tg (tg_tree s3) = tg_tree s.
Proof.
  intros [Hl Hnd Hlist Hc Hr] Hp Htg Hfree. assert (parent <> tg) as Hne by (by intros ->). cbv zeta.
  unfold cpu_cgroup_css_released, sched_offline_group. cbn [tg_tree task_groups tg_clamps brought_online].
  assert (online_links tg parent (tg_tree s) !! tg = Some (mk_tg_links (Some parent) [])) as ->.
  { unfold online_links. by rewrite lookup_alter_ne, lookup_insert_eq. }
  cbn [mbind option_bind tg_parent]. split; [apply unlink_head; by rewrite Hlist|]. split; [done|].
  apply offline_links; [done|done|]. intros l Hlk Hx. apply Htg. by apply (linked_children_ids _ _ None parent l Hl Hp Hlk).
Qed.

Lemma released_ok tg parent m s g :
  groups_ok s g -> parent ∈ ids g -> tg ∉ ids g -> tg_tree s !! tg = None ->
  (forall p, p <> tg -> m p = tg_clamps s p) ->
  let s3 := cpu_cgroup_css_released tg (brought_online tg parent m s) in
  groups_ok s3 g /\
  let s4 := cpu_cgroup_css_free tg s3 in groups_ok s4 g /\ tg_tree s4 = tg_tree s /\ task_groups s4 = task_groups s.
Proof.
  intros Hok Hp Htg Hfree Hm. cbv zeta.
  destruct (released_free tg parent m s g Hok Hp Htg Hfree) as (E1 & E2 & E3).
  set (s3 := cpu_cgroup_css_released tg _) in *.
  assert (forall p, p ∈ ids g -> p <> tg) as Hin by (by intros p Hpg ->).
  assert (tg_tree (cpu_cgroup_css_free tg s3) = tg_tree s) as E4 by exact E3.
  split; [|split; [|split; [exact E4|exact E1]]].
  - apply (groups_ok_ext s); [done| |done|intros p Hpg; rewrite E2; by apply Hm, Hin].
    intros p Hpg. rewrite <- E3. by rewrite lookup_delete_ne by (intros <-; by apply (Hin tg)).
  - apply (groups_ok_ext s); [done|by rewrite E4|done|]. intros p Hpg.
    change (tg_clamps (cpu_cgroup_css_free tg s3)) with (tg_clamps s3). rewrite E2. by apply Hm, Hin.
Qed.

(** C25. A task group comes and goes: once the cgroup core has allocated a group and
    brought it online, the links are those of the tree with the group as first
    child of its parent, the list of all groups holds it once, it requests
    nothing, its effective clamps are what its parent allows, and no other clamp
    has changed; released and freed, it leaves the links and the list exactly as
    they were before.  In between, the tree that others walk is always whole. *)
Theorem group_comes_and_goes s g parent tg x :
  groups_ok s g -> parent ∈ ids g -> tg ∉ ids g -> tg_tree s !! tg = None ->
  alloc_fair_sched_group tg parent = true -> alloc_rt_sched_group tg parent = true ->
  exists s1 s2 x',
    cpu_cgroup_css_alloc (Some tg) (Some parent) s = (inr tg, s1) /\ groups_ok s1 g /\
    cpu_cgroup_css_online tg (Some parent) s1 x = (0, (s2, x')) /\ groups_ok s2 (add_child parent tg g) /\
    values (tg_clamps s2 tg) = restricted (Some (values (tg_clamps s parent))) (0, SCHED_CAPACITY_SCALE) /\
    (forall p, p <> tg -> tg_clamps s2 p = tg_clamps s p) /\
    let s3 := cpu_cgroup_css_released tg s2 in groups_ok s3 g /\
    let s4 := cpu_cgroup_css_free tg s3 in groups_ok s4 g /\ tg_tree s4 = tg_tree s /\ task_groups s4 = task_groups s.
Proof using UL.
  intros Hok Hp Htg Hfree Ha1 Ha2. pose proof Hok as [_ _ _ Hc Hr].
  assert (parent <> tg) as Hne by (by intros ->).
  set (s1 := allocated tg parent s). destruct (allocated_clamps tg parent s) as [Hm1 Hreq]. fold s1 in Hm1, Hreq.
  pose proof (leaf_update (tg_clamps s1) x parent tg) as Hup. rewrite Hm1, Hreq in Hup by done.
  destruct (cpu_util_update_eff update_tasks (Some parent) (Group tg []) (tg_clamps s1) x) as [m2 x2] eqn:Eup.
  destruct Hup as (G1 & G2 & G3); [by eapply parent_in_range|by vm_compute|done|].
  assert (forall p, p <> tg -> m2 p = tg_clamps s p) as Hm2 by (intros p Hpt; rewrite G3, Hm1; done).
  exists s1, (brought_online tg parent m2 s), x2. split; [|split; [|split; [|split; [|split; [|split]]]]].
  - unfold cpu_cgroup_css_alloc, sched_create_group. cbn [css_tg]. rewrite Ha1, Ha2. reflexivity.
  - by apply allocated_ok.
  - unfold cpu_cgroup_css_online, sched_online_group. cbn [css_tg tg_clamps]. rewrite Eup. cbn [tg_tree task_groups s1 allocated].
    unfold brought_online, online_links. by rewrite insert_insert_eq.
  - apply brought_online_ok; try done. rewrite G2. by vm_compute.
  - cbn [tg_clamps brought_online]. unfold group_ok in G1. rewrite G2 in G1. exact G1.
  - exact Hm2.
  - by apply released_ok.
Qed.
End GroupLife.

(** ** Group 9 below group 2 of a tree *)

#[export] Instance plenty : GroupAlloc :=
  {| alloc_fair_sched_group _ _ := true; alloc_rt_sched_group _ _ := true; root_task_group := 1%positive |}.

Definition demo_links : gmap ptr tg_links := list_to_map
  [(1, mk_tg_links None [2; 3]); (2, mk_tg_links (Some 1) [4]); (3, mk_tg_links (Some 1) []); (4, mk_tg_links (Some 2) [])]%positive.
Definition demo_groups : tg_sys := mk_tg_sys demo_links [3; 4; 2; 1]%positive demo_clamps.

Lemma demo_groups_ok : groups_ok demo_groups demo_tree.
Proof.
  split.
  - repeat split; vm_compute; reflexivity.
  - apply demo_NoDup.
  - change ([3; 4; 2; 1]%positive ≡ₚ [1; 2; 4; 3]%positive). by apply (bool_decide_unpack (_ ≡ₚ _)).
  - apply demo_consistent.
  - apply demo_requests.
Qed.

Lemma group_comes_and_goes_witness :
  exists s1 s2 x',
    cpu_cgroup_css_alloc (U := five_buckets) (Some 9%positive) (Some 2%positive) demo_groups = (inr 9%positive, s1) /\
    groups_ok s1 demo_tree /\
    cpu_cgroup_css_online (U := five_buckets) demo_update 9%positive (Some 2%positive) s1 [] = (0, (s2, x')) /\
    groups_ok s2 (add_child 2%positive 9%positive demo_tree) /\
    values (tg_clamps s2 9%positive) = restricted (Some (values (tg_clamps demo_groups 2%positive))) (0, SCHED_CAPACITY_SCALE) /\
    (forall p, p <> 9%positive -> tg_clamps s2 p = tg_clamps demo_groups p) /\
    let s3 := cpu_cgroup_css_released 9%positive s2 in groups_ok s3 demo_tree /\
    let s4 := cpu_cgroup_css_free 9%positive s3 in
    groups_ok s4 demo_tree /\ tg_tree s4 = tg_tree demo_groups /\ task_groups s4 = task_groups demo_groups.
Proof.
  apply (group_comes_and_goes (U := five_buckets) (UL := uclamp_config_laws 5 ltac:(lia)) demo_update demo_groups demo_tree
    2%positive 9%positive []); [exact demo_groups_ok| | |done..].
  - change (2%positive ∈ [1; 2; 4; 3]%positive). set_solver.
  - change (9%positive ∉ [1; 2; 4; 3]%positive). set_solver.
Defined.
