(* ===== verification/SwitchCount.v ===== *)
(** * SwitchCount: the course project's counter of process switches

    The two system calls that start and stop the count, the one that returns the
    CPU number, and what the counter added to [__schedule] counts.  A history
    interleaves the calls of all CPUs: [run] is the trace of scheduler calls,
    starts of the count and other activity. *)

From S2P Require Import Prelude Task KernelApi Prio Rq RqClock Uclamp.
From S2P Require Import State Sched SchedFacts ScheduleSpec Machine.

(** ** The system calls *)

(** No return statement: what user space gets is not determined. *)
Definition sys_start_to_count_number_of_process_switches : M unit :=
  p ← current;
  set_task p (fun t => t <| process_switches_count := 0 |>).

(** An [unsigned int] returned as a [long]. *)
Definition sys_stop_to_count_number_of_process_switches : M Z :=
  p ← current;
  t ← task_of p;
  mret (process_switches_count t).

Definition sys_my_get_cpu_number : M Z :=
  p ← current;
  t ← task_of p;
  let _cpu_number_from_task_struct := u32 (t_cpu t) in
  if _cpu_number_from_task_struct =? u32 (-1) then mret (-1)
  else mret _cpu_number_from_task_struct.

(** The test program's wrapper stores the result in an [unsigned] and returns it
    as an [int]; the caller compares that with -1. *)
Definition getcpu_my_call : M (Z * Z) :=
  r ← sys_my_get_cpu_number;
  let cpu := u32 r in
  mret (cpu, s32 cpu).

(** ** Machine-wide statistics of switches *)

(** The switches of all run queues, the sum that [Tick.nr_context_switches]
    takes one possible CPU after the other. *)
Definition sum_switches (s : kstate) : Z := u64 (msum nr_switches (k_rqs s)).

(** ** Histories *)

Inductive event :=
  | Switch (prev next : ptr)   (* a call of __schedule *)
  | Start (p : ptr)            (* a call of start_to_count *)
  | Other.
#[export] Instance event_eq_dec : EqDecision event.
Proof. solve_decision. Defined.

(** Everything else leaves the counters, the switches and [curr] alone. *)
Definition counters_same (s s' : kstate) : Prop :=
  (fun t => (process_switches_count t, nvcsw t, nivcsw t)) <$> k_tasks s' =
  (fun t => (process_switches_count t, nvcsw t, nivcsw t)) <$> k_tasks s
  /\ (fun r => (nr_switches r, curr r)) <$> k_rqs s' = (fun r => (nr_switches r, curr r)) <$> k_rqs s.

Section History.
Context {U : UclampApi} {F : FlagApi} {FL : FlagLaws F} {C : ClockConfig}.

(** The scheduling classes may behave differently at each call. *)
Inductive step : kstate -> event -> kstate -> Prop :=
  | step_schedule (K : SchedClassOps) (KL : SchedClassLaws K) preempt s s' r p r' :
      schedule_pre s r p -> __schedule preempt s = Ok tt s' -> k_rqs s' !! k_this_cpu s = Some r' ->
      step s (Switch (curr r) (curr r')) s'
  | step_start s s' r :
      k_rqs s !! k_this_cpu s = Some r -> sys_start_to_count_number_of_process_switches s = Ok tt s' ->
      step s (Start (curr r)) s'
  | step_other s s' : counters_same s s' -> step s Other s'.

Inductive run : kstate -> list event -> kstate -> Prop :=
  | run_nil s : run s [] s
  | run_cons s e s1 es s' : step s e s1 -> run s1 es s' -> run s (e :: es) s'.

(** How often [p] was switched to. *)
Definition switch_in (p : ptr) (e : event) : Z :=
  match e with
  | Switch prev next => if bool_decide (prev = next) then 0 else if bool_decide (p = next) then 1 else 0
  | _ => 0
  end.
Definition switched_in (p : ptr) (es : list event) : Z := Zsum (switch_in p <$> es).

Definition counter (s : kstate) (p : ptr) : option Z := process_switches_count <$> k_tasks s !! p.

(** What one call of [__schedule] does to a task's counters and to the run queues. *)
Definition charged (preempt : bool) (p : task_struct) (prev next q : ptr) (t : task_struct) : task_struct :=
  if bool_decide (prev = next) then t
  else
    let t := if bool_decide (q = prev) then charge_out (negb preempt && nz (t_state p)) t else t in
    if bool_decide (q = next) then charge_in t else t.

Abbreviation counts := (fun t : task_struct => (process_switches_count t, nvcsw t, nivcsw t)).

Lemma schedule_counts (K : SchedClassOps) (KL : SchedClassLaws K) preempt s s' r p :
  schedule_pre s r p -> __schedule preempt s = Ok tt s' ->
  exists next, is_Some (k_tasks s !! next) /\
    (forall q, counts <$> k_tasks s' !! q = (fun t => counts (charged preempt p (curr r) next q t)) <$> k_tasks s !! q) /\
    (forall d, (fun r => (nr_switches r, curr r)) <$> k_rqs s' !! d =
      (fun r0 => if bool_decide (d = k_this_cpu s)
         then (if bool_decide (curr r = next) then nr_switches r0 else u64 (nr_switches r0 + 1), next)
         else (nr_switches r0, curr r0)) <$> k_rqs s !! d).
Proof using FL.
  intros Hpre E. destruct (schedule_correct preempt s r p Hpre) as (next & n & s2 & E2 & Hn & _ & Hcore & _).
  rewrite E in E2. injection E2 as <-. exists next. split; [by rewrite Hn|].
  pose proof (pre_rq _ _ _ Hpre) as Hr. pose proof (pre_curr _ _ _ Hpre) as Hp.
  set (cpu := k_this_cpu s) in *. set (g := spec_block preempt cpu (curr r) p s).
  assert (schedule_spec preempt next s = (if bool_decide (curr r = next) then g
    else spec_switch (negb preempt && nz (t_state p)) cpu (curr r) next p n g) <| k_irqs_off := false |>) as Es.
  { unfold schedule_spec. fold cpu. by rewrite Hr, Hp, Hn. }
  rewrite Es in Hcore. clear Es. split.
  - intros q. rewrite (core_same_view counts _ _ _ ltac:(done) Hcore). unfold charged.
    change (k_tasks (?x <| k_irqs_off := false |>)) with (k_tasks x).
    destruct (bool_decide (curr r = next)); [by apply spec_block_task|].
    rewrite spec_switch_task by done. set (vol := negb preempt && _).
    rewrite !upd_task_lookup.
    pose proof (spec_block_task counts preempt cpu (curr r) p s q ltac:(done) ltac:(done) ltac:(done)) as Hb.
    fold g in Hb. clearbody g.
    destruct (k_tasks g !! q) as [t1|], (k_tasks s !! q) as [t0|]; simpl in Hb; [|done|done|by repeat case_decide].
    injection Hb as H1 H2 H3. unfold charge_in, charge_out.
    destruct (decide (q = next)) as [En|En];
      [rewrite (bool_decide_eq_true_2 _ En)|rewrite (bool_decide_eq_false_2 _ En)];
      (destruct (decide (q = curr r)) as [Ep|Ep];
        [rewrite (bool_decide_eq_true_2 _ Ep)|rewrite (bool_decide_eq_false_2 _ Ep)]);
      destruct vol; simpl; rsimpl; by rewrite H1, H2, H3.
  - intros d. rewrite (core_same_rq_view (fun r => (nr_switches r, curr r)) _ _ _ ltac:(done) Hcore).
    change (k_rqs (?x <| k_irqs_off := false |>)) with (k_rqs x).
    pose proof (spec_block_rq (fun r => (nr_switches r, curr r)) preempt cpu (curr r) p s d ltac:(done) ltac:(done)) as Hb.
    fold g in Hb. clearbody g. destruct (bool_decide (curr r = next)) eqn:Eb.
    + rewrite Hb. destruct (k_rqs s !! d) as [r0|] eqn:Hd; [|done]. simpl. f_equal.
      destruct (decide (d = cpu)) as [Ed|Ed];
        [rewrite (bool_decide_eq_true_2 _ Ed)|by rewrite (bool_decide_eq_false_2 _ Ed)].
      rewrite Ed, Hr in Hd. injection Hd as <-. apply bool_decide_eq_true in Eb as Eb'.
      rewrite ?(bool_decide_eq_true_2 _ Eb'). by rewrite Eb'.
    + rewrite spec_switch_rq by done. rewrite !upd_rq_lookup. destruct (decide (d = cpu)) as [Ed|Ed];
        [rewrite (bool_decide_eq_true_2 _ Ed)|by rewrite (bool_decide_eq_false_2 _ Ed)].
      rewrite ?Eb. destruct (k_rqs g !! d), (k_rqs s !! d); simpl in *; try done.
      injection Hb as E1 E2. by rewrite E1.
Qed.

(** ** The counter counts the switches to a task *)

Lemma step_counter s e s' p c :
  step s e s' -> e <> Start p -> counter s p = Some c -> 0 <= c < 2 ^ 32 ->
  counter s' p = Some (u32 (c + switch_in p e)).
Proof using FL.
  intros Hst Hne Hc Hrange. unfold counter in *. destruct Hst as [K KL preempt s s' r t r' Hpre E Hr'|s s' r Hr E|s s' [E _]].
  - destruct (schedule_counts K KL preempt s s' r t Hpre E) as (next & _ & Hq & Hd).
    specialize (Hd (k_this_cpu s)). rewrite Hr', (pre_rq _ _ _ Hpre), bool_decide_eq_true_2 in Hd by done.
    simpl in Hd. injection Hd as _ ->. specialize (Hq p).
    destruct (k_tasks s !! p) as [x|], (k_tasks s' !! p) as [x'|]; simpl in *; try done.
    injection Hc as <-. injection Hq as -> _ _. unfold charged, switch_in.
    destruct (bool_decide (curr r = next)); [rewrite Z.add_0_r, wrapu_id by done; done|].
    set (y := if bool_decide (p = curr r) then _ else x).
    assert (process_switches_count y = process_switches_count x) as Ey.
    { subst y. destruct (bool_decide _); [|done]. unfold charge_out. by case_ifs. }
    destruct (bool_decide (p = next)); simpl; [|by rewrite Ey, Z.add_0_r, wrapu_id].
    change (process_switches_count (charge_in y)) with (u32 (process_switches_count y + 1)). by rewrite Ey.
  - assert (wp sys_start_to_count_number_of_process_switches (fun _ s1 =>
      s1 = s <| k_tasks := k_tasks s1 |> /\ (p <> curr r -> k_tasks s1 !! p = k_tasks s !! p)) s) as H.
    { unfold sys_start_to_count_number_of_process_switches. apply wp_bind. eapply wp_current; [done|].
      destruct (k_tasks s !! curr r) as [x|] eqn:Hx.
      - eapply wp_set_task; [done|]. split; [done|]. intros. rsimpl. by rewrite lookup_insert_ne.
      - exfalso. revert E. unfold sys_start_to_count_number_of_process_switches, current, smp_processor_id, get,
          rq_of, set_task, task_of, mbind, M_bind, mret, M_ret. simpl. by rewrite Hr, Hx. }
    apply (wp_ok _ _ _ _ _ H) in E as [_ E]. rewrite E by congruence.
    rewrite Hc. simpl. by rewrite Z.add_0_r, wrapu_id.
  - apply (f_equal (lookup p)) in E. rewrite !lookup_fmap in E.
    destruct (k_tasks s !! p) as [x|], (k_tasks s' !! p) as [x'|]; simpl in *; try done.
    injection E as -> _ _. injection Hc as ->. by rewrite Z.add_0_r, wrapu_id.
Qed.

Lemma run_counter s es s' p c :
  run s es s' -> Start p ∉ es -> counter s p = Some c -> 0 <= c < 2 ^ 32 ->
  counter s' p = Some (u32 (c + switched_in p es)).
Proof using FL.
  intros Hrun. revert c. induction Hrun as [s|s e s1 es s' Hst _ IH]; intros c Hno Hc Hrange.
  - unfold switched_in. simpl. by rewrite Z.add_0_r, wrapu_id.
  - apply not_elem_of_cons in Hno as [Hne Hno].
    pose proof (step_counter _ _ _ _ _ Hst (not_eq_sym Hne) Hc Hrange) as H1.
    rewrite (IH _ Hno H1) by (apply wrapu_range; lia).
    unfold switched_in. cbn [fmap list_fmap]. rewrite Zsum_cons, wrapu_add_l. do 2 f_equal. lia.
Qed.

(** C2. [stop_to_count] returns the number of times the caller was switched to since
    its [start_to_count], modulo 2^32, over any history of all CPUs in between:
    other tasks' switches, scheduler calls that go on with the same task and
    other tasks' own counts do not matter. *)
Theorem stop_returns_switches s0 s1 r0 es s2 r2 :
  k_rqs s0 !! k_this_cpu s0 = Some r0 ->
  sys_start_to_count_number_of_process_switches s0 = Ok tt s1 ->
  run s1 es s2 -> Start (curr r0) ∉ es ->
  k_rqs s2 !! k_this_cpu s2 = Some r2 -> curr r2 = curr r0 ->
  sys_stop_to_count_number_of_process_switches s2 = Ok (u32 (switched_in (curr r0) es)) s2.
Proof using FL.
  intros Hr0 Hstart Hrun Hno Hr2 Hcur.
  assert (counter s1 (curr r0) = Some 0) as H1.
  { revert Hstart. unfold sys_start_to_count_number_of_process_switches, current, smp_processor_id, get,
      rq_of, set_task, put_task, modify, task_of, mbind, M_bind, mret, M_ret. simpl. rewrite Hr0.
    destruct (k_tasks s0 !! curr r0); [|done]. intros [= <-]. unfold counter. rsimpl. by rewrite lookup_insert_eq. }
  pose proof (run_counter _ _ _ _ _ Hrun Hno H1 ltac:(lia)) as H2.
  unfold counter in H2. apply fmap_Some in H2 as (t & Ht & E).
  unfold sys_stop_to_count_number_of_process_switches, current, smp_processor_id, get, rq_of, task_of, mbind, M_bind,
    mret, M_ret. simpl. rewrite Hr2, Hcur, Ht, <- E. done.
Qed.

(** ** Every switch is charged once on each side *)

Definition total_in (s : kstate) : Z := msum process_switches_count (k_tasks s).
Definition total_out (s : kstate) : Z := msum (fun t => nvcsw t + nivcsw t) (k_tasks s).
Definition total_switches (s : kstate) : Z := msum nr_switches (k_rqs s).

Definition no_start (es : list event) : Prop := forall p, Start p ∉ es.

Lemma msum_counts (h : Z * Z * Z -> Z) s' m :
  (forall q, counts <$> k_tasks s' !! q = counts <$> m !! q) ->
  msum (fun t => h (counts t)) (k_tasks s') = msum (fun t => h (counts t)) (m : gmap ptr task_struct).
Proof.
  intros H. rewrite <- !(msum_fmap h counts). f_equal. apply map_eq. intros q.
  rewrite !lookup_fmap. apply H.
Qed.

(** The counters after a call, as updates of the two maps. *)
Lemma charged_tasks preempt p prev next (m : gmap ptr task_struct) q :
  (fun t => counts (charged preempt p prev next q t)) <$> m !! q =
  counts <$> (if bool_decide (prev = next) then m
              else alter charge_in next (alter (charge_out (negb preempt && nz (t_state p))) prev m)) !! q.
Proof using.
  unfold charged. destruct (bool_decide (prev = next)); [done|].
  destruct (decide (q = next)) as [En|En]; destruct (decide (q = prev)) as [Ep|Ep];
    rewrite ?(bool_decide_eq_true_2 (q = next)), ?(bool_decide_eq_false_2 (q = next)),
      ?(bool_decide_eq_true_2 (q = prev)), ?(bool_decide_eq_false_2 (q = prev)) by done.
  - subst q. rewrite lookup_alter_eq. subst prev. rewrite lookup_alter_eq. by destruct (m !! next).
  - subst q. rewrite lookup_alter_eq, lookup_alter_ne by congruence. by destruct (m !! next).
  - rewrite lookup_alter_ne by congruence. subst q. rewrite lookup_alter_eq. by destruct (m !! prev).
  - rewrite !lookup_alter_ne by congruence. by destruct (m !! q).
Qed.

Lemma switched_rqs same next cpu (m m' : gmap Z rq) :
  (forall d, (fun r => (nr_switches r, curr r)) <$> m' !! d =
     (fun r => if bool_decide (d = cpu) then (if same : bool then nr_switches r else u64 (nr_switches r + 1), next)
               else (nr_switches r, curr r)) <$> m !! d) ->
  nr_switches <$> m' = nr_switches <$> (if same then m else alter (fun r => r <| nr_switches := u64 (nr_switches r + 1) |>) cpu m).
Proof using.
  intros H. apply map_eq. intros d. rewrite !lookup_fmap. specialize (H d). apply (f_equal (fmap fst)) in H.
  rewrite <- !option_fmap_compose in H. change (fst ∘ _) with nr_switches in H at 1. rewrite H.
  destruct same.
  - destruct (m !! d); [|done]. cbn. by case_bool_decide.
  - destruct (decide (d = cpu)) as [->|Hd]; [rewrite lookup_alter_eq|rewrite lookup_alter_ne by congruence].
    + rewrite bool_decide_eq_true_2 by done. by destruct (m !! cpu).
    + rewrite bool_decide_eq_false_2 by done. by destruct (m !! d).
Qed.

(** One call: nothing, or one more switch on the run queue, to [next] and from
    the previous task. *)
Lemma schedule_totals (K : SchedClassOps) (KL : SchedClassLaws K) preempt s s' r p :
  schedule_pre s r p -> __schedule preempt s = Ok tt s' ->
  exists d, u32 (total_in s') = u32 (total_in s + d)
    /\ u64 (total_out s') = u64 (total_out s + d) /\ u64 (total_switches s') = u64 (total_switches s + d).
Proof using FL.
  intros Hpre E. destruct (schedule_counts K KL preempt s s' r p Hpre E) as (next & [n Hn] & Hq & Hd).
  pose proof (pre_rq _ _ _ Hpre) as Hr. pose proof (pre_curr _ _ _ Hpre) as Hp.
  assert (Hm := fun q => eq_trans (Hq q) (charged_tasks preempt p (curr r) next (k_tasks s) q)).
  apply switched_rqs in Hd. clear Hq. unfold total_in, total_out, total_switches.
  set (vol := negb preempt && nz (t_state p)) in *. set (same := bool_decide (curr r = next)) in *.
  rewrite (msum_counts (fun x => x.1.1) s' _ Hm : msum process_switches_count (k_tasks s') = msum process_switches_count _).
  rewrite (msum_counts (fun x => x.1.2 + x.2) s' _ Hm :
    msum (fun t => nvcsw t + nivcsw t) (k_tasks s') = msum (fun t => nvcsw t + nivcsw t) _).
  rewrite (eq_sym (msum_fmap (fun x => x) nr_switches (k_rqs s')) : msum nr_switches (k_rqs s') = _), Hd, msum_fmap.
  exists (if same then 0 else 1). destruct same; [by rewrite !Z.add_0_r|].
  assert (exists n', alter (charge_out vol) (curr r) (k_tasks s) !! next = Some n'
    /\ process_switches_count n' = process_switches_count n) as (n' & Hn' & En').
  { destruct (decide (next = curr r)) as [->|Hne]; [rewrite lookup_alter_eq|rewrite lookup_alter_ne by done];
      rewrite Hn; eexists; (split; [done|]); [unfold charge_out; by destruct vol|done]. }
  rewrite !(msum_alter _ _ _ _ _ Hn'), !(msum_alter _ _ _ _ _ Hp), (msum_alter _ _ _ _ _ Hr), En'. split_and!.
  - assert (process_switches_count (charge_out vol p) = process_switches_count p) as -> by (unfold charge_out; by destruct vol).
    change (process_switches_count (charge_in n')) with (u32 (process_switches_count n' + 1)).
    rewrite En', wrapu_bump. f_equal. lia.
  - change (nvcsw (charge_in n')) with (nvcsw n'). change (nivcsw (charge_in n')) with (nivcsw n').
    set (a := msum _ _). unfold charge_out. destruct vol; rsimpl.
    + rewrite <- (wrapu_bump 64 a (nvcsw p)). f_equal. lia.
    + rewrite <- (wrapu_bump 64 a (nivcsw p)). f_equal. lia.
  - change (nr_switches (r <| nr_switches := ?x |>)) with x. apply wrapu_bump.
Qed.

(** C5. Context switches are accounted exactly once on each side: over any history
    without a new count, the number of switches of all run queues (what
    [Tick.nr_context_switches] sums) moves in step with the sum of the tasks'
    [process_switches_count], modulo 2^32, and with the sum of their voluntary
    and involuntary switches, modulo 2^64. *)
Theorem switches_conserved s es s' :
  run s es s' -> no_start es ->
  u32 (total_in s' - total_switches s') = u32 (total_in s - total_switches s)
  /\ u64 (total_out s' - sum_switches s') = u64 (total_out s - sum_switches s).
Proof using FL.
  intros Hrun. induction Hrun as [s|s e s1 es s' Hst _ IH]; intros Hno; [done|].
  destruct IH as [-> ->]; [intros p Hp; apply (Hno p), elem_of_cons; by right|].
  assert (forall a b x y d, u64 a = u64 (x + d) -> u64 b = u64 (y + d) -> u64 (a - u64 b) = u64 (x - u64 y)) as H64.
  { intros a b x y d Ha Hb. unfold wrapu in *. rewrite !Zminus_mod_idemp_r.
    rewrite Zminus_mod, Ha, Hb, <- Zminus_mod. f_equal. lia. }
  assert (forall a b x y d, u32 a = u32 (x + d) -> u64 b = u64 (y + d) -> u32 (a - b) = u32 (x - y)) as H32.
  { intros a b x y d Ha Hb. assert (u32 b = u32 (y + d)) as Hb'.
    { unfold wrapu in *. assert (forall z, z mod 2 ^ 32 = (z mod 2 ^ 64) mod 2 ^ 32) as Hz.
      { intros z. change (2 ^ 64) with (2 ^ 32 * 2 ^ 32). rewrite Z.rem_mul_r by lia.
        rewrite Z.mul_comm, Z.mod_add, Zmod_mod by lia. done. }
      rewrite (Hz b), Hb, <- Hz. done. }
    unfold wrapu in *. rewrite Zminus_mod, Ha, Hb', <- Zminus_mod. f_equal. lia. }
  destruct Hst as [K KL preempt s s1 r p r' Hpre E Hr'|s s1 r Hr E|s s1 [Et Er]].
  - destruct (schedule_totals K KL preempt s s1 r p Hpre E) as (d & E1 & E2 & E3). split; eauto.
  - exfalso. apply (Hno (curr r)), elem_of_cons. by left.
  - assert (total_in s1 = total_in s /\ total_out s1 = total_out s /\ total_switches s1 = total_switches s) as (-> & -> & E3).
    { unfold total_in, total_out, total_switches. split_and!.
      - pose proof (msum_fmap (fun x => x.1.1) counts (k_tasks s1)) as H. by rewrite Et, msum_fmap in H.
      - pose proof (msum_fmap (fun x => x.1.2 + x.2) counts (k_tasks s1)) as H. by rewrite Et, msum_fmap in H.
      - pose proof (msum_fmap (fun x => x.1) (fun r => (nr_switches r, curr r)) (k_rqs s1)) as H.
        by rewrite Er, msum_fmap in H. }
    unfold sum_switches. fold (total_switches s1) (total_switches s). by rewrite E3.
Qed.
End History.

(** ** A history on the small machine

    Task 2 starts a count, task 3 runs, task 2 runs again. *)

Definition h1 : kstate := exec sys_start_to_count_number_of_process_switches machine.
Definition h2 : kstate := exec (__schedule (K := choosing 3%positive) false) h1.
Definition h3 : kstate := exec (__schedule (K := choosing 2%positive) true) h2.
Definition demo_events : list event :=
  [Switch 2%positive 3%positive; Switch 3%positive 2%positive].

(** A step by computation. *)
Lemma demo_step choice preempt s prev next :
  pre_b s = true ->
  curr <$> k_rqs s !! k_this_cpu s = Some prev ->
  curr <$> k_rqs (exec (__schedule (K := choosing choice) preempt) s) !! k_this_cpu s = Some next ->
  step s (Switch prev next) (exec (__schedule (K := choosing choice) preempt) s).
Proof.
  intros Hb H1 H2. apply fmap_Some in H1 as (r & Hr & ->). apply fmap_Some in H2 as (r' & Hr' & ->).
  assert (exists p, k_tasks s !! curr r = Some p) as [p Hp].
  { unfold pre_b in Hb. rewrite Hr in Hb. destruct (k_tasks s !! curr r); [eauto|done]. }
  pose proof (pre_b_ok s r p Hr Hp Hb) as Hpre.
  destruct (schedule_correct (K := choosing choice) preempt s r p Hpre) as (n & x & s' & E & _).
  apply (step_schedule (choosing choice) _ preempt s _ r p r'); [done| |done].
  unfold exec. by rewrite E.
Qed.

Lemma demo_run : run h1 demo_events h3.
Proof.
  eapply run_cons; [apply (demo_step 3%positive false); vm_compute; reflexivity|].
  eapply run_cons; [apply (demo_step 2%positive true); vm_compute; reflexivity|]. apply run_nil.
Qed.

Lemma stop_returns_switches_witness :
  sys_stop_to_count_number_of_process_switches h3 = Ok (u32 (switched_in 2%positive demo_events)) h3
  /\ u32 (switched_in 2%positive demo_events) = 1.
Proof.
  split; [|vm_compute; reflexivity].
  destruct (k_rqs h3 !! k_this_cpu h3) as [r2|] eqn:Hr2; [|vm_compute in Hr2; discriminate Hr2].
  apply (stop_returns_switches machine h1 machine_rq demo_events h3 r2).
  - vm_compute. reflexivity.
  - vm_compute. reflexivity.
  - exact demo_run.
  - apply (bool_decide_unpack _). vm_compute. exact I.
  - exact Hr2.
  - vm_compute in Hr2. injection Hr2 as <-. vm_compute. reflexivity.
Defined.

Lemma switches_conserved_witness :
  u32 (total_in h3 - total_switches h3) = u32 (total_in h1 - total_switches h1)
  /\ u64 (total_out h3 - sum_switches h3) = u64 (total_out h1 - sum_switches h1)
  /\ total_switches h3 = 2.
Proof.
  assert (u32 (total_in h3 - total_switches h3) = u32 (total_in h1 - total_switches h1)
    /\ u64 (total_out h3 - sum_switches h3) = u64 (total_out h1 - sum_switches h1)) as [H1 H2].
  { apply (switches_conserved h1 demo_events h3 demo_run).
    intros p. unfold demo_events. intros [H|[H|H]%elem_of_cons]%elem_of_cons; [done|done|]. by apply elem_of_nil in H. }
  split; [exact H1|]. split; [exact H2|]. vm_compute. reflexivity.
Defined.
