(* ===== verification/Setprio.v ===== *)
(** * Setprio: changing priorities and policies (core.c)

    Locking a task's run queue, [set_user_nice], [sys_nice], priority
    inheritance ([rt_mutex_setprio]) and [__sched_setscheduler] with the
    functions in front of it.  Credentials, resource limits, the deadline
    class's parameter checks and the security hooks are an interface. *)

From S2P Require Import Prelude Task KernelApi Prio Rq RqClock Uclamp State Sched.

(** What the code asks of other parts of the kernel. *)
Class SetprioEnv := {
  rlimit_nice : ptr -> Z;
  rlimit_rtprio : ptr -> Z;
  capable_sys_nice : bool;
  cred_euid : Z;
  task_euid : ptr -> Z;
  task_uid : ptr -> Z;
  security_task_setnice : ptr -> Z -> Z;
  security_task_setscheduler : ptr -> Z;
  in_interrupt : bool;
  reweight_task : task_struct -> Z -> task_struct;
  __checkparam_dl : sched_attr -> bool;
  __setparam_dl : sched_attr -> task_struct -> task_struct;
  dl_param_changed : task_struct -> sched_attr -> bool;
  dl_entity_preempt : task_struct -> task_struct -> bool;
  sched_dl_overflow : ptr -> Z -> sched_attr -> kstate -> kstate * bool;
  rt_mutex_adjust_pi : ptr -> kstate -> kstate;
  CONFIG_RT_GROUP_SCHED : bool;
  rt_bandwidth_enabled : bool;
  tg_rt_runtime : ptr -> Z;
  dl_bandwidth_enabled : bool;
  rd_span : Z -> gset Z;
  rd_dl_bw : Z -> Z;
  find_task_by_vpid : kstate -> Z -> option ptr;
  security_task_getscheduler : ptr -> Z;
  __getparam_dl : task_struct -> sched_attr -> sched_attr;
  SCHED_ATTR_SIZE_VER0 : Z;
  SCHED_ATTR_SIZE_VER1 : Z;
  sizeof_sched_attr : Z;
  PAGE_SIZE : Z
}.

(** What a user pointer to a [struct sched_attr] gives: reading its size field
    ([None] when the page is not there), copying [n] bytes of it (an error or
    the structure), whether a range is the user's and whether a copy of [n]
    bytes to it succeeds. *)
Record user_attr := mk_user_attr {
  ua_get_size : option Z;
  ua_copy_in : Z -> Z + sched_attr;
  ua_access_ok : Z -> bool;
  ua_copy_out : Z -> bool
}.

Section Setprio.
Context {P : PrioApi} {Y : PolicyApi} {U : UclampApi} {A : AttrFlagApi} {F : FlagApi} {C : ClockConfig}
  {K : SchedClassOps} {V : SetprioEnv}.

(** ** Locking *)

(** Only another CPU can end the wait for a migrating task. *)
Definition __task_rq_lock (p : ptr) : M Z :=
  t ← task_of p;
  let cpu := task_cpu t in
  lock_rq cpu;;
  t ← task_of p;
  if (cpu =? task_cpu t) && negb (task_on_rq_migrating t) then mret cpu
  else unlock_rq cpu;; hang.

Definition task_rq_lock (p : ptr) : M Z :=
  lock_pi p;;
  t ← task_of p;
  let cpu := task_cpu t in
  lock_rq cpu;;
  t ← task_of p;
  if (cpu =? task_cpu t) && negb (task_on_rq_migrating t) then mret cpu
  else unlock_rq cpu;; unlock_pi p;; hang.

Definition task_rq_unlock (cpu : Z) (p : ptr) : M unit := unlock_rq cpu;; unlock_pi p.

Definition set_next_task (cpu : Z) (p : ptr) : M unit :=
  t ← task_of p;
  modify (op_set_next_task (t_sched_class t) cpu p).

Definition task_current (cpu : Z) (p : ptr) : M bool :=
  r ← rq_of cpu;
  mret (bool_decide (curr r = p)).

Definition set_load_weight_of (p : ptr) : M unit :=
  t ← task_of p;
  t ← lift_option (set_load_weight reweight_task t true);
  put_task p t.

(** ** Nice levels *)

(** The part of [set_user_nice] between taking and releasing the locks. *)
Definition set_user_nice_locked (cpu : Z) (p : ptr) (nice : Z) : M unit :=
  t ← task_of p;
  if task_has_dl_policy t || task_has_rt_policy t
  then set_task p (fun t => t <| static_prio := NICE_TO_PRIO nice |>)
  else
    let queued := task_on_rq_queued t in
    running ← task_current cpu p;
    when queued (dequeue_task cpu p (Z.lor DEQUEUE_SAVE DEQUEUE_NOCLOCK));;
    when running (put_prev_task cpu p);;
    set_task p (fun t => t <| static_prio := NICE_TO_PRIO nice |>);;
    set_load_weight_of p;;
    t ← task_of p;
    let old_prio := prio t in
    set_task p (fun t => let '(t, pr) := effective_prio t in t <| prio := pr |>);;
    when queued (enqueue_task cpu p (Z.lor ENQUEUE_RESTORE ENQUEUE_NOCLOCK));;
    when running (set_next_task cpu p);;
    t ← task_of p;
    modify (op_prio_changed (t_sched_class t) cpu p old_prio).

Definition set_user_nice (p : ptr) (nice : Z) : M unit :=
  t ← task_of p;
  if (task_nice t =? nice) || (nice <? MIN_NICE) || (MAX_NICE <? nice) then mret tt
  else
    cpu ← task_rq_lock p;
    update_clock cpu;;
    set_user_nice_locked cpu p nice;;
    task_rq_unlock cpu p.

(** C's [clamp]. *)
Definition clamp (x lo hi : Z) : Z := Z.min (Z.max x lo) hi.

Definition sys_nice (increment : Z) : M Z :=
  let increment := clamp increment (- NICE_WIDTH) NICE_WIDTH in
  p ← current;
  t ← task_of p;
  let nice := clamp (task_nice t + increment) MIN_NICE MAX_NICE in
  if (increment <? 0) && negb (can_nice (rlimit_nice p) capable_sys_nice nice) then mret (- EPERM)
  else
    let retval := security_task_setnice p nice in
    if nz retval then mret retval
    else set_user_nice p nice;; mret 0.

(** ** Priority inheritance *)

(** The class a priority belongs to. *)
Definition class_of_prio (prio : Z) : sched_class :=
  if dl_prio prio then dl_sched_class
  else if rt_prio prio then rt_sched_class
  else fair_sched_class.

Definition set_dl_boosted (b : bool) (t : task_struct) : task_struct :=
  t <| t_dl := (t_dl t) <| dl_boosted := b |> |>.

(** The middle of [rt_mutex_setprio]: flags of the new queueing and the task
    with its boosting flags and class. *)
Definition setprio_class (t : task_struct) (pi_task : option task_struct) (prio oldprio queue_flag : Z)
    : task_struct * Z :=
  if dl_prio prio then
    if negb (dl_prio (normal_prio t)) ||
       match pi_task with
       | Some w => dl_prio (Task.prio w) && dl_entity_preempt w t
       | None => false
       end
    then ((set_dl_boosted true t) <| t_sched_class := dl_sched_class |>, Z.lor queue_flag ENQUEUE_REPLENISH)
    else ((set_dl_boosted false t) <| t_sched_class := dl_sched_class |>, queue_flag)
  else if rt_prio prio then
    let t := if dl_prio oldprio then set_dl_boosted false t else t in
    (t <| t_sched_class := rt_sched_class |>,
     if oldprio <? prio then Z.lor queue_flag ENQUEUE_HEAD else queue_flag)
  else
    let t := if dl_prio oldprio then set_dl_boosted false t else t in
    let t := if rt_prio oldprio then t <| t_rt := (t_rt t) <| rt_timeout := 0 |> |> else t in
    (t <| t_sched_class := fair_sched_class |>, queue_flag).

(** A pointer that may be NULL. *)
Definition task_opt (o : option ptr) : M (option task_struct) :=
  match o with
  | Some p => t ← task_of p; mret (Some t)
  | None => mret None
  end.

(** The part of [rt_mutex_setprio] that changes the class and the priority. *)
Definition setprio_requeue (cpu : Z) (p : ptr) (pi_task : option ptr) (prio : Z) : M unit :=
  t ← task_of p;
  let oldprio := Task.prio t in
  let queue_flag := Z.lor (Z.lor DEQUEUE_SAVE DEQUEUE_MOVE) DEQUEUE_NOCLOCK in
  let queue_flag := if oldprio =? prio then andnot queue_flag DEQUEUE_MOVE else queue_flag in
  let prev_class := t_sched_class t in
  let queued := task_on_rq_queued t in
  running ← task_current cpu p;
  when queued (dequeue_task cpu p queue_flag);;
  when running (put_prev_task cpu p);;
  t ← task_of p;
  w ← task_opt pi_task;
  let '(t, queue_flag) := setprio_class t w prio oldprio queue_flag in
  put_task p (t <| Task.prio := prio |>);;
  when queued (enqueue_task cpu p queue_flag);;
  when running (set_next_task cpu p);;
  check_class_changed cpu p prev_class oldprio.

Definition rt_mutex_setprio (p : ptr) (pi_task : option ptr) : M unit :=
  t ← task_of p;
  w ← task_opt pi_task;
  let prio := __rt_effective_prio w (normal_prio t) in
  if bool_decide (pi_top_task t = pi_task) && (prio =? Task.prio t) && negb (dl_prio prio) then mret tt
  else
    cpu ← __task_rq_lock p;
    update_clock cpu;;
    set_task p (fun t => t <| pi_top_task := pi_task |>);;
    t ← task_of p;
    r ← rq_of cpu;
    when (negb ((prio =? Task.prio t) && negb (dl_prio prio)) && negb (bool_decide (p = idle r)))
      (setprio_requeue cpu p pi_task prio);;
    preempt_disable;;
    unlock_rq cpu;;
    balance_callback cpu;;
    preempt_enable_no_resched.

(** [rt_effective_prio]; [pi_top_task] is what [rt_mutex_get_top_task] returns. *)
Definition rt_effective_prio (t : task_struct) (prio : Z) : M Z :=
  w ← task_opt (pi_top_task t);
  mret (__rt_effective_prio w prio).

(** ** Scheduling policies *)

Definition SETPARAM_POLICY : Z := -1.

Definition find_process_by_pid (pid : Z) : M (option ptr) :=
  if nz pid then s ← get; mret (find_task_by_vpid s pid)
  else p ← current; mret (Some p).

Definition check_same_owner (p : ptr) : bool :=
  (cred_euid =? task_euid p) || (cred_euid =? task_uid p).

(** [attr->sched_policy] is unsigned; the code works with it as an [int]. *)
Definition attr_policy (attr : sched_attr) : Z := s32 (sched_policy attr).

Definition __setscheduler_params (p : ptr) (attr : sched_attr) : M unit :=
  t ← task_of p;
  let policy := attr_policy attr in
  let policy := if policy =? SETPARAM_POLICY then Task.policy t else policy in
  let t := t <| Task.policy := policy |> in
  let t := if dl_policy policy then __setparam_dl attr t
           else if fair_policy policy then t <| static_prio := NICE_TO_PRIO (sched_nice attr) |>
           else t in
  let t := t <| rt_priority := sched_priority attr |> in
  let t := t <| normal_prio := normal_prio_of t |> in
  put_task p t;;
  set_load_weight_of p.

Definition __setscheduler (p : ptr) (attr : sched_attr) (keep_boost : bool) : M unit :=
  if has (sched_flags attr) SCHED_FLAG_KEEP_PARAMS then mret tt
  else
    __setscheduler_params p attr;;
    t ← task_of p;
    let t := t <| prio := normal_prio_of t |> in
    pr ← (if keep_boost then rt_effective_prio t (prio t) else mret (prio t));
    put_task p (t <| prio := pr |> <| t_sched_class := class_of_prio pr |>).

(** The checks before any lock is taken: 0 or an error. *)
Definition setscheduler_check (p : ptr) (t : task_struct) (attr : sched_attr) (user : bool)
    (policy : Z) (reset_on_fork : bool) : Z :=
  if nz (andnot (sched_flags attr) (Z.lor SCHED_FLAG_ALL SCHED_FLAG_SUGOV)) then - EINVAL
  else if (bool_decide (is_Some (mm t)) && (MAX_USER_RT_PRIO - 1 <? sched_priority attr))
       || (negb (bool_decide (is_Some (mm t))) && (MAX_RT_PRIO - 1 <? sched_priority attr)) then - EINVAL
  else if (dl_policy policy && negb (__checkparam_dl attr))
       || negb (Bool.eqb (rt_policy policy) (nz (sched_priority attr))) then - EINVAL
  else if user && negb capable_sys_nice && fair_policy policy && (sched_nice attr <? task_nice t)
       && negb (can_nice (rlimit_nice p) capable_sys_nice (sched_nice attr)) then - EPERM
  else if user && negb capable_sys_nice && rt_policy policy
       && negb (policy =? Task.policy t) && negb (nz (rlimit_rtprio p)) then - EPERM
  else if user && negb capable_sys_nice && rt_policy policy
       && (rt_priority t <? sched_priority attr) && (rlimit_rtprio p <? sched_priority attr) then - EPERM
  else if user && negb capable_sys_nice && dl_policy policy then - EPERM
  else if user && negb capable_sys_nice && task_has_idle_policy t && negb (idle_policy policy)
       && negb (can_nice (rlimit_nice p) capable_sys_nice (task_nice t)) then - EPERM
  else if user && negb capable_sys_nice && negb (check_same_owner p) then - EPERM
  else if user && negb capable_sys_nice && sched_reset_on_fork t && negb reset_on_fork then - EPERM
  else if user && has (sched_flags attr) SCHED_FLAG_SUGOV then - EINVAL
  else if user && nz (security_task_setscheduler p) then security_task_setscheduler p
  else if has (sched_flags attr) SCHED_FLAG_UTIL_CLAMP then uclamp_validate t attr
  else 0.

Definition cpuset_read_lock : M unit := modify (fun s => s <| k_cpuset := k_cpuset s + 1 |>).
Definition cpuset_read_unlock : M unit := modify (fun s => s <| k_cpuset := k_cpuset s - 1 |>).

(** Does the request leave the parameters as they are? *)
Definition setscheduler_nochange (t : task_struct) (attr : sched_attr) (policy : Z) : bool :=
  (policy =? Task.policy t)
  && negb (fair_policy policy && negb (sched_nice attr =? task_nice t))
  && negb (rt_policy policy && negb (sched_priority attr =? rt_priority t))
  && negb (dl_policy policy && dl_param_changed t attr)
  && negb (has (sched_flags attr) SCHED_FLAG_UTIL_CLAMP).

(** The admission tests for user requests, with the run queue locked. *)
Definition setscheduler_admit (s : kstate) (cpu : Z) (p : ptr) (t : task_struct) (attr : sched_attr)
    (policy : Z) : bool :=
  negb (CONFIG_RT_GROUP_SCHED && rt_bandwidth_enabled && rt_policy policy && (tg_rt_runtime p =? 0)
        && negb (tg_is_autogroup (group_of s p)))
  && negb (dl_bandwidth_enabled && dl_policy policy && negb (has (sched_flags attr) SCHED_FLAG_SUGOV)
           && (negb (bool_decide (rd_span cpu ⊆ cpus_mask t)) || (rd_dl_bw cpu =? 0))).

(** The change itself: requeue around [__setscheduler]. *)
Definition setscheduler_change (cpu : Z) (p : ptr) (attr : sched_attr) (reset_on_fork pi : bool) : M unit :=
  t ← task_of p;
  let newprio := if dl_policy (attr_policy attr) then MAX_DL_PRIO - 1
                 else s32 (u32 (MAX_RT_PRIO - 1 - sched_priority attr)) in
  put_task p (t <| sched_reset_on_fork := reset_on_fork |>);;
  let oldprio := prio t in
  let queue_flags := Z.lor (Z.lor DEQUEUE_SAVE DEQUEUE_MOVE) DEQUEUE_NOCLOCK in
  new_effective_prio ← (if pi then rt_effective_prio t newprio else mret newprio);
  let queue_flags := if pi && (new_effective_prio =? oldprio)
                     then andnot queue_flags DEQUEUE_MOVE else queue_flags in
  let queued := task_on_rq_queued t in
  running ← task_current cpu p;
  when queued (dequeue_task cpu p queue_flags);;
  when running (put_prev_task cpu p);;
  t ← task_of p;
  let prev_class := t_sched_class t in
  __setscheduler p attr pi;;
  set_task p (fun t => __setscheduler_uclamp t attr);;
  t ← task_of p;
  when queued (enqueue_task cpu p (if oldprio <? prio t then Z.lor queue_flags ENQUEUE_HEAD else queue_flags));;
  when running (set_next_task cpu p);;
  check_class_changed cpu p prev_class oldprio.

Definition setscheduler_unlock (cpu : Z) (p : ptr) (pi : bool) (retval : Z) : M Z :=
  task_rq_unlock cpu p;;
  when pi cpuset_read_unlock;;
  mret retval.

(** The part between taking and releasing the locks; [recheck] is the jump back. *)
Definition setscheduler_locked (recheck : M Z) (cpu : Z) (p : ptr) (attr : sched_attr) (user pi : bool)
    (policy oldpolicy : Z) (reset_on_fork : bool) : M Z :=
  s ← get;
  r ← rq_of cpu;
  t ← task_of p;
  if bool_decide (stop r = Some p) then setscheduler_unlock cpu p pi (- EINVAL)
  else if setscheduler_nochange t attr policy then
    put_task p (t <| sched_reset_on_fork := reset_on_fork |>);;
    setscheduler_unlock cpu p pi 0
  else if user && negb (setscheduler_admit s cpu p t attr policy) then
    setscheduler_unlock cpu p pi (- EPERM)
  else if negb (oldpolicy =? -1) && negb (oldpolicy =? Task.policy t) then
    task_rq_unlock cpu p;;
    when pi cpuset_read_unlock;;
    recheck
  else
    overflow ← (if dl_policy policy || dl_task t
                then s ← get; let '(s', b) := sched_dl_overflow p policy attr s in
                     modify (fun _ => s');; mret b
                else mret false);
    if overflow : bool then setscheduler_unlock cpu p pi (- EBUSY)
    else
      setscheduler_change cpu p attr reset_on_fork pi;;
      preempt_disable;;
      task_rq_unlock cpu p;;
      when pi (cpuset_read_unlock;; modify (rt_mutex_adjust_pi p));;
      balance_callback cpu;;
      preempt_enable_no_resched;;
      mret 0.

(** [fuel] bounds the jumps back to [recheck], which need another CPU to change
    the task's policy in between. *)
Fixpoint __sched_setscheduler_loop (fuel : nat) (p : ptr) (attr : sched_attr) (user pi : bool)
    (policy oldpolicy : Z) : M Z :=
  match fuel with
  | O => hang
  | S fuel =>
      t ← task_of p;
      let reset_on_fork := if policy <? 0 then sched_reset_on_fork t
                           else has (sched_flags attr) SCHED_FLAG_RESET_ON_FORK in
      let oldpolicy := if policy <? 0 then Task.policy t else oldpolicy in
      let invalid := negb (policy <? 0) && negb (valid_policy policy) in
      let policy := if policy <? 0 then Task.policy t else policy in
      let retval := if invalid then - EINVAL else setscheduler_check p t attr user policy reset_on_fork in
      if nz retval then mret retval
      else
        when pi cpuset_read_lock;;
        cpu ← task_rq_lock p;
        update_clock cpu;;
        setscheduler_locked (__sched_setscheduler_loop fuel p attr user pi (-1) (-1)) cpu p attr user pi
          policy oldpolicy reset_on_fork
  end.

Definition __sched_setscheduler (fuel : nat) (p : ptr) (attr : sched_attr) (user pi : bool) : M Z :=
  if pi && in_interrupt then bug
  else __sched_setscheduler_loop fuel p attr user pi (attr_policy attr) (-1).

(** [struct sched_param] has one field, the priority. *)
Definition _sched_setscheduler (fuel : nat) (p : ptr) (policy sched_priority : Z) (check : bool) : M Z :=
  t ← task_of p;
  let attr := mk_sched_attr (u32 policy) 0 (PRIO_TO_NICE (static_prio t)) (u32 sched_priority) 0 0 0 0 0 in
  let attr := if negb (policy =? SETPARAM_POLICY) && has policy SCHED_RESET_ON_FORK
    then attr <| sched_flags := Z.lor (sched_flags attr) SCHED_FLAG_RESET_ON_FORK |>
              <| sched_policy := u32 (andnot policy SCHED_RESET_ON_FORK) |>
    else attr in
  __sched_setscheduler fuel p attr check true.

Definition sched_setscheduler (fuel : nat) (p : ptr) (policy prio : Z) : M Z :=
  _sched_setscheduler fuel p policy prio true.
Definition sched_setscheduler_nocheck (fuel : nat) (p : ptr) (policy prio : Z) : M Z :=
  _sched_setscheduler fuel p policy prio false.
Definition sched_setattr (fuel : nat) (p : ptr) (attr : sched_attr) : M Z :=
  __sched_setscheduler fuel p attr true true.
Definition sched_setattr_nocheck (fuel : nat) (p : ptr) (attr : sched_attr) : M Z :=
  __sched_setscheduler fuel p attr false true.

(** [param] is the result of copying the user's structure: [None] when the pointer
    is NULL, [Some None] when the copy faults. *)
Definition do_sched_setscheduler (fuel : nat) (pid policy : Z) (param : option (option Z)) : M Z :=
  match param with
  | None => mret (- EINVAL)
  | Some copied =>
      if pid <? 0 then mret (- EINVAL)
      else match copied with
      | None => mret (- EFAULT)
      | Some lparam =>
          o ← find_process_by_pid pid;
          match o with
          | None => mret (- ESRCH)
          | Some p =>
              set_task p (fun t => t <| usage := usage t + 1 |>);;
              retval ← sched_setscheduler fuel p policy lparam;
              set_task p (fun t => t <| usage := usage t - 1 |>);;
              mret retval
          end
      end
  end.

Definition sys_sched_setscheduler (fuel : nat) (pid policy : Z) (param : option (option Z)) : M Z :=
  if policy <? 0 then mret (- EINVAL) else do_sched_setscheduler fuel pid policy param.

Definition sys_sched_setparam (fuel : nat) (pid : Z) (param : option (option Z)) : M Z :=
  do_sched_setscheduler fuel pid SETPARAM_POLICY param.

(** [sched_copy_attr]: the error or the attributes. *)
Definition sched_copy_attr (uattr : user_attr) : Z + sched_attr :=
  match ua_get_size uattr with
  | None => inl (- EFAULT)
  | Some size =>
      let size := if negb (nz size) then SCHED_ATTR_SIZE_VER0 else size in
      if (size <? SCHED_ATTR_SIZE_VER0) || (PAGE_SIZE <? size) then inl (- E2BIG)
      else match ua_copy_in uattr size with
      | inl ret => inl ret
      | inr attr =>
          if has (sched_flags attr) SCHED_FLAG_UTIL_CLAMP && (size <? SCHED_ATTR_SIZE_VER1)
          then inl (- EINVAL)
          else inr (attr <| sched_nice := clamp (sched_nice attr) MIN_NICE MAX_NICE |>)
      end
  end.

Definition sys_sched_setattr (fuel : nat) (pid : Z) (uattr : option user_attr) (flags : Z) : M Z :=
  match uattr with
  | None => mret (- EINVAL)
  | Some uattr =>
      if (pid <? 0) || nz flags then mret (- EINVAL)
      else match sched_copy_attr uattr with
      | inl retval => mret retval
      | inr attr =>
          if s32 (sched_policy attr) <? 0 then mret (- EINVAL)
          else
            let attr := if has (sched_flags attr) SCHED_FLAG_KEEP_POLICY
                        then attr <| sched_policy := u32 SETPARAM_POLICY |> else attr in
            o ← find_process_by_pid pid;
            match o with
            | None => mret (- ESRCH)
            | Some p =>
                set_task p (fun t => t <| usage := usage t + 1 |>);;
                retval ← sched_setattr fuel p attr;
                set_task p (fun t => t <| usage := usage t - 1 |>);;
                mret retval
            end
      end
  end.

(** ** Reading the policy back *)

Definition sys_sched_getscheduler (pid : Z) : M Z :=
  if pid <? 0 then mret (- EINVAL)
  else
    o ← find_process_by_pid pid;
    match o with
    | None => mret (- ESRCH)
    | Some p =>
        let retval := security_task_getscheduler p in
        if nz retval then mret retval
        else
          t ← task_of p;
          mret (Z.lor (Task.policy t) (if sched_reset_on_fork t then SCHED_RESET_ON_FORK else 0))
    end.

(** The result and the priority written to the user's structure, if any;
    [param] is [None] for NULL, else whether the copy to it succeeds. *)
Definition sys_sched_getparam (pid : Z) (param : option bool) : M (Z * option Z) :=
  match param with
  | None => mret (- EINVAL, None)
  | Some copy_ok =>
      if pid <? 0 then mret (- EINVAL, None)
      else
        o ← find_process_by_pid pid;
        match o with
        | None => mret (- ESRCH, None)
        | Some p =>
            let retval := security_task_getscheduler p in
            if nz retval then mret (retval, None)
            else
              t ← task_of p;
              let lp := if task_has_rt_policy t then rt_priority t else 0 in
              mret (if copy_ok : bool then (0, Some lp) else (- EFAULT, None))
        end
  end.

(** The result and what is written: the attributes and how many bytes of them,
    which is also the size field. *)
Definition sched_attr_copy_to_user (uattr : user_attr) (kattr : sched_attr) (usize : Z)
    : Z * option (sched_attr * Z) :=
  if negb (ua_access_ok uattr usize) then (- EFAULT, None)
  else
    let size := Z.min usize sizeof_sched_attr in
    if negb (ua_copy_out uattr size) then (- EFAULT, None) else (0, Some (kattr, size)).

(** The attributes [sys_sched_getattr] reports of a task. *)
Definition getattr_of (t : task_struct) : sched_attr :=
  let kattr := mk_sched_attr (u32 (Task.policy t)) 0 0 0 0 0 0 0 0 in
  let kattr := if sched_reset_on_fork t
    then kattr <| sched_flags := Z.lor (sched_flags kattr) SCHED_FLAG_RESET_ON_FORK |> else kattr in
  let kattr := if task_has_dl_policy t then __getparam_dl t kattr
    else if task_has_rt_policy t then kattr <| sched_priority := rt_priority t |>
    else kattr <| sched_nice := task_nice t |> in
  kattr <| sched_util_min := uc_value (uclamp_req t UCLAMP_MIN) |>
        <| sched_util_max := uc_value (uclamp_req t UCLAMP_MAX) |>.

Definition sys_sched_getattr (pid : Z) (uattr : option user_attr) (usize flags : Z)
    : M (Z * option (sched_attr * Z)) :=
  match uattr with
  | None => mret (- EINVAL, None)
  | Some uattr =>
      if (pid <? 0) || (PAGE_SIZE <? usize) || (usize <? SCHED_ATTR_SIZE_VER0) || nz flags
      then mret (- EINVAL, None)
      else
        o ← find_process_by_pid pid;
        match o with
        | None => mret (- ESRCH, None)
        | Some p =>
            let retval := security_task_getscheduler p in
            if nz retval then mret (retval, None)
            else t ← task_of p; mret (sched_attr_copy_to_user uattr (getattr_of t) usize)
        end
  end.
End Setprio.
