(* ===== verification/Views.v ===== *)
(** * Views: calls that leave a part of the state alone

  A view of the state is a value read off every task and a value read off every
    run queue, with a relation that holds between states of the same values.
    [quiet] calls keep the relation; the locks, the clocks and the marking of tasks
    are quiet for every view that does not look at them, and so are [enqueue_task]
    and [dequeue_task] up to their call of the class. *)

From S2P Require Import Prelude Task KernelApi Prio Rq RqClock Uclamp.
From S2P Require Import State Sched SchedFacts Setprio.

(** What the views here do not look at: locks, clocks, the need-resched flag. *)
Class View {T W : Type} (ft : task_struct -> T) (fr : rq -> W) (R : relation kstate) : Prop := {
  view_preorder :: PreOrder R;
  view_task s s' p t t' : k_tasks s !! p = Some t -> ft t' = ft t ->
    k_tasks s' = <[p := t']> (k_tasks s) -> k_rqs s' = k_rqs s -> k_online s' = k_online s -> R s s';
  view_rq s s' c r r' : k_rqs s !! c = Some r -> fr r' = fr r ->
    k_tasks s' = k_tasks s -> k_rqs s' = <[c := r']> (k_rqs s) -> k_online s' = k_online s -> R s s';
  view_same s s' : k_tasks s' = k_tasks s -> k_rqs s' = k_rqs s -> k_online s' = k_online s -> R s s';
  view_pi_lock t b : ft (t <| pi_lock := b |>) = ft t;
  view_need_resched {F : FlagApi} t : ft (set_tsk_need_resched t) = ft t;
  view_rq_lock r b : fr (r <| rq_lock := b |>) = fr r;
  view_clock {F : FlagApi} {C : ClockConfig} c r : fr (update_rq_clock c r) = fr r
}.

(** And the clamps of tasks and run queues. *)
Class ClampBlind {T W : Type} {U : UclampApi} (ft : task_struct -> T) (fr : rq -> W) : Prop := {
  blind_task t id u : ft (set_uclamp t id u) = ft t;
  blind_rq r id u : fr (set_rq_uclamp r id u) = fr r;
  blind_flags r v : fr (r <| uclamp_flags := v |>) = fr r
}.

Definition quiet (R : relation kstate) {X} (m : M X) : Prop := forall s a s', m s = Ok a s' -> R s s'.

Section Quiet.
Context {T W : Type} {ft : task_struct -> T} {fr : rq -> W} {R : relation kstate} {VR : View ft fr R}.

Lemma quiet_bind {X X'} (m : M X) (f : X -> M X') : quiet R m -> (forall a, quiet R (f a)) -> quiet R (m ≫= f).
Proof using VR.
  intros Hm Hf s a s' (b & s1 & E1 & E2)%bind_inv. transitivity s1; [by eapply Hm|by eapply Hf].
Qed.
Lemma quiet_pure {X} (m : M X) : (forall s a s', m s = Ok a s' -> s' = s) -> quiet R m.
Proof using VR. intros H s a s' E. by rewrite (H _ _ _ E). Qed.
Lemma quiet_ret {X} (a : X) : quiet R (mret a).
Proof using VR. apply quiet_pure. by intros s b s' [= _ <-]. Qed.
Lemma quiet_get : quiet R get.
Proof using VR. apply quiet_pure. by intros s b s' [= _ <-]. Qed.
Lemma quiet_bug {X} : quiet R (bug (A := X)).
Proof. done. Qed.
Lemma quiet_hang {X} : quiet R (hang (A := X)).
Proof. done. Qed.
Lemma quiet_rq_of c : quiet R (rq_of c).
Proof using VR. apply quiet_pure. by intros s a s' [-> _]%rq_of_inv. Qed.
Lemma quiet_task_of p : quiet R (task_of p).
Proof using VR. apply quiet_pure. by intros s a s' [-> _]%task_of_inv. Qed.
Lemma quiet_when b m : quiet R m -> quiet R (when b m).
Proof using VR. intros Hm. destruct b; [exact Hm|apply quiet_ret]. Qed.
Lemma quiet_modify f : (forall s, R s (f s)) -> quiet R (modify f).
Proof. intros Hf s a s' [= _ <-]. apply Hf. Qed.
Lemma quiet_fields f : (forall s, k_tasks (f s) = k_tasks s /\ k_rqs (f s) = k_rqs s /\ k_online (f s) = k_online s) -> quiet R (modify f).
Proof using VR. intros Hf. apply quiet_modify. intros s. by apply view_same; apply Hf. Qed.

Lemma quiet_set_task p f : (forall t, ft (f t) = ft t) -> quiet R (set_task p f).
Proof using VR.
  intros Hf s a s'. unfold set_task. intros (t & ? & [-> Ht]%task_of_inv & [= _ <-])%bind_inv.
  by apply (view_task _ _ p t (f t)).
Qed.
Lemma quiet_set_rq c f : (forall r, fr (f r) = fr r) -> quiet R (set_rq c f).
Proof using VR.
  intros Hf s a s'. unfold set_rq. intros (r & ? & [-> Hr]%rq_of_inv & [= _ <-])%bind_inv.
  by apply (view_rq _ _ c r (f r)).
Qed.

Lemma quiet_lock_rq c : quiet R (lock_rq c).
Proof using VR.
  intros s a s'. unfold lock_rq. intros (r & ? & [-> Hr]%rq_of_inv & H)%bind_inv.
  destruct (rq_lock r); [done|]. injection H as _ <-. apply (view_rq _ _ c r (r <| rq_lock := true |>)); [done|apply view_rq_lock|done..].
Qed.
Lemma quiet_unlock_rq c : quiet R (unlock_rq c).
Proof using VR.
  intros s a s'. unfold unlock_rq. intros (r & ? & [-> Hr]%rq_of_inv & H)%bind_inv.
  destruct (rq_lock r); [|done]. injection H as _ <-. apply (view_rq _ _ c r (r <| rq_lock := false |>)); [done|apply view_rq_lock|done..].
Qed.
Lemma quiet_lock_pi p : quiet R (lock_pi p).
Proof using VR.
  intros s a s'. unfold lock_pi. intros (t & ? & [-> Ht]%task_of_inv & H)%bind_inv.
  destruct (pi_lock t); [done|]. injection H as _ <-. apply (view_task _ _ p t (t <| pi_lock := true |>)); [done|apply view_pi_lock|done..].
Qed.
Lemma quiet_unlock_pi p : quiet R (unlock_pi p).
Proof using VR.
  intros s a s'. unfold unlock_pi. intros (t & ? & [-> Ht]%task_of_inv & H)%bind_inv.
  destruct (pi_lock t); [|done]. injection H as _ <-. apply (view_task _ _ p t (t <| pi_lock := false |>)); [done|apply view_pi_lock|done..].
Qed.

Context {F : FlagApi} {C : ClockConfig} {K : SchedClassOps}.

Lemma quiet_resched_curr cpu : quiet R (resched_curr cpu).
Proof using VR.
  intros s a s'. unfold resched_curr. intros (r & ? & [-> Hr]%rq_of_inv & H)%bind_inv.
  apply bind_inv in H as (t & ? & [-> Ht]%task_of_inv & H). destruct (test_tsk_need_resched t); [by injection H as _ <-|].
  apply bind_inv in H as (this & ? & [= <- <-] & H). destruct (cpu =? _).
  - injection H as _ <-. apply (view_task _ _ (curr r) t (set_tsk_need_resched t)); [done|apply view_need_resched|done..].
  - apply bind_inv in H as (np & s1 & E1 & H). unfold set_nr_and_not_polling in E1.
    apply bind_inv in E1 as (t1 & ? & [-> Ht1]%task_of_inv & E1). apply bind_inv in E1 as (? & s2 & E1 & [= <- <-]).
    transitivity s2; [|revert H; apply quiet_when; by apply quiet_fields].
    revert E1. intros [= _ <-]. apply (view_task _ _ (curr r) t1 (set_tsk_need_resched t1)); [done|apply view_need_resched|done..].
Qed.

Lemma quiet_update_clock c : quiet R (update_clock c).
Proof using VR.
  unfold update_clock. apply quiet_bind; [apply quiet_get|]. intros s. apply quiet_set_rq. intros r. apply view_clock.
Qed.

(** ** Up to the class *)

Lemma view_put_both s s' c r r' p t t' :
  k_rqs s !! c = Some r -> k_tasks s !! p = Some t -> fr r' = fr r -> ft t' = ft t ->
  k_rqs s' = <[c := r']> (k_rqs s) -> k_tasks s' = <[p := t']> (k_tasks s) -> k_online s' = k_online s -> R s s'.
Proof using VR.
  intros Hr Ht E1 E2 Hr' Ht' Ho. transitivity (s <| k_rqs := <[c := r']> (k_rqs s) |>).
  - by apply (view_rq _ _ c r r').
  - by apply (view_task _ _ p t t').
Qed.

Context {U : UclampApi} {CB : ClampBlind ft fr}.


Lemma enqueue_task_inv cpu p fl s a s' :
  enqueue_task cpu p fl s = Ok a s' ->
  exists x t, R s x /\ k_tasks x !! p = Some t /\ is_Some (k_rqs x !! cpu) /\ s' = op_enqueue_task (t_sched_class t) cpu p fl x.
Proof using VR CB.
  unfold enqueue_task. intros (b & s1 & E1 & H)%bind_inv.
  pose proof (quiet_when _ _ (quiet_update_clock cpu) _ _ _ E1) as V1. clear E1. apply bind_inv in H as (? & ? & [= <- <-] & H).
  apply bind_inv in H as (r1 & ? & [-> Hr1]%rq_of_inv & H). apply bind_inv in H as (t1 & ? & [-> Ht1]%task_of_inv & H).
  destruct (uclamp_rq_inc _ _ _ _ _) as [[r2 t2]|] eqn:E2; [|done].
  apply bind_inv in H as (? & ? & [= <- <-] & H). cbv beta iota in H.
  apply (inc_blind fr ft) in E2 as [Er Et]; [|apply blind_rq|apply blind_task|apply blind_flags].
  apply bind_inv in H as ([] & s3 & E3 & H). apply bind_inv in H as ([] & s4 & E4 & [= _ <-]).
  injection E3 as <-. injection E4 as <-. eexists _, t2. split; [|split; [|split; [|reflexivity]]].
  - transitivity s1; [exact V1|]. by apply (view_put_both _ _ cpu r1 r2 p t1 t2).
  - apply (lookup_insert_eq (k_tasks s1)).
  - exists r2. apply (lookup_insert_eq (k_rqs s1)).
Qed.

Lemma dequeue_task_inv cpu p fl s a s' :
  dequeue_task cpu p fl s = Ok a s' ->
  exists x t, R s x /\ k_tasks x !! p = Some t /\ is_Some (k_rqs x !! cpu) /\ s' = op_dequeue_task (t_sched_class t) cpu p fl x.
Proof using VR CB.
  unfold dequeue_task. intros (b & s1 & E1 & H)%bind_inv.
  pose proof (quiet_when _ _ (quiet_update_clock cpu) _ _ _ E1) as V1. clear E1.
  apply bind_inv in H as (r1 & ? & [-> Hr1]%rq_of_inv & H). apply bind_inv in H as (t1 & ? & [-> Ht1]%task_of_inv & H).
  destruct (uclamp_rq_dec _ _ _) as [[r2 t2]|] eqn:E2; [|done].
  apply bind_inv in H as (? & ? & [= <- <-] & H). cbv beta iota in H.
  apply (dec_blind fr ft) in E2 as [Er Et]; [|apply blind_rq|apply blind_task|apply blind_flags].
  apply bind_inv in H as ([] & s3 & E3 & H). apply bind_inv in H as ([] & s4 & E4 & [= _ <-]).
  injection E3 as <-. injection E4 as <-. eexists _, t2. split; [|split; [|split; [|reflexivity]]].
  - transitivity s1; [exact V1|]. by apply (view_put_both _ _ cpu r1 r2 p t1 t2).
  - apply (lookup_insert_eq (k_tasks s1)).
  - exists r2. apply (lookup_insert_eq (k_rqs s1)).
Qed.

(** A class call that is quiet. *)
Lemma quiet_put_prev_task cpu p : (forall c s, R s (op_put_prev_task c cpu p s)) -> quiet R (put_prev_task cpu p).
Proof using VR. intros H. apply quiet_bind; [apply quiet_task_of|]. intros t. apply quiet_modify, H. Qed.
Lemma quiet_set_next_task cpu p : (forall c s, R s (op_set_next_task c cpu p s)) -> quiet R (set_next_task cpu p).
Proof using VR. intros H. apply quiet_bind; [apply quiet_task_of|]. intros t. apply quiet_modify, H. Qed.

Lemma quiet_check_preempt_curr cpu p fl :
  (forall c s, R s (op_check_preempt_curr c cpu p fl s)) -> (forall s, R s (rq_clock_skip_update cpu s)) ->
  quiet R (check_preempt_curr cpu p fl).
Proof using VR.
  intros H1 H2. unfold check_preempt_curr. apply quiet_bind; [apply quiet_rq_of|]. intros r. apply quiet_bind; [apply quiet_task_of|].
  intros t. apply quiet_bind; [apply quiet_task_of|]. intros c. apply quiet_bind.
  { destruct (bool_decide _); [apply quiet_modify, H1|apply quiet_when, quiet_resched_curr]. }
  intros _. apply quiet_bind; [apply quiet_rq_of|]. intros r2. apply quiet_bind; [apply quiet_task_of|]. intros c2.
  apply quiet_when, quiet_modify, H2.
Qed.
End Quiet.

(** ** A value read off every task *)

Lemma fmap_put {I T} `{Countable I} {A : Type} (ft : A -> T) (m : gmap I A) p t t' :
  m !! p = Some t -> ft t' = ft t -> ft <$> <[p := t']> m = ft <$> m.
Proof. intros Ht He. rewrite <- (insert_id m p t Ht) at 2. by rewrite !fmap_insert, He. Qed.

Lemma fmap_at {I T} `{Countable I} {A : Type} (ft : A -> T) (m m' : gmap I A) p t :
  ft <$> m' = ft <$> m -> m !! p = Some t -> exists t', m' !! p = Some t' /\ ft t' = ft t.
Proof.
  intros H1 Ht. apply (f_equal (lookup p)) in H1. rewrite !lookup_fmap, Ht in H1.
  destruct (m' !! p) as [t'|]; [|done]. exists t'. split; [done|]. by apply (inj Some) in H1.
Qed.

(** What the class methods leave alone. *)
Lemma fmap_kframe {U : UclampApi} {T} (ft : task_struct -> T) s s' :
  (forall t, ft (erase_task false t) = ft t) -> kframe false s s' -> ft <$> k_tasks s' = ft <$> k_tasks s.
Proof.
  intros Hft [H _]. apply map_eq. intros q. apply (f_equal (fun x => k_tasks x !! q)) in H.
  change (k_tasks (erase false ?x)) with (erase_task false <$> k_tasks x) in H. rewrite !lookup_fmap in H.
  rewrite !lookup_fmap.
  destruct (k_tasks s' !! q) as [t'|], (k_tasks s !! q) as [t|]; cbn [fmap option_fmap option_map] in *; [|done..].
  f_equal. apply (inj Some) in H. by rewrite <- (Hft t'), <- (Hft t), H.
Qed.
