(* ===== verification/TaskLock.v ===== *)
(** * TaskLock: a task and its run queue under lock

    [__task_rq_lock], [task_rq_lock] and their release, in the tracking calculus
    of [ScheduleSpec]: what is done between the two is done to the unlocked
    state, and the locks are free again at the end. *)

From S2P Require Import Prelude Task KernelApi Prio Rq RqClock Uclamp.
From S2P Require Import State Sched SchedFacts ScheduleSpec Setprio.

(** The lock of a task, taken. *)
Definition locked_pi (p : ptr) (g : kstate) : kstate :=
  (upd_task p (fun t => t <| pi_lock := true |>) g) <| k_preempt := k_preempt g + 1 |>.

(** ** Updates of one task *)

Lemma upd_task_twice p f f' g : upd_task p f (upd_task p f' g) = upd_task p (fun t => f (f' t)) g.
Proof.
  unfold upd_task. rsimpl.
  assert (alter f p (alter f' p (k_tasks g)) = alter (fun t => f (f' t)) p (k_tasks g)) as <-; [|reflexivity].
  apply map_eq. intros d. destruct (decide (d = p)) as [->|Hne].
  - rewrite !lookup_alter_eq. by destruct (k_tasks g !! p).
  - by rewrite !lookup_alter_ne.
Qed.

Lemma upd_task_ext_at p f f' g :
  (forall t, k_tasks g !! p = Some t -> f t = f' t) -> upd_task p f g = upd_task p f' g.
Proof.
  intros Hf. unfold upd_task. assert (alter f p (k_tasks g) = alter f' p (k_tasks g)) as ->; [|reflexivity].
  apply map_eq. intros d. destruct (decide (d = p)) as [->|Hne].
  - rewrite !lookup_alter_eq. destruct (k_tasks g !! p) eqn:E; [|done]. simpl. by rewrite Hf.
  - by rewrite !lookup_alter_ne.
Qed.

Lemma upd_task_id p f g : (forall t, k_tasks g !! p = Some t -> f t = t) -> upd_task p f g = g.
Proof.
  intros Hf. rewrite (upd_task_ext_at p f id g Hf). unfold upd_task.
  assert (alter id p (k_tasks g) = k_tasks g) as ->; [|by destruct g].
  apply map_eq. intros d. destruct (decide (d = p)) as [->|Hne].
  - rewrite lookup_alter_eq. by destruct (k_tasks g !! p).
  - by rewrite lookup_alter_ne.
Qed.

Lemma upd_task_at p f g t : k_tasks g !! p = Some t -> k_tasks (upd_task p f g) !! p = Some (f t).
Proof. intros H. by rewrite upd_task_lookup, decide_True, H. Qed.

(** Updates do not mind the locks. *)
Lemma locked_g_upd_task c p f g : upd_task p f (locked_g c g) = locked_g c (upd_task p f g).
Proof. done. Qed.

Lemma locked_pi_upd_task p f g :
  (forall t, f (t <| pi_lock := true |>) = (f t) <| pi_lock := true |>) ->
  upd_task p f (locked_pi p g) = locked_pi p (upd_task p f g).
Proof.
  intros Hf.
  assert (upd_task p f (upd_task p (fun t => t <| pi_lock := true |>) g) =
    upd_task p (fun t => t <| pi_lock := true |>) (upd_task p f g)) as E.
  { rewrite !upd_task_twice. apply upd_task_ext_at. intros; apply Hf. }
  transitivity ((upd_task p f (upd_task p (fun t => t <| pi_lock := true |>) g)) <| k_preempt := k_preempt g + 1 |>);
    [reflexivity|]. rewrite E. reflexivity.
Qed.

Lemma unlock_locked_pi p g t :
  k_tasks g !! p = Some t -> pi_lock t = false ->
  (upd_task p (fun t => t <| pi_lock := false |>) (locked_pi p g))
    <| k_preempt := k_preempt (locked_pi p g) - 1 |> = g.
Proof.
  intros Hp Hl.
  assert (upd_task p (fun t => t <| pi_lock := false |>) (upd_task p (fun t => t <| pi_lock := true |>) g) = g) as E.
  { rewrite upd_task_twice. apply upd_task_id. intros t' Ht'. rewrite Hp in Ht'. injection Ht' as <-.
    destruct t. cbn in Hl. subst. reflexivity. }
  transitivity ((upd_task p (fun t => t <| pi_lock := false |>) (upd_task p (fun t => t <| pi_lock := true |>) g))
    <| k_preempt := k_preempt g + 1 - 1 |>); [reflexivity|].
  rewrite E, Z.add_simpl_r. by destruct g.
Qed.

(** ** Tracking *)

Section Locks.
Context {U : UclampApi} {F : FlagApi} {C : ClockConfig} {K : SchedClassOps} {KL : SchedClassLaws K}.

Lemma tracks_refl s : clamps_in_range s -> tracks s s.
Proof. by split. Qed.

(** A step that keeps to the classes' fields. *)
Lemma wp_track_step {B} g s (m : M unit) (k : M B) Q :
  tracks g s -> wp m (fun _ s' => kframe true s s') s ->
  (forall s', tracks g s' -> wp k Q s') -> wp (m;; k) Q s.
Proof.
  intros H Hm Hk. apply wp_bind. eapply wp_mono; [exact Hm|]. cbn beta. intros _ s' H'.
  apply Hk. by eapply tracks_frame.
Qed.

Lemma wp_when_frame b m s :
  (b = true -> wp m (fun _ s' => kframe false s s') s) -> wp (when b m) (fun _ s' => kframe true s s') s.
Proof.
  intros Hm. apply wp_when; [|done]. intros E. eapply wp_mono; [by apply Hm|].
  cbn beta. intros _ s' H'. by apply kframe_weaken.
Qed.

Lemma wp_track_unlock_rq g s cpu r (Q : unit -> kstate -> Prop) :
  tracks (locked_g cpu g) s -> k_rqs g !! cpu = Some r -> rq_lock r = false ->
  (forall s', tracks g s' -> Q tt s') -> wp (unlock_rq cpu) Q s.
Proof.
  intros H Hr Hl HQ.
  assert (k_rqs (locked_g cpu g) !! cpu = Some (r <| rq_lock := true |>)) as Hr1.
  { change (k_rqs (locked_g cpu g)) with (k_rqs (upd_rq cpu (fun r => r <| rq_lock := true |>) g)).
    by rewrite upd_rq_lookup, decide_True, Hr. }
  destruct (tracks_rq _ _ _ _ H Hr1) as (r2 & Hr2 & E2).
  eapply wp_unlock_rq; [done|by rewrite (erase_rq_field rq_lock _ _ ltac:(done) E2)|].
  rewrite (insert_alter (k_rqs s) cpu r2 (fun r => r <| rq_lock := false |>) Hr2), (tracks_preempt _ _ H).
  apply HQ. apply (tracks_upd_rq cpu (fun r => r <| rq_lock := false |>)) in H; [|commutes].
  apply (tracks_state (fun x => x <| k_preempt := k_preempt (locked_g cpu g) - 1 |>)) in H; [|done|done].
  rewrite (unlock_locked cpu g r Hr Hl) in H. exact H.
Qed.

Lemma wp_track_unlock_pi g s p t (Q : unit -> kstate -> Prop) :
  tracks (locked_pi p g) s -> k_tasks g !! p = Some t -> pi_lock t = false ->
  (forall s', tracks g s' -> Q tt s') -> wp (unlock_pi p) Q s.
Proof.
  intros H Hp Hl HQ.
  assert (k_tasks (locked_pi p g) !! p = Some (t <| pi_lock := true |>)) as Hp1 by by apply (upd_task_at p).
  destruct (tracks_task _ _ _ _ H Hp1) as (t2 & Ht2 & E2).
  eapply wp_unlock_pi; [done|by rewrite (erase_field true pi_lock _ _ ltac:(kept_field) E2)|].
  rewrite (insert_alter (k_tasks s) p t2 (fun t => t <| pi_lock := false |>) Ht2), (tracks_preempt _ _ H).
  apply HQ. apply (tracks_upd_task p (fun t => t <| pi_lock := false |>)) in H; [|commutes].
  apply (tracks_state (fun x => x <| k_preempt := k_preempt (locked_pi p g) - 1 |>)) in H; [|done|done].
  rewrite (unlock_locked_pi p g t Hp Hl) in H. exact H.
Qed.

Lemma wp_track_task_rq_unlock g s cpu p r t (Q : unit -> kstate -> Prop) :
  tracks (locked_g cpu (locked_pi p g)) s ->
  k_rqs g !! cpu = Some r -> rq_lock r = false -> k_tasks g !! p = Some t -> pi_lock t = false ->
  (forall s', tracks g s' -> Q tt s') -> wp (task_rq_unlock cpu p) Q s.
Proof.
  intros H Hr Hl Hp Hpl HQ. apply wp_bind.
  eapply (wp_track_unlock_rq (locked_pi p g) s cpu r); [exact H|exact Hr|exact Hl|]. intros s1 H1.
  eapply wp_track_unlock_pi; [exact H1|exact Hp|exact Hpl|exact HQ].
Qed.

(** The exact state, when nothing happened in between. *)
Lemma task_rq_unlock_exact g cpu p r t :
  k_rqs g !! cpu = Some r -> rq_lock r = false -> k_tasks g !! p = Some t -> pi_lock t = false ->
  task_rq_unlock cpu p (locked_g cpu (locked_pi p g)) = Ok tt g.
Proof.
  intros Hr Hl Hp Hpl. unfold task_rq_unlock.
  assert (unlock_rq cpu (locked_g cpu (locked_pi p g)) = Ok tt (locked_pi p g)) as E1.
  { rewrite <- (unlock_locked cpu (locked_pi p g) r Hr Hl) at 2. unfold unlock_rq.
    assert (k_rqs (locked_g cpu (locked_pi p g)) !! cpu = Some (r <| rq_lock := true |>)) as Hr1.
    { change (k_rqs (locked_g cpu (locked_pi p g))) with (k_rqs (upd_rq cpu (fun r => r <| rq_lock := true |>) (locked_pi p g))).
      rewrite upd_rq_lookup, decide_True by done. change (k_rqs (locked_pi p g)) with (k_rqs g). by rewrite Hr. }
    rewrite (bind_ok _ _ _ _ _ (rq_of_run _ _ _ Hr1)). change (rq_lock (r <| rq_lock := true |>)) with true. cbn iota.
    unfold upd_rq at 1. by rewrite <- (insert_alter _ _ _ (fun r => r <| rq_lock := false |>) Hr1). }
  rewrite (bind_ok _ _ _ _ _ E1). rewrite <- (unlock_locked_pi p g t Hp Hpl) at 2. unfold unlock_pi.
  assert (k_tasks (locked_pi p g) !! p = Some (t <| pi_lock := true |>)) as Hp1 by by apply (upd_task_at p).
  rewrite (bind_ok _ _ _ _ _ (task_of_run _ _ _ Hp1)). change (pi_lock (t <| pi_lock := true |>)) with true. cbn iota.
  unfold upd_task at 1. by rewrite <- (insert_alter _ _ _ (fun t => t <| pi_lock := false |>) Hp1).
Qed.

(** Storing a task computed from what was read. *)
Lemma tracks_put g s p t1 t2 f :
  tracks g s -> k_tasks s !! p = Some t1 -> task_commutes f ->
  erase_task true t2 = f (erase_task true t1) ->
  (forall id, uclamp t2 id = uclamp t1 id /\ uclamp_req t2 id = uclamp_req t1 id) ->
  tracks (upd_task p f g) (s <| k_tasks := <[p := t2]> (k_tasks s) |>).
Proof.
  intros H Hp Hf E Hu. pose proof (tracks_upd_task p f g s Hf H) as H1. destruct Hf as [Hf Hfu].
  assert (s <| k_tasks := <[p := t2]> (k_tasks s) |> =
    (upd_task p f s) <| k_tasks := <[p := t2]> (k_tasks (upd_task p f s)) |>) as ->.
  { unfold upd_task. rsimpl. assert (<[p:=t2]> (k_tasks s) = <[p:=t2]> (alter f p (k_tasks s))) as ->; [|reflexivity].
    apply map_eq. intros q. destruct (decide (q = p)) as [->|Hne].
    - by rewrite !lookup_insert_eq.
    - rewrite !lookup_insert_ne by done. by rewrite lookup_alter_ne. }
  eapply (tracks_frame true); [|exact H1]. eapply kframe_put_task; [by apply upd_task_at|by rewrite E, Hf|].
  intros Hx id. destruct (Hu id) as [-> ->]. destruct (Hfu t1 id) as [<- <-]. apply Hx.
Qed.

(** ** Taking the locks *)

(** States in which the run queue of a task can be locked; [held] says whether the
    caller already holds the lock of the task itself. *)
Record task_pre (held : bool) (s : kstate) (p : ptr) (t : task_struct) (r : rq) : Prop := {
  tp_task : k_tasks s !! p = Some t;
  tp_pi : pi_lock t = held;
  tp_rq : k_rqs s !! task_cpu t = Some r;
  tp_lock : rq_lock r = false;
  tp_settled : on_rq t <> TASK_ON_RQ_MIGRATING;
  tp_clamps : clamps_in_range s
}.

Lemma lock_rq_locked s cpu r :
  k_rqs s !! cpu = Some r ->
  s <| k_preempt := k_preempt s + 1 |> <| k_rqs := <[cpu := r <| rq_lock := true |>]> (k_rqs s) |> = locked_g cpu s.
Proof. intros Hr. rewrite (insert_alter (k_rqs s) cpu r (fun r => r <| rq_lock := true |>) Hr). reflexivity. Qed.

Lemma wp___task_rq_lock held s p t r (Q : Z -> kstate -> Prop) :
  task_pre held s p t r -> Q (task_cpu t) (locked_g (task_cpu t) s) -> wp (__task_rq_lock p) Q s.
Proof.
  intros [Ht Hp Hr Hl Hm Hc] HQ. unfold __task_rq_lock. apply wp_bind. eapply wp_task_of; [done|].
  apply wp_bind. eapply wp_lock_rq; [done|done|]. rewrite lock_rq_locked by done. apply wp_bind.
  eapply (wp_task_of p t); [exact Ht|]. unfold task_on_rq_migrating.
  rewrite Z.eqb_refl, (proj2 (Z.eqb_neq _ _) Hm). exact HQ.
Qed.

Lemma wp_task_rq_lock s p t r (Q : Z -> kstate -> Prop) :
  task_pre false s p t r -> Q (task_cpu t) (locked_g (task_cpu t) (locked_pi p s)) -> wp (task_rq_lock p) Q s.
Proof.
  intros [Ht Hp Hr Hl Hm Hc] HQ. unfold task_rq_lock. apply wp_bind. eapply wp_lock_pi; [done|done|].
  rewrite (insert_alter (k_tasks s) p t (fun t => t <| pi_lock := true |>) Ht).
  fold (locked_pi p s).
  assert (k_tasks (locked_pi p s) !! p = Some (t <| pi_lock := true |>)) as Ht1 by by apply (upd_task_at p).
  apply wp_bind. eapply wp_task_of; [exact Ht1|].
  apply wp_bind. eapply wp_lock_rq; [exact Hr|exact Hl|].
  rewrite (lock_rq_locked (locked_pi p s) _ r) by exact Hr.
  apply wp_bind. eapply (wp_task_of p (t <| pi_lock := true |>)); [exact Ht1|]. unfold task_on_rq_migrating. rsimpl.
  change (task_cpu (t <| pi_lock := true |>)) with (task_cpu t).
  rewrite Z.eqb_refl, (proj2 (Z.eqb_neq _ _) Hm). exact HQ.
Qed.

Lemma clamps_locked p cpu s : clamps_in_range s -> clamps_in_range (locked_g cpu (locked_pi p s)).
Proof.
  intros H. apply (clamps_upd_task p (fun t => t <| pi_lock := true |>)) in H; [|by intros ? []].
  apply (clamps_upd_rq cpu (fun r => r <| rq_lock := true |>)) in H; [|by intros ? []].
  destruct H as [A1 A2 A3]. split; [exact A1|exact A2|exact A3].
Qed.

Lemma clamps_locked_rq cpu s : clamps_in_range s -> clamps_in_range (locked_g cpu s).
Proof.
  intros H. apply (clamps_upd_rq cpu (fun r => r <| rq_lock := true |>)) in H; [|by intros ? []].
  destruct H as [A1 A2 A3]. split; [exact A1|exact A2|exact A3].
Qed.

(** Reading the clock touches only the run queue. *)
Lemma wp_update_clock_exact cpu r s (Q : unit -> kstate -> Prop) :
  k_rqs s !! cpu = Some r -> Q tt (upd_rq cpu (update_rq_clock (read_clock s cpu)) s) -> wp (update_clock cpu) Q s.
Proof. intros Hr HQ. unfold update_clock. apply wp_bind, wp_get. apply wp_upd_rq; [by exists r|exact HQ]. Qed.

Lemma tracks_clock g s cpu c : tracks g s -> tracks g (upd_rq cpu (update_rq_clock c) s).
Proof.
  intros H. destruct (k_rqs s !! cpu) as [r|] eqn:Hr.
  - eapply (tracks_frame false); [|exact H]. destruct (update_rq_clock_frame c r) as [He Hu].
    unfold upd_rq. rewrite <- (insert_alter (k_rqs s) cpu r _ Hr).
    eapply kframe_put_rq; [done|exact He|]. intros Hx id. rewrite Hu. apply Hx.
  - rewrite (upd_rq_id cpu _ s); [done|]. intros r Hr'. rewrite Hr in Hr'. discriminate.
Qed.

(** The state between taking and releasing the locks of a task. *)
Definition locked_task (p : ptr) (cpu : Z) (g : kstate) : kstate := locked_g cpu (locked_pi p g).

Lemma locked_task_rq p cpu g : is_Some (k_rqs g !! cpu) -> is_Some (k_rqs (locked_task p cpu g) !! cpu).
Proof. apply (upd_rq_some cpu (fun r => r <| rq_lock := true |>) (locked_pi p g)). Qed.

Lemma locked_task_at p cpu g t :
  k_tasks g !! p = Some t -> k_tasks (locked_task p cpu g) !! p = Some (t <| pi_lock := true |>).
Proof. apply (upd_task_at p). Qed.

Lemma task_rq_lock_exact s p t r :
  task_pre false s p t r -> task_rq_lock p s = Ok (task_cpu t) (locked_task p (task_cpu t) s).
Proof.
  intros Hpre. assert (wp (task_rq_lock p) (fun c s' => c = task_cpu t /\ s' = locked_task p (task_cpu t) s) s) as Hw
    by (by eapply wp_task_rq_lock).
  by apply wp_elim in Hw as (c & s' & -> & -> & ->).
Qed.

(** A change of one task under its locks: the caller shows that [body] makes the
    change [f] in the locked state. *)
Lemma wp_locked_change s p t r f (body : Z -> M unit) :
  task_pre false s p t r ->
  (forall t, f (t <| pi_lock := true |>) = (f t) <| pi_lock := true |>) -> pi_lock (f t) = false ->
  (let g := locked_task p (task_cpu t) s in
   forall s1, tracks g s1 -> wp (body (task_cpu t)) (fun _ s' => tracks (upd_task p f g) s') s1) ->
  wp (cpu ← task_rq_lock p; update_clock cpu;; body cpu;; task_rq_unlock cpu p)
    (fun _ s' => tracks (upd_task p f s) s') s.
Proof.
  intros Hpre Hf Hfl Hbody. pose proof Hpre as [Ht Hpi Hr Hl Hm Hc].
  apply wp_bind. eapply wp_task_rq_lock; [exact Hpre|].
  change (locked_g (task_cpu t) (locked_pi p s)) with (locked_task p (task_cpu t) s).
  eapply (wp_track_step (locked_task p (task_cpu t) s)); [by apply tracks_refl, clamps_locked| |].
  { eapply wp_mono; [apply wp_update_clock, locked_task_rq; by exists r|]. cbn beta. intros _ s'. apply kframe_weaken. }
  intros s1 H1. apply wp_bind. eapply wp_mono; [by apply Hbody|]. cbn beta. intros _ s2 H2.
  unfold locked_task in H2. rewrite locked_g_upd_task, locked_pi_upd_task in H2 by exact Hf.
  eapply wp_track_task_rq_unlock; [exact H2|exact Hr|exact Hl|by apply upd_task_at|exact Hfl|done].
Qed.

(** ** Requeueing around a change *)

Lemma wp_set_next_task cpu p s :
  is_Some (k_tasks s !! p) -> wp (set_next_task cpu p) (fun _ s' => kframe false s s') s.
Proof using KL. intros [t Ht]. unfold set_next_task. wp_go. apply law_set_next. Qed.

(** Take the task off its queue and from the CPU. *)
Lemma wp_track_unqueue {B} g s cpu p queued running flags (k : M B) Q :
  tracks g s -> is_Some (k_rqs g !! cpu) -> is_Some (k_tasks g !! p) ->
  (forall s', tracks g s' -> wp k Q s') ->
  wp (when queued (dequeue_task cpu p flags);; when running (put_prev_task cpu p);; k) Q s.
Proof using KL.
  intros H Hr Hp Hk. eapply wp_track_step; [done| |].
  { apply wp_when_frame. intros _. apply wp_dequeue_task; [apply H|by eapply tracks_rq_some|by eapply tracks_task_some]. }
  intros s1 H1. eapply wp_track_step; [done| |done].
  apply wp_when_frame. intros _. apply wp_put_prev_task. by eapply tracks_task_some.
Qed.

(** Put it back. *)
Lemma wp_track_requeue {B} g s cpu p queued running flags (k : M B) Q :
  tracks g s -> is_Some (k_rqs g !! cpu) -> is_Some (k_tasks g !! p) ->
  (forall s', tracks g s' -> wp k Q s') ->
  wp (when queued (enqueue_task cpu p flags);; when running (set_next_task cpu p);; k) Q s.
Proof using KL.
  intros H Hr Hp Hk. eapply wp_track_step; [done| |].
  { apply wp_when_frame. intros _. apply wp_enqueue_task; [apply H|by eapply tracks_rq_some|by eapply tracks_task_some]. }
  intros s1 H1. eapply wp_track_step; [done| |done].
  apply wp_when_frame. intros _. apply wp_set_next_task. by eapply tracks_task_some.
Qed.

Lemma wp_track_task_current g s cpu p (Q : bool -> kstate -> Prop) :
  tracks g s -> is_Some (k_rqs g !! cpu) -> (forall b, Q b s) -> wp (task_current cpu p) Q s.
Proof. intros H Hr HQ. destruct (tracks_rq_some _ _ _ H Hr) as [r Hr']. unfold task_current. wp_go. apply HQ. Qed.

Lemma wp_check_class_changed {P : PrioApi} g s cpu p c o :
  tracks g s -> is_Some (k_tasks g !! p) -> wp (check_class_changed cpu p c o) (fun _ s' => tracks g s') s.
Proof using KL.
  intros H Hp. destruct (tracks_task_some _ _ _ H Hp) as [t Ht]. unfold check_class_changed.
  apply wp_bind. eapply wp_task_of; [done|]. destruct (negb _).
  - apply wp_bind, wp_modify.
    assert (tracks g (op_switched_from c cpu p s)) as H1 by (eapply tracks_frame; [apply law_switched_from|done]).
    destruct (tracks_task_some _ _ _ H1 Hp) as [t1 Ht1]. apply wp_bind. eapply wp_task_of; [exact Ht1|].
    apply wp_modify. eapply tracks_frame; [apply law_switched_to|exact H1].
  - apply wp_when; intros _; [|done]. apply wp_modify. eapply tracks_frame; [apply law_prio_changed|exact H].
Qed.
End Locks.
