(* ===== verification/SetprioSpec.v ===== *)
(** * SetprioSpec: what changing a priority promises

    Abstract specifications of [set_user_nice] and [rt_mutex_setprio], each a
    function of one task, and the theorems that the code implements them on a
    task that is queued, running or asleep: it runs to the end, releases every
    lock it takes and changes nothing else, up to what the classes own. *)

From S2P Require Import Prelude Task KernelApi Prio Rq RqClock Uclamp UclampTrace.
From S2P Require Import State Sched SchedFacts ScheduleSpec Setprio TaskLock Machine.

(** What the code relies on: the fair class's reweighting and the deadline
    class's parameters stay inside their scheduling entities, and the group of a
    task does not depend on what the scheduler does to it. *)
Class SetprioLaws {U : UclampApi} {K : SchedClassOps} (V : SetprioEnv) : Prop := {
  law_reweight t x : erase_task false (reweight_task t x) = erase_task false t;
  law_reweight_clamps t x id : uclamp (reweight_task t x) id = uclamp t id /\ uclamp_req (reweight_task t x) id = uclamp_req t id;
  law_setparam_dl a t : erase_task false (__setparam_dl a t) = erase_task false t;
  law_setparam_dl_clamps a t id : uclamp (__setparam_dl a t) id = uclamp t id /\ uclamp_req (__setparam_dl a t) id = uclamp_req t id;
  law_dl_overflow p pol a s : kframe false s (sched_dl_overflow p pol a s).1;
  law_dl_param_changed t t' a : t_dl t' = t_dl t -> dl_param_changed t' a = dl_param_changed t a;
  law_group_stable s s' p : dom (k_tasks s') = dom (k_tasks s) -> k_sys s' = k_sys s -> group_of s' p = group_of s p
}.

Section Nice.
Context {P : PrioApi} {PL : PrioLaws P} {Y : PolicyApi} {U : UclampApi} {F : FlagApi} {C : ClockConfig}
  {K : SchedClassOps} {KL : SchedClassLaws K} {V : SetprioEnv} {VL : SetprioLaws V}.

(** A static priority the weight tables know. *)
Definition static_ok (t : task_struct) : Prop := MAX_RT_PRIO <= static_prio t < MAX_RT_PRIO + 40.

(** Only the scheduling entity gets a new weight. *)
Lemma set_load_weight_frame t b :
  static_ok t -> exists t', set_load_weight reweight_task t b = Some t' /\ erase_task false t' = erase_task false t
    /\ forall id, uclamp t' id = uclamp t id /\ uclamp_req t' id = uclamp_req t id.
Proof using VL.
  unfold static_ok. intros Hs. unfold set_load_weight.
  destruct (task_has_idle_policy t); [eexists; split; [done|]; split; [done|by intros []]|].
  destruct (_ && _).
  - eexists. split; [done|]. split; [apply law_reweight|apply law_reweight_clamps].
  - destruct (array_get_is_Some sched_prio_to_weight (static_prio t - MAX_RT_PRIO)) as [w ->]; [simpl; lia|].
    destruct (array_get_is_Some sched_prio_to_wmult (static_prio t - MAX_RT_PRIO)) as [m ->]; [simpl; lia|].
    cbn [mbind option_bind]. eexists. split; [done|]. split; [done|by intros []].
Qed.

Lemma wp_track_load_weight g s p t (Q : unit -> kstate -> Prop) :
  tracks g s -> k_tasks g !! p = Some t -> static_ok t ->
  (forall s', tracks g s' -> Q tt s') -> wp (set_load_weight_of p) Q s.
Proof using VL.
  intros H Hp Hs HQ. destruct (tracks_task _ _ _ _ H Hp) as (t1 & Ht1 & E).
  unfold static_ok in Hs. rewrite <- (erase_field true static_prio _ _ ltac:(kept_field) E) in Hs.
  unfold set_load_weight_of. apply wp_bind. eapply wp_task_of; [exact Ht1|].
  destruct (set_load_weight_frame t1 true Hs) as (t2 & -> & E2 & Hu).
  apply wp_bind, wp_lift_option, wp_put_task, HQ. eapply (tracks_frame false); [|exact H].
  eapply kframe_put_task; [exact Ht1|exact E2|]. intros Hx id. destruct (Hu id) as [-> ->]. apply Hx.
Qed.

(** ** Nice levels *)

(** Real-time and deadline tasks only note the level; the others take it as
    their normal priority, and as their priority unless they are boosted. *)
Definition renice (nice : Z) (t : task_struct) : task_struct :=
  let t' := t <| static_prio := NICE_TO_PRIO nice |> in
  if task_has_dl_policy t || task_has_rt_policy t then t'
  else t' <| normal_prio := NICE_TO_PRIO nice |>
          <| prio := if rt_prio (prio t) then prio t else NICE_TO_PRIO nice |>.

Definition set_user_nice_spec (p : ptr) (nice : Z) (s : kstate) : kstate :=
  match k_tasks s !! p with
  | Some t => if negb (task_nice t =? nice) && (MIN_NICE <=? nice) && (nice <=? MAX_NICE)
              then upd_task p (renice nice) s else s
  | None => s
  end.

Lemma effective_prio_fair t nice :
  task_has_dl_policy t = false -> task_has_rt_policy t = false -> static_prio t = NICE_TO_PRIO nice ->
  (let '(t, pr) := effective_prio t in t <| prio := pr |>) =
  t <| normal_prio := NICE_TO_PRIO nice |> <| prio := if rt_prio (prio t) then prio t else NICE_TO_PRIO nice |>.
Proof.
  intros Hd Hr Hs. unfold effective_prio, normal_prio_of. rewrite Hd, Hr. unfold __normal_prio. rewrite Hs. rsimpl.
  destruct (rt_prio (prio t)); reflexivity.
Qed.

Lemma normal_prio_erase w t : normal_prio_of (erase_task w t) = normal_prio_of t.
Proof.
  unfold normal_prio_of, task_has_dl_policy, task_has_rt_policy, __normal_prio.
  assert (policy (erase_task w t) = policy t) as -> by kept_field.
  assert (rt_priority (erase_task w t) = rt_priority t) as -> by kept_field.
  assert (static_prio (erase_task w t) = static_prio t) as -> by kept_field. reflexivity.
Qed.

Lemma effective_prio_commutes : task_commutes (fun t => let '(t, pr) := effective_prio t in t <| prio := pr |>).
Proof.
  assert (forall t, (let '(t, pr) := effective_prio t in t <| prio := pr |>) =
    t <| normal_prio := normal_prio_of t |>
      <| prio := if rt_prio (prio t) then prio t else normal_prio_of t |>) as E.
  { intros t. unfold effective_prio. rsimpl. by destruct (rt_prio (prio t)). }
  split; intros t; rewrite E; [|by intros []]. rewrite E, normal_prio_erase.
  generalize (normal_prio_of t). intros n.
  assert (prio (erase_task true t) = prio t) as -> by kept_field. reflexivity.
Qed.

Lemma renice_pi_lock nice t b : renice nice (t <| pi_lock := b |>) = (renice nice t) <| pi_lock := b |>.
Proof.
  unfold renice. change (task_has_dl_policy (t <| pi_lock := b |>)) with (task_has_dl_policy t).
  change (task_has_rt_policy (t <| pi_lock := b |>)) with (task_has_rt_policy t). by destruct (_ || _).
Qed.

(** The part of [set_user_nice] under the locks. *)
Lemma wp_renice g s cpu p t nice :
  tracks g s -> is_Some (k_rqs g !! cpu) -> k_tasks g !! p = Some t -> 
  MIN_NICE <= nice <= MAX_NICE -> MAX_NICE < MIN_NICE + 40 ->
  wp (set_user_nice_locked cpu p nice)
    (fun _ s' => tracks (upd_task p (renice nice) g) s') s.
Proof using PL KL VL.
  intros H Hr Hp Hn Hw. unfold set_user_nice_locked. destruct (tracks_task _ _ _ _ H Hp) as (t1 & Ht1 & Et1).
  apply wp_bind. eapply wp_task_of; [exact Ht1|]. unfold task_has_dl_policy, task_has_rt_policy.
  rewrite (erase_field true policy _ _ ltac:(kept_field) Et1).
  fold (task_has_dl_policy t). fold (task_has_rt_policy t).
  assert (forall f, f t = renice nice t -> upd_task p f g = upd_task p (renice nice) g) as Hext.
  { intros f Hf. apply upd_task_ext_at. intros x Hx. rewrite Hp in Hx. injection Hx as <-. exact Hf. }
  destruct (task_has_dl_policy t || task_has_rt_policy t) eqn:Epol.
  { eapply wp_track_task; [exact H|by eexists|commutes|]. intros s2 H2. rewrite Hext in H2; [exact H2|].
    unfold renice. by rewrite Epol. }
  apply orb_false_iff in Epol as [Ed Er].
  apply wp_bind. eapply wp_track_task_current; [exact H|exact Hr|]. intros running.
  eapply wp_track_unqueue; [exact H|exact Hr|by eexists|]. intros s2 H2.
  apply wp_bind. eapply wp_track_task; [exact H2|by eexists|commutes|]. intros s3 H3.
  set (g3 := upd_task p (fun t => t <| static_prio := NICE_TO_PRIO nice |>) g) in *.
  assert (k_tasks g3 !! p = Some (t <| static_prio := NICE_TO_PRIO nice |>)) as Hp3
    by exact (upd_task_at _ _ _ _ Hp).
  apply wp_bind. eapply wp_track_load_weight; [exact H3|exact Hp3| |].
  { unfold static_ok. rsimpl. rewrite nice_to_prio_spec. lia. }
  intros s4 H4. destruct (tracks_task_some _ _ _ H4 (mk_is_Some _ _ Hp3)) as [t4 Ht4].
  apply wp_bind. eapply wp_task_of; [exact Ht4|]. apply wp_bind.
  eapply wp_track_task; [exact H4|by eexists| |].
  { apply effective_prio_commutes. }
  intros s5 H5. unfold g3 in H5. rewrite upd_task_twice, Hext in H5.
  2:{ unfold renice. rewrite Ed, Er. cbn [orb]. rewrite (effective_prio_fair _ nice) by done. reflexivity. }
  assert (is_Some (k_tasks (upd_task p (renice nice) g) !! p)) as Hp5 by (apply upd_task_some; by exists t).
  eapply wp_track_requeue; [exact H5|exact Hr|exact Hp5|]. intros s6 H6.
  destruct (tracks_task_some _ _ _ H6 Hp5) as [t6 Ht6]. apply wp_bind. eapply wp_task_of; [exact Ht6|].
  apply wp_modify. eapply tracks_frame; [apply law_prio_changed|exact H6].
Qed.

Lemma set_user_nice_correct s p t r nice :
  task_pre false s p t r -> MAX_NICE < MIN_NICE + 40 ->
  wp (set_user_nice p nice) (fun _ s' => tracks (set_user_nice_spec p nice s) s') s.
Proof using PL KL VL.
  intros Hpre Hw. pose proof Hpre as [Ht Hpi Hr Hl Hm Hc]. unfold set_user_nice, set_user_nice_spec.
  rewrite Ht. apply wp_bind. eapply wp_task_of; [done|].
  destruct (task_nice t =? nice); [by apply wp_ret, tracks_refl|].
  destruct (nice <? MIN_NICE) eqn:E1; bool_cases;
    [rewrite (proj2 (Z.leb_gt MIN_NICE nice)) by lia; by apply wp_ret, tracks_refl|].
  rewrite (proj2 (Z.leb_le MIN_NICE nice)) by lia.
  destruct (MAX_NICE <? nice) eqn:E2; bool_cases;
    [rewrite (proj2 (Z.leb_gt nice MAX_NICE)) by lia; by apply wp_ret, tracks_refl|].
  rewrite (proj2 (Z.leb_le nice MAX_NICE)) by lia. cbn [orb andb negb].
  apply (wp_locked_change s p t r (renice nice) (fun cpu => set_user_nice_locked cpu p nice)); [done| | |].
  - intros. apply renice_pi_lock.
  - unfold renice. by destruct (_ || _).
  - intros g s1 H1. eapply wp_renice; [exact H1|apply locked_task_rq; by exists r|by apply locked_task_at|lia|done].
Qed.

(** ** The nice system call *)

(** What [sys_nice] does for the running task: the level asked for, after the
    two clamps. *)
Definition nice_target (t : task_struct) (increment : Z) : Z :=
  clamp (task_nice t + clamp increment (- NICE_WIDTH) NICE_WIDTH) MIN_NICE MAX_NICE.

(** [sys_nice] raises the priority of the running task only with permission:
    an increment below zero is refused with EPERM, changing nothing, unless the
    resource limit or the capability allows the resulting level; a security
    module's error is passed on, changing nothing; otherwise the call returns 0
    and the task has the level asked for, brought into the range of levels. *)
Theorem sys_nice_permission s p t r increment :
  task_pre false s p t r -> task_cpu t = k_this_cpu s -> curr r = p -> MAX_NICE < MIN_NICE + 40 ->
  let nice := nice_target t increment in
  exists ret s', sys_nice increment s = Ok ret s' /\
    if (increment <? 0) && negb ((nice_to_rlimit nice <=? rlimit_nice p) || capable_sys_nice)
    then ret = - EPERM /\ s' = s
    else if nz (security_task_setnice p nice) then ret = security_task_setnice p nice /\ s' = s
    else ret = 0 /\ core_same true (upd_task p (if task_nice t =? nice then id else renice nice) s) s'.
Proof using PL KL VL.
  intros Hpre Hcpu Hcurr Hw nice. pose proof Hpre as [Ht _ Hr _ _ Hc]. rewrite Hcpu in Hr. pose proof nice_range.
  pose proof nice_width.
  assert (MIN_NICE <= nice <= MAX_NICE) as Hn by (subst nice; unfold nice_target, clamp; lia).
  assert ((clamp increment (- NICE_WIDTH) NICE_WIDTH <? 0) = (increment <? 0)) as Einc.
  { unfold clamp. apply eq_true_iff_eq. rewrite !Z.ltb_lt. lia. }
  assert (wp (sys_nice increment) (fun ret s' =>
    if (increment <? 0) && negb ((nice_to_rlimit nice <=? rlimit_nice p) || capable_sys_nice)
    then ret = - EPERM /\ s' = s
    else if nz (security_task_setnice p nice) then ret = security_task_setnice p nice /\ s' = s
    else ret = 0 /\ core_same true (upd_task p (if task_nice t =? nice then id else renice nice) s) s') s) as H2.
  { unfold sys_nice. apply wp_bind. eapply wp_current; [exact Hr|]. rewrite Hcurr.
    apply wp_bind. eapply wp_task_of; [exact Ht|]. fold (nice_target t increment). fold nice.
    unfold can_nice. rewrite Einc. destruct (_ && negb _); [by apply wp_ret|].
    destruct (nz _); [by apply wp_ret|]. apply wp_bind.
    eapply wp_mono; [by eapply set_user_nice_correct|]. cbn beta. intros _ s' [H' _]. apply wp_ret. split; [done|].
    unfold set_user_nice_spec in H'. rewrite Ht in H'.
    rewrite (proj2 (Z.leb_le MIN_NICE nice)), (proj2 (Z.leb_le nice MAX_NICE)), !andb_true_r in H' by lia.
    destruct (task_nice t =? nice); [|exact H']. rewrite (upd_task_id p id s) by done. exact H'. }
  apply wp_elim in H2 as (ret & s' & E & Hret). eauto.
Qed.
End Nice.

Section Inherit.
Context {P : PrioApi} {PL : PrioLaws P} {Y : PolicyApi} {U : UclampApi} {F : FlagApi} {C : ClockConfig}
  {K : SchedClassOps} {KL : SchedClassLaws K} {V : SetprioEnv}.

(** The task inherits from [pi_task]: the class follows the priority. *)
Definition boost (pi_task : option ptr) (prio : Z) (t : task_struct) : task_struct :=
  t <| pi_top_task := pi_task |> <| Task.prio := prio |> <| t_sched_class := class_of_prio prio |>.

Definition setprio_spec (p : ptr) (pi_task : option ptr) (r : rq) (t : task_struct) (w : option task_struct)
    (s : kstate) : kstate :=
  let prio := __rt_effective_prio w (normal_prio t) in
  if (prio =? Task.prio t) && negb (dl_prio prio) || bool_decide (p = idle r)
  then if bool_decide (pi_top_task t = pi_task) && (prio =? Task.prio t) && negb (dl_prio prio) then s
       else upd_task p (fun t => t <| pi_top_task := pi_task |>) s
  else upd_task p (boost pi_task prio) s.

Lemma setprio_class_ok t w prio oldprio flags t' flags' :
  setprio_class t w prio oldprio flags = (t', flags') ->
  erase_task true t' = erase_task true (t <| t_sched_class := class_of_prio prio |>)
  /\ (forall id, uclamp t' id = uclamp t id /\ uclamp_req t' id = uclamp_req t id).
Proof.
  unfold setprio_class, class_of_prio, set_dl_boosted. destruct (dl_prio prio).
  - destruct (negb _ || _); intros [= <- _]; (split; [reflexivity|by intros []]).
  - destruct (rt_prio prio); intros [= <- _].
    + destruct (dl_prio oldprio); (split; [reflexivity|by intros []]).
    + destruct (dl_prio oldprio), (rt_prio oldprio); (split; [reflexivity|by intros []]).
Qed.

(** Reading the waiter, if there is one. *)
Lemma wp_task_opt g s (o : option ptr) (Q : option task_struct -> kstate -> Prop) :
  tracks g s -> (forall q, o = Some q -> is_Some (k_tasks g !! q)) ->
  (forall w, Q w s) -> wp (task_opt o) Q s.
Proof.
  intros H Ho HQ. destruct o as [q|]; [|apply wp_ret, HQ].
  destruct (tracks_task_some _ _ _ H (Ho q eq_refl)) as [t Ht]. unfold task_opt. wp_go. apply HQ.
Qed.

Lemma wp_setprio_requeue g s cpu p pi_task prio :
  tracks g s -> is_Some (k_rqs g !! cpu) -> is_Some (k_tasks g !! p) ->
  (forall q, pi_task = Some q -> is_Some (k_tasks g !! q)) ->
  wp (setprio_requeue cpu p pi_task prio)
    (fun _ s' => tracks (upd_task p (fun t => t <| Task.prio := prio |> <| t_sched_class := class_of_prio prio |>) g) s') s.
Proof using KL.
  intros H Hr Hp Hw. unfold setprio_requeue. destruct (tracks_task_some _ _ _ H Hp) as [t Ht].
  apply wp_bind. eapply wp_task_of; [exact Ht|].
  apply wp_bind. eapply wp_track_task_current; [exact H|exact Hr|]. intros running.
  eapply wp_track_unqueue; [exact H|exact Hr|exact Hp|]. intros s1 H1.
  destruct (tracks_task_some _ _ _ H1 Hp) as [t1 Ht1]. apply wp_bind. eapply wp_task_of; [exact Ht1|].
  apply wp_bind. eapply wp_task_opt; [exact H1|exact Hw|]. intros w.
  match goal with |- context [setprio_class t1 w prio ?o ?f] => destruct (setprio_class t1 w prio o f) as [t2 fl] eqn:E end.
  apply setprio_class_ok in E as [E Hu]. apply wp_bind, wp_put_task.
  set (f := fun t : task_struct => t <| Task.prio := prio |> <| t_sched_class := class_of_prio prio |>).
  assert (tracks (upd_task p f g) (s1 <| k_tasks := <[p := t2 <| Task.prio := prio |>]> (k_tasks s1) |>)) as H2.
  { apply (tracks_put g s1 p t1); [exact H1|exact Ht1|commutes| |].
    - assert (forall x, erase_task true (x <| Task.prio := prio |>) = (erase_task true x) <| Task.prio := prio |>) as Ec by done.
      rewrite Ec, E. reflexivity.
    - intros id. destruct (Hu id) as [<- <-]. by destruct id. }
  revert H2. generalize (s1 <| k_tasks := <[p := t2 <| Task.prio := prio |>]> (k_tasks s1) |>). intros s2 H2.
  assert (is_Some (k_tasks (upd_task p f g) !! p)) as Hp2 by by apply upd_task_some.
  eapply wp_track_requeue; [exact H2|exact Hr|exact Hp2|]. intros s3 H3.
  apply wp_check_class_changed; [exact H3|exact Hp2].
Qed.

(** Release the run queue and run its callbacks, with preemption off meanwhile. *)
Lemma wp_unlock_balance g s cpu r (Q : unit -> kstate -> Prop) :
  tracks (locked_g cpu g) s -> k_rqs g !! cpu = Some r -> rq_lock r = false ->
  (forall s', tracks g s' -> Q tt s') ->
  wp (preempt_disable;; unlock_rq cpu;; balance_callback cpu;; preempt_enable_no_resched) Q s.
Proof using KL.
  intros H Hr Hl HQ. apply wp_bind, wp_modify. rewrite (tracks_preempt _ _ H).
  apply (tracks_state (fun x => x <| k_preempt := k_preempt (locked_g cpu g) + PREEMPT_DISABLE_OFFSET |>)) in H;
    [|done|done].
  set (g1 := g <| k_preempt := k_preempt g + 1 |>).
  assert (tracks (locked_g cpu g1) (s <| k_preempt := k_preempt (locked_g cpu g) + PREEMPT_DISABLE_OFFSET |>)) as H1 by exact H.
  revert H1. generalize (s <| k_preempt := k_preempt (locked_g cpu g) + PREEMPT_DISABLE_OFFSET |>). intros s1 H1.
  apply wp_bind. eapply wp_track_unlock_rq; [exact H1|exact Hr|exact Hl|]. intros s2 H2.
  apply wp_bind. eapply wp_mono; [apply (wp_balance_callback g1 s2 cpu r); [exact H2|exact Hr|exact Hl]|].
  cbn beta. intros _ s3 H3. apply wp_modify, HQ. rewrite (tracks_preempt _ _ H3).
  apply (tracks_state (fun x => x <| k_preempt := k_preempt g |>)) in H3; [|done|done].
  replace (k_preempt g1 + - PREEMPT_DISABLE_OFFSET) with (k_preempt g)
    by (change (k_preempt g1) with (k_preempt g + 1); unfold PREEMPT_DISABLE_OFFSET; lia).
  assert (g1 <| k_preempt := k_preempt g |> = g) as Eg by by destruct g. rewrite Eg in H3. exact H3.
Qed.

Lemma rt_mutex_setprio_correct s p t r pi_task w :
  task_pre true s p t r ->
  (forall q, pi_task = Some q -> is_Some (k_tasks s !! q)) -> w = pi_task ≫= (fun q => k_tasks s !! q) ->
  wp (rt_mutex_setprio p pi_task) (fun _ s' => tracks (setprio_spec p pi_task r t w s) s') s.
Proof using KL.
  intros Hpre Hq Hw. pose proof Hpre as [Ht Hpi Hr Hl Hm Hc]. unfold rt_mutex_setprio, setprio_spec.
  apply wp_bind. eapply wp_task_of; [exact Ht|]. apply wp_bind.
  assert (task_opt pi_task s = Ok w s) as Ew.
  { subst w. destruct pi_task as [q|]; [|done]. destruct (Hq q eq_refl) as [x Hx].
    unfold task_opt, mbind, M_bind, task_of. simpl. by rewrite Hx. }
  unfold wp at 1. rewrite Ew. set (prio := __rt_effective_prio w (normal_prio t)).
  set (same := (prio =? Task.prio t) && negb (dl_prio prio)).
  rewrite <- !andb_assoc. change ((prio =? Task.prio t) && negb (dl_prio prio)) with same.
  destruct (bool_decide (pi_top_task t = pi_task) && same) eqn:Eb.
  { apply andb_true_iff in Eb as [_ ->]. by apply wp_ret, tracks_refl. }
  apply wp_bind. eapply wp___task_rq_lock; [exact Hpre|]. set (cpu := task_cpu t) in *.
  eapply (wp_track_step (locked_g cpu s)); [by apply tracks_refl, clamps_locked_rq| |].
  { eapply wp_mono; [apply wp_update_clock, (upd_rq_some cpu (fun r => r <| rq_lock := true |>)); by exists r|].
    cbn beta. intros _ s'. apply kframe_weaken. }
  intros s1 H1. apply wp_bind. eapply wp_track_task; [exact H1|by exists t|commutes|]. intros s2 H2.
  rewrite locked_g_upd_task in H2. set (f := fun t : task_struct => t <| pi_top_task := pi_task |>) in *.
  assert (k_tasks (locked_g cpu (upd_task p f s)) !! p = Some (f t)) as Hp2 by by apply (upd_task_at p f s).
  assert (k_rqs (locked_g cpu (upd_task p f s)) !! cpu = Some (r <| rq_lock := true |>)) as Hr2.
  { change (k_rqs (upd_rq cpu (fun r => r <| rq_lock := true |>) s) !! cpu = Some (r <| rq_lock := true |>)).
    by rewrite upd_rq_lookup, decide_True, Hr. }
  destruct (tracks_task _ _ _ _ H2 Hp2) as (t2 & Ht2 & Et2). destruct (tracks_rq _ _ _ _ H2 Hr2) as (r2 & Hr2' & Er2).
  apply wp_bind. eapply wp_task_of; [exact Ht2|]. apply wp_bind. eapply wp_rq_of; [exact Hr2'|].
  rewrite (erase_field true Task.prio _ _ ltac:(kept_field) Et2), (erase_rq_field idle _ _ ltac:(done) Er2).
  change (Task.prio (f t)) with (Task.prio t). change (idle (r <| rq_lock := true |>)) with (idle r). fold same.
  set (g3 := if same || bool_decide (p = idle r) then upd_task p f s else upd_task p (boost pi_task prio) s).
  assert (is_Some (k_rqs (locked_g cpu (upd_task p f s)) !! cpu)) as Hr3 by by eexists.
  apply wp_bind. apply (wp_mono _ (fun _ s' => tracks (locked_g cpu g3) s')).
  { apply wp_when; rewrite <- negb_orb; intros En; subst g3;
      destruct (same || bool_decide (p = idle r)); try discriminate En.
    - eapply wp_mono; [apply (wp_setprio_requeue _ _ cpu p pi_task prio H2 Hr3); [by eexists|]|].
      + intros q Eq. apply (upd_task_some p f s q). auto.
      + cbn beta. intros _ s' H'. rewrite locked_g_upd_task, upd_task_twice in H'. exact H'.
    - exact H2. }
  cbn beta. intros _ s3 H3. eapply (wp_unlock_balance g3 s3 cpu r); [exact H3| |exact Hl|].
  - subst g3. destruct (_ || _); exact Hr.
  - intros s' H'. subst g3. destruct (same || _); exact H'.
Qed.

(** C33. Priority inheritance: [rt_mutex_setprio], called with the task's own lock
    held, gives the task the more urgent of its own normal priority and the
    top waiter's, moves it to the class of that priority (the idle task and a
    task whose priority stays keep priority and class), remembers the waiter,
    and releases the run queue; nothing else changes up to what the classes
    own. *)
Theorem rt_mutex_setprio_refines s p t r pi_task w :
  task_pre true s p t r ->
  (forall q, pi_task = Some q -> is_Some (k_tasks s !! q)) -> w = pi_task ≫= (fun q => k_tasks s !! q) ->
  exists s', rt_mutex_setprio p pi_task s = Ok tt s'
    /\ core_same true (setprio_spec p pi_task r t w s) s' /\ clamps_in_range s'.
Proof using KL.
  intros Hpre Hq Hw.
  destruct (wp_elim _ _ _ (rt_mutex_setprio_correct s p t r pi_task w Hpre Hq Hw)) as ([] & s' & E & [H1 H2]).
  exists s'. done.
Qed.
End Inherit.
