(* ===== verification/SetschedSpec.v ===== *)
(** * SetschedSpec: what [__sched_setscheduler] promises

    The verdict on a request (refused with an error, nothing to change, change),
    the change as a function of one task, and the theorem that the code carries
    the verdict out and leaves everything else, the locks included, as it was.
    A second group reads the verdict: what an unprivileged user can obtain. *)

From S2P Require Import Prelude Task KernelApi Prio Rq RqClock Uclamp UclampFacts UclampTrace UclampAttr.
From S2P Require Import State Sched SchedFacts ScheduleSpec Setprio TaskLock Machine SetprioSpec.

Section Verdict.
Context {P : PrioApi} {Y : PolicyApi} {U : UclampApi} {A : AttrFlagApi} {K : SchedClassOps} {V : SetprioEnv}.

(** A negative policy asks to keep the task's own. *)
Definition requested_policy (attr : sched_attr) (t : task_struct) : Z :=
  if attr_policy attr <? 0 then policy t else attr_policy attr.
Definition requested_reset (attr : sched_attr) (t : task_struct) : bool :=
  if attr_policy attr <? 0 then sched_reset_on_fork t else has (sched_flags attr) SCHED_FLAG_RESET_ON_FORK.

Inductive verdict := Refuse (e : Z) | Store | Change.

Definition request_error (p : ptr) (t : task_struct) (attr : sched_attr) (user : bool) : Z :=
  if negb (attr_policy attr <? 0) && negb (valid_policy (attr_policy attr)) then - EINVAL
  else setscheduler_check p t attr user (requested_policy attr t) (requested_reset attr t).

Definition setscheduler_verdict (s : kstate) (p : ptr) (t : task_struct) (r : rq) (attr : sched_attr)
    (user : bool) : verdict :=
  if nz (request_error p t attr user) then Refuse (request_error p t attr user)
  else if bool_decide (stop r = Some p) then Refuse (- EINVAL)
  else if setscheduler_nochange t attr (requested_policy attr t) then Store
  else if user && negb (setscheduler_admit s (task_cpu t) p t attr (requested_policy attr t)) then Refuse (- EPERM)
  else Change.

(** ** The change of the task *)

Definition normal_prio_for (policy rt_priority static_prio : Z) : Z :=
  if dl_policy policy then MAX_DL_PRIO - 1
  else if rt_policy policy then s32 (u32 (MAX_RT_PRIO - 1 - rt_priority))
  else static_prio.

Definition new_static (attr : sched_attr) (policy static_prio : Z) : Z :=
  if dl_policy policy then static_prio
  else if fair_policy policy then NICE_TO_PRIO (sched_nice attr) else static_prio.

(** Policy, static and real-time priority from the attributes, and the normal
    priority they give. *)
Definition with_params (attr : sched_attr) (t : task_struct) : task_struct :=
  let pol := if attr_policy attr =? SETPARAM_POLICY then policy t else attr_policy attr in
  let st := new_static attr pol (static_prio t) in
  t <| policy := pol |> <| static_prio := st |> <| rt_priority := sched_priority attr |>
    <| normal_prio := normal_prio_for pol (sched_priority attr) st |>.

(** The priority in use: boosted by the top waiter [w], if the caller minds it. *)
Definition with_prio (pi : bool) (w : option task_struct) (t : task_struct) : task_struct :=
  let pr := if pi then __rt_effective_prio w (normal_prio t) else normal_prio t in
  t <| prio := pr |> <| t_sched_class := class_of_prio pr |>.

Definition setsched_params (attr : sched_attr) (pi : bool) (w : option task_struct) (t : task_struct) : task_struct :=
  if has (sched_flags attr) SCHED_FLAG_KEEP_PARAMS then t else with_prio pi w (with_params attr t).

Definition setsched_task (attr : sched_attr) (pi reset_on_fork : bool) (w : option task_struct) (t : task_struct)
    : task_struct :=
  __setscheduler_uclamp (setsched_params attr pi w (t <| sched_reset_on_fork := reset_on_fork |>)) attr.
End Verdict.

Section Params.
Context {P : PrioApi} {PL : PrioLaws P} {Y : PolicyApi} {U : UclampApi} {UL : UclampLaws U} {A : AttrFlagApi}
  {AL : AttrFlagLaws A} {F : FlagApi} {C : ClockConfig} {K : SchedClassOps} {KL : SchedClassLaws K}
  {V : SetprioEnv} {VL : SetprioLaws V}.

Lemma with_params_commutes attr : task_commutes (with_params attr).
Proof.
  split; [|by intros ? []]. intros t. unfold with_params.
  assert (policy (erase_task true t) = policy t) as -> by kept_field.
  assert (static_prio (erase_task true t) = static_prio t) as -> by kept_field.
  generalize (if attr_policy attr =? SETPARAM_POLICY then policy t else attr_policy attr). intros pol. cbv zeta.
  generalize (new_static attr pol (static_prio t)). intros st.
  generalize (normal_prio_for pol (sched_priority attr) st). intros n. reflexivity.
Qed.

Lemma with_prio_commutes pi w : task_commutes (with_prio pi w).
Proof.
  split; [|by intros ? []]. intros t. unfold with_prio.
  assert (normal_prio (erase_task true t) = normal_prio t) as -> by kept_field.
  generalize (if pi then __rt_effective_prio w (normal_prio t) else normal_prio t). intros n. reflexivity.
Qed.

(** [__setscheduler_params] sets the parameters. *)
Lemma wp_setscheduler_params g s p t attr :
  tracks g s -> k_tasks g !! p = Some t -> static_ok (with_params attr t) ->
  wp (__setscheduler_params p attr) (fun _ s' => tracks (upd_task p (with_params attr) g) s') s.
Proof using VL.
  intros H Hp Hs. destruct (tracks_task _ _ _ _ H Hp) as (t1 & Ht1 & E). unfold __setscheduler_params.
  apply wp_bind. eapply wp_task_of; [exact Ht1|]. cbv zeta.
  set (pol := if attr_policy attr =? SETPARAM_POLICY then policy t1 else attr_policy attr).
  set (t2 := if dl_policy pol then _ else _).
  assert (erase_task true t2 = (erase_task true t1) <| policy := pol |>
            <| static_prio := new_static attr pol (static_prio t1) |>) as E2.
  { subst t2. unfold new_static. destruct (dl_policy pol).
    - rewrite (erase_task_weaken _ _ (law_setparam_dl attr (t1 <| policy := pol |>))). by destruct t1.
    - destruct (fair_policy pol); [reflexivity|by destruct t1]. }
  assert (forall id, uclamp t2 id = uclamp t1 id /\ uclamp_req t2 id = uclamp_req t1 id) as Hu.
  { intros id. subst t2. destruct (dl_policy pol); [|destruct (fair_policy pol); by destruct id].
    destruct (law_setparam_dl_clamps attr (t1 <| policy := pol |>) id) as [-> ->]. by destruct id. }
  assert (normal_prio_of (t2 <| rt_priority := sched_priority attr |>) =
    normal_prio_for pol (sched_priority attr) (new_static attr pol (static_prio t1))) as En.
  { rewrite <- (normal_prio_erase true).
    change (erase_task true (t2 <| rt_priority := sched_priority attr |>))
      with ((erase_task true t2) <| rt_priority := sched_priority attr |>). rewrite E2. reflexivity. }
  rewrite En. clearbody t2. apply wp_bind, wp_put_task.
  assert (tracks (upd_task p (with_params attr) g) (s <| k_tasks := <[p := t2 <| rt_priority := sched_priority attr |>
    <| normal_prio := normal_prio_for pol (sched_priority attr) (new_static attr pol (static_prio t1)) |>]> (k_tasks s) |>)) as H2.
  { apply (tracks_put g s p t1); [exact H|exact Ht1|apply with_params_commutes| |].
    - unfold with_params. assert (policy (erase_task true t1) = policy t1) as -> by kept_field.
      assert (static_prio (erase_task true t1) = static_prio t1) as -> by kept_field. fold pol. cbv zeta.
      generalize dependent (new_static attr pol (static_prio t1)). intros st E2 _.
      generalize (normal_prio_for pol (sched_priority attr) st). intros n.
      change (erase_task true (t2 <| rt_priority := ?a |> <| normal_prio := ?b |>))
        with ((erase_task true t2) <| rt_priority := a |> <| normal_prio := b |>). rewrite E2. reflexivity.
    - intros id. destruct (Hu id) as [<- <-]. by destruct id. }
  eapply wp_track_load_weight; [exact H2|by apply upd_task_at|exact Hs|done].
Qed.

(** The top waiter of the task, as the state has it. *)
Definition top_waiter (g : kstate) (t : task_struct) : option task_struct :=
  pi_top_task t ≫= (fun q => k_tasks g !! q).
Definition waiter_ok (g : kstate) (p : ptr) (t : task_struct) : Prop :=
  forall q, pi_top_task t = Some q -> q <> p /\ is_Some (k_tasks g !! q).

Lemma wp_rt_effective_prio g s p t x pr (Q : Z -> kstate -> Prop) :
  tracks g s -> waiter_ok g p t -> pi_top_task x = pi_top_task t ->
  Q (__rt_effective_prio (top_waiter g t) pr) s -> wp (rt_effective_prio x pr) Q s.
Proof.
  intros H Hw Ex HQ. unfold rt_effective_prio, top_waiter in *. rewrite Ex.
  destruct (pi_top_task t) as [q|] eqn:Eq; [|exact HQ]. destruct (Hw q Eq) as [_ [y Hy]].
  simpl in HQ. rewrite Hy in HQ. destruct (tracks_task _ _ _ _ H Hy) as (z & Hz & Ez).
  unfold task_opt. wp_go. apply wp_ret. unfold __rt_effective_prio in *.
  by rewrite (erase_field true prio _ _ ltac:(kept_field) Ez).
Qed.

Lemma wp___setscheduler g s p t attr pi :
  tracks g s -> k_tasks g !! p = Some t -> static_ok (with_params attr t) -> waiter_ok g p t ->
  wp (__setscheduler p attr pi) (fun _ s' => tracks (upd_task p (setsched_params attr pi (top_waiter g t)) g) s') s.
Proof using VL.
  intros H Hp Hs Hw. unfold __setscheduler, setsched_params. destruct (has _ _).
  { apply wp_ret. by rewrite (upd_task_id p _ g). }
  apply wp_bind. eapply wp_mono; [by eapply wp_setscheduler_params|]. cbn beta. intros _ s1 H1.
  set (g1 := upd_task p (with_params attr) g) in *.
  assert (k_tasks g1 !! p = Some (with_params attr t)) as Hp1 by by apply upd_task_at.
  destruct (tracks_task _ _ _ _ H1 Hp1) as (t1 & Ht1 & E1). apply wp_bind. eapply wp_task_of; [exact Ht1|].
  assert (normal_prio_of t1 = normal_prio (with_params attr t)) as En.
  { rewrite <- (normal_prio_erase true), E1, normal_prio_erase. unfold with_params. reflexivity. }
  cbv zeta. rsimpl. rewrite En. set (n := normal_prio (with_params attr t)) in *.
  assert (top_waiter g1 (with_params attr t) = top_waiter g t) as Ew.
  { unfold top_waiter. change (pi_top_task (with_params attr t)) with (pi_top_task t).
    destruct (pi_top_task t) as [q|] eqn:Eq; [|done]. simpl. destruct (Hw q Eq) as [Hne _].
    change (k_tasks (upd_task p (with_params attr) g) !! q = k_tasks g !! q).
    by rewrite upd_task_lookup, decide_False. }
  apply wp_bind. set (pr := if pi then __rt_effective_prio (top_waiter g t) n else n).
  assert (tracks (upd_task p (with_prio pi (top_waiter g t)) g1)
    (s1 <| k_tasks := <[p := t1 <| prio := n |> <| prio := pr |> <| t_sched_class := class_of_prio pr |>]> (k_tasks s1) |>)) as H2.
  { apply (tracks_put g1 s1 p t1); [exact H1|exact Ht1|apply with_prio_commutes| |by intros []].
    unfold with_prio. rewrite E1. assert (normal_prio (erase_task true (with_params attr t)) = n) as -> by kept_field.
    fold pr. clearbody pr n. rewrite <- E1. reflexivity. }
  subst g1. rewrite upd_task_twice in H2. destruct pi.
  - eapply (wp_rt_effective_prio _ s1 p (with_params attr t)); [exact H1| |by rewrite <- (erase_field true pi_top_task _ _ ltac:(kept_field) E1)|].
    + intros q Eq. destruct (Hw q Eq) as [? ?]. split; [done|by apply upd_task_some].
    + rewrite Ew. apply wp_put_task. exact H2.
  - apply wp_ret, wp_put_task. exact H2.
Qed.

(** ** The clamps of the request *)

(** The clamp values the flags select are capacities. *)
Definition clamp_request_ok (attr : sched_attr) : Prop :=
  (has (sched_flags attr) SCHED_FLAG_UTIL_CLAMP_MIN = true -> 0 <= sched_util_min attr <= SCHED_CAPACITY_SCALE) /\
  (has (sched_flags attr) SCHED_FLAG_UTIL_CLAMP_MAX = true -> 0 <= sched_util_max attr <= SCHED_CAPACITY_SCALE).

Lemma validated_request t attr :
  0 <= sched_util_min attr -> 0 <= sched_util_max attr ->
  (has (sched_flags attr) SCHED_FLAG_UTIL_CLAMP = true -> uclamp_validate t attr = 0) -> clamp_request_ok attr.
Proof using AL.
  intros H1 H2. rewrite has_util_clamp. unfold clamp_request_ok, uclamp_validate.
  destruct (has _ SCHED_FLAG_UTIL_CLAMP_MIN), (has _ SCHED_FLAG_UTIL_CLAMP_MAX); cbn [orb]; intros Hv;
    try (specialize (Hv eq_refl); revert Hv; case_ifs; intros Hv; try discriminate Hv); bool_cases; split; intros; lia.
Qed.

Lemma task_in_range_req t id u : task_in_range t -> se_in_range u -> task_in_range (set_uclamp_req t id u).
Proof.
  intros Ht Hu id'. pose proof (Ht UCLAMP_MIN) as [? ?]. pose proof (Ht UCLAMP_MAX) as [? ?].
  split; destruct id, id'; done.
Qed.

Lemma setscheduler_uclamp_range t attr :
  buckets_fit -> clamp_request_ok attr -> task_in_range t -> task_in_range (__setscheduler_uclamp t attr).
Proof using UL.
  intros Hfit [Hmin Hmax] Ht.
  assert (forall x v ud, 0 <= v <= SCHED_CAPACITY_SCALE -> se_in_range (uclamp_se_set x v ud)) as Hset
    by (intros; by apply se_wf_bucket, uclamp_se_set_wf).
  assert (forall x id, task_in_range x -> task_in_range (reset_default_clamp x id)) as Hreset.
  { intros x id Hx. unfold reset_default_clamp. destruct (uc_user_defined _); [done|].
    apply task_in_range_req; [done|]. apply Hset. destruct (_ && _), id; done. }
  unfold __setscheduler_uclamp. pose proof (Hreset _ UCLAMP_MAX (Hreset _ UCLAMP_MIN Ht)) as H2.
  destruct (negb _); [done|].
  destruct (has _ SCHED_FLAG_UTIL_CLAMP_MIN), (has _ SCHED_FLAG_UTIL_CLAMP_MAX); repeat apply task_in_range_req; auto.
Qed.

Lemma setscheduler_uclamp_erase attr t :
  erase_task true (__setscheduler_uclamp t attr) = __setscheduler_uclamp (erase_task true t) attr.
Proof.
  assert (forall x id u, erase_task true (set_uclamp_req x id u) = set_uclamp_req (erase_task true x) id u) as Hs
    by by intros ? [] ?.
  assert (forall x id, uclamp_req (erase_task true x) id = uclamp_req x id) as Hq by by intros ? [].
  assert (forall x id, erase_task true (reset_default_clamp x id) = reset_default_clamp (erase_task true x) id) as Hr.
  { intros x id. unfold reset_default_clamp. rewrite Hq. destruct (uc_user_defined _); [done|]. rewrite Hs. reflexivity. }
  unfold __setscheduler_uclamp. rewrite <- !Hr. set (x := reset_default_clamp (reset_default_clamp t _) _).
  destruct (negb _); [done|].
  destruct (has _ SCHED_FLAG_UTIL_CLAMP_MIN), (has _ SCHED_FLAG_UTIL_CLAMP_MAX); rewrite ?Hs, ?Hq, ?Hs, ?Hq; done.
Qed.

Lemma wp_track_uclamp g s p attr (Q : unit -> kstate -> Prop) :
  tracks g s -> is_Some (k_tasks g !! p) -> buckets_fit -> clamp_request_ok attr ->
  (forall s', tracks (upd_task p (fun t => __setscheduler_uclamp t attr) g) s' -> Q tt s') ->
  wp (set_task p (fun t => __setscheduler_uclamp t attr)) Q s.
Proof using UL.
  intros H Hp Hfit Hreq HQ. apply wp_upd_task; [by eapply tracks_task_some|]. apply HQ. destruct H as [H1 H2]. split.
  - unfold core_same in *. rewrite !erase_upd_task by (intros; apply setscheduler_uclamp_erase). rewrite H1. reflexivity.
  - destruct H2 as [A1 A2 A3]. split; [|exact A2|exact A3]. intros q t. rewrite upd_task_lookup.
    case_decide; [|apply A1]. intros (t0 & Ht0 & ->)%fmap_Some. apply setscheduler_uclamp_range; [done|done|by eapply A1].
Qed.

(** ** The change under the locks *)

Lemma wp_setscheduler_change g s cpu p t attr reset pi :
  tracks g s -> is_Some (k_rqs g !! cpu) -> k_tasks g !! p = Some t ->
  static_ok (with_params attr t) -> waiter_ok g p t -> buckets_fit -> clamp_request_ok attr ->
  wp (setscheduler_change cpu p attr reset pi)
    (fun _ s' => tracks (upd_task p (setsched_task attr pi reset (top_waiter g t)) g) s') s.
Proof using UL KL VL.
  intros H Hr Hp Hs Hw Hfit Hreq. destruct (tracks_task _ _ _ _ H Hp) as (t1 & Ht1 & E1).
  unfold setscheduler_change. apply wp_bind. eapply wp_task_of; [exact Ht1|]. cbv zeta.
  apply wp_bind, wp_put_task. rewrite (insert_alter (k_tasks s) p t1 (fun t => t <| sched_reset_on_fork := reset |>) Ht1).
  set (f1 := fun t : task_struct => t <| sched_reset_on_fork := reset |>).
  assert (tracks (upd_task p f1 g) (upd_task p f1 s)) as H1 by (apply tracks_upd_task; [commutes|exact H]).
  fold (upd_task p f1 s). revert H1. generalize (upd_task p f1 s). intros s1 H1. set (g1 := upd_task p f1 g) in *.
  assert (k_tasks g1 !! p = Some (f1 t)) as Hp1 by by apply upd_task_at.
  assert (waiter_ok g1 p (f1 t)) as Hw1.
  { intros q Eq. destruct (Hw q Eq) as [? ?]. split; [done|by apply upd_task_some]. }
  assert (top_waiter g1 (f1 t) = top_waiter g t) as Ew.
  { unfold top_waiter. change (pi_top_task (f1 t)) with (pi_top_task t).
    destruct (pi_top_task t) as [q|] eqn:Eq; [|done]. destruct (Hw q Eq) as [Hne _].
    change (k_tasks (upd_task p f1 g) !! q = k_tasks g !! q). by rewrite upd_task_lookup, decide_False. }
  apply wp_bind. apply (wp_mono _ (fun _ s' => tracks g1 s')).
  { destruct pi; [|by apply wp_ret]. eapply (wp_rt_effective_prio g1 s1 p (f1 t)); [exact H1|exact Hw1| |exact H1].
    by rewrite (erase_field true pi_top_task _ _ ltac:(kept_field) E1). }
  intros pr s2 H2. apply wp_bind. eapply wp_track_task_current; [exact H2|exact Hr|]. intros running.
  eapply wp_track_unqueue; [exact H2|exact Hr|by eexists|]. intros s3 H3.
  destruct (tracks_task_some _ _ _ H3 (mk_is_Some _ _ Hp1)) as [t3 Ht3]. apply wp_bind. eapply wp_task_of; [exact Ht3|].
  apply wp_bind. eapply wp_mono; [by apply (wp___setscheduler g1 s3 p (f1 t))|]. cbn beta. intros _ s4 H4.
  rewrite Ew in H4. apply wp_bind. eapply wp_track_uclamp; [exact H4|apply upd_task_some; by eexists|done|done|].
  intros s5 H5. subst g1. rewrite !upd_task_twice in H5.
  change (tracks (upd_task p (setsched_task attr pi reset (top_waiter g t)) g) s5) in H5.
  assert (is_Some (k_tasks (upd_task p (setsched_task attr pi reset (top_waiter g t)) g) !! p)) as Hp5
    by (apply upd_task_some; by exists t).
  destruct (tracks_task_some _ _ _ H5 Hp5) as [t5 Ht5]. apply wp_bind. eapply wp_task_of; [exact Ht5|].
  eapply wp_track_requeue; [exact H5|exact Hr|exact Hp5|]. intros s6 H6.
  apply wp_check_class_changed; [exact H6|exact Hp5].
Qed.

(** ** The whole call *)

(** The readers of the cpusets, held on the way. *)
Definition cpuset_held (pi : bool) (g : kstate) : kstate :=
  if pi then g <| k_cpuset := k_cpuset g + 1 |> else g.

Lemma tracks_cpuset g s : tracks g s -> k_cpuset s = k_cpuset g.
Proof. intros [H _]. exact (f_equal k_cpuset H). Qed.

Lemma cpuset_held_same pi g :
  k_tasks (cpuset_held pi g) = k_tasks g /\ k_rqs (cpuset_held pi g) = k_rqs g /\ k_sys (cpuset_held pi g) = k_sys g
  /\ forall p f, upd_task p f (cpuset_held pi g) = cpuset_held pi (upd_task p f g).
Proof. by destruct pi. Qed.

Lemma wp_cpuset_unlock g s pi (k : M unit) (Q : unit -> kstate -> Prop) :
  tracks (cpuset_held pi g) s -> (forall s', tracks g s' -> wp k Q s') ->
  wp (when pi cpuset_read_unlock;; k) Q s.
Proof.
  intros H Hk. destruct pi; [|by apply Hk]. apply wp_bind, wp_modify.
  apply Hk. rewrite (tracks_cpuset _ _ H).
  apply (tracks_state (fun x => x <| k_cpuset := k_cpuset g |>)) in H; [|done|done].
  change (k_cpuset (cpuset_held true g)) with (k_cpuset g + 1). rewrite Z.add_simpl_r.
  assert ((cpuset_held true g) <| k_cpuset := k_cpuset g |> = g) as E by by destruct g. rewrite E in H. exact H.
Qed.

Lemma wp_setscheduler_unlock g s cpu p r t pi ret (Q : Z -> kstate -> Prop) :
  tracks (locked_task p cpu (cpuset_held pi g)) s ->
  k_rqs g !! cpu = Some r -> rq_lock r = false -> k_tasks g !! p = Some t -> pi_lock t = false ->
  (forall s', tracks g s' -> Q ret s') -> wp (setscheduler_unlock cpu p pi ret) Q s.
Proof.
  intros H Hr Hl Hp Hpl HQ. destruct (cpuset_held_same pi g) as (E1 & E2 & _). apply wp_bind.
  eapply (wp_track_task_rq_unlock (cpuset_held pi g) s cpu p r t);
    [exact H|by rewrite E2|exact Hl|by rewrite E1|exact Hpl|]. intros s1 H1.
  assert (wp (when pi cpuset_read_unlock;; mret tt) (fun _ s' => Q ret s') s1) as Hu
    by (eapply wp_cpuset_unlock; [exact H1|intros; by apply HQ]).
  revert Hu. unfold wp, mbind, M_bind. by destruct (when pi cpuset_read_unlock s1).
Qed.

(** What follows a change. *)
Lemma wp_setscheduler_finish g s cpu p r t pi (Q : Z -> kstate -> Prop) :
  tracks (locked_task p cpu (cpuset_held pi g)) s ->
  k_rqs g !! cpu = Some r -> rq_lock r = false -> k_tasks g !! p = Some t -> pi_lock t = false ->
  (pi = true -> forall x, rt_mutex_adjust_pi p x = x) ->
  (forall s', tracks g s' -> Q 0 s') ->
  wp (preempt_disable;; task_rq_unlock cpu p;;
      when pi (cpuset_read_unlock;; modify (rt_mutex_adjust_pi p));;
      balance_callback cpu;; preempt_enable_no_resched;; mret 0) Q s.
Proof using KL.
  intros H Hr Hl Hp Hpl Hadj HQ.
  apply wp_bind, wp_modify. rewrite (tracks_preempt _ _ H).
  apply (tracks_state (fun x => x <| k_preempt := k_preempt (locked_task p cpu (cpuset_held pi g)) + PREEMPT_DISABLE_OFFSET |>)) in H;
    [|done|done].
  set (g1 := g <| k_preempt := k_preempt g + PREEMPT_DISABLE_OFFSET |>).
  assert ((locked_task p cpu (cpuset_held pi g))
     <| k_preempt := k_preempt (locked_task p cpu (cpuset_held pi g)) + PREEMPT_DISABLE_OFFSET |> = locked_task p cpu (cpuset_held pi g1)) as E.
  { unfold locked_task, locked_g, locked_pi, upd_rq, upd_task, PREEMPT_DISABLE_OFFSET.
    assert (k_preempt (cpuset_held pi g1) = k_preempt (cpuset_held pi g) + 1) as Ep by by destruct pi.
    assert (k_tasks (cpuset_held pi g1) = k_tasks (cpuset_held pi g)) as Et by by destruct pi.
    assert (k_rqs (cpuset_held pi g1) = k_rqs (cpuset_held pi g)) as Er by by destruct pi.
    rsimpl. rewrite Ep, Et, Er.
    by destruct pi. }
  rewrite E in H. revert H.
  generalize (s <| k_preempt := k_preempt (locked_task p cpu (cpuset_held pi g)) + PREEMPT_DISABLE_OFFSET |>). intros s1 H1.
  destruct (cpuset_held_same pi g1) as (E1 & E2 & _). apply wp_bind.
  eapply (wp_track_task_rq_unlock (cpuset_held pi g1) s1 cpu p r t);
    [exact H1|by rewrite E2|exact Hl|by rewrite E1|exact Hpl|]. intros s2 H2. apply wp_bind.
  apply (wp_mono _ (fun _ s' => tracks g1 s')).
  { assert (wp (when pi cpuset_read_unlock;; mret tt) (fun _ s' => tracks g1 s') s2) as Hu
      by (eapply wp_cpuset_unlock; [exact H2|intros; by apply wp_ret]).
    destruct pi; [|exact Hu]. apply wp_bind. revert Hu. unfold wp, mbind, M_bind. simpl.
    intros Hu. unfold modify. rewrite Hadj by done. exact Hu. }
  cbn beta. intros _ s3 H3. apply wp_bind.
  eapply wp_mono; [apply (wp_balance_callback g1 s3 cpu r); [exact H3|exact Hr|exact Hl]|].
  cbn beta. intros _ s4 H4. apply wp_bind, wp_modify, wp_ret, HQ. rewrite (tracks_preempt _ _ H4).
  apply (tracks_state (fun x => x <| k_preempt := k_preempt g |>)) in H4; [|done|done].
  replace (k_preempt g1 + - PREEMPT_DISABLE_OFFSET) with (k_preempt g)
    by (change (k_preempt g1) with (k_preempt g + 1); unfold PREEMPT_DISABLE_OFFSET; lia).
  assert (g1 <| k_preempt := k_preempt g |> = g) as Eg by by destruct g. rewrite Eg in H4. exact H4.
Qed.

(** States and requests the call is made in: the locks are free, the top waiter is
    another task, a nice value and clamps asked for are in range, and with [pi]
    the task waits for no lock itself, so that there is no chain to walk. *)
Record setsched_pre (s : kstate) (p : ptr) (t : task_struct) (r : rq) (attr : sched_attr) (pi : bool) : Prop := {
  ss_task : task_pre false s p t r;
  ss_waiter : waiter_ok s p t;
  ss_static : static_ok (with_params attr t);
  ss_clamps : 0 <= sched_util_min attr /\ 0 <= sched_util_max attr;
  ss_buckets : buckets_fit;
  ss_pi : pi = true -> in_interrupt = false /\ forall x, rt_mutex_adjust_pi p x = x
}.

Lemma nochange_pi_lock t attr policy b :
  setscheduler_nochange (t <| pi_lock := b |>) attr policy = setscheduler_nochange t attr policy.
Proof using VL.
  unfold setscheduler_nochange. rewrite (law_dl_param_changed t (t <| pi_lock := b |>) attr) by done. reflexivity.
Qed.

Lemma admit_locked s p cpu pi t attr policy c b :
  setscheduler_admit (upd_rq cpu (update_rq_clock c) (locked_task p cpu (cpuset_held pi s))) cpu p
    (t <| pi_lock := b |>) attr policy = setscheduler_admit s cpu p t attr policy.
Proof using VL.
  unfold setscheduler_admit.
  rewrite (law_group_stable s (upd_rq cpu (update_rq_clock c) (locked_task p cpu (cpuset_held pi s))) p).
  - reflexivity.
  - change (dom (alter (fun t => t <| pi_lock := true |>) p (k_tasks (cpuset_held pi s))) = dom (k_tasks s)).
    rewrite dom_alter_L. by destruct pi.
  - by destruct pi.
Qed.

Lemma check_request p t attr user :
  request_error p t attr user = 0 ->
  has (sched_flags attr) SCHED_FLAG_UTIL_CLAMP = true -> uclamp_validate t attr = 0.
Proof.
  unfold request_error, setscheduler_check. intros H E. rewrite E in H. revert H.
  repeat (match goal with |- (if ?b then _ else _) = 0 -> _ => destruct b eqn:?; [intros H; try discriminate H|] end).
  - exfalso. match goal with H : _ && nz _ = true |- _ => apply andb_true_iff in H as [_ H]; apply nz_true in H; done end.
  - done.
Qed.

(** What the call leaves, for each verdict. *)
Definition setscheduler_result (s : kstate) (p : ptr) (t : task_struct) (attr : sched_attr) (pi : bool)
    (v : verdict) (ret : Z) (s' : kstate) : Prop :=
  match v with
  | Refuse e => ret = e /\ tracks s s'
  | Store =>
      let reset := requested_reset attr t in
      ret = 0 /\ tracks (upd_task p (fun t => t <| sched_reset_on_fork := reset |>) s) s'
  | Change =>
      (ret = - EBUSY /\ dl_policy (requested_policy attr t) || dl_task t = true /\ tracks s s') \/
      (ret = 0 /\ tracks (upd_task p (setsched_task attr pi (requested_reset attr t) (top_waiter s t)) s) s')
  end.

Lemma setsched_task_pi_lock attr pi reset w t b :
  setsched_task attr pi reset w (t <| pi_lock := b |>) = (setsched_task attr pi reset w t) <| pi_lock := b |>.
Proof.
  assert (forall x id u, set_uclamp_req (x <| pi_lock := b |>) id u = (set_uclamp_req x id u) <| pi_lock := b |>) as Hs
    by by intros ? [] ?.
  assert (forall x id, uclamp_req (x <| pi_lock := b |>) id = uclamp_req x id) as Hq by by intros ? [].
  assert (forall x id, reset_default_clamp (x <| pi_lock := b |>) id = (reset_default_clamp x id) <| pi_lock := b |>) as Hr.
  { intros x id. unfold reset_default_clamp. rewrite Hq. destruct (uc_user_defined _); [done|]. rewrite <- Hs. reflexivity. }
  unfold setsched_task.
  assert (setsched_params attr pi w (t <| pi_lock := b |> <| sched_reset_on_fork := reset |>) =
    (setsched_params attr pi w (t <| sched_reset_on_fork := reset |>)) <| pi_lock := b |>) as ->.
  { unfold setsched_params. by destruct (has _ _). }
  generalize (setsched_params attr pi w (t <| sched_reset_on_fork := reset |>)). intros x.
  unfold __setscheduler_uclamp. rewrite !Hr. destruct (negb _); [done|].
  destruct (has _ SCHED_FLAG_UTIL_CLAMP_MIN), (has _ SCHED_FLAG_UTIL_CLAMP_MAX); rewrite ?Hq, ?Hs, ?Hq, ?Hs; done.
Qed.

(** The state after the locks are taken and the clock is read. *)
Definition entered (s : kstate) (p : ptr) (cpu : Z) (pi : bool) (c : clock_reading) : kstate :=
  upd_rq cpu (update_rq_clock c) (locked_task p cpu (cpuset_held pi s)).

Lemma entered_facts s p t r pi c :
  task_pre false s p t r ->
  let cpu := task_cpu t in
  let s1 := entered s p cpu pi c in
  tracks (locked_task p cpu (cpuset_held pi s)) s1
  /\ k_tasks s1 !! p = Some (t <| pi_lock := true |>)
  /\ exists r1, k_rqs s1 !! cpu = Some r1 /\ stop r1 = stop r.
Proof.
  intros [Ht Hpl Hr Hl Hm Hc] cpu s1. destruct (cpuset_held_same pi s) as (E1 & E2 & E3 & _). split_and!.
  - apply tracks_clock, tracks_refl, clamps_locked. destruct Hc as [A1 A2 A3].
    split; [by rewrite E1|by rewrite E2|by rewrite E3].
  - apply (locked_task_at p cpu (cpuset_held pi s)). by rewrite E1.
  - exists (update_rq_clock c (r <| rq_lock := true |>)). split.
    + subst s1. unfold entered. rewrite upd_rq_lookup, decide_True by done.
      change (k_rqs (locked_task p cpu (cpuset_held pi s)))
        with (k_rqs (upd_rq cpu (fun r => r <| rq_lock := true |>) (cpuset_held pi s))).
      by rewrite upd_rq_lookup, decide_True, E2, (Hr : k_rqs s !! cpu = Some r).
    + exact (erase_rq_field stop (r <| rq_lock := true |>) _ ltac:(done) (proj1 (update_rq_clock_frame c _))).
Qed.

(** A change of the task made under the locks is a change of the state before. *)
Lemma locked_change p cpu pi f g :
  (forall t, f (t <| pi_lock := true |>) = (f t) <| pi_lock := true |>) ->
  upd_task p f (locked_task p cpu (cpuset_held pi g)) = locked_task p cpu (cpuset_held pi (upd_task p f g)).
Proof.
  intros Hf. unfold locked_task. rewrite locked_g_upd_task, locked_pi_upd_task by exact Hf.
  destruct (cpuset_held_same pi g) as (_ & _ & _ & ->). reflexivity.
Qed.

(** The admission test of the deadline class and the change itself. *)
Lemma wp_setscheduler_commit s s1 p t r attr pi pol :
  setsched_pre s p t r attr pi -> clamp_request_ok attr ->
  let cpu := task_cpu t in
  tracks (locked_task p cpu (cpuset_held pi s)) s1 ->
  wp (overflow ← (if dl_policy pol || dl_task t
                  then s ← get; let '(s', b) := sched_dl_overflow p pol attr s in
                       modify (fun _ => s');; mret b
                  else mret false);
      if overflow : bool then setscheduler_unlock cpu p pi (- EBUSY)
      else
        setscheduler_change cpu p attr (requested_reset attr t) pi;;
        preempt_disable;; task_rq_unlock cpu p;;
        when pi (cpuset_read_unlock;; modify (rt_mutex_adjust_pi p));;
        balance_callback cpu;; preempt_enable_no_resched;; mret 0)
    (fun ret s' => (ret = - EBUSY /\ dl_policy pol || dl_task t = true /\ tracks s s') \/
       (ret = 0 /\ tracks (upd_task p (setsched_task attr pi (requested_reset attr t) (top_waiter s t)) s) s')) s1.
Proof using UL KL VL.
  intros [Hpre Hw Hs _ Hfit Hpi] Hreq cpu H1. pose proof Hpre as [Ht Hpl Hr Hl Hm Hc].
  destruct (cpuset_held_same pi s) as (E1 & E2 & E3 & Eu). set (g := locked_task p cpu (cpuset_held pi s)) in *.
  assert (k_tasks g !! p = Some (t <| pi_lock := true |>)) as Hpg by (apply locked_task_at; by rewrite E1).
  apply wp_bind. apply (wp_mono _ (fun b s' => (b = true -> dl_policy pol || dl_task t = true) /\ tracks g s')).
  { destruct (dl_policy pol || dl_task t); [|by apply wp_ret]. apply wp_bind, wp_get.
    pose proof (law_dl_overflow p pol attr s1) as Hd. destruct (sched_dl_overflow p pol attr s1) as [s2 b].
    apply wp_bind, wp_modify, wp_ret. split; [done|]. eapply tracks_frame; [exact Hd|exact H1]. }
  intros overflow s2 [Hov H2]. destruct overflow.
  { eapply (wp_setscheduler_unlock s); [exact H2|exact Hr|exact Hl|exact Ht|exact Hpl|]. intros s' H'. left. auto. }
  apply wp_bind. eapply wp_mono.
  { apply (wp_setscheduler_change g s2 cpu p (t <| pi_lock := true |>));
      [exact H2|apply locked_task_rq; rewrite E2; by exists r|exact Hpg|exact Hs| |exact Hfit|exact Hreq].
    intros q Eq. destruct (Hw q Eq) as [? ?]. split; [done|]. apply (upd_task_some p (fun t => t <| pi_lock := true |>)).
    by rewrite E1. }
  cbn beta. intros _ s3 H3.
  assert (top_waiter g (t <| pi_lock := true |>) = top_waiter s t) as Ew.
  { unfold top_waiter. change (pi_top_task (t <| pi_lock := true |>)) with (pi_top_task t).
    destruct (pi_top_task t) as [q|] eqn:Eq; [|done]. destruct (Hw q Eq) as [Hne _].
    change (k_tasks (upd_task p (fun t => t <| pi_lock := true |>) (cpuset_held pi s)) !! q = k_tasks s !! q).
    by rewrite upd_task_lookup, decide_False, E1. }
  rewrite Ew in H3. unfold g in H3. rewrite locked_change in H3 by (intros; apply setsched_task_pi_lock).
  eapply wp_setscheduler_finish; [exact H3|exact Hr|exact Hl|by apply upd_task_at| |by intros Ep; apply Hpi|].
  - pose proof (setsched_task_pi_lock attr pi (requested_reset attr t) (top_waiter s t) t false) as El.
    assert (t <| pi_lock := false |> = t) as Et by (destruct t; cbn in Hpl; by subst). rewrite Et in El. by rewrite El.
  - intros s' H'. right. done.
Qed.

(** After the locks are taken. *)
Lemma wp_setscheduler_locked s recheck p t r attr user pi c oldpolicy :
  setsched_pre s p t r attr pi -> request_error p t attr user = 0 ->
  oldpolicy = -1 \/ oldpolicy = policy t ->
  wp (setscheduler_locked recheck (task_cpu t) p attr user pi (requested_policy attr t) oldpolicy (requested_reset attr t))
    (setscheduler_result s p t attr pi (setscheduler_verdict s p t r attr user)) (entered s p (task_cpu t) pi c).
Proof using UL AL KL VL.
  intros Hss Herr Hold. pose proof Hss as [Hpre Hw Hs [Hu1 Hu2] Hfit Hpi]. pose proof Hpre as [Ht Hpl Hr Hl Hm Hc].
  unfold setscheduler_verdict. rewrite Herr. change (nz 0) with false. cbv iota.
  destruct (entered_facts s p t r pi c Hpre) as (H1 & Ht1 & r1 & Hr1 & Estop).
  set (cpu := task_cpu t) in *. set (g := locked_task p cpu (cpuset_held pi s)) in *.
  unfold setscheduler_locked. apply wp_bind, wp_get. apply wp_bind. eapply wp_rq_of; [exact Hr1|].
  apply wp_bind. eapply wp_task_of; [exact Ht1|]. rewrite Estop, nochange_pi_lock.
  assert (setscheduler_admit (entered s p cpu pi c) cpu p (t <| pi_lock := true |>) attr (requested_policy attr t) =
    setscheduler_admit s cpu p t attr (requested_policy attr t)) as -> by apply admit_locked.
  revert H1 Ht1. generalize (entered s p cpu pi c). intros s1 H1 Ht1.
  assert (forall ret (Q : Z -> kstate -> Prop), (forall s', tracks s s' -> Q ret s') ->
    wp (setscheduler_unlock cpu p pi ret) Q s1) as Hun by (intros; by eapply (wp_setscheduler_unlock s)).
  destruct (bool_decide (stop r = Some p)); [by apply (Hun (- EINVAL))|].
  destruct (setscheduler_nochange t attr (requested_policy attr t)).
  { apply wp_bind, wp_put_task.
    rewrite (insert_alter (k_tasks s1) p _ (fun t' => t' <| sched_reset_on_fork := requested_reset attr t |>) Ht1).
    set (f := fun t' : task_struct => t' <| sched_reset_on_fork := requested_reset attr t |>).
    fold (upd_task p f s1).
    apply (tracks_upd_task p f) in H1; [|commutes]. unfold g in H1. rewrite locked_change in H1 by done.
    eapply wp_setscheduler_unlock; [exact H1|exact Hr|exact Hl|by apply upd_task_at|exact Hpl|]. intros s' H'. done. }
  destruct (user && _); [by apply (Hun (- EPERM))|].
  assert (negb (oldpolicy =? -1) && negb (oldpolicy =? policy (t <| pi_lock := true |>)) = false) as ->.
  { destruct Hold as [-> | ->]; [done|]. rsimpl. by rewrite Z.eqb_refl, andb_false_r. }
  apply (wp_setscheduler_commit s s1 p t r attr pi); [exact Hss| |exact H1].
  eapply (validated_request t); [exact Hu1|exact Hu2|by eapply check_request].
Qed.

Lemma task_pre_cpuset s p t r pi : task_pre false s p t r -> task_pre false (cpuset_held pi s) p t r.
Proof.
  intros [Ht Hpl Hr Hl Hm [A1 A2 A3]]. destruct (cpuset_held_same pi s) as (E1 & E2 & E3 & _).
  split; rewrite ?E1, ?E2; try done. split; [by rewrite E1|by rewrite E2|by rewrite E3].
Qed.

Lemma sched_setscheduler_correct fuel s p t r attr user pi :
  setsched_pre s p t r attr pi ->
  wp (__sched_setscheduler (S fuel) p attr user pi)
    (setscheduler_result s p t attr pi (setscheduler_verdict s p t r attr user)) s.
Proof using UL AL KL VL.
  intros Hss. pose proof Hss as [Hpre _ _ _ _ Hpi]. pose proof Hpre as [Ht _ Hr _ _ Hc]. unfold __sched_setscheduler.
  assert (pi && in_interrupt = false) as -> by (destruct pi; [by destruct (Hpi eq_refl) as [-> _]|done]).
  cbn [__sched_setscheduler_loop]. apply wp_bind. eapply wp_task_of; [exact Ht|]. cbv zeta.
  fold (requested_policy attr t) (requested_reset attr t) (request_error p t attr user).
  destruct (nz (request_error p t attr user)) eqn:Eerr.
  { apply wp_ret. unfold setscheduler_verdict. rewrite Eerr. split; [done|by apply tracks_refl]. }
  apply nz_false in Eerr.
  assert (wp (when pi cpuset_read_lock) (fun _ s' => s' = cpuset_held pi s) s) as Hcs by by destruct pi.
  apply wp_bind. eapply wp_mono; [exact Hcs|]. cbn beta. intros _ s1 ->.
  apply wp_bind. eapply wp_task_rq_lock; [by apply task_pre_cpuset|].
  destruct (locked_task_rq p (task_cpu t) (cpuset_held pi s)) as [r1 Hr1].
  { destruct (cpuset_held_same pi s) as (_ & -> & _). by exists r. }
  apply wp_bind. eapply wp_update_clock_exact; [exact Hr1|].
  apply (wp_setscheduler_locked s _ p t r attr user pi); [exact Hss|exact Eerr|].
  destruct (attr_policy attr <? 0); [by right|by left].
Qed.

(** C34. [__sched_setscheduler] carries out the verdict on the request: refused
    requests return their error and change nothing; a request that changes
    nothing stores the reset-on-fork flag; otherwise the task gets the policy,
    the priorities and the clamps asked for, with a priority boosted by its top
    waiter and the class of that priority, or, for deadline tasks only, EBUSY
    with nothing changed.  On every path the call ends after one round, with
    both locks and the cpuset lock released. *)
Theorem sched_setscheduler_refines fuel s p t r attr user pi :
  setsched_pre s p t r attr pi ->
  exists ret s', __sched_setscheduler (S fuel) p attr user pi s = Ok ret s'
    /\ setscheduler_result s p t attr pi (setscheduler_verdict s p t r attr user) ret s'.
Proof using UL AL KL VL.
  intros H. exact (wp_elim _ _ _ (sched_setscheduler_correct fuel s p t r attr user pi H)).
Qed.
End Params.

(** ** What an unprivileged user can obtain *)

Section Permission.
Context {P : PrioApi} {Y : PolicyApi} {U : UclampApi} {A : AttrFlagApi} {K : SchedClassOps} {V : SetprioEnv}.

(** The limits on a request of a user without the capability. *)
Record within_limits (p : ptr) (t : task_struct) (attr : sched_attr) : Prop := {
  wl_owner : cred_euid = task_euid p \/ cred_euid = task_uid p;
  wl_deadline : dl_policy (requested_policy attr t) = false;
  wl_nice : fair_policy (requested_policy attr t) = true ->
    task_nice t <= sched_nice attr \/ nice_to_rlimit (sched_nice attr) <= rlimit_nice p;
  wl_rt_policy : rt_policy (requested_policy attr t) = true ->
    requested_policy attr t = policy t \/ rlimit_rtprio p <> 0;
  wl_rt_prio : rt_policy (requested_policy attr t) = true ->
    sched_priority attr <= rt_priority t \/ sched_priority attr <= rlimit_rtprio p;
  wl_idle : task_has_idle_policy t = true -> idle_policy (requested_policy attr t) = false ->
    nice_to_rlimit (task_nice t) <= rlimit_nice p;
  wl_reset : sched_reset_on_fork t = true -> requested_reset attr t = true;
  wl_flags : has (sched_flags attr) SCHED_FLAG_SUGOV = false
}.

(** Rules for everybody: the stop task is not touched, and the real-time priority
    is zero exactly for the other policies and at most the user's maximum for a
    task with an address space. *)
Record well_formed_request (p : ptr) (t : task_struct) (r : rq) (attr : sched_attr) : Prop := {
  wf_stop : stop r <> Some p;
  wf_prio : rt_policy (requested_policy attr t) = true <-> sched_priority attr <> 0;
  wf_user_max : is_Some (mm t) -> sched_priority attr <= MAX_USER_RT_PRIO - 1;
  wf_max : ~ is_Some (mm t) -> sched_priority attr <= MAX_RT_PRIO - 1;
  wf_flags : andnot (sched_flags attr) (Z.lor SCHED_FLAG_ALL SCHED_FLAG_SUGOV) = 0
}.

Lemma not_refused s p t r attr user :
  (forall e, setscheduler_verdict s p t r attr user <> Refuse e) ->
  setscheduler_check p t attr user (requested_policy attr t) (requested_reset attr t) = 0 /\ stop r <> Some p.
Proof.
  unfold setscheduler_verdict, request_error. intros H. destruct (negb _ && _); [by edestruct H|].
  destruct (nz _) eqn:E; [by edestruct H|]. apply nz_false in E. split; [done|].
  intros Hs. rewrite bool_decide_eq_true_2 in H by done. by edestruct H.
Qed.

(** Undo a conjunction of tests that failed. *)
Ltac failed_tests :=
  repeat match goal with
  | H : _ && _ = false |- _ => apply andb_false_iff in H as [H|H]
  | H : negb _ = false |- _ => apply negb_false_iff in H
  | H : (_ || _) = true |- _ => apply orb_true_iff in H as [H|H]
  end; bool_cases.

(** The first test of a chain did not refuse. *)
Ltac passed E := lazymatch goal with |- (if ?b then _ else _) = 0 -> _ => destruct b eqn:E; [done|] end.

(** C35. A user without the capability gets a request through only for a task of
    their own, never for the deadline policy, and only within the limits: the
    nice level is not lowered below what the resource limit allows, the
    real-time policy and a higher real-time priority need the real-time limit,
    leaving the idle policy needs the nice limit, and the reset-on-fork flag
    cannot be dropped.  For everybody the priority range of the policy holds
    and the stop task is left alone. *)
Theorem setscheduler_unprivileged s p t r attr :
  capable_sys_nice = false -> (forall e, setscheduler_verdict s p t r attr true <> Refuse e) ->
  within_limits p t attr /\ well_formed_request p t r attr.
Proof.
  intros Hcap Hv. apply not_refused in Hv as [Hc Hs]. revert Hc. unfold setscheduler_check, check_same_owner, can_nice.
  rewrite Hcap. cbn [negb andb]. rewrite !orb_false_r.
  passed E1. passed E2. passed E4. passed E6. passed E7. passed E8. passed E9. passed E10. passed E11.
  passed E12. passed E13. intros _. apply nz_false in E1.
  apply orb_false_iff in E2 as [E2 E3]. apply orb_false_iff in E4 as [E4 E5].
  apply negb_false_iff, eqb_prop in E5. split; split; try done.
  - apply negb_false_iff, orb_true_iff in E11. rewrite !Z.eqb_eq in E11. exact E11.
  - intros Hf. rewrite Hf in E6. clear - E6. failed_tests; try done; lia.
  - intros Hf. rewrite Hf in E7. clear - E7. failed_tests; try done; [by left|right]. by apply nz_true.
  - intros Hf. rewrite Hf in E8. clear - E8. failed_tests; try done; lia.
  - intros Hf Hi. rewrite Hf, Hi in E10. clear - E10. failed_tests; done.
  - intros Hf. rewrite Hf in E12. clear - E12. failed_tests; done.
  - rewrite E5. apply nz_true.
  - intros Hm. rewrite bool_decide_eq_true_2 in E2 by exact Hm. clear - E2. failed_tests; try done; lia.
  - intros Hm. rewrite bool_decide_eq_false_2 in E3 by exact Hm. clear - E3. failed_tests; try done; lia.
Qed.
End Permission.
