(* ===== verification/SetprioDemo.v ===== *)
(** * SetprioDemo: the theorems on priorities and policies at work

    An ordinary user on the machine of [Machine]: no capability, a real-time
    limit of 10, a nice limit of 20 (levels from 0).  Every hypothesis of the
    theorems of [SetprioSpec] and [SetschedSpec] holds here. *)

From S2P Require Import Prelude Task KernelApi Prio Rq RqClock Uclamp UclampFacts UclampTrace.
From S2P Require Import State Sched SchedFacts ScheduleSpec Setprio TaskLock Machine.
From S2P Require Import SetprioSpec SetschedSpec.

#[export] Instance plain_user : SetprioEnv := {|
  rlimit_nice _ := 20;
  rlimit_rtprio _ := 10;
  capable_sys_nice := false;
  cred_euid := 1000;
  task_euid _ := 1000;
  task_uid _ := 1000;
  security_task_setnice _ _ := 0;
  security_task_setscheduler _ := 0;
  in_interrupt := false;
  reweight_task t x :=
    match array_get sched_prio_to_weight x, array_get sched_prio_to_wmult x with
    | Some w, Some m => t <| t_se := (t_se t) <| se_load := mk_load_weight (scale_load w) m |> |>
    | _, _ => t
    end;
  __checkparam_dl a := (0 <? sched_runtime a) && (sched_runtime a <=? sched_deadline a);
  __setparam_dl a t := t <| t_dl := (t_dl t) <| dl_runtime := sched_runtime a |> |>;
  dl_param_changed t a := negb (dl_runtime (t_dl t) =? sched_runtime a);
  dl_entity_preempt a b := dl_abs_deadline (t_dl a) <? dl_abs_deadline (t_dl b);
  sched_dl_overflow _ _ _ s := (s, false);
  rt_mutex_adjust_pi _ s := s;
  CONFIG_RT_GROUP_SCHED := false;
  rt_bandwidth_enabled := true;
  tg_rt_runtime _ := 950000;
  dl_bandwidth_enabled := true;
  rd_span _ := {[ 0 ]};
  rd_dl_bw _ := 1000;
  find_task_by_vpid s pid := if bool_decide (is_Some (k_tasks s !! Z.to_pos pid)) then Some (Z.to_pos pid) else None;
  security_task_getscheduler _ := 0;
  __getparam_dl t a := a <| sched_runtime := dl_runtime (t_dl t) |>;
  SCHED_ATTR_SIZE_VER0 := 48;
  SCHED_ATTR_SIZE_VER1 := 56;
  sizeof_sched_attr := 56;
  PAGE_SIZE := 4096
|}.

#[export] Instance plain_user_laws : SetprioLaws (K := choosing 3%positive) plain_user.
Proof.
  split; intros; try done; try by destruct id.
  1, 2: by cbn; repeat case_match; try done; destruct id.
  cbn. f_equal. f_equal. by rewrite H.
Qed.

(** Task 3 sleeps on the queue with nice 0; task 2 runs. *)
Definition plain_task : task_struct :=
  (user_task 30) <| prio := 120 |> <| static_prio := 120 |> <| normal_prio := 120 |>.
Definition nice_machine : kstate :=
  machine <| k_tasks := <[3%positive := plain_task]> (k_tasks machine) |>.

Lemma nice_machine_pre : task_pre false nice_machine 3%positive plain_task machine_rq.
Proof. split; try reflexivity; [done|]. apply clamps_b_ok. vm_compute. reflexivity. Qed.

Lemma nice_levels : MAX_NICE < MIN_NICE + 40.
Proof. reflexivity. Qed.

(** Raising the priority of the running task: refused, nothing changes. *)
Definition running_task : task_struct :=
  (user_task 20) <| on_cpu := 1 |> <| prio := 120 |> <| static_prio := 120 |> <| normal_prio := 120 |>.
Definition running_machine : kstate :=
  nice_machine <| k_tasks := <[2%positive := running_task]> (k_tasks nice_machine) |>.

Lemma running_machine_pre : task_pre false running_machine 2%positive running_task machine_rq.
Proof. split; try reflexivity; [done|]. apply clamps_b_ok. vm_compute. reflexivity. Qed.

Lemma sys_nice_permission_witness :
  exists ret s', sys_nice (K := choosing 3%positive) (-5) running_machine = Ok ret s' /\
    ret = - EPERM /\ s' = running_machine.
Proof.
  pose proof (sys_nice_permission (P := linux58_prio) (K := choosing 3%positive) running_machine 2%positive
    running_task machine_rq (-5) running_machine_pre eq_refl eq_refl nice_levels) as H. cbv zeta in H.
  assert ((-5 <? 0) && negb ((nice_to_rlimit (nice_target running_task (-5)) <=? rlimit_nice 2%positive)
    || capable_sys_nice) = true) as E by (vm_compute; reflexivity).
  rewrite E in H. exact H.
Defined.

(** Task 3 owns a lock a real-time task waits for. *)
Definition rt_waiter : task_struct :=
  (user_task 20) <| prio := 50 |> <| static_prio := 120 |> <| normal_prio := 50 |> <| t_sched_class := rt_sched_class |>
    <| on_rq := 0 |>.
Definition pi_machine : kstate :=
  machine <| k_tasks := <[4%positive := rt_waiter]> (<[3%positive := plain_task <| pi_lock := true |>]> (k_tasks machine)) |>.

Lemma pi_machine_pre : task_pre true pi_machine 3%positive (plain_task <| pi_lock := true |>) machine_rq.
Proof. split; try reflexivity; [done|]. apply clamps_b_ok. vm_compute. reflexivity. Qed.

Lemma rt_mutex_setprio_refines_witness :
  exists s', rt_mutex_setprio (K := choosing 3%positive) 3%positive (Some 4%positive) pi_machine = Ok tt s'
    /\ core_same true (setprio_spec 3%positive (Some 4%positive) machine_rq (plain_task <| pi_lock := true |>)
                         (Some rt_waiter) pi_machine) s' /\ clamps_in_range s'.
Proof.
  apply (rt_mutex_setprio_refines (P := linux58_prio) (K := choosing 3%positive) pi_machine 3%positive
    (plain_task <| pi_lock := true |>) machine_rq (Some 4%positive) (Some rt_waiter) pi_machine_pre).
  - intros q [= <-]. by exists rt_waiter.
  - reflexivity.
Defined.

(** SCHED_FIFO with priority 7 is within the user's limit of 10. *)
Definition fifo_request : sched_attr := mk_sched_attr 1 0 0 7 0 0 0 0 0.

Lemma fifo_pre : setsched_pre nice_machine 3%positive plain_task machine_rq fifo_request true.
Proof.
  split.
  - exact nice_machine_pre.
  - intros q. discriminate.
  - vm_compute. split; congruence.
  - vm_compute. split; congruence.
  - by vm_compute.
  - done.
Qed.

Lemma sched_setscheduler_refines_witness :
  exists ret s', __sched_setscheduler (K := choosing 3%positive) 1 3%positive fifo_request true true nice_machine = Ok ret s'
    /\ setscheduler_result nice_machine 3%positive plain_task fifo_request true Change ret s'.
Proof.
  apply (sched_setscheduler_refines (P := linux58_prio) (U := five_buckets) (A := linux58_attr_flags)
    (UL := uclamp_config_laws 5 ltac:(lia)) (K := choosing 3%positive) 0 nice_machine 3%positive plain_task machine_rq
    fifo_request true true fifo_pre).
Defined.

Lemma setscheduler_unprivileged_witness :
  within_limits 3%positive plain_task fifo_request /\ well_formed_request 3%positive plain_task machine_rq fifo_request.
Proof.
  apply (setscheduler_unprivileged (P := linux58_prio) (A := linux58_attr_flags) (K := choosing 3%positive)
    nice_machine 3%positive plain_task machine_rq fifo_request); [reflexivity|].
  intros e H. vm_compute in H. discriminate H.
Defined.
