(* ===== verification/Reweight.v ===== *)
(** * Reweight: a nice level reaches the queue the task is on

    The tracking of [SetprioSpec] forgets the scheduling entities and the counters
    of the run queues, which the classes own.  Here they are followed through
    [set_user_nice]: the weight of the task, whether it is queued, the number of
    tasks of each run queue and the weight its fair queue accounts for. *)

From S2P Require Import Prelude Task KernelApi Prio Rq RqClock Uclamp UclampTrace.
From S2P Require Import State Sched SchedFacts ScheduleSpec Setprio Views TaskLock Machine SetprioSpec SetprioDemo.

(** The fair queue of a CPU keeps the sum of the weights of the tasks on it, part
    of the class's data in the run queue. *)
Class QueueWeight := { queue_weight : rq -> Z }.

Definition entity (t : task_struct) : Z * load_weight := (se_on_rq (t_se t), se_load (t_se t)).
Definition account {Q : QueueWeight} (r : rq) : Z * Z := (nr_running r, queue_weight r).
Definition entities (s : kstate) : gmap ptr (Z * load_weight) := entity <$> k_tasks s.
Definition accounts {Q : QueueWeight} (s : kstate) : gmap Z (Z * Z) := account <$> k_rqs s.

(** What a task of class [c] and load [l] adds to the weight of the fair queue. *)
Definition fair_weight (c : sched_class) (l : load_weight) : Z :=
  if bool_decide (c = fair_sched_class) then lw_weight l else 0.
Definition fair_queued (c : sched_class) (on : Z) (e : Z * load_weight) : Z * load_weight :=
  if bool_decide (c = fair_sched_class) then (on, e.2) else e.

(** The accounting of the classes, without throttling: enqueue and dequeue change the number of tasks
    by one, and for the fair class mark the entity and change the weight by that of
    the entity, as it then is; the other methods of the call change neither; and
    [reweight_task], on an entity that is not queued, takes the weight of the level
    from the tables. *)
Class WeightLaws {P : PrioApi} {U : UclampApi} (K : SchedClassOps) (V : SetprioEnv) (Q : QueueWeight) : Prop := {
  wl_enqueue c cpu p fl s t r :
    k_tasks s !! p = Some t -> k_rqs s !! cpu = Some r -> c <> idle_sched_class ->
    (c = fair_sched_class -> se_on_rq (t_se t) = 0) ->
    let s' := op_enqueue_task c cpu p fl s in
    entities s' = <[p := fair_queued c 1 (entity t)]> (entities s) /\
    accounts s' = <[cpu := (nr_running r + 1, queue_weight r + fair_weight c (se_load (t_se t)))]> (accounts s);
  wl_dequeue c cpu p fl s t r :
    k_tasks s !! p = Some t -> k_rqs s !! cpu = Some r -> c <> idle_sched_class ->
    (c = fair_sched_class -> se_on_rq (t_se t) = 1) ->
    let s' := op_dequeue_task c cpu p fl s in
    entities s' = <[p := fair_queued c 0 (entity t)]> (entities s) /\
    accounts s' = <[cpu := (nr_running r - 1, queue_weight r - fair_weight c (se_load (t_se t)))]> (accounts s);
  wl_put_prev c cpu p s : let s' := op_put_prev_task c cpu p s in entities s' = entities s /\ accounts s' = accounts s;
  wl_set_next c cpu p s : let s' := op_set_next_task c cpu p s in entities s' = entities s /\ accounts s' = accounts s;
  wl_prio_changed c cpu p o s : let s' := op_prio_changed c cpu p o s in entities s' = entities s /\ accounts s' = accounts s;
  wl_reweight t x w m :
    array_get sched_prio_to_weight x = Some w -> array_get sched_prio_to_wmult x = Some m ->
    entity (reweight_task t x) = (se_on_rq (t_se t), mk_load_weight (scale_load w) m);
  wl_lock r b : queue_weight (r <| rq_lock := b |>) = queue_weight r;
  wl_clock {F : FlagApi} {C : ClockConfig} c r : queue_weight (update_rq_clock c r) = queue_weight r;
  wl_clamps r id u : queue_weight (set_rq_uclamp r id u) = queue_weight r;
  wl_flags r v : queue_weight (r <| uclamp_flags := v |>) = queue_weight r
}.

Section Reweight.
Context {P : PrioApi} {PL : PrioLaws P} {Y : PolicyApi} {U : UclampApi} {F : FlagApi} {C : ClockConfig}
  {K : SchedClassOps} {KL : SchedClassLaws K} {V : SetprioEnv} {VL : SetprioLaws V} {Q : QueueWeight} {WL : WeightLaws K V Q}.

(** ** Calls that change no weight and no count *)

Definition fate (t : task_struct) : Z * Z * sched_class * Z := (task_cpu t, on_rq t, t_sched_class t, policy t).
Definition fates (s : kstate) : gmap ptr (Z * Z * sched_class * Z) := fate <$> k_tasks s.
Definition same_weights (s s' : kstate) : Prop :=
  entities s' = entities s /\ accounts s' = accounts s /\ fates s' = fates s.

#[export] Instance weights_view : View (fun t => (entity t, fate t)) account same_weights.
Proof using WL.
  split; try done.
  - split; [by split|]. intros s1 s2 s3 (H1 & H2 & H3) (H4 & H5 & H6). split_and!; congruence.
  - intros s s' p t t' Ht [= He1 He2 He3 He4 He5 He6] E1 E2 _. unfold same_weights, entities, accounts, fates. rewrite E1, E2.
    split_and!; [apply (fmap_put _ _ _ t)|done|apply (fmap_put _ _ _ t)]; try done; unfold entity, fate; congruence.
  - intros s s' c r r' Hr He E1 E2 _. unfold same_weights, entities, accounts, fates. rewrite E1, E2.
    split_and!; [done|by apply (fmap_put _ _ _ r)|done].
  - intros s s' E1 E2 _. unfold same_weights, entities, accounts, fates. by rewrite E1, E2.
  - intros r b. unfold account. by rewrite wl_lock.
  - intros F' C' c r. unfold account. rewrite wl_clock. f_equal.
    unfold update_rq_clock, update_rq_clock_task, account_irq, account_steal.
    destruct (has _ _); [done|]. destruct CONFIG_SCHED_DEBUG, (_ <? 0); try done;
      by destruct CONFIG_IRQ_TIME_ACCOUNTING, (CONFIG_PARAVIRT_TIME_ACCOUNTING && paravirt_steal_rq_enabled).
Qed.
#[export] Instance weights_blind : ClampBlind (fun t => (entity t, fate t)) account.
Proof using WL.
  split.
  - by intros t [].
  - intros r id u. unfold account. rewrite wl_clamps. by destruct id.
  - intros r v. unfold account. by rewrite wl_flags.
Qed.

Lemma fates_kframe s s' : kframe false s s' -> fates s' = fates s.
Proof. apply fmap_kframe. done. Qed.

Lemma hook_weights f : (forall s, kframe false s (f s)) ->
  (forall s, entities (f s) = entities s /\ accounts (f s) = accounts s) -> forall s, same_weights s (f s).
Proof. intros Hf Hw s. destruct (Hw s). split_and!; [done..|by apply fates_kframe]. Qed.

Lemma weights_put_prev cpu p : quiet same_weights (put_prev_task cpu p).
Proof using KL WL. apply quiet_put_prev_task. intros c. apply hook_weights; [apply law_put_prev|apply wl_put_prev]. Qed.
Lemma weights_set_next cpu p : quiet same_weights (set_next_task cpu p).
Proof using KL WL. apply quiet_set_next_task. intros c. apply hook_weights; [apply law_set_next|apply wl_set_next]. Qed.

Lemma weights_task s s' p t : same_weights s s' -> k_tasks s !! p = Some t ->
  exists t', k_tasks s' !! p = Some t' /\ entity t' = entity t /\ fate t' = fate t.
Proof.
  intros (H1 & _ & H2) Ht. destruct (fmap_at _ _ _ _ _ H1 Ht) as (t' & Ht' & E1).
  destruct (fmap_at _ _ _ _ _ H2 Ht) as (t2 & Ht2 & E2). rewrite Ht' in Ht2. injection Ht2 as <-. eauto.
Qed.
Lemma weights_rq s s' c r : same_weights s s' -> k_rqs s !! c = Some r ->
  exists r', k_rqs s' !! c = Some r' /\ account r' = account r.
Proof. intros (_ & H & _) Hr. exact (fmap_at _ _ _ _ _ H Hr). Qed.

(** ** The steps that do *)

Lemma enqueue_weighs cpu p fl s a s' t r :
  k_tasks s !! p = Some t -> k_rqs s !! cpu = Some r -> t_sched_class t <> idle_sched_class ->
  (t_sched_class t = fair_sched_class -> se_on_rq (t_se t) = 0) -> enqueue_task cpu p fl s = Ok a s' ->
  entities s' = <[p := fair_queued (t_sched_class t) 1 (entity t)]> (entities s) /\
  accounts s' = <[cpu := (nr_running r + 1, queue_weight r + fair_weight (t_sched_class t) (se_load (t_se t)))]> (accounts s) /\
  fates s' = fates s.
Proof using KL WL.
  intros Ht Hr Hc Hon (x & t1 & V1 & Ht1 & _ & ->)%(enqueue_task_inv (R := same_weights)).
  destruct (weights_task _ _ _ _ V1 Ht) as (t1' & Ht1' & Ee & Ef). rewrite Ht1 in Ht1'. injection Ht1' as <-.
  destruct (weights_rq _ _ _ _ V1 Hr) as (r1 & Hr1 & Ea). destruct V1 as (<- & <- & <-).
  unfold fate in Ef. injection Ef as _ _ Ec _. unfold account in Ea. injection Ea as <- <-.
  pose proof Ee as Ee'. unfold entity in Ee'. injection Ee' as Eon El. rewrite <- Ec in *. rewrite <- Ee, <- El.
  rewrite <- Eon in Hon. destruct (wl_enqueue (t_sched_class t1) cpu p fl x t1 r1 Ht1 Hr1 Hc Hon) as [H1 H2].
  split_and!; [exact H1|exact H2|]. apply fates_kframe, law_enqueue.
Qed.

Lemma dequeue_weighs cpu p fl s a s' t r :
  k_tasks s !! p = Some t -> k_rqs s !! cpu = Some r -> t_sched_class t <> idle_sched_class ->
  (t_sched_class t = fair_sched_class -> se_on_rq (t_se t) = 1) -> dequeue_task cpu p fl s = Ok a s' ->
  entities s' = <[p := fair_queued (t_sched_class t) 0 (entity t)]> (entities s) /\
  accounts s' = <[cpu := (nr_running r - 1, queue_weight r - fair_weight (t_sched_class t) (se_load (t_se t)))]> (accounts s) /\
  fates s' = fates s.
Proof using KL WL.
  intros Ht Hr Hc Hon (x & t1 & V1 & Ht1 & _ & ->)%(dequeue_task_inv (R := same_weights)).
  destruct (weights_task _ _ _ _ V1 Ht) as (t1' & Ht1' & Ee & Ef). rewrite Ht1 in Ht1'. injection Ht1' as <-.
  destruct (weights_rq _ _ _ _ V1 Hr) as (r1 & Hr1 & Ea). destruct V1 as (<- & <- & <-).
  unfold fate in Ef. injection Ef as _ _ Ec _. unfold account in Ea. injection Ea as <- <-.
  pose proof Ee as Ee'. unfold entity in Ee'. injection Ee' as Eon El. rewrite <- Ec in *. rewrite <- Ee, <- El.
  rewrite <- Eon in Hon. destruct (wl_dequeue (t_sched_class t1) cpu p fl x t1 r1 Ht1 Hr1 Hc Hon) as [H1 H2].
  split_and!; [exact H1|exact H2|]. apply fates_kframe, law_dequeue.
Qed.

(** The load of a nice level: the weight of the level, or that of the idle policy. *)
Definition nice_load (t : task_struct) (nice : Z) : option load_weight :=
  if task_has_idle_policy t then Some (mk_load_weight (scale_load WEIGHT_IDLEPRIO) WMULT_IDLEPRIO)
  else
    weight ← array_get sched_prio_to_weight (nice - MIN_NICE);
    inv_weight ← array_get sched_prio_to_wmult (nice - MIN_NICE);
    Some (mk_load_weight (scale_load weight) inv_weight).

Lemma load_weight_weighs s a s' p t nice :
  MIN_NICE <= nice < MIN_NICE + 40 ->
  k_tasks s !! p = Some t -> static_prio t = NICE_TO_PRIO nice -> set_load_weight_of p s = Ok a s' ->
  exists l, nice_load t nice = Some l /\ entities s' = <[p := (se_on_rq (t_se t), l)]> (entities s) /\
    accounts s' = accounts s /\ fates s' = fates s.
Proof using PL VL WL.
  intros Hn Ht Hs. unfold set_load_weight_of. intros (t0 & ? & [-> Ht0]%task_of_inv & H)%bind_inv.
  rewrite Ht in Ht0. injection Ht0 as <-. apply bind_inv in H as (t1 & s1 & E1 & [= _ <-]).
  destruct (set_load_weight reweight_task t true) as [x|] eqn:Ex; [|done]. injection E1 as <- <-.
  assert (erase_task false x = erase_task false t /\ exists l, nice_load t nice = Some l /\ entity x = (se_on_rq (t_se t), l))
    as (He & l & Hl & Hx).
  { revert Ex. unfold set_load_weight, nice_load. destruct (task_has_idle_policy t); [intros [= <-]; by eauto|].
    rewrite Hs, nice_to_prio_spec. replace (MAX_RT_PRIO + (nice - MIN_NICE) - MAX_RT_PRIO) with (nice - MIN_NICE) by lia.
    destruct (array_get_is_Some sched_prio_to_weight (nice - MIN_NICE)) as [w Ew]; [simpl; lia|].
    destruct (array_get_is_Some sched_prio_to_wmult (nice - MIN_NICE)) as [m Em]; [simpl; lia|].
    rewrite Ew, Em. cbn [mbind option_bind]. destruct (true && _).
    - intros [= <-]. split; [apply law_reweight|]. eexists. split; [done|]. by apply wl_reweight.
    - intros [= <-]. split; [done|]. by eexists. }
  exists l. split; [exact Hl|]. rewrite <- Hx. split_and!; [apply fmap_insert|done|].
  apply (fmap_put _ _ _ t); [done|]. unfold fate.
  by rewrite (erase_field false task_cpu _ _ ltac:(kept_field) He), (erase_field false on_rq _ _ ltac:(kept_field) He),
    (erase_field false t_sched_class _ _ ltac:(kept_field) He), (erase_field false policy _ _ ltac:(kept_field) He).
Qed.

(** ** The whole call *)

(** A queued task is in a class that queues tasks, and its entity says so if that
    is the fair class; the idle task is no task to renice. *)
Definition queued_right (t : task_struct) : Prop :=
  task_on_rq_queued t = true ->
  t_sched_class t <> idle_sched_class /\ (t_sched_class t = fair_sched_class -> se_on_rq (t_se t) = 1).

(** The task's entity has the load [l] and is queued as before; its run queue has
    as many tasks as before and the weight that goes with the new load. *)
Definition reweighed (p : ptr) (t : task_struct) (l : load_weight) (s s' : kstate) : Prop :=
  entities s' = <[p := (se_on_rq (t_se t), l)]> (entities s) /\
  accounts s' = alter (fun '(n, w) => (n, w + if task_on_rq_queued t
    then fair_weight (t_sched_class t) l - fair_weight (t_sched_class t) (se_load (t_se t)) else 0)) (task_cpu t) (accounts s).

(** The entity and the counts while the task is off its queue. *)
Definition off_entity (t : task_struct) : Z * load_weight :=
  if task_on_rq_queued t then fair_queued (t_sched_class t) 0 (entity t) else entity t.
Definition off_account (t : task_struct) (r : rq) : Z * Z :=
  if task_on_rq_queued t then (nr_running r - 1, queue_weight r - fair_weight (t_sched_class t) (se_load (t_se t)))
  else account r.

Lemma unqueue_weighs cpu p fl s a s' t r :
  k_tasks s !! p = Some t -> k_rqs s !! cpu = Some r -> queued_right t ->
  when (task_on_rq_queued t) (dequeue_task cpu p fl) s = Ok a s' ->
  entities s' = <[p := off_entity t]> (entities s) /\ accounts s' = <[cpu := off_account t r]> (accounts s) /\ fates s' = fates s.
Proof using KL WL.
  intros Ht Hr Hq. unfold off_entity, off_account. destruct (task_on_rq_queued t) eqn:Eq; cbn [when].
  - destruct (Hq Eq) as [Hc Hon]. by apply dequeue_weighs.
  - intros [= _ <-]. unfold entities, accounts. split_and!; [|symmetry; apply insert_id..|done];
      [symmetry; apply insert_id|]; by rewrite lookup_fmap, ?Ht, ?Hr.
Qed.

(** Putting the task, [x] by now, back. *)
Lemma requeue_weighs cpu p fl s a s' t x r y l :
  k_tasks s !! p = Some x -> k_rqs s !! cpu = Some y -> queued_right t ->
  entity x = ((off_entity t).1, l) -> t_sched_class x = t_sched_class t -> account y = off_account t r ->
  when (task_on_rq_queued t) (enqueue_task cpu p fl) s = Ok a s' ->
  entities s' = <[p := (se_on_rq (t_se t), l)]> (entities s) /\
  accounts s' = <[cpu := (nr_running r, queue_weight r + if task_on_rq_queued t
    then fair_weight (t_sched_class t) l - fair_weight (t_sched_class t) (se_load (t_se t)) else 0)]> (accounts s).
Proof using KL WL.
  intros Hx Hy Hq He Hc Ha. unfold off_entity, off_account in *. destruct (task_on_rq_queued t) eqn:Eq; cbn [when].
  - destruct (Hq Eq) as [Hidle Hon]. unfold account in Ha. injection Ha as Hn Hw. pose proof He as He'. unfold entity in He' at 1.
    injection He' as Ho Hl. intros H. eapply enqueue_weighs in H as (H1 & H2 & _); [|exact Hx|exact Hy|by rewrite Hc|].
    + rewrite H1, H2, He, Hl, Hn, Hw, Hc. split; [|f_equal; f_equal; lia]. f_equal. unfold fair_queued, entity.
      case_bool_decide as Ef; [|done]. by rewrite Hon.
    + rewrite Hc. intros Ef. rewrite Ho. unfold fair_queued. by rewrite bool_decide_eq_true_2.
  - intros [= _ <-]. rewrite Z.add_0_r. unfold entities, accounts. split; symmetry; apply insert_id; rewrite lookup_fmap.
    + by rewrite Hx; cbn; rewrite He.
    + rewrite Hy. cbn. by rewrite Ha.
Qed.
(** The task and its run queue after a step whose effect on the maps is known. *)
Lemma entity_after s s' p t e f :
  k_tasks s !! p = Some t -> entities s' = <[p := e]> (entities s) -> fates s' = f -> f !! p = Some (fate t) ->
  exists t', k_tasks s' !! p = Some t' /\ entity t' = e /\ fate t' = fate t.
Proof.
  intros Ht He Hf Hp. apply (f_equal (lookup p)) in He. rewrite lookup_insert_eq in He. unfold entities in He.
  rewrite lookup_fmap in He. rewrite <- Hf in Hp. unfold fates in Hp. rewrite lookup_fmap in Hp.
  destruct (k_tasks s' !! p) as [t'|]; [|done]. apply (inj Some) in He, Hp. by exists t'.
Qed.
Lemma account_after s s' c r e :
  k_rqs s !! c = Some r -> accounts s' = <[c := e]> (accounts s) -> exists r', k_rqs s' !! c = Some r' /\ account r' = e.
Proof.
  intros Hr He. apply (f_equal (lookup c)) in He. rewrite lookup_insert_eq in He. unfold accounts in He.
  rewrite lookup_fmap in He. destruct (k_rqs s' !! c) as [r'|]; [|done]. apply (inj Some) in He. by exists r'.
Qed.
Lemma fates_at s p t : k_tasks s !! p = Some t -> fates s !! p = Some (fate t).
Proof. intros Ht. unfold fates. by rewrite lookup_fmap, Ht. Qed.

(** The new level and its load. *)
Lemma level_weighs s s1 s2 a1 a2 p t nice :
  MIN_NICE <= nice < MIN_NICE + 40 -> k_tasks s !! p = Some t ->
  set_task p (fun t => t <| static_prio := NICE_TO_PRIO nice |>) s = Ok a1 s1 -> set_load_weight_of p s1 = Ok a2 s2 ->
  exists l, nice_load t nice = Some l /\ entities s2 = <[p := (se_on_rq (t_se t), l)]> (entities s) /\
    accounts s2 = accounts s /\ fates s2 = fates s.
Proof using PL VL WL.
  intros Hn Ht E1 E2. pose proof E1 as V1. apply (quiet_set_task (R := same_weights)) in V1; [|done].
  unfold set_task in E1. apply bind_inv in E1 as (t0 & ? & [-> Ht0]%task_of_inv & [= _ <-]). rewrite Ht in Ht0. injection Ht0 as <-.
  destruct V1 as (<- & <- & <-). set (t1 := t <| static_prio := NICE_TO_PRIO nice |>) in *.
  exact (load_weight_weighs _ _ _ p t1 nice Hn (lookup_insert_eq (k_tasks s) p t1) eq_refl E2).
Qed.

(** The part under the locks: the task is taken off its queue, gets its new load
    and is put back. *)
Lemma locked_reweighs cpu p nice s a s' t r :
  MIN_NICE <= nice < MIN_NICE + 40 -> k_tasks s !! p = Some t -> k_rqs s !! cpu = Some r -> queued_right t ->
  task_has_dl_policy t || task_has_rt_policy t = false -> task_cpu t = cpu ->
  set_user_nice_locked cpu p nice s = Ok a s' ->
  exists l, nice_load t nice = Some l /\ reweighed p t l s s'.
Proof using PL KL VL WL.
  intros Hn Ht Hr Hq Hpol Hcpu. unfold set_user_nice_locked. intros (t0 & ? & [-> Ht0]%task_of_inv & H)%bind_inv.
  rewrite Ht in Ht0. injection Ht0 as <-. rewrite Hpol in H. cbv zeta in H.
  apply bind_inv in H as (running & ? & E0 & H). unfold task_current in E0.
  apply bind_inv in E0 as (r0 & ? & [-> _]%rq_of_inv & [= _ <-]).
  apply bind_inv in H as (? & s1 & E1 & H). destruct (unqueue_weighs _ _ _ _ _ _ _ _ Ht Hr Hq E1) as (U1 & U2 & U3).
  apply bind_inv in H as (? & s2 & (W1 & W2 & W3)%(quiet_when _ _ (weights_put_prev _ _)) & H).
  rewrite <- W1 in U1. rewrite <- W2 in U2. rewrite <- W3 in U3.
  destruct (entity_after _ _ _ _ _ _ Ht U1 U3 (fates_at _ _ _ Ht)) as (t2 & Ht2 & Ee2 & Ef2).
  destruct (account_after _ _ _ _ _ Hr U2) as (r2 & Hr2 & Ea2).
  apply bind_inv in H as (? & s3 & E3 & H). apply bind_inv in H as (? & s4 & E4 & H).
  destruct (level_weighs _ _ _ _ _ _ _ _ Hn Ht2 E3 E4) as (l & Hl & L1 & L2 & L3).
  apply bind_inv in H as (t4' & ? & [-> _]%task_of_inv & H). apply bind_inv in H as (? & s5 & V5 & H).
  apply (quiet_set_task (R := same_weights)) in V5 as (X1 & X2 & X3); [|intros ty; unfold effective_prio; by destruct (negb _)].
  rewrite <- X1 in L1. rewrite <- X2 in L2. rewrite <- X3 in L3.
  destruct (entity_after _ _ _ _ _ _ Ht2 L1 L3 (fates_at _ _ _ Ht2)) as (t5 & Ht5 & Ee5 & Ef5).
  destruct (fmap_at _ _ _ _ _ L2 Hr2) as (r5 & Hr5 & Ea5).
  apply bind_inv in H as (? & s6 & E6 & H). apply bind_inv in H as (? & s7 & V7%(quiet_when _ _ (weights_set_next _ _)) & H).
  apply bind_inv in H as (t7 & ? & [-> _]%task_of_inv & H). apply (quiet_modify (R := same_weights)) in H;
    [|apply hook_weights; [intros; apply law_prio_changed|intros; apply wl_prio_changed]].
  destruct (transitivity V7 H) as (Z1 & Z2 & _). rewrite Ef2 in Ef5. unfold fate in Ef2, Ef5.
  injection Ef2 as _ _ _ Epol. injection Ef5 as _ _ Ec5 _. exists l. split.
  { rewrite <- Hl. unfold nice_load, task_has_idle_policy. by rewrite Epol. }
  assert (se_on_rq (t_se t2) = (off_entity t).1) as Eon by by rewrite <- Ee2.
  apply (requeue_weighs _ _ _ _ _ _ t t5 r r5 l) in E6 as [R1 R2]; try done; [|by rewrite Ee5, Eon|by rewrite Ea5].
  split; [by rewrite Z1, R1, L1, U1, !insert_insert_eq|].
  rewrite Z2, R2, L2, U2, insert_insert_eq, Hcpu.
  symmetry. assert (accounts s !! cpu = Some (account r)) as Ha by (unfold accounts; by rewrite lookup_fmap, Hr).
  rewrite <- (insert_alter (accounts s) cpu _ _ Ha). reflexivity.
Qed.
Lemma lock_weights p s cpu s' t :
  k_tasks s !! p = Some t -> task_rq_lock p s = Ok cpu s' -> cpu = task_cpu t /\ same_weights s s' /\ is_Some (k_rqs s' !! cpu).
Proof using WL.
  intros Ht. unfold task_rq_lock. intros (? & s1 & V1%(quiet_lock_pi (R := same_weights)) & H)%bind_inv.
  destruct (weights_task _ _ _ _ V1 Ht) as (t1 & Ht1 & _ & Ef). unfold fate in Ef. injection Ef as Ec _ _ _.
  apply bind_inv in H as (t1' & ? & [-> Ht1']%task_of_inv & H). rewrite Ht1 in Ht1'. injection Ht1' as <-. cbv zeta in H.
  apply bind_inv in H as (? & s2 & E2 & H). pose proof E2 as V2. apply (quiet_lock_rq (R := same_weights)) in V2.
  apply bind_inv in H as (t2 & ? & [-> _]%task_of_inv & H). destruct (_ && _).
  - injection H as <- <-. split; [exact Ec|]. split; [by transitivity s1|]. unfold lock_rq in E2.
    apply bind_inv in E2 as (r & ? & [-> Hr]%rq_of_inv & E2). destruct (rq_lock r); [done|]. injection E2 as _ <-.
    exists (r <| rq_lock := true |>). apply (lookup_insert_eq (k_rqs s1)).
  - apply bind_inv in H as (? & s3 & _ & H). by apply bind_inv in H as (? & s4 & _ & H).
Qed.

(** The level is one the call accepts and is for the task to run by. *)
Definition reniced (t : task_struct) (nice : Z) : bool :=
  negb (task_has_dl_policy t || task_has_rt_policy t) &&
  (negb (task_nice t =? nice) && (MIN_NICE <=? nice) && (nice <=? MAX_NICE)).

Lemma set_user_nice_weighs s p t nice s' :
  MAX_NICE < MIN_NICE + 40 -> k_tasks s !! p = Some t -> queued_right t -> set_user_nice p nice s = Ok tt s' ->
  if reniced t nice then exists l, nice_load t nice = Some l /\ reweighed p t l s s'
  else entities s' = entities s /\ accounts s' = accounts s.
Proof using PL KL VL WL.
  intros Hw Ht Hq. unfold set_user_nice. intros (t0 & ? & [-> Ht0]%task_of_inv & H)%bind_inv.
  rewrite Ht in Ht0. injection Ht0 as <-. unfold reniced. destruct (_ || (MAX_NICE <? nice)) eqn:Er.
  { injection H as <-. rewrite !orb_true_iff in Er. rewrite (proj2 (andb_false_iff _ _)); [done|right].
    rewrite !andb_false_iff. destruct Er as [[-> | Er] | Er]; bool_cases; [by left; left|left; right|right]; apply Z.leb_gt; lia. }
  apply orb_false_iff in Er as [[Ed Emin]%orb_false_iff Emax]. rewrite Ed. bool_cases.
  rewrite (proj2 (Z.leb_le MIN_NICE nice)), (proj2 (Z.leb_le nice MAX_NICE)) by lia. cbn [negb andb]. rewrite andb_true_r.
  apply bind_inv in H as (cpu & s1 & E1 & H). destruct (lock_weights _ _ _ _ _ Ht E1) as (-> & V1 & Hr).
  apply bind_inv in H as (? & s2 & V2%(quiet_update_clock (R := same_weights)) & H).
  destruct (transitivity V1 V2) as (W1 & W2 & W3). pose proof (transitivity V1 V2) as V3.
  destruct (weights_task _ _ _ _ V3 Ht) as (t2 & Ht2 & Ee & Ef). unfold entity in Ee. unfold fate in Ef.
  injection Ee as Eon El. injection Ef as Ecpu Eq Ec Epol.
  apply bind_inv in H as (? & s3 & E3 & H). unfold task_rq_unlock in H.
  apply bind_inv in H as (? & s4 & V4%(quiet_unlock_rq (R := same_weights)) & V5%(quiet_unlock_pi (R := same_weights))).
  destruct (transitivity V4 V5) as (Z1 & Z2 & _). rewrite Z1, Z2, <- W1, <- W2.
  assert (task_has_dl_policy t2 || task_has_rt_policy t2 = task_has_dl_policy t || task_has_rt_policy t) as Ep
    by (unfold task_has_dl_policy, task_has_rt_policy; by rewrite Epol).
  destruct (task_has_dl_policy t || task_has_rt_policy t) eqn:Epol'; cbn [negb].
  - unfold set_user_nice_locked in E3. apply bind_inv in E3 as (t2' & ? & [-> Ht2']%task_of_inv & E3).
    rewrite Ht2 in Ht2'. injection Ht2' as <-. rewrite Ep in E3.
    apply (quiet_set_task (R := same_weights)) in E3 as (X1 & X2 & _); done.
  - destruct Hr as [r1 Hr1]. destruct (weights_rq _ _ _ _ V2 Hr1) as (r2 & Hr2 & _).
    assert (queued_right t2) as Hq2 by (unfold queued_right, task_on_rq_queued; rewrite Eq, Ec, Eon; exact Hq).
    destruct (locked_reweighs (task_cpu t) p nice s2 _ s3 t2 r2 ltac:(lia) Ht2 Hr2 Hq2 Ep Ecpu E3) as (l & Hl & L1 & L2).
    exists l. split; [rewrite <- Hl; unfold nice_load, task_has_idle_policy; by rewrite Epol|].
    unfold reweighed. rewrite Z1, Z2, L1, L2, Eon, El, Ecpu, Ec, W1, W2. unfold task_on_rq_queued. by rewrite Eq.
Qed.

(** C32. [set_user_nice] gives the task its new level, and the queue it is on the
    weight that goes with it.  The call runs to the end with both locks free
    again.  A level out of range, or the one the task has, changes nothing.  A
    real-time or deadline task only notes the level as its static priority.  Any
    other task takes it as its normal priority and, unless a lock owner boosts it,
    as its priority, and its entity gets the load of the level (the idle policy its
    own load).  The task is queued again if it was queued: its entity is on the
    queue as before, every run queue has as many tasks as before, and the weight of
    the fair queue it is on changes by the difference of the loads, the weights of
    all other queues and tasks not at all. *)
Theorem set_user_nice_refines s p t r nice :
  task_pre false s p t r -> MAX_NICE < MIN_NICE + 40 -> queued_right t ->
  exists s', set_user_nice p nice s = Ok tt s'
    /\ core_same true (set_user_nice_spec p nice s) s' /\ clamps_in_range s'
    /\ if reniced t nice then exists l, nice_load t nice = Some l /\ reweighed p t l s s'
       else entities s' = entities s /\ accounts s' = accounts s.
Proof using PL KL VL WL.
  intros Hpre Hw Hq. destruct (wp_elim _ _ _ (set_user_nice_correct s p t r nice Hpre Hw)) as ([] & s' & E & [H1 H2]).
  exists s'. split; [exact E|]. split; [exact H1|]. split; [exact H2|].
  apply set_user_nice_weighs; [exact Hw|apply Hpre|exact Hq|exact E].
Qed.
End Reweight.

(** ** A fair class that keeps accounts *)

(** The weight is kept in the run queue's field of the fair queue. *)
#[export] Instance cfs_weight : QueueWeight := {| queue_weight := cfs_h_nr_running |}.

(** Task [p] with entity state [on], [n] tasks and [sign] times its weight added. *)
Definition account_for (c : sched_class) (cpu : Z) (p : ptr) (on n : Z) (s : kstate) : kstate :=
  match k_tasks s !! p, k_rqs s !! cpu with
  | Some t, Some r =>
      s <| k_rqs := <[cpu := r <| nr_running := nr_running r + n |>
               <| cfs_h_nr_running := cfs_h_nr_running r + n * fair_weight c (se_load (t_se t)) |>]> (k_rqs s) |>
        <| k_tasks := <[p := if bool_decide (c = fair_sched_class) then t <| t_se := (t_se t) <| se_on_rq := on |> |> else t]> (k_tasks s) |>
  | _, _ => s
  end.

#[export] Instance weighing (choice : ptr) : SchedClassOps := {|
  op_enqueue_task c cpu p _ s := account_for c cpu p 1 1 s;
  op_dequeue_task c cpu p _ s := account_for c cpu p 0 (-1) s;
  op_yield_task := @op_yield_task (choosing choice);
  op_check_preempt_curr := @op_check_preempt_curr (choosing choice);
  op_pick_next_task := @op_pick_next_task (choosing choice);
  op_pick_next_task_fair := @op_pick_next_task_fair (choosing choice);
  op_put_prev_task := @op_put_prev_task (choosing choice);
  op_set_next_task := @op_set_next_task (choosing choice);
  op_balance := @op_balance (choosing choice);
  op_select_task_rq := @op_select_task_rq (choosing choice);
  op_migrate_task_rq := @op_migrate_task_rq (choosing choice);
  op_task_woken := @op_task_woken (choosing choice);
  op_task_tick := @op_task_tick (choosing choice);
  op_task_fork := @op_task_fork (choosing choice);
  op_task_dead := @op_task_dead (choosing choice);
  op_switched_from := @op_switched_from (choosing choice);
  op_switched_to := @op_switched_to (choosing choice);
  op_prio_changed := @op_prio_changed (choosing choice);
  op_get_rr_interval := @op_get_rr_interval (choosing choice);
  op_callback := @op_callback (choosing choice);
  rq_clock_skip_update := @rq_clock_skip_update (choosing choice);
  sched_feat_HRTICK := @sched_feat_HRTICK (choosing choice);
  hrtimer_active := @hrtimer_active (choosing choice);
  hrtimer_cancel := @hrtimer_cancel (choosing choice);
  op_rseq_preempt := @op_rseq_preempt (choosing choice);
  op_rseq_migrate := @op_rseq_migrate (choosing choice);
  op_sched_out_notifiers := @op_sched_out_notifiers (choosing choice);
  op_sched_in_notifiers := @op_sched_in_notifiers (choosing choice);
  put_task_struct_rcu_user := @put_task_struct_rcu_user (choosing choice);
  wq_worker_sleeping := @wq_worker_sleeping (choosing choice);
  io_wq_worker_sleeping := @io_wq_worker_sleeping (choosing choice);
  wq_worker_running := @wq_worker_running (choosing choice);
  io_wq_worker_running := @io_wq_worker_running (choosing choice);
  tsk_is_pi_blocked := @tsk_is_pi_blocked (choosing choice);
  blk_needs_flush_plug := @blk_needs_flush_plug (choosing choice);
  blk_schedule_flush_plug := @blk_schedule_flush_plug (choosing choice);
  panic_on_warn := @panic_on_warn (choosing choice);
  oops_in_progress := @oops_in_progress (choosing choice);
  class_uclamp_enabled := @class_uclamp_enabled (choosing choice);
  read_clock := @read_clock (choosing choice);
  group_of := @group_of (choosing choice);
  signal_pending_state := @signal_pending_state (choosing choice)
|}.

Lemma account_for_frame c cpu p on n s : kframe false s (account_for c cpu p on n s).
Proof.
  unfold account_for. destruct (k_tasks s !! p) as [t|] eqn:Ht; [|done]. destruct (k_rqs s !! cpu) as [r|] eqn:Hr; [|done].
  set (r' := r <| nr_running := _ |> <| cfs_h_nr_running := _ |>). set (s1 := s <| k_rqs := <[cpu := r']> (k_rqs s) |>).
  transitivity s1; [by apply (kframe_put_rq false s cpu r r')|].
  apply (kframe_put_task false s1 p t); [exact Ht|by case_bool_decide|].
  intros Hx id. case_bool_decide; [|apply Hx]. destruct id; [apply (Hx UCLAMP_MIN)|apply (Hx UCLAMP_MAX)].
Qed.

#[export] Instance weighing_laws choice : SchedClassLaws (weighing choice).
Proof.
  destruct (choosing_laws choice). split; try assumption; intros; apply account_for_frame.
Qed.

Lemma account_for_weighs c cpu p on n s t r :
  k_tasks s !! p = Some t -> k_rqs s !! cpu = Some r ->
  entities (account_for c cpu p on n s) = <[p := fair_queued c on (entity t)]> (entities s) /\
  accounts (account_for c cpu p on n s) =
    <[cpu := (nr_running r + n, queue_weight r + n * fair_weight c (se_load (t_se t)))]> (accounts s).
Proof.
  intros Ht Hr. unfold account_for, entities, accounts. rewrite Ht, Hr. rsimpl. rewrite !fmap_insert. split; [|done].
  f_equal. unfold fair_queued. by case_bool_decide.
Qed.

#[export] Instance weighing_weights choice : WeightLaws (weighing choice) plain_user cfs_weight.
Proof.
  split; intros; try done.
  - pose proof (account_for_weighs c cpu p 1 1 s t r H H0) as [E1 E2]. split; [exact E1|]. etransitivity; [exact E2|].
    by rewrite Z.mul_1_l.
  - pose proof (account_for_weighs c cpu p 0 (-1) s t r H H0) as [E1 E2]. split; [exact E1|]. etransitivity; [exact E2|].
    by f_equal.
  - unfold entity. cbn. by rewrite H, H0.
  - unfold queue_weight. cbn. unfold update_rq_clock, update_rq_clock_task, account_irq, account_steal.
    destruct (has _ _); [done|]. destruct CONFIG_SCHED_DEBUG, (_ <? 0); try done;
      by destruct CONFIG_IRQ_TIME_ACCOUNTING, (CONFIG_PARAVIRT_TIME_ACCOUNTING && paravirt_steal_rq_enabled).
  - by destruct id.
Qed.

#[export] Instance weighing_user_laws : SetprioLaws (K := weighing 3%positive) plain_user.
Proof. destruct plain_user_laws. by split. Qed.

(** Task 3 is the only one of its queue, at nice 0: weight 1024, scaled. *)
Definition weighed_task : task_struct :=
  plain_task <| t_se := (t_se plain_task) <| se_on_rq := 1 |> <| se_load := mk_load_weight (1024 * 1024) 4194304 |> |>.
Definition weighed_machine : kstate :=
  nice_machine <| k_tasks := <[3%positive := weighed_task]> (k_tasks nice_machine) |>
    <| k_rqs := {[ 0 := machine_rq <| nr_running := 1 |> <| cfs_h_nr_running := 1024 * 1024 |> ]} |>.

Lemma set_user_nice_refines_witness :
  exists s', set_user_nice (K := weighing 3%positive) 3%positive 5 weighed_machine = Ok tt s'
    /\ core_same true (set_user_nice_spec 3%positive 5 weighed_machine) s' /\ clamps_in_range s'
    /\ exists l, nice_load weighed_task 5 = Some l /\ reweighed 3%positive weighed_task l weighed_machine s'.
Proof.
  destruct (set_user_nice_refines (P := linux58_prio) (K := weighing 3%positive) weighed_machine 3%positive weighed_task
    (machine_rq <| nr_running := 1 |> <| cfs_h_nr_running := 1024 * 1024 |>) 5) as (s' & H1 & H2 & H3 & H4).
  - split; try reflexivity; [done|]. apply clamps_b_ok. vm_compute. reflexivity.
  - exact nice_levels.
  - intros _. split; [done|reflexivity].
  - assert (reniced weighed_task 5 = true) as Er by (vm_compute; reflexivity). rewrite Er in H4. exists s'. exact (conj H1 (conj H2 (conj H3 H4))).
Defined.

(** At nice 5 the weight is 335: of the task and of its queue. *)
Example nice_5_weighs :
  match set_user_nice (K := weighing 3%positive) 3%positive 5 weighed_machine with
  | Ok _ s => Some (entities s !! 3%positive, accounts s !! 0) | _ => None end =
  Some (Some (1, mk_load_weight (335 * 1024) 12820798), Some (1, 335 * 1024)).
Proof. vm_compute. reflexivity. Qed.
