(* ===== verification/SetschedUser.v ===== *)
(** * SetschedUser: the system calls in front of [__sched_setscheduler]

    [sched_setattr] on whatever a user passes, and the round trip between
    setting and reading the attributes of a task. *)

From S2P Require Import Prelude Task KernelApi Prio Rq RqClock Uclamp UclampFacts UclampTrace UclampAttr.
From S2P Require Import State Sched SchedFacts ScheduleSpec Setprio TaskLock Machine.
From S2P Require Import SetprioSpec SetschedSpec SetprioDemo.

Section Setattr.
Context {P : PrioApi} {PL : PrioLaws P} {Y : PolicyApi} {U : UclampApi} {UL : UclampLaws U} {A : AttrFlagApi}
  {AL : AttrFlagLaws A} {F : FlagApi} {C : ClockConfig} {K : SchedClassOps} {KL : SchedClassLaws K}
  {V : SetprioEnv} {VL : SetprioLaws V}.

(** The task a pid names. *)
Definition target (s : kstate) (pid : Z) : option ptr :=
  if nz pid then find_task_by_vpid s pid else curr <$> k_rqs s !! k_this_cpu s.

(** A task the call can work on. *)
Definition settable (s : kstate) (p : ptr) : Prop :=
  exists t r, task_pre false s p t r /\ waiter_ok s p t /\ static_ok t /\ forall x, rt_mutex_adjust_pi p x = x.

(** Unsigned fields of the user's structure. *)
Definition user_fields (ua : user_attr) : Prop :=
  forall n a, ua_copy_in ua n = inr a -> 0 <= sched_util_min a /\ 0 <= sched_util_max a.

Lemma copied_attr ua attr :
  user_fields ua -> sched_copy_attr ua = inr attr ->
  (0 <= sched_util_min attr /\ 0 <= sched_util_max attr) /\ exists n, sched_nice attr = clamp n MIN_NICE MAX_NICE.
Proof.
  intros Hu. unfold sched_copy_attr. destruct (ua_get_size ua) as [size|]; [|done].
  set (sz := if negb (nz size) then _ else _). destruct (_ || _); [done|].
  destruct (ua_copy_in ua sz) as [|a] eqn:E; [done|]. destruct (_ && _); [done|]. intros [= <-].
  split; [exact (Hu sz a E)|]. by exists (sched_nice a).
Qed.

Lemma static_ok_params attr t n :
  MAX_NICE < MIN_NICE + 40 -> static_ok t -> sched_nice attr = clamp n MIN_NICE MAX_NICE -> static_ok (with_params attr t).
Proof using PL.
  intros Hw Hs Hn. unfold static_ok, with_params in *. rsimpl. unfold new_static.
  destruct (dl_policy _); [done|]. destruct (fair_policy _); [|done].
  rewrite Hn, nice_to_prio_spec. pose proof nice_range. unfold clamp. lia.
Qed.

(** Holding a reference to the task changes nothing else the call looks at. *)
Lemma settable_get s p t r attr pi n :
  task_pre false s p t r -> waiter_ok s p t -> static_ok (with_params attr t) ->
  0 <= sched_util_min attr /\ 0 <= sched_util_max attr -> buckets_fit ->
  (pi = true -> in_interrupt = false /\ forall x, rt_mutex_adjust_pi p x = x) ->
  setsched_pre (upd_task p (fun t => t <| usage := n t |>) s) p (t <| usage := n t |>) r attr pi.
Proof.
  intros [Ht Hpl Hr Hl Hm Hc] Hw Hs Hu Hfit Hpi. split; try done.
  - split; try done; [exact (upd_task_at p (fun t => t <| usage := n t |>) s t Ht)|].
    apply (clamps_upd_task p (fun t => t <| usage := n t |>)); [by intros ? []|exact Hc].
  - intros q Eq. destruct (Hw q Eq) as [? ?]. split; [done|by apply upd_task_some].
Qed.

(** The reference is dropped again. *)
Lemma usage_restored s p : upd_task p (fun t => t <| usage := usage t - 1 |>) (upd_task p (fun t => t <| usage := usage t + 1 |>) s) = s.
Proof.
  rewrite upd_task_twice. apply upd_task_id. intros t _. rsimpl. rewrite Z.add_simpl_r. by destruct t.
Qed.

(** What an accepted request does to the task: it stores the flag, when it asks for
    what the task has, or changes the parameters. *)
Inductive request_done (attr : sched_attr) (t : task_struct) : (task_struct -> task_struct) -> Prop :=
  | done_store : setscheduler_nochange t attr (requested_policy attr t) = true ->
      request_done attr t (fun x => x <| sched_reset_on_fork := requested_reset attr t |>)
  | done_change w : clamp_request_ok attr ->
      request_done attr t (setsched_task attr true (requested_reset attr t) w).

Lemma verdict_done s p t r attr g s' :
  0 <= sched_util_min attr /\ 0 <= sched_util_max attr ->
  setscheduler_result g p t attr true (setscheduler_verdict s p t r attr true) 0 s' ->
  exists f, request_done attr t f /\ tracks (upd_task p f g) s'.
Proof using AL.
  intros [Hu1 Hu2]. unfold setscheduler_verdict. destruct (nz (request_error p t attr true)) eqn:E1.
  { intros [E2 _]. apply nz_true in E1. congruence. }
  apply nz_false in E1. destruct (bool_decide _); [by intros [? _]|].
  destruct (setscheduler_nochange _ _ _) eqn:E3.
  { intros [_ H]. eexists. split; [by apply done_store|exact H]. }
  destruct (true && _); [by intros [? _]|]. intros [[? _]|[_ H]]; [done|].
  eexists. split; [eapply done_change, (validated_request t); [exact Hu1|exact Hu2|by eapply check_request]|exact H].
Qed.

(** The reference that is taken, and dropped. *)
Definition ref_inc (t : task_struct) : task_struct := t <| usage := usage t + 1 |>.
Definition ref_dec (t : task_struct) : task_struct := t <| usage := usage t - 1 |>.

(** [sched_setattr] between taking and dropping a reference. *)
Lemma wp_setattr_ref fuel s p t attr :
  in_interrupt = false -> buckets_fit -> 0 <= sched_util_min attr /\ 0 <= sched_util_max attr ->
  settable s p -> k_tasks s !! p = Some t -> (forall t, static_ok t -> static_ok (with_params attr t)) ->
  wp (set_task p (fun t => t <| usage := usage t + 1 |>);;
      retval ← sched_setattr (S fuel) p attr;
      set_task p (fun t => t <| usage := usage t - 1 |>);;
      mret retval) (fun ret s' => (ret <> 0 -> tracks s s') /\
        (ret = 0 -> exists f, request_done attr (ref_inc t) f /\
           tracks (upd_task p (fun x => ref_dec (f (ref_inc x))) s) s')) s.
Proof using UL AL KL VL.
  intros Hint Hfit Hu (t' & r & Hpre & Hw & Hs & Hadj) Ht Hst. pose proof Hpre as [Ht' _ _ _ _ Hc].
  rewrite Ht in Ht'. injection Ht' as <-.
  apply wp_bind, wp_upd_task; [by exists t|]. apply wp_bind. unfold sched_setattr. fold ref_inc ref_dec.
  eapply wp_mono.
  { apply (sched_setscheduler_correct fuel (upd_task p ref_inc s) p (ref_inc t) r attr true true).
    apply (settable_get s p t r attr true (fun t => usage t + 1)); auto. }
  intros ret s2 H2. apply wp_bind.
  assert (is_Some (k_tasks (upd_task p ref_inc s) !! p)) as Hp by (apply upd_task_some; by exists t).
  destruct (decide (ret = 0)) as [->|Hne].
  - apply (verdict_done _ _ _ _ _ _ _ Hu) in H2 as (f & Hf & H2).
    eapply wp_track_task; [exact H2|by apply upd_task_some|commutes|]. intros s3 H3. apply wp_ret. split; [done|].
    intros _. exists f. split; [exact Hf|]. by rewrite !upd_task_twice in H3.
  - assert (tracks (upd_task p ref_inc s) s2) as H3.
    { destruct (setscheduler_verdict _ _ _ _ _ _) as [e| |]; unfold setscheduler_result in H2;
        [apply H2|by destruct H2|by destruct H2 as [(_ & _ & ?)|[? _]]]. }
    eapply wp_track_task; [exact H3|exact Hp|commutes|]. intros s4 H4. apply wp_ret. split; [|done]. intros _.
    change (tracks (upd_task p (fun t => t <| usage := usage t - 1 |>) (upd_task p ref_inc s)) s4) in H4.
    unfold ref_inc in H4. by rewrite usage_restored in H4.
Qed.




(** ** Reading back what was set *)

Lemma attr_policy_small attr : 0 <= sched_policy attr < 2 ^ 31 -> attr_policy attr = sched_policy attr.
Proof. intros H. apply wraps_id; lia. Qed.

Lemma uclamp_keeps_params t attr (f : task_struct -> Z) :
  (forall x id u, f (set_uclamp_req x id u) = f x) -> f (__setscheduler_uclamp t attr) = f t.
Proof.
  intros Hf. assert (forall x id, f (reset_default_clamp x id) = f x) as Hr.
  { intros x id. unfold reset_default_clamp. destruct (uc_user_defined _); [done|apply Hf]. }
  unfold __setscheduler_uclamp. destruct (negb _); [by rewrite !Hr|].
  destruct (has _ SCHED_FLAG_UTIL_CLAMP_MIN), (has _ SCHED_FLAG_UTIL_CLAMP_MAX); by rewrite ?Hf, !Hr.
Qed.

Lemma uclamp_stores_request t attr :
  buckets_fit -> clamp_request_ok attr -> let t' := __setscheduler_uclamp t attr in
  (has (sched_flags attr) SCHED_FLAG_UTIL_CLAMP_MIN = true -> uc_value (uclamp_req t' UCLAMP_MIN) = sched_util_min attr) /\
  (has (sched_flags attr) SCHED_FLAG_UTIL_CLAMP_MAX = true -> uc_value (uclamp_req t' UCLAMP_MAX) = sched_util_max attr).
Proof using UL AL.
  intros Hfit [Hmin Hmax]. cbn zeta. unfold __setscheduler_uclamp. rewrite has_util_clamp.
  set (x := reset_default_clamp _ UCLAMP_MAX). clearbody x.
  destruct (has _ SCHED_FLAG_UTIL_CLAMP_MIN), (has _ SCHED_FLAG_UTIL_CLAMP_MAX); cbn [orb negb]; split; intros E;
    try discriminate E; unfold set_uclamp_req; cbn [uclamp_req]; rsimpl; apply uclamp_se_set_wf; auto.
Qed.

(** The request flags that keep a part of the old parameters. *)
Definition keeps_params (attr : sched_attr) : bool := has (sched_flags attr) SCHED_FLAG_KEEP_PARAMS.
Definition keeps_policy (attr : sched_attr) : bool := has (sched_flags attr) SCHED_FLAG_KEEP_POLICY.

(** The policy of the task after the request. *)
Definition policy_after (attr : sched_attr) (t : task_struct) : Z :=
  if keeps_policy attr || keeps_params attr then policy t else sched_policy attr.

(** What is reported, [a], after a request [attr] for a task that was [t]: the
    policy asked for or kept; the nice level of a fair, the priority of a
    real-time policy, asked for or kept; the reset-on-fork flag, which goes with
    the policy; the clamps asked for. *)
Record reports (attr : sched_attr) (t : task_struct) (a : sched_attr) : Prop := {
  rp_policy : dl_policy (policy_after attr t) = false -> sched_policy a = u32 (policy_after attr t);
  rp_nice : dl_policy (policy_after attr t) = false -> rt_policy (policy_after attr t) = false ->
    fair_policy (policy_after attr t) = true ->
    sched_nice a = if keeps_params attr then task_nice t else sched_nice attr;
  rp_priority : dl_policy (policy_after attr t) = false -> rt_policy (policy_after attr t) = true ->
    sched_priority a = if keeps_params attr then rt_priority t else sched_priority attr;
  rp_flags : dl_policy (policy_after attr t) = false ->
    sched_flags a = if (if keeps_policy attr then sched_reset_on_fork t else has (sched_flags attr) SCHED_FLAG_RESET_ON_FORK)
                    then SCHED_FLAG_RESET_ON_FORK else 0;
  rp_min : has (sched_flags attr) SCHED_FLAG_UTIL_CLAMP_MIN = true -> sched_util_min a = sched_util_min attr;
  rp_max : has (sched_flags attr) SCHED_FLAG_UTIL_CLAMP_MAX = true -> sched_util_max a = sched_util_max attr
}.

(** What a task shows is a matter of six of its fields. *)
Definition shown (t : task_struct) : Z * Z * Z * bool * Z * Z :=
  (policy t, static_prio t, rt_priority t, sched_reset_on_fork t,
   uc_value (uclamp_req t UCLAMP_MIN), uc_value (uclamp_req t UCLAMP_MAX)).

Lemma shown_erase t t' : erase_task true t' = erase_task true t -> shown t' = shown t.
Proof. apply (erase_field true shown). intros x. kept_field. Qed.

(** The request as [__sched_setscheduler] gets it. *)
Definition passed_on (attr : sched_attr) : sched_attr :=
  if has (sched_flags attr) SCHED_FLAG_KEEP_POLICY then attr <| sched_policy := u32 SETPARAM_POLICY |> else attr.

Lemma passed_policy attr :
  0 <= attr_policy attr -> 0 <= sched_policy attr < 2 ^ 32 ->
  attr_policy (passed_on attr) = if keeps_policy attr then SETPARAM_POLICY else sched_policy attr.
Proof.
  intros H1 H2. unfold passed_on. fold (keeps_policy attr). destruct (keeps_policy attr); [done|].
  apply attr_policy_small. split; [lia|]. revert H1. unfold attr_policy, s32, wraps. change (2 ^ (32 - 1)) with (2 ^ 31).
  intros H1. destruct (Z.lt_ge_cases (sched_policy attr) (2 ^ 31)) as [|Hge]; [done|exfalso].
  rewrite <- (Z_mod_plus_full _ (-1)), Z.mod_small in H1; lia.
Qed.

Lemma reports_shown attr t x :
  policy x = policy_after attr t ->
  (rt_policy (policy_after attr t) = false -> fair_policy (policy_after attr t) = true -> dl_policy (policy_after attr t) = false ->
     task_nice x = if keeps_params attr then task_nice t else sched_nice attr) ->
  (rt_policy (policy_after attr t) = true -> rt_priority x = if keeps_params attr then rt_priority t else sched_priority attr) ->
  sched_reset_on_fork x = (if keeps_policy attr then sched_reset_on_fork t else has (sched_flags attr) SCHED_FLAG_RESET_ON_FORK) ->
  (has (sched_flags attr) SCHED_FLAG_UTIL_CLAMP_MIN = true -> uc_value (uclamp_req x UCLAMP_MIN) = sched_util_min attr) ->
  (has (sched_flags attr) SCHED_FLAG_UTIL_CLAMP_MAX = true -> uc_value (uclamp_req x UCLAMP_MAX) = sched_util_max attr) ->
  reports attr t (getattr_of x).
Proof.
  intros Hp Hn Hr Hf Hmin Hmax. unfold getattr_of, task_has_dl_policy, task_has_rt_policy. rewrite Hp.
  split; [| | | |exact Hmin|exact Hmax].
  - intros ->. by destruct (sched_reset_on_fork x), (rt_policy _).
  - intros Ed Er Ef. rewrite Ed, Er. rewrite <- Hn by done. by destruct (sched_reset_on_fork x).
  - intros -> Er. rewrite Er, <- Hr by done. by destruct (sched_reset_on_fork x).
  - intros ->. rewrite <- Hf. by destruct (sched_reset_on_fork x), (rt_policy _).
Qed.

Lemma nochange_parts t attr pol :
  setscheduler_nochange t attr pol = true ->
  pol = policy t /\ (fair_policy pol = true -> sched_nice attr = task_nice t) /\
  (rt_policy pol = true -> sched_priority attr = rt_priority t) /\ has (sched_flags attr) SCHED_FLAG_UTIL_CLAMP = false.
Proof.
  unfold setscheduler_nochange. rewrite !andb_true_iff, !negb_true_iff. intros ((((H1 & H2) & H3) & _) & H4).
  apply Z.eqb_eq in H1. split; [exact H1|]. split; [|split; [|exact H4]].
  - intros Ef. rewrite Ef in H2. by apply negb_false_iff, Z.eqb_eq in H2.
  - intros Er. rewrite Er in H3. by apply negb_false_iff, Z.eqb_eq in H3.
Qed.

Lemma passed_on_same attr :
  sched_flags (passed_on attr) = sched_flags attr /\ sched_nice (passed_on attr) = sched_nice attr /\
  sched_priority (passed_on attr) = sched_priority attr /\
  sched_util_min (passed_on attr) = sched_util_min attr /\ sched_util_max (passed_on attr) = sched_util_max attr.
Proof. unfold passed_on. by destruct (has _ _). Qed.

(** The policy and the reset-on-fork flag the call works with. *)
Lemma passed_request attr t :
  0 <= attr_policy attr -> 0 <= sched_policy attr < 2 ^ 32 ->
  requested_policy (passed_on attr) t = (if keeps_policy attr then policy t else sched_policy attr) /\
  requested_reset (passed_on attr) t =
    (if keeps_policy attr then sched_reset_on_fork t else has (sched_flags attr) SCHED_FLAG_RESET_ON_FORK) /\
  (if attr_policy (passed_on attr) =? SETPARAM_POLICY then policy t else attr_policy (passed_on attr)) =
    (if keeps_policy attr then policy t else sched_policy attr).
Proof.
  intros H1 H2. unfold requested_policy, requested_reset. rewrite (passed_policy attr H1 H2).
  destruct (passed_on_same attr) as (-> & _). unfold SETPARAM_POLICY. destruct (keeps_policy attr); [done|].
  rewrite (proj2 (Z.ltb_ge _ _)), (proj2 (Z.eqb_neq _ _)) by lia. done.
Qed.

(** The store: everything is as asked for already. *)
Lemma store_reports attr t x :
  0 <= attr_policy attr -> 0 <= sched_policy attr < 2 ^ 32 ->
  setscheduler_nochange t (passed_on attr) (requested_policy (passed_on attr) t) = true ->
  shown x = shown (t <| sched_reset_on_fork := requested_reset (passed_on attr) t |>) -> reports attr t (getattr_of x).
Proof using AL.
  intros H1 H2 Hn. destruct (passed_request attr t H1 H2) as (Ep & -> & _). rewrite Ep in Hn.
  apply nochange_parts in Hn as (E1 & E2 & E3 & E4). destruct (passed_on_same attr) as (Ef & En & Er & _).
  rewrite Ef, has_util_clamp in E4. apply orb_false_iff in E4 as [Emin Emax]. rewrite En in E2. rewrite Er in E3.
  unfold shown. rsimpl. intros [= X1 X2 X3 X4 _ _].
  assert (policy_after attr t = policy t) as Epa
    by (unfold policy_after; destruct (keeps_policy attr), (keeps_params attr); cbn [orb]; congruence).
  rewrite E1 in E2, E3. apply reports_shown; rewrite ?Epa; try congruence.
  - intros _ Hf _. unfold task_nice. rewrite X2. fold (task_nice t). specialize (E2 Hf). by destruct (keeps_params attr).
  - intros Hr. rewrite X3. specialize (E3 Hr). by destruct (keeps_params attr).
Qed.

Lemma changed_params a pi w t :
  let pol := if attr_policy a =? SETPARAM_POLICY then policy t else attr_policy a in
  let x := with_prio pi w (with_params a t) in
  policy x = pol /\ static_prio x = new_static a pol (static_prio t) /\ rt_priority x = sched_priority a /\
  sched_reset_on_fork x = sched_reset_on_fork t.
Proof. by split_and!. Qed.

(** The change. *)
Lemma change_reports attr t w x :
  buckets_fit -> 0 <= attr_policy attr -> 0 <= sched_policy attr < 2 ^ 32 -> clamp_request_ok (passed_on attr) ->
  shown x = shown (setsched_task (passed_on attr) true (requested_reset (passed_on attr) t) w t) ->
  reports attr t (getattr_of x).
Proof using PL UL AL.
  intros Hfit H1 H2 Hc. destruct (passed_request attr t H1 H2) as (_ & -> & Epol).
  destruct (passed_on_same attr) as (Ef & En & Er & Emin & Emax). unfold setsched_task.
  set (t1 := setsched_params _ _ _ _). destruct (uclamp_stores_request t1 (passed_on attr) Hfit Hc) as [Umin Umax].
  rewrite Ef, Emin in Umin. rewrite Ef, Emax in Umax. revert Umin Umax.
  pose proof (uclamp_keeps_params t1 (passed_on attr) policy ltac:(by intros ? [])) as U1.
  pose proof (uclamp_keeps_params t1 (passed_on attr) static_prio ltac:(by intros ? [])) as U2.
  pose proof (uclamp_keeps_params t1 (passed_on attr) rt_priority ltac:(by intros ? [])) as U3.
  assert (sched_reset_on_fork (__setscheduler_uclamp t1 (passed_on attr)) = sched_reset_on_fork t1) as U4.
  { pose proof (uclamp_keeps_params t1 (passed_on attr) (fun t => if sched_reset_on_fork t then 1 else 0) ltac:(by intros ? [])) as U4.
    cbn beta in U4. by destruct (sched_reset_on_fork (__setscheduler_uclamp _ _)), (sched_reset_on_fork t1). }
  revert U1 U2 U3 U4. generalize (__setscheduler_uclamp t1 (passed_on attr)). intros t2 U1 U2 U3 U4 Umin Umax.
  unfold shown. intros [= X1 X2 X3 X4 X5 X6].
  assert (policy t1 = policy_after attr t /\ sched_reset_on_fork t1 =
    (if keeps_policy attr then sched_reset_on_fork t else has (sched_flags attr) SCHED_FLAG_RESET_ON_FORK) /\
    (keeps_params attr = true -> static_prio t1 = static_prio t /\ rt_priority t1 = rt_priority t) /\
    (keeps_params attr = false -> static_prio t1 = new_static attr (policy_after attr t) (static_prio t) /\
       rt_priority t1 = sched_priority attr)) as (T1 & T2 & T3 & T4).
  { subst t1. unfold setsched_params, policy_after. rewrite Ef. fold (keeps_params attr). destruct (keeps_params attr).
    - rewrite orb_true_r. by split_and!.
    - rewrite orb_false_r. set (y := t <| sched_reset_on_fork := _ |>).
      destruct (changed_params (passed_on attr) true w y) as (-> & -> & -> & ->). change (policy y) with (policy t).
      change (static_prio y) with (static_prio t). rewrite Epol, Er. unfold new_static. rewrite En. by split_and!. }
  apply reports_shown; try congruence.
  - intros Ert Efair Edl. unfold task_nice. rewrite X2, U2. destruct (keeps_params attr).
    + by destruct (T3 eq_refl) as [-> _].
    + destruct (T4 eq_refl) as [-> _]. unfold new_static. rewrite Edl, Efair, nice_to_prio_spec, prio_to_nice_spec. lia.
  - intros _. rewrite X3, U3. destruct (keeps_params attr); [by destruct (T3 eq_refl)|by destruct (T4 eq_refl)].
  - intros Hm. exact (eq_trans X5 (Umin Hm)).
  - intros Hm. exact (eq_trans X6 (Umax Hm)).
Qed.

Lemma done_reports attr t f x :
  buckets_fit -> 0 <= attr_policy attr -> 0 <= sched_policy attr < 2 ^ 32 ->
  request_done (passed_on attr) t f -> shown x = shown (f t) -> reports attr t (getattr_of x).
Proof using PL UL AL.
  intros Hfit H1 H2 [Hn|w Hc]; [by apply store_reports|by eapply change_reports].
Qed.

(** ** The two calls *)

(** What pid names a task is not a matter of scheduling. *)
Definition pid_stable (pid : Z) : Prop :=
  forall s s', dom (k_tasks s') = dom (k_tasks s) -> find_task_by_vpid s' pid = find_task_by_vpid s pid.

Lemma wp_find_target pid s :
  is_Some (k_rqs s !! k_this_cpu s) -> wp (find_process_by_pid pid) (fun o s' => o = target s pid /\ s' = s) s.
Proof.
  intros [r Hr]. unfold find_process_by_pid, target. destruct (nz pid); [done|]. apply wp_bind.
  eapply wp_current; [exact Hr|]. apply wp_ret. by rewrite Hr.
Qed.

Lemma core_same_target s s' pid :
  pid_stable pid -> core_same true s s' -> target s' pid = target s pid /\ (is_Some (k_rqs s !! k_this_cpu s) -> is_Some (k_rqs s' !! k_this_cpu s')).
Proof.
  intros Hp H. assert (k_this_cpu s' = k_this_cpu s) as Ec by exact (f_equal k_this_cpu H).
  assert (dom (k_tasks s') = dom (k_tasks s)) as Ed.
  { pose proof (f_equal (fun x => dom (k_tasks x)) H) as E1. change (dom (erase_task true <$> k_tasks s') = dom (erase_task true <$> k_tasks s)) in E1.
    by rewrite !dom_fmap_L in E1. }
  assert (erase_rq <$> k_rqs s' !! k_this_cpu s = erase_rq <$> k_rqs s !! k_this_cpu s) as Er.
  { pose proof (f_equal (fun x => k_rqs x !! k_this_cpu s) H) as E1. change ((erase_rq <$> k_rqs s') !! k_this_cpu s = (erase_rq <$> k_rqs s) !! k_this_cpu s) in E1.
    by rewrite !lookup_fmap in E1. }
  unfold target. rewrite Ec. split.
  - destruct (nz pid); [by apply Hp|]. destruct (k_rqs s' !! _) as [r'|], (k_rqs s !! _) as [r|]; try done.
    apply (inj Some) in Er. cbn. by rewrite (erase_rq_field curr _ _ ltac:(done) Er).
  - intros [r Hr]. rewrite Hr in Er. destruct (k_rqs s' !! _); [by eexists|done].
Qed.

(** A buffer the attributes can be read into. *)
Record readable (p : ptr) (ua : user_attr) (usize : Z) : Prop := {
  rd_security : security_task_getscheduler p = 0;
  rd_size : SCHED_ATTR_SIZE_VER0 <= usize <= PAGE_SIZE;
  rd_access : ua_access_ok ua usize = true;
  rd_copy : ua_copy_out ua (Z.min usize sizeof_sched_attr) = true
}.

(** C37. Round trip of the two calls: after a [sched_setattr] that returned 0, a
    [sched_getattr] of the same task into a buffer that can be written returns 0,
    changes nothing and reports what was asked for: the policy, the nice level of
    a fair task (brought into the range of levels), the priority of a real-time
    task, the reset-on-fork flag and each clamp the request sets.  With the flags
    that keep the policy or the parameters it reports the old ones instead, the
    old policy in both cases.  The parameters of deadline tasks are those of the
    deadline class and not part of the claim, their clamps are. *)
Theorem setattr_getattr_roundtrip fuel s s' pid p t ua attr ua' usize :
  clamps_in_range s -> is_Some (k_rqs s !! k_this_cpu s) -> in_interrupt = false -> buckets_fit ->
  MAX_NICE < MIN_NICE + 40 -> user_fields ua -> pid_stable pid ->
  sched_copy_attr ua = inr attr -> 0 <= sched_policy attr < 2 ^ 32 ->
  target s pid = Some p -> settable s p -> k_tasks s !! p = Some t ->
  sys_sched_setattr (S fuel) pid (Some ua) 0 s = Ok 0 s' -> readable p ua' usize ->
  exists a, sys_sched_getattr pid (Some ua') usize 0 s' = Ok (0, Some (a, Z.min usize sizeof_sched_attr)) s' /\
    reports attr t a.
Proof using PL UL AL KL VL.
  intros Hc Hr0 Hint Hfit Hw Hu Hpid Hcopy Hrange Htgt Hset Ht. destruct (copied_attr ua attr Hu Hcopy) as [Hf [n Hn]].
  unfold sys_sched_setattr. destruct ((pid <? 0) || nz 0) eqn:E1; [done|]. rewrite Hcopy. fold (attr_policy attr).
  destruct (attr_policy attr <? 0) eqn:E2; [done|]. bool_cases. fold (passed_on attr). intros Hcall [Hsec Hsize Hacc Hout].
  apply bind_inv in Hcall as (o & s1 & Eo & Hcall). destruct (wp_ok _ _ _ _ _ (wp_find_target pid s Hr0) Eo) as [-> ->].
  rewrite Htgt in Hcall. destruct (passed_on_same attr) as (_ & Enice & _ & Emin & Emax).
  apply (wp_ok _ _ _ _ _ (wp_setattr_ref fuel s p t (passed_on attr) Hint Hfit ltac:(by rewrite Emin, Emax) Hset Ht
    ltac:(intros t0 Ht0; apply (static_ok_params _ t0 n Hw Ht0); by rewrite Enice))) in Hcall as [_ Hcall].
  destruct (Hcall eq_refl) as (f & Hdone & Htr). clear Hcall.
  set (g := upd_task p _ s) in Htr. assert (k_tasks g !! p = Some (ref_dec (f (ref_inc t)))) as Hg
    by exact (upd_task_at p (fun x => ref_dec (f (ref_inc x))) s t Ht).
  destruct (tracks_task _ _ _ _ Htr Hg) as (t' & Ht' & Et).
  destruct (core_same_target g s' pid Hpid ltac:(apply Htr)) as [E3 Hr'].
  assert (target g pid = Some p) as Htg.
  { rewrite <- Htgt. unfold target. destruct (nz pid); [|done]. apply Hpid. apply dom_alter_L. }
  exists (getattr_of t'). split.
  - unfold sys_sched_getattr.
    destruct ((pid <? 0) || (PAGE_SIZE <? usize) || (usize <? SCHED_ATTR_SIZE_VER0) || nz 0) eqn:E4.
    { rewrite !orb_true_iff in E4. destruct E4 as [[[E4|E4]|E4]|E4]; bool_cases; by lia || done. }
    destruct (wp_elim _ _ _ (wp_find_target pid s' (Hr' Hr0))) as (o & s2 & E5 & -> & ->).
    unfold mbind, M_bind. rewrite E5, E3, Htg, Hsec. change (nz 0) with false. cbv iota. unfold task_of. rewrite Ht'.
    unfold sched_attr_copy_to_user. by rewrite Hacc, Hout.
  - destruct (done_reports attr (ref_inc t) f t' Hfit E2 Hrange Hdone (shown_erase _ _ Et)) as [A1 A2 A3 A4 A5 A6]. by split.
Qed.
End Setattr.

(** An ordinary user makes task 3 a batch task of the lowest nice level, with clamps. *)
Definition demo_uattr : user_attr := {|
  ua_get_size := Some 56;
  ua_copy_in _ := inr (mk_sched_attr 3 0x61 77 0 0 0 0 100 512);
  ua_access_ok _ := true;
  ua_copy_out _ := true
|}.

Lemma nice_machine_settable p : target nice_machine 3 = Some p ->
  settable nice_machine p.
Proof.
  intros [= <-]. exists plain_task, machine_rq. split; [exact nice_machine_pre|]. split; [intros q; discriminate|].
  split; [vm_compute; split; congruence|done].
Qed.


Lemma demo_pid_stable : pid_stable 3.
Proof. intros s s' Hd. cbn. f_equal. by rewrite (bool_decide_ext _ (is_Some (k_tasks s !! 3%positive))) by by rewrite <- !elem_of_dom, Hd. Qed.

(** What the two calls leave and return on the machine. *)
Definition demo_set : outcome Z := sys_sched_setattr (K := choosing 3%positive) 1 3 (Some demo_uattr) 0 nice_machine.
Definition demo_after : kstate := match demo_set with Ok _ s => s | _ => nice_machine end.

Lemma setattr_getattr_roundtrip_witness :
  exists a, sys_sched_getattr 3 (Some demo_uattr) 56 0 demo_after = Ok (0, Some (a, 56)) demo_after /\
    sched_policy a = 3 /\ sched_nice a = 19 /\ sched_flags a = 1 /\ sched_util_min a = 100 /\ sched_util_max a = 512.
Proof.
  destruct (setattr_getattr_roundtrip (P := linux58_prio) (U := five_buckets) (A := linux58_attr_flags)
    (UL := uclamp_config_laws 5 ltac:(lia)) (K := choosing 3%positive) 0 nice_machine demo_after 3 3%positive plain_task
    demo_uattr (mk_sched_attr 3 0x61 19 0 0 0 0 100 512) demo_uattr 56) as (a & E1 & [H1 H2 _ H4 H5 H6]).
  - apply clamps_b_ok. vm_compute. reflexivity.
  - by exists machine_rq.
  - reflexivity.
  - by vm_compute.
  - exact nice_levels.
  - intros n a [= <-]. vm_compute. split; discriminate.
  - exact demo_pid_stable.
  - vm_compute. reflexivity.
  - vm_compute. split; [discriminate|reflexivity].
  - reflexivity.
  - apply nice_machine_settable. reflexivity.
  - reflexivity.
  - vm_compute. reflexivity.
  - split; [reflexivity|split; vm_compute; discriminate|reflexivity|reflexivity].
  - exists a. split; [exact E1|]. split; [exact (H1 eq_refl)|]. split; [exact (H2 eq_refl eq_refl eq_refl)|].
    split; [exact (H4 eq_refl)|]. split; [exact (H5 eq_refl)|exact (H6 eq_refl)].
Defined.
