(* ===== verification/Affinity.v ===== *)
(** * Affinity: which CPUs a task may run on, and moving it there (core.c)

    The test for an allowed CPU, moving a queued task between run queues, the
    migration stopper, changing the affinity mask, choosing a CPU for a task and
    falling back when its own CPUs are gone, and the affinity system calls.
    WARN_ON diagnostics, tracing and statistics have no effect on the state. *)

From S2P Require Import Prelude Task KernelApi Prio Rq RqClock Uclamp State Sched Setprio.

(** What the code asks of other parts of the kernel.  [cpumask_any m] and
    [cpumask_any_and_distribute m1 m2] pick a CPU of a mask or of two masks and
    return [nr_cpu_ids] or more when there is none. *)
Class MigrateEnv := {
  nr_cpu_ids : Z;
  is_per_cpu_kthread : task_struct -> bool;
  cpu_to_node : Z -> Z;
  cpumask_of_node : Z -> gset Z;
  CONFIG_CPUSETS : bool;
  cpuset_cpus_allowed_fallback : ptr -> kstate -> kstate;
  cpuset_cpus_allowed : kstate -> ptr -> gset Z;
  op_set_cpus_allowed : sched_class -> ptr -> gset Z -> kstate -> kstate;
  __set_task_cpu : ptr -> Z -> kstate -> kstate;
  cpumask_any : gset Z -> Z;
  cpumask_any_and_distribute : gset Z -> gset Z -> Z;
  stop_one_cpu : Z -> M Z -> M Z;
  stop_two_cpus : Z -> Z -> M Z -> M Z;
  flush_smp_call_function_from_idle : kstate -> kstate;
  double_raw_lock : ptr -> ptr -> M unit;
  double_rq_lock : Z -> Z -> M unit;
  double_rq_unlock : Z -> Z -> M unit;
  ns_capable_sys_nice : ptr -> bool;
  alloc_cpumask_ok : bool;
  cpumask_size : Z;
  BITS_PER_BYTE : Z
}.

Section Affinity.
Context {P : PrioApi} {Y : PolicyApi} {U : UclampApi} {A : AttrFlagApi} {F : FlagApi} {C : ClockConfig}
  {K : SchedClassOps} {V : SetprioEnv} {E : MigrateEnv}.

(** CPUs of a mask in the order of [for_each_cpu]. *)
Definition for_each_cpu (mask : gset Z) : list Z := filter (fun c => c ∈ mask) (seqZ 0 nr_cpu_ids).

Definition is_cpu_allowed (s : kstate) (p : task_struct) (cpu : Z) : bool :=
  if negb (bool_decide (cpu ∈ cpus_mask p)) then false
  else if is_per_cpu_kthread p then bool_decide (cpu ∈ k_online s)
  else bool_decide (cpu ∈ k_active s).

(** ** Moving a task *)

Definition set_task_cpu (p : ptr) (new_cpu : Z) : M unit :=
  t ← task_of p;
  when (negb (task_cpu t =? new_cpu))
    (modify (op_migrate_task_rq (t_sched_class t) p new_cpu);;
     set_task p (fun t => t <| t_se := (t_se t) <| se_nr_migrations := u64 (se_nr_migrations (t_se t) + 1) |> |>);;
     modify (op_rseq_migrate p));;
  modify (__set_task_cpu p new_cpu).

(** The run queue whose lock is held on return. *)
Definition move_queued_task (cpu : Z) (p : ptr) (new_cpu : Z) : M Z :=
  set_task p (fun t => t <| on_rq := TASK_ON_RQ_MIGRATING |>);;
  dequeue_task cpu p DEQUEUE_NOCLOCK;;
  set_task_cpu p new_cpu;;
  unlock_rq cpu;;
  lock_rq new_cpu;;
  t ← task_of p;
  if negb (task_cpu t =? new_cpu) then bug
  else
    enqueue_task new_cpu p 0;;
    set_task p (fun t => t <| on_rq := TASK_ON_RQ_QUEUED |>);;
    check_preempt_curr new_cpu p 0;;
    mret new_cpu.

Definition __migrate_task (cpu : Z) (p : ptr) (dest_cpu : Z) : M Z :=
  s ← get;
  t ← task_of p;
  if negb (is_cpu_allowed s t dest_cpu) then mret cpu
  else update_clock cpu;; move_queued_task cpu p dest_cpu.

(** Runs on the CPU the task has to leave. *)
Definition migration_cpu_stop (p : ptr) (dest_cpu : Z) : M Z :=
  rq ← smp_processor_id;
  local_irq_disable;;
  modify flush_smp_call_function_from_idle;;
  lock_pi p;;
  lock_rq rq;;
  t ← task_of p;
  rq ← (if task_cpu t =? rq then
          if task_on_rq_queued t then __migrate_task rq p dest_cpu
          else set_task p (fun t => t <| wake_cpu := dest_cpu |>);; mret rq
        else mret rq);
  unlock_rq rq;;
  unlock_pi p;;
  local_irq_enable;;
  mret 0.

(** ** Changing the mask *)

Definition set_cpus_allowed_common (t : task_struct) (new_mask : gset Z) : task_struct :=
  t <| cpus_mask := new_mask |> <| nr_cpus_allowed := Z.of_nat (size new_mask) |>.

Definition do_set_cpus_allowed (p : ptr) (new_mask : gset Z) : M unit :=
  t ← task_of p;
  let cpu := task_cpu t in
  let queued := task_on_rq_queued t in
  running ← task_current cpu p;
  when queued (dequeue_task cpu p (Z.lor DEQUEUE_SAVE DEQUEUE_NOCLOCK));;
  when running (put_prev_task cpu p);;
  t ← task_of p;
  modify (op_set_cpus_allowed (t_sched_class t) p new_mask);;
  when queued (enqueue_task cpu p (Z.lor ENQUEUE_RESTORE ENQUEUE_NOCLOCK));;
  when running (set_next_task cpu p).

(** The part of [__set_cpus_allowed_ptr] after the mask has changed, with both
    locks held. *)
Definition leave_cpu (cpu : Z) (p : ptr) (new_mask : gset Z) (dest_cpu : Z) : M Z :=
  t ← task_of p;
  if bool_decide (task_cpu t ∈ new_mask) then task_rq_unlock cpu p;; mret 0
  else if nz (on_cpu t) || (t_state t =? TASK_WAKING) then
    task_rq_unlock cpu p;;
    stop_one_cpu cpu (migration_cpu_stop p dest_cpu);;
    mret 0
  else if task_on_rq_queued t then
    rq ← move_queued_task cpu p dest_cpu;
    task_rq_unlock rq p;; mret 0
  else task_rq_unlock cpu p;; mret 0.

Definition __set_cpus_allowed_ptr (p : ptr) (new_mask : gset Z) (check : bool) : M Z :=
  cpu ← task_rq_lock p;
  update_clock cpu;;
  s ← get;
  t ← task_of p;
  let cpu_valid_mask := if has (t_flags t) PF_KTHREAD then k_online s else k_active s in
  if check && has (t_flags t) PF_NO_SETAFFINITY then task_rq_unlock cpu p;; mret (- EINVAL)
  else if bool_decide (cpus_mask t = new_mask) then task_rq_unlock cpu p;; mret 0
  else
    let dest_cpu := cpumask_any_and_distribute cpu_valid_mask new_mask in
    if nr_cpu_ids <=? dest_cpu then task_rq_unlock cpu p;; mret (- EINVAL)
    else
      do_set_cpus_allowed p new_mask;;
      leave_cpu cpu p new_mask dest_cpu.

Definition set_cpus_allowed_ptr (p : ptr) (new_mask : gset Z) : M Z :=
  __set_cpus_allowed_ptr p new_mask false.

(** ** Choosing a CPU *)

Inductive fallback_state := fb_cpuset | fb_possible | fb_fail.

Definition first_allowed (s : kstate) (t : task_struct) : option Z :=
  list_find (fun c => is_cpu_allowed s t c = true) (for_each_cpu (cpus_mask t)) ≫= (fun x => Some x.2).

(** The endless loop: a round looks for an allowed CPU, then widens the mask.
    [fuel] bounds the rounds; the last state is a BUG. *)
Fixpoint fallback_loop (fuel : nat) (state : fallback_state) (p : ptr) : M Z :=
  match fuel with
  | O => hang
  | S fuel =>
      s ← get;
      t ← task_of p;
      match first_allowed s t with
      | Some cpu => mret cpu
      | None =>
          match state with
          | fb_cpuset =>
              if CONFIG_CPUSETS then
                modify (cpuset_cpus_allowed_fallback p);; fallback_loop fuel fb_possible p
              else do_set_cpus_allowed p (k_possible s);; fallback_loop fuel fb_fail p
          | fb_possible => do_set_cpus_allowed p (k_possible s);; fallback_loop fuel fb_fail p
          | fb_fail => bug
          end
      end
  end.

Definition select_fallback_rq (fuel : nat) (cpu : Z) (p : ptr) : M Z :=
  s ← get;
  t ← task_of p;
  let nid := cpu_to_node cpu in
  let local := if nid =? -1 then None
    else list_find (fun c => c ∈ k_active s /\ c ∈ cpus_mask t) (for_each_cpu (cpumask_of_node nid))
         ≫= (fun x => Some x.2) in
  match local with
  | Some cpu => mret cpu
  | None => fallback_loop fuel fb_cpuset p
  end.

Definition select_task_rq (fuel : nat) (p : ptr) (cpu sd_flags wake_flags : Z) : M Z :=
  s ← get;
  t ← task_of p;
  let cpu := if 1 <? nr_cpus_allowed t then op_select_task_rq (t_sched_class t) p cpu sd_flags wake_flags s
             else cpumask_any (cpus_mask t) in
  if negb (is_cpu_allowed s t cpu) then select_fallback_rq fuel (task_cpu t) p else mret cpu.

(** [kick_process]. *)
Definition kick_process (p : ptr) : M unit :=
  preempt_disable;;
  t ← task_of p;
  let cpu := task_cpu t in
  this ← smp_processor_id;
  on ← task_curr p;
  when (negb (cpu =? this) && on) (smp_send_reschedule cpu);;
  preempt_enable_no_resched.

Definition sched_set_stop_task (fuel : nat) (cpu : Z) (stop_task : option ptr) : M unit :=
  r ← rq_of cpu;
  let old_stop := stop r in
  match stop_task with
  | Some p =>
      sched_setscheduler_nocheck fuel p SCHED_FIFO (MAX_RT_PRIO - 1);;
      set_task p (fun t => t <| t_sched_class := stop_sched_class |>)
  | None => mret tt
  end;;
  set_rq cpu (fun r => r <| stop := stop_task |>);;
  match old_stop with
  | Some p => set_task p (fun t => t <| t_sched_class := rt_sched_class |>)
  | None => mret tt
  end.

(** ** Swapping two tasks (NUMA balancing) *)

Definition __migrate_swap_task (p : ptr) (cpu : Z) : M unit :=
  t ← task_of p;
  if task_on_rq_queued t then
    deactivate_task (task_cpu t) p 0;;
    set_task_cpu p cpu;;
    activate_task cpu p 0;;
    check_preempt_curr cpu p 0
  else set_task p (fun t => t <| wake_cpu := cpu |>).

Definition migrate_swap_stop (src_task dst_task : ptr) (src_cpu dst_cpu : Z) : M Z :=
  s ← get;
  if negb (bool_decide (src_cpu ∈ k_active s)) || negb (bool_decide (dst_cpu ∈ k_active s)) then mret (- EAGAIN)
  else
    double_raw_lock src_task dst_task;;
    double_rq_lock src_cpu dst_cpu;;
    st ← task_of src_task;
    dt ← task_of dst_task;
    let ok := (task_cpu dt =? dst_cpu) && (task_cpu st =? src_cpu)
              && bool_decide (dst_cpu ∈ cpus_mask st) && bool_decide (src_cpu ∈ cpus_mask dt) in
    when ok (__migrate_swap_task src_task dst_cpu;; __migrate_swap_task dst_task src_cpu);;
    double_rq_unlock src_cpu dst_cpu;;
    unlock_pi dst_task;; unlock_pi src_task;;
    mret (if ok then 0 else - EAGAIN).

Definition migrate_swap (cur p : ptr) (target_cpu curr_cpu : Z) : M Z :=
  s ← get;
  ct ← task_of cur;
  pt ← task_of p;
  if (curr_cpu =? target_cpu)
     || negb (bool_decide (curr_cpu ∈ k_active s)) || negb (bool_decide (target_cpu ∈ k_active s))
     || negb (bool_decide (target_cpu ∈ cpus_mask ct)) || negb (bool_decide (curr_cpu ∈ cpus_mask pt))
  then mret (- EINVAL)
  else stop_two_cpus target_cpu curr_cpu (migrate_swap_stop cur p curr_cpu target_cpu).

(** ** System calls *)

(** [fuel] bounds the repetitions after a concurrent cpuset change. *)
Fixpoint setaffinity_loop (fuel : nat) (p : ptr) (new_mask : gset Z) : M Z :=
  match fuel with
  | O => hang
  | S fuel =>
      retval ← __set_cpus_allowed_ptr p new_mask true;
      if nz retval then mret retval
      else
        s ← get;
        let cpus_allowed := cpuset_cpus_allowed s p in
        if negb (bool_decide (new_mask ⊆ cpus_allowed)) then setaffinity_loop fuel p cpus_allowed
        else mret 0
  end.

(** The part of [sched_setaffinity] that holds a reference to the task. *)
Definition setaffinity_held (fuel : nat) (p : ptr) (in_mask : gset Z) : M Z :=
  t ← task_of p;
  if has (t_flags t) PF_NO_SETAFFINITY then mret (- EINVAL)
  else if negb alloc_cpumask_ok then mret (- ENOMEM)
  else if negb (check_same_owner p) && negb (ns_capable_sys_nice p) then mret (- EPERM)
  else if nz (security_task_setscheduler p) then mret (security_task_setscheduler p)
  else
    s ← get;
    let new_mask := in_mask ∩ cpuset_cpus_allowed s p in
    if task_has_dl_policy t && dl_bandwidth_enabled && negb (bool_decide (rd_span (task_cpu t) ⊆ new_mask))
    then mret (- EBUSY)
    else setaffinity_loop fuel p new_mask.

Definition sched_setaffinity (fuel : nat) (pid : Z) (in_mask : gset Z) : M Z :=
  o ← find_process_by_pid pid;
  match o with
  | None => mret (- ESRCH)
  | Some p =>
      set_task p (fun t => t <| usage := usage t + 1 |>);;
      retval ← setaffinity_held fuel p in_mask;
      set_task p (fun t => t <| usage := usage t - 1 |>);;
      mret retval
  end.

(** The user's mask: [copy n] is what copying [n] bytes gives, if it works; a
    longer mask is cut. *)
Definition get_user_cpu_mask (copy : Z -> option (gset Z)) (len : Z) : option (gset Z) :=
  copy (if len <? cpumask_size then len else if cpumask_size <? len then cpumask_size else len).

Definition sys_sched_setaffinity (fuel : nat) (pid len : Z) (copy : Z -> option (gset Z)) : M Z :=
  if negb alloc_cpumask_ok then mret (- ENOMEM)
  else match get_user_cpu_mask copy len with
  | None => mret (- EFAULT)
  | Some new_mask => sched_setaffinity fuel pid new_mask
  end.

(** The result and the mask. *)
Definition sched_getaffinity (pid : Z) : M (Z * gset Z) :=
  o ← find_process_by_pid pid;
  match o with
  | None => mret (- ESRCH, ∅)
  | Some p =>
      let retval := security_task_getscheduler p in
      if nz retval then mret (retval, ∅)
      else
        lock_pi p;;
        s ← get;
        t ← task_of p;
        let mask := cpus_mask t ∩ k_active s in
        unlock_pi p;;
        mret (0, mask)
  end.

(** The result, and the mask with the number of its bytes written. *)
Definition sys_sched_getaffinity (pid len : Z) (copy_ok : bool) : M (Z * option (gset Z * Z)) :=
  if u32 (len * BITS_PER_BYTE) <? nr_cpu_ids then mret (- EINVAL, None)
  else if nz (Z.land len (8 - 1)) then mret (- EINVAL, None)
  else if negb alloc_cpumask_ok then mret (- ENOMEM, None)
  else
    '(ret, mask) ← sched_getaffinity pid;
    if negb (ret =? 0) then mret (ret, None)
    else
      let retlen := Z.min len cpumask_size in
      mret (if copy_ok then (retlen, Some (mask, retlen)) else (- EFAULT, None)).

(** ** Yielding *)

Definition do_sched_yield (fuel : nat) : M unit :=
  cpu ← smp_processor_id;
  local_irq_disable;;
  lock_rq cpu;;
  p ← current;
  t ← task_of p;
  modify (op_yield_task (t_sched_class t) cpu);;
  preempt_disable;;
  unlock_rq cpu;;
  preempt_enable_no_resched;;
  schedule fuel.

Definition sys_sched_yield (fuel : nat) : M Z := do_sched_yield fuel;; mret 0.
End Affinity.
