(* ===== verification/Waiting.v ===== *)
(** * Waiting: waiting for I/O, for a task and for one's turn (core.c)

    [io_schedule] and its variants, [wait_task_inactive], [yield_to],
    [sched_rr_get_interval], the checked preemption count and the SysRq function
    that makes real-time tasks normal ones.  After a call of [schedule] it is
    another task that runs, with its own local variables: what a function does
    when its task runs again is a definition of its own. *)

From S2P Require Import Prelude Task KernelApi Prio Rq RqClock Uclamp State Sched ScheduleSpec Machine.
From S2P Require Import Setprio TaskLock SetprioSpec SetprioDemo Affinity.

Class WaitEnv := {
  (* yield_to_task of a class, if it has one: what it changes and whether it yields *)
  op_yield_to_task : sched_class -> option (Z -> ptr -> bool -> kstate -> kstate * Z);
  schedule_timeout : Z -> M Z;
  schedule_hrtimeout_tick : M unit;  (* one tick, relative, from TASK_UNINTERRUPTIBLE *)
  process_threads : kstate -> list ptr;  (* for_each_process_thread *)
  PREEMPT_MASK : Z
}.

Section Waiting.
Context {P : PrioApi} {Y : PolicyApi} {U : UclampApi} {A : AttrFlagApi} {F : FlagApi} {C : ClockConfig}
  {K : SchedClassOps} {V : SetprioEnv} {E : MigrateEnv} {N : WaitEnv}.

(** ** Waiting for I/O *)

(** [in_iowait] is a bit field, the token an int. *)
Definition io_schedule_prepare : M Z :=
  c ← current;
  t ← task_of c;
  let old_iowait := if in_iowait t then 1 else 0 in
  set_task c (fun t => t <| in_iowait := true |>);;
  modify (blk_schedule_flush_plug c);;
  mret old_iowait.

Definition io_schedule_finish (token : Z) : M unit :=
  c ← current;
  set_task c (fun t => t <| in_iowait := has token 1 |>).

(** The result is the token, with which the task calls [io_schedule_finish] when
    it runs again. *)
Definition io_schedule (fuel : nat) : M Z :=
  token ← io_schedule_prepare;
  schedule fuel;;
  mret token.

Definition io_schedule_timeout (timeout : Z) : M (Z * Z) :=
  token ← io_schedule_prepare;
  ret ← schedule_timeout timeout;
  mret (token, ret).

(** ** Waiting for a task to be off its CPU *)

Definition task_running (cpu : Z) (p : ptr) : M bool :=
  t ← task_of p;
  mret (nz (on_cpu t)).

(** What a round of the loop of [wait_task_inactive] ends with: the function
    returns, looks again, or sleeps for a tick first. *)
Inductive wait_round := Waited (ncsw : Z) | LookAgain | SleepATick.

Definition LONG_MIN : Z := - 2 ^ 63.

(** What is read under the locks, and what follows from it. *)
Definition wait_look (p : ptr) (match_state : Z) : M wait_round :=
  rq ← task_rq_lock p;
  running ← task_running rq p;
  t ← task_of p;
  let queued := task_on_rq_queued t in
  let ncsw := if negb (nz match_state) || (t_state t =? match_state)
              then u64 (Z.lor (nvcsw t) LONG_MIN) else 0 in
  task_rq_unlock rq p;;
  mret (if negb (nz ncsw) then Waited ncsw
        else if running : bool then LookAgain
        else if queued then SleepATick
        else Waited ncsw).

(** A round: without locks while the task runs. *)
Definition wait_task_inactive_round (p : ptr) (match_state : Z) : M wait_round :=
  t ← task_of p;
  running ← task_running (task_cpu t) p;
  if running : bool then
    mret (if nz match_state && negb (t_state t =? match_state) then Waited 0 else LookAgain)
  else wait_look p match_state.

(** Before the sleep of one tick. *)
Definition wait_sleep : M unit :=
  c ← current;
  set_task c (fun t => t <| t_state := TASK_UNINTERRUPTIBLE |>);;
  schedule_hrtimeout_tick.

(** ** Giving one's turn to another task *)

(** The part with both run queues locked. *)
Definition yield_to_locked (cpu p_cpu : Z) (curr p : ptr) (preempt : bool) : M Z :=
  ct ← task_of curr;
  t ← task_of p;
  match op_yield_to_task (t_sched_class ct) with
  | None => mret 0
  | Some yield_to_task =>
      if negb (bool_decide (t_sched_class ct = t_sched_class t)) then mret 0
      else
        running ← task_running p_cpu p;
        if (running : bool) || nz (t_state t) then mret 0
        else
          s ← get;
          let '(s', yielded) := yield_to_task cpu p preempt s in
          modify (fun _ => s');;
          when (nz yielded && preempt && negb (cpu =? p_cpu)) (resched_curr p_cpu);;
          mret yielded
  end.

(** With interrupts off; a task that moves between the two reads of its run queue
    is another CPU's doing ([again]). *)
Definition yield_to_irqs_off (p : ptr) (preempt : bool) : M Z :=
  curr ← current;
  cpu ← smp_processor_id;
  r ← rq_of cpu;
  t ← task_of p;
  let p_cpu := task_cpu t in
  p_rq ← rq_of p_cpu;
  if (Rq.nr_running r =? 1) && (Rq.nr_running p_rq =? 1) then mret (- ESRCH)
  else
    double_rq_lock cpu p_cpu;;
    t ← task_of p;
    if negb (task_cpu t =? p_cpu) then double_rq_unlock cpu p_cpu;; hang
    else
      yielded ← yield_to_locked cpu p_cpu curr p preempt;
      double_rq_unlock cpu p_cpu;;
      mret yielded.

Definition yield_to (fuel : nat) (p : ptr) (preempt : bool) : M Z :=
  s ← get;
  let flags := k_irqs_off s in
  local_irq_disable;;
  yielded ← yield_to_irqs_off p preempt;
  modify (fun s => s <| k_irqs_off := flags |>);;
  when (0 <? yielded) (schedule fuel);;
  mret yielded.

(** ** The time slice of a task *)

(** The result and, when it is 0, the slice in jiffies. *)
Definition sched_rr_get_interval (pid : Z) : M (Z * option Z) :=
  if pid <? 0 then mret (- EINVAL, None)
  else
    o ← find_process_by_pid pid;
    match o with
    | None => mret (- ESRCH, None)
    | Some p =>
        let retval := security_task_getscheduler p in
        if nz retval then mret (retval, None)
        else
          rq ← task_rq_lock p;
          s ← get;
          t ← task_of p;
          let time_slice := u32 (op_get_rr_interval (t_sched_class t) rq p s) in
          task_rq_unlock rq p;;
          mret (0, Some time_slice)
    end.

(** [put_timespec64] copies the time to the user: 0 or an error. *)
Definition sys_sched_rr_get_interval (pid : Z) (put_timespec64 : Z -> Z) : M Z :=
  '(retval, t) ← sched_rr_get_interval pid;
  mret (match t with Some slice => if retval =? 0 then put_timespec64 slice else retval | None => retval end).

Definition sys_sched_rr_get_interval_time32 (pid : Z) (put_old_timespec32 : Z -> Z) : M Z :=
  '(retval, t) ← sched_rr_get_interval pid;
  mret (match t with Some slice => if retval =? 0 then put_old_timespec32 slice else retval | None => retval end).

(** ** The checked preemption count (CONFIG_DEBUG_PREEMPT) *)

(** Lockdep's warnings are off once the system is about to die. *)
Definition DEBUG_LOCKS_WARN_ON (c : bool) : bool := negb oops_in_progress && c.

Definition preempt_count_add (val : Z) : M unit :=
  s ← get;
  if DEBUG_LOCKS_WARN_ON (k_preempt s <? 0) then mret tt
  else modify (fun s => s <| k_preempt := s32 (k_preempt s + val) |>).

Definition preempt_count_sub (val : Z) : M unit :=
  s ← get;
  if DEBUG_LOCKS_WARN_ON (k_preempt s <? val) then mret tt
  else if DEBUG_LOCKS_WARN_ON ((val <? PREEMPT_MASK) && negb (has (k_preempt s) PREEMPT_MASK)) then mret tt
  else modify (fun s => s <| k_preempt := s32 (k_preempt s - val) |>).

(** ** Making real-time tasks normal *)

Definition normal_attr : sched_attr := mk_sched_attr SCHED_NORMAL 0 0 0 0 0 0 0 0.

Definition normalize_task (fuel : nat) (p : ptr) : M unit :=
  t ← task_of p;
  if has (t_flags t) PF_KTHREAD then mret tt
  else
    set_task p (fun t => t <| t_se := (t_se t) <| se_exec_start := 0 |> |>);;
    if negb (dl_task t) && negb (rt_task t)
    then when (task_nice t <? 0) (set_user_nice p 0)
    else __sched_setscheduler fuel p normal_attr false false;; mret tt.

Fixpoint normalize_loop (fuel : nat) (l : list ptr) : M unit :=
  match l with
  | [] => mret tt
  | p :: l => normalize_task fuel p;; normalize_loop fuel l
  end.

Definition normalize_rt_tasks (fuel : nat) : M unit := s ← get; normalize_loop fuel (process_threads s).

(** ** What they promise *)

(** Adding to the preemption count and subtracting again changes nothing, when
    the count is not negative, does not overflow, and the lock part is there to
    be subtracted from. *)
Lemma preempt_count_balanced val s :
  0 <= val -> 0 <= k_preempt s -> k_preempt s + val < 2 ^ 31 ->
  (val < PREEMPT_MASK -> has (k_preempt s + val) PREEMPT_MASK = true) ->
  (preempt_count_add val;; preempt_count_sub val) s = Ok tt s.
Proof.
  intros Hv Hk Hmax Hmask. set (k := k_preempt s) in *.
  assert (s32 (k + val) = k + val) as E1 by (apply wraps_id; lia).
  assert (s32 (k + val - val) = k) as E2 by (rewrite Z.add_simpl_r; apply wraps_id; lia).
  assert (preempt_count_add val s = Ok tt (s <| k_preempt := k + val |>)) as Ea.
  { unfold preempt_count_add, DEBUG_LOCKS_WARN_ON. rewrite (bind_ok get _ s s s eq_refl). fold k.
    rewrite (proj2 (Z.ltb_ge k 0)), andb_false_r by lia. unfold modify. fold k. by rewrite E1. }
  rewrite (bind_ok _ _ _ _ _ Ea). unfold preempt_count_sub, DEBUG_LOCKS_WARN_ON.
  rewrite (bind_ok get _ _ _ _ eq_refl). change (k_preempt (s <| k_preempt := k + val |>)) with (k + val).
  rewrite (proj2 (Z.ltb_ge (k + val) val)), andb_false_r by lia.
  assert ((val <? PREEMPT_MASK) && negb (has (k + val) PREEMPT_MASK) = false) as ->.
  { destruct (val <? PREEMPT_MASK) eqn:Em; [|done]. bool_cases. by rewrite Hmask. }
  rewrite andb_false_r. unfold modify. change (k_preempt (s <| k_preempt := k + val |>)) with (k + val). rewrite E2.
  subst k. by destruct s.
Qed.

(** What a round of [wait_task_inactive] concludes from a task. *)
Definition wait_verdict (t : task_struct) (match_state : Z) : wait_round :=
  let unexpected := nz match_state && negb (t_state t =? match_state) in
  if unexpected then Waited 0
  else if nz (on_cpu t) then LookAgain
  else if task_on_rq_queued t then SleepATick
  else Waited (u64 (Z.lor (nvcsw t) LONG_MIN)).

(** A count of switches is reported with its top bit set: never 0. *)
Lemma ncsw_nonzero t : nz (u64 (Z.lor (nvcsw t) LONG_MIN)) = true.
Proof.
  apply nz_true. intros H. pose proof (f_equal (fun x => Z.testbit x 63) H) as E1. cbv beta in E1.
  unfold wrapu in E1. rewrite Z.mod_pow2_bits_low, Z.lor_spec, Z.bits_0 in E1 by lia.
  change (Z.testbit LONG_MIN 63) with true in E1. by rewrite orb_true_r in E1.
Qed.

(** One round of [wait_task_inactive] changes nothing and ends the wait exactly
    when the task has left the expected state (0 is returned), or is off the CPU
    and off the queue (its voluntary switches are returned, never as 0). *)
Theorem wait_task_inactive_exact s p t r match_state :
  task_pre false s p t r ->
  wait_task_inactive_round p match_state s = Ok (wait_verdict t match_state) s.
Proof.
  intros Hpre. pose proof Hpre as [Ht Hpi Hr Hl _ _]. unfold wait_task_inactive_round, task_running.
  rewrite (bind_ok _ _ _ _ _ (task_of_run _ _ _ Ht)), bind_bind, (bind_ok _ _ _ _ _ (task_of_run _ _ _ Ht)).
  change (mret (nz (on_cpu t)) ≫= ?f) with (f (nz (on_cpu t))). cbv beta. unfold wait_verdict.
  destruct (nz (on_cpu t)) eqn:Hon; [by destruct (nz match_state && _)|]. unfold wait_look.
  rewrite (bind_ok _ _ _ _ _ (task_rq_lock_exact s p t r Hpre)). pose proof (locked_task_at p (task_cpu t) s t Ht) as Ht1.
  set (s1 := locked_task p (task_cpu t) s) in *. unfold task_running.
  rewrite bind_bind, (bind_ok _ _ _ _ _ (task_of_run _ _ _ Ht1)).
  change (mret ?b ≫= ?f) with (f b). cbv beta. rewrite (bind_ok _ _ _ _ _ (task_of_run _ _ _ Ht1)). cbv zeta.
  rewrite (bind_ok _ _ _ _ _ (task_rq_unlock_exact s (task_cpu t) p r t Hr Hl Ht Hpi)).
  change (t_state (t <| pi_lock := true |>)) with (t_state t). change (nvcsw (t <| pi_lock := true |>)) with (nvcsw t).
  change (on_cpu (t <| pi_lock := true |>)) with (on_cpu t). rewrite Hon.
  change (task_on_rq_queued (t <| pi_lock := true |>)) with (task_on_rq_queued t).
  destruct (nz match_state), (t_state t =? match_state); cbn [negb andb orb]; rewrite ?ncsw_nonzero; done.
Qed.
End Waiting.

(** Task 3 waits on its queue: the caller sleeps for a tick. *)
Lemma wait_task_inactive_exact_witness :
  wait_task_inactive_round 3%positive 0 nice_machine = Ok (wait_verdict plain_task 0) nice_machine.
Proof. apply (wait_task_inactive_exact nice_machine 3%positive plain_task machine_rq 0 nice_machine_pre). Defined.

Example wait_verdicts :
  (wait_verdict plain_task 0, wait_verdict (plain_task <| on_rq := 0 |> <| nvcsw := 7 |>) 0, wait_verdict plain_task 2) =
  (SleepATick, Waited (2 ^ 63 + 7), Waited 0).
Proof. vm_compute. reflexivity. Qed.
