(* ===== verification/AffinitySpec.v ===== *)
(** * AffinitySpec: a task keeps to its CPUs

    What changing an affinity mask, moving a queued task and looking for a CPU
    promise, with the theorems that the code keeps the promise. *)

From S2P Require Import Prelude Task KernelApi Prio Rq RqClock Uclamp UclampTrace.
From S2P Require Import State Sched SchedFacts ScheduleSpec Setprio TaskLock Machine.
From S2P Require Import Affinity.

(** What the code relies on: the hooks that change a mask or a CPU do just that,
    and the mask helpers pick members. *)
Class MigrateLaws {U : UclampApi} (E : MigrateEnv) : Prop := {
  law_set_allowed c p m s : is_Some (k_tasks s !! p) ->
    kframe false (upd_task p (fun t => set_cpus_allowed_common t m) s) (op_set_cpus_allowed c p m s);
  law_cpuset_fallback p s : is_Some (k_tasks s !! p) ->
    exists m, kframe false (upd_task p (fun t => set_cpus_allowed_common t m) s) (cpuset_cpus_allowed_fallback p s);
  law_set_task_cpu p cpu s : is_Some (k_tasks s !! p) ->
    kframe false (upd_task p (fun t => t <| t_cpu := cpu |>) s) (__set_task_cpu p cpu s);
  law_per_cpu t : is_per_cpu_kthread t = has (t_flags t) PF_KTHREAD && (nr_cpus_allowed t =? 1);
  law_any_and m1 m2 : (forall c, c ∈ m1 -> 0 <= c < nr_cpu_ids) ->
    let c := cpumask_any_and_distribute m1 m2 in c ∈ m1 /\ c ∈ m2 /\ c < nr_cpu_ids \/ nr_cpu_ids <= c /\ m1 ## m2
}.

(** ** Preemption checks *)

Section Affinity.
Context {P : PrioApi} {Y : PolicyApi} {U : UclampApi} {A : AttrFlagApi} {F : FlagApi} {FL : FlagLaws F}
  {C : ClockConfig} {K : SchedClassOps} {KL : SchedClassLaws K} {V : SetprioEnv} {E : MigrateEnv}
  {EL : MigrateLaws E}.

(** The CPU is up: its run queue and the task running on it are there. *)
Definition cpu_up (s : kstate) (cpu : Z) : Prop :=
  exists r, k_rqs s !! cpu = Some r /\ is_Some (k_tasks s !! curr r).

Lemma cpu_up_core w s s' cpu : core_same w s s' -> cpu_up s cpu -> cpu_up s' cpu.
Proof.
  intros H (r & Hr & [c Hc]). destruct (core_same_lookup _ _ _ H) as [H1 H2].
  destruct (H2 _ _ Hr) as (r' & Hr' & Er). destruct (H1 _ _ Hc) as (c' & Hc' & _).
  exists r'. split; [done|]. rewrite (erase_rq_field curr _ _ ltac:(done) Er). by exists c'.
Qed.

Lemma cpu_up_upd_task s cpu p f : cpu_up s cpu -> cpu_up (upd_task p f s) cpu.
Proof. intros (r & Hr & Hc). exists r. split; [exact Hr|by apply upd_task_some]. Qed.

Lemma cpu_up_upd_rq s cpu c f : (forall r, curr (f r) = curr r) -> cpu_up s cpu -> cpu_up (upd_rq c f s) cpu.
Proof.
  intros Hf (r & Hr & Hc). destruct (decide (cpu = c)) as [->|Hne].
  - exists (f r). split; [by rewrite upd_rq_lookup, decide_True, Hr|by rewrite Hf].
  - exists r. split; [by rewrite upd_rq_lookup, decide_False|exact Hc].
Qed.

Lemma wp_check_preempt_curr s cpu p fl :
  cpu_up s cpu -> is_Some (k_tasks s !! p) ->
  wp (check_preempt_curr cpu p fl) (fun _ s' => kframe false s s') s.
Proof using KL.
  intros Hup [t Ht]. pose proof Hup as (r & Hr & c & Hc). unfold check_preempt_curr.
  apply wp_bind. eapply wp_rq_of; [exact Hr|]. apply wp_bind. eapply wp_task_of; [exact Ht|].
  apply wp_bind. eapply wp_task_of; [exact Hc|]. apply wp_bind.
  apply (wp_mono _ (fun _ s' => kframe false s s')).
  { destruct (bool_decide _); [apply wp_modify, law_check_preempt|]. apply wp_when; [|done].
    intros _. eapply wp_resched_curr; [exact Hr|by exists c]. }
  cbn beta. intros _ s1 H1. destruct (cpu_up_core _ _ _ cpu (kf_core _ _ _ H1) Hup) as (r1 & Hr1 & c1 & Hc1).
  apply wp_bind. eapply wp_rq_of; [exact Hr1|]. apply wp_bind. eapply wp_task_of; [exact Hc1|].
  apply wp_when; [|done]. intros _. apply wp_modify. etransitivity; [exact H1|apply law_clock_skip].
Qed.

Lemma wp_track_frame g s w (m : M unit) (Q : unit -> kstate -> Prop) :
  tracks g s -> wp m (fun _ s' => kframe w s s') s -> (forall s', tracks g s' -> Q tt s') -> wp m Q s.
Proof. intros H Hm HQ. eapply wp_mono; [exact Hm|]. cbn beta. intros [] s' H'. apply HQ. by eapply tracks_frame. Qed.

(** ** Choosing a CPU *)

(** Task [p] runs on [cpu] now. *)
Definition on_cpu_of (p : ptr) (cpu : Z) (s : kstate) : kstate := upd_task p (fun t => t <| t_cpu := cpu |>) s.

Lemma wp_set_task_cpu_exact s p cpu :
  clamps_in_range s -> is_Some (k_tasks s !! p) ->
  wp (set_task_cpu p cpu) (fun _ s' => kframe false (on_cpu_of p cpu s) s') s.
Proof using KL EL.
  intros Hs [t Ht]. unfold set_task_cpu. apply wp_bind. eapply wp_task_of; [exact Ht|]. apply wp_bind.
  apply (wp_mono _ (fun _ s' => kframe false s s')).
  { apply wp_when; intros _; [|done]. apply wp_bind, wp_modify.
    pose proof (law_migrate (t_sched_class t) p cpu s) as H1. revert H1.
    generalize (op_migrate_task_rq (t_sched_class t) p cpu s). intros s1 H1.
    destruct (kframe_task _ _ _ _ _ H1 Ht) as (t1 & Ht1 & _). apply wp_bind. eapply wp_set_task; [exact Ht1|].
    apply wp_modify. etransitivity; [|apply law_rseq_migrate]. etransitivity; [exact H1|]. eapply kframe_put_task; [exact Ht1|reflexivity|].
    intros Hx id. destruct id; [apply (Hx UCLAMP_MIN)|apply (Hx UCLAMP_MAX)]. }
  cbn beta. intros _ s1 H1. apply wp_modify. destruct (kframe_task _ _ _ _ _ H1 Ht) as (t1 & Ht1 & _).
  etransitivity; [|apply law_set_task_cpu; by exists t1].
  apply kframe_upd_task; [done|by intros ? []|exact Hs|exact H1].
Qed.

Lemma kframe_on_cpu p cpu s : kframe true s (on_cpu_of p cpu s).
Proof.
  unfold on_cpu_of. destruct (k_tasks s !! p) as [t|] eqn:Ht.
  - unfold upd_task. rewrite <- (insert_alter (k_tasks s) p t _ Ht). eapply kframe_put_task; [exact Ht|reflexivity|].
    intros Hx id. destruct id; [apply (Hx UCLAMP_MIN)|apply (Hx UCLAMP_MAX)].
  - rewrite upd_task_id; [done|]. intros t. by rewrite Ht.
Qed.

Lemma wp_set_task_cpu g s p cpu (Q : unit -> kstate -> Prop) :
  tracks g s -> is_Some (k_tasks g !! p) -> (forall s', tracks g s' -> Q tt s') -> wp (set_task_cpu p cpu) Q s.
Proof using KL EL.
  intros H Hp HQ. eapply wp_mono; [apply wp_set_task_cpu_exact; [apply H|by eapply tracks_task_some]|].
  cbn beta. intros [] s' H'. apply HQ. eapply (tracks_frame true); [|exact H].
  etransitivity; [apply (kframe_on_cpu p cpu)|by apply kframe_weaken].
Qed.

(** What [is_cpu_allowed] looks at. *)
Lemma allowed_same s s' t t' c :
  k_online s' = k_online s -> k_active s' = k_active s -> cpus_mask t' = cpus_mask t -> t_flags t' = t_flags t ->
  nr_cpus_allowed t' = nr_cpus_allowed t -> is_cpu_allowed s' t' c = is_cpu_allowed s t c.
Proof using EL. intros E1 E2 E3 E4 E5. unfold is_cpu_allowed. by rewrite !law_per_cpu, E1, E2, E3, E4, E5. Qed.

Lemma find_first {X} (Q : X -> Prop) `{!forall x, Decision (Q x)} l x :
  list_find Q l ≫= (fun y => Some y.2) = Some x -> Q x /\ x ∈ l.
Proof.
  destruct (list_find Q l) as [[i y]|] eqn:El; [|done]. intros [= <-].
  apply list_find_Some in El as (Hl & Hq & _). split; [done|]. by eapply list_elem_of_lookup_2.
Qed.

Lemma first_allowed_ok s t c : first_allowed s t = Some c -> is_cpu_allowed s t c = true.
Proof. intros H. by apply find_first in H as [? _]. Qed.

(** With an allowed CPU to fall back to, a CPU is chosen without changing
    anything, and the task may run there. *)
Lemma wp_select_task_rq fuel s p t cpu sd fl :
  k_tasks s !! p = Some t -> is_Some (first_allowed s t) -> k_active s ⊆ k_online s ->
  wp (select_task_rq (S fuel) p cpu sd fl) (fun c s' => s' = s /\ is_cpu_allowed s t c = true) s.
Proof.
  intros Ht [c0 Hc0] Hsub. unfold select_task_rq. apply wp_bind, wp_get. apply wp_bind. eapply wp_task_of; [exact Ht|].
  cbv zeta. match goal with |- context [negb ?b] => destruct b eqn:Ea end; [by apply wp_ret|]. cbn [negb].
  unfold select_fallback_rq. apply wp_bind, wp_get. apply wp_bind. eapply wp_task_of; [exact Ht|]. cbv zeta.
  match goal with |- context [match ?o with Some _ => _ | None => _ end] => destruct o as [c|] eqn:Eo end.
  - apply wp_ret. split; [done|]. destruct (cpu_to_node _ =? -1); [done|].
    apply find_first in Eo as [[Hact Hmask] _]. unfold is_cpu_allowed.
    rewrite (bool_decide_eq_true_2 _ Hmask). cbn [negb]. destruct (is_per_cpu_kthread t); apply bool_decide_eq_true_2; set_solver.
  - cbn [fallback_loop]. apply wp_bind, wp_get. apply wp_bind. eapply wp_task_of; [exact Ht|]. rewrite Hc0.
    apply wp_ret. split; [done|]. by apply first_allowed_ok.
Qed.

Lemma first_allowed_same s s' t t' :
  k_online s' = k_online s -> k_active s' = k_active s -> cpus_mask t' = cpus_mask t -> t_flags t' = t_flags t ->
  nr_cpus_allowed t' = nr_cpus_allowed t -> first_allowed s' t' = first_allowed s t.
Proof using EL.
  intros E1 E2 E3 E4 E5. unfold first_allowed. rewrite E3. f_equal. apply list_find_ext. intros c.
  by rewrite (allowed_same s s' t t') by done.
Qed.

Lemma allowed_up s t c : is_cpu_allowed s t c = true -> k_active s ⊆ k_online s -> c ∈ k_online s.
Proof.
  unfold is_cpu_allowed. destruct (negb _); [done|]. destruct (is_per_cpu_kthread t);
    intros H%bool_decide_eq_true_1 Hs; set_solver.
Qed.

(** ** Changing the mask *)

Definition mask_changed (p : ptr) (m : gset Z) (s : kstate) : kstate :=
  upd_task p (fun t => set_cpus_allowed_common t m) s.

Lemma wp_exact_step {B} g s (m : M unit) (k : M B) Q :
  kframe false g s -> wp m (fun _ s' => kframe false s s') s ->
  (forall s', kframe false g s' -> wp k Q s') -> wp (m;; k) Q s.
Proof.
  intros H Hm Hk. apply wp_bind. eapply wp_mono; [exact Hm|]. cbn beta. intros _ s' H'. apply Hk. by etransitivity.
Qed.

Lemma wp_when_exact b m s :
  wp m (fun _ s' => kframe false s s') s -> wp (when b m) (fun _ s' => kframe false s s') s.
Proof. intros Hm. by apply wp_when. Qed.

(** What a frame keeps of a task and of a run queue's existence. *)
Lemma frame_parts g s p t c :
  kframe false g s -> clamps_in_range g -> k_tasks g !! p = Some t -> is_Some (k_rqs g !! c) ->
  clamps_in_range s /\ is_Some (k_tasks s !! p) /\ is_Some (k_rqs s !! c).
Proof.
  intros H Hc Ht Hr. split; [by apply (kf_clamps _ _ _ H)|]. split.
  - eapply kframe_task_some; [exact H|by exists t].
  - by eapply kframe_rq_some.
Qed.

Lemma wp_do_set_cpus_allowed s p t m :
  clamps_in_range s -> k_tasks s !! p = Some t -> is_Some (k_rqs s !! task_cpu t) ->
  wp (do_set_cpus_allowed p m) (fun _ s' => kframe false (mask_changed p m s) s') s.
Proof using KL EL.
  intros Hc Ht Hr. unfold do_set_cpus_allowed. apply wp_bind. eapply wp_task_of; [exact Ht|]. cbv zeta.
  destruct Hr as [r Hr]. apply wp_bind. unfold task_current. apply wp_bind. eapply wp_rq_of; [exact Hr|]. apply wp_ret.
  generalize (bool_decide (curr r = p)) (task_on_rq_queued t). intros running queued.
  assert (forall s1, kframe false s s1 -> clamps_in_range s1 /\ is_Some (k_tasks s1 !! p) /\ is_Some (k_rqs s1 !! task_cpu t))
    as Hk by (intros s1 H1; apply (frame_parts s s1 p t); [done..|by exists r]).
  apply (wp_exact_step s); [done|apply wp_when_exact, wp_dequeue_task; apply (Hk s); done|]. intros s1 H1.
  apply (wp_exact_step s); [exact H1|apply wp_when_exact, wp_put_prev_task; by apply (Hk s1)|]. intros s2 H2.
  destruct (Hk s2 H2) as (_ & [t2 Ht2] & _). apply wp_bind. eapply wp_task_of; [exact Ht2|]. apply wp_bind, wp_modify.
  assert (kframe false (mask_changed p m s) (op_set_cpus_allowed (t_sched_class t2) p m s2)) as H3.
  { etransitivity; [|apply law_set_allowed; by exists t2]. by apply kframe_upd_task; [|intros ? []| |]. }
  revert H3. generalize (op_set_cpus_allowed (t_sched_class t2) p m s2). intros s3 H3.
  assert (forall s4, kframe false (mask_changed p m s) s4 ->
    clamps_in_range s4 /\ is_Some (k_tasks s4 !! p) /\ is_Some (k_rqs s4 !! task_cpu t)) as Hk2.
  { intros s4 H4. apply (frame_parts (mask_changed p m s) s4 p (set_cpus_allowed_common t m) (task_cpu t) H4).
    - apply (clamps_upd_task p (fun t => set_cpus_allowed_common t m)); [by intros ? []|exact Hc].
    - by apply (upd_task_at p (fun t => set_cpus_allowed_common t m)).
    - by exists r. }
  apply (wp_exact_step (mask_changed p m s)); [exact H3|apply wp_when_exact, wp_enqueue_task; by apply (Hk2 s3)|].
  intros s4 H4. apply wp_when; intros _; [|exact H4].
  eapply wp_mono; [apply wp_set_next_task; by apply (Hk2 s4)|]. cbn beta. intros _ s5 H5. by etransitivity.
Qed.
(** ** Falling back *)

Lemma kframe_masks w s s' :
  kframe w s s' -> k_possible s' = k_possible s /\ k_active s' = k_active s /\ k_online s' = k_online s.
Proof.
  intros [H _]. unfold core_same in H.
  split; [exact (f_equal k_possible H)|split; [exact (f_equal k_active H)|exact (f_equal k_online H)]].
Qed.

Lemma mask_changed_at p m s t :
  k_tasks s !! p = Some t -> k_tasks (mask_changed p m s) !! p = Some (set_cpus_allowed_common t m).
Proof. apply (upd_task_at p (fun t => set_cpus_allowed_common t m)). Qed.

Lemma mask_changed_clamps p m s : clamps_in_range s -> clamps_in_range (mask_changed p m s).
Proof. apply (clamps_upd_task p (fun t => set_cpus_allowed_common t m)). by intros ? []. Qed.

Lemma mask_changed_again p m m' s s' :
  clamps_in_range s -> kframe false (mask_changed p m s) s' ->
  kframe false (mask_changed p m' s) (mask_changed p m' s').
Proof.
  intros Hc H. assert (mask_changed p m' (mask_changed p m s) = mask_changed p m' s) as <-
    by (unfold mask_changed; rewrite upd_task_twice; reflexivity).
  apply kframe_upd_task; [done|by intros ? []|by apply mask_changed_clamps|exact H].
Qed.

(** A mask of all possible CPUs has an allowed one. *)
Lemma possible_allowed s t c :
  c ∈ k_active s -> c ∈ k_possible s -> k_active s ⊆ k_online s -> 0 <= c < nr_cpu_ids ->
  cpus_mask t = k_possible s -> is_Some (first_allowed s t).
Proof.
  intros Ha Hp Hsub Hb Hm. unfold first_allowed.
  destruct (list_find (fun c => is_cpu_allowed s t c = true) (for_each_cpu (cpus_mask t))) as [x|] eqn:Ef; [by eexists|].
  exfalso. apply list_find_None in Ef. rewrite Forall_forall in Ef. apply (Ef c).
  - unfold for_each_cpu. rewrite list_elem_of_filter. split; [by rewrite Hm|]. apply elem_of_seqZ. lia.
  - unfold is_cpu_allowed. rewrite Hm, (bool_decide_eq_true_2 _ Hp). cbn [negb].
    destruct (is_per_cpu_kthread t); apply bool_decide_eq_true_2; auto.
Qed.

(** The search ended at [c], with the task's mask as it was or widened. *)
Definition fell_back (p : ptr) (s : kstate) (c : Z) (s' : kstate) : Prop :=
  (s' = s \/ exists m, kframe false (mask_changed p m s) s') /\
  exists t', k_tasks s' !! p = Some t' /\ is_cpu_allowed s' t' c = true.

(** What the search starts from. *)
Record fallback_pre (s : kstate) (p : ptr) (t : task_struct) (c : Z) : Prop := {
  fb_task : k_tasks s !! p = Some t;
  fb_rq : is_Some (k_rqs s !! task_cpu t);
  fb_active : c ∈ k_active s;
  fb_poss : c ∈ k_possible s;
  fb_bound : 0 <= c < nr_cpu_ids;
  fb_online : k_active s ⊆ k_online s;
  fb_clamps : clamps_in_range s
}.

(** One round that finds nothing goes on in a state with another mask. *)
Lemma fallback_last s p t c s3 fuel :
  fallback_pre s p t c -> kframe false (mask_changed p (k_possible s) s) s3 ->
  wp (fallback_loop (S fuel) fb_fail p) (fun c s' => fell_back p s c s') s3.
Proof.
  intros [Ht Hr Ha Hp Hb Hsub Hc] H3. destruct (kframe_masks _ _ _ H3) as (E1 & E2 & E3).
  destruct (kframe_task _ _ _ _ _ H3 (mask_changed_at p (k_possible s) s t Ht)) as (t3 & Ht3 & Et).
  cbn [fallback_loop]. apply wp_bind, wp_get. apply wp_bind. eapply wp_task_of; [exact Ht3|].
  destruct (possible_allowed s3 t3 c) as [d Hd]; [by rewrite E2|by rewrite E1|by rewrite E2, E3|exact Hb| |].
  { rewrite E1. exact (erase_field false cpus_mask _ _ ltac:(kept_field) Et). }
  rewrite Hd. apply wp_ret. split; [right; by eexists|]. exists t3. split; [exact Ht3|by apply first_allowed_ok].
Qed.

Lemma fallback_possible s p t c s2 m fuel :
  fallback_pre s p t c -> kframe false (mask_changed p m s) s2 ->
  wp (fallback_loop (S (S fuel)) fb_possible p) (fun c s' => fell_back p s c s') s2.
Proof using KL EL.
  intros Hpre H2. pose proof Hpre as [Ht Hr Ha Hp Hb Hsub Hc]. destruct (kframe_masks _ _ _ H2) as (E1 & _ & _).
  destruct (kframe_task _ _ _ _ _ H2 (mask_changed_at p m s t Ht)) as (t2 & Ht2 & Et).
  remember (S fuel) as n eqn:En. cbn [fallback_loop]. apply wp_bind, wp_get. apply wp_bind.
  eapply wp_task_of; [exact Ht2|]. destruct (first_allowed s2 t2) as [d|] eqn:Ed.
  { apply wp_ret. split; [right; by exists m|]. exists t2. split; [exact Ht2|by apply first_allowed_ok]. }
  apply wp_bind. eapply wp_mono; [apply (wp_do_set_cpus_allowed s2 p t2)|].
  - by apply (kf_clamps _ _ _ H2), mask_changed_clamps.
  - exact Ht2.
  - rewrite (erase_field false task_cpu _ _ ltac:(kept_field) Et). by apply (kframe_rq_some _ _ _ _ H2).
  - cbn beta. intros _ s3 H3. rewrite En. eapply fallback_last; [exact Hpre|]. etransitivity; [|exact H3].
    rewrite E1. by apply (mask_changed_again p m).
Qed.

Lemma select_fallback_rq_correct s p t cpu c fuel :
  fallback_pre s p t c -> wp (select_fallback_rq (S (S (S fuel))) cpu p) (fun c s' => fell_back p s c s') s.
Proof using KL EL.
  intros Hpre. pose proof Hpre as [Ht Hr Ha Hp Hb Hsub Hc]. unfold select_fallback_rq.
  apply wp_bind, wp_get. apply wp_bind. eapply wp_task_of; [exact Ht|]. cbv zeta.
  match goal with |- context [match ?o with Some _ => _ | None => _ end] => destruct o as [d|] eqn:Eo end.
  { apply wp_ret. split; [by left|]. exists t. split; [exact Ht|]. destruct (cpu_to_node cpu =? -1); [done|].
    apply find_first in Eo as [[Hact Hmask] _]. unfold is_cpu_allowed. rewrite (bool_decide_eq_true_2 _ Hmask).
    cbn [negb]. destruct (is_per_cpu_kthread t); apply bool_decide_eq_true_2; auto. }
  remember (S (S fuel)) as n eqn:En. cbn [fallback_loop]. apply wp_bind, wp_get. apply wp_bind.
  eapply wp_task_of; [exact Ht|]. destruct (first_allowed s t) as [d|] eqn:Ed.
  { apply wp_ret. split; [by left|]. exists t. split; [exact Ht|by apply first_allowed_ok]. }
  destruct CONFIG_CPUSETS; apply wp_bind; rewrite En.
  - destruct (law_cpuset_fallback p s) as [m H2]; [by exists t|]. apply wp_modify. by eapply fallback_possible.
  - eapply wp_mono; [by apply (wp_do_set_cpus_allowed s p t)|]. cbn beta. intros _ s2 H2. by eapply fallback_last.
Qed.

(** [select_fallback_rq] ends within three rounds of its endless loop and
    never reaches its BUG as long as one possible CPU is active: it returns a
    CPU the task may run on, and all it may have changed is the task's affinity
    mask. *)
Theorem select_fallback_rq_terminates s p t cpu c fuel :
  fallback_pre s p t c ->
  exists d s', select_fallback_rq (S (S (S fuel))) cpu p s = Ok d s' /\ fell_back p s d s'.
Proof using KL EL. intros H. by apply wp_elim, (select_fallback_rq_correct s p t cpu c). Qed.
(** ** Moving a queued task *)

Lemma wp_and_ok {X} (m : M X) (Q R : X -> kstate -> Prop) s :
  wp m Q s -> (forall a s', m s = Ok a s' -> R a s') -> wp m (fun a s' => Q a s' /\ R a s') s.
Proof. unfold wp. intros H HR. destruct (m s) eqn:Em; [split; [exact H|by apply HR]|done..]. Qed.

Lemma lock_rq_tasks c s a s' : lock_rq c s = Ok a s' -> k_tasks s' = k_tasks s.
Proof.
  unfold lock_rq, rq_of, mbind, M_bind, get, lift_option, mret, M_ret. cbn.
  destruct (k_rqs s !! c) as [r|]; [|done]. cbn. destruct (rq_lock r); [done|]. cbn. by intros [= _ <-].
Qed.

Lemma unlock_rq_tasks c s a s' : unlock_rq c s = Ok a s' -> k_tasks s' = k_tasks s.
Proof.
  unfold unlock_rq, rq_of, mbind, M_bind, get, lift_option, mret, M_ret. cbn.
  destruct (k_rqs s !! c) as [r|]; [|done]. cbn. destruct (rq_lock r); [|done]. cbn. by intros [= _ <-].
Qed.

(** Where a task is, whatever the locks. *)
Definition queued_on (p : ptr) (cpu : Z) (s : kstate) : Prop :=
  exists t, k_tasks s !! p = Some t /\ task_cpu t = cpu /\ on_rq t = TASK_ON_RQ_QUEUED.

Lemma queued_on_frame p cpu s s' : kframe false s s' -> queued_on p cpu s -> queued_on p cpu s'.
Proof.
  intros H (t & Ht & E1 & E2). destruct (kframe_task _ _ _ _ _ H Ht) as (t' & Ht' & Et). exists t'.
  split; [exact Ht'|]. rewrite (erase_field false task_cpu _ _ ltac:(kept_field) Et).
  by rewrite (erase_field false on_rq _ _ ltac:(kept_field) Et).
Qed.

(** Changing how a task is queued is not seen by the tracking. *)
Lemma tracks_requeued g s p t x :
  tracks g s -> k_tasks s !! p = Some t -> nz (on_rq t) = true -> nz x = true ->
  tracks g (upd_task p (fun t => t <| on_rq := x |>) s).
Proof.
  intros H Ht Hn Hx. eapply (tracks_frame true); [|exact H]. unfold upd_task.
  rewrite <- (insert_alter (k_tasks s) p t _ Ht). eapply kframe_put_task; [exact Ht| |].
  - unfold erase_task. cbn zeta. cbv iota.
    assert (nz (on_rq (t <| on_rq := x |>)) = nz (on_rq t)) as E1 by (rewrite Hn; exact Hx).
    revert E1. generalize (nz (on_rq (t <| on_rq := x |>))) (nz (on_rq t)). intros b1 b2 ->. reflexivity.
  - intros Hr id. destruct id; [apply (Hr UCLAMP_MIN)|apply (Hr UCLAMP_MAX)].
Qed.

Lemma tracks_on_rq g s p t :
  tracks g s -> k_tasks g !! p = Some t -> exists t', k_tasks s !! p = Some t' /\ nz (on_rq t') = nz (on_rq t).
Proof.
  intros H Ht. destruct (tracks_task _ _ _ _ H Ht) as (t' & Ht' & Et). exists t'. split; [exact Ht'|].
  exact (erase_field true (fun t => nz (on_rq t)) _ _ (erase_queued true) Et).
Qed.
(** A CPU a task can be moved to: up, its run queue free. *)
Definition cpu_free (s : kstate) (cpu : Z) : Prop :=
  exists r, k_rqs s !! cpu = Some r /\ rq_lock r = false /\ is_Some (k_tasks s !! curr r).

Lemma cpu_free_up s cpu : cpu_free s cpu -> cpu_up s cpu.
Proof. intros (r & Hr & _ & Hc). by exists r. Qed.

(** The task is dequeued, bound to the new CPU, and the locks are exchanged. *)
Lemma wp_move_out g s cpu new p t r (Q : unit -> kstate -> Prop) :
  tracks (locked_g cpu g) s -> k_tasks g !! p = Some t -> nz (on_rq t) = true ->
  k_rqs g !! cpu = Some r -> rq_lock r = false ->
  (forall s', tracks g s' -> (exists t', k_tasks s' !! p = Some t' /\ task_cpu t' = new) -> Q tt s') ->
  wp (set_task p (fun t => t <| on_rq := TASK_ON_RQ_MIGRATING |>);;
      dequeue_task cpu p DEQUEUE_NOCLOCK;; set_task_cpu p new;; unlock_rq cpu) Q s.
Proof using FL KL EL.
  intros H Ht Hn Hr Hl HQ. destruct (tracks_on_rq (locked_g cpu g) s p t H Ht) as (t1 & Ht1 & En). rewrite Hn in En.
  apply wp_bind, wp_upd_task; [by exists t1|].
  assert (tracks (locked_g cpu g) (upd_task p (fun t => t <| on_rq := TASK_ON_RQ_MIGRATING |>) s)) as H1
    by (apply (tracks_requeued _ _ p t1); [exact H|exact Ht1|exact En|by rewrite (proj2 on_rq_values)]).
  revert H1. generalize (upd_task p (fun t => t <| on_rq := TASK_ON_RQ_MIGRATING |>) s). intros s1 H1.
  assert (is_Some (k_tasks s1 !! p)) as Hp1 by (eapply tracks_task_some; [exact H1|by exists t]).
  apply wp_bind. eapply wp_mono.
  { apply wp_dequeue_task; [apply H1| |exact Hp1]. eapply tracks_rq_some; [exact H1|].
    apply (upd_rq_some cpu (fun r => r <| rq_lock := true |>) g). by exists r. }
  cbn beta. intros _ s2 H2. pose proof (tracks_frame _ _ _ _ H2 H1) as H2'.
  assert (is_Some (k_tasks s2 !! p)) as [t2 Ht2] by by eapply kframe_task_some.
  apply wp_bind. eapply wp_mono; [apply wp_set_task_cpu_exact; [apply H2'|by exists t2]|].
  cbn beta. intros _ s3 H3.
  assert (tracks (locked_g cpu g) s3) as H3'.
  { eapply (tracks_frame true); [|exact H2']. etransitivity; [apply (kframe_on_cpu p new)|by apply kframe_weaken]. }
  destruct (kframe_task _ _ _ p (t2 <| t_cpu := new |>) H3) as (t3 & Ht3 & Et3).
  { by apply (upd_task_at p (fun t => t <| t_cpu := new |>)). }
  assert (task_cpu t3 = new) as Hnew by exact (erase_field false task_cpu _ _ ltac:(kept_field) Et3).
  eapply wp_mono.
  { apply wp_and_ok; [|apply unlock_rq_tasks].
    apply (wp_track_unlock_rq g s3 cpu r (fun _ s4 => tracks g s4)); [exact H3'|exact Hr|exact Hl|done]. }
  cbn beta. intros [] s4 [H4 E4]. apply HQ; [exact H4|]. exists t3. by rewrite E4.
Qed.

Lemma wp_move_queued_task g s cpu new p t r :
  tracks (locked_g cpu g) s -> k_tasks g !! p = Some t -> nz (on_rq t) = true ->
  k_rqs g !! cpu = Some r -> rq_lock r = false -> cpu_free g new ->
  wp (move_queued_task cpu p new) (fun c s' => c = new /\ tracks (locked_g new g) s' /\ queued_on p new s') s.
Proof using FL KL EL.
  intros H Ht Hn Hr Hl (r' & Hr' & Hl' & Hcur).
  assert (move_queued_task cpu p new s =
    ((set_task p (fun t => t <| on_rq := TASK_ON_RQ_MIGRATING |>);;
      dequeue_task cpu p DEQUEUE_NOCLOCK;; set_task_cpu p new;; unlock_rq cpu) ≫= (fun _ =>
      lock_rq new;;
      t ← task_of p;
      if negb (task_cpu t =? new) then bug
      else enqueue_task new p 0;; set_task p (fun t => t <| on_rq := TASK_ON_RQ_QUEUED |>);;
           check_preempt_curr new p 0;; mret new)) s) as E0.
  { unfold move_queued_task, mbind, M_bind. destruct (set_task _ _ s); [|done..].
    destruct (dequeue_task _ _ _ _); [|done..]. destruct (set_task_cpu _ _ _); [|done..]. by destruct (unlock_rq _ _). }
  unfold wp. rewrite E0. apply wp_bind. eapply wp_move_out; [exact H|exact Ht|exact Hn|exact Hr|exact Hl|].
  intros s1 H1 (t1 & Ht1 & E1). apply wp_bind. eapply wp_mono.
  { apply wp_and_ok; [|apply lock_rq_tasks].
    apply (wp_track_lock g s1 new r' (fun _ s2 => tracks (locked_g new g) s2)); [exact H1|exact Hr'|exact Hl'|done]. }
  cbn beta. intros _ s2 [H2 E2]. rewrite <- E2 in Ht1.
  apply wp_bind. eapply wp_task_of; [exact Ht1|]. rewrite E1, Z.eqb_refl. cbn [negb].
  assert (cpu_up (locked_g new g) new) as Hup
    by (apply (cpu_up_upd_rq g new new (fun r => r <| rq_lock := true |>)); [done|by exists r']).
  apply wp_bind. eapply wp_mono.
  { apply wp_enqueue_task; [apply H2| |by exists t1]. destruct Hup as (x & Hx & _). eapply tracks_rq_some; [exact H2|by exists x]. }
  cbn beta. intros _ s3 H3. pose proof (tracks_frame _ _ _ _ H3 H2) as H3'.
  destruct (kframe_task _ _ _ _ _ H3 Ht1) as (t3 & Ht3 & Et3).
  destruct (tracks_on_rq (locked_g new g) s3 p t H3' Ht) as (t3' & Ht3' & En3). rewrite Ht3 in Ht3'. injection Ht3' as <-.
  apply wp_bind, wp_upd_task; [by exists t3|].
  assert (tracks (locked_g new g) (upd_task p (fun t => t <| on_rq := TASK_ON_RQ_QUEUED |>) s3)) as H4
    by (apply (tracks_requeued _ _ p t3); [exact H3'|exact Ht3|by rewrite En3|by rewrite (proj1 on_rq_values)]).
  assert (queued_on p new (upd_task p (fun t => t <| on_rq := TASK_ON_RQ_QUEUED |>) s3)) as Hq.
  { exists (t3 <| on_rq := TASK_ON_RQ_QUEUED |>). split; [by apply (upd_task_at p (fun t => t <| on_rq := TASK_ON_RQ_QUEUED |>))|].
    split; [|done]. rewrite <- E1. exact (erase_field false task_cpu _ _ ltac:(kept_field) Et3). }
  revert H4 Hq. generalize (upd_task p (fun t => t <| on_rq := TASK_ON_RQ_QUEUED |>) s3). intros s4 H4 Hq.
  apply wp_bind. eapply wp_mono.
  { apply wp_check_preempt_curr; [by eapply cpu_up_core; [apply H4|]|eapply tracks_task_some; [exact H4|by exists t]]. }
  cbn beta. intros _ s5 H5. apply wp_ret. split; [done|]. split; [by eapply tracks_frame|by eapply queued_on_frame].
Qed.
(** ** __set_cpus_allowed_ptr *)

Definition valid_cpus (s : kstate) (t : task_struct) : gset Z :=
  if has (t_flags t) PF_KTHREAD then k_online s else k_active s.

(** What the call leaves.  A task that runs on a CPU of the old mask is moved by
    the stopper of that CPU, after the locks are released. *)
Definition affinity_result (p : ptr) (t : task_struct) (mask : gset Z) (check : bool) (s : kstate) (o : outcome Z) : Prop :=
  if check && has (t_flags t) PF_NO_SETAFFINITY then exists s', o = Ok (- EINVAL) s' /\ tracks s s'
  else if decide (cpus_mask t = mask) then exists s', o = Ok 0 s' /\ tracks s s'
  else if decide (valid_cpus s t ## mask) then exists s', o = Ok (- EINVAL) s' /\ tracks s s'
  else exists s', tracks (mask_changed p mask s) s' /\
    if decide (task_cpu t ∈ mask) then o = Ok 0 s'
    else exists dest, dest ∈ valid_cpus s t /\ dest ∈ mask /\
      if nz (on_cpu t) || (t_state t =? TASK_WAKING)
      then o = (stop_one_cpu (task_cpu t) (migration_cpu_stop p dest);; mret 0) s'
      else o = Ok 0 s' /\ (task_on_rq_queued t = true -> queued_on p dest s').

Lemma unlock_pi_tasks p s a s' :
  unlock_pi p s = Ok a s' ->
  exists t, k_tasks s !! p = Some t /\ k_tasks s' = <[p := t <| pi_lock := false |>]> (k_tasks s).
Proof.
  unfold unlock_pi, task_of, mbind, M_bind, get, lift_option, mret, M_ret. cbn.
  destruct (k_tasks s !! p) as [t|]; [|done]. cbn. destruct (pi_lock t); [|done]. cbn. intros [= _ <-].
  exists t. split; reflexivity.
Qed.

Lemma task_rq_unlock_queued c p q cpu s a s' :
  task_rq_unlock c p s = Ok a s' -> queued_on q cpu s -> queued_on q cpu s'.
Proof.
  unfold task_rq_unlock. unfold mbind at 1, M_bind at 1. destruct (unlock_rq c s) as [[] s1| |] eqn:E1; [|done..].
  apply unlock_rq_tasks in E1. intros (t & Ht & E2)%unlock_pi_tasks. unfold queued_on. rewrite E2, <- E1.
  intros (u & Hu & Hcpu & Hrq). destruct (decide (q = p)) as [->|Hne].
  - rewrite Ht in Hu. injection Hu as <-. exists (t <| pi_lock := false |>). rewrite lookup_insert_eq. by split.
  - exists u. by rewrite lookup_insert_ne.
Qed.

(** Releasing both locks. *)
Lemma unlock_both g s p cpu r t :
  tracks (locked_task p cpu g) s -> k_rqs g !! cpu = Some r -> rq_lock r = false ->
  k_tasks g !! p = Some t -> pi_lock t = false ->
  exists s', task_rq_unlock cpu p s = Ok tt s' /\ tracks g s'.
Proof.
  intros H Hr Hl Ht Hp. assert (wp (task_rq_unlock cpu p) (fun _ s' => tracks g s') s) as Hw
    by (eapply wp_track_task_rq_unlock; [exact H|exact Hr|exact Hl|exact Ht|exact Hp|done]).
  apply wp_elim in Hw as ([] & s' & E1 & H'). by exists s'.
Qed.

Lemma tracks_exact G s : clamps_in_range G -> kframe false G s -> tracks G s.
Proof. intros Hc H. split; [apply core_same_weaken, H|by apply (kf_clamps _ _ _ H)]. Qed.

Lemma leave_cpu_correct s s3 p t r m dest :
  task_pre false s p t r -> kframe false (mask_changed p m (locked_task p (task_cpu t) s)) s3 ->
  dest ∈ m -> cpu_free s dest ->
  let o := leave_cpu (task_cpu t) p m dest s3 in
  exists s', tracks (mask_changed p m s) s' /\
    if decide (task_cpu t ∈ m) then o = Ok 0 s'
    else if nz (on_cpu t) || (t_state t =? TASK_WAKING)
         then o = (stop_one_cpu (task_cpu t) (migration_cpu_stop p dest);; mret 0) s'
         else o = Ok 0 s' /\ (task_on_rq_queued t = true -> queued_on p dest s').
Proof using FL KL EL.
  intros [Ht Hpi Hr Hl Hm Hc] H3 Hdest Hfree o.
  assert (mask_changed p m (locked_task p (task_cpu t) s) = locked_task p (task_cpu t) (mask_changed p m s)) as E1.
  { unfold mask_changed, locked_task. rewrite locked_g_upd_task, locked_pi_upd_task by done. reflexivity. }
  set (g := mask_changed p m s) in *. rewrite E1 in H3.
  assert (clamps_in_range g) as Hcg by by apply mask_changed_clamps.
  pose proof (tracks_exact _ _ (clamps_locked p (task_cpu t) g Hcg) H3) as H3'.
  assert (k_tasks g !! p = Some (set_cpus_allowed_common t m)) as Hg by by apply mask_changed_at.
  destruct (kframe_task _ _ _ _ _ H3 (locked_task_at p (task_cpu t) g _ Hg)) as (t3 & Ht3 & Et3).
  assert (task_of p s3 = Ok t3 s3) as Etask by (unfold task_of, mbind, M_bind, get, lift_option; cbn; by rewrite Ht3).
  assert (task_cpu t3 = task_cpu t) as Ecpu by exact (erase_field false task_cpu _ _ ltac:(kept_field) Et3).
  assert (on_cpu t3 = on_cpu t) as Eon by exact (erase_field false on_cpu _ _ ltac:(kept_field) Et3).
  assert (t_state t3 = t_state t) as Estate by exact (erase_field false t_state _ _ ltac:(kept_field) Et3).
  assert (on_rq t3 = on_rq t) as Eq by exact (erase_field false on_rq _ _ ltac:(kept_field) Et3).
  destruct (unlock_both g s3 p (task_cpu t) r _ H3' Hr Hl Hg Hpi) as (s4 & E4 & H4).
  subst o. unfold leave_cpu. rewrite (bind_ok _ _ _ _ _ Etask). unfold task_on_rq_queued. rewrite Ecpu, Eon, Estate, Eq.
  destruct (decide (task_cpu t ∈ m)) as [Hin|Hin].
  { exists s4. rewrite (bool_decide_eq_true_2 _ Hin), (bind_ok _ _ _ _ _ E4). by split. }
  rewrite (bool_decide_eq_false_2 _ Hin). destruct (nz (on_cpu t) || (t_state t =? TASK_WAKING)).
  { exists s4. by rewrite (bind_ok _ _ _ _ _ E4). }
  destruct (on_rq t =? TASK_ON_RQ_QUEUED) eqn:Eqq; [|exists s4; by rewrite (bind_ok _ _ _ _ _ E4)].
  apply Z.eqb_eq in Eqq. destruct Hfree as (rd & Hrd & Hld & Hcd).
  assert (wp (move_queued_task (task_cpu t) p dest) (fun c s' => c = dest /\
    tracks (locked_g dest (locked_pi p g)) s' /\ queued_on p dest s') s3) as Hw.
  { eapply (wp_move_queued_task (locked_pi p g)); [exact H3'|by apply (upd_task_at p)| |exact Hr|exact Hl|].
    - change (on_rq _) with (on_rq t). by rewrite Eqq, (proj1 on_rq_values).
    - exists rd. split; [exact Hrd|]. split; [exact Hld|]. apply upd_task_some, upd_task_some. exact Hcd. }
  apply wp_elim in Hw as (c & s5 & E5 & -> & H5 & Hq5). rewrite (bind_ok _ _ _ _ _ E5).
  destruct (unlock_both g s5 p dest rd _ H5 Hrd Hld Hg Hpi) as (s6 & E6 & H6).
  exists s6. split; [exact H6|]. rewrite (bind_ok _ _ _ _ _ E6). split; [done|]. intros _.
  by eapply task_rq_unlock_queued.
Qed.
(** C9. [__set_cpus_allowed_ptr] takes and releases the locks of the task, and:
    refuses with EINVAL, changing nothing, a task whose affinity is fixed (when
    asked to check) and a mask without a CPU that is up; changes nothing for the
    mask the task has; otherwise installs the mask and its size.  A queued task
    on a CPU outside the mask ends up queued on a CPU of the mask that is up; one
    that runs or is being woken there is left to the stopper of that CPU, which
    is sent to such a CPU. *)
Theorem set_cpus_allowed_refines s p t r mask check :
  task_pre false s p t r -> (forall c, c ∈ valid_cpus s t -> 0 <= c < nr_cpu_ids /\ cpu_free s c) ->
  affinity_result p t mask check s (__set_cpus_allowed_ptr p mask check s).
Proof using FL KL EL.
  intros Hpre Hfree. pose proof Hpre as [Ht Hpi Hr Hl Hm Hc]. unfold __set_cpus_allowed_ptr.
  assert (task_rq_lock p s = Ok (task_cpu t) (locked_task p (task_cpu t) s)) as E0.
  { assert (wp (task_rq_lock p) (fun c s' => c = task_cpu t /\ s' = locked_task p (task_cpu t) s) s) as Hw
      by by eapply wp_task_rq_lock.
    by apply wp_elim in Hw as (c & s' & E1 & -> & ->). }
  rewrite (bind_ok _ _ _ _ _ E0). set (g := locked_task p (task_cpu t) s).
  assert (wp (update_clock (task_cpu t)) (fun _ s' => kframe false g s') g) as Hw
    by (apply wp_update_clock, locked_task_rq; by exists r).
  apply wp_elim in Hw as ([] & s1 & E1 & H1). rewrite (bind_ok _ _ _ _ _ E1).
  destruct (kframe_task _ _ _ _ _ H1 (locked_task_at p (task_cpu t) s t Ht)) as (t1 & Ht1 & Et1).
  assert (task_of p s1 = Ok t1 s1) as Etask by (unfold task_of, mbind, M_bind, get, lift_option; cbn; by rewrite Ht1).
  destruct (kframe_masks _ _ _ H1) as (_ & Eact & Eonl).
  rewrite (bind_ok get _ s1 s1 s1 eq_refl), (bind_ok _ _ _ _ _ Etask). cbv zeta.
  rewrite (erase_field false t_flags _ _ ltac:(kept_field) Et1), (erase_field false cpus_mask _ _ ltac:(kept_field) Et1).
  rewrite Eact, Eonl. change (t_flags (t <| pi_lock := true |>)) with (t_flags t).
  change (cpus_mask (t <| pi_lock := true |>)) with (cpus_mask t).
  change (if has (t_flags t) PF_KTHREAD then k_online g else k_active g) with (valid_cpus s t).
  pose proof (tracks_exact _ _ (clamps_locked p (task_cpu t) s Hc) H1) as H1'.
  destruct (unlock_both s s1 p (task_cpu t) r t H1' Hr Hl Ht Hpi) as (s2 & E2 & H2).
  unfold affinity_result. destruct (check && has (t_flags t) PF_NO_SETAFFINITY).
  { exists s2. by rewrite (bind_ok _ _ _ _ _ E2). }
  destruct (decide (cpus_mask t = mask)) as [He|He].
  { rewrite (bool_decide_eq_true_2 _ He). exists s2. by rewrite (bind_ok _ _ _ _ _ E2). }
  rewrite (bool_decide_eq_false_2 _ He).
  destruct (law_any_and (valid_cpus s t) mask (fun c Hin => proj1 (Hfree c Hin))) as [(Hv & Hd & Hb)|[Hb Hdis]].
  - rewrite (proj2 (Z.leb_gt _ _) Hb). destruct (decide (valid_cpus s t ## mask)) as [Hdis|_].
    { exfalso. by apply (Hdis (cpumask_any_and_distribute (valid_cpus s t) mask)). }
    assert (wp (do_set_cpus_allowed p mask) (fun _ s' => kframe false (mask_changed p mask s1) s') s1) as Hw.
    { apply (wp_do_set_cpus_allowed s1 p t1); [apply H1'|exact Ht1|].
      rewrite (erase_field false task_cpu _ _ ltac:(kept_field) Et1).
      eapply kframe_rq_some; [exact H1|]. apply locked_task_rq. by exists r. }
    apply wp_elim in Hw as ([] & s3 & E3 & H3). rewrite (bind_ok _ _ _ _ _ E3).
    destruct (leave_cpu_correct s s3 p t r mask (cpumask_any_and_distribute (valid_cpus s t) mask))
      as (s4 & H4 & Hres); [exact Hpre| |exact Hd|by apply Hfree|].
    { etransitivity; [|exact H3]. apply kframe_upd_task; [done|by intros ? []|by apply clamps_locked|exact H1]. }
    exists s4. split; [exact H4|]. destruct (decide (task_cpu t ∈ mask)); [exact Hres|]. by eexists.
  - rewrite (proj2 (Z.leb_le _ _) Hb), decide_True by exact Hdis. exists s2. by rewrite (bind_ok _ _ _ _ _ E2).
Qed.
End Affinity.
