(* ===== verification/GroupMove.v ===== *)
(** * GroupMove: tasks that change their task group (core.c, CONFIG_CGROUP_SCHED)

    [sched_move_task] and the callbacks of the cpu cgroup that fork, check and
    attach tasks.  The groups of the tasks' cgroups, autogroups and what the
    classes do when a task changes group are an interface. *)

From S2P Require Import Prelude Task KernelApi Prio Rq RqClock Uclamp UclampTrace.
From S2P Require Import State Sched SchedFacts ScheduleSpec Setprio TaskLock Machine SetprioSpec SetprioDemo Affinity AffinitySpec.

Class GroupEnv := {
  task_css : kstate -> ptr -> ptr;  (* the task group of the task's cgroup *)
  autogroup_task_group : kstate -> ptr -> ptr -> ptr;
  op_task_change_group : sched_class -> option (ptr -> Z -> kstate -> kstate);
  set_task_rq : ptr -> Z -> kstate -> kstate;
  sched_rt_can_attach : ptr -> ptr -> kstate -> bool;
  TASK_SET_GROUP : Z;
  TASK_MOVE_GROUP : Z;
  CONFIG_FAIR_GROUP_SCHED : bool
}.

Section GroupMove.
Context {P : PrioApi} {Y : PolicyApi} {U : UclampApi} {F : FlagApi} {C : ClockConfig}
  {K : SchedClassOps} {V : SetprioEnv} {G : GroupEnv}.

(** ** The code *)

Definition group_to_be (s : kstate) (tsk : ptr) : ptr := autogroup_task_group s tsk (task_css s tsk).

Definition sched_change_group (tsk : ptr) (type : Z) : M unit :=
  s ← get;
  let tg := group_to_be s tsk in
  set_task tsk (fun t => t <| sched_task_group := Some tg |>);;
  t ← task_of tsk;
  match (if CONFIG_FAIR_GROUP_SCHED then op_task_change_group (t_sched_class t) else None) with
  | Some task_change_group => modify (task_change_group tsk type)
  | None => modify (set_task_rq tsk (task_cpu t))
  end.

(** The part of [sched_move_task] under the locks, after the clock. *)
Definition move_task_locked (cpu : Z) (tsk : ptr) : M unit :=
  let queue_flags := Z.lor (Z.lor DEQUEUE_SAVE DEQUEUE_MOVE) DEQUEUE_NOCLOCK in
  running ← task_current cpu tsk;
  t ← task_of tsk;
  let queued := task_on_rq_queued t in
  when queued (dequeue_task cpu tsk queue_flags);;
  when running (put_prev_task cpu tsk);;
  sched_change_group tsk TASK_MOVE_GROUP;;
  when queued (enqueue_task cpu tsk queue_flags);;
  when running (set_next_task cpu tsk);;
  when running (resched_curr cpu).

Definition sched_move_task (tsk : ptr) : M unit :=
  cpu ← task_rq_lock tsk;
  update_clock cpu;;
  move_task_locked cpu tsk;;
  task_rq_unlock cpu tsk.

Definition cpu_cgroup_fork (task : ptr) : M unit :=
  cpu ← task_rq_lock task;
  update_clock cpu;;
  sched_change_group task TASK_SET_GROUP;;
  task_rq_unlock cpu task.

(** The tasks of a taskset with their new groups. *)
Fixpoint cpu_cgroup_can_attach (tset : list (ptr * ptr)) : M Z :=
  match tset with
  | [] => mret 0
  | (task, css) :: tset =>
      s ← get;
      if CONFIG_RT_GROUP_SCHED && negb (sched_rt_can_attach css task s) then mret (- EINVAL)
      else
        lock_pi task;;
        t ← task_of task;
        let ret := if t_state t =? TASK_NEW then - EINVAL else 0 in
        unlock_pi task;;
        if nz ret then mret ret else cpu_cgroup_can_attach tset
  end.

Fixpoint cpu_cgroup_attach (tset : list (ptr * ptr)) : M unit :=
  match tset with
  | [] => mret tt
  | (task, _) :: tset => sched_move_task task;; cpu_cgroup_attach tset
  end.

(** ** What it promises *)

(** The classes keep to their fields; a task's group does not depend on what the
    scheduler does meanwhile. *)
Class GroupLaws : Prop := {
  law_change_group c f p ty s : op_task_change_group c = Some f -> kframe false s (f p ty s);
  law_set_task_rq p cpu s : kframe false s (set_task_rq p cpu s);
  law_group_to_be s s' p : dom (k_tasks s') = dom (k_tasks s) -> k_sys s' = k_sys s -> group_to_be s' p = group_to_be s p
}.
Context {FL : FlagLaws F} {KL : SchedClassLaws K} {GL : GroupLaws}.

Definition join_group (tg : ptr) (t : task_struct) : task_struct := t <| sched_task_group := Some tg |>.

Lemma tracks_dom g s : tracks g s -> dom (k_tasks s) = dom (k_tasks g) /\ k_sys s = k_sys g.
Proof.
  intros [H _]. split; [|exact (f_equal k_sys H)].
  pose proof (f_equal (fun s => dom (k_tasks s)) H) as E. cbv beta in E.
  change (k_tasks (erase true ?x)) with (erase_task true <$> k_tasks x) in E. by rewrite !dom_fmap_L in E.
Qed.

Lemma wp_change_group g s p ty tg :
  tracks g s -> is_Some (k_tasks g !! p) -> tg = group_to_be g p ->
  wp (sched_change_group p ty) (fun _ s' => tracks (upd_task p (join_group tg) g) s') s.
Proof using GL.
  intros H Hp ->. destruct (tracks_dom _ _ H) as [E1 E2]. unfold sched_change_group. apply wp_bind, wp_get. cbv zeta.
  rewrite (law_group_to_be _ _ p E1 E2). apply wp_bind. eapply wp_track_task; [exact H|exact Hp|commutes|]. intros s1 H1.
  assert (is_Some (k_tasks (upd_task p (join_group (group_to_be g p)) g) !! p)) as Hp1 by by apply upd_task_some.
  destruct (tracks_task_some _ _ _ H1 Hp1) as [t1 Ht1]. apply wp_bind. eapply wp_task_of; [exact Ht1|].
  destruct (if CONFIG_FAIR_GROUP_SCHED then _ else None) as [f|] eqn:Ef; apply wp_modify;
    (eapply (tracks_frame false); [|exact H1]); [|apply law_set_task_rq].
  destruct CONFIG_FAIR_GROUP_SCHED; [by eapply law_change_group|discriminate Ef].
Qed.

Lemma locked_group_to_be p cpu g q : group_to_be (locked_task p cpu g) q = group_to_be g q.
Proof using GL. apply law_group_to_be; [|done]. unfold locked_task, locked_g, locked_pi, upd_rq, upd_task. rsimpl. apply dom_alter_L. Qed.

Lemma wp_move_task_locked g s cpu p t tg :
  tracks g s -> k_tasks g !! p = Some t -> cpu_up g cpu -> tg = group_to_be g p ->
  wp (move_task_locked cpu p) (fun _ s' => tracks (upd_task p (join_group tg) g) s') s.
Proof using KL GL.
  intros H Hp Hup Htg. assert (is_Some (k_rqs g !! cpu)) as Hr by (destruct Hup as (r & Hr & _); by exists r).
  unfold move_task_locked. apply wp_bind. eapply wp_track_task_current; [exact H|exact Hr|]. intros running.
  destruct (tracks_task _ _ _ _ H Hp) as (t1 & Ht1 & _). apply wp_bind. eapply wp_task_of; [exact Ht1|].
  eapply wp_track_unqueue; [exact H|exact Hr|by exists t|]. intros s2 H2. apply wp_bind.
  eapply wp_mono; [by eapply wp_change_group|]. cbn beta. intros _ s3 H3.
  assert (is_Some (k_tasks (upd_task p (join_group tg) g) !! p)) as Hp3 by (apply upd_task_some; by exists t).
  eapply wp_track_requeue; [exact H3|exact Hr|exact Hp3|]. intros s4 H4.
  apply wp_when; intros _; [|exact H4].
  destruct (cpu_up_core true _ _ cpu (tr_core _ _ H4)) as (r4 & Hr4 & Hc4); [by apply cpu_up_upd_task|].
  eapply wp_mono; [by apply (wp_resched_curr cpu r4)|]. cbn beta. intros _ s5 H5. by eapply tracks_frame.
Qed.

Lemma cpu_up_locked g p cpu c : cpu_up g c -> cpu_up (locked_task p cpu g) c.
Proof.
  intros H. apply (cpu_up_upd_rq (locked_pi p g) c cpu (fun r => r <| rq_lock := true |>)); [done|].
  by apply (cpu_up_upd_task g c p (fun t => t <| pi_lock := true |>)).
Qed.

(** C24. Moving a task to another group changes its group and nothing else, up to
    what the classes own: whether it runs, waits on a queue or sleeps,
    [sched_move_task] runs to the end, takes the task off its queue and puts it
    back, and leaves every lock free; so does [cpu_cgroup_fork] for a new task.
    The group is the cgroup's, or the autogroup that stands in for it. *)
Theorem sched_move_task_refines s p t r :
  task_pre false s p t r -> is_Some (k_tasks s !! curr r) ->
  let moved := upd_task p (join_group (group_to_be s p)) s in
  (exists s', sched_move_task p s = Ok tt s' /\ core_same true moved s' /\ clamps_in_range s') /\
  (exists s', cpu_cgroup_fork p s = Ok tt s' /\ core_same true moved s' /\ clamps_in_range s').
Proof using KL GL.
  intros Hpre Hcur. cbv zeta. pose proof Hpre as [Ht Hpi Hr Hl Hm Hc].
  assert (forall body : Z -> M unit, (forall g s1, g = locked_task p (task_cpu t) s -> tracks g s1 ->
      wp (body (task_cpu t)) (fun _ s' => tracks (upd_task p (join_group (group_to_be s p)) g) s') s1) ->
    exists s', (cpu ← task_rq_lock p; update_clock cpu;; body cpu;; task_rq_unlock cpu p) s = Ok tt s' /\
      core_same true (upd_task p (join_group (group_to_be s p)) s) s' /\ clamps_in_range s') as Hany.
  { intros body Hbody.
    assert (wp (cpu ← task_rq_lock p; update_clock cpu;; body cpu;; task_rq_unlock cpu p)
      (fun _ s' => tracks (upd_task p (join_group (group_to_be s p)) s) s') s) as H.
    { apply (wp_locked_change s p t r _ body Hpre); [done|exact Hpi|]. intros g s1 H1. by apply Hbody. }
    apply wp_elim in H as ([] & s' & E & [H1 H2]). by exists s'. }
  assert (forall g, g = locked_task p (task_cpu t) s -> group_to_be s p = group_to_be g p) as Hg
    by (intros g ->; symmetry; apply locked_group_to_be).
  split; apply Hany; intros g s1 Eg H1.
  - apply (wp_move_task_locked g s1 (task_cpu t) p (t <| pi_lock := true |>)); [exact H1| | |by apply Hg].
    + rewrite Eg. by apply locked_task_at.
    + rewrite Eg. apply cpu_up_locked. by exists r.
  - apply wp_change_group; [exact H1| |by apply Hg]. rewrite Eg. eexists. by apply locked_task_at.
Qed.

(** ** Attaching *)

(** Every task is there, unlocked. *)
Definition unlocked (tset : list (ptr * ptr)) (s : kstate) : Prop :=
  forall x, x ∈ tset -> exists t, k_tasks s !! x.1 = Some t /\ pi_lock t = false.

(** Whether the group takes the task. *)
Definition attachable (s : kstate) (x : ptr * ptr) : Prop :=
  (CONFIG_RT_GROUP_SCHED = true -> sched_rt_can_attach x.2 x.1 s = true) /\
  (forall t, k_tasks s !! x.1 = Some t -> t_state t <> TASK_NEW).

(** The check of a taskset passes exactly when every task is attachable, that is
    neither refused by the real-time class nor still to be started; it changes
    nothing. *)
Theorem can_attach_exact tset s :
  unlocked tset s ->
  exists ret, cpu_cgroup_can_attach tset s = Ok ret s /\ (ret = 0 \/ ret = - EINVAL) /\
    (ret = 0 <-> forall x, x ∈ tset -> attachable s x).
Proof.
  induction tset as [|[task css] tset IH]; intros Hun.
  { exists 0. split; [done|]. split; [by left|]. split; [|done]. intros _ x []%elem_of_nil. }
  destruct IH as (ret & E & Hret & Hiff); [intros x Hx; apply Hun; by right|]. cbn [cpu_cgroup_can_attach].
  rewrite (bind_ok get _ s s s eq_refl).
  destruct (CONFIG_RT_GROUP_SCHED && negb (sched_rt_can_attach css task s)) eqn:Ert.
  { exists (- EINVAL). split; [done|]. split; [by right|]. split; [discriminate|]. intros H.
    apply andb_true_iff in Ert as [E1 E2]. destruct (H (task, css)) as [H1 _]; [by left|].
    cbn in H1. rewrite H1 in E2 by done. discriminate E2. }
  destruct (Hun (task, css)) as (t & Ht & Hpi); [by left|]. cbn in Ht.
  assert (lock_pi task s = Ok tt (locked_pi task s)) as El.
  { unfold lock_pi. rewrite (bind_ok _ _ _ _ _ (task_of_run _ _ _ Ht)), Hpi.
    unfold locked_pi, upd_task. rewrite <- (insert_alter _ _ _ (fun t => t <| pi_lock := true |>) Ht). reflexivity. }
  rewrite (bind_ok _ _ _ _ _ El). set (t1 := t <| pi_lock := true |>).
  assert (k_tasks (locked_pi task s) !! task = Some t1) as Ht1 by by apply (upd_task_at task).
  rewrite (bind_ok _ _ _ _ _ (task_of_run _ _ _ Ht1)).
  assert (unlock_pi task (locked_pi task s) = Ok tt s) as Eu.
  { rewrite <- (unlock_locked_pi task s t Ht Hpi) at 2. unfold unlock_pi.
    rewrite (bind_ok _ _ _ _ _ (task_of_run _ _ _ Ht1)). change (pi_lock t1) with true. cbn iota.
    unfold upd_task at 1. by rewrite <- (insert_alter _ _ _ (fun t => t <| pi_lock := false |>) Ht1). }
  cbv zeta. rewrite (bind_ok _ _ _ _ _ Eu). change (t_state t1) with (t_state t).
  destruct (t_state t =? TASK_NEW) eqn:En; bool_cases.
  - exists (- EINVAL). split; [done|]. split; [by right|]. split; [discriminate|]. intros H.
    destruct (H (task, css)) as [_ H2]; [by left|]. by destruct (H2 t Ht).
  - exists ret. split; [exact E|]. split; [done|]. rewrite Hiff. split.
    + intros H x [->|Hx]%elem_of_cons; [|by apply H]. split.
      * cbn. intros E1. rewrite E1 in Ert. by destruct (sched_rt_can_attach css task s).
      * cbn. intros t' Ht'. congruence.
    + intros H x Hx. apply H. by right.
Qed.
End GroupMove.

(** ** At work *)

(** Every task belongs into group 8, without autogroups. *)
#[export] Instance one_group : GroupEnv := {|
  task_css _ _ := 8%positive;
  autogroup_task_group _ _ tg := tg;
  op_task_change_group _ := None;
  set_task_rq _ _ s := s;
  sched_rt_can_attach _ _ _ := false;
  TASK_SET_GROUP := 1;
  TASK_MOVE_GROUP := 0;
  CONFIG_FAIR_GROUP_SCHED := true
|}.

#[export] Instance one_group_laws : GroupLaws.
Proof. split; intros; done. Qed.

Lemma sched_move_task_refines_witness :
  let moved := upd_task 3%positive (join_group (group_to_be nice_machine 3%positive)) nice_machine in
  (exists s', sched_move_task (K := choosing 3%positive) 3%positive nice_machine = Ok tt s' /\
     core_same true moved s' /\ clamps_in_range s') /\
  (exists s', cpu_cgroup_fork (K := choosing 3%positive) 3%positive nice_machine = Ok tt s' /\
     core_same true moved s' /\ clamps_in_range s').
Proof.
  apply (sched_move_task_refines (K := choosing 3%positive) nice_machine 3%positive plain_task machine_rq nice_machine_pre).
  by eexists.
Defined.

Example only_started_tasks :
  let try_ t := match cpu_cgroup_can_attach [(2, 8); (3, 8)]%positive
      (upd_task 3%positive (fun _ => t) nice_machine) with Ok ret _ => Some ret | _ => None end in
  (try_ plain_task, try_ (plain_task <| t_state := TASK_NEW |>)) = (Some 0, Some (- EINVAL)).
Proof. vm_compute. reflexivity. Qed.
