(* ===== verification/GroupTasks.v ===== *)
(** * GroupTasks: the clamps of a group reach its tasks

    [uclamp_update_active] and [uclamp_update_active_tasks] on the machine: the
    part of an update of the clamps of groups that [GroupClamps] leaves open.
    [group_clamps_reach_tasks] puts the two together: a write to a group's clamps
    leaves every task that is counted on a run queue with the clamps that its
    group, its own request and the system now give. *)

From S2P Require Import Prelude Task KernelApi Prio Rq RqClock Uclamp UclampFacts UclampInv UclampTrace.
From S2P Require Import State Sched SchedFacts ScheduleSpec Machine TaskGroup GroupClamps GroupClampsSpec GroupClampsWrite.
From S2P Require Import Setprio TaskLock SetprioDemo.

Section Code.
Context {U : UclampApi} {F : FlagApi}.
(** Groups that belong to sessions, the root of the tree, and the tasks
    [css_task_iter_next] returns. *)
Context (task_group_is_autogroup : ptr -> bool) (root : ptr) (css_tasks : ptr -> list ptr).

(** What [uclamp_tg_restrict] finds in a group. *)
Definition group_view (m : group_clamps) (tg : ptr) : tg_view :=
  {| tg_is_autogroup := task_group_is_autogroup tg; tg_is_root := bool_decide (tg = root); Uclamp.tg_uclamp := tgu (m tg) |}.

(** The part with both locks held. *)
Definition update_active_locked (m : group_clamps) (cpu : Z) (p : ptr) (id : uclamp_id) : M unit :=
  s ← get;
  r ← rq_of cpu;
  t ← task_of p;
  if uc_active (uclamp t id) then
    tg ← lift_option (sched_task_group t);
    '(r, t) ← lift_option (uclamp_update_active (k_sys s) (group_view m tg) r t id);
    put_rq cpu r;;
    put_task p t
  else mret tt.

Definition uclamp_update_task (m : group_clamps) (p : ptr) (id : uclamp_id) : M unit :=
  cpu ← task_rq_lock p;
  update_active_locked m cpu p id;;
  task_rq_unlock cpu p.

(** [for_each_clamp_id]. *)
Definition update_task_clamps (m : group_clamps) (clamps : Z) (p : ptr) : M unit :=
  when (has (Z.shiftl 1 0) clamps) (uclamp_update_task m p UCLAMP_MIN);;
  when (has (Z.shiftl 1 1) clamps) (uclamp_update_task m p UCLAMP_MAX).

Fixpoint update_tasks_loop (m : group_clamps) (clamps : Z) (l : list ptr) : M unit :=
  match l with
  | [] => mret tt
  | p :: l => update_task_clamps m clamps p;; update_tasks_loop m clamps l
  end.

(** As a step of [cpu_util_update_eff], on the outcome so far. *)
Definition uclamp_update_active_tasks (m : group_clamps) (css : ptr) (clamps : Z) (x : outcome unit) : outcome unit :=
  match x with
  | Ok _ s => update_tasks_loop m clamps (css_tasks css) s
  | o => o
  end.
End Code.

Section Reach.
Context {U : UclampApi} {UL : UclampLaws U} {F : FlagApi} {FL : FlagLaws F}.
Context (task_group_is_autogroup : ptr -> bool) (root : ptr) (css_tasks : ptr -> list ptr).
Abbreviation view := (group_view task_group_is_autogroup root).
Abbreviation update_task := (uclamp_update_task task_group_is_autogroup root).

(** ** The effective clamp of a task *)

(** What a task would be counted with. *)
Definition due (m : group_clamps) (s : kstate) (t : task_struct) (id : uclamp_id) : option uclamp_se :=
  tg ← sched_task_group t; Some (activated (uclamp_eff_get (k_sys s) (view m tg) t id)).

Definition in_step_for (m : group_clamps) (s : kstate) (p : ptr) (id : uclamp_id) : Prop :=
  forall t, k_tasks s !! p = Some t -> uc_active (uclamp t id) = true -> due m s t id = Some (uclamp t id).

(** Every task is counted with what its group, request and system give. *)
Definition in_step (m : group_clamps) (s : kstate) : Prop := forall p id, in_step_for m s p id.

(** The clamps of other ids and the lock are irrelevant. *)
Lemma due_ext m s s' t t' id :
  k_sys s' = k_sys s -> sched_task_group t' = sched_task_group t -> uclamp_req t' id = uclamp_req t id ->
  due m s' t' id = due m s t id.
Proof. unfold due, uclamp_eff_get, uclamp_tg_restrict. intros -> -> E. destruct (sched_task_group t); [|done]. cbn. by rewrite E. Qed.

(** The groups that tasks look at: neither the root nor a session's. *)
Definition looked_at (tg : ptr) : Prop := task_group_is_autogroup tg = false /\ tg <> root.

Lemma due_group m m' s t id :
  (forall tg, sched_task_group t = Some tg -> looked_at tg -> tgu (m' tg) id = tgu (m tg) id) -> due m' s t id = due m s t id.
Proof.
  intros H. unfold due, uclamp_eff_get, uclamp_tg_restrict, group_view. destruct (sched_task_group t) as [tg|]; [|done].
  cbn [mbind option_bind tg_is_autogroup tg_is_root Uclamp.tg_uclamp]. specialize (H tg eq_refl).
  destruct CONFIG_UCLAMP_TASK_GROUP; [|done]. destruct (task_group_is_autogroup tg) eqn:Ea; [done|].
  destruct (decide (tg = root)) as [->|Hne]; [by rewrite bool_decide_eq_true_2|rewrite (bool_decide_eq_false_2 _ Hne)].
  by rewrite H.
Qed.

(** ** States in which tasks can be updated *)

(** The effective clamps of the groups [l] are valid. *)
Definition buckets_in (m : group_clamps) (l : list ptr) : Prop := forall tg id, tg ∈ l -> se_in_range (tgu (m tg) id).

(** No lock is held, no task migrates, and tasks are in groups of [l]. *)
Record fit (l : list ptr) (s : kstate) : Prop := {
  fit_task p t : k_tasks s !! p = Some t -> exists r, task_pre false s p t r;
  fit_group p t : k_tasks s !! p = Some t -> exists tg, sched_task_group t = Some tg /\ (looked_at tg -> tg ∈ l);
  fit_clamps : clamps_in_range s
}.

Lemma due_in_range m l s p t id : buckets_in m l -> fit l s -> k_tasks s !! p = Some t ->
  exists tg, sched_task_group t = Some tg /\ se_in_range (uclamp_eff_get (k_sys s) (view m tg) t id).
Proof.
  intros Hb Hf Ht. destruct (fit_group _ _ Hf p t Ht) as (tg & Hg & Hl). exists tg. split; [done|].
  pose proof (fit_clamps _ _ Hf) as [H1 _ H3]. specialize (H1 p t Ht id) as [_ Hr]. specialize (H3 id).
  unfold uclamp_eff_get, uclamp_tg_restrict, group_view. cbn [tg_is_autogroup tg_is_root Uclamp.tg_uclamp].
  destruct CONFIG_UCLAMP_TASK_GROUP; [|by destruct (_ <? _)]. destruct (task_group_is_autogroup tg) eqn:Ea; [by destruct (_ <? _)|].
  destruct (decide (tg = root)) as [->|Hne]; [rewrite bool_decide_eq_true_2 by done; by destruct (_ <? _)|].
  rewrite (bool_decide_eq_false_2 _ Hne). pose proof (Hb tg id (Hl (conj Ea Hne))). by destruct (_ || _); destruct (_ <? _).
Qed.

(** ** One clamp of one task *)

Lemma set_uclamp_twice t id u v : set_uclamp (set_uclamp t id u) id v = set_uclamp t id v.
Proof. by destruct id, t. Qed.

Lemma update_active_exact y g r t id :
  rq_in_range r -> task_in_range t -> uc_active (uclamp t id) = true -> se_in_range (uclamp_eff_get y g t id) ->
  exists r', uclamp_update_active y g r t id = Some (r', set_uclamp t id (activated (uclamp_eff_get y g t id))) /\
    erase_rq r' = erase_rq r /\ rq_in_range r'.
Proof using FL UL.
  intros Hr Ht Ha He. unfold uclamp_update_active. rewrite Ha.
  destruct (dec_id_frame r t id Hr) as (r1 & -> & E1 & H1); [apply Ht|]. cbn [mbind option_bind].
  rewrite <- (eff_get_set y g t id (deactivated (uclamp t id))) in He.
  destruct (inc_id_frame y g r1 _ id H1 He) as (u & -> & H2). eexists. rewrite eff_get_set, set_uclamp_twice.
  split; [done|]. by rewrite erase_set_rq_uclamp.
Qed.

(** The task afterwards. *)
Definition updated_task (m : group_clamps) (s : kstate) (t : task_struct) (id : uclamp_id) : task_struct :=
  if uc_active (uclamp t id) then set_uclamp t id (default (uclamp t id) (due m s t id)) else t.

Lemma fit_same l s s' : core_same false s s' -> clamps_in_range s' -> fit l s -> fit l s'.
Proof.
  intros Hs Hc' Hf. assert (core_same false s' s) as Hs' by by symmetry. split; [| |done]; intros p t Ht.
  - destruct (proj1 (core_same_lookup _ _ _ Hs') p t Ht) as (t0 & Ht0 & E).
    destruct (fit_task _ _ Hf p t0 Ht0) as (r0 & [_ Hpi Hr Hl Hm _]).
    destruct (proj2 (core_same_lookup _ _ _ Hs) _ _ Hr) as (r & Hr' & Er). exists r.
    assert (task_cpu t0 = task_cpu t) as Ec by (exact (erase_field false t_cpu _ _ ltac:(done) E)).
    split; [done| | | | |done].
    + by rewrite <- (erase_field false pi_lock _ _ ltac:(done) E).
    + by rewrite <- Ec.
    + by rewrite (erase_rq_field rq_lock _ _ ltac:(done) Er).
    + by rewrite <- (erase_field false on_rq _ _ ltac:(done) E).
  - destruct (proj1 (core_same_lookup _ _ _ Hs') p t Ht) as (t0 & Ht0 & E).
    destruct (fit_group _ _ Hf p t0 Ht0) as (tg & Hg & Hl). exists tg.
    by rewrite <- (erase_field false sched_task_group _ _ ltac:(done) E).
Qed.

Lemma unlocked_put s p cpu t r t' r' :
  k_tasks s !! p = Some t -> k_rqs s !! cpu = Some r -> rq_lock r' = true -> pi_lock t' = true ->
  task_rq_unlock cpu p ((locked_task p cpu s) <| k_rqs := <[cpu := r']> (k_rqs (locked_task p cpu s)) |>
    <| k_tasks := <[p := t']> (k_tasks (locked_task p cpu s)) |>) =
  Ok tt (s <| k_rqs := <[cpu := r' <| rq_lock := false |>]> (k_rqs s) |>
           <| k_tasks := <[p := t' <| pi_lock := false |>]> (k_tasks s) |>).
Proof.
  intros Ht Hr Hl Hpi. unfold locked_task, locked_g, locked_pi, upd_rq, upd_task, task_rq_unlock.
  set (s1 := _ <| k_tasks := _ |>).
  assert (k_rqs s1 !! cpu = Some r') as Hr1 by apply lookup_insert_eq.
  assert (k_tasks s1 !! p = Some t') as Ht1 by apply lookup_insert_eq.
  unfold unlock_rq, unlock_pi. rewrite bind_bind, (bind_ok _ _ _ _ _ (rq_of_run _ _ _ Hr1)). cbv beta. rewrite Hl.
  unfold put_rq, preempt_count_inc. rewrite bind_bind, (bind_ok (modify _) _ s1 tt _ eq_refl), (bind_ok (modify _) _ _ tt _ eq_refl).
  set (s2 := _ <| k_preempt := _ |>). assert (k_tasks s2 !! p = Some t') as Ht2 by exact Ht1.
  rewrite (bind_ok _ _ _ _ _ (task_of_run _ _ _ Ht2)), Hpi. unfold put_task.
  rewrite (bind_ok (modify _) _ s2 tt _ eq_refl). unfold modify. f_equal.
  transitivity (s <| k_rqs := <[cpu := r' <| rq_lock := false |>]> (<[cpu := r']> (alter (fun r => r <| rq_lock := true |>) cpu (k_rqs s))) |>
    <| k_tasks := <[p := t' <| pi_lock := false |>]> (<[p := t']> (alter (fun t => t <| pi_lock := true |>) p (k_tasks s))) |>
    <| k_preempt := k_preempt s + 1 + 1 + -1 + -1 |>); [reflexivity|].
  rewrite <- (insert_alter _ p t _ Ht), <- (insert_alter _ cpu r _ Hr), !insert_insert_eq.
  replace (k_preempt s + 1 + 1 + -1 + -1) with (k_preempt s) by lia. reflexivity.
Qed.

Lemma unlock_erased r : rq_lock r = false -> (erase_rq (r <| rq_lock := true |>)) <| rq_lock := false |> = erase_rq r.
Proof. destruct r. cbn. by intros ->. Qed.

(** The part with the locks held. *)
Lemma update_locked_idle m cpu p id s r t :
  k_rqs s !! cpu = Some r -> k_tasks s !! p = Some t -> uc_active (uclamp t id) = false ->
  update_active_locked task_group_is_autogroup root m cpu p id s = Ok tt s.
Proof.
  intros Hr Ht Ha. unfold update_active_locked. rewrite (bind_ok get _ s s s eq_refl), (bind_ok _ _ _ _ _ (rq_of_run _ _ _ Hr)).
  by rewrite (bind_ok _ _ _ _ _ (task_of_run _ _ _ Ht)), Ha.
Qed.

Lemma update_locked_run m cpu p id s r t tg :
  k_rqs s !! cpu = Some r -> k_tasks s !! p = Some t -> uc_active (uclamp t id) = true -> sched_task_group t = Some tg ->
  rq_in_range r -> task_in_range t -> se_in_range (uclamp_eff_get (k_sys s) (view m tg) t id) ->
  exists r', update_active_locked task_group_is_autogroup root m cpu p id s =
      Ok tt (s <| k_rqs := <[cpu := r']> (k_rqs s) |>
               <| k_tasks := <[p := set_uclamp t id (activated (uclamp_eff_get (k_sys s) (view m tg) t id))]> (k_tasks s) |>) /\
    erase_rq r' = erase_rq r /\ rq_in_range r'.
Proof using FL UL.
  intros Hr Ht Ha Hg Hrr Htr He.
  destruct (update_active_exact (k_sys s) (view m tg) r t id Hrr Htr Ha He) as (r' & Eu & Er). exists r'. split; [|done].
  unfold update_active_locked. rewrite (bind_ok get _ s s s eq_refl), (bind_ok _ _ _ _ _ (rq_of_run _ _ _ Hr)).
  rewrite (bind_ok _ _ _ _ _ (task_of_run _ _ _ Ht)), Ha, Hg, (bind_ok (lift_option (Some tg)) _ s tg s eq_refl), Eu.
  by rewrite (bind_ok (lift_option (Some _)) _ s _ s eq_refl).
Qed.

(** A clamp that is counted is replaced by what is due, the counts of the run
    queue with it; nothing else changes. *)
Lemma update_task_run m l s p t id : buckets_in m l -> fit l s -> k_tasks s !! p = Some t ->
  exists s', update_task m p id s = Ok tt s' /\ fit l s' /\ core_same false s s' /\
    k_tasks s' = <[p := updated_task m s t id]> (k_tasks s).
Proof using FL UL.
  intros Hb Hf Ht. destruct (fit_task _ _ Hf p t Ht) as (r & Hpre). pose proof Hpre as [_ Hpi Hr Hl _ Hc].
  unfold uclamp_update_task. rewrite (bind_ok _ _ _ _ _ (task_rq_lock_exact s p t r Hpre)). set (cpu := task_cpu t) in *.
  set (s1 := locked_task p cpu s). pose proof (locked_task_at p cpu s t Ht) as Ht1. fold s1 in Ht1.
  assert (k_rqs s1 !! cpu = Some (r <| rq_lock := true |>)) as Hr1.
  { change (k_rqs s1) with (k_rqs (upd_rq cpu (fun r => r <| rq_lock := true |>) s)).
    by rewrite upd_rq_lookup, decide_True, Hr by done. }
  unfold updated_task. destruct (uc_active (uclamp t id)) eqn:Ha.
  2: { exists s. rewrite insert_id by done. split_and!; [|done|done|done].
       rewrite (bind_ok _ _ _ _ _ (update_locked_idle m cpu p id s1 _ _ Hr1 Ht1 Ha)). by apply (task_rq_unlock_exact s cpu p r t). }
  destruct (due_in_range m l s p t id Hb Hf Ht) as (tg & Hg & He).
  destruct (update_locked_run m cpu p id s1 _ _ tg Hr1 Ht1 Ha Hg) as (r' & Eu & Er & Hr');
    [exact (cir_rqs _ Hc cpu r Hr)|exact (cir_tasks _ Hc p t Ht)|exact He|].
  rewrite (bind_ok _ _ _ _ _ Eu). set (t' := set_uclamp (t <| pi_lock := true |>) id _).
  assert (t' <| pi_lock := false |> = set_uclamp t id (default (uclamp t id) (due m s t id))) as Et'.
  { unfold due. rewrite Hg. cbn [mbind option_bind default]. subst t'. clear -Hpi. destruct id, t; cbn in Hpi; by subst. }
  eexists. split; [apply (unlocked_put s p cpu t r t' r' Ht Hr)|].
  { by rewrite (erase_rq_field rq_lock _ _ ltac:(done) Er). }
  { by subst t'; destruct id. }
  rewrite Et'. set (t2 := set_uclamp t id _). set (r2 := r' <| rq_lock := false |>).
  assert (kframe false s (s <| k_rqs := <[cpu := r2]> (k_rqs s) |> <| k_tasks := <[p := t2]> (k_tasks s) |>)) as [Hcs Hcl].
  { apply (kframe_put_both false s cpu r r2 p t t2); [done|done| | |exact Hr'|].
    - rewrite <- (unlock_erased r Hl). exact (f_equal (fun x => x <| rq_lock := false |>) Er).
    - apply erase_set_uclamp.
    - apply task_in_range_set; [by eapply cir_tasks|]. unfold due. rewrite Hg. exact He. }
  split; [by apply (fit_same l s); auto|done].
Qed.

(** ** The tasks of a group *)

Lemma update_task_in_step m l s s' p t id : fit l s -> k_tasks s !! p = Some t -> k_sys s' = k_sys s ->
  k_tasks s' = <[p := updated_task m s t id]> (k_tasks s) ->
  in_step_for m s' p id /\ forall q j, in_step_for m s q j -> in_step_for m s' q j.
Proof.
  intros Hf Ht Hy Es. destruct (fit_group _ _ Hf p t Ht) as (tg & Hg & _).
  assert (forall j t', k_tasks s' !! p = Some t' -> uc_active (uclamp t' j) = true ->
    (j = id \/ due m s t j = Some (uclamp t j)) -> due m s' t' j = Some (uclamp t' j)) as Hp.
  { intros j t' Ht'. rewrite Es, lookup_insert_eq in Ht'. injection Ht' as <-. unfold updated_task.
    destruct (uc_active (uclamp t id)) eqn:Ha.
    - set (se := default (uclamp t id) (due m s t id)). assert (due m s t id = Some se) as Edue by (unfold se, due; by rewrite Hg).
      rewrite (due_ext m s s' t (set_uclamp t id se) j Hy ltac:(by destruct id) ltac:(by destruct id)). intros _.
      destruct (decide (j = id)) as [->|Hne]; [by rewrite uclamp_set_eq|]. intros [?|H]; [done|]. by rewrite uclamp_set_ne.
    - intros Hj. rewrite (due_ext m s s' t t j Hy eq_refl eq_refl). intros [->|H]; [congruence|done]. }
  split; [intros t' Ht' Ha; by apply Hp; [| |left]|]. intros q j H t' Ht' Ha. destruct (decide (q = p)) as [->|Hne].
  - destruct (decide (j = id)) as [->|Hj]; [by apply Hp; [| |left]|]. apply Hp; [done|done|right].
    apply (H t Ht). rewrite Es, lookup_insert_eq in Ht'. injection Ht' as <-. unfold updated_task in Ha.
    destruct (uc_active (uclamp t id)); [by rewrite uclamp_set_ne in Ha|done].
  - rewrite Es, lookup_insert_ne in Ht' by done. rewrite (due_ext m s s' t' t' j Hy eq_refl eq_refl). by apply H.
Qed.

(** What an update for the clamps [clamps] of the tasks [ps] does. *)
Definition clamp_bit (id : uclamp_id) : Z := match id with UCLAMP_MIN => Z.shiftl 1 0 | UCLAMP_MAX => Z.shiftl 1 1 end.

Record reached (m : group_clamps) (l : list ptr) (now : ptr -> uclamp_id -> Prop) (s s' : kstate) : Prop := {
  re_fit : fit l s';
  re_same : core_same false s s';
  re_keep q j : in_step_for m s q j -> in_step_for m s' q j;
  re_now q j : now q j -> in_step_for m s' q j
}.

Lemma reached_trans m l now1 now2 now s1 s2 s3 :
  (forall q j, now q j -> now1 q j \/ now2 q j) -> reached m l now1 s1 s2 -> reached m l now2 s2 s3 -> reached m l now s1 s3.
Proof.
  intros Hn [_ A2 A3 A4] [B1 B2 B3 B4]. split; [done|by etransitivity|auto|].
  intros q j H. destruct (Hn q j H); auto.
Qed.

Lemma reached_refl m l s : fit l s -> reached m l (fun _ _ => False) s s.
Proof. by split. Qed.

Lemma same_task s s' p : core_same false s s' -> is_Some (k_tasks s !! p) -> is_Some (k_tasks s' !! p).
Proof. intros H [t Ht]. destruct (proj1 (core_same_lookup _ _ _ H) p t Ht) as (t' & ? & _). by exists t'. Qed.

Lemma update_task_reached m l s p id : buckets_in m l -> fit l s -> is_Some (k_tasks s !! p) ->
  exists s', update_task m p id s = Ok tt s' /\ reached m l (fun q j => q = p /\ j = id) s s'.
Proof using FL UL.
  intros Hb Hf [t Ht]. destruct (update_task_run m l s p t id Hb Hf Ht) as (s' & E & Hf' & Hs & Et). exists s'.
  split; [done|]. pose proof (f_equal k_sys Hs) as Hy. destruct (update_task_in_step m l s s' p t id Hf Ht Hy Et) as [H1 H2].
  split; [done|done|done|]. by intros q j [-> ->].
Qed.

Lemma when_reached m l s b p id : buckets_in m l -> fit l s -> is_Some (k_tasks s !! p) ->
  exists s', when b (update_task m p id) s = Ok tt s' /\ reached m l (fun q j => b = true /\ q = p /\ j = id) s s'.
Proof using FL UL.
  intros Hb Hf Hp. destruct b; cbn [when].
  - destruct (update_task_reached m l s p id Hb Hf Hp) as (s' & E & [H1 H2 H3 H4]). exists s'. split; [done|].
    split; [done|done|done|]. intros q j (_ & H). by apply H4.
  - exists s. split; [done|]. split; [done|done|done|by intros q j [? _]].
Qed.

Lemma update_clamps_reached m l s p clamps : buckets_in m l -> fit l s -> is_Some (k_tasks s !! p) ->
  exists s', update_task_clamps task_group_is_autogroup root m clamps p s = Ok tt s' /\
    reached m l (fun q j => q = p /\ has (clamp_bit j) clamps = true) s s'.
Proof using FL UL.
  intros Hb Hf Hp. unfold update_task_clamps.
  destruct (when_reached m l s (has (Z.shiftl 1 0) clamps) p UCLAMP_MIN Hb Hf Hp) as (s1 & E1 & R1). rewrite (bind_ok _ _ _ _ _ E1).
  destruct (when_reached m l s1 (has (Z.shiftl 1 1) clamps) p UCLAMP_MAX Hb (re_fit _ _ _ _ _ R1)
    (same_task _ _ _ (re_same _ _ _ _ _ R1) Hp)) as (s2 & E2 & R2).
  exists s2. split; [exact E2|]. refine (reached_trans m l _ _ _ _ _ _ _ R1 R2). intros q j [-> H]. destruct j; auto.
Qed.

Lemma update_loop_reached m l clamps ps : forall s, buckets_in m l -> fit l s -> (forall p, p ∈ ps -> is_Some (k_tasks s !! p)) ->
  exists s', update_tasks_loop task_group_is_autogroup root m clamps ps s = Ok tt s' /\
    reached m l (fun q j => q ∈ ps /\ has (clamp_bit j) clamps = true) s s'.
Proof using FL UL.
  induction ps as [|p ps IH]; intros s Hb Hf Hp; cbn [update_tasks_loop].
  { exists s. split; [done|]. split; [done|done|done|by intros q j [?%elem_of_nil _]]. }
  destruct (update_clamps_reached m l s p clamps Hb Hf) as (s1 & E1 & R1); [apply Hp; by left|].
  rewrite (bind_ok _ _ _ _ _ E1). destruct (IH s1 Hb (re_fit _ _ _ _ _ R1)) as (s2 & E2 & R2).
  { intros q Hq. eapply same_task; [apply R1|]. apply Hp. by right. }
  exists s2. split; [exact E2|]. refine (reached_trans m l _ _ _ _ _ _ _ R1 R2).
  intros q j [[->|Hq]%elem_of_cons H]; auto.
Qed.

(** ** Down the tree *)

(** Groups with valid requests and effective clamps. *)
Record sane (m : group_clamps) (l : list ptr) : Prop := {
  sn_requests : requests_ok m l;
  sn_values p : p ∈ l -> pair_in_range (GroupClampsSpec.values (m p));
  sn_buckets : buckets_in m l
}.

(** The iterator finds the tasks of a group. *)
Record css_ok (s : kstate) : Prop := {
  css_known tg p : p ∈ css_tasks tg -> is_Some (k_tasks s !! p);
  css_all tg p t : k_tasks s !! p = Some t -> sched_task_group t = Some tg -> looked_at tg -> p ∈ css_tasks tg
}.

Lemma css_ok_same s s' : core_same false s s' -> css_ok s -> css_ok s'.
Proof.
  intros Hs [H1 H2]. split; [intros tg p Hp; by eapply same_task; [|apply (H1 tg)]|]. intros tg p t Ht Hg Hl.
  destruct (proj1 (core_same_lookup _ _ _ ltac:(symmetry; exact Hs)) p t Ht) as (t0 & Ht0 & E).
  apply (H2 tg p t0 Ht0); [|done]. by rewrite (erase_field false sched_task_group _ _ ltac:(done) E).
Qed.

(** A clamp whose bit is not in the mask is as it was. *)
Lemma update_group_mask parent b id :
  let '(b', clamps) := update_group parent b in has (clamp_bit id) clamps = true \/ tgu b' id = tgu b id.
Proof. unfold update_group. by destruct (_ =? _), (_ =? _), id; cbn; auto. Qed.

Lemma store_clamp_in_range se v : buckets_fit -> in_range v -> se_in_range (store_clamp se v).
Proof using UL.
  intros Hfit Hv. destruct (store_clamp_value se v Hv) as [E Hb]. unfold bucket_ok in Hb. rewrite E in Hb.
  unfold se_in_range. rewrite Hb. pose proof (bucket_id_nonneg v (proj1 Hv)). unfold buckets_fit in Hfit.
  pose proof (bucket_id_mono v SCHED_CAPACITY_SCALE (proj2 Hv)).
  destruct (bits_per_spec UCLAMP_BUCKETS) as [B1 B2]; [pose proof uclamp_buckets_range; lia|].
  rewrite wrapu_id by lia. lia.
Qed.

Lemma update_group_buckets parent b :
  buckets_fit -> (forall q, parent = Some q -> pair_in_range (GroupClampsSpec.values q)) -> pair_in_range (requests b) ->
  (forall id, se_in_range (tgu b id)) -> forall id, se_in_range (tgu (update_group parent b).1 id).
Proof using UL.
  intros Hfit Hp Hb Hold. unfold update_group.
  assert (forall id, in_range (eff_clamp parent b id)) as He.
  { intros id. destruct Hb as [Hb1 Hb2]. unfold eff_clamp. destruct parent as [q|]; [|by destruct id].
    destruct (Hp q eq_refl) as [H1 H2]. by destruct id; cbn; destruct (_ <? _). }
  assert (in_range (Z.min (eff_clamp parent b UCLAMP_MIN) (eff_clamp parent b UCLAMP_MAX))) as Hm.
  { pose proof (He UCLAMP_MIN). pose proof (He UCLAMP_MAX). unfold in_range in *. lia. }
  destruct (_ =? uc_value (tgu_min b)), (_ =? uc_value (tgu_max b)), id; cbn;
    first [exact (Hold UCLAMP_MIN)|exact (Hold UCLAMP_MAX)|by apply store_clamp_in_range].
Qed.

#[local] Instance looked_at_dec tg : Decision (looked_at tg).
Proof. unfold looked_at. apply _. Defined.

(** One group changes and its tasks follow. *)
Lemma group_step m m1 l s s' id clamps :
  (forall tg, tg <> id -> m1 tg = m tg) ->
  (forall j, has (clamp_bit j) clamps = true \/ tgu (m1 id) j = tgu (m id) j) ->
  fit l s -> css_ok s -> in_step m s ->
  reached m1 l (fun q j => q ∈ css_tasks id /\ has (clamp_bit j) clamps = true) s s' -> in_step m1 s'.
Proof.
  intros Hother Hmask Hf Hcss Hin [_ Hsame Hkeep Hnow] q j. destruct (k_tasks s !! q) as [t|] eqn:Ht.
  2: { intros t' Ht'. destruct (same_task s' s q) as [? ?]; [by symmetry|by exists t'|congruence]. }
  destruct (fit_group _ _ Hf q t Ht) as (tg & Hg & _).
  destruct (decide (tg = id /\ looked_at tg /\ has (clamp_bit j) clamps = true)) as [(-> & Hl & Hb)|Hno].
  { apply Hnow. split; [by eapply css_all|done]. }
  apply Hkeep. intros t0 Ht0 Ha. rewrite Ht in Ht0. injection Ht0 as <-. rewrite <- (Hin q j t Ht Ha). apply due_group.
  intros tg' Hg'. rewrite Hg in Hg'. injection Hg' as <-. intros Hl. destruct (decide (tg = id)) as [->|Hne]; [|by rewrite Hother].
  destruct (Hmask j) as [Hb|E]; [|exact E]. by destruct Hno.
Qed.

Abbreviation update_tasks := (uclamp_update_active_tasks task_group_is_autogroup root css_tasks).

(** What every step of the traversal keeps. *)
Record steady (l : list ptr) (m : group_clamps) (s : kstate) : Prop := {
  sd_sane : sane m l;
  sd_fit : fit l s;
  sd_css : css_ok s;
  sd_step : in_step m s
}.

Lemma sane_update m l parent id b clamps :
  buckets_fit -> sane m l -> (forall p, parent = Some p -> p ∈ l) -> id ∈ l -> update_group (m <$> parent) (m id) = (b, clamps) ->
  sane (set_group id b m) l.
Proof using UL.
  intros Hfit [S1 S2 S3] Hp Hid E. assert (forall q, m <$> parent = Some q -> pair_in_range (GroupClampsSpec.values q)) as Hpar.
  { intros q. destruct parent as [p|]; [|done]. intros [= <-]. apply S2. by apply Hp. }
  pose proof (update_group_spec (m <$> parent) (m id) Hpar (S1 id Hid)) as Hg.
  pose proof (update_group_buckets (m <$> parent) (m id) Hfit Hpar (S1 id Hid) (fun j => S3 id j Hid)) as Hb.
  rewrite E in Hg, Hb. destruct Hg as (G1 & G2 & _).
  split; intros p; (destruct (decide (p = id)) as [->|Hne]; [rewrite set_group_same|rewrite set_group_other by done]).
  - intros _. rewrite G2. by apply S1.
  - apply S1.
  - intros _. unfold group_ok in G1. rewrite G1. apply restricted_range; [|rewrite G2; by apply S1].
    intros q Hq. apply fmap_Some in Hq as (q0 & Hq0 & ->). by apply Hpar.
  - apply S2.
  - intros j _. apply Hb.
  - intros j. apply S3.
Qed.

Lemma update_eff_steady l g : buckets_fit -> ids g ⊆ l -> forall parent m s,
  (forall p, parent = Some p -> p ∈ l) -> steady l m s ->
  exists m' s', update_eff update_tasks parent g (m, Ok tt s) = (m', Ok tt s') /\ steady l m' s' /\ core_same false s s'.
Proof using FL UL.
  intros Hfit. induction g as [id cs IH] using group_ind'. intros Hl parent m s Hp Hst. cbn [update_eff].
  destruct (update_group (m <$> parent) (m id)) as [b clamps] eqn:Eg.
  destruct (clamps =? 0); [by exists m, s|]. rewrite ids_eq in Hl. cbn [group_id children] in Hl.
  assert (id ∈ l) as Hid by (apply Hl; by left). pose proof Hst as [S1 S2 S3 S4]. set (m1 := set_group id b m).
  pose proof (sane_update m l parent id b clamps Hfit S1 Hp Hid Eg) as H1. fold m1 in H1.
  destruct (update_loop_reached m1 l clamps (css_tasks id) s (sn_buckets _ _ H1) S2) as (s1 & E1 & R1); [apply S3|].
  assert (steady l m1 s1) as Hst1.
  { split; [done|by apply R1|eapply css_ok_same; [apply R1|done]|].
    apply (group_step m m1 l s s1 id clamps); [intros tg Hne; by apply set_group_other| |done..].
    intros j. subst m1. rewrite set_group_same. pose proof (update_group_mask (m <$> parent) (m id) j) as H. by rewrite Eg in H. }
  cbn [uclamp_update_active_tasks]. rewrite E1.
  assert (forest cs ⊆ l) as Hcs by (intros q Hq; apply Hl; by right).
  assert (core_same false s s1) as Hs1 by apply R1.
  clear Hl Eg S1 S2 S3 S4 Hst H1 R1 E1. clearbody m1. revert m1 s1 Hst1 Hs1. induction cs as [|c cs IHc]; intros m1 s1 Hst1 Hs1.
  { by exists m1, s1. }
  cbn [fold_left]. destruct (IH c) with (parent := Some id) (m := m1) (s := s1) as (m2 & s2 & -> & Hst2 & Hs2); [by left| | |done|].
  { intros q Hq. apply Hcs. cbn [forest flat_map]. apply elem_of_app. by left. }
  { by intros p [= <-]. }
  apply IHc; [intros d Hd; apply IH; by right| |done|by etransitivity].
  intros q Hq. apply Hcs. cbn [forest flat_map]. apply elem_of_app. by right.
Qed.

(** A task is never counted above the limit of its group. *)
Lemma due_capped m s t tg id se : CONFIG_UCLAMP_TASK_GROUP = true ->
  sched_task_group t = Some tg -> looked_at tg -> due m s t id = Some se -> uc_value se <= uc_value (tgu (m tg) id).
Proof.
  intros Hcfg Hg [Ha Hr] E. unfold due in E. rewrite Hg in E. cbn [mbind option_bind] in E. injection E as <-.
  unfold uclamp_eff_get, uclamp_tg_restrict, group_view. cbn [tg_is_autogroup tg_is_root Uclamp.tg_uclamp].
  rewrite Hcfg, Ha, (bool_decide_eq_false_2 _ Hr). change (uc_value (activated ?x)) with (uc_value x).
  set (req := uclamp_req t id). set (lim := tgu (m tg) id). set (dflt := uclamp_default (k_sys s) id).
  destruct (uc_value lim <? uc_value req) eqn:E1; cbn [orb]; [|destruct (negb (uc_user_defined req))]; bool_cases;
    destruct (_ <? _) eqn:E2; bool_cases; lia.
Qed.

Lemma occurs_parent parent t q g : occurs parent t q g -> forall p, q = Some p -> parent = Some p \/ p ∈ ids t.
Proof.
  induction 1 as [parent g|parent id cs c q g Hc Ho IH]; intros p Hp; [by left|right]. rewrite ids_eq. cbn [group_id children].
  destruct (IH p Hp) as [[= ->]|Hin]; [by left|right]. by apply (forest_elem c cs).
Qed.

(** C31. A write to the clamps of a group reaches the tasks.  With every lock free
    and every task counted with what its group, its request and the system give,
    the write runs to its end, whatever it changes in the subtree, without BUG and
    without waiting; afterwards every task of the machine, in the groups that
    changed and in all others, is again counted with exactly that, and so never
    above the new effective clamp of its group.  Nothing else of the machine
    changes. *)
Theorem group_clamps_reach_tasks m s t q g buf nbytes id :
  CONFIG_UCLAMP_TASK_GROUP = true -> buckets_fit -> occurs None t q g -> steady (ids t) m s ->
  exists ret m' s', cpu_uclamp_write update_tasks buf nbytes q g id m (Ok tt s) = (ret, (m', Ok tt s')) /\
    in_step m' s' /\ core_same false s s' /\
    (forall p x tg j, k_tasks s' !! p = Some x -> sched_task_group x = Some tg -> looked_at tg ->
       uc_active (uclamp x j) = true -> uc_value (uclamp x j) <= uc_value (tgu (m' tg) j)).
Proof using FL UL.
  intros Hcfg Hfit Ho Hst. pose proof (occurs_ids _ _ _ _ Ho) as Hsub.
  assert (forall p, q = Some p -> p ∈ ids t) as Hq by (intros p Hp; by destruct (occurs_parent None t q g Ho p Hp)).
  assert (exists ret m' s', cpu_uclamp_write update_tasks buf nbytes q g id m (Ok tt s) = (ret, (m', Ok tt s')) /\
    steady (ids t) m' s' /\ core_same false s s') as (ret & m' & s' & E & [_ _ _ H] & Hs).
  2: { exists ret, m', s'. split_and!; [done|done|done|]. intros p x tg j Hx Hg Hl Ha.
       apply (due_capped m' s' x tg j _ Hcfg Hg Hl). by apply (H p j x Hx). }
  unfold cpu_uclamp_write. unfold nz. destruct (Z.eqb_spec (req_ret (capacity_from_percent buf)) 0) as [Hret|Hret]; cbn [negb].
  2: { by exists (req_ret (capacity_from_percent buf)), m, s. }
  pose proof (request_in_range buf Hret) as Hutil. fold (wanted (tgu_req (m (group_id g)) id) (req_util (capacity_from_percent buf))).
  set (b1 := set_tgu_req _ id _ _). set (m1 := set_group (group_id g) b1 m).
  assert (forall p, GroupClampsSpec.values (m1 p) = GroupClampsSpec.values (m p) /\ (forall j, tgu (m1 p) j = tgu (m p) j)) as Hsame.
  { intros p. subst m1. destruct (decide (p = group_id g)) as [->|]; [|by rewrite set_group_other].
    rewrite set_group_same. subst b1. split; [apply set_tgu_req_values|]. intros j. by destruct id, j. }
  pose proof Hst as [[S1 S2 S3] F1 C1 T1].
  destruct (update_eff_steady (ids t) g Hfit Hsub q m1 s Hq) as (m' & s' & E & H & Hs).
  - split; [split| done|done|].
    + intros p Hp. subst m1. destruct (decide (p = group_id g)) as [->|]; [|rewrite set_group_other by done; by apply S1].
      rewrite set_group_same. apply set_tgu_req_requests; [by apply S1|by rewrite wanted_value].
    + intros p Hp. destruct (Hsame p) as [-> _]. by apply S2.
    + intros tg j Hp. destruct (Hsame tg) as [_ ->]. by apply S3.
    + intros p j x Hx Ha. rewrite <- (T1 p j x Hx Ha). apply due_group. intros tg _ _. apply (Hsame tg).
  - unfold cpu_util_update_eff. rewrite E. by exists nbytes, m', s'.
Qed.
End Reach.

(** ** A machine with tasks in groups

    Task 2 runs in the root group, without clamps; task 3 waits in group 4 and is
    counted with the clamps of its group, 512 and 1024. *)

Definition no_session (tg : ptr) : bool := false.
Definition demo_root : ptr := 1%positive.
Definition demo_css (tg : ptr) : list ptr :=
  if decide (tg = 1%positive) then [2%positive] else if decide (tg = 4%positive) then [3%positive] else [].
Abbreviation demo_view := (group_view no_session demo_root demo_clamps 4%positive).

Definition root_member : task_struct := (user_task 20) <| on_cpu := 1 |> <| sched_task_group := Some 1%positive |>.
Definition joining : task_struct := (user_task 30) <| sched_task_group := Some 4%positive |>.
Definition counted : option (rq * task_struct) :=
  uclamp_rq_inc (F := linux58_flags) fair_only boot_sys demo_view machine_rq joining.
Definition counted_rq : rq := (default (machine_rq, joining) counted).1.
Definition member : task_struct := (default (machine_rq, joining) counted).2.
Definition grouped_machine : kstate :=
  machine <| k_tasks := {[ 2%positive := root_member; 3%positive := member ]} |> <| k_rqs := {[ 0 := counted_rq ]} |>.

Lemma grouped_lookup p t : k_tasks grouped_machine !! p = Some t ->
  p = 2%positive /\ t = root_member \/ p = 3%positive /\ t = member.
Proof.
  change (k_tasks grouped_machine) with ({[ 2%positive := root_member; 3%positive := member ]} : gmap ptr task_struct).
  intros [[<- <-]|[_ H]]%lookup_insert_Some; [by left|]. apply lookup_singleton_Some in H as [<- <-]. by right.
Qed.

Lemma grouped_clamps : clamps_in_range grouped_machine.
Proof. apply clamps_b_ok. vm_compute. reflexivity. Qed.

Lemma grouped_steady : steady (F := linux58_flags) no_session demo_root demo_css (ids demo_tree) demo_clamps grouped_machine.
Proof.
  split.
  - split; [exact demo_requests|intros p _; vm_compute; repeat split; discriminate|].
    intros tg [] _; vm_compute; split; congruence.
  - split; [| |exact grouped_clamps]; intros p t Ht; pose proof Ht as [[-> ->]|[-> ->]]%grouped_lookup.
    + exists counted_rq. split; [exact Ht|by vm_compute|by vm_compute|by vm_compute|by vm_compute|exact grouped_clamps].
    + exists counted_rq. split; [exact Ht|by vm_compute|by vm_compute|by vm_compute|by vm_compute|exact grouped_clamps].
    + exists 1%positive. split; [reflexivity|]. intros _. vm_compute. by left.
    + exists 4%positive. split; [vm_compute; reflexivity|]. intros _. apply (bool_decide_unpack _). by vm_compute.
  - split.
    + intros tg p. unfold demo_css. repeat case_decide; rewrite ?list_elem_of_singleton, ?elem_of_nil; [intros ->..|done]; by eexists.
    + intros tg p t [[-> ->]|[-> ->]]%grouped_lookup Hg [_ Hr]; vm_compute in Hg; injection Hg as <-; [done|by left].
  - intros p id t [[-> ->]|[-> ->]]%grouped_lookup Ha; destruct id; vm_compute in Ha |- *; try discriminate Ha; reflexivity.
Qed.

Lemma grouped_fit : buckets_fit.
Proof. by vm_compute. Qed.

(** A limit of 25.00 on group 2 reaches the task in group 4 below it. *)
Lemma group_clamps_reach_tasks_witness :
  exists ret m' s', cpu_uclamp_write (uclamp_update_active_tasks (F := linux58_flags) no_session demo_root demo_css)
      (text_float (inr 2500)) 6 (Some 1%positive) demo_group UCLAMP_MAX demo_clamps (Ok tt grouped_machine) = (ret, (m', Ok tt s')) /\
    in_step no_session demo_root m' s'.
Proof.
  destruct (group_clamps_reach_tasks (UL := uclamp_config_laws 5 ltac:(lia)) (F := linux58_flags)
    no_session demo_root demo_css demo_clamps grouped_machine demo_tree (Some 1%positive) demo_group (text_float (inr 2500)) 6
    UCLAMP_MAX eq_refl grouped_fit demo_occurs grouped_steady) as (ret & m' & s' & E & H & _).
  exists ret, m', s'. split; [exact E|exact H].
Defined.

Example limit_reaches_task :
  match cpu_uclamp_write (uclamp_update_active_tasks (F := linux58_flags) no_session demo_root demo_css)
      (text_float (inr 2500)) 6 (Some 1%positive) demo_group UCLAMP_MAX demo_clamps (Ok tt grouped_machine) with
  | (_, (_, Ok _ s')) => (fun t => (uc_value (uclamp_min t), uc_value (uclamp_max t))) <$> k_tasks s' !! 3%positive
  | _ => None
  end = Some (256, 256) /\ (uc_value (uclamp_min member), uc_value (uclamp_max member)) = (512, 1024).
Proof. vm_compute. split; reflexivity. Qed.
