(* ===== verification/Ttwu.v ===== *)
(** * Ttwu: waking tasks (core.c)

    Wake queues, [try_to_wake_up] with its paths (the current task, a task still
    queued, a remote wake list, an activation) and the functions in front of
    it.  Waiting for another CPU to finish with a task is [hang]. *)

From S2P Require Import Prelude Task KernelApi Prio Rq RqClock Uclamp State Sched Setprio Affinity.

Class WakeEnv := {
  sd_llc_id : Z -> Z;  (* the last-level cache of a CPU *)
  sched_feat_TTWU_QUEUE : bool;
  update_avg : Z -> Z -> Z;
  SD_BALANCE_WAKE : Z;
  arch_send_call_function_single_ipi : Z -> kstate -> kstate
}.

Section Ttwu.
Context {P : PrioApi} {Y : PolicyApi} {U : UclampApi} {A : AttrFlagApi} {F : FlagApi} {C : ClockConfig}
  {K : SchedClassOps} {V : SetprioEnv} {E : MigrateEnv} {W : WakeEnv}.

(** ** Activation *)

Definition idle_average (r : rq) : rq :=
  if nz (idle_stamp r) then
    let delta := u64 (clock r - idle_stamp r) in
    let max := u64 (2 * max_idle_balance_cost r) in
    let avg := update_avg (avg_idle r) delta in
    r <| avg_idle := if max <? avg then max else avg |> <| idle_stamp := 0 |>
  else r.

Definition ttwu_do_wakeup (cpu : Z) (p : ptr) (wake_flags : Z) : M unit :=
  check_preempt_curr cpu p wake_flags;;
  set_task p (fun t => t <| t_state := TASK_RUNNING |>);;
  t ← task_of p;
  modify (op_task_woken (t_sched_class t) cpu p);;
  set_rq cpu idle_average.

Definition ttwu_do_activate (cpu : Z) (p : ptr) (wake_flags : Z) : M unit :=
  t ← task_of p;
  when (sched_contributes_to_load t)
    (set_rq cpu (fun r => r <| nr_uninterruptible := u64 (nr_uninterruptible r - 1) |>));;
  let en_flags := Z.lor ENQUEUE_WAKEUP ENQUEUE_NOCLOCK in
  let en_flags := if has wake_flags WF_MIGRATED then Z.lor en_flags ENQUEUE_MIGRATED else en_flags in
  activate_task cpu p en_flags;;
  ttwu_do_wakeup cpu p wake_flags.

Definition ttwu_remote (p : ptr) (wake_flags : Z) : M Z :=
  cpu ← __task_rq_lock p;
  t ← task_of p;
  ret ← (if task_on_rq_queued t then
           update_clock cpu;; ttwu_do_wakeup cpu p wake_flags;; mret 1
         else mret 0);
  unlock_rq cpu;;
  mret ret.

(** ** Remote wake lists *)

(** [llist] is the CPU's list, taken off by the caller, oldest first. *)
Fixpoint ttwu_pending_loop (cpu : Z) (llist : list ptr) : M unit :=
  match llist with
  | [] => mret tt
  | p :: llist =>
      t ← task_of p;
      (if nz (on_cpu t) then hang else mret tt);;
      when (negb (task_cpu t =? cpu)) (set_task_cpu p cpu);;
      t ← task_of p;
      ttwu_do_activate cpu p (if sched_remote_wakeup t then WF_MIGRATED else 0);;
      ttwu_pending_loop cpu llist
  end.

Definition sched_ttwu_pending (llist : list ptr) : M unit :=
  cpu ← smp_processor_id;
  match llist with
  | [] => mret tt
  | _ =>
      set_rq cpu (fun r => r <| ttwu_pending := false |>);;
      lock_rq cpu;;
      update_clock cpu;;
      ttwu_pending_loop cpu llist;;
      unlock_rq cpu
  end.

Definition send_call_function_single_ipi (cpu : Z) : M unit :=
  r ← rq_of cpu;
  polling ← set_nr_if_polling (idle r);
  when (negb polling) (modify (arch_send_call_function_single_ipi cpu)).

Definition __ttwu_queue_wakelist (p : ptr) (cpu wake_flags : Z) : M unit :=
  set_task p (fun t => t <| sched_remote_wakeup := has wake_flags WF_MIGRATED |>);;
  set_rq cpu (fun r => r <| ttwu_pending := true |>);;
  modify (fun s => s <| k_wake_list := (cpu, p) :: k_wake_list s |>).

Definition wake_up_if_idle (cpu : Z) : M unit :=
  r ← rq_of cpu;
  c ← task_of (curr r);
  if negb (is_idle_task c) then mret tt
  else
    polling ← set_nr_if_polling (idle r);
    if polling : bool then mret tt
    else
      lock_rq cpu;;
      r ← rq_of cpu;
      c ← task_of (curr r);
      when (is_idle_task c) (smp_send_reschedule cpu);;
      unlock_rq cpu.

Definition cpus_share_cache (this_cpu that_cpu : Z) : bool := sd_llc_id this_cpu =? sd_llc_id that_cpu.

Definition ttwu_queue_cond (this : Z) (r : rq) (cpu wake_flags : Z) : bool :=
  if negb (cpus_share_cache this cpu) then true
  else if has wake_flags WF_ON_CPU && (nr_running r <=? 1) then true
  else false.

Definition ttwu_queue_wakelist (p : ptr) (cpu wake_flags : Z) : M bool :=
  this ← smp_processor_id;
  r ← rq_of cpu;
  if sched_feat_TTWU_QUEUE && ttwu_queue_cond this r cpu wake_flags then
    if cpu =? this then mret false
    else __ttwu_queue_wakelist p cpu wake_flags;; mret true
  else mret false.

Definition ttwu_queue (p : ptr) (cpu wake_flags : Z) : M unit :=
  queued ← ttwu_queue_wakelist p cpu wake_flags;
  if queued : bool then mret tt
  else
    lock_rq cpu;;
    update_clock cpu;;
    ttwu_do_activate cpu p wake_flags;;
    unlock_rq cpu.

(** ** try_to_wake_up *)

(** A task that is off its queue: choose a CPU and queue it there, or leave it to
    the CPU that is still busy with it.  The result is [wake_flags] at the end. *)
Definition ttwu_sleeping (fuel : nat) (p : ptr) (wake_flags : Z) : M Z :=
  t ← task_of p;
  when (in_iowait t) (set_rq (task_cpu t) (fun r => r <| nr_iowait := nr_iowait r - 1 |>));;
  set_task p (fun t => t <| t_state := TASK_WAKING |>);;
  t ← task_of p;
  handed_over ← (if nz (on_cpu t) then ttwu_queue_wakelist p (task_cpu t) (Z.lor wake_flags WF_ON_CPU)
                 else mret false);
  if handed_over : bool then mret wake_flags
  else
    (if nz (on_cpu t) then hang else mret tt);;
    cpu ← select_task_rq fuel p (wake_cpu t) SD_BALANCE_WAKE wake_flags;
    t ← task_of p;
    wake_flags ← (if negb (task_cpu t =? cpu) then
                    set_task_cpu p cpu;;
                    mret (Z.lor wake_flags WF_MIGRATED)
                  else mret wake_flags);
    ttwu_queue p cpu wake_flags;;
    mret wake_flags.

(** The part with the lock of the task held: [success] and [wake_flags]. *)
Definition ttwu_locked (fuel : nat) (p : ptr) (state wake_flags : Z) : M (Z * Z) :=
  t ← task_of p;
  if negb (has (t_state t) state) then mret (0, wake_flags)
  else
    woken ← (if nz (on_rq t) then ttwu_remote p wake_flags else mret 0);
    if nz woken then mret (1, wake_flags)
    else wake_flags ← ttwu_sleeping fuel p wake_flags; mret (1, wake_flags).

(** [try_to_wake_up] with what the statistics at its end use: [success] and
    [wake_flags]. *)
Definition try_to_wake_up_out (fuel : nat) (p : ptr) (state wake_flags : Z) : M (Z * Z) :=
  preempt_disable;;
  c ← current;
  out ← (if bool_decide (p = c) then
           t ← task_of p;
           if negb (has (t_state t) state) then mret (0, wake_flags)
           else set_task p (fun t => t <| t_state := TASK_RUNNING |>);; mret (1, wake_flags)
         else
           lock_pi p;;
           out ← ttwu_locked fuel p state wake_flags;
           unlock_pi p;;
           mret out);
  preempt_enable_no_resched;;
  mret out.

Definition try_to_wake_up (fuel : nat) (p : ptr) (state wake_flags : Z) : M Z :=
  '(success, _) ← try_to_wake_up_out fuel p state wake_flags;
  mret success.

Definition wake_up_process (fuel : nat) (p : ptr) : M Z := try_to_wake_up fuel p TASK_NORMAL 0.
Definition wake_up_state (fuel : nat) (p : ptr) (state : Z) : M Z := try_to_wake_up fuel p state 0.

(** The waiting task is [private] of the queue entry; [SCHED_DEBUG] only warns. *)
Definition default_wake_function (fuel : nat) (private : ptr) (mode wake_flags : Z) : M Z :=
  try_to_wake_up fuel private mode wake_flags.

(** [func] sees the task and may change the state. *)
Definition try_invoke_on_locked_down_task (p : ptr) (func : ptr -> M bool) : M bool :=
  lock_pi p;;
  t ← task_of p;
  ret ← (if nz (on_rq t) then
           rq ← __task_rq_lock p;
           t ← task_of p;
           ret ← (if task_cpu t =? rq then func p else mret false);
           unlock_rq rq;;
           mret ret
         else if (t_state t =? TASK_RUNNING) || (t_state t =? TASK_WAKING) then mret false
         else if negb (nz (on_rq t)) then func p else mret false);
  unlock_pi p;;
  mret ret.

(** ** Wake queues

    [wake_q_next] of a task is NULL ([None]) when it is on no queue; the tail
    marker is the task id [WAKE_Q_TAIL], which no task has.  The head has the
    first and the last node. *)
Variable WAKE_Q_TAIL : ptr.

Record wake_q_head := mk_wake_q_head {
  wq_first : ptr;
  wq_lastp : option ptr  (* whose next pointer is the end; None: the head itself *)
}.

Definition wake_q_init : wake_q_head := mk_wake_q_head WAKE_Q_TAIL None.

(** The new head, and whether the task was added. *)
Definition __wake_q_add (head : wake_q_head) (task : ptr) : M (wake_q_head * bool) :=
  t ← task_of task;
  match wake_q_next t with
  | Some _ => mret (head, false)
  | None =>
      put_task task (t <| wake_q_next := Some WAKE_Q_TAIL |>);;
      head ← (match wq_lastp head with
              | None => mret (mk_wake_q_head task (Some task))
              | Some last => set_task last (fun t => t <| wake_q_next := Some task |>);;
                             mret (mk_wake_q_head (wq_first head) (Some task))
              end);
      mret (head, true)
  end.

Definition wake_q_add (head : wake_q_head) (task : ptr) : M wake_q_head :=
  '(head, added) ← __wake_q_add head task;
  when added (set_task task (fun t => t <| usage := usage t + 1 |>));;
  mret head.

Definition wake_q_add_safe (head : wake_q_head) (task : ptr) : M wake_q_head :=
  '(head, added) ← __wake_q_add head task;
  when (negb added) (set_task task (fun t => t <| usage := usage t - 1 |>));;
  mret head.

(** [wake] is [wake_up_process]; a NULL next pointer would be followed. *)
Fixpoint wake_up_q_loop (fuel : nat) (wake : ptr -> M Z) (node : ptr) : M unit :=
  if bool_decide (node = WAKE_Q_TAIL) then mret tt
  else match fuel with
  | O => hang
  | S fuel =>
      t ← task_of node;
      next ← lift_option (wake_q_next t);
      put_task node (t <| wake_q_next := None |>);;
      _ ← wake node;
      set_task node (fun t => t <| usage := usage t - 1 |>);;
      wake_up_q_loop fuel wake next
  end.

(** [fuel] bounds the nodes, [rounds] those of the search for a CPU. *)
Definition wake_up_q (fuel rounds : nat) (head : wake_q_head) : M unit :=
  wake_up_q_loop fuel (wake_up_process rounds) (wq_first head).
End Ttwu.
