(* ===== verification/TtwuSpec.v ===== *)
(** * TtwuSpec: what waking a task promises

    The result of [try_to_wake_up] as a relation on states, and the theorem that
    the code implements it, whatever CPU the task's class suggests and whichever
    way the wakeup takes. *)

From S2P Require Import Prelude Task KernelApi Prio Rq RqClock Uclamp UclampTrace.
From S2P Require Import State Sched SchedFacts ScheduleSpec Setprio TaskLock Machine.
From S2P Require Import Affinity AffinitySpec Ttwu.

(** ** Activation *)

Section Activate.
Context {P : PrioApi} {Y : PolicyApi} {U : UclampApi} {A : AttrFlagApi} {F : FlagApi} {FL : FlagLaws F}
  {C : ClockConfig} {K : SchedClassOps} {KL : SchedClassLaws K} {V : SetprioEnv} {E : MigrateEnv}
  {EL : MigrateLaws E} {W : WakeEnv}.

Lemma idle_average_erase r : erase_rq (idle_average r) = erase_rq r /\ forall id, rq_uclamp (idle_average r) id = rq_uclamp r id.
Proof. unfold idle_average. destruct (nz _); [|done]. split; [done|by intros []]. Qed.

Lemma wp_ttwu_do_wakeup g s cpu p fl :
  tracks g s -> cpu_up g cpu -> is_Some (k_tasks g !! p) ->
  wp (ttwu_do_wakeup cpu p fl) (fun _ s' => tracks (upd_task p (fun t => t <| t_state := TASK_RUNNING |>) g) s') s.
Proof using KL.
  intros H Hup Hp. unfold ttwu_do_wakeup. apply wp_bind. eapply (wp_track_frame g s false); [exact H| |].
  { apply wp_check_preempt_curr; [by eapply cpu_up_core; [apply H|]|by eapply tracks_task_some]. }
  intros s1 H1. apply wp_bind. eapply wp_track_task; [exact H1|exact Hp|commutes|]. intros s2 H2.
  assert (is_Some (k_tasks (upd_task p (fun t => t <| t_state := TASK_RUNNING |>) g) !! p)) as Hp2 by by apply upd_task_some.
  destruct (tracks_task_some _ _ _ H2 Hp2) as [t2 Ht2]. apply wp_bind. eapply wp_task_of; [exact Ht2|].
  apply wp_bind, wp_modify.
  assert (tracks (upd_task p (fun t => t <| t_state := TASK_RUNNING |>) g) (op_task_woken (t_sched_class t2) cpu p s2)) as H3
    by (eapply tracks_frame; [apply law_task_woken|exact H2]).
  eapply wp_absorb_rq; [exact H3| |apply idle_average_erase|apply idle_average_erase|done].
  destruct Hup as (r & Hr & _). by exists r.
Qed.

(** The task joins the queue of a CPU: it stops counting as uninterruptible. *)
Definition enqueued (cpu : Z) (p : ptr) (contributes : bool) (g : kstate) : kstate :=
  let g := if contributes
           then upd_rq cpu (fun r => r <| nr_uninterruptible := u64 (nr_uninterruptible r - 1) |>) g else g in
  upd_task p (fun t => t <| on_rq := 1 |> <| t_state := TASK_RUNNING |>) g.

Lemma wp_ttwu_do_activate g s cpu p t fl :
  tracks g s -> cpu_up g cpu -> k_tasks g !! p = Some t ->
  wp (ttwu_do_activate cpu p fl) (fun _ s' => tracks (enqueued cpu p (sched_contributes_to_load t) g) s') s.
Proof using FL KL.
  intros H Hup Hp. destruct (tracks_task _ _ _ _ H Hp) as (t1 & Ht1 & E1). unfold ttwu_do_activate, enqueued.
  apply wp_bind. eapply wp_task_of; [exact Ht1|].
  rewrite (erase_field true sched_contributes_to_load _ _ ltac:(kept_field) E1).
  set (g1 := if sched_contributes_to_load t then _ else g).
  assert (cpu_up g1 cpu) as Hup1 by (subst g1; destruct (sched_contributes_to_load t); [by apply cpu_up_upd_rq|exact Hup]).
  assert (k_tasks g1 !! p = Some t) as Hp1 by (subst g1; destruct (sched_contributes_to_load t); exact Hp).
  apply wp_bind. apply (wp_mono _ (fun _ s' => tracks g1 s')).
  { apply wp_when; intros Ec; subst g1; rewrite Ec; [|exact H].
    eapply wp_track_rq; [exact H|destruct Hup as (r & Hr & _); by exists r|commutes|done]. }
  cbn beta. intros _ s2 H2. cbv zeta. apply wp_bind.
  assert (is_Some (k_rqs g1 !! cpu)) as Hr1 by (destruct Hup1 as (r & Hr & _); by exists r).
  eapply wp_mono.
  { apply wp_activate_task; [apply H2|by eapply tracks_rq_some|eapply tracks_task_some; [exact H2|by exists t]]. }
  cbn beta. intros _ s3 (s' & t' & H' & Ht' & ->).
  rewrite (insert_alter (k_tasks s') p t' (fun t => t <| on_rq := TASK_ON_RQ_QUEUED |>) Ht').
  fold (upd_task p (fun t => t <| on_rq := TASK_ON_RQ_QUEUED |>) s').
  assert (tracks (upd_task p (fun t => t <| on_rq := 1 |>) g1) (upd_task p (fun t => t <| on_rq := TASK_ON_RQ_QUEUED |>) s')) as H3.
  { destruct on_rq_values as [-> _]. apply tracks_upd_task; [commutes|by eapply tracks_frame]. }
  eapply wp_mono; [apply (wp_ttwu_do_wakeup _ _ cpu p fl H3)|].
  - by apply cpu_up_upd_task.
  - apply upd_task_some. by exists t.
  - cbn beta. intros _ s4 H4. rewrite upd_task_twice in H4. exact H4.
Qed.

(** ** Queueing *)

(** The task is left to another CPU, which will activate it. *)
Definition handed_over (cpu : Z) (p : ptr) (migrated : bool) (g : kstate) : kstate :=
  (upd_rq cpu (fun r => r <| ttwu_pending := true |>)
     (upd_task p (fun t => t <| sched_remote_wakeup := migrated |>) g))
  <| k_wake_list := (cpu, p) :: k_wake_list g |>.

Lemma tracks_wake_list g s : tracks g s -> k_wake_list s = k_wake_list g.
Proof. intros [H _]. exact (f_equal k_wake_list H). Qed.

Lemma wp_ttwu_queue_wakelist g s p cpu fl (Q : bool -> kstate -> Prop) :
  tracks g s -> is_Some (k_tasks g !! p) -> is_Some (k_rqs g !! cpu) ->
  (forall s', tracks g s' -> Q false s') ->
  (cpu <> k_this_cpu g -> forall s', tracks (handed_over cpu p (has fl WF_MIGRATED) g) s' -> Q true s') ->
  wp (ttwu_queue_wakelist p cpu fl) Q s.
Proof.
  intros H Hp Hr Hno Hyes. destruct (tracks_rq_some _ _ _ H Hr) as [r Hr1]. unfold ttwu_queue_wakelist, smp_processor_id.
  do 2 apply wp_bind. apply wp_get, wp_ret. apply wp_bind. eapply wp_rq_of; [exact Hr1|].
  destruct (_ && _); [|by apply wp_ret, Hno]. rewrite (tracks_this_cpu _ _ H).
  destruct (cpu =? k_this_cpu g) eqn:Et; [by apply wp_ret, Hno|]. bool_cases.
  unfold __ttwu_queue_wakelist. do 2 apply wp_bind. eapply wp_track_task; [exact H|exact Hp|commutes|].
  intros s1 H1. apply wp_bind. eapply wp_track_rq; [exact H1|exact Hr|commutes|]. intros s2 H2.
  apply wp_modify, wp_ret, Hyes; [done|]. rewrite (tracks_wake_list _ _ H2).
  by apply (tracks_state (fun x => x <| k_wake_list := _ |>)).
Qed.

(** Queued on [cpu]: there and then, or handed over. *)
Definition placed (cpu : Z) (p : ptr) (contributes : bool) (g s' : kstate) : Prop :=
  tracks (enqueued cpu p contributes g) s' \/
  (cpu <> k_this_cpu g /\ exists migrated, tracks (handed_over cpu p migrated g) s').

Lemma enqueued_locked cpu p b g : enqueued cpu p b (locked_g cpu g) = locked_g cpu (enqueued cpu p b g).
Proof. unfold enqueued. destruct b; [rewrite locked_upd_rq by done|]; done. Qed.

Lemma wp_ttwu_queue g s p t cpu r fl :
  tracks g s -> k_tasks g !! p = Some t -> k_rqs g !! cpu = Some r -> rq_lock r = false -> cpu_up g cpu ->
  wp (ttwu_queue p cpu fl) (fun _ s' => placed cpu p (sched_contributes_to_load t) g s') s.
Proof using FL KL.
  intros H Hp Hr Hl Hup. unfold ttwu_queue. apply wp_bind.
  eapply wp_ttwu_queue_wakelist; [exact H|by exists t|by exists r| |]; cycle 1.
  { intros Hne s' H'. apply wp_ret. right. eauto. }
  intros s1 H1. apply wp_bind. eapply wp_track_lock; [exact H1|exact Hr|exact Hl|]. intros s2 H2.
  assert (cpu_up (locked_g cpu g) cpu) as Hup2 by (apply (cpu_up_upd_rq _ _ cpu (fun r => r <| rq_lock := true |>)); done).
  apply wp_bind. eapply (wp_track_frame _ _ false); [exact H2| |].
  { apply wp_update_clock. destruct Hup2 as (r2 & Hr2 & _). eapply tracks_rq_some; [exact H2|by exists r2]. }
  intros s3 H3. apply wp_bind. eapply wp_mono; [apply (wp_ttwu_do_activate _ _ cpu p t fl H3); done|].
  cbn beta. intros _ s4 H4. rewrite enqueued_locked in H4.
  assert (exists r', k_rqs (enqueued cpu p (sched_contributes_to_load t) g) !! cpu = Some r' /\ rq_lock r' = false) as (r' & Hr' & Hl').
  { unfold enqueued. destruct (sched_contributes_to_load t); [|by exists r].
    exists (r <| nr_uninterruptible := u64 (nr_uninterruptible r - 1) |>). split; [|exact Hl].
    transitivity (k_rqs (upd_rq cpu (fun r => r <| nr_uninterruptible := u64 (nr_uninterruptible r - 1) |>) g) !! cpu); [done|].
    by rewrite upd_rq_lookup, decide_True, Hr. }
  eapply wp_track_unlock_rq; [exact H4|exact Hr'|exact Hl'|]. intros s5 H5. by left.
Qed.
(** ** try_to_wake_up *)

(** The states in which a task can be woken without waiting: its lock is free (or
    held by the caller), and so are those of the run queues; it is off its CPU or
    still queued, and it has a CPU to run on. *)
Record wake_pre (held : bool) (s : kstate) (p : ptr) (t : task_struct) : Prop := {
  wk_task : k_tasks s !! p = Some t;
  wk_pi : pi_lock t = held;
  wk_cpus c : c = task_cpu t \/ c ∈ k_online s ->
    exists r, k_rqs s !! c = Some r /\ rq_lock r = false /\ is_Some (k_tasks s !! curr r);
  wk_active : k_active s ⊆ k_online s;
  wk_on_rq : on_rq t = 0 \/ on_rq t = TASK_ON_RQ_QUEUED;
  wk_on_cpu : on_cpu t = 0 \/ on_rq t = TASK_ON_RQ_QUEUED;
  wk_allowed : is_Some (first_allowed s t);
  wk_clamps : clamps_in_range s
}.

(** A sleeper being woken: it no longer waits for I/O. *)
Definition waking (p : ptr) (t : task_struct) (s : kstate) : kstate :=
  upd_task p (fun t => t <| t_state := TASK_WAKING |>)
    (if in_iowait t then upd_rq (task_cpu t) (fun r => r <| nr_iowait := nr_iowait r - 1 |>) s else s).

(** The outcome: nothing if the task is not in one of the states [state]; a task
    still queued just becomes runnable; a sleeper is placed on an allowed CPU. *)
Definition wake_spec (p : ptr) (t : task_struct) (state : Z) (s : kstate) (ret : Z) (s' : kstate) : Prop :=
  if negb (has (t_state t) state) then ret = 0 /\ tracks s s'
  else ret = 1 /\
    if nz (on_rq t) then tracks (upd_task p (fun t => t <| t_state := TASK_RUNNING |>) s) s'
    else exists cpu, is_cpu_allowed s t cpu = true /\ placed cpu p (sched_contributes_to_load t) (waking p t s) s'.

(** The same with a further condition [J cpu] on the final state, about the CPU
    the task is queued on or chosen for. *)
Definition wake_spec_at (J : Z -> kstate -> Prop) (p : ptr) (t : task_struct) (state : Z) (s : kstate) (ret : Z) (s' : kstate) : Prop :=
  if negb (has (t_state t) state) then ret = 0 /\ tracks s s'
  else ret = 1 /\
    if nz (on_rq t) then tracks (upd_task p (fun t => t <| t_state := TASK_RUNNING |>) s) s' /\ J (task_cpu t) s'
    else exists cpu, is_cpu_allowed s t cpu = true /\
      placed cpu p (sched_contributes_to_load t) (waking p t s) s' /\ J cpu s'.

Lemma wake_spec_weaken J p t state s ret s' : wake_spec_at J p t state s ret s' -> wake_spec p t state s ret s'.
Proof.
  unfold wake_spec_at, wake_spec. destruct (negb _); [done|]. intros [E1 H]. split; [exact E1|].
  destruct (nz _); [apply H|]. destruct H as (c & Hc & H & _). by exists c.
Qed.

(** The task is bound to [cpu], off every queue. *)
Record bound_to (cpu : Z) (p : ptr) (t : task_struct) (s s' : kstate) : Prop := {
  bd_task : exists t', k_tasks s' !! p = Some t' /\ task_cpu t' = cpu /\ on_rq t' = 0 /\
    t_sched_class t' = t_sched_class t /\ cpus_mask t' = cpus_mask t;
  bd_online : k_online s' = k_online s
}.

(** The lock of the task held, preemption off. *)
Definition held (p : ptr) (g : kstate) : kstate := locked_pi p (g <| k_preempt := k_preempt g + 1 |>).

(** Such a condition holds at the end if queueing the task establishes it and
    releasing the task keeps it. *)
Record wake_view (J : Z -> kstate -> Prop) (p : ptr) (t : task_struct) (s : kstate) : Prop := {
  wv_self : J (task_cpu t) (upd_task p (fun t => t <| t_state := TASK_RUNNING |>) s);
  wv_remote fl s' : ttwu_remote p fl (held p s) = Ok 1 s' -> J (task_cpu t) s';
  wv_queue cpu fl s1 s' : bound_to cpu p t s s1 -> ttwu_queue p cpu fl s1 = Ok tt s' -> J cpu s';
  wv_unlock cpu s1 s' : J cpu s1 -> unlock_pi p s1 = Ok tt s' -> J cpu s';
  wv_preempt cpu s1 n : J cpu s1 -> J cpu (s1 <| k_preempt := n |>)
}.

Lemma wp_ttwu_remote s p t fl (Q : Z -> kstate -> Prop) :
  wake_pre true s p t -> on_rq t = TASK_ON_RQ_QUEUED ->
  (forall s', tracks (upd_task p (fun t => t <| t_state := TASK_RUNNING |>) s) s' -> Q 1 s') ->
  wp (ttwu_remote p fl) Q s.
Proof using FL KL.
  intros [Ht Hpi Hup Hact Hrq Hcpu Hal Hc] Hq HQ. destruct on_rq_values as [Eq Em].
  destruct (Hup (task_cpu t) (or_introl eq_refl)) as (r & Hr & Hl & Hcur).
  unfold ttwu_remote. apply wp_bind. eapply wp___task_rq_lock.
  { split; [exact Ht|exact Hpi|exact Hr|exact Hl|rewrite Hq, Eq, Em; done|exact Hc]. }
  set (cpu := task_cpu t). assert (cpu_up (locked_g cpu s) cpu) as Hup2.
  { apply (cpu_up_upd_rq s cpu cpu (fun r => r <| rq_lock := true |>)); [done|by exists r]. }
  apply wp_bind. eapply (wp_task_of p t); [exact Ht|].
  unfold task_on_rq_queued. rewrite Hq, Z.eqb_refl. do 2 apply wp_bind.
  eapply (wp_track_frame (locked_g cpu s) _ false); [by apply tracks_refl, clamps_locked_rq| |].
  { apply wp_update_clock. destruct Hup2 as (r2 & Hr2 & _). by exists r2. }
  intros s3 H3. apply wp_bind. eapply wp_mono; [apply (wp_ttwu_do_wakeup _ _ cpu p fl H3 Hup2); by exists t|].
  cbn beta. intros _ s4 H4. rewrite locked_g_upd_task in H4. apply wp_ret, wp_bind.
  eapply wp_track_unlock_rq; [exact H4|exact Hr|exact Hl|]. intros s5 H5. by apply wp_ret, HQ.
Qed.
Lemma waking_facts p t s :
  k_online (waking p t s) = k_online s /\ k_active (waking p t s) = k_active s /\
  k_this_cpu (waking p t s) = k_this_cpu s /\
  (k_tasks s !! p = Some t -> k_tasks (waking p t s) !! p = Some (t <| t_state := TASK_WAKING |>)).
Proof.
  unfold waking. destruct (in_iowait t); (split; [|split; [|split]]); try reflexivity;
    intros H; apply (upd_task_at p (fun t => t <| t_state := TASK_WAKING |>)); exact H.
Qed.

Lemma waking_rq p t s c r :
  k_rqs s !! c = Some r ->
  exists r', k_rqs (waking p t s) !! c = Some r' /\ rq_lock r' = rq_lock r /\ curr r' = curr r.
Proof.
  intros Hr. unfold waking. destruct (in_iowait t); [|by exists r].
  change (k_rqs (upd_task ?q ?f ?x)) with (k_rqs x). rewrite upd_rq_lookup.
  destruct (decide (c = task_cpu t)); [rewrite Hr; by eexists|by exists r].
Qed.

Lemma waking_clamps p t s : clamps_in_range s -> clamps_in_range (waking p t s).
Proof.
  intros H. unfold waking. apply (clamps_upd_task p (fun t => t <| t_state := TASK_WAKING |>)); [by intros ? []|].
  destruct (in_iowait t); [|exact H].
  apply (clamps_upd_rq _ (fun r => r <| nr_iowait := nr_iowait r - 1 |>)); [by intros ? []|exact H].
Qed.

(** Binding a sleeper to the chosen CPU. *)
Lemma waking_bound p t s cpu s' :
  k_tasks s !! p = Some t -> on_rq t = 0 -> kframe false (on_cpu_of p cpu (waking p t s)) s' -> bound_to cpu p t s s'.
Proof.
  intros Ht H0 H. destruct (waking_facts p t s) as (Eon & _ & _ & Hw). specialize (Hw Ht).
  destruct (kframe_task _ _ _ _ _ H (upd_task_at p (fun t => t <| t_cpu := cpu |>) _ _ Hw)) as (t' & Ht' & Et).
  destruct (kframe_masks _ _ _ H) as (_ & _ & Eo). split; [|by rewrite Eo]. exists t'. split; [exact Ht'|].
  by rewrite (erase_field false task_cpu _ _ ltac:(kept_field) Et), (erase_field false on_rq _ _ ltac:(kept_field) Et),
    (erase_field false t_sched_class _ _ ltac:(kept_field) Et), (erase_field false cpus_mask _ _ ltac:(kept_field) Et).
Qed.

Lemma wp_ttwu_sleeping (J : Z -> kstate -> Prop) fuel s p t fl :
  wake_pre true s p t -> on_rq t = 0 ->
  (forall cpu fl s1 s', bound_to cpu p t s s1 -> ttwu_queue p cpu fl s1 = Ok tt s' -> J cpu s') ->
  wp (ttwu_sleeping (S fuel) p fl) (fun _ s' => exists cpu, is_cpu_allowed s t cpu = true /\
    placed cpu p (sched_contributes_to_load t) (waking p t s) s' /\ J cpu s') s.
Proof using FL KL EL.
  intros [Ht Hpi Hup Hact Hrq Hcpu Hal Hc] H0 HJ.
  assert (on_cpu t = 0) as Hoff by (destruct Hcpu as [?|Hq]; [done|rewrite H0, (proj1 on_rq_values) in Hq; done]).
  destruct (waking_facts p t s) as (Eon & Eact & Ethis & Htask). specialize (Htask Ht).
  unfold ttwu_sleeping. apply wp_bind. eapply wp_task_of; [exact Ht|].
  apply wp_bind. apply (wp_mono _ (fun _ s1 => s1 =
    if in_iowait t then upd_rq (task_cpu t) (fun r => r <| nr_iowait := nr_iowait r - 1 |>) s else s)).
  { apply wp_when; intros Ei; rewrite Ei; [|done]. apply wp_upd_rq; [|done].
    destruct (Hup (task_cpu t) (or_introl eq_refl)) as (r & Hr & _). by exists r. }
  cbn beta. intros _ s1 ->. apply wp_bind, wp_upd_task; [destruct (in_iowait t); by exists t|].
  fold (waking p t s). apply wp_bind. eapply wp_task_of; [exact Htask|].
  change (on_cpu (t <| t_state := TASK_WAKING |>)) with (on_cpu t). rewrite Hoff.
  change (nz 0) with false. apply wp_bind, wp_ret, wp_bind, wp_ret, wp_bind.
  eapply wp_mono; [apply wp_select_task_rq; [exact Htask| |by rewrite Eon, Eact]|].
  { rewrite (first_allowed_same s _ t) by done. exact Hal. }
  cbn beta. intros c s1 [-> Hc1]. rewrite (allowed_same s _ t) in Hc1 by done.
  destruct (Hup c (or_intror (allowed_up _ _ _ Hc1 Hact))) as (r & Hr & Hl & [u Hu]).
  destruct (waking_rq p t s c r Hr) as (r' & Hr' & El & Ecur). rewrite Hl in El.
  assert (cpu_up (waking p t s) c) as Hup'.
  { exists r'. split; [exact Hr'|]. rewrite Ecur. apply upd_task_some. destruct (in_iowait t); by exists u. }
  pose proof (tracks_refl _ (waking_clamps p t s Hc)) as Hw.
  assert (forall s2, kframe false (on_cpu_of p c (waking p t s)) s2 -> forall fl', wp (ttwu_queue p c fl') (fun _ s' => exists cpu,
    is_cpu_allowed s t cpu = true /\ placed cpu p (sched_contributes_to_load t) (waking p t s) s' /\ J cpu s') s2) as Hqueue.
  { intros s2 H2 fl'. assert (tracks (waking p t s) s2) as H2'
      by (eapply (tracks_frame true); [etransitivity; [apply kframe_on_cpu|apply kframe_weaken, H2]|exact Hw]).
    eapply wp_mono; [eapply (wp_and_ok _ _ (fun _ s' => J c s'))|cbn beta; intros ? s3 H3; exists c; split; [exact Hc1|exact H3]].
    - by eapply (wp_ttwu_queue _ _ _ _ _ _ _ H2' Htask).
    - intros [] s3 E3. eapply HJ; [by eapply waking_bound|exact E3]. }
  apply wp_bind. eapply wp_task_of; [exact Htask|]. apply wp_bind. destruct (negb _) eqn:Eq.
  - apply wp_bind. eapply wp_mono; [apply wp_set_task_cpu_exact; [apply Hw|by eexists]|]. cbn beta. intros _ s2 H2.
    apply wp_ret, wp_bind. eapply wp_mono; [by apply Hqueue|]. cbn beta. intros _ s3 H3. by apply wp_ret.
  - apply wp_ret, wp_bind. eapply wp_mono; [apply Hqueue|]; [|cbn beta; intros _ s3 H3; by apply wp_ret].
    unfold on_cpu_of. rewrite upd_task_id; [done|]. intros x Hx. rewrite Htask in Hx. injection Hx as <-.
    apply negb_false_iff, Z.eqb_eq in Eq. rewrite <- Eq. by destruct t.
Qed.

Lemma wp_ttwu_locked (J : Z -> kstate -> Prop) fuel s p t state fl :
  wake_pre true s p t ->
  (forall fl s', ttwu_remote p fl s = Ok 1 s' -> J (task_cpu t) s') ->
  (forall cpu fl s1 s', bound_to cpu p t s s1 -> ttwu_queue p cpu fl s1 = Ok tt s' -> J cpu s') ->
  wp (ttwu_locked (S fuel) p state fl) (fun out => wake_spec_at J p t state s out.1) s.
Proof using FL KL EL.
  intros H HJr HJq. pose proof H as [Ht Hpi Hup Hact Hrq Hcpu Hal Hc]. unfold ttwu_locked, wake_spec_at.
  apply wp_bind. eapply wp_task_of; [exact Ht|]. destruct (negb _); [apply wp_ret; by split; [|apply tracks_refl]|].
  apply wp_bind. destruct Hrq as [H0|Hq].
  - rewrite H0. change (nz 0) with false. apply wp_ret. change (nz 0) with false. apply wp_bind.
    eapply wp_mono; [by apply (wp_ttwu_sleeping J)|]. cbn beta. intros fl' s' H'. apply wp_ret. by split.
  - rewrite Hq, (proj1 on_rq_values). change (nz 1) with true.
    assert (wp (ttwu_remote p fl) (fun ret s' => ret = 1 /\ tracks (upd_task p (fun t => t <| t_state := TASK_RUNNING |>) s) s') s)
      as Hr by (eapply wp_ttwu_remote; [exact H|exact Hq|done]).
    eapply wp_mono; [apply (wp_and_ok _ _ (fun ret s' => ret = 1 -> J (task_cpu t) s') _ Hr); intros ? s' E1 ->; by eapply HJr|].
    cbn beta. intros ret s' [[-> H'] H2]. change (nz 1) with true. apply wp_ret. split; [done|]. split; [exact H'|by apply H2].
Qed.
Lemma held_upd_task p f g :
  (forall t, f (t <| pi_lock := true |>) = (f t) <| pi_lock := true |>) ->
  upd_task p f (held p g) = held p (upd_task p f g).
Proof. intros Hf. unfold held. rewrite locked_pi_upd_task by exact Hf. reflexivity. Qed.

Lemma held_upd_rq p c f g : upd_rq c f (held p g) = held p (upd_rq c f g).
Proof. done. Qed.

Lemma held_waking p t t' g :
  in_iowait t' = in_iowait t -> task_cpu t' = task_cpu t -> waking p t' (held p g) = held p (waking p t g).
Proof.
  intros E1 E2. unfold waking. rewrite E1, E2.
  destruct (in_iowait t); [rewrite held_upd_rq|]; by rewrite held_upd_task by done.
Qed.

Lemma held_enqueued c p b g : enqueued c p b (held p g) = held p (enqueued c p b g).
Proof. unfold enqueued. destruct b; [rewrite held_upd_rq|]; by rewrite held_upd_task by done. Qed.

Lemma held_handed_over c p m g : handed_over c p m (held p g) = held p (handed_over c p m g).
Proof. unfold handed_over. by rewrite held_upd_task by done. Qed.

Lemma wp_release {X} g s p t (v : X) (Q : X -> kstate -> Prop) :
  tracks (held p g) s -> k_tasks g !! p = Some t -> pi_lock t = false ->
  (forall s', tracks g s' -> Q v s') ->
  wp (unlock_pi p;; mret v) (fun a => wp (preempt_enable_no_resched;; mret a) Q) s.
Proof.
  intros H Hp Hl HQ. apply wp_bind. eapply wp_track_unlock_pi; [exact H|exact Hp|exact Hl|].
  intros s1 H1. apply wp_ret, wp_bind, wp_modify, wp_ret, HQ. rewrite (tracks_preempt _ _ H1).
  apply (tracks_state (fun x => x <| k_preempt := k_preempt g + 1 - 1 |>)) in H1; [|done|done].
  assert (forall x, x <| k_preempt := k_preempt x + 1 |> <| k_preempt := k_preempt x + 1 - 1 |> = x) as Ex
    by (intros x; rewrite Z.add_simpl_r; by destruct x).
  rewrite Ex in H1. exact H1.
Qed.

(** Releasing the task keeps a view of where it is. *)
Lemma wp_release_view {X} J c g s p t (v : X) (Q : X -> kstate -> Prop) :
  wake_view J p t g -> J c s ->
  wp (unlock_pi p;; mret v) (fun a => wp (preempt_enable_no_resched;; mret a) Q) s ->
  wp (unlock_pi p;; mret v) (fun a => wp (preempt_enable_no_resched;; mret a) (fun a s' => Q a s' /\ J c s')) s.
Proof.
  intros [_ _ _ Hu Hp] HJ. unfold preempt_enable_no_resched, preempt_count_inc, modify, wp, mbind, M_bind, mret, M_ret. cbn.
  destruct (unlock_pi p s) as [[] s1| |] eqn:E1; [|done..]. intros HQ. split; [exact HQ|]. apply Hp. by eapply Hu.
Qed.

(** What is true of the state before, if it was true with the lock held. *)
Lemma wp_release_spec {X} J g s p t state ret (v : X) (Q : X -> kstate -> Prop) :
  wake_pre false g p t -> wake_view J p t g -> wake_spec_at J p (t <| pi_lock := true |>) state (held p g) ret s ->
  (forall s', wake_spec_at J p t state g ret s' -> Q v s') ->
  wp (unlock_pi p;; mret v) (fun a => wp (preempt_enable_no_resched;; mret a) Q) s.
Proof using EL.
  intros [Ht Hpi _ _ _ _ _ _] HV H HQ. revert H HQ. unfold wake_spec_at.
  change (t_state (t <| pi_lock := true |>)) with (t_state t). change (on_rq (t <| pi_lock := true |>)) with (on_rq t).
  change (sched_contributes_to_load (t <| pi_lock := true |>)) with (sched_contributes_to_load t).
  destruct (negb _).
  { intros [-> H] HQ. eapply wp_release; [exact H|exact Ht|exact Hpi|]. intros s' H'. by apply HQ. }
  assert (forall c g', J c s -> tracks (held p g') s -> (exists t', k_tasks g' !! p = Some t' /\ pi_lock t' = false) ->
    (forall s', tracks g' s' -> J c s' -> Q v s') ->
    wp (unlock_pi p;; mret v) (fun a => wp (preempt_enable_no_resched;; mret a) Q) s) as Hrel.
  { intros c g' HJ H (t' & Ht' & Hl') Hk. eapply wp_mono; [eapply (wp_release_view J c g s p t v (fun v' s' => v' = v /\ tracks g' s') HV HJ)|].
    { eapply wp_release; [exact H|exact Ht'|exact Hl'|]. intros s' H'. by split. }
    cbn beta. intros a s1 H1. eapply wp_mono; [exact H1|]. cbn beta. intros a' s' [[-> H'] HJ']. by apply Hk. }
  intros [-> H] HQ. destruct (nz (on_rq t)).
  { destruct H as [H HJ]. rewrite held_upd_task in H by done. eapply Hrel; [exact HJ|exact H|by eexists; split; [apply upd_task_at|]|].
    intros s' H' HJ'. by apply HQ. }
  destruct H as (c & Hc & H & HJ). rewrite (allowed_same g _ t) in Hc by done. rewrite (held_waking p t) in H by done.
  destruct (waking_facts p t g) as (_ & _ & Ethis & Hw). specialize (Hw Ht).
  destruct H as [H|(Hne & m & H)].
  - rewrite held_enqueued in H. eapply Hrel; [exact HJ|exact H| |].
    + eexists. split; [unfold enqueued; apply upd_task_at; destruct (sched_contributes_to_load t); exact Hw|exact Hpi].
    + intros s' H' HJ'. apply HQ. split; [done|]. exists c. split; [exact Hc|]. split; [by left|exact HJ'].
  - rewrite held_handed_over in H. eapply Hrel; [exact HJ|exact H| |].
    + eexists. split; [unfold handed_over; apply (upd_task_at p (fun t => t <| sched_remote_wakeup := m |>)); exact Hw|exact Hpi].
    + intros s' H' HJ'. apply HQ. split; [done|]. exists c. split; [exact Hc|]. split; [|exact HJ']. right. split; [exact Hne|by exists m].
Qed.
Lemma wake_pre_held s p t : wake_pre false s p t -> wake_pre true (held p s) p (t <| pi_lock := true |>).
Proof using EL.
  intros [Ht Hpi Hup Hact Hrq Hcpu Hal Hc]. split.
  - unfold held, locked_pi. by apply (upd_task_at p (fun t => t <| pi_lock := true |>)).
  - done.
  - intros c Hin. destruct (Hup c Hin) as (r & Hr & Hl & Hcur). exists r. split; [exact Hr|split; [exact Hl|]].
    apply (upd_task_some p (fun t => t <| pi_lock := true |>)). exact Hcur.
  - exact Hact.
  - exact Hrq.
  - exact Hcpu.
  - rewrite (first_allowed_same s _ t) by done. exact Hal.
  - apply (clamps_upd_task p (fun t => t <| pi_lock := true |>)) in Hc; [|by intros ? []].
    destruct Hc as [A1 A2 A3]. split; [exact A1|exact A2|exact A3].
Qed.

Lemma try_to_wake_up_out_view J fuel s p t r state fl :
  k_rqs s !! k_this_cpu s = Some r -> wake_pre false s p t -> wake_view J p t s ->
  (p = curr r -> on_rq t = TASK_ON_RQ_QUEUED) ->
  wp (try_to_wake_up_out (S fuel) p state fl) (fun out => wake_spec_at J p t state s out.1) s.
Proof using FL KL EL.
  intros Hr H HV Hself. pose proof H as [Ht Hpi Hup Hact Hrq Hcpu Hal Hc].
  pose proof (wake_pre_held _ _ _ H) as Hheld. unfold try_to_wake_up_out. apply wp_bind, wp_modify.
  set (s0 := s <| k_preempt := _ |>). apply wp_bind. eapply (wp_current r); [exact Hr|].
  destruct (bool_decide (p = curr r)) eqn:Ep.
  - specialize (Hself (bool_decide_eq_true_1 _ Ep)). do 2 apply wp_bind. eapply (wp_task_of p t); [exact Ht|].
    assert (forall x : kstate, x <| k_preempt := k_preempt x + 1 |> <| k_preempt := k_preempt x + 1 + - PREEMPT_DISABLE_OFFSET |> = x)
      as Ex by (intros x; change (- PREEMPT_DISABLE_OFFSET) with (- (1)); rewrite Z.add_opp_r, Z.add_simpl_r; by destruct x).
    unfold wake_spec_at. destruct (negb _).
    + apply wp_ret, wp_bind, wp_modify, wp_ret. split; [done|].
      pose proof (tracks_refl s Hc) as H2. rewrite <- (Ex s) in H2 at 2. exact H2.
    + apply wp_bind, wp_upd_task; [by exists t|]. apply wp_ret, wp_bind, wp_modify, wp_ret. split; [done|].
      rewrite Hself, (proj1 on_rq_values). change (nz 1) with true. cbv iota. subst s0.
      pose proof (Ex (upd_task p (fun t => t <| t_state := TASK_RUNNING |>) s)) as E2.
      assert (tracks (upd_task p (fun t => t <| t_state := TASK_RUNNING |>) s)
        (upd_task p (fun t => t <| t_state := TASK_RUNNING |>) s)) as H2
        by (apply tracks_refl, (clamps_upd_task p (fun t => t <| t_state := TASK_RUNNING |>)); [by intros ? []|exact Hc]).
      rewrite <- E2 in H2 at 2. split; [exact H2|]. pose proof (wv_self _ _ _ _ HV) as HJ. rewrite <- E2 in HJ. exact HJ.
  - do 2 apply wp_bind. eapply wp_lock_pi; [exact Ht|exact Hpi|].
    assert (s0 <| k_preempt := k_preempt s0 + 1 |> <| k_tasks := <[p := t <| pi_lock := true |>]> (k_tasks s0) |> = held p s) as Eh.
    { rewrite (insert_alter (k_tasks s0) p t (fun t => t <| pi_lock := true |>) Ht). reflexivity. }
    first [rewrite Eh|idtac]. apply wp_bind.
    eapply wp_mono; [apply (wp_ttwu_locked J _ _ _ _ _ _ Hheld); [apply HV|]|].
    { intros cpu fl' s1 s' [Hb Ho] E1. by eapply (wv_queue _ _ _ _ HV). }
    cbn beta. intros ret s1 H1.
    apply (wp_release_spec J s s1 p t state ret.1 ret (fun v s' => wake_spec_at J p t state s v.1 s') H HV H1). intros s' H'. exact H'.
Qed.

Lemma try_to_wake_up_view J fuel s p t r state fl :
  k_rqs s !! k_this_cpu s = Some r -> wake_pre false s p t -> wake_view J p t s ->
  (p = curr r -> on_rq t = TASK_ON_RQ_QUEUED) ->
  wp (try_to_wake_up (S fuel) p state fl) (wake_spec_at J p t state s) s.
Proof using FL KL EL.
  intros Hr H HV Hself. apply wp_bind. eapply wp_mono; [by eapply try_to_wake_up_out_view|].
  cbn beta. intros [ret fl'] s' H'. by apply wp_ret.
Qed.

Lemma try_to_wake_up_out_correct fuel s p t r state fl :
  k_rqs s !! k_this_cpu s = Some r -> wake_pre false s p t ->
  (p = curr r -> on_rq t = TASK_ON_RQ_QUEUED) ->
  wp (try_to_wake_up_out (S fuel) p state fl) (fun out => wake_spec p t state s out.1) s.
Proof using FL KL EL.
  intros Hr H Hself. eapply wp_mono; [by apply (try_to_wake_up_out_view (fun _ _ => True) fuel s p t r)|].
  cbn beta. intros out s'. apply wake_spec_weaken.
Qed.

Lemma try_to_wake_up_correct fuel s p t r state fl :
  k_rqs s !! k_this_cpu s = Some r -> wake_pre false s p t ->
  (p = curr r -> on_rq t = TASK_ON_RQ_QUEUED) ->
  wp (try_to_wake_up (S fuel) p state fl) (wake_spec p t state s) s.
Proof using FL KL EL.
  intros Hr H Hself. apply wp_bind. eapply wp_mono; [by eapply try_to_wake_up_out_correct|].
  cbn beta. intros [ret fl'] s' H'. by apply wp_ret.
Qed.
End Activate.
