(* ===== verification/Landing.v ===== *)
(** * Landing: the run queue a woken or new task ends on

    The CPU of a task is a field the tracking of [ScheduleSpec] forgets, because
    balancing may change it.  Here it is followed through a wakeup: which CPU the
    task is bound to, and whether it is queued there, when the call returns. *)

From S2P Require Import Prelude Task KernelApi Prio Rq RqClock Uclamp UclampTrace.
From S2P Require Import State Sched SchedFacts ScheduleSpec Setprio Views TaskLock Machine.
From S2P Require Import Affinity AffinitySpec Ttwu TtwuSpec.

(** ** Where a task is *)

Definition berth (t : task_struct) : Z * Z * sched_class * gset Z := (task_cpu t, on_rq t, t_sched_class t, cpus_mask t).
Definition same_berths (s s' : kstate) : Prop := berth <$> k_tasks s' = berth <$> k_tasks s /\ k_online s' = k_online s.

#[export] Instance berths_view : View berth (fun _ => tt) same_berths.
Proof.
  split; try done.
  - split; [by split|]. intros s1 s2 s3 [H1 H2] [H3 H4]. split; congruence.
  - intros s s' p t t' Ht He E1 _ E2. split; [rewrite E1; by eapply fmap_put|exact E2].
  - intros s s' c r r' _ _ E1 _ E2. split; [by rewrite E1|exact E2].
  - intros s s' E1 _ E2. split; [by rewrite E1|exact E2].
Qed.
#[export] Instance berths_blind {U : UclampApi} : ClampBlind berth (fun _ => tt).
Proof. split; [|done..]. by intros t []. Qed.

Lemma berths_kframe {U : UclampApi} s s' : kframe false s s' -> same_berths s s'.
Proof. intros H. split; [by apply fmap_kframe|]. apply (kframe_masks _ _ _ H). Qed.

Lemma berth_at s s' p t : same_berths s s' -> k_tasks s !! p = Some t ->
  exists t', k_tasks s' !! p = Some t' /\ task_cpu t' = task_cpu t /\ on_rq t' = on_rq t /\
    t_sched_class t' = t_sched_class t /\ cpus_mask t' = cpus_mask t.
Proof.
  intros [H _] Ht. destruct (fmap_at _ _ _ _ _ H Ht) as (t' & Ht' & E1). exists t'.
  unfold berth in E1. injection E1 as -> -> -> ->. by split_and!.
Qed.

(** The classes that push a task they just queued to another CPU. *)
Definition pushing (c : sched_class) : Prop := c = rt_sched_class \/ c = dl_sched_class.

(** Queued on [cpu], or pushed from there by its class to a CPU it may run on. *)
Definition lands {F : FlagApi} (cpu : Z) (p : ptr) (s : kstate) : Prop :=
  exists t, k_tasks s !! p = Some t /\ on_rq t = TASK_ON_RQ_QUEUED /\
    (task_cpu t = cpu \/ pushing (t_sched_class t) /\ task_cpu t ∈ cpus_mask t /\ task_cpu t ∈ k_online s).

(** Bound to [cpu] and off every queue, waiting to be queued there. *)
Definition awaits (cpu : Z) (p : ptr) (s : kstate) : Prop :=
  exists t, k_tasks s !! p = Some t /\ on_rq t = 0 /\ task_cpu t = cpu.

Lemma lands_berths {F : FlagApi} cpu p s s' : same_berths s s' -> lands cpu p s -> lands cpu p s'.
Proof.
  intros H (t & Ht & E1 & E2). destruct (berth_at _ _ _ _ H Ht) as (t' & Ht' & H1 & H2 & H3 & H4).
  exists t'. rewrite H1, H2, H3, H4, (proj2 H). by split_and!.
Qed.
Lemma awaits_berths cpu p s s' : same_berths s s' -> awaits cpu p s -> awaits cpu p s'.
Proof.
  intros H (t & Ht & E1 & E2). destruct (berth_at _ _ _ _ H Ht) as (t' & Ht' & H1 & H2 & _).
  exists t'. by rewrite H1, H2.
Qed.

(** What [task_woken] may do with the task: nothing, or push it. *)
Class WokenLaws {F : FlagApi} (K : SchedClassOps) : Prop :=
  woken_lands cpu p s t : k_tasks s !! p = Some t -> task_cpu t = cpu -> on_rq t = TASK_ON_RQ_QUEUED ->
    lands cpu p (op_task_woken (t_sched_class t) cpu p s).

Section Landing.
Context {P : PrioApi} {Y : PolicyApi} {U : UclampApi} {A : AttrFlagApi} {F : FlagApi} {FL : FlagLaws F}
  {C : ClockConfig} {K : SchedClassOps} {KL : SchedClassLaws K} {WK : WokenLaws K} {V : SetprioEnv} {E : MigrateEnv}
  {EL : MigrateLaws E} {W : WakeEnv}.

Lemma berths_check_preempt cpu p fl : quiet same_berths (check_preempt_curr cpu p fl).
Proof using KL.
  apply quiet_check_preempt_curr; [intros c s|intros s]; apply berths_kframe; [apply law_check_preempt|apply law_clock_skip].
Qed.

Lemma do_wakeup_lands cpu p fl s s' t :
  k_tasks s !! p = Some t -> task_cpu t = cpu -> on_rq t = TASK_ON_RQ_QUEUED ->
  ttwu_do_wakeup cpu p fl s = Ok tt s' -> lands cpu p s'.
Proof using KL WK.
  intros Ht Hcpu Hrq. unfold ttwu_do_wakeup. intros (? & s1 & E1%berths_check_preempt & H)%bind_inv.
  apply bind_inv in H as (? & s2 & E2 & H). apply (quiet_set_task (R := same_berths)) in E2; [|done].
  apply bind_inv in H as (t2 & ? & [-> Ht2]%task_of_inv & H). apply bind_inv in H as (? & s3 & [= _ <-] & H).
  destruct (berth_at _ _ _ _ (transitivity E1 E2) Ht) as (t2' & Ht2' & H1 & H2 & _).
  rewrite Ht2 in Ht2'. injection Ht2' as <-. apply (quiet_set_rq (R := same_berths)) in H; [|done].
  eapply lands_berths; [exact H|]. apply woken_lands; [exact Ht2|by rewrite H1|by rewrite H2].
Qed.

Lemma activate_lands cpu p fl s s' t :
  k_tasks s !! p = Some t -> activate_task cpu p fl s = Ok tt s' ->
  exists t', k_tasks s' !! p = Some t' /\ task_cpu t' = task_cpu t /\ on_rq t' = TASK_ON_RQ_QUEUED.
Proof using KL.
  intros Ht. unfold activate_task. intros (? & s1 & E1 & H)%bind_inv.
  apply (enqueue_task_inv (R := same_berths)) in E1 as (y & ty & V1 & _ & _ & ->).
  assert (same_berths s (op_enqueue_task (t_sched_class ty) cpu p fl y)) as V2
    by (etransitivity; [exact V1|apply berths_kframe, law_enqueue]).
  destruct (berth_at _ _ _ _ V2 Ht) as (t1 & Ht1 & H1 & _). unfold set_task in H.
  apply bind_inv in H as (t1' & ? & [-> Ht1']%task_of_inv & [= <-]). rewrite Ht1 in Ht1'. injection Ht1' as <-.
  exists (t1 <| on_rq := TASK_ON_RQ_QUEUED |>). split; [apply (lookup_insert_eq (k_tasks _))|]. split; [exact H1|done].
Qed.

Lemma do_activate_lands cpu p fl s s' t :
  k_tasks s !! p = Some t -> task_cpu t = cpu -> ttwu_do_activate cpu p fl s = Ok tt s' -> lands cpu p s'.
Proof using KL WK.
  intros Ht Hcpu. unfold ttwu_do_activate. intros (t0 & ? & [-> _]%task_of_inv & H)%bind_inv.
  apply bind_inv in H as (? & s1 & E1 & H). cbv zeta in H.
  apply (quiet_when (R := same_berths)) in E1; [|by apply quiet_set_rq].
  destruct (berth_at _ _ _ _ E1 Ht) as (t1 & Ht1 & H1 & _). apply bind_inv in H as ([] & s2 & E2 & H).
  destruct (activate_lands _ _ _ _ _ _ Ht1 E2) as (t2 & Ht2 & H2 & H3).
  eapply do_wakeup_lands; [exact Ht2| |exact H3|exact H]. congruence.
Qed.

(** Queued by [ttwu_queue], or left on the list of its CPU. *)
Lemma queue_lands cpu p fl t s s1 s' :
  bound_to cpu p t s s1 -> ttwu_queue p cpu fl s1 = Ok tt s' -> lands cpu p s' \/ awaits cpu p s'.
Proof using KL WK.
  intros [(t1 & Ht1 & Hcpu & Hrq & _) _]. unfold ttwu_queue. intros (queued & s2 & E1 & H)%bind_inv.
  assert (same_berths s1 s2) as V1.
  { revert E1. unfold ttwu_queue_wakelist, smp_processor_id. apply quiet_bind; [apply quiet_bind; [apply quiet_get|intros; apply quiet_ret]|].
    intros this. apply quiet_bind; [apply quiet_rq_of|]. intros r. destruct (_ && _); [|apply quiet_ret].
    destruct (_ =? _); [apply quiet_ret|]. apply quiet_bind; [|intros; apply quiet_ret]. unfold __ttwu_queue_wakelist.
    apply quiet_bind; [by apply quiet_set_task|]. intros _. apply quiet_bind; [by apply quiet_set_rq|]. intros _.
    by apply quiet_fields. }
  destruct queued.
  - injection H as <-. right. eapply awaits_berths; [exact V1|]. by exists t1.
  - left. apply bind_inv in H as (? & s3 & E3%(quiet_lock_rq (R := same_berths)) & H).
    apply bind_inv in H as (? & s4 & E4%(quiet_update_clock (R := same_berths)) & H).
    apply bind_inv in H as ([] & s5 & E5 & H%(quiet_unlock_rq (R := same_berths))).
    destruct (berth_at _ _ _ _ (transitivity V1 (transitivity E3 E4)) Ht1) as (t4 & Ht4 & H1 & _).
    eapply lands_berths; [exact H|]. eapply do_activate_lands; [exact Ht4|congruence|exact E5].
Qed.

Lemma task_rq_lock_berths p s cpu s' t :
  k_tasks s !! p = Some t -> __task_rq_lock p s = Ok cpu s' -> cpu = task_cpu t /\ same_berths s s'.
Proof.
  intros Ht. unfold __task_rq_lock. intros (t0 & ? & [-> Ht0]%task_of_inv & H)%bind_inv.
  rewrite Ht in Ht0. injection Ht0 as <-. cbv zeta in H.
  apply bind_inv in H as (? & s2 & E2%(quiet_lock_rq (R := same_berths)) & H).
  apply bind_inv in H as (t2 & ? & [-> Ht2]%task_of_inv & H).
  destruct (_ && _); [by injection H as <- <-|by apply bind_inv in H as (? & ? & _ & H)].
Qed.

Lemma remote_lands p t fl s s' :
  k_tasks s !! p = Some t -> ttwu_remote p fl s = Ok 1 s' -> lands (task_cpu t) p s'.
Proof using KL WK.
  intros Ht. unfold ttwu_remote. intros (cpu & s1 & E1 & H)%bind_inv.
  destruct (task_rq_lock_berths _ _ _ _ _ Ht E1) as [-> V1]. destruct (berth_at _ _ _ _ V1 Ht) as (t2 & Ht2 & Hcpu & _).
  apply bind_inv in H as (t2' & ? & [-> Ht2']%task_of_inv & H). rewrite Ht2 in Ht2'. injection Ht2' as <-.
  apply bind_inv in H as (ret & s3 & E3 & H). apply bind_inv in H as (? & s4 & E4%(quiet_unlock_rq (R := same_berths)) & H).
  injection H as -> <-. unfold task_on_rq_queued in E3. destruct (on_rq t2 =? _) eqn:Eq; [|done]. bool_cases.
  apply bind_inv in E3 as (? & s5 & E5%(quiet_update_clock (R := same_berths)) & H).
  apply bind_inv in H as ([] & s6 & E6 & [= <-]). destruct (berth_at _ _ _ _ E5 Ht2) as (t5 & Ht5 & H5 & H6 & _).
  eapply lands_berths; [exact E4|]. eapply do_wakeup_lands; [exact Ht5| | |exact E6]; congruence.
Qed.

Lemma lands_or_awaits_tasks cpu p s s' :
  k_tasks s' = k_tasks s -> k_online s' = k_online s -> lands cpu p s \/ awaits cpu p s -> lands cpu p s' \/ awaits cpu p s'.
Proof. unfold lands, awaits. by intros -> ->. Qed.

(** The view of the wakeup: where the task is. *)
Lemma wake_landing p t s :
  k_tasks s !! p = Some t -> on_rq t = 0 \/ on_rq t = TASK_ON_RQ_QUEUED ->
  wake_view (fun cpu s' => lands cpu p s' \/ awaits cpu p s') p t s.
Proof using KL WK.
  intros Ht Hrq. assert (k_tasks (held p s) !! p = Some (t <| pi_lock := true |>)) as Hh
    by exact (upd_task_at p (fun t => t <| pi_lock := true |>) _ _ Ht).
  split.
  - pose proof (upd_task_at p (fun t => t <| t_state := TASK_RUNNING |>) _ _ Ht) as H1.
    destruct Hrq as [H0|Hq]; [right; by eexists|left; eexists; split_and!; [exact H1|exact Hq|by left]].
  - intros fl s' H. left. exact (remote_lands _ _ _ _ _ Hh H).
  - intros cpu fl s1 s'. apply queue_lands.
  - intros cpu s1 s' H Hu%(quiet_unlock_pi (R := same_berths)).
    destruct H as [H|H]; [left; by eapply lands_berths|right; by eapply awaits_berths].
  - intros cpu s1 n. by apply lands_or_awaits_tasks.
Qed.

(** What a wakeup does, the run queue included: a task in none of the states
    [state] stays as it is; one that was queued stays on its run queue; a sleeper
    is queued on a CPU it may run on, or bound to such a CPU and put at the head
    of its list, for it to queue. *)
Definition wake_lands (p : ptr) (t : task_struct) (state : Z) (s : kstate) (ret : Z) (s' : kstate) : Prop :=
  if negb (has (t_state t) state) then ret = 0 /\ tracks s s'
  else ret = 1 /\
    if nz (on_rq t) then tracks (upd_task p (fun t => t <| t_state := TASK_RUNNING |>) s) s' /\ lands (task_cpu t) p s'
    else exists cpu, is_cpu_allowed s t cpu = true /\
      (tracks (enqueued cpu p (sched_contributes_to_load t) (waking p t s)) s' /\ lands cpu p s' \/
       cpu <> k_this_cpu s /\ (exists migrated, tracks (handed_over cpu p migrated (waking p t s)) s') /\ awaits cpu p s').

(** A queued task does not wait to be queued, and the other way round. *)
Lemma queued_lands g s cpu p t :
  tracks g s -> k_tasks g !! p = Some t -> lands cpu p s \/ awaits cpu p s ->
  if nz (on_rq t) then lands cpu p s else awaits cpu p s.
Proof.
  intros H Ht. destruct (tracks_on_rq _ _ _ _ H Ht) as (t' & Ht' & <-). intros [HL|HA].
  - pose proof HL as (t1 & Ht1 & E1 & _). rewrite Ht' in Ht1. injection Ht1 as <-. by rewrite E1, (proj1 on_rq_values).
  - pose proof HA as (t1 & Ht1 & E1 & _). rewrite Ht' in Ht1. injection Ht1 as <-. by rewrite E1.
Qed.

Lemma wake_spec_lands p t state s ret s' :
  k_tasks s !! p = Some t ->
  wake_spec_at (fun cpu s' => lands cpu p s' \/ awaits cpu p s') p t state s ret s' -> wake_lands p t state s ret s'.
Proof.
  intros Ht. unfold wake_spec_at, wake_lands. destruct (negb _); [done|]. intros [E1 H]. split; [exact E1|].
  destruct (nz (on_rq t)) eqn:Eq.
  - destruct H as [H1 H2]. split; [exact H1|].
    apply (queued_lands _ _ _ _ _ H1 (upd_task_at _ _ _ _ Ht)) in H2. change (on_rq (t <| t_state := _ |>)) with (on_rq t) in H2.
    by rewrite Eq in H2.
  - destruct H as (cpu & Hc & [H|(Hne & m & H)] & HJ); exists cpu; (split; [exact Hc|]);
      destruct (waking_facts p t s) as (_ & _ & Ethis & Hw); specialize (Hw Ht).
    + left. split; [exact H|]. refine (queued_lands _ _ _ _ (t <| t_state := TASK_WAKING |> <| on_rq := 1 |> <| t_state := TASK_RUNNING |>) H _ HJ).
      unfold enqueued.
      apply (upd_task_at p (fun t => t <| on_rq := 1 |> <| t_state := TASK_RUNNING |>)).
      destruct (sched_contributes_to_load t); exact Hw.
    + right. rewrite Ethis in Hne. split; [exact Hne|]. split; [by exists m|].
      assert (k_tasks (handed_over cpu p m (waking p t s)) !! p =
        Some (t <| t_state := TASK_WAKING |> <| sched_remote_wakeup := m |>)) as H1
        by exact (upd_task_at p (fun t => t <| sched_remote_wakeup := m |>) _ _ Hw).
      apply (queued_lands _ _ _ _ _ H H1) in HJ. change (on_rq (t <| _ := _ |> <| _ := _ |>)) with (on_rq t) in HJ.
      by rewrite Eq in HJ.
Qed.

(** C8. [try_to_wake_up] gives the task back to the run queues, whichever way the
    wakeup takes: a task in none of the given states is left alone and 0 is
    returned; otherwise 1 is returned, a task that was still queued becomes
    runnable on the run queue it was on, and a sleeper is taken out of the I/O and
    uninterruptible counts and queued on a CPU it is allowed on, or bound to such
    a CPU, not this one, and put on its wake list.  The task is on the queue of
    exactly that CPU when the call returns, unless its real-time or deadline class
    pushed it on from there to a CPU of its mask that is up.  The search for the
    CPU needs one round; nothing waits, nothing BUGs, every lock is free again. *)
Theorem try_to_wake_up_refines fuel s p t r state fl :
  k_rqs s !! k_this_cpu s = Some r -> wake_pre false s p t ->
  (p = curr r -> on_rq t = TASK_ON_RQ_QUEUED) ->
  exists ret s', try_to_wake_up (S fuel) p state fl s = Ok ret s' /\ wake_lands p t state s ret s'.
Proof using FL KL WK EL.
  intros Hr H Hself. pose proof (wake_landing p t s (wk_task _ _ _ _ H) (wk_on_rq _ _ _ _ H)) as HV.
  destruct (wp_elim _ _ _ (try_to_wake_up_view _ fuel s p t r state fl Hr H HV Hself)) as (ret & s' & E1 & H').
  exists ret, s'. split; [exact E1|]. by apply wake_spec_lands; [apply H|].
Qed.
End Landing.
