(* ===== verification/Keeps.v ===== *)
(** * Keeps: what the calls of the scheduler leave alone

    A calculus for "this call does not touch that": the links of wake queues and
    who runs where ([on_cpu] and [curr]).  [keeps m] composes over sequencing and
    branching, so that a whole handler is settled by its primitive updates; the
    hint database [keeps] collects the calls it is known for. *)

From S2P Require Import Prelude Task KernelApi Prio Rq RqClock Uclamp UclampTrace.
From S2P Require Import State Sched SchedFacts ScheduleSpec Setprio TaskLock.
From S2P Require Import Affinity AffinitySpec Ttwu TtwuSpec.

(** ** What is kept: wake queue links, who runs where, clamp indices *)

Definition view (s : kstate) : gmap ptr (option ptr * Z) * gmap Z ptr :=
  ((fun t => (wake_q_next t, on_cpu t)) <$> k_tasks s, curr <$> k_rqs s).

Record lframe {U : UclampApi} (s s' : kstate) : Prop := {
  lf_view : view s' = view s;
  lf_clamps : clamps_in_range s'
}.

(** Started with clamps in range, [m] keeps them and the links, if it returns. *)
Definition keeps_at {U : UclampApi} (I : kstate -> Prop) {X} (m : M X) : Prop :=
  forall s a s', I s -> clamps_in_range s -> m s = Ok a s' -> lframe s s'.
Abbreviation keeps := (keeps_at (fun _ => True)).

Create HintDb keeps.

Section Keeps.
Context {U : UclampApi}.

Lemma lframe_trans s1 s2 s3 : lframe s1 s2 -> lframe s2 s3 -> lframe s1 s3.
Proof. intros [E1 _] [E2 H]. split; [by rewrite E2|exact H]. Qed.

Lemma view_same w s s' : core_same w s s' -> view s' = view s.
Proof.
  intros H. unfold view. f_equal; apply map_eq; intros q; rewrite !lookup_fmap.
  - apply (f_equal (fun s => k_tasks s !! q)) in H.
    change (k_tasks (erase w ?x)) with (erase_task w <$> k_tasks x) in H. rewrite !lookup_fmap in H.
    destruct (k_tasks s' !! q) as [t'|], (k_tasks s !! q) as [t|]; cbn [fmap option_fmap option_map] in *; [|done..].
    apply (inj Some) in H as E. by rewrite (erase_field w wake_q_next _ _ ltac:(kept_field) E), (erase_field w on_cpu _ _ ltac:(kept_field) E).
  - apply (f_equal (fun s => k_rqs s !! q)) in H.
    change (k_rqs (erase w ?x)) with (erase_rq <$> k_rqs x) in H. rewrite !lookup_fmap in H.
    destruct (k_rqs s' !! q) as [t'|], (k_rqs s !! q) as [t|]; cbn [fmap option_fmap option_map] in *; [|done..].
    apply (inj Some) in H as E. by rewrite (erase_rq_field curr _ _ ltac:(done) E).
Qed.

Lemma view_put_task s p t t' :
  k_tasks s !! p = Some t -> wake_q_next t' = wake_q_next t -> on_cpu t' = on_cpu t ->
  view (s <| k_tasks := <[p := t']> (k_tasks s) |>) = view s.
Proof.
  intros Ht E1 E2. unfold view. rsimpl. rewrite <- (insert_id (k_tasks s) p t Ht) at 2.
  by rewrite !fmap_insert, E1, E2.
Qed.

Lemma view_put_rq s c r r' :
  k_rqs s !! c = Some r -> curr r' = curr r -> view (s <| k_rqs := <[c := r']> (k_rqs s) |>) = view s.
Proof.
  intros Hr E1. unfold view. rsimpl. rewrite <- (insert_id (k_rqs s) c r Hr) at 2. by rewrite !fmap_insert, E1.
Qed.

Lemma kframe_lframe w s s' : clamps_in_range s -> kframe w s s' -> lframe s s'.
Proof. intros Hc [H1 H2]. split; [by eapply view_same|auto]. Qed.

Lemma keeps_bind I {X Y} (m : M X) (f : X -> M Y) :
  keeps_at I m -> (forall a, keeps (f a)) -> keeps_at I (m ≫= f).
Proof.
  intros Hm Hf s a s' Hs Hc. unfold mbind, M_bind. destruct (m s) as [b s1| |] eqn:E1; [|done..]. intros E2.
  pose proof (Hm _ _ _ Hs Hc E1) as H1. eapply lframe_trans; [exact H1|].
  eapply Hf; [done|apply H1|exact E2].
Qed.

Lemma keeps_weaken (I : kstate -> Prop) {X} (m : M X) : keeps m -> keeps_at I m.
Proof. intros H s a s' _. by apply H. Qed.

Lemma keeps_ret I {X} (x : X) : keeps_at I (mret x).
Proof. intros s a s' _ Hc [= _ <-]. by split. Qed.
Lemma keeps_get I : keeps_at I get.
Proof. intros s a s' _ Hc [= _ <-]. by split. Qed.
Lemma keeps_bug I {X} : keeps_at I (bug (A := X)).
Proof. done. Qed.
Lemma keeps_hang I {X} : keeps_at I (hang (A := X)).
Proof. done. Qed.
Lemma keeps_rq_of I c : keeps_at I (rq_of c).
Proof. intros s a s' _ Hc. unfold rq_of. destruct (k_rqs s !! c); [|done]. intros [= _ <-]. by split. Qed.
Lemma keeps_task_of I p : keeps_at I (task_of p).
Proof. intros s a s' _ Hc. unfold task_of. destruct (k_tasks s !! p); [|done]. intros [= _ <-]. by split. Qed.

Lemma keeps_when I b m : keeps_at I m -> keeps_at I (when b m).
Proof. intros Hm. destruct b; [exact Hm|apply keeps_ret]. Qed.
Lemma keeps_if I {X} (b : bool) (m1 m2 : M X) : keeps_at I m1 -> keeps_at I m2 -> keeps_at I (if b then m1 else m2).
Proof. by destruct b. Qed.

Lemma keeps_modify I f : (forall s, I s -> clamps_in_range s -> lframe s (f s)) -> keeps_at I (modify f).
Proof. intros Hf s a s' Hs Hc [= _ <-]. by apply Hf. Qed.

(** A task that was read, at once. *)
Lemma keeps_task_bind {X} p (f : task_struct -> M X) :
  (forall t, keeps_at (fun s => k_tasks s !! p = Some t) (f t)) -> keeps (task_of p ≫= f).
Proof.
  intros Hf s a s' _ Hc. unfold mbind, M_bind, task_of. destruct (k_tasks s !! p) as [t|] eqn:Ht; [|done].
  by apply Hf.
Qed.

(** Updates that keep the link and the clamps. *)
Definition keeping (f : task_struct -> task_struct) : Prop :=
  forall t, (wake_q_next (f t) = wake_q_next t /\ on_cpu (f t) = on_cpu t) /\
    forall id, uclamp (f t) id = uclamp t id /\ uclamp_req (f t) id = uclamp_req t id.

Lemma keeps_put_task p t t' :
  wake_q_next t' = wake_q_next t /\ on_cpu t' = on_cpu t ->
  (forall id, uclamp t' id = uclamp t id /\ uclamp_req t' id = uclamp_req t id) ->
  keeps_at (fun s => k_tasks s !! p = Some t) (put_task p t').
Proof.
  intros [He He'] Hu. apply keeps_modify. intros s Ht Hc. split; [|by eapply clamps_put_task].
  by apply (view_put_task s p t).
Qed.

Lemma keeps_set_task p f : keeping f -> keeps (set_task p f).
Proof. intros Hf. apply keeps_task_bind. intros t. by apply keeps_put_task; apply Hf. Qed.

Lemma keeps_set_rq c f :
  (forall r, curr (f r) = curr r) -> (forall r id, rq_uclamp (f r) id = rq_uclamp r id) -> keeps (set_rq c f).
Proof.
  intros Hcur Hf s a s' _ Hc. unfold set_rq, mbind, M_bind, rq_of. destruct (k_rqs s !! c) as [r|] eqn:Hr; [|done].
  intros [= _ <-]. split; [by apply (view_put_rq s c r)|].
  rewrite (insert_alter (k_rqs s) c r f Hr). by apply (clamps_upd_rq c f).
Qed.

(** A total specification gives preservation, if a failed premise is a BUG. *)
Lemma keeps_wp {X} (m : M X) w :
  (forall s, clamps_in_range s ->
     wp m (fun _ s' => kframe w s s') s \/ forall a s', m s <> Ok a s') -> keeps m.
Proof.
  intros H s a s' _ Hc E. destruct (H s Hc) as [Hw|Hn]; [|by apply Hn in E].
  eapply kframe_lframe; [done|]. exact (wp_ok _ _ _ _ _ Hw E).
Qed.

Lemma lframe_fields s s' :
  clamps_in_range s -> k_tasks s' = k_tasks s -> k_rqs s' = k_rqs s -> k_sys s' = k_sys s -> lframe s s'.
Proof.
  intros [H1 H2 H3] E1 E2 E3. split; [unfold view; by rewrite E1, E2|].
  split; [rewrite E1; exact H1|rewrite E2; exact H2|rewrite E3; exact H3].
Qed.
End Keeps.

#[export] Hint Resolve keeps_ret keeps_get keeps_bug keeps_hang keeps_rq_of keeps_task_of : keeps.

(** Go through the calls of a body. *)
Ltac keeping_update := intros ?; split; [split; reflexivity|intros []; split; reflexivity].
Ltac keeps_step :=
  lazymatch goal with
  | |- keeps_at _ (when _ _) => apply keeps_when
  | |- keeps_at _ (set_task _ _) => apply keeps_weaken, keeps_set_task; keeping_update
  | |- keeps_at _ (set_rq _ _) => apply keeps_weaken, keeps_set_rq; [intros ?; reflexivity|intros ? []; reflexivity]
  | |- keeps_at (fun _ => True) (mbind _ (task_of _)) => apply keeps_task_bind; intros ?
  | |- keeps_at _ (mbind _ _) => apply keeps_bind; [|intros ?]
  | |- keeps_at _ (let (_, _) := ?x in _) => destruct x
  | |- keeps_at _ (if ?b then _ else _) => destruct b
  | |- keeps_at _ (match ?x with _ => _ end) => destruct x
  | |- keeps_at _ (let x := _ in _) => cbv zeta
  end.
Ltac keeps_go := repeat (cbv zeta; cbn beta; first [solve [auto with keeps] | keeps_step]).

Section Calls.
Context {P : PrioApi} {Y : PolicyApi} {U : UclampApi} {A : AttrFlagApi} {F : FlagApi}
  {C : ClockConfig} {K : SchedClassOps} {KL : SchedClassLaws K} {V : SetprioEnv} {E : MigrateEnv}
  {EL : MigrateLaws E} {W : WakeEnv}.

(** Hooks of the classes, by their laws. *)
Lemma keeps_hook I f w : (forall s, kframe w s (f s)) -> keeps_at I (modify f).
Proof. intros Hf. apply keeps_modify. intros s _ Hc. by eapply kframe_lframe. Qed.

Lemma keeps_fields I f :
  (forall s, k_tasks (f s) = k_tasks s /\ k_rqs (f s) = k_rqs s /\ k_sys (f s) = k_sys s) -> keeps_at I (modify f).
Proof. intros Hf. apply keeps_modify. intros s _ Hc. destruct (Hf s) as (? & ? & ?). by apply lframe_fields. Qed.

Lemma keeps_preempt I v : keeps_at I (preempt_count_inc v).
Proof. by apply keeps_fields. Qed.

Lemma keeps_current I : keeps_at I current.
Proof. apply keeps_weaken. unfold current, smp_processor_id. keeps_go. Qed.

Lemma keeps_lock_rq I c : keeps_at I (lock_rq c).
Proof.
  apply keeps_weaken. intros s a s' _ Hc. unfold lock_rq, mbind, M_bind, rq_of.
  destruct (k_rqs s !! c) as [r|] eqn:Hr; [|done]. destruct (rq_lock r); [done|]. intros [= _ <-].
  split; [refine (view_put_rq s c r _ Hr _); reflexivity|].
  change (k_rqs _) with (k_rqs s) at 1. rewrite (insert_alter (k_rqs s) c r (fun r => r <| rq_lock := true |>) Hr).
  apply (clamps_upd_rq c (fun r => r <| rq_lock := true |>)) in Hc; [|by intros ? []].
  destruct Hc as [A1 A2 A3]. split; [exact A1|exact A2|exact A3].
Qed.
Lemma keeps_unlock_rq I c : keeps_at I (unlock_rq c).
Proof.
  apply keeps_weaken. intros s a s' _ Hc. unfold unlock_rq, mbind, M_bind, rq_of.
  destruct (k_rqs s !! c) as [r|] eqn:Hr; [|done]. destruct (rq_lock r); [|done]. intros [= _ <-].
  split; [refine (view_put_rq s c r _ Hr _); reflexivity|].
  change (k_rqs _) with (k_rqs s) at 1. rewrite (insert_alter (k_rqs s) c r (fun r => r <| rq_lock := false |>) Hr).
  apply (clamps_upd_rq c (fun r => r <| rq_lock := false |>)) in Hc; [|by intros ? []].
  destruct Hc as [A1 A2 A3]. split; [exact A1|exact A2|exact A3].
Qed.

Lemma keeps_lock_pi I p : keeps_at I (lock_pi p).
Proof.
  apply keeps_weaken. unfold lock_pi. apply keeps_task_bind. intros t. destruct (pi_lock t); [apply keeps_hang|].
  intros s a s' Ht Hc [= _ <-]. eapply lframe_trans.
  - apply (lframe_fields s (s <| k_preempt := k_preempt s + 1 |>)); done.
  - eapply (keeps_put_task p t (t <| pi_lock := true |>)); [done|by intros []|exact Ht| |reflexivity].
    destruct Hc as [A1 A2 A3]. split; [exact A1|exact A2|exact A3].
Qed.

Lemma keeps_unlock_pi I p : keeps_at I (unlock_pi p).
Proof.
  apply keeps_weaken. unfold unlock_pi. apply keeps_task_bind. intros t. destruct (pi_lock t); [|apply keeps_bug].
  apply keeps_bind; [|intros _; apply keeps_preempt]. apply keeps_put_task; [done|by intros []].
Qed.

Lemma keeps_update_clock I c : keeps_at I (update_clock c).
Proof.
  apply keeps_weaken, (keeps_wp _ false). intros s Hc. destruct (k_rqs s !! c) as [r|] eqn:Hr.
  - left. apply wp_update_clock. by exists r.
  - right. intros a s'. unfold update_clock, mbind, M_bind, get, set_rq, mbind, M_bind, rq_of. by rewrite Hr.
Qed.

(** Out of range, a queue operation is a BUG. *)
Lemma missing_rq {X} c (k : rq -> M X) (b : bool) s a s' :
  k_rqs s !! c = None -> (when b (update_clock c);; r ← rq_of c; k r) s <> Ok a s'.
Proof.
  intros Hr. unfold mbind, M_bind, when, update_clock, set_rq, mbind, M_bind, rq_of, get, mret, M_ret.
  destruct b; by rewrite Hr.
Qed.
Lemma clock_tasks c (b : bool) s a s' : when b (update_clock c) s = Ok a s' -> k_tasks s' = k_tasks s.
Proof.
  unfold when, update_clock, set_rq, put_rq, modify, mbind, M_bind, rq_of, get, mret, M_ret.
  destruct b; [|by intros [= _ <-]]. destruct (k_rqs s !! c); [|done]. by intros [= _ <-].
Qed.
Lemma missing_task {X} p c (k : rq -> task_struct -> M X) (b : bool) s a s' :
  k_tasks s !! p = None -> (when b (update_clock c);; r ← rq_of c; t ← task_of p; k r t) s <> Ok a s'.
Proof.
  intros Hp. unfold mbind, M_bind. destruct (when b (update_clock c) s) as [[] s1| |] eqn:E1; [|done..].
  apply clock_tasks in E1. unfold rq_of, task_of. destruct (k_rqs s1 !! c); [|done]. by rewrite E1, Hp.
Qed.

Lemma keeps_dequeue_task I c p fl : keeps_at I (dequeue_task c p fl).
Proof.
  apply keeps_weaken, (keeps_wp _ false). intros s Hc.
  destruct (k_rqs s !! c) as [r|] eqn:Hr; [|right; intros; by apply missing_rq].
  destruct (k_tasks s !! p) as [t|] eqn:Ht; [|right; intros; by apply missing_task].
  left. apply wp_dequeue_task; [done|by exists r|by exists t].
Qed.

Lemma enqueue_task_alt c p fl s :
  enqueue_task c p fl s = (when (negb (has fl ENQUEUE_NOCLOCK)) (update_clock c);; r ← rq_of c; t ← task_of p;
    s ← get; '(r, t) ← lift_option (uclamp_rq_inc class_uclamp_enabled (k_sys s) (group_of s p) r t);
    put_rq c r;; put_task p t;; modify (op_enqueue_task (t_sched_class t) c p fl)) s.
Proof.
  unfold enqueue_task, mbind, M_bind, get, rq_of, task_of. destruct (when _ _ s) as [? s1| |]; [|done..].
  destruct (k_rqs s1 !! c); [|done]. by destruct (k_tasks s1 !! p).
Qed.

Lemma keeps_enqueue_task I c p fl : keeps_at I (enqueue_task c p fl).
Proof.
  apply keeps_weaken, (keeps_wp _ false). intros s Hc.
  destruct (k_rqs s !! c) as [r|] eqn:Hr; [|right; intros; rewrite enqueue_task_alt; by apply missing_rq].
  destruct (k_tasks s !! p) as [t|] eqn:Ht; [|right; intros; rewrite enqueue_task_alt; by apply missing_task].
  left. apply wp_enqueue_task; [done|by exists r|by exists t].
Qed.
#[local] Hint Resolve keeps_preempt keeps_current keeps_lock_rq keeps_unlock_rq keeps_lock_pi keeps_unlock_pi
  keeps_update_clock keeps_dequeue_task keeps_enqueue_task : keeps.

Lemma keeps_put_prev_task I c p : keeps_at I (put_prev_task c p).
Proof using KL. apply keeps_weaken. unfold put_prev_task. keeps_go. by apply (keeps_hook _ _ false), law_put_prev. Qed.
Lemma keeps_set_next_task I c p : keeps_at I (set_next_task c p).
Proof using KL. apply keeps_weaken. unfold set_next_task. keeps_go. by apply (keeps_hook _ _ false), law_set_next. Qed.
#[local] Hint Resolve keeps_put_prev_task keeps_set_next_task : keeps.

(** A hook that changes a mask, of a task that is there. *)
Lemma lframe_mask p m s s' :
  is_Some (k_tasks s !! p) -> clamps_in_range s -> kframe false (mask_changed p m s) s' -> lframe s s'.
Proof.
  intros [t Ht] Hc Hf. pose proof (mask_changed_clamps p m s Hc) as Hc1. apply (kframe_lframe _ _ _ Hc1) in Hf.
  eapply lframe_trans; [|exact Hf]. split; [|exact Hc1].
  unfold mask_changed, upd_task. rewrite <- (insert_alter (k_tasks s) p t _ Ht). by apply (view_put_task s p t).
Qed.

Lemma keeps_do_set_cpus_allowed I p m : keeps_at I (do_set_cpus_allowed p m).
Proof using KL EL.
  apply keeps_weaken. unfold do_set_cpus_allowed, task_current. keeps_go.
  apply keeps_modify. intros s1 Ht Hc. apply (lframe_mask p m); [by eexists|exact Hc|]. apply law_set_allowed. by eexists.
Qed.
#[local] Hint Resolve keeps_do_set_cpus_allowed : keeps.

Lemma keeps_fallback_loop fuel st p : keeps (fallback_loop fuel st p).
Proof using KL EL.
  revert st. induction fuel as [|fuel IH]; intros st; [apply keeps_hang|]. cbn [fallback_loop].
  apply keeps_bind; [auto with keeps|]. intros s0. apply keeps_task_bind. intros t.
  destruct (first_allowed s0 t); [auto with keeps|]. destruct st; [|by keeps_go|by keeps_go].
  apply keeps_if; [|by keeps_go]. apply keeps_bind; [|intros _; apply IH].
  apply keeps_modify. intros s Ht Hc. destruct (law_cpuset_fallback p s) as [m Hm]; [by exists t|].
  by apply (lframe_mask p m); [exists t| |].
Qed.
#[local] Hint Resolve keeps_fallback_loop : keeps.

Lemma keeps_select_task_rq fuel p cpu sd fl : keeps (select_task_rq fuel p cpu sd fl).
Proof using KL EL. unfold select_task_rq, select_fallback_rq. keeps_go; by apply keeps_weaken, keeps_fallback_loop. Qed.

Lemma keeps_set_task_cpu I p cpu : keeps_at I (set_task_cpu p cpu).
Proof using KL EL.
  apply keeps_weaken, (keeps_wp _ true). intros s Hc. destruct (k_tasks s !! p) as [t|] eqn:Ht.
  - left. eapply wp_mono; [apply wp_set_task_cpu_exact; [done|by exists t]|]. cbn beta. intros _ s' H.
    etransitivity; [apply (kframe_on_cpu p cpu)|by apply kframe_weaken].
  - right. intros a s'. unfold set_task_cpu, mbind, M_bind, task_of. by rewrite Ht.
Qed.

Lemma keeps_resched_curr I cpu : keeps_at I (resched_curr cpu).
Proof.
  apply keeps_weaken, (keeps_wp _ false). intros s Hc. destruct (k_rqs s !! cpu) as [r|] eqn:Hr.
  - destruct (k_tasks s !! curr r) as [t|] eqn:Ht.
    + left. eapply wp_resched_curr; [exact Hr|by exists t].
    + right. intros a s'. unfold resched_curr, mbind, M_bind, rq_of, task_of. by rewrite Hr, Ht.
  - right. intros a s'. unfold resched_curr, mbind, M_bind, rq_of. by rewrite Hr.
Qed.
#[local] Hint Resolve keeps_set_task_cpu keeps_resched_curr keeps_select_task_rq : keeps.

Lemma keeps_check_preempt_curr I cpu p fl : keeps_at I (check_preempt_curr cpu p fl).
Proof using KL.
  apply keeps_weaken. unfold check_preempt_curr. keeps_go.
  - by apply (keeps_hook _ _ false), law_check_preempt.
  - by apply (keeps_hook _ _ false), law_clock_skip.
Qed.
#[local] Hint Resolve keeps_check_preempt_curr : keeps.

Lemma keeps_idle_average I cpu : keeps_at I (set_rq cpu idle_average).
Proof. apply keeps_weaken, keeps_set_rq; [intros r; apply (erase_rq_field curr); [done|]|]; apply idle_average_erase. Qed.
#[local] Hint Resolve keeps_idle_average : keeps.

Lemma keeps_ttwu_do_wakeup I cpu p fl : keeps_at I (ttwu_do_wakeup cpu p fl).
Proof using KL.
  apply keeps_weaken. unfold ttwu_do_wakeup. keeps_go. by apply (keeps_hook _ _ true), law_task_woken.
Qed.
#[local] Hint Resolve keeps_ttwu_do_wakeup : keeps.

Lemma keeps_ttwu_do_activate I cpu p fl : keeps_at I (ttwu_do_activate cpu p fl).
Proof using KL. apply keeps_weaken. unfold ttwu_do_activate, activate_task. keeps_go. Qed.
#[local] Hint Resolve keeps_ttwu_do_activate : keeps.

Lemma keeps_ttwu_remote I p fl : keeps_at I (ttwu_remote p fl).
Proof using KL. apply keeps_weaken. unfold ttwu_remote, __task_rq_lock. keeps_go. Qed.

Lemma keeps_ttwu_queue_wakelist I p cpu fl : keeps_at I (ttwu_queue_wakelist p cpu fl).
Proof. apply keeps_weaken. unfold ttwu_queue_wakelist, __ttwu_queue_wakelist, smp_processor_id. keeps_go. by apply keeps_fields. Qed.
#[local] Hint Resolve keeps_ttwu_remote keeps_ttwu_queue_wakelist : keeps.

Lemma keeps_ttwu_queue I p cpu fl : keeps_at I (ttwu_queue p cpu fl).
Proof using KL. apply keeps_weaken. unfold ttwu_queue. keeps_go. Qed.
#[local] Hint Resolve keeps_ttwu_queue : keeps.

Lemma keeps_ttwu_sleeping I fuel p fl : keeps_at I (ttwu_sleeping fuel p fl).
Proof using KL EL. apply keeps_weaken. unfold ttwu_sleeping. keeps_go. Qed.
#[local] Hint Resolve keeps_ttwu_sleeping : keeps.

Lemma keeps_try_to_wake_up fuel p state fl : keeps (try_to_wake_up fuel p state fl).
Proof using KL EL.
  unfold try_to_wake_up, try_to_wake_up_out, ttwu_locked, preempt_disable, preempt_enable_no_resched. keeps_go.
Qed.

(** ** Further entry points *)

Lemma keeps_ttwu_pending_loop cpu l : keeps (ttwu_pending_loop cpu l).
Proof using KL EL. induction l as [|p l IH]; cbn [ttwu_pending_loop]; keeps_go; done. Qed.
#[local] Hint Resolve keeps_ttwu_pending_loop : keeps.

Lemma keeps_sched_ttwu_pending l : keeps (sched_ttwu_pending l).
Proof using KL EL. unfold sched_ttwu_pending, smp_processor_id. keeps_go. Qed.

Lemma keeps_move_queued_task I cpu p new_cpu : keeps_at I (move_queued_task cpu p new_cpu).
Proof using KL EL. apply keeps_weaken. unfold move_queued_task. keeps_go. Qed.
#[local] Hint Resolve keeps_move_queued_task : keeps.

Lemma keeps_irqs I b : keeps_at I (modify (fun s => s <| k_irqs_off := b |>)).
Proof. by apply keeps_fields. Qed.
#[local] Hint Resolve keeps_irqs : keeps.

(** Pending functions of other CPUs are run first: their effect is theirs. *)
Lemma keeps_migration_cpu_stop p dest :
  (forall s, kframe true s (flush_smp_call_function_from_idle s)) -> keeps (migration_cpu_stop p dest).
Proof using KL EL.
  intros Hf. unfold migration_cpu_stop, __migrate_task, smp_processor_id, local_irq_disable, local_irq_enable. keeps_go.
  by apply (keeps_hook _ _ true).
Qed.

Lemma keeps_callbacks I l cpu : keeps_at I (foldr (fun f k => modify (op_callback f cpu);; k) (mret tt) l).
Proof using KL.
  apply keeps_weaken. induction l as [|f l IH]; cbn [foldr]; [auto with keeps|].
  apply keeps_bind; [by apply (keeps_hook _ _ true), law_callback|done].
Qed.
#[local] Hint Resolve keeps_callbacks : keeps.

(** The run queue that was read, written back at once. *)
Lemma keeps_rq_bind {X} c (f : rq -> M X) :
  (forall r, keeps_at (fun s => k_rqs s !! c = Some r) (f r)) -> keeps (rq_of c ≫= f).
Proof.
  intros Hf s a s' _ Hc. unfold mbind, M_bind, rq_of. destruct (k_rqs s !! c) as [r|] eqn:Hr; [|done].
  by apply Hf.
Qed.
Lemma keeps_put_rq c r r' :
  curr r' = curr r -> (forall id, rq_uclamp r' id = rq_uclamp r id) ->
  keeps_at (fun s => k_rqs s !! c = Some r) (put_rq c r').
Proof.
  intros He Hu. apply keeps_modify. intros s Hr Hc. split; [by apply (view_put_rq s c r)|].
  destruct Hc as [A1 A2 A3]. split; [done| |done]. intros d x. rsimpl.
  intros [[<- <-]|[_ Hd]]%lookup_insert_Some id; [rewrite Hu|]; by eapply A2.
Qed.

Lemma keeps_balance_callback I cpu : keeps_at I (balance_callback cpu).
Proof using KL.
  apply keeps_weaken. unfold balance_callback, __balance_callback. apply keeps_bind; [auto with keeps|]. intros r.
  destruct (Rq.balance_callback r); [auto with keeps|]. apply keeps_bind; [auto with keeps|]. intros _.
  apply keeps_rq_bind. intros r1. apply keeps_bind; [apply keeps_put_rq; [done|by intros []]|]. intros _. keeps_go.
Qed.
#[local] Hint Resolve keeps_balance_callback : keeps.

Lemma keeps_task_opt I o : keeps_at I (task_opt o).
Proof. apply keeps_weaken. unfold task_opt. keeps_go. Qed.
#[local] Hint Resolve keeps_task_opt : keeps.

Lemma keeps_check_class_changed I cpu p c o : keeps_at I (check_class_changed cpu p c o).
Proof using KL.
  apply keeps_weaken. unfold check_class_changed. keeps_go.
  - by apply (keeps_hook _ _ false), law_switched_from.
  - by apply (keeps_hook _ _ false), law_switched_to.
  - by apply (keeps_hook _ _ false), law_prio_changed.
Qed.
#[local] Hint Resolve keeps_check_class_changed : keeps.

(** The class and the boosting flags of a task are not what is kept. *)
Lemma setprio_class_keeps t w pr o fl : let '(t', _) := setprio_class t w pr o fl in
  (wake_q_next t' = wake_q_next t /\ on_cpu t' = on_cpu t) /\
  forall id, uclamp t' id = uclamp t id /\ uclamp_req t' id = uclamp_req t id.
Proof. unfold setprio_class. repeat case_match; simplify_eq; (split; [done|by intros []]). Qed.

(** Reading does not change what is known. *)
Lemma keeps_read_bind I {X X'} (m : M X) (f : X -> M X') :
  (forall s a s', m s = Ok a s' -> s' = s) -> (forall a, keeps_at I (f a)) -> keeps_at I (m ≫= f).
Proof.
  intros Hm Hf s a s' Hs Hc. unfold mbind, M_bind. destruct (m s) as [b s1| |] eqn:E1; [|done..].
  apply Hm in E1 as ->. by apply Hf.
Qed.
Lemma task_opt_reads o s a s' : task_opt o s = Ok a s' -> s' = s.
Proof. unfold task_opt, mbind, M_bind, task_of. destruct o as [p|]; [destruct (k_tasks s !! p)|]; by intros [= _ <-]. Qed.

Lemma keeps_setprio_requeue cpu p w pr : keeps (setprio_requeue cpu p w pr).
Proof using KL.
  unfold setprio_requeue, task_current. apply keeps_task_bind. intros t0. cbv zeta.
  apply keeps_bind; [keeps_go|]. intros running. do 2 (apply keeps_bind; [keeps_go|]; intros _).
  apply keeps_task_bind. intros t. apply keeps_read_bind; [apply task_opt_reads|]. intros w'.
  match goal with |- context [setprio_class t w' pr ?o ?fl] =>
    pose proof (setprio_class_keeps t w' pr o fl) as Hk; destruct (setprio_class t w' pr o fl) as [t1 fl1] end.
  destruct Hk as [Hl Hu].
  apply keeps_bind; [by apply keeps_put_task|]. intros _. keeps_go.
Qed.
#[local] Hint Resolve keeps_setprio_requeue : keeps.

Lemma keeps_rt_mutex_setprio p w : keeps (rt_mutex_setprio p w).
Proof using KL.
  unfold rt_mutex_setprio, __task_rq_lock, preempt_disable, preempt_enable_no_resched. keeps_go.
Qed.
End Calls.
