(* ===== verification/WakeQ.v ===== *)
(** * WakeQ: wake queues (core.c)

    A wake queue is a list threaded through the tasks.  Adding is idempotent and
    keeps the order; waking the queue wakes each of its tasks once, oldest first,
    although the wakeups themselves change the tasks the queue runs through. *)

From S2P Require Import Prelude Task KernelApi Prio Rq RqClock Uclamp UclampTrace.
From S2P Require Import State Sched SchedFacts ScheduleSpec Setprio TaskLock.
From S2P Require Import Affinity AffinitySpec Ttwu TtwuSpec Keeps.

(** ** The links *)

Definition links (s : kstate) : gmap ptr (option ptr) := wake_q_next <$> k_tasks s.

Lemma view_links s s' : view s' = view s -> links s' = links s.
Proof.
  intros H. apply (f_equal (fun v => fst <$> v.1)) in H. unfold view in H. cbn [fst] in H.
  rewrite <- !map_fmap_compose in H. exact H.
Qed.

(** ** The list threaded through the tasks *)

Section Chain.
Variable WAKE_Q_TAIL : ptr.

(** From [node] the links run through [l] to the tail marker. *)
Fixpoint chain (lk : gmap ptr (option ptr)) (node : ptr) (l : list ptr) : Prop :=
  match l with
  | [] => node = WAKE_Q_TAIL
  | p :: l => node = p /\ exists next, lk !! p = Some (Some next) /\ chain lk next l
  end.

Lemma chain_ext lk lk' node l : (forall q, q ∈ l -> lk' !! q = lk !! q) -> chain lk node l -> chain lk' node l.
Proof.
  revert node. induction l as [|p l IH]; intros node He; [done|]. intros [-> (next & Hl & Hc)]. split; [done|].
  exists next. rewrite He by left. split; [done|]. apply IH; [|done]. intros q Hq. apply He. by right.
Qed.

Lemma chain_queued lk node l q : chain lk node l -> q ∈ l -> exists next, lk !! q = Some (Some next).
Proof.
  revert node. induction l as [|p l IH]; intros node; [by intros _ ?%not_elem_of_nil|].
  intros [-> (next & Hl & Hc)] [->|Hq]%elem_of_cons; [by exists next|by eapply IH].
Qed.

Lemma chain_snoc lk node l q p :
  chain lk node l -> NoDup l -> last l = Some q -> p ∉ l ->
  chain (<[q := Some p]> (<[p := Some WAKE_Q_TAIL]> lk)) node (l ++ [p]).
Proof.
  revert node. induction l as [|a l IH]; intros node; [done|].
  intros [-> (next & Hl & Hc)] [Ha Hnd]%NoDup_cons Hlast Hp. split; [done|]. destruct l as [|b l].
  - injection Hlast as ->. exists p. split; [apply lookup_insert_eq|]. split; [done|]. exists WAKE_Q_TAIL.
    split; [|done]. apply not_elem_of_cons in Hp as [Hp _]. rewrite lookup_insert_ne by done. apply lookup_insert_eq.
  - apply not_elem_of_cons in Hp as [Hpa Hp].
    assert (a <> q) as Haq by (intros ->; by apply Ha, last_Some_elem_of).
    exists next. rewrite !lookup_insert_ne by done. split; [done|]. by apply IH.
Qed.
End Chain.

Section Calls.
Context {P : PrioApi} {Y : PolicyApi} {U : UclampApi} {A : AttrFlagApi} {F : FlagApi}
  {C : ClockConfig} {K : SchedClassOps} {KL : SchedClassLaws K} {V : SetprioEnv} {E : MigrateEnv}
  {EL : MigrateLaws E} {W : WakeEnv}.
(** ** The queue *)


Variable WAKE_Q_TAIL : ptr.

Record wq_ok (s : kstate) (head : wake_q_head) (l : list ptr) : Prop := {
  wq_chain : chain WAKE_Q_TAIL (links s) (wq_first head) l;
  wq_nodup : NoDup l;
  wq_tail : WAKE_Q_TAIL ∉ l;
  wq_last : wq_lastp head = last l
}.

Lemma links_put s p t : links (s <| k_tasks := <[p := t]> (k_tasks s) |>) = <[p := wake_q_next t]> (links s).
Proof. unfold links. rsimpl. by rewrite fmap_insert. Qed.
Lemma links_some s p t : k_tasks s !! p = Some t -> links s !! p = Some (wake_q_next t).
Proof. intros Ht. unfold links. by rewrite lookup_fmap, Ht. Qed.
Lemma links_task s p o : links s !! p = Some o -> exists t, k_tasks s !! p = Some t /\ wake_q_next t = o.
Proof. unfold links. rewrite lookup_fmap. intros (t & Ht & E')%fmap_Some. by exists t. Qed.

(** A task but for its link. *)
Definition unlinked (t : task_struct) : task_struct := t <| wake_q_next := None |>.

(** [s'] is [s], but for links and [n q] more references to each task [q]. *)
Definition refs_added (n : ptr -> Z) (s s' : kstate) : Prop :=
  (exists ts, s' = s <| k_tasks := ts |>) /\
  forall q, unlinked <$> k_tasks s' !! q = (fun t => (unlinked t) <| usage := usage t + n q |>) <$> k_tasks s !! q.

Lemma usage_zero t : t <| usage := usage t + 0 |> = t.
Proof. rewrite Z.add_0_r. by destruct t. Qed.

Lemma refs_none s : refs_added (fun _ => 0) s s.
Proof.
  split; [exists (k_tasks s); by destruct s|]. intros q. destruct (k_tasks s !! q) as [t|]; [|done].
  cbn. f_equal. symmetry. apply (usage_zero (unlinked t)).
Qed.

Lemma refs_put s p t t' d :
  k_tasks s !! p = Some t -> unlinked t' = (unlinked t) <| usage := usage t + d |> ->
  refs_added (fun q => if decide (q = p) then d else 0) s (s <| k_tasks := <[p := t']> (k_tasks s) |>).
Proof.
  intros Ht E'. split; [by eexists|]. intros q. rsimpl. destruct (decide (q = p)) as [->|Hne].
  - rewrite lookup_insert_eq, Ht. cbn. by rewrite E'.
  - rewrite lookup_insert_ne by done. destruct (k_tasks s !! q) as [u|]; [|done]. cbn. f_equal. symmetry.
    apply (usage_zero (unlinked u)).
Qed.

Lemma refs_trans n m s1 s2 s3 :
  refs_added n s1 s2 -> refs_added m s2 s3 -> refs_added (fun q => n q + m q) s1 s3.
Proof.
  intros [[ts ->] H1] [[ts' ->] H2]. split; [by exists ts'|]. intros q. rewrite H2. specialize (H1 q).
  assert (forall o : option task_struct, (fun t => (unlinked t) <| usage := usage t + m q |>) <$> o =
    (fun u => u <| usage := usage u + m q |>) <$> (unlinked <$> o)) as Eo by (by intros []).
  rewrite Eo, H1. destruct (k_tasks s1 !! q) as [t|]; [|done]. cbn. by rewrite Z.add_assoc.
Qed.

Lemma refs_ext n m s s' : (forall q, n q = m q) -> refs_added n s s' -> refs_added m s s'.
Proof.
  intros He [Hs H]. split; [done|]. intros q. rewrite H, He. done.
Qed.

Lemma refs_clamps n s s' : refs_added n s s' -> clamps_in_range s -> clamps_in_range s'.
Proof.
  intros [[ts ->] H] [H1 H2 H3]. split; [|exact H2|exact H3]. intros q t' Ht'. specialize (H q). rewrite Ht' in H.
  destruct (k_tasks s !! q) as [t|] eqn:Ht; [|done]. pose proof (inj Some _ _ H) as E'. specialize (H1 q t Ht).
  intros id. specialize (H1 id).
  assert (uclamp t' id = uclamp t id /\ uclamp_req t' id = uclamp_req t id) as [-> ->]; [|exact H1].
  destruct id; split;
    [exact (f_equal (fun t => uclamp t UCLAMP_MIN) E')|exact (f_equal (fun t => uclamp_req t UCLAMP_MIN) E')
    |exact (f_equal (fun t => uclamp t UCLAMP_MAX) E')|exact (f_equal (fun t => uclamp_req t UCLAMP_MAX) E')].
Qed.

(** A task that is not queued goes to the end, with a reference. *)
Definition added (s : kstate) (head : wake_q_head) (l : list ptr) (p : ptr) : Prop :=
  exists head' s', wake_q_add WAKE_Q_TAIL head p s = Ok head' s' /\ wq_ok s' head' (l ++ [p]) /\
    refs_added (fun q => if decide (q = p) then 1 else 0) s s' /\
    forall q, q <> p -> q ∉ l -> links s' !! q = links s !! q.

(** The new node: the end of the queue, and then counted. *)
Definition tail_node (t : task_struct) : task_struct := t <| wake_q_next := Some WAKE_Q_TAIL |>.
Definition held (t : task_struct) : task_struct := t <| usage := usage t + 1 |>.

Lemma new_node_ok s head l p t :
  wq_ok s head l -> k_tasks s !! p = Some t -> wake_q_next t = None -> p <> WAKE_Q_TAIL ->
  (p ∉ l) /\ NoDup (l ++ [p]) /\ (WAKE_Q_TAIL ∉ l ++ [p]).
Proof.
  intros [Hc Hnd Htl Hlast] Ht Hn Hp.
  assert (p ∉ l) as Hpl.
  { intros Hin. destruct (chain_queued _ _ _ _ _ Hc Hin) as [next Hl]. rewrite (links_some s p t Ht), Hn in Hl. done. }
  split; [done|]. split.
  - apply NoDup_app; split; [done|split; [|apply NoDup_singleton]]; intros q Hq ->%list_elem_of_singleton; done.
  - rewrite elem_of_app, list_elem_of_singleton. intros [?|?]; [by apply Htl|by subst].
Qed.

Lemma wake_q_add_first s head p t :
  wq_ok s head [] -> k_tasks s !! p = Some t -> wake_q_next t = None -> p <> WAKE_Q_TAIL -> added s head [] p.
Proof.
  intros Hok Ht Hn Hp. destruct (new_node_ok _ _ _ _ _ Hok Ht Hn Hp) as (_ & Hnd & Htl). destruct Hok as [_ _ _ El].
  set (t1 := tail_node t). set (s1 := s <| k_tasks := <[p := t1]> (k_tasks s) |>).
  assert (k_tasks s1 !! p = Some t1) as Ht1 by apply lookup_insert_eq.
  set (s2 := s1 <| k_tasks := <[p := held t1]> (k_tasks s1) |>).
  assert (links s2 = <[p := Some WAKE_Q_TAIL]> (links s)) as Elk.
  { subst s2. rewrite links_put. subst s1. rewrite !links_put. cbn. by rewrite insert_insert_eq. }
  exists (mk_wake_q_head p (Some p)), s2. split; [|split; [split|split]].
  - unfold wake_q_add. rewrite (bind_ok _ _ s (mk_wake_q_head p (Some p), true) s1).
    + cbv beta iota zeta delta [when]. by rewrite (bind_ok _ _ _ _ _ (set_task_run p held s1 t1 Ht1)).
    + unfold __wake_q_add. rewrite (bind_ok _ _ _ _ _ (task_of_run p s t Ht)), Hn, El.
      by rewrite (bind_ok (put_task p t1) _ s tt s1 eq_refl).
  - rewrite Elk. split; [done|]. exists WAKE_Q_TAIL. split; [apply lookup_insert_eq|done].
  - exact Hnd.
  - exact Htl.
  - done.
  - eapply refs_ext; [|eapply refs_trans; [apply (refs_put s p t t1 0 Ht); symmetry; apply (usage_zero (unlinked t))
      |apply (refs_put s1 p t1 (held t1) 1 Ht1); reflexivity]].
    intros d. cbn. by destruct (decide (d = p)).
  - intros d Hd Hdl. by rewrite Elk, lookup_insert_ne.
Qed.

Lemma wake_q_add_last s head l q p t :
  wq_ok s head l -> wq_lastp head = Some q ->
  k_tasks s !! p = Some t -> wake_q_next t = None -> p <> WAKE_Q_TAIL -> added s head l p.
Proof.
  intros Hok El Ht Hn Hp. destruct (new_node_ok _ _ _ _ _ Hok Ht Hn Hp) as (Hpl & Hnd & Htl).
  destruct Hok as [Hc Hnd0 Htl0 Hlast]. rewrite El in Hlast.
  assert (q ∈ l) as Hq by (by apply last_Some_elem_of). assert (q <> p) as Hqp by (by intros ->).
  destruct (chain_queued _ _ _ _ _ Hc Hq) as [next Hl]. destruct (links_task _ _ _ Hl) as (u & Hu & Hun).
  set (t1 := tail_node t). set (s1 := s <| k_tasks := <[p := t1]> (k_tasks s) |>).
  set (u1 := u <| wake_q_next := Some p |>). set (s2 := s1 <| k_tasks := <[q := u1]> (k_tasks s1) |>).
  assert (k_tasks s1 !! q = Some u) as Hu1 by (subst s1; rsimpl; by rewrite lookup_insert_ne).
  assert (k_tasks s2 !! p = Some t1) as Ht2 by (subst s2 s1; rsimpl; rewrite lookup_insert_ne by done; apply lookup_insert_eq).
  set (s3 := s2 <| k_tasks := <[p := held t1]> (k_tasks s2) |>).
  assert (links s3 = <[q := Some p]> (<[p := Some WAKE_Q_TAIL]> (links s))) as Elk.
  { subst s3. rewrite links_put. subst s2 s1. rewrite !links_put. cbn. rewrite insert_insert_ne by done.
    by rewrite insert_insert_eq. }
  exists (mk_wake_q_head (wq_first head) (Some p)), s3. split; [|split; [split|split]].
  - unfold wake_q_add. rewrite (bind_ok _ _ s (mk_wake_q_head (wq_first head) (Some p), true) s2).
    + cbv beta iota zeta delta [when]. by rewrite (bind_ok _ _ _ _ _ (set_task_run p held s2 t1 Ht2)).
    + unfold __wake_q_add. rewrite (bind_ok _ _ _ _ _ (task_of_run p s t Ht)), Hn, El. fold (tail_node t). fold t1.
      rewrite (bind_ok (put_task p t1) _ s tt s1 eq_refl), bind_bind.
      by rewrite (bind_ok _ _ _ _ _ (set_task_run q (fun t => t <| wake_q_next := Some p |>) s1 u Hu1)).
  - rewrite Elk. cbn [wq_first]. by apply chain_snoc.
  - exact Hnd.
  - exact Htl.
  - by rewrite last_snoc.
  - eapply refs_ext; [|eapply refs_trans; [apply (refs_put s p t t1 0 Ht); symmetry; apply (usage_zero (unlinked t))
      |eapply refs_trans; [apply (refs_put s1 q u u1 0 Hu1); symmetry; apply (usage_zero (unlinked u))
      |apply (refs_put s2 p t1 (held t1) 1 Ht2); reflexivity]]].
    intros d. cbn. by destruct (decide (d = p)), (decide (d = q)).
  - intros d Hd Hdl. rewrite Elk, !lookup_insert_ne; [done|done|by intros ->].
Qed.

Lemma wake_q_add_new s head l p t :
  wq_ok s head l -> k_tasks s !! p = Some t -> wake_q_next t = None -> p <> WAKE_Q_TAIL -> added s head l p.
Proof.
  intros Hok Ht Hn Hp. destruct (wq_lastp head) as [q|] eqn:El; [by eapply wake_q_add_last|].
  pose proof (wq_last _ _ _ Hok) as Hl. rewrite El in Hl. symmetry in Hl. apply last_None in Hl as ->.
  by eapply wake_q_add_first.
Qed.

Lemma wake_q_add_old s head p t next :
  k_tasks s !! p = Some t -> wake_q_next t = Some next -> wake_q_add WAKE_Q_TAIL head p s = Ok head s.
Proof.
  intros Ht Hn. unfold wake_q_add. rewrite (bind_ok _ _ s (head, false) s); [done|].
  unfold __wake_q_add. by rewrite (bind_ok _ _ _ _ _ (task_of_run p s t Ht)), Hn.
Qed.

(** ** Filling a queue *)

(** Adding tasks one after the other. *)
Fixpoint wake_q_fill (head : wake_q_head) (ps : list ptr) : M wake_q_head :=
  match ps with
  | [] => mret head
  | p :: ps => head ← wake_q_add WAKE_Q_TAIL head p; wake_q_fill head ps
  end.

(** The tasks of [ps] in the order of their first mention, after [l]. *)
Fixpoint queue_order (l ps : list ptr) : list ptr :=
  match ps with
  | [] => l
  | p :: ps => queue_order (if decide (p ∈ l) then l else l ++ [p]) ps
  end.

(** How often a queue refers to a task. *)
Definition held_by (l : list ptr) (q : ptr) : Z := if decide (q ∈ l) then 1 else 0.

Lemma held_by_snoc l p q : p ∉ l -> held_by (l ++ [p]) q = held_by l q + (if decide (q = p) then 1 else 0).
Proof.
  intros Hp. unfold held_by. destruct (decide (q = p)) as [->|Hne].
  - rewrite decide_True, decide_False; [done|done|]. apply elem_of_app. right. by left.
  - rewrite Z.add_0_r. apply decide_ext. rewrite elem_of_app, list_elem_of_singleton. split; [by intros [?|?]|by left].
Qed.

Lemma wake_q_fill_ok ps : forall l head s,
  wq_ok s head l ->
  (forall p, p ∈ ps -> p <> WAKE_Q_TAIL /\ exists t, k_tasks s !! p = Some t /\ (p ∈ l \/ wake_q_next t = None)) ->
  exists head' s', wake_q_fill head ps s = Ok head' s' /\ wq_ok s' head' (queue_order l ps) /\
    refs_added (fun q => held_by (queue_order l ps) q - held_by l q) s s'.
Proof.
  induction ps as [|p ps IH]; intros l head s Hok Hps; cbn [wake_q_fill queue_order].
  { exists head, s. split; [done|]. split; [done|]. eapply refs_ext; [|apply refs_none]. intros q. cbn. lia. }
  destruct (Hps p) as (Hp & t & Ht & Hor); [by left|]. destruct (decide (p ∈ l)) as [Hin|Hin].
  - pose proof Hok as [Hc _ _ _]. destruct (chain_queued _ _ _ _ _ Hc Hin) as [next Hl].
    rewrite (links_some s p t Ht) in Hl. injection Hl as Hn.
    rewrite (bind_ok _ _ _ _ _ (wake_q_add_old s head p t next Ht Hn)). apply IH; [done|].
    intros q Hq. apply Hps. by right.
  - destruct Hor as [?|Hn]; [done|].
    destruct (wake_q_add_new s head l p t Hok Ht Hn Hp) as (head1 & s1 & E1 & Hok1 & R1 & Hlk).
    rewrite (bind_ok _ _ _ _ _ E1). destruct (IH (l ++ [p]) head1 s1 Hok1) as (head2 & s2 & E2 & Hok2 & R2).
    { intros q Hq. destruct (Hps q) as (Hqt & u & Hu & Hqor); [by right|]. split; [done|].
      pose proof (proj2 R1 q) as Hr. rewrite Hu in Hr. destruct (k_tasks s1 !! q) as [u1|] eqn:Hu1; [|done].
      exists u1. split; [done|]. destruct (decide (q ∈ l ++ [p])) as [?|Hni]; [by left|right].
      apply not_elem_of_app in Hni as [Hql Hqp]. rewrite list_elem_of_singleton in Hqp.
      destruct Hqor as [?|Hun]; [done|]. specialize (Hlk q Hqp Hql).
      rewrite (links_some s1 q u1 Hu1), (links_some s q u Hu) in Hlk. injection Hlk as ->. done. }
    exists head2, s2. split; [exact E2|]. split; [exact Hok2|]. eapply refs_ext; [|eapply refs_trans; [exact R1|exact R2]].
    intros q. cbn. rewrite (held_by_snoc l p q Hin). lia.
Qed.

(** ** Waking a queue *)

(** Take a task off its queue, wake it, drop the queue's reference. *)
Definition wake_one (rounds : nat) (p : ptr) : M unit :=
  set_task p (fun t => t <| wake_q_next := None |>);;
  _ ← wake_up_process rounds p;
  set_task p (fun t => t <| usage := usage t - 1 |>).

Definition wake_each (rounds : nat) (l : list ptr) : M unit := foldr (fun p k => wake_one rounds p;; k) (mret tt) l.

Lemma wake_one_links rounds p s a s' :
  clamps_in_range s -> wake_one rounds p s = Ok a s' ->
  clamps_in_range s' /\ forall q, q <> p -> links s' !! q = links s !! q.
Proof using KL EL.
  intros Hc. unfold wake_one. destruct (k_tasks s !! p) as [t|] eqn:Ht.
  - rewrite (bind_ok _ _ _ _ _ (set_task_run p (fun t => t <| wake_q_next := None |>) s t Ht)).
    set (s1 := s <| k_tasks := _ |>). intros E1.
    assert (clamps_in_range s1) as Hc1 by (eapply clamps_put_task; [exact Ht|by intros []|exact Hc]).
    assert (keeps (_ ← wake_up_process rounds p; set_task p (fun t => t <| usage := usage t - 1 |>))) as Hk.
    { apply keeps_bind; [apply keeps_try_to_wake_up|]. intros _. keeps_go. }
    destruct (Hk s1 a s' I Hc1 E1) as [El Hc']. split; [done|]. intros q Hq. rewrite (view_links _ _ El). subst s1.
    by rewrite links_put, lookup_insert_ne.
  - unfold mbind at 1, M_bind at 1. unfold set_task at 1, mbind at 1, M_bind at 1, task_of at 1. by rewrite Ht.
Qed.

Lemma wake_up_q_loop_ok rounds l : forall fuel node s,
  chain WAKE_Q_TAIL (links s) node l -> NoDup l -> WAKE_Q_TAIL ∉ l -> clamps_in_range s -> (length l <= fuel)%nat ->
  wake_up_q_loop WAKE_Q_TAIL fuel (wake_up_process rounds) node s = wake_each rounds l s.
Proof using KL EL.
  induction l as [|p l IH]; intros fuel node s Hch Hnd Htl Hc Hf.
  { cbn in Hch. subst node. destruct fuel; cbn [wake_up_q_loop]; by rewrite bool_decide_eq_true_2. }
  destruct fuel as [|fuel]; [cbn in Hf; lia|]. destruct Hch as [-> (next & Hl & Hch)].
  apply NoDup_cons in Hnd as [Hp Hnd]. apply not_elem_of_cons in Htl as [Hpt Htl].
  destruct (links_task _ _ _ Hl) as (t & Ht & Hn). cbn [wake_up_q_loop].
  rewrite bool_decide_eq_false_2 by done. rewrite (bind_ok _ _ _ _ _ (task_of_run p s t Ht)), Hn.
  change (wake_each rounds (p :: l)) with (wake_one rounds p;; wake_each rounds l).
  transitivity ((wake_one rounds p;; wake_up_q_loop WAKE_Q_TAIL fuel (wake_up_process rounds) next) s).
  { unfold wake_one. rewrite bind_bind.
    rewrite (bind_ok _ _ _ _ _ (set_task_run p (fun t => t <| wake_q_next := None |>) s t Ht)), bind_bind. reflexivity. }
  apply bind_ext. intros [] s1 Ew. destruct (wake_one_links _ _ _ _ _ Hc Ew) as [Hc1 Hlk].
  apply IH; [|done|done|done|cbn in Hf; lia]. eapply chain_ext; [|exact Hch]. intros q Hq. apply Hlk. by intros ->.
Qed.

Lemma queue_order_length l ps : (length (queue_order l ps) <= length l + length ps)%nat.
Proof.
  revert l. induction ps as [|p ps IH]; intros l; cbn; [lia|]. specialize (IH (if decide (p ∈ l) then l else l ++ [p])).
  destruct (decide (p ∈ l)); rewrite ?length_app in IH; cbn in IH; lia.
Qed.

Lemma wq_init_ok s : wq_ok s (wake_q_init WAKE_Q_TAIL) [].
Proof. split; [done|constructor|apply not_elem_of_nil|done]. Qed.

(** C10. A wake queue wakes each of its tasks exactly once, in the order in which
    they were first added, however often they were added: filling an empty queue
    takes one reference to each task and changes nothing else, and [wake_up_q]
    then does for each task what waking it alone does: it unlinks it, wakes it
    and drops the reference.  Waking a task cannot upset the rest of the queue. *)
Theorem wake_queue_fifo ps s fuel rounds :
  clamps_in_range s -> (length ps <= fuel)%nat ->
  (forall p, p ∈ ps -> p <> WAKE_Q_TAIL /\ exists t, k_tasks s !! p = Some t /\ wake_q_next t = None) ->
  exists head s', wake_q_fill (wake_q_init WAKE_Q_TAIL) ps s = Ok head s' /\
    NoDup (queue_order [] ps) /\ refs_added (held_by (queue_order [] ps)) s s' /\
    wake_up_q WAKE_Q_TAIL fuel rounds head s' = wake_each rounds (queue_order [] ps) s'.
Proof using KL EL.
  intros Hc Hf Hps. destruct (wake_q_fill_ok ps [] (wake_q_init WAKE_Q_TAIL) s (wq_init_ok s)) as (head & s' & E1 & [H1 H2 H3 H4] & HR).
  { intros p Hp. destruct (Hps p Hp) as (Hpt & t & Ht & Hn). split; [done|]. exists t. by split; [|right]. }
  exists head, s'. split; [exact E1|]. split; [exact H2|]. split.
  - eapply refs_ext; [|exact HR]. intros q. cbn. unfold held_by at 2. rewrite decide_False by apply not_elem_of_nil. lia.
  - apply wake_up_q_loop_ok; [done..|by eapply refs_clamps|]. pose proof (queue_order_length [] ps). cbn in *. lia.
Qed.
End Calls.
