(* ===== verification/TtwuDemo.v ===== *)
(** * TtwuDemo: waking and moving tasks at work

    Two CPUs, with simple classes and masks; every hypothesis of the theorems of
    [AffinitySpec], [Landing] and [WakeQ] holds here. *)

From S2P Require Import Prelude Task KernelApi Prio Rq RqClock Uclamp UclampFacts UclampTrace.
From S2P Require Import State Sched SchedFacts ScheduleSpec Setprio TaskLock Machine.
From S2P Require Import SetprioSpec SetprioDemo Affinity AffinitySpec Ttwu TtwuSpec Landing WakeQ.

(** The first CPU of a mask. *)
Definition first_cpu (m : gset Z) : Z := if decide (0 ∈ m) then 0 else if decide (1 ∈ m) then 1 else 2.

#[export] Instance two_cpus : MigrateEnv := {|
  nr_cpu_ids := 2;
  is_per_cpu_kthread t := has (t_flags t) PF_KTHREAD && (nr_cpus_allowed t =? 1);
  cpu_to_node _ := -1;
  cpumask_of_node _ := ∅;
  CONFIG_CPUSETS := true;
  cpuset_cpus_allowed_fallback p s := upd_task p (fun t => set_cpus_allowed_common t ∅) s;
  cpuset_cpus_allowed s _ := k_possible s;
  op_set_cpus_allowed _ p m s := upd_task p (fun t => set_cpus_allowed_common t m) s;
  __set_task_cpu p cpu s := upd_task p (fun t => t <| t_cpu := cpu |>) s;
  cpumask_any := first_cpu;
  cpumask_any_and_distribute m1 m2 := first_cpu (m1 ∩ m2);
  stop_one_cpu cpu m s :=
    match m (s <| k_this_cpu := cpu |>) with
    | Ok r s' => Ok r (s' <| k_this_cpu := k_this_cpu s |>) | Bug => Bug | Hang => Hang end;
  stop_two_cpus cpu _ m s :=
    match m (s <| k_this_cpu := cpu |>) with
    | Ok r s' => Ok r (s' <| k_this_cpu := k_this_cpu s |>) | Bug => Bug | Hang => Hang end;
  flush_smp_call_function_from_idle s := s;
  double_raw_lock p q := lock_pi p;; lock_pi q;
  double_rq_lock a b := lock_rq a;; when (negb (a =? b)) (lock_rq b);
  double_rq_unlock a b := unlock_rq a;; when (negb (a =? b)) (unlock_rq b);
  ns_capable_sys_nice _ := false;
  alloc_cpumask_ok := true;
  cpumask_size := 8;
  BITS_PER_BYTE := 8
|}.

#[export] Instance two_cpus_laws : MigrateLaws two_cpus.
Proof.
  split.
  - done.
  - intros p s _. by exists ∅.
  - done.
  - done.
  - intros m1 m2 Hb. cbn. unfold first_cpu. destruct (decide (0 ∈ m1 ∩ m2)); [left; set_solver|].
    destruct (decide (1 ∈ m1 ∩ m2)); [left; set_solver|]. right. split; [done|]. intros c H1 H2.
    specialize (Hb c H1). cbn in Hb. assert (c = 0 \/ c = 1) as [-> | ->] by lia; set_solver.
Qed.

#[export] Instance own_caches : WakeEnv := {|
  sd_llc_id cpu := cpu;
  sched_feat_TTWU_QUEUE := true;
  update_avg a b := a + (b - a) / 8;
  SD_BALANCE_WAKE := 16;
  arch_send_call_function_single_ipi _ s := s
|}.

(** CPU 1 idles with task 4; task 3 sleeps, waiting for I/O, and may run on CPU 1. *)
Definition idle_task_4 : task_struct := idle_task_1 <| t_cpu := 1 |> <| on_cpu := 1 |> <| on_rq := 1 |>.
Definition sleeper : task_struct :=
  plain_task <| on_rq := 0 |> <| t_state := 1 |> <| in_iowait := true |>
    <| cpus_mask := {[ 1 ]} |> <| nr_cpus_allowed := 1 |>.
Definition rq_1 : rq := (init_uclamp_rq (zero_rq 1 4%positive)) <| curr := 4%positive |>.
Definition two_machine (t : task_struct) : kstate :=
  machine <| k_tasks := <[3%positive := t]> (<[4%positive := idle_task_4]> (k_tasks machine)) |>
    <| k_rqs := <[1 := rq_1]> (k_rqs machine) |> <| k_online := {[ 0; 1 ]} |> <| k_active := {[ 0; 1 ]} |>
    <| k_possible := {[ 0; 1 ]} |>.

Lemma two_cpus_up t c : c = 0 \/ c = 1 -> cpu_free (two_machine t) c.
Proof. intros [-> | ->]; [exists machine_rq|exists rq_1]; (split; [reflexivity|split; [reflexivity|by eexists]]). Qed.

Lemma sleeper_pre : wake_pre false (two_machine sleeper) 3%positive sleeper.
Proof.
  split; try reflexivity.
  - intros c Hc. apply two_cpus_up. destruct Hc as [->|Hc]; [by left|]. cbn in Hc. set_solver.
  - by left.
  - by left.
  - exists 1. vm_compute. reflexivity.
  - apply clamps_b_ok. vm_compute. reflexivity.
Qed.

#[export] Instance choosing_woken p : WokenLaws (choosing p).
Proof. intros cpu q s t Ht Hcpu Hrq. exists t. split_and!; [exact Ht|exact Hrq|by left]. Qed.

(** The wakeup goes to CPU 1's list, task 3 is bound to that CPU. *)
Lemma try_to_wake_up_refines_witness :
  exists ret s', try_to_wake_up (K := choosing 3%positive) 1 3%positive 1 0 (two_machine sleeper) = Ok ret s' /\
    wake_lands 3%positive sleeper 1 (two_machine sleeper) ret s'.
Proof.
  apply (try_to_wake_up_refines (K := choosing 3%positive) 0 (two_machine sleeper) 3%positive sleeper
    machine_rq 1 0 eq_refl sleeper_pre).
  intros H. discriminate H.
Defined.

(** No CPU of the mask is there, the cpuset's is empty: the third round finds one. *)
Definition lost : task_struct := sleeper <| cpus_mask := ∅ |> <| nr_cpus_allowed := 0 |>.

Lemma select_fallback_rq_terminates_witness :
  exists d s', select_fallback_rq (K := choosing 3%positive) 3 0 3%positive (two_machine lost) = Ok d s' /\
    fell_back 3%positive (two_machine lost) d s'.
Proof.
  apply (select_fallback_rq_terminates (K := choosing 3%positive) (two_machine lost) 3%positive lost 0 1 0).
  split.
  - reflexivity.
  - exists machine_rq. reflexivity.
  - change (1 ∈ ({[ 0; 1 ]} : gset Z)). set_solver.
  - change (1 ∈ ({[ 0; 1 ]} : gset Z)). set_solver.
  - done.
  - done.
  - apply clamps_b_ok. vm_compute. reflexivity.
Defined.

Definition result {A} (o : outcome A) : option A := match o with Ok a _ => Some a | _ => None end.

Example fallback_three_rounds :
  result (select_fallback_rq (K := choosing 3%positive) 2 0 3%positive (two_machine lost)) = None /\
  result (select_fallback_rq (K := choosing 3%positive) 3 0 3%positive (two_machine lost)) = Some 0.
Proof. split; vm_compute; reflexivity. Qed.

(** A queued task is moved from CPU 0 to CPU 1. *)
Definition waiting_task : task_struct := plain_task <| cpus_mask := {[ 0 ]} |> <| nr_cpus_allowed := 1 |>.

Lemma waiting_pre : task_pre false (two_machine waiting_task) 3%positive waiting_task machine_rq.
Proof. split; try reflexivity; [done|]. apply clamps_b_ok. vm_compute. reflexivity. Qed.

Lemma set_cpus_allowed_refines_witness :
  affinity_result (K := choosing 3%positive) 3%positive waiting_task {[ 1 ]} true (two_machine waiting_task)
    (__set_cpus_allowed_ptr (K := choosing 3%positive) 3%positive {[ 1 ]} true (two_machine waiting_task)).
Proof.
  apply (set_cpus_allowed_refines (K := choosing 3%positive) (two_machine waiting_task) 3%positive
    waiting_task machine_rq {[ 1 ]} true waiting_pre).
  intros c Hc. assert (c = 0 \/ c = 1) as Hor by (change (c ∈ ({[ 0; 1 ]} : gset Z)) in Hc; set_solver).
  split; [cbn; lia|by apply two_cpus_up].
Defined.

Example moved_to_cpu_1 :
  match __set_cpus_allowed_ptr (K := choosing 3%positive) 3%positive {[ 1 ]} true (two_machine waiting_task) with
  | Ok ret s' => Some (ret, task_cpu <$> k_tasks s' !! 3%positive)
  | _ => None end = Some (0, Some 1).
Proof. vm_compute. reflexivity. Qed.

(** The running task and a sleeper, each added twice. *)
Lemma wake_queue_fifo_witness :
  let ps := [3; 2; 3; 2]%positive in
  exists head s', wake_q_fill 9%positive (wake_q_init 9%positive) ps (two_machine sleeper) = Ok head s' /\
    NoDup (queue_order [] ps) /\ refs_added (held_by (queue_order [] ps)) (two_machine sleeper) s' /\
    wake_up_q (K := choosing 3%positive) 9%positive 4 1 head s' =
      wake_each (K := choosing 3%positive) 1 (queue_order [] ps) s'.
Proof.
  apply (wake_queue_fifo (K := choosing 3%positive) 9%positive [3; 2; 3; 2]%positive).
  - apply clamps_b_ok. vm_compute. reflexivity.
  - done.
  - intros p Hp. assert (p = 3%positive \/ p = 2%positive) as [-> | ->] by set_solver; (split; [done|by eexists]).
Defined.

Example order_of_first_mention : queue_order [] [3; 2; 3; 2]%positive = [3; 2]%positive.
Proof. reflexivity. Qed.
