(* ===== verification/WakeStats.v ===== *)
(** * WakeStats: statistics of wakeups (core.c, [ttwu_stat])

    With schedstats on, a successful [try_to_wake_up] is counted on the CPU that
    wakes, for the task, and, if the task goes to another CPU, in the smallest
    scheduling domain that has both.  The statistics are a state of their own,
    beside the machine's. *)

From S2P Require Import Prelude Task KernelApi Prio Settings Rq RqClock Uclamp State Sched SchedFacts ScheduleSpec Machine.
From S2P Require Import Setprio TaskLock SetprioSpec SetprioDemo Affinity AffinitySpec Ttwu TtwuSpec TtwuDemo.

(** ** The counters *)

Record sched_statistics := mk_sched_statistics {
  wait_start : Z;
  wait_max : Z;
  wait_count : Z;
  wait_sum : Z;
  iowait_count : Z;
  iowait_sum : Z;
  sleep_start : Z;
  sleep_max : Z;
  sum_sleep_runtime : Z;
  block_start : Z;
  block_max : Z;
  exec_max : Z;
  slice_max : Z;
  nr_migrations_cold : Z;
  nr_failed_migrations_affine : Z;
  nr_failed_migrations_running : Z;
  nr_failed_migrations_hot : Z;
  nr_forced_migrations : Z;
  nr_wakeups : Z;
  nr_wakeups_sync : Z;
  nr_wakeups_migrate : Z;
  nr_wakeups_local : Z;
  nr_wakeups_remote : Z;
  nr_wakeups_affine : Z;
  nr_wakeups_affine_attempts : Z;
  nr_wakeups_passive : Z;
  nr_wakeups_idle : Z
}.
#[export] Instance eta_sched_statistics : EtaRecord sched_statistics := fun x =>
  mk_sched_statistics (wait_start x) (wait_max x) (wait_count x) (wait_sum x) (iowait_count x) (iowait_sum x)
    (sleep_start x) (sleep_max x) (sum_sleep_runtime x) (block_start x) (block_max x) (exec_max x)
    (slice_max x) (nr_migrations_cold x) (nr_failed_migrations_affine x) (nr_failed_migrations_running x)
    (nr_failed_migrations_hot x) (nr_forced_migrations x) (nr_wakeups x) (nr_wakeups_sync x)
    (nr_wakeups_migrate x) (nr_wakeups_local x) (nr_wakeups_remote x) (nr_wakeups_affine x)
    (nr_wakeups_affine_attempts x) (nr_wakeups_passive x) (nr_wakeups_idle x).
#[export] Instance upd_nr_wakeups : FieldUpdate nr_wakeups := ltac:(field_update nr_wakeups).
#[export] Instance upd_nr_wakeups_sync : FieldUpdate nr_wakeups_sync := ltac:(field_update nr_wakeups_sync).
#[export] Instance upd_nr_wakeups_migrate : FieldUpdate nr_wakeups_migrate := ltac:(field_update nr_wakeups_migrate).
#[export] Instance upd_nr_wakeups_local : FieldUpdate nr_wakeups_local := ltac:(field_update nr_wakeups_local).
#[export] Instance upd_nr_wakeups_remote : FieldUpdate nr_wakeups_remote := ltac:(field_update nr_wakeups_remote).

(** As [__sched_fork] leaves it. *)
Definition zero_statistics : sched_statistics :=
  mk_sched_statistics 0 0 0 0 0 0 0 0 0 0 0 0 0 0 0 0 0 0 0 0 0 0 0 0 0 0 0.


(** Of [struct rq] and of the scheduling domains, which have names here: unsigned
    ints.  Counters that are missing are 0. *)
Record wake_stats := mk_wake_stats {
  ttwu_count : gmap Z Z;
  ttwu_local : gmap Z Z;
  ttwu_wake_remote : gmap positive Z;
  statistics : gmap ptr sched_statistics
}.
#[export] Instance eta_wake_stats : EtaRecord wake_stats := fun x =>
  mk_wake_stats (ttwu_count x) (ttwu_local x) (ttwu_wake_remote x) (statistics x).
#[export] Instance upd_ttwu_count : FieldUpdate ttwu_count := ltac:(field_update ttwu_count).
#[export] Instance upd_ttwu_local : FieldUpdate ttwu_local := ltac:(field_update ttwu_local).
#[export] Instance upd_ttwu_wake_remote : FieldUpdate ttwu_wake_remote := ltac:(field_update ttwu_wake_remote).
#[export] Instance upd_statistics : FieldUpdate statistics := ltac:(field_update statistics).

Definition no_wakeups : wake_stats := mk_wake_stats ∅ ∅ ∅ ∅.

(** [__schedstat_inc] of an unsigned int and of a field of the statistics. *)
Definition inc32 `{Countable A} (k : A) (m : gmap A Z) : gmap A Z := <[k := u32 (default 0 (m !! k) + 1)]> m.
Definition stats_of (p : ptr) (st : wake_stats) : sched_statistics := default zero_statistics (statistics st !! p).
Definition set_stats (p : ptr) (f : sched_statistics -> sched_statistics) (st : wake_stats) : wake_stats :=
  st <| statistics := <[p := f (stats_of p st)]> (statistics st) |>.

(** [for_each_domain] of a CPU, from the smallest: a domain and its span. *)
Class DomainEnv := { domains_of : Z -> list (positive * gset Z) }.

Section WakeStats.
Context {F : FlagApi} {D : DomainEnv}.

Fixpoint count_in_domain (cpu : Z) (l : list (positive * gset Z)) (st : wake_stats) : wake_stats :=
  match l with
  | [] => st
  | (sd, span) :: l =>
      if bool_decide (cpu ∈ span) then st <| ttwu_wake_remote := inc32 sd (ttwu_wake_remote st) |>
      else count_in_domain cpu l st
  end.

Definition schedstat_enabled (k : sched_keys) : bool := sched_schedstats k.

(** [this]: the CPU whose run queue is [this_rq()]. *)
Definition ttwu_stat (k : sched_keys) (this : Z) (p : ptr) (cpu wake_flags : Z) (st : wake_stats) : wake_stats :=
  if negb (schedstat_enabled k) then st
  else
    let st :=
      if cpu =? this then
        let st := st <| ttwu_local := inc32 this (ttwu_local st) |> in
        set_stats p (fun x => x <| nr_wakeups_local := u64 (nr_wakeups_local x + 1) |>) st
      else
        let st := set_stats p (fun x => x <| nr_wakeups_remote := u64 (nr_wakeups_remote x + 1) |>) st in
        count_in_domain cpu (domains_of this) st in
    let st :=
      if has wake_flags WF_MIGRATED then
        set_stats p (fun x => x <| nr_wakeups_migrate := u64 (nr_wakeups_migrate x + 1) |>) st
      else st in
    let st := st <| ttwu_count := inc32 this (ttwu_count st) |> in
    let st := set_stats p (fun x => x <| nr_wakeups := u64 (nr_wakeups x + 1) |>) st in
    if has wake_flags WF_SYNC then
      set_stats p (fun x => x <| nr_wakeups_sync := u64 (nr_wakeups_sync x + 1) |>) st
    else st.

(** [try_to_wake_up] with its statistics. *)
Definition try_to_wake_up_stat {P : PrioApi} {Y : PolicyApi} {U : UclampApi} {A : AttrFlagApi} {C : ClockConfig}
    {K : SchedClassOps} {V : SetprioEnv} {E : MigrateEnv} {W : WakeEnv}
    (k : sched_keys) (fuel : nat) (p : ptr) (state wake_flags : Z) (st : wake_stats) : M (Z * wake_stats) :=
  '(success, wake_flags) ← try_to_wake_up_out fuel p state wake_flags;
  t ← task_of p;
  this ← smp_processor_id;
  mret (success, if nz success then ttwu_stat k this p (task_cpu t) wake_flags st else st).

(** ** One wakeup *)

Lemma statistics_set p f st : statistics (set_stats p f st) = <[p := f (stats_of p st)]> (statistics st).
Proof. done. Qed.
Lemma stats_of_set p f st : stats_of p (set_stats p f st) = f (stats_of p st).
Proof. unfold stats_of at 1. by rewrite statistics_set, lookup_insert_eq. Qed.
Lemma statistics_count v st : statistics (st <| ttwu_count := v |>) = statistics st. Proof. done. Qed.
Lemma statistics_local v st : statistics (st <| ttwu_local := v |>) = statistics st. Proof. done. Qed.
Lemma statistics_remote v st : statistics (st <| ttwu_wake_remote := v |>) = statistics st. Proof. done. Qed.
Lemma stats_of_count p v st : stats_of p (st <| ttwu_count := v |>) = stats_of p st. Proof. done. Qed.
Lemma stats_of_local p v st : stats_of p (st <| ttwu_local := v |>) = stats_of p st. Proof. done. Qed.
Lemma stats_of_remote p v st : stats_of p (st <| ttwu_wake_remote := v |>) = stats_of p st. Proof. done. Qed.

(** What one wakeup does to the statistics of its task. *)
Definition counted (local : bool) (x y : sched_statistics) : Prop :=
  nr_wakeups y = u64 (nr_wakeups x + 1) /\
  nr_wakeups_local y = (if local then u64 (nr_wakeups_local x + 1) else nr_wakeups_local x) /\
  nr_wakeups_remote y = (if local then nr_wakeups_remote x else u64 (nr_wakeups_remote x + 1)).

(** And to the domains. *)
Fixpoint inc_domain (cpu : Z) (l : list (positive * gset Z)) (m : gmap positive Z) : gmap positive Z :=
  match l with
  | [] => m
  | (sd, span) :: l => if bool_decide (cpu ∈ span) then inc32 sd m else inc_domain cpu l m
  end.
Lemma count_in_domain_inc cpu l st :
  count_in_domain cpu l st = st <| ttwu_wake_remote := inc_domain cpu l (ttwu_wake_remote st) |>.
Proof. induction l as [|[sd span] l IH]; cbn; [by destruct st|]. by case_bool_decide. Qed.

Lemma ttwu_stat_counts k this p cpu fl st :
  schedstat_enabled k = true ->
  let st' := ttwu_stat k this p cpu fl st in
  let local := cpu =? this in
  ttwu_count st' = inc32 this (ttwu_count st) /\
  ttwu_local st' = (if local then inc32 this (ttwu_local st) else ttwu_local st) /\
  ttwu_wake_remote st' = (if local then ttwu_wake_remote st else inc_domain cpu (domains_of this) (ttwu_wake_remote st)) /\
  exists y, statistics st' = <[p := y]> (statistics st) /\ counted local (stats_of p st) y.
Proof.
  intros Hk. cbn zeta. unfold ttwu_stat. rewrite Hk. cbn [negb]. rewrite count_in_domain_inc.
  destruct (cpu =? this), (has fl WF_MIGRATED), (has fl WF_SYNC); (do 3 (split; [done|]));
    rewrite ?statistics_set, ?statistics_count, ?statistics_set, ?statistics_count, ?statistics_set, ?statistics_remote,
      ?statistics_set, ?statistics_local, ?insert_insert_eq;
    (eexists; split; [reflexivity|]);
    rewrite ?stats_of_set, ?stats_of_count, ?stats_of_set, ?stats_of_remote, ?stats_of_set, ?stats_of_local;
    (split; [|split]); reflexivity.
Qed.

(** ** Sums *)

Lemma inc32_sum `{Countable B} (k : B) m : u32 (msum id (inc32 k m)) = u32 (msum id m + 1).
Proof.
  unfold inc32. destruct (m !! k) as [x|] eqn:Hk; cbn.
  - rewrite (msum_update id m k x _ Hk). unfold id. apply wrapu_bump.
  - rewrite msum_insert by done. unfold id at 1. rewrite wrapu_add_l. f_equal. lia.
Qed.

Lemma stats_sum (g : sched_statistics -> Z) p y d st :
  g zero_statistics = 0 -> u64 (g y) = u64 (g (stats_of p st) + d) ->
  u64 (msum g (<[p := y]> (statistics st))) = u64 (msum g (statistics st) + d).
Proof.
  unfold stats_of. intros H0 H. destruct (statistics st !! p) as [x|] eqn:Hp; cbn in H.
  - rewrite (msum_update g _ p x y Hp). rewrite <- wrapu_add_r, H, wrapu_add_r. f_equal. lia.
  - rewrite msum_insert by done. rewrite <- wrapu_add_l, H, H0, wrapu_add_l. f_equal. lia.
Qed.

(** The counters after [n] wakeups, [l] of them to the CPU that woke. *)
Record tallied (n l : Z) (st : wake_stats) : Prop := {
  ta_count : u32 (msum id (ttwu_count st)) = u32 n;
  ta_local : u32 (msum id (ttwu_local st)) = u32 l;
  ta_tasks : u64 (msum nr_wakeups (statistics st)) = u64 n;
  ta_tasks_local : u64 (msum nr_wakeups_local (statistics st)) = u64 l;
  ta_tasks_remote : u64 (msum nr_wakeups_remote (statistics st)) = u64 (n - l);
  ta_each p : nr_wakeups (stats_of p st) = u64 (nr_wakeups_local (stats_of p st) + nr_wakeups_remote (stats_of p st))
}.

Lemma tallied_start : tallied 0 0 no_wakeups.
Proof. by split. Qed.

Lemma wrap_next w a b d : wrapu w a = wrapu w b -> wrapu w (a + d) = wrapu w (b + d).
Proof. intros H. by rewrite <- wrapu_add_l, H, wrapu_add_l. Qed.

Lemma tallied_stat k this p cpu fl st n l :
  schedstat_enabled k = true -> tallied n l st ->
  tallied (n + 1) (if cpu =? this then l + 1 else l) (ttwu_stat k this p cpu fl st).
Proof.
  intros Hk [H1 H2 H3 H4 H5 H6]. destruct (ttwu_stat_counts k this p cpu fl st Hk) as (E1 & E2 & _ & y & E4 & Ey1 & Ey2 & Ey3).
  cbn zeta in *. split.
  - rewrite E1, inc32_sum. by apply wrap_next.
  - rewrite E2. destruct (cpu =? this); [rewrite inc32_sum; by apply wrap_next|done].
  - rewrite E4, (stats_sum nr_wakeups p y 1) by (done || by rewrite Ey1, wrapu_wrapu). by apply wrap_next.
  - rewrite E4. destruct (cpu =? this).
    + rewrite (stats_sum nr_wakeups_local p y 1) by (done || by rewrite Ey2, wrapu_wrapu). by apply wrap_next.
    + rewrite (stats_sum nr_wakeups_local p y 0) by (done || by rewrite Ey2, Z.add_0_r). by rewrite Z.add_0_r.
  - rewrite E4. destruct (cpu =? this).
    + rewrite (stats_sum nr_wakeups_remote p y 0) by (done || by rewrite Ey3, Z.add_0_r).
      rewrite Z.add_0_r, H5. f_equal. lia.
    + rewrite (stats_sum nr_wakeups_remote p y 1) by (done || by rewrite Ey3, wrapu_wrapu).
      rewrite (wrap_next _ _ _ 1 H5). f_equal. lia.
  - intros q. unfold stats_of. rewrite E4. destruct (decide (q = p)) as [->|Hne].
    + rewrite lookup_insert_eq. cbn. rewrite Ey1, Ey2, Ey3, H6, wrapu_add_l.
      destruct (cpu =? this); rewrite ?wrapu_add_l, ?wrapu_add_r; f_equal; lia.
    + rewrite lookup_insert_ne by done. apply H6.
Qed.

(** Where any two CPUs share a domain, the domains count all wakeups across CPUs. *)
Definition domains_span (cpus : gset Z) : Prop := forall this cpu, this ∈ cpus -> cpu ∈ cpus -> cpu <> this ->
  exists sd span, (sd, span) ∈ domains_of this /\ cpu ∈ span.

Lemma inc_domain_sum cpu l m :
  (exists sd span, (sd, span) ∈ l /\ cpu ∈ span) -> u32 (msum id (inc_domain cpu l m)) = u32 (msum id m + 1).
Proof.
  intros (sd & span & Hin & Hc). induction l as [|[sd' span'] l IH]; [by apply not_elem_of_nil in Hin|]. cbn.
  case_bool_decide as Hb; [apply inc32_sum|]. apply elem_of_cons in Hin as [[= -> ->]|Hin]; [done|by apply IH].
Qed.

(** ** Histories *)

(** [wakeups cpus n l st]: calls of [try_to_wake_up], on whatever machines with
    these CPUs and with schedstats on or off, have counted up to [st]; [n] of them
    woke a task while schedstats was on, and [l] of these left it to the CPU that
    woke it. *)
Inductive wakeups (cpus : gset Z) : Z -> Z -> wake_stats -> Prop :=
  | wk_start : wakeups cpus 0 0 no_wakeups
  | wk_call (P : PrioApi) (Y : PolicyApi) (U : UclampApi) (A : AttrFlagApi) (C : ClockConfig) (K : SchedClassOps)
      (V : SetprioEnv) (E : MigrateEnv) (W : WakeEnv) k fuel p t state fl s ret s' st st' n l :
      wakeups cpus n l st -> try_to_wake_up_stat k fuel p state fl st s = Ok (ret, st') s' -> k_tasks s' !! p = Some t ->
      k_this_cpu s' ∈ cpus -> task_cpu t ∈ cpus ->
      wakeups cpus (if schedstat_enabled k && nz ret then n + 1 else n)
        (if schedstat_enabled k && nz ret && (task_cpu t =? k_this_cpu s') then l + 1 else l) st'.

Lemma stat_call_inv {P : PrioApi} {Y : PolicyApi} {U : UclampApi} {A : AttrFlagApi} {C : ClockConfig} {K : SchedClassOps}
    {V : SetprioEnv} {E : MigrateEnv} {W : WakeEnv} k fuel p t state fl s ret s' st st' :
  try_to_wake_up_stat k fuel p state fl st s = Ok (ret, st') s' -> k_tasks s' !! p = Some t ->
  if schedstat_enabled k && nz ret then exists fl', st' = ttwu_stat k (k_this_cpu s') p (task_cpu t) fl' st else st' = st.
Proof.
  intros H Ht. apply bind_inv in H as ([ret' fl'] & s1 & _ & H). apply bind_inv in H as (t1 & s2 & H1 & H).
  apply task_of_inv in H1 as [-> H1]. injection H as -> H ->. rewrite Ht in H1. injection H1 as <-.
  destruct (nz ret); [|by rewrite andb_false_r]. rewrite andb_true_r. destruct (schedstat_enabled k) eqn:Hk.
  - by exists fl'.
  - rewrite <- H. unfold ttwu_stat. by rewrite Hk.
Qed.

Lemma wakeups_tallied cpus n l st :
  wakeups cpus n l st -> tallied n l st /\ (domains_span cpus -> u32 (msum id (ttwu_wake_remote st)) = u32 (n - l)).
Proof.
  induction 1 as [|P Y U A C K V E W k fuel p t state fl s ret s' st st' n l _ [IH1 IH2] Hrun Ht Hc1 Hc2]; [by split; [apply tallied_start|]|].
  pose proof (stat_call_inv _ _ _ _ _ _ _ _ _ _ _ Hrun Ht) as Hst.
  destruct (schedstat_enabled k && nz ret) eqn:Hc; [|by subst st'].
  apply andb_true_iff in Hc as [Hk _]. destruct Hst as [fl' ->]. cbn [andb]. split; [by apply tallied_stat|].
  intros Hspan. specialize (IH2 Hspan).
  destruct (ttwu_stat_counts k (k_this_cpu s') p (task_cpu t) fl' st Hk) as (_ & _ & E3 & _). cbn zeta in E3. rewrite E3.
  destruct (Z.eqb_spec (task_cpu t) (k_this_cpu s')) as [_|Hne].
  - rewrite IH2. f_equal. lia.
  - rewrite inc_domain_sum by by apply Hspan. rewrite (wrap_next _ _ _ 1 IH2). f_equal. lia.
Qed.

(** C23. The statistics of wakeups add up, along every history of wakeups on any
    CPUs, with schedstats turned on and off in between: every successful
    [try_to_wake_up] while it is on is counted exactly once on some run queue and
    once for its task, as local or remote, the run queues agree with the tasks on
    the local ones, and where the scheduling domains span the machine they count
    the remote ones; all modulo the counters' width. *)
Theorem wakeups_are_counted cpus n l st :
  wakeups cpus n l st ->
  u32 (msum id (ttwu_count st)) = u32 n /\ u64 (msum nr_wakeups (statistics st)) = u64 n /\
  u32 (msum id (ttwu_local st)) = u32 l /\ u64 (msum nr_wakeups_local (statistics st)) = u64 l /\
  u64 (msum nr_wakeups_remote (statistics st)) = u64 (n - l) /\
  (domains_span cpus -> u32 (msum id (ttwu_wake_remote st)) = u32 (n - l)) /\
  forall p, nr_wakeups (stats_of p st) = u64 (nr_wakeups_local (stats_of p st) + nr_wakeups_remote (stats_of p st)).
Proof. intros H. destruct (wakeups_tallied cpus n l st H) as [[H1 H2 H3 H4 H5 H6] H7]. done. Qed.
End WakeStats.

(** ** A wakeup across CPUs

    CPU 1 wakes task 3 that is left to CPU 0. *)

#[export] Instance one_domain : DomainEnv := {| domains_of _ := [(1%positive, {[ 0; 1 ]})] |}.
Definition stats_on : sched_keys := mk_sched_keys false true false.
Definition woken_across : outcome (Z * wake_stats) :=
  try_to_wake_up_stat (K := choosing 3%positive) stats_on 1 3%positive 1 0 no_wakeups (two_machine sleeper).
Definition stats_across : wake_stats := match woken_across with Ok (_, st) _ => st | _ => no_wakeups end.
Definition machine_across : kstate := match woken_across with Ok _ s => s | _ => two_machine sleeper end.

Example counted_across :
  (msum id (ttwu_count stats_across), msum id (ttwu_local stats_across), msum id (ttwu_wake_remote stats_across),
   nr_wakeups_remote (stats_of 3%positive stats_across), nr_wakeups_migrate (stats_of 3%positive stats_across)) = (1, 0, 1, 1, 1).
Proof. vm_compute. reflexivity. Qed.

Lemma woken_across_ok : woken_across = Ok (1, stats_across) machine_across.
Proof. vm_compute. reflexivity. Qed.

Lemma wakeups_are_counted_witness :
  u32 (msum id (ttwu_count stats_across)) = u32 1 /\ u64 (msum nr_wakeups (statistics stats_across)) = u64 1 /\
  u32 (msum id (ttwu_local stats_across)) = u32 0 /\ u64 (msum nr_wakeups_local (statistics stats_across)) = u64 0 /\
  u64 (msum nr_wakeups_remote (statistics stats_across)) = u64 (1 - 0) /\
  (domains_span {[ 0; 1 ]} -> u32 (msum id (ttwu_wake_remote stats_across)) = u32 (1 - 0)) /\
  forall p, nr_wakeups (stats_of p stats_across) = u64 (nr_wakeups_local (stats_of p stats_across) + nr_wakeups_remote (stats_of p stats_across)).
Proof.
  apply (wakeups_are_counted {[ 0; 1 ]} 1 0 stats_across).
  refine (wk_call {[ 0; 1 ]} _ _ _ _ _ (choosing 3%positive) _ _ _ stats_on 1 3%positive
    (default zero_task (k_tasks machine_across !! 3%positive)) 1 0 (two_machine sleeper) 1 machine_across no_wakeups stats_across 0 0
    (wk_start _) woken_across_ok _ _ _).
  - vm_compute. reflexivity.
  - vm_compute. done.
  - vm_compute. done.
Defined.
