(* ===== verification/Tick.v ===== *)
(** * Tick: the scheduler tick, its remote form and idle CPUs (core.c)

    Counters over the run queues, idle tests, the periodic and the
    high-resolution tick, kicking CPUs that stopped their tick, and the tick that
    a work of [RemoteTick] carries out for them once a second.  The
    statistics hooks of the tick belong to other files and are an interface. *)

From S2P Require Import Prelude Task KernelApi Prio Rq RqClock Uclamp State Sched Setprio Affinity.

Class TickEnv := {
  vcpu_is_preempted : Z -> bool;
  housekeeping_cpu_timer : Z -> bool;  (* housekeeping_cpu(cpu, HK_FLAG_TIMER) *)
  housekeeping_any_cpu_timer : Z;
  domain_spans : Z -> list (gset Z);  (* spans of the domains of a CPU, inside out *)
  tick_nohz_full_cpu : Z -> bool;
  tick_nohz_tick_stopped_cpu : kstate -> Z -> bool;
  tick_nohz_full_kick_cpu : Z -> kstate -> kstate;
  NOHZ_KICK_MASK : Z;
  raise_sched_softirq : kstate -> kstate;  (* raise_softirq_irqoff(SCHED_SOFTIRQ) *)
  arch_scale_freq_tick : kstate -> kstate;
  sched_clock_tick : kstate -> kstate;
  update_thermal_load_avg : Z -> kstate -> kstate;
  calc_global_load_tick : Z -> kstate -> kstate;
  calc_load_nohz_remote : Z -> kstate -> kstate;
  psi_task_tick : Z -> kstate -> kstate;
  perf_event_task_tick : kstate -> kstate;
  trigger_load_balance : Z -> kstate -> kstate;
  op_update_curr : sched_class -> Z -> kstate -> kstate;
  SD_BALANCE_EXEC : Z;
  hrtimer_get_time : kstate -> Z -> Z;  (* the clock of the run queue's hrtick timer *)
  hrtimer_set_expires : Z -> Z -> kstate -> kstate;
  hrtimer_start_expires : Z -> kstate -> kstate;
  smp_call_hrtick_start : Z -> kstate -> kstate  (* smp_call_function_single_async(cpu, hrtick_csd) *)
}.

Section Tick.
Context {P : PrioApi} {Y : PolicyApi} {U : UclampApi} {A : AttrFlagApi} {F : FlagApi} {C : ClockConfig}
  {K : SchedClassOps} {V : SetprioEnv} {E : MigrateEnv} {T : TickEnv}.

(** ** Counting over run queues *)

Fixpoint sum_rqs (f : rq -> Z) (l : list Z) (sum : Z) : M Z :=
  match l with
  | [] => mret sum
  | i :: l => r ← rq_of i; sum_rqs f l (u64 (sum + f r))
  end.

Definition nr_running : M Z := s ← get; sum_rqs Rq.nr_running (for_each_cpu (k_online s)) 0.
Definition single_task_running : M bool :=
  cpu ← smp_processor_id; r ← rq_of cpu; mret (Rq.nr_running r =? 1).
Definition nr_context_switches : M Z := s ← get; sum_rqs Rq.nr_switches (for_each_cpu (k_possible s)) 0.
Definition nr_iowait_of (r : rq) : Z := u64 (Rq.nr_iowait r).
Definition nr_iowait_cpu (cpu : Z) : M Z := r ← rq_of cpu; mret (nr_iowait_of r).
Definition nr_iowait : M Z := s ← get; sum_rqs nr_iowait_of (for_each_cpu (k_possible s)) 0.

(** ** Idle CPUs *)

Definition rq_is_idle (r : rq) : bool :=
  if negb (bool_decide (curr r = idle r)) then false
  else if nz (Rq.nr_running r) then false
  else if ttwu_pending r then false
  else true.
Definition idle_cpu (cpu : Z) : M bool := r ← rq_of cpu; mret (rq_is_idle r).
Definition available_idle_cpu (cpu : Z) : M bool :=
  i ← idle_cpu cpu;
  if negb i then mret false else if vcpu_is_preempted cpu then mret false else mret true.
Definition idle_task (cpu : Z) : M ptr := r ← rq_of cpu; mret (idle r).

(** ** Where timers go *)

(** The inner loop: the first other CPU of the list that is not idle. *)
Fixpoint busy_cpu_in (cpu : Z) (l : list Z) : M (option Z) :=
  match l with
  | [] => mret None
  | i :: l =>
      if cpu =? i then busy_cpu_in cpu l
      else idle ← idle_cpu i; if negb idle then mret (Some i) else busy_cpu_in cpu l
  end.

Fixpoint busy_cpu_near (cpu : Z) (spans : list (gset Z)) : M (option Z) :=
  match spans with
  | [] => mret None
  | span :: spans =>
      o ← busy_cpu_in cpu (filter (fun i => housekeeping_cpu_timer i = true) (for_each_cpu span));
      match o with Some i => mret (Some i) | None => busy_cpu_near cpu spans end
  end.

Definition get_nohz_timer_target : M Z :=
  cpu ← smp_processor_id;
  let housekeeping := housekeeping_cpu_timer cpu in
  idle ← (if housekeeping then idle_cpu cpu else mret true);
  if housekeeping && negb idle then mret cpu
  else
    let default_cpu := if housekeeping then cpu else -1 in
    o ← busy_cpu_near cpu (domain_spans cpu);
    match o with
    | Some i => mret i
    | None => mret (if default_cpu =? -1 then housekeeping_any_cpu_timer else default_cpu)
    end.

(** ** Waking CPUs that stopped their tick *)

Definition wake_up_idle_cpu (cpu : Z) : M unit :=
  r ← rq_of cpu;
  this ← smp_processor_id;
  if cpu =? this then mret tt
  else
    not_polling ← set_nr_and_not_polling (idle r);
    when not_polling (smp_send_reschedule cpu).

Definition wake_up_full_nohz_cpu (cpu : Z) : M bool :=
  s ← get;
  if negb (bool_decide (cpu ∈ k_online s)) then mret true
  else if tick_nohz_full_cpu cpu then
    when (negb (cpu =? k_this_cpu s) || tick_nohz_tick_stopped_cpu s (k_this_cpu s))
      (modify (tick_nohz_full_kick_cpu cpu));;
    mret true
  else mret false.

Definition wake_up_nohz_cpu (cpu : Z) : M unit :=
  woken ← wake_up_full_nohz_cpu cpu;
  if negb woken then wake_up_idle_cpu cpu else mret tt.

Definition nohz_csd_func (cpu : Z) : M unit :=
  r ← rq_of cpu;
  let flags := u32 (nohz_flags r) in
  set_rq cpu (fun r => r <| nohz_flags := andnot (nohz_flags r) NOHZ_KICK_MASK |>);;
  idle ← idle_cpu cpu;
  set_rq cpu (fun r => r <| idle_balance := idle |>);;
  resched ← (if idle : bool then need_resched else mret true);
  when (idle && negb resched)
    (set_rq cpu (fun r => r <| nohz_idle_balance := flags |>);;
     modify raise_sched_softirq).

(** ** The tick *)

(** [curr->sched_class->task_tick(rq, curr, queued)]. *)
Definition curr_task_tick (cpu queued : Z) : M unit :=
  r ← rq_of cpu;
  t ← task_of (curr r);
  modify (op_task_tick (t_sched_class t) cpu (curr r) queued).

Definition scheduler_tick : M unit :=
  cpu ← smp_processor_id;
  modify arch_scale_freq_tick;;
  modify sched_clock_tick;;
  lock_rq cpu;;
  update_clock cpu;;
  modify (update_thermal_load_avg cpu);;
  curr_task_tick cpu 0;;
  modify (calc_global_load_tick cpu);;
  modify (psi_task_tick cpu);;
  unlock_rq cpu;;
  modify perf_event_task_tick;;
  idle ← idle_cpu cpu;
  set_rq cpu (fun r => r <| idle_balance := idle |>);;
  modify (trigger_load_balance cpu).

(** HRTIMER_NORESTART is 0. *)
Definition hrtick (cpu : Z) : M Z :=
  lock_rq cpu;;
  update_clock cpu;;
  curr_task_tick cpu 1;;
  unlock_rq cpu;;
  mret 0.

(** [thermal_pressure], an unsigned long per CPU. *)
Definition arch_set_thermal_pressure (cpus : gset Z) (th_pressure : Z) (thermal_pressure : Z -> Z) : Z -> Z :=
  fold_left (fun m cpu => fun c => if c =? cpu then th_pressure else m c) (for_each_cpu cpus) thermal_pressure.

Definition __hrtick_restart (cpu : Z) : M unit := modify (hrtimer_start_expires cpu).
Definition __hrtick_start (cpu : Z) : M unit := lock_rq cpu;; __hrtick_restart cpu;; unlock_rq cpu.

(** When the slice timer expires: no slice is shorter than 10 us; the unsigned
    delay is compared as a signed number. *)
Definition hrtick_expires (now delay : Z) : Z := s64 (now + Z.max (s64 delay) 10000).

Definition hrtick_start (cpu delay : Z) : M unit :=
  s ← get;
  modify (hrtimer_set_expires cpu (hrtick_expires (hrtimer_get_time s cpu) delay));;
  if cpu =? k_this_cpu s then __hrtick_restart cpu else modify (smp_call_hrtick_start cpu).

(** ** Balancing on exec, and the runtime of a task *)

Definition sched_exec : M unit :=
  p ← current;
  lock_pi p;;
  t ← task_of p;
  s ← get;
  let dest_cpu := op_select_task_rq (t_sched_class t) p (task_cpu t) SD_BALANCE_EXEC 0 s in
  if dest_cpu =? k_this_cpu s then unlock_pi p
  else if bool_decide (dest_cpu ∈ k_active s) then
    unlock_pi p;;
    t ← task_of p;
    stop_one_cpu (task_cpu t) (migration_cpu_stop p dest_cpu);; mret tt
  else unlock_pi p.

(** The part under the locks, and the whole with the test in front of it. *)
Definition task_runtime_locked (p : ptr) : M Z :=
  cpu ← task_rq_lock p;
  running ← task_current cpu p;
  t ← task_of p;
  when (running && task_on_rq_queued t)
    (update_clock cpu;; modify (op_update_curr (t_sched_class t) cpu));;
  t ← task_of p;
  let ns := se_sum_exec_runtime (t_se t) in
  task_rq_unlock cpu p;;
  mret ns.

Definition task_sched_runtime (p : ptr) : M Z :=
  t ← task_of p;
  if negb (nz (on_cpu t)) || negb (task_on_rq_queued t) then mret (se_sum_exec_runtime (t_se t))
  else task_runtime_locked p.

(** ** The tick of another CPU

    What the delayed work does to the run queue of its CPU. *)

Definition tick_remote_rq (cpu : Z) : M unit :=
  s ← get;
  if negb (tick_nohz_tick_stopped_cpu s cpu) then mret tt
  else
    local_irq_disable;;
    lock_rq cpu;;
    s ← get;
    when (bool_decide (cpu ∈ k_online s))
      (update_clock cpu;;
       curr_task_tick cpu 0;;
       modify (calc_load_nohz_remote cpu));;
    unlock_rq cpu;;
    local_irq_enable.
End Tick.
