(* ===== verification/TickSpec.v ===== *)
(** * TickSpec: who ticks disturbs nobody

    Ticking leaves alone who runs where; where timers go; the runtime of a task
    read with and without its locks. *)

From S2P Require Import Prelude Task KernelApi Prio Rq RqClock Uclamp UclampTrace.
From S2P Require Import State Sched SchedFacts ScheduleSpec Setprio TaskLock.
From S2P Require Import Affinity AffinitySpec Ttwu TtwuSpec Keeps Tick.

(** ** Ticking disturbs nobody *)

(** The hooks of the tick keep to the fields of the classes. *)
Class TickLaws {U : UclampApi} (T : TickEnv) : Prop := {
  law_freq_tick s : kframe false s (arch_scale_freq_tick s);
  law_clock_tick s : kframe false s (sched_clock_tick s);
  law_thermal cpu s : kframe false s (update_thermal_load_avg cpu s);
  law_load_tick cpu s : kframe false s (calc_global_load_tick cpu s);
  law_load_remote cpu s : kframe false s (calc_load_nohz_remote cpu s);
  law_psi_tick cpu s : kframe false s (psi_task_tick cpu s);
  law_perf_tick s : kframe false s (perf_event_task_tick s);
  law_trigger_balance cpu s : kframe true s (trigger_load_balance cpu s);
  law_update_curr c cpu s : kframe false s (op_update_curr c cpu s);
  law_raise_softirq s : kframe false s (raise_sched_softirq s)
}.

Section Ticking.
Context {P : PrioApi} {Y : PolicyApi} {U : UclampApi} {A : AttrFlagApi} {F : FlagApi} {FL : FlagLaws F}
  {C : ClockConfig} {K : SchedClassOps} {KL : SchedClassLaws K} {V : SetprioEnv} {E : MigrateEnv}
  {EL : MigrateLaws E} {T : TickEnv} {TL : TickLaws T}.

#[local] Hint Resolve keeps_lock_rq keeps_unlock_rq keeps_lock_pi keeps_unlock_pi keeps_update_clock
  keeps_irqs keeps_current keeps_preempt : keeps.

Lemma keeps_curr_task_tick cpu q : keeps (curr_task_tick cpu q).
Proof using KL. unfold curr_task_tick. keeps_go. by apply (keeps_hook _ _ false), law_task_tick. Qed.

Lemma keeps_idle_cpu cpu : keeps (idle_cpu cpu).
Proof. unfold idle_cpu. keeps_go. Qed.
#[local] Hint Resolve keeps_curr_task_tick keeps_idle_cpu : keeps.

Lemma keeps_scheduler_tick : keeps scheduler_tick.
Proof using KL TL.
  unfold scheduler_tick, smp_processor_id. keeps_go.
  - apply (keeps_hook _ _ false), law_freq_tick.
  - apply (keeps_hook _ _ false), law_clock_tick.
  - apply (keeps_hook _ _ false), law_thermal.
  - apply (keeps_hook _ _ false), law_load_tick.
  - apply (keeps_hook _ _ false), law_psi_tick.
  - apply (keeps_hook _ _ false), law_perf_tick.
  - apply (keeps_hook _ _ true), law_trigger_balance.
Qed.

Lemma keeps_hrtick cpu : keeps (hrtick cpu).
Proof using KL. unfold hrtick. keeps_go. Qed.

Lemma keeps_tick_remote_rq cpu : keeps (tick_remote_rq cpu).
Proof using KL TL.
  unfold tick_remote_rq, local_irq_disable, local_irq_enable. keeps_go.
  apply (keeps_hook _ _ false), law_load_remote.
Qed.

Lemma keeps_nohz_csd_func cpu : keeps (nohz_csd_func cpu).
Proof using TL.
  unfold nohz_csd_func, need_resched. keeps_go. apply (keeps_hook _ _ false), law_raise_softirq.
Qed.

(** ** Where timers go *)

Definition busy_cpu (s : kstate) (i : Z) : Prop := exists r, k_rqs s !! i = Some r /\ rq_is_idle r = false.
Definition near (this i : Z) : Prop := exists span, span ∈ domain_spans this /\ i ∈ span /\ 0 <= i < nr_cpu_ids.

Lemma busy_cpu_in_ok s cpu l : (forall i, i ∈ l -> is_Some (k_rqs s !! i)) ->
  exists o, busy_cpu_in cpu l s = Ok o s /\
    match o with
    | Some i => i ∈ l /\ i <> cpu /\ busy_cpu s i
    | None => forall i, i ∈ l -> i <> cpu -> ~ busy_cpu s i
    end.
Proof.
  induction l as [|i l IH]; intros Hl; [exists None; split; [done|]; intros i []%elem_of_nil|].
  destruct IH as (o & E1 & Ho); [intros j Hj; apply Hl; by right|]. cbn [busy_cpu_in].
  destruct (cpu =? i) eqn:Ei.
  - exists o. split; [done|]. apply Z.eqb_eq in Ei as ->. destruct o as [j|].
    + destruct Ho as (H1 & H2 & H3). split; [by right|done].
    + intros j [->|Hj]%elem_of_cons; [done|by apply Ho].
  - apply Z.eqb_neq in Ei. destruct (Hl i) as [r Hr]; [by left|].
    unfold idle_cpu, rq_of, mbind, M_bind. rewrite Hr. cbn beta iota. unfold mret, M_ret.
    destruct (rq_is_idle r) eqn:Hi; cbn [negb].
    + exists o. split; [done|]. destruct o as [j|].
      * destruct Ho as (H1 & H2 & H3). split; [by right|done].
      * intros j [->|Hj]%elem_of_cons; [|by apply Ho]. intros _ (r' & Hr' & Hi'). congruence.
    + exists (Some i). split; [done|]. split; [by left|]. split; [done|by exists r].
Qed.

Lemma elem_of_for_each_cpu i m : i ∈ for_each_cpu m <-> i ∈ m /\ 0 <= i < nr_cpu_ids.
Proof. unfold for_each_cpu. rewrite list_elem_of_filter, elem_of_seqZ. split; intros [? ?]; split; (done || lia). Qed.

Lemma busy_cpu_near_ok s cpu spans : (forall i, 0 <= i < nr_cpu_ids -> is_Some (k_rqs s !! i)) ->
  exists o, busy_cpu_near cpu spans s = Ok o s /\
    match o with
    | Some i => i <> cpu /\ busy_cpu s i /\ housekeeping_cpu_timer i = true /\
                exists span, span ∈ spans /\ i ∈ span /\ 0 <= i < nr_cpu_ids
    | None => forall i span, span ∈ spans -> i ∈ span -> 0 <= i < nr_cpu_ids -> housekeeping_cpu_timer i = true ->
                i <> cpu -> ~ busy_cpu s i
    end.
Proof.
  intros Hrq. induction spans as [|span spans IH]; [exists None; split; [done|]; intros ? ? []%elem_of_nil|].
  cbn [busy_cpu_near].
  destruct (busy_cpu_in_ok s cpu (filter (fun i => housekeeping_cpu_timer i = true) (for_each_cpu span))) as (o & E1 & Ho).
  { intros i [_ [_ Hi]%elem_of_for_each_cpu]%list_elem_of_filter. by apply Hrq. }
  rewrite (bind_ok _ _ _ _ _ E1). destruct o as [i|].
  - exists (Some i). split; [done|]. destruct Ho as ([Hh [Hi Hb]%elem_of_for_each_cpu]%list_elem_of_filter & Hne & Hbusy).
    repeat (split; [done|]). exists span. split; [by left|done].
  - destruct IH as (o & E2 & Ho'). exists o. split; [done|]. destruct o as [i|].
    + destruct Ho' as (H1 & H2 & H3 & sp & H4 & H5). repeat (split; [done|]). exists sp. split; [by right|done].
    + intros i sp [->|Hsp]%elem_of_cons Hi Hb Hh Hne; [|by apply (Ho' i sp)]. apply Ho; [|done].
      apply list_elem_of_filter. split; [done|]. by apply elem_of_for_each_cpu.
Qed.

(** [get_nohz_timer_target] changes nothing and finds a CPU for a timer: the
    running CPU when it does housekeeping and is busy; else, when some CPU of its
    scheduling domains does housekeeping and is busy, such a CPU; else, every
    candidate being idle, the running CPU if it does housekeeping and any
    housekeeping CPU if not. *)
Theorem nohz_timer_target_busy s :
  (forall i, 0 <= i < nr_cpu_ids -> is_Some (k_rqs s !! i)) -> 0 <= k_this_cpu s < nr_cpu_ids ->
  exists i, get_nohz_timer_target s = Ok i s /\
    let this := k_this_cpu s in
    let candidate j := housekeeping_cpu_timer j = true /\ busy_cpu s j in
    (i = this /\ candidate this \/
     ~ candidate this /\ near this i /\ candidate i \/
     ~ candidate this /\ (forall j, near this j -> ~ candidate j) /\
       i = if housekeeping_cpu_timer this then this else housekeeping_any_cpu_timer).
Proof.
  intros Hrq Hthis. destruct (Hrq _ Hthis) as [r Hr]. set (this := k_this_cpu s) in *.
  assert (busy_cpu s this <-> rq_is_idle r = false) as Hbusy.
  { split; [intros (r' & Hr' & H); congruence|intros H; by exists r]. }
  unfold get_nohz_timer_target.
  assert (smp_processor_id s = Ok this s) as E0 by done. rewrite (bind_ok _ _ _ _ _ E0). cbv zeta.
  assert ((if housekeeping_cpu_timer this then idle_cpu this else mret true) s =
    Ok (if housekeeping_cpu_timer this then rq_is_idle r else true) s) as Ei.
  { destruct (housekeeping_cpu_timer this); [|done].
    unfold idle_cpu, rq_of, mbind, M_bind. by rewrite Hr. }
  rewrite (bind_ok _ _ _ _ _ Ei).
  destruct (housekeeping_cpu_timer this) eqn:Hh, (rq_is_idle r) eqn:Hi; cbn [andb negb].
  2: { exists this. split; [done|]. left. split; [done|]. split; [done|by apply Hbusy]. }
  all: destruct (busy_cpu_near_ok s this (domain_spans this) Hrq) as (o & E1 & Ho); rewrite (bind_ok _ _ _ _ _ E1).
  all: assert (~ (housekeeping_cpu_timer this = true /\ busy_cpu s this)) as Hn
         by (intros [? ?%Hbusy]; congruence); rewrite Hh in Hn.
  all: destruct o as [i|]; [exists i; split; [done|]; right; left; destruct Ho as (_ & Hb & Hh' & Hs); exact (conj Hn (conj Hs (conj Hh' Hb)))|].
  all: eexists; split; [reflexivity|]; right; right; split; [done|]; split.
  all: try (intros j (span & Hs & Hj & Hr') [Hj' Hb]; destruct (decide (j = this)) as [->|Hne];
    [apply Hn; split; [congruence|done]|by apply (Ho j span)]).
  - rewrite (proj2 (Z.eqb_neq _ _)) by lia. done.
  - done.
  - done.
Qed.

(** ** Sums over the run queues *)

(** The counters that go through the possible CPUs one by one compute the sum
    over all run queues, when those are the run queues there are. *)
Lemma sum_rqs_msum f s l : forall m acc,
  NoDup l -> (forall i, i ∈ l <-> is_Some (m !! i)) -> m ⊆ k_rqs s -> u64 acc = acc ->
  sum_rqs f l acc s = Ok (u64 (acc + msum f m)) s.
Proof.
  induction l as [|i l IH]; intros m acc Hl Hm Hsub Hacc; cbn [sum_rqs].
  - replace m with (∅ : gmap Z rq); [by rewrite msum_empty, Z.add_0_r, Hacc|].
    symmetry. apply map_empty. intros j. apply eq_None_not_Some. intros []%Hm%elem_of_nil.
  - apply NoDup_cons in Hl as [Hi Hl]. destruct (proj1 (Hm i)) as [r Hr]; [by left|].
    rewrite (bind_ok _ _ _ _ _ (rq_of_run i s r (lookup_weaken _ _ _ _ Hr Hsub))), (msum_delete f m i r Hr).
    rewrite (IH (delete i m)).
    + by rewrite wrapu_add_l, Z.add_assoc.
    + done.
    + intros j. destruct (decide (j = i)) as [->|Hne].
      * rewrite lookup_delete_eq. split; [done|intros []%is_Some_None].
      * rewrite lookup_delete_ne by done. rewrite <- Hm, elem_of_cons. split; [by right|intros [?|?]; done].
    + etrans; [apply delete_subseteq|done].
    + by rewrite wrapu_wrapu.
Qed.

Lemma NoDup_for_each_cpu m : NoDup (for_each_cpu m).
Proof. apply NoDup_filter, NoDup_seqZ. Qed.

Lemma nr_context_switches_sums s : (forall i, i ∈ for_each_cpu (k_possible s) <-> is_Some (k_rqs s !! i)) ->
  nr_context_switches s = Ok (u64 (msum Rq.nr_switches (k_rqs s))) s.
Proof. intros H. by apply (sum_rqs_msum Rq.nr_switches s _ (k_rqs s) 0); [apply NoDup_for_each_cpu|..]. Qed.

(** ** The runtime of a task without its locks *)

(** Nothing is being added to the runtime of a task that is off the CPU or off
    the queue. *)
Definition runtime_settled (t : task_struct) : Prop := nz (on_cpu t) = false \/ task_on_rq_queued t = false.

(** The unlocked test of [task_sched_runtime] is only an optimisation: for a
    task that is not on a CPU or not queued, taking the locks gives the same
    runtime and changes nothing, not even the clock of the run queue. *)
Theorem task_runtime_unlocked s p t r :
  task_pre false s p t r ->
  (nz (on_cpu t) = false -> curr r <> p) ->
  runtime_settled t ->
  task_runtime_locked p s = Ok (se_sum_exec_runtime (t_se t)) s /\
  task_sched_runtime p s = Ok (se_sum_exec_runtime (t_se t)) s.
Proof.
  intros Hpre Hcur Hfast. split.
  - pose proof Hpre as [Ht Hpi Hr Hl _ _]. unfold task_runtime_locked.
    rewrite (bind_ok _ _ _ _ _ (task_rq_lock_exact s p t r Hpre)). set (s1 := locked_task p (task_cpu t) s).
    assert (task_of p s1 = Ok (t <| pi_lock := true |>) s1) as E2 by (by apply task_of_run, locked_task_at).
    assert (exists r1, k_rqs s1 !! task_cpu t = Some r1 /\ curr r1 = curr r) as (r1 & Hr1 & Hc1).
    { exists (r <| rq_lock := true |>). split; [|done].
      change (k_rqs s1) with (k_rqs (upd_rq (task_cpu t) (fun r => r <| rq_lock := true |>) s)).
      by rewrite upd_rq_lookup, decide_True, Hr. }
    assert (task_current (task_cpu t) p s1 = Ok (bool_decide (curr r = p)) s1) as E3.
    { unfold task_current. rewrite (bind_ok _ _ _ _ _ (rq_of_run _ _ _ Hr1)). by rewrite Hc1. }
    rewrite (bind_ok _ _ _ _ _ E3), (bind_ok _ _ _ _ _ E2).
    change (task_on_rq_queued (t <| pi_lock := true |>)) with (task_on_rq_queued t).
    replace (bool_decide (curr r = p) && task_on_rq_queued t) with false.
    2: { destruct Hfast as [H| ->]; [|by rewrite andb_false_r]. by rewrite bool_decide_eq_false_2 by auto. }
    unfold when at 1. rewrite (bind_ok _ _ s1 tt s1), (bind_ok _ _ _ _ _ E2) by done. cbv zeta.
    by rewrite (bind_ok _ _ _ _ _ (task_rq_unlock_exact s (task_cpu t) p r t Hr Hl Ht Hpi)).
  - unfold task_sched_runtime. rewrite (bind_ok _ _ _ _ _ (task_of_run _ _ _ (tp_task _ _ _ _ _ Hpre))).
    destruct Hfast as [-> | ->]; [done|]. by rewrite orb_true_r.
Qed.
End Ticking.
