(* ===== verification/TickDemo.v ===== *)
(** * TickDemo: ticks and timers at work

    Two CPUs, of which CPU 1 has stopped its tick.  Every
    hypothesis of the theorems of [TickSpec] holds here. *)

From S2P Require Import Prelude Task KernelApi Prio Rq RqClock Uclamp UclampFacts UclampTrace.
From S2P Require Import State Sched SchedFacts ScheduleSpec Setprio TaskLock Machine.
From S2P Require Import SetprioSpec SetprioDemo Affinity AffinitySpec Ttwu TtwuSpec Keeps WakeQ TtwuDemo Tick TickSpec.

#[export] Instance full_dynticks : TickEnv := {|
  vcpu_is_preempted _ := false;
  housekeeping_cpu_timer cpu := true;
  housekeeping_any_cpu_timer := 0;
  domain_spans _ := [{[ 0; 1 ]}];
  tick_nohz_full_cpu cpu := negb (cpu =? 0);
  tick_nohz_tick_stopped_cpu _ cpu := negb (cpu =? 0);
  tick_nohz_full_kick_cpu cpu s := s <| k_ipis := cpu :: k_ipis s |>;
  NOHZ_KICK_MASK := 3;
  raise_sched_softirq s := s;
  arch_scale_freq_tick s := s;
  sched_clock_tick s := s;
  update_thermal_load_avg _ s := s;
  calc_global_load_tick _ s := s;
  calc_load_nohz_remote _ s := s;
  psi_task_tick _ s := s;
  perf_event_task_tick s := s;
  trigger_load_balance _ s := s;
  op_update_curr _ _ s := s;
  SD_BALANCE_EXEC := 4;
  hrtimer_get_time _ _ := 1000000;
  hrtimer_set_expires _ _ s := s;
  hrtimer_start_expires _ s := s;
  smp_call_hrtick_start _ s := s
|}.

#[export] Instance full_dynticks_laws {U : UclampApi} : TickLaws full_dynticks.
Proof. by split. Qed.

(** CPU 1 idles: its timers go to CPU 0, which is busy. *)
Definition idle_on_1 : kstate := (two_machine sleeper) <| k_this_cpu := 1 |>.

Lemma two_machine_rqs t i : 0 <= i < 2 -> is_Some (k_rqs (two_machine t) !! i).
Proof. intros Hi. assert (i = 0 \/ i = 1) as [-> | ->] by lia; by eexists. Qed.

Lemma nohz_timer_target_busy_witness :
  exists i, get_nohz_timer_target idle_on_1 = Ok i idle_on_1 /\
    let this := k_this_cpu idle_on_1 in
    let candidate j := housekeeping_cpu_timer j = true /\ busy_cpu idle_on_1 j in
    (i = this /\ candidate this \/
     ~ candidate this /\ near this i /\ candidate i \/
     ~ candidate this /\ (forall j, near this j -> ~ candidate j) /\
       i = if housekeeping_cpu_timer this then this else housekeeping_any_cpu_timer).
Proof.
  apply (nohz_timer_target_busy (E := two_cpus) (T := full_dynticks) idle_on_1 (two_machine_rqs sleeper)).
  change (0 <= 1 < 2). lia.
Defined.

Example timer_to_cpu_0 :
  match get_nohz_timer_target idle_on_1 with Ok i _ => Some i | _ => None end = Some 0.
Proof. vm_compute. reflexivity. Qed.

(** The runtime of a task that waits in its queue. *)
Lemma task_runtime_unlocked_witness :
  task_runtime_locked (K := choosing 3%positive) 3%positive nice_machine =
    Ok (se_sum_exec_runtime (t_se plain_task)) nice_machine /\
  task_sched_runtime (K := choosing 3%positive) 3%positive nice_machine =
    Ok (se_sum_exec_runtime (t_se plain_task)) nice_machine.
Proof.
  apply (task_runtime_unlocked (K := choosing 3%positive) nice_machine 3%positive plain_task machine_rq nice_machine_pre);
    [done|by left].
Defined.
