(* ===== verification/Exclusive.v ===== *)
(** * Exclusive: a task runs on one CPU at a time

    The well-formedness of the machine the scheduler maintains: every run queue's
    [curr] is a task, no two run queues have the same one, and the tasks marked
    [on_cpu] are exactly those.  It is kept along histories in which the CPUs
    schedule, wake, migrate and boost tasks and tick in any order. *)

From S2P Require Import Prelude Task KernelApi Prio Rq RqClock Uclamp UclampTrace.
From S2P Require Import State Sched SchedFacts ScheduleSpec Machine SwitchCount Setprio TaskLock.
From S2P Require Import SetprioSpec SetprioDemo Affinity AffinitySpec Ttwu TtwuSpec Keeps WakeQ TtwuDemo Tick TickSpec.

(** The part of the state it is about. *)
Definition runs (s : kstate) (c : Z) : option ptr := curr <$> k_rqs s !! c.
Definition busy (s : kstate) (p : ptr) : option bool := (fun t => nz (on_cpu t)) <$> k_tasks s !! p.

Record well_formed (s : kstate) : Prop := {
  wf_curr c p : runs s c = Some p -> busy s p = Some true;
  wf_once c d p : runs s c = Some p -> runs s d = Some p -> c = d;
  wf_busy p : busy s p = Some true -> exists c, runs s c = Some p
}.

Lemma view_runs s s' c : view s' = view s -> runs s' c = runs s c.
Proof. intros H. apply (f_equal (fun v => v.2 !! c)) in H. cbn in H. by rewrite !lookup_fmap in H. Qed.

Lemma view_busy s s' p : view s' = view s -> busy s' p = busy s p.
Proof.
  intros H. apply (f_equal (fun v => (fun x => nz x.2) <$> v.1 !! p)) in H. cbn in H. rewrite !lookup_fmap in H.
  unfold busy. destruct (k_tasks s' !! p), (k_tasks s !! p); cbn in *; congruence.
Qed.

Lemma well_formed_same s s' :
  (forall c, runs s' c = runs s c) -> (forall p, busy s' p = busy s p) -> well_formed s -> well_formed s'.
Proof.
  intros Hr Hb [H1 H2 H3]. split.
  - intros c p. rewrite Hr, Hb. apply H1.
  - intros c d p. rewrite !Hr. apply H2.
  - intros p. rewrite Hb. intros Hp. destruct (H3 p Hp) as [c Hc]. exists c. by rewrite Hr.
Qed.

Lemma well_formed_view s s' : view s' = view s -> well_formed s -> well_formed s'.
Proof. intros H. apply well_formed_same; intros; [by apply view_runs|by apply view_busy]. Qed.

(** ** A call of [__schedule] *)

Section Schedule.
Context {U : UclampApi} {F : FlagApi} {FL : FlagLaws F} {C : ClockConfig}.

Lemma core_busy s s' p : core_same true s s' -> busy s' p = busy s p.
Proof. intros H. by apply (core_same_view (fun t => nz (on_cpu t))). Qed.
Lemma core_runs s s' c : core_same true s s' -> runs s' c = runs s c.
Proof. intros H. by apply (core_same_rq_view curr). Qed.

(** What the switch does to the two flags and to [curr]. *)
Lemma spec_switch_busy vol cpu prev next p n g q :
  prev <> next ->
  busy (spec_switch vol cpu prev next p n g) q =
  (if bool_decide (q = prev) then (fun _ => false) <$> busy g q
   else if bool_decide (q = next) then (fun _ => true) <$> busy g q else busy g q).
Proof.
  intros Hne. unfold spec_switch. cbv zeta.
  set (g1 := upd_task next (fun t => t <| process_switches_count := _ |>) _).
  set (g3 := spec_mm p n prev next (upd_task next (fun t => t <| on_cpu := 1 |>) g1)).
  transitivity (busy (upd_task prev (fun t => t <| on_cpu := 0 |>) g3) q); [by destruct (dropped_mm p n)|].
  assert (busy g3 q = busy (upd_task next (fun t => t <| on_cpu := 1 |>) g1) q) as E3.
  { unfold g3, spec_mm, busy. destruct (mm n), (mm p); [done|by apply upd_task_view| |].
    - destruct (active_mm p); by apply (upd_task_view _ next).
    - rewrite upd_task_view by done. by apply upd_task_view. }
  assert (forall x, busy g1 x = busy g x) as E1.
  { intros x. unfold g1, busy. rewrite upd_task_view by done. rewrite upd_task_view by (by destruct vol). done. }
  destruct (decide (q = prev)) as [->|Hp]; [rewrite bool_decide_eq_true_2 by done|rewrite (bool_decide_eq_false_2 _ Hp)].
  - unfold busy at 1. rewrite upd_task_lookup, decide_True by done. rewrite <- E1.
    transitivity ((fun _ => false) <$> busy g3 prev); [unfold busy; by destruct (k_tasks g3 !! prev)|].
    rewrite E3. unfold busy. rewrite upd_task_lookup, decide_False by done. done.
  - unfold busy at 1. rewrite upd_task_lookup, decide_False by done. fold (busy g3 q). rewrite E3.
    unfold busy at 1. rewrite upd_task_lookup. destruct (decide (q = next)) as [->|Hn].
    + rewrite bool_decide_eq_true_2 by done. rewrite <- E1. unfold busy. by destruct (k_tasks g1 !! next).
    + rewrite (bool_decide_eq_false_2 _ Hn). apply E1.
Qed.

Lemma spec_switch_fields vol cpu prev next p n g :
  k_this_cpu (spec_switch vol cpu prev next p n g) = k_this_cpu g /\
  k_preempt (spec_switch vol cpu prev next p n g) = k_preempt g.
Proof. unfold spec_switch, spec_mm, spec_drop, dropped_mm. destruct (mm n), (mm p), (active_mm p); done. Qed.

(** Who runs where after a call: the CPU runs [next], the previous task is off its
    CPU unless it goes on. *)
Lemma schedule_moves {K : SchedClassOps} {KL : SchedClassLaws K} preempt s s' r p :
  schedule_pre s r p -> __schedule preempt s = Ok tt s' ->
  exists next, (next = curr r \/ busy s next = Some false) /\
    (forall c, runs s' c = if bool_decide (c = k_this_cpu s) then Some next else runs s c) /\
    (forall q, busy s' q = if bool_decide (q = curr r) && negb (bool_decide (curr r = next)) then (fun _ => false) <$> busy s q
       else if bool_decide (q = next) && negb (bool_decide (curr r = next)) then (fun _ => true) <$> busy s q else busy s q) /\
    k_this_cpu s' = k_this_cpu s /\ k_preempt s' = k_preempt s /\ clamps_in_range s' /\
    (idle r = next \/ queued s' next = Some true).
Proof using FL.
  intros Hpre E. destruct (schedule_correct preempt s r p Hpre) as (next & n & s2 & E2 & Hn & Hfree & Hcore & Hcl & Hready).
  rewrite E in E2. injection E2 as <-. exists next.
  pose proof (pre_rq _ _ _ Hpre) as Hr. pose proof (pre_curr _ _ _ Hpre) as Hp.
  set (cpu := k_this_cpu s) in *. set (g := spec_block preempt cpu (curr r) p s).
  assert (schedule_spec preempt next s = (if bool_decide (curr r = next) then g
    else spec_switch (negb preempt && nz (t_state p)) cpu (curr r) next p n g) <| k_irqs_off := false |>) as Es.
  { unfold schedule_spec. fold cpu. by rewrite Hr, Hp, Hn. }
  rewrite Es in Hcore. clear Es.
  assert (forall q, busy g q = busy s q) as Hb by (intros q; by apply spec_block_task).
  assert (forall c, runs g c = runs s c) as Hc by (intros c; by apply spec_block_rq).
  assert (k_this_cpu g = cpu /\ k_preempt g = k_preempt s) as [Hg1 Hg2].
  { subst g. unfold spec_block. by case_ifs. }
  assert (forall x, core_same true x s' -> k_this_cpu s' = k_this_cpu x /\ k_preempt s' = k_preempt x) as Hf.
  { intros x Hx. split; [exact (f_equal k_this_cpu Hx)|exact (f_equal k_preempt Hx)]. }
  destruct (decide (curr r = next)) as [En|En].
  { rewrite bool_decide_eq_true_2 in Hcore by done. destruct (Hf _ Hcore) as [Hf1 Hf2]. split_and!; [by left| | |by rewrite Hf1|by rewrite Hf2|done|exact Hready].
    - intros c. rewrite (core_runs _ _ _ Hcore). transitivity (runs s c); [apply Hc|]. case_bool_decide; [|done].
      subst c. unfold runs. by rewrite Hr, <- En.
    - intros q. rewrite (core_busy _ _ _ Hcore), (bool_decide_eq_true_2 (curr r = next)), !andb_false_r by done. apply Hb. }
  rewrite (bool_decide_eq_false_2 _ En) in *. destruct Hfree as [Hfree|]; [|done].
  destruct (Hf _ Hcore) as [Hf1 Hf2]. split_and!; [right| | | | |done|exact Hready].
  - unfold busy. rewrite Hn. cbn. unfold nz. by rewrite Hfree.
  - intros c. rewrite (core_runs _ _ _ Hcore). rewrite <- Hc. unfold runs.
    change (k_rqs (?x <| k_irqs_off := false |>)) with (k_rqs x). rewrite spec_switch_rq by done. rewrite !upd_rq_lookup.
    destruct (decide (c = cpu)) as [->|Hne]; [rewrite bool_decide_eq_true_2 by done|by rewrite (bool_decide_eq_false_2 _ Hne)].
    specialize (Hc cpu). unfold runs in Hc. rewrite Hr in Hc. by destruct (k_rqs g !! cpu).
  - intros q. rewrite (core_busy _ _ _ Hcore), !andb_true_r. rewrite <- Hb. by apply spec_switch_busy.
  - rewrite Hf1. rewrite <- Hg1. by apply spec_switch_fields.
  - rewrite Hf2. rewrite <- Hg2. by apply spec_switch_fields.
Qed.

Lemma schedule_well_formed {K : SchedClassOps} {KL : SchedClassLaws K} preempt s s' r p :
  schedule_pre s r p -> __schedule preempt s = Ok tt s' -> well_formed s -> well_formed s'.
Proof using FL.
  intros Hpre E Hw. destruct (schedule_moves preempt s s' r p Hpre E) as (next & Hfree & Hr' & Hb' & _).
  pose proof (pre_rq _ _ _ Hpre) as Hr. set (cpu := k_this_cpu s) in *.
  assert (runs s cpu = Some (curr r)) as Hrun by (unfold runs; by rewrite Hr).
  destruct (decide (curr r = next)) as [En|En].
  { eapply well_formed_same; [| |exact Hw].
    - intros c. rewrite Hr'. clear Hb'. case_bool_decide as Ec; [|done]. rewrite Ec. congruence.
    - intros q. by rewrite Hb', (bool_decide_eq_true_2 (curr r = next)), !andb_false_r by done. }
  destruct Hfree as [->|Hidle]; [done|]. rewrite (bool_decide_eq_false_2 _ En) in Hb'.
  setoid_rewrite andb_true_r in Hb'. destruct Hw as [H1 H2 H3].
  assert (forall c, runs s c <> Some next) as Hfree'.
  { intros c Hx. apply H1 in Hx. congruence. }
  split.
  - intros c q. rewrite Hr', Hb'. case_bool_decide as Ec.
    + intros [= <-]. rewrite bool_decide_eq_false_2 by (by intros ->). rewrite bool_decide_eq_true_2 by done. by rewrite Hidle.
    + intros Hq. rewrite bool_decide_eq_false_2; [|intros ->; apply Ec; by apply (H2 c cpu (curr r))].
      rewrite bool_decide_eq_false_2; [by apply (H1 c)|intros ->; by apply (Hfree' c)].
  - intros c d q. rewrite !Hr'. do 2 case_bool_decide; subst; [done| | |apply H2].
    + intros [= <-] Hx. by apply Hfree' in Hx.
    + intros Hx [= <-]. by apply Hfree' in Hx.
  - intros q. rewrite Hb'. case_bool_decide as Eq; [by destruct (busy s q)|]. case_bool_decide as Eq'.
    + intros _. exists cpu. subst q. by rewrite Hr', bool_decide_eq_true_2.
    + intros Hq. destruct (H3 q Hq) as [c Hcq]. exists c. rewrite Hr', bool_decide_eq_false_2; [done|].
      intros ->. rewrite Hrun in Hcq. congruence.
Qed.
End Schedule.

(** ** Histories of the whole machine *)

Section Activity.
Context {P : PrioApi} {Y : PolicyApi} {U : UclampApi} {A : AttrFlagApi} {F : FlagApi} {FL : FlagLaws F}
  {C : ClockConfig}.

(** One activity of some CPU, with whatever the classes and the rest of the kernel
    do that time.  [act_other] is everything that does not switch tasks: user code,
    interrupts, and that the next activity is another CPU's. *)
Inductive activity : kstate -> kstate -> Prop :=
  | act_schedule (K : SchedClassOps) (KL : SchedClassLaws K) preempt s s' r p :
      schedule_pre s r p -> __schedule preempt s = Ok tt s' -> activity s s'
  | act_wake (K : SchedClassOps) (KL : SchedClassLaws K) (V : SetprioEnv) (E : MigrateEnv) (EL : MigrateLaws E)
      (W : WakeEnv) rounds p state flags ret s s' :
      clamps_in_range s -> try_to_wake_up rounds p state flags s = Ok ret s' -> activity s s'
  | act_pending (K : SchedClassOps) (KL : SchedClassLaws K) (V : SetprioEnv) (E : MigrateEnv) (EL : MigrateLaws E)
      (W : WakeEnv) l s s' :
      clamps_in_range s -> sched_ttwu_pending l s = Ok tt s' -> activity s s'
  | act_stopper (K : SchedClassOps) (KL : SchedClassLaws K) (V : SetprioEnv) (E : MigrateEnv) (EL : MigrateLaws E)
      p dest ret s s' :
      (forall x, kframe true x (flush_smp_call_function_from_idle x)) ->
      clamps_in_range s -> migration_cpu_stop p dest s = Ok ret s' -> activity s s'
  | act_boost (K : SchedClassOps) (KL : SchedClassLaws K) (V : SetprioEnv) p donor s s' :
      clamps_in_range s -> rt_mutex_setprio p donor s = Ok tt s' -> activity s s'
  | act_tick (K : SchedClassOps) (KL : SchedClassLaws K) (T : TickEnv) (TL : TickLaws T) s s' :
      clamps_in_range s -> scheduler_tick s = Ok tt s' -> activity s s'
  | act_remote_tick (K : SchedClassOps) (KL : SchedClassLaws K) (T : TickEnv) (TL : TickLaws T) cpu s s' :
      clamps_in_range s -> tick_remote_rq cpu s = Ok tt s' -> activity s s'
  | act_other s s' :
      (forall c, runs s' c = runs s c) -> (forall p, busy s' p = busy s p) -> activity s s'.

Lemma kept_well_formed {X} (m : M X) s a s' :
  keeps m -> clamps_in_range s -> m s = Ok a s' -> well_formed s -> well_formed s'.
Proof. intros Hk Hc E. apply well_formed_view. by destruct (Hk s a s' I Hc E). Qed.

Lemma activity_well_formed s s' : activity s s' -> well_formed s -> well_formed s'.
Proof using FL.
  intros [K KL preempt x x' r p Hpre E|K KL V E EL W rounds p st fl ret x x' Hc Hr|K KL V E EL W l x x' Hc Hr
    |K KL V E EL p dest ret x x' Hf Hc Hr|K KL V p donor x x' Hc Hr|K KL T TL x x' Hc Hr|K KL T TL cpu x x' Hc Hr|x x' H1 H2].
  - by eapply schedule_well_formed.
  - eapply kept_well_formed; [|exact Hc|exact Hr]. apply keeps_try_to_wake_up.
  - eapply kept_well_formed; [|exact Hc|exact Hr]. apply keeps_sched_ttwu_pending.
  - eapply kept_well_formed; [|exact Hc|exact Hr]. by apply keeps_migration_cpu_stop.
  - eapply kept_well_formed; [|exact Hc|exact Hr]. apply keeps_rt_mutex_setprio.
  - eapply kept_well_formed; [|exact Hc|exact Hr]. apply keeps_scheduler_tick.
  - eapply kept_well_formed; [|exact Hc|exact Hr]. apply keeps_tick_remote_rq.
  - by apply well_formed_same.
Qed.

Lemma history_well_formed s0 s : rtc activity s0 s -> well_formed s0 -> well_formed s.
Proof using FL. induction 1 as [x|x y z Hxy _ IH]; intros H0; [exact H0|]. by apply IH, (activity_well_formed x y). Qed.

(** C11. No task ever runs on two CPUs: along every history of scheduler calls,
    wakeups, wake lists, migrations, priority inheritance and ticks, of the CPU's own
    or remote, by any CPUs in any order the machine stays well formed.  Two run queues never have the same
    current task, a current task is marked as running on a CPU, and no other
    task is, so the CPU that is told to wait for a task to leave its CPU waits
    for one that really is there. *)
Theorem one_cpu_per_task s0 s :
  well_formed s0 -> rtc activity s0 s ->
  well_formed s /\
  forall c d r1 r2, k_rqs s !! c = Some r1 -> k_rqs s !! d = Some r2 -> curr r1 = curr r2 -> c = d.
Proof using FL.
  intros H0 Hr. pose proof (history_well_formed _ _ Hr H0) as H. split; [exact H|]. intros c d r1 r2 H1 H2 E. apply (wf_once s H c d (curr r1)); unfold runs.
  - by rewrite H1.
  - by rewrite H2, E.
Qed.
End Activity.

(** ** Two CPUs at work *)

Definition well_formed_b (s : kstate) : bool :=
  forallb (fun x : Z * rq => bool_decide (busy s (curr x.2) = Some true) &&
    forallb (fun y : Z * rq => bool_decide (curr x.2 = curr y.2 -> x.1 = y.1)) (map_to_list (k_rqs s)))
    (map_to_list (k_rqs s)) &&
  forallb (fun x : ptr * task_struct => negb (nz (on_cpu x.2)) ||
    existsb (fun y : Z * rq => bool_decide (curr y.2 = x.1)) (map_to_list (k_rqs s))) (map_to_list (k_tasks s)).

Lemma well_formed_b_ok s : well_formed_b s = true -> well_formed s.
Proof.
  unfold well_formed_b. rewrite andb_true_iff, !forallb_forall. intros [H1 H2].
  assert (forall c p, runs s c = Some p -> exists r, In (c, r) (map_to_list (k_rqs s)) /\ p = curr r) as Hin.
  { intros c p (r & Hr & ->)%fmap_Some. exists r. split; [|done]. by apply list_elem_of_In, elem_of_map_to_list. }
  split.
  - intros c p (r & Hr & ->)%Hin. apply H1, andb_true_iff in Hr as [Hr _]. by apply bool_decide_eq_true in Hr.
  - intros c d p (r & Hr & ->)%Hin (r' & Hr' & E)%Hin. apply H1, andb_true_iff in Hr as [_ Hr].
    rewrite forallb_forall in Hr. apply Hr, bool_decide_eq_true in Hr'. by apply Hr'.
  - intros p (t & Ht & E)%fmap_Some. specialize (H2 (p, t)).
    rewrite <- list_elem_of_In, elem_of_map_to_list in H2. apply H2, orb_true_iff in Ht as [Ht|Ht].
    + cbn in Ht. rewrite <- E in Ht. done.
    + apply existsb_exists in Ht as ((c & r) & Hr & Hc). apply bool_decide_eq_true in Hc. exists c.
      apply list_elem_of_In, elem_of_map_to_list in Hr. unfold runs. rewrite Hr. cbn in *. by rewrite Hc.
Qed.

(** Task 3 is runnable; CPU 0 switches to it, then CPU 1 tries to take it too. *)
Definition run_on (cpu : Z) (s : kstate) : kstate := s <| k_this_cpu := cpu |> <| k_preempt := 1 |>.
Definition after {X} (o : outcome X) (s : kstate) : kstate := match o with Ok _ s' => s' | _ => s end.
Definition race_0 : kstate := run_on 0 (two_machine (plain_task <| on_rq := 1 |>)).
Definition race_1 : kstate := after (__schedule (K := choosing 3%positive) true race_0) race_0.
Definition race_2 : kstate := run_on 1 race_1.
Definition race_3 : kstate := after (__schedule (K := choosing 3%positive) true race_2) race_2.

Example race_winner : (runs race_3 0, runs race_3 1) = (Some 3%positive, Some 4%positive).
Proof. vm_compute. reflexivity. Qed.

Lemma race_schedule s :
  (match k_rqs s !! k_this_cpu s with Some r => bool_decide (is_Some (k_tasks s !! curr r)) | None => false end = true) ->
  pre_b s = true -> activity s (after (__schedule (K := choosing 3%positive) true s) s).
Proof.
  intros Hs Hb. destruct (k_rqs s !! k_this_cpu s) as [r|] eqn:Hr; [|done]. apply bool_decide_eq_true in Hs as [p Hp].
  pose proof (pre_b_ok s r p Hr Hp Hb) as Hpre.
  destruct (schedule_correct (K := choosing 3%positive) true s r p Hpre) as (next & n & s' & E' & _).
  rewrite E'. by apply (act_schedule (choosing 3%positive) _ true s s' r p).
Qed.

Lemma race_turn cpu s : activity s (run_on cpu s).
Proof. by apply act_other. Qed.

Lemma one_cpu_per_task_witness :
  well_formed race_3 /\
  forall c d r1 r2, k_rqs race_3 !! c = Some r1 -> k_rqs race_3 !! d = Some r2 -> curr r1 = curr r2 -> c = d.
Proof.
  apply (one_cpu_per_task race_0 race_3).
  - apply well_formed_b_ok. vm_compute. reflexivity.
  - apply (rtc_l _ _ race_1); [apply race_schedule; vm_compute; reflexivity|].
    apply (rtc_l _ _ race_2); [apply race_turn|].
    apply rtc_once, race_schedule; vm_compute; reflexivity.
Defined.
