(* ===== verification/Resched.v ===== *)
(** * Resched: points where a task may be preempted (core.c)

    [_cond_resched], [__cond_resched_lock], [yield], [schedule_user] and
    [preempt_schedule_notrace].  They loop while the current task is marked for
    rescheduling; [cond_resched_serves] shows what every round does, and that only
    a balance callback that marks the new task makes them go round again. *)

From S2P Require Import Prelude Task KernelApi Prio Rq RqClock Uclamp UclampTrace.
From S2P Require Import State Sched SchedFacts ScheduleSpec Machine SwitchCount Affinity AffinitySpec Exclusive.

(** Spinlocks of other code, the generic preemption checks, RCU, and context
    tracking. *)
Class ReschedEnv := {
  should_resched : kstate -> Z -> bool;
  rcu_all_qs : kstate -> kstate;
  cpu_relax : kstate -> kstate;
  spin_lock : ptr -> M unit;
  spin_unlock : ptr -> M unit;
  spin_is_contended : kstate -> ptr -> bool;
  CONFIG_PREEMPTION : bool;
  PREEMPT_LOCK_OFFSET : Z;
  exception_enter : M Z;
  exception_exit : Z -> M unit
}.

Section Resched.
Context {P : PrioApi} {U : UclampApi} {F : FlagApi} {C : ClockConfig} {K : SchedClassOps} {R : ReschedEnv}.

Definition spin_needbreak (s : kstate) (lock : ptr) : bool :=
  if CONFIG_PREEMPTION then spin_is_contended s lock else false.

Definition _cond_resched (fuel : nat) : M Z :=
  s ← get;
  if should_resched s 0 then preempt_schedule_common fuel;; mret 1
  else modify rcu_all_qs;; mret 0.

Definition __cond_resched_lock (fuel : nat) (lock : ptr) : M Z :=
  s ← get;
  let resched := should_resched s PREEMPT_LOCK_OFFSET in
  if spin_needbreak s lock || resched then
    spin_unlock lock;;
    (if resched then preempt_schedule_common fuel else modify cpu_relax);;
    spin_lock lock;;
    mret 1
  else mret 0.

Definition yield (fuel : nat) : M unit :=
  set_current_state TASK_RUNNING;;
  do_sched_yield fuel.

Definition schedule_user (fuel : nat) : M unit :=
  prev_state ← exception_enter;
  schedule fuel;;
  exception_exit prev_state.

Definition preempt_schedule_notrace (fuel : nat) : M unit :=
  s ← get;
  if negb ((k_preempt s =? 0) && negb (k_irqs_off s)) then mret tt
  else do_while_resched fuel
    (preempt_disable;; prev_ctx ← exception_enter; __schedule true;; exception_exit prev_ctx;;
     preempt_enable_no_resched).

Lemma do_while_resched_ext fuel (b b' : M unit) : (forall s, b s = b' s) -> forall s, do_while_resched fuel b s = do_while_resched fuel b' s.
Proof using.
  intros H. induction fuel as [|fuel IH]; intros s; [done|]. cbn [do_while_resched]. unfold mbind, M_bind. rewrite H.
  destruct (b' s) as [[] s1| |]; [|done..]. destruct (need_resched s1) as [[] s2| |]; [apply IH|done..].
Qed.

(** Without context tracking the variant for tracers is [preempt_schedule]. *)
Lemma preempt_schedule_notrace_same fuel v s :
  (forall s, exception_enter s = Ok v s) -> (forall v s, exception_exit v s = Ok tt s) ->
  preempt_schedule_notrace fuel s = preempt_schedule fuel s.
Proof using.
  intros H1 H2. unfold preempt_schedule_notrace, preempt_schedule, preempt_schedule_common.
  rewrite !(bind_ok get _ s s s eq_refl). destruct (negb _); [done|]. apply do_while_resched_ext. intros x.
  unfold mbind, M_bind. destruct (preempt_disable x) as [[] x1| |]; [|done..]. rewrite H1.
  destruct (__schedule true x1) as [[] x2| |]; [|done..]. by rewrite H2.
Qed.

(** Without contention and without a mark the lock is kept. *)
Lemma cond_resched_lock_idle fuel lock s :
  spin_needbreak s lock = false -> should_resched s PREEMPT_LOCK_OFFSET = false -> __cond_resched_lock fuel lock s = Ok 0 s.
Proof using. intros H1 H2. unfold __cond_resched_lock. by rewrite (bind_ok get _ s s s eq_refl), H1, H2. Qed.

(** With contention only, it is dropped and taken again. *)
Lemma cond_resched_lock_contended fuel lock s s1 s2 :
  spin_needbreak s lock = true -> should_resched s PREEMPT_LOCK_OFFSET = false ->
  spin_unlock lock s = Ok tt s1 -> spin_lock lock (cpu_relax s1) = Ok tt s2 -> __cond_resched_lock fuel lock s = Ok 1 s2.
Proof using.
  intros H1 H2 E1 E2. unfold __cond_resched_lock. rewrite (bind_ok get _ s s s eq_refl), H1, H2. cbn [orb].
  rewrite (bind_ok _ _ _ _ _ E1), (bind_ok (modify cpu_relax) _ s1 tt (cpu_relax s1) eq_refl). by rewrite (bind_ok _ _ _ _ _ E2).
Qed.
End Resched.

(** ** Marks

    Which tasks are to be rescheduled, and steps of a CPU that mark no task but
    those that run on other CPUs. *)

Section Marks.
Context {U : UclampApi} {F : FlagApi}.

Definition marked (s : kstate) (p : ptr) : bool :=
  match k_tasks s !! p with Some t => test_tsk_need_resched t | None => false end.
Definition elsewhere (cpu : Z) (s : kstate) (p : ptr) : Prop := exists d, d <> cpu /\ runs s d = Some p.

(** With [own] the task that runs on [cpu] itself may be marked too, and goes on. *)
Record quietly (own : bool) (cpu : Z) (s s' : kstate) : Prop := {
  qu_this : k_this_cpu s' = k_this_cpu s;
  qu_runs d : d <> cpu -> runs s' d = runs s d;
  qu_own : own = true -> runs s' cpu = runs s cpu;
  qu_marks p : marked s' p = true -> marked s p = true \/ elsewhere cpu s p \/ own = true /\ runs s cpu = Some p
}.

#[export] Instance quietly_preorder own cpu : PreOrder (quietly own cpu).
Proof.
  split; [by split; auto|]. intros s1 s2 s3 [A1 A2 A3 A4] [B1 B2 B3 B4]. split; [congruence| | |].
  - intros d Hd. by rewrite B2, A2.
  - intros Ho. by rewrite B3, A3.
  - intros p Hp. destruct (B4 p Hp) as [H|[(d & Hd & H)|[Ho H]]]; [auto|right; left|right; right].
    + exists d. by rewrite <- A2.
    + split; [done|]. by rewrite <- A3.
Qed.

(** Which tasks the hooks of [__schedule] mark.  Classes mark with [resched_curr],
    the current task of some run queue: before the switch that is, on the CPU
    itself, the previous task, and when the balance callbacks run, the next one.
    The hooks of the switch itself mark no task of the CPU. *)
Class MarkLaws (O : SchedClassOps) : Prop := {
  mark_dequeue c cpu p fl s : quietly true cpu s (op_dequeue_task c cpu p fl s);
  mark_pick c cpu s : quietly true cpu s (op_pick_next_task c cpu s).1;
  mark_pick_fair cpu p s : quietly true cpu s (op_pick_next_task_fair cpu p s).1;
  mark_put_prev c cpu p s : quietly true cpu s (op_put_prev_task c cpu p s);
  mark_balance c cpu p s : quietly true cpu s (op_balance c cpu p s).1;
  mark_callback f cpu s : quietly true cpu s (op_callback f cpu s);
  mark_hrtimer_cancel cpu s : quietly true cpu s (hrtimer_cancel cpu s);
  mark_rseq_preempt p s : quietly false (k_this_cpu s) s (op_rseq_preempt p s);
  mark_sched_out p q s : quietly false (k_this_cpu s) s (op_sched_out_notifiers p q s);
  mark_sched_in p s : quietly false (k_this_cpu s) s (op_sched_in_notifiers p s);
  mark_dead c p s : quietly false (k_this_cpu s) s (op_task_dead c p s);
  mark_put_dead p s : quietly false (k_this_cpu s) s (put_task_struct_rcu_user p s)
}.

(** Run on [cpu], [m] is quiet, if it returns. *)
Definition hushed (own : bool) (cpu : Z) {X} (m : M X) : Prop :=
  forall s a s', k_this_cpu s = cpu -> m s = Ok a s' -> quietly own cpu s s'.

Lemma hushed_bind own cpu {X Y} (m : M X) (f : X -> M Y) :
  hushed own cpu m -> (forall a, hushed own cpu (f a)) -> hushed own cpu (m ≫= f).
Proof.
  intros Hm Hf s a s' Hs. unfold mbind, M_bind. destruct (m s) as [b s1| |] eqn:E1; [|done..]. intros E2.
  pose proof (Hm _ _ _ Hs E1) as H1. etransitivity; [exact H1|]. eapply Hf; [|exact E2]. by rewrite (qu_this _ _ _ _ H1).
Qed.

Lemma hushed_pure own cpu {X} (m : M X) : (forall s a s', m s = Ok a s' -> s' = s) -> hushed own cpu m.
Proof. intros H s a s' _ E. by rewrite (H _ _ _ E). Qed.

Lemma hushed_ret own cpu {X} (x : X) : hushed own cpu (mret x).
Proof. apply hushed_pure. intros s a s' [= _ <-]. done. Qed.
Lemma hushed_get own cpu : hushed own cpu get.
Proof. apply hushed_pure. intros s a s' [= _ <-]. done. Qed.
Lemma hushed_bug own cpu {X} : hushed own cpu (bug (A := X)).
Proof. by intros s a s' _. Qed.
Lemma hushed_hang own cpu {X} : hushed own cpu (hang (A := X)).
Proof. by intros s a s' _. Qed.
Lemma hushed_rq_of own cpu c : hushed own cpu (rq_of c).
Proof. apply hushed_pure. intros s a s'. unfold rq_of. destruct (_ !! _); [by intros [= _ <-]|done]. Qed.
Lemma hushed_task_of own cpu p : hushed own cpu (task_of p).
Proof. apply hushed_pure. intros s a s'. unfold task_of. destruct (_ !! _); [by intros [= _ <-]|done]. Qed.
Lemma hushed_if own cpu {X} (b : bool) (m1 m2 : M X) :
  hushed own cpu m1 -> hushed own cpu m2 -> hushed own cpu (if b then m1 else m2).
Proof. by destruct b. Qed.
Lemma hushed_when own cpu b m : hushed own cpu m -> hushed own cpu (when b m).
Proof. intros H. apply hushed_if; [done|apply hushed_ret]. Qed.
Lemma hushed_modify own cpu f : (forall s, k_this_cpu s = cpu -> quietly own cpu s (f s)) -> hushed own cpu (modify f).
Proof. intros H s a s' Hs [= _ <-]. by apply H. Qed.

(** Fields of the CPU and of the machine. *)
Lemma quietly_same own cpu s s' :
  k_this_cpu s' = k_this_cpu s -> k_rqs s' = k_rqs s -> k_tasks s' = k_tasks s -> quietly own cpu s s'.
Proof.
  intros E1 E2 E3. split; [done|intros d _; unfold runs; by rewrite E2|intros _; unfold runs; by rewrite E2|].
  intros p; unfold marked; rewrite E3; auto.
Qed.

(** The CPU's own run queue may change, its current task only without [own]. *)
Lemma quietly_put_rq own cpu s r r' n :
  k_rqs s !! cpu = Some r -> (own = true -> curr r' = curr r) ->
  quietly own cpu s (s <| k_rqs := <[cpu := r']> (k_rqs s) |> <| k_preempt := n |>).
Proof.
  intros Hr Hc. split; [done| | |auto].
  - intros d Hd. unfold runs. rsimpl. by rewrite lookup_insert_ne.
  - intros Ho. unfold runs. rsimpl. rewrite lookup_insert_eq, Hr. cbn. by rewrite Hc.
Qed.
Lemma hushed_put_rq cpu r : hushed false cpu (put_rq cpu r).
Proof.
  intros s a s' _ [= _ <-]. split; [done| |done|auto]. intros d Hd. unfold runs. rsimpl. by rewrite lookup_insert_ne.
Qed.
Lemma hushed_rq_put own cpu {X} g (f : rq -> M X) :
  (forall r, curr (g r) = curr r) -> (forall r, hushed own cpu (f r)) ->
  hushed own cpu (r ← rq_of cpu; put_rq cpu (g r);; f r).
Proof.
  intros Hg Hf s a s' Hs (r & ? & [-> Hr]%rq_of_inv & E)%bind_inv. apply bind_inv in E as ([] & s1 & [= <-] & E).
  pose proof (quietly_put_rq own cpu s r (g r) (k_preempt s) Hr (fun _ => Hg r)) as H.
  etransitivity; [exact H|]. by eapply Hf; [|exact E].
Qed.
Lemma hushed_set_rq own cpu f : (own = true -> forall r, curr (f r) = curr r) -> hushed own cpu (set_rq cpu f).
Proof.
  intros Hf s a s' _. unfold set_rq, mbind, M_bind, rq_of. destruct (k_rqs s !! cpu) as [r|] eqn:Hr; [|done].
  intros [= _ <-]. by apply (quietly_put_rq own cpu s r (f r) (k_preempt s)); [|intros Ho; apply Hf].
Qed.

(** A task may change when no mark is added. *)
Lemma quietly_put_task own cpu s p t t' :
  k_tasks s !! p = Some t -> (test_tsk_need_resched t' = true -> test_tsk_need_resched t = true) ->
  quietly own cpu s (s <| k_tasks := <[p := t']> (k_tasks s) |>).
Proof.
  intros Ht H. split; [done|done|done|]. intros q. unfold marked. rsimpl. destruct (decide (q = p)) as [->|Hne].
  - rewrite lookup_insert_eq, Ht. auto.
  - rewrite lookup_insert_ne by done. auto.
Qed.

Lemma hushed_set_task own cpu p f :
  (forall t, test_tsk_need_resched (f t) = true -> test_tsk_need_resched t = true) -> hushed own cpu (set_task p f).
Proof.
  intros H s a s' _. unfold set_task, mbind, M_bind, task_of. destruct (k_tasks s !! p) as [t|] eqn:Ht; [|done].
  intros [= _ <-]. apply (quietly_put_task _ _ _ _ t); [done|apply H].
Qed.
End Marks.

Create HintDb hushed.
#[export] Hint Resolve hushed_ret hushed_get hushed_bug hushed_hang hushed_rq_of hushed_task_of hushed_put_rq : hushed.
#[export] Hint Extern 1 (hushed _ _ (set_rq _ _)) => apply hushed_set_rq; done : hushed.

(** Through sequencing and branching, down to the calls that are known. *)
Ltac hush :=
  repeat (auto with hushed; lazymatch goal with
  | |- hushed _ _ (mbind _ _) => apply hushed_bind; [|intros ?]
  | |- hushed _ _ (when _ _) => apply hushed_when
  | |- hushed _ _ (match ?x with _ => _ end) => destruct x
  | |- hushed _ _ (let _ := _ in _) => cbv zeta
  end).

(** ** [__schedule] *)

Section Schedule.
Context {U : UclampApi} {F : FlagApi} {FL : FlagLaws F} {C : ClockConfig} {K : SchedClassOps} {KL : SchedClassLaws K}
  {ML : MarkLaws K}.
Implicit Types (cpu : Z) (prev next : ptr).

Lemma hushed_preempt own cpu v : hushed own cpu (preempt_count_inc v).
Proof. apply hushed_modify. intros s _. by apply quietly_same. Qed.
Lemma hushed_irqs own cpu b : hushed own cpu (modify (fun s => s <| k_irqs_off := b |>)).
Proof. apply hushed_modify. intros s _. by apply quietly_same. Qed.
Lemma hushed_mm own cpu f : hushed own cpu (modify (fun s => s <| k_mm_count := f s |>)).
Proof. apply hushed_modify. intros s _. by apply quietly_same. Qed.
Lemma hushed_this own cpu : hushed own cpu smp_processor_id.
Proof. unfold smp_processor_id. hush. Qed.
#[local] Hint Resolve hushed_preempt hushed_irqs hushed_mm hushed_this : hushed.

Lemma hushed_lock own cpu : hushed own cpu (lock_rq cpu).
Proof.
  intros s a s' _ (r & ? & [-> Hr]%rq_of_inv & E)%bind_inv. destruct (rq_lock r); [done|].
  apply bind_inv in E as ([] & s1 & [= <-] & [= _ <-]). by apply (quietly_put_rq own cpu s r (r <| rq_lock := true |>)).
Qed.
Lemma hushed_unlock own cpu : hushed own cpu (unlock_rq cpu).
Proof.
  intros s a s' _ (r & ? & [-> Hr]%rq_of_inv & E)%bind_inv. destruct (rq_lock r); [|done].
  apply bind_inv in E as ([] & s1 & [= <-] & [= _ <-]). by apply (quietly_put_rq own cpu s r (r <| rq_lock := false |>)).
Qed.
Lemma hushed_clock own cpu : hushed own cpu (update_clock cpu).
Proof.
  unfold update_clock. apply hushed_bind; [hush|]. intros s. apply hushed_set_rq. intros _ r.
  exact (erase_rq_field curr r _ ltac:(done) (proj1 (update_rq_clock_frame _ r))).
Qed.
Lemma hushed_lift_option own cpu {X} (o : option X) : hushed own cpu (lift_option o).
Proof using. destruct o; cbn [lift_option]; hush. Qed.
Lemma hushed_current own cpu : hushed own cpu current.
Proof using. unfold current. hush. Qed.
#[local] Hint Resolve hushed_lock hushed_unlock hushed_clock hushed_lift_option hushed_current : hushed.

Lemma hushed_hook own cpu (f : kstate -> kstate) : (forall s, quietly own cpu s (f s)) -> hushed own cpu (modify f).
Proof using. intros H. apply hushed_modify. auto. Qed.

(** *** Up to the switch *)

Lemma hushed_dequeue_task cpu p fl : hushed true cpu (dequeue_task cpu p fl).
Proof using ML.
  unfold dequeue_task. apply hushed_bind; [hush|]. intros _ s a s' Hs (r & ? & [-> Hr]%rq_of_inv & E)%bind_inv.
  apply bind_inv in E as (t & ? & [-> Ht]%task_of_inv & E).
  destruct (uclamp_rq_dec class_uclamp_enabled r t) as [[r' t']|] eqn:Ed; [|done].
  apply bind_inv in E as (? & ? & [= <- <-] & E). cbv beta iota in E.
  apply (dec_blind curr thread_info_flags) in Ed as [Er Et]; [|by intros ? []|by intros ? []|done].
  apply bind_inv in E as ([] & s1 & [= <-] & E). apply bind_inv in E as ([] & s2 & [= <-] & [= _ <-]).
  set (s1 := s <| k_rqs := <[cpu := r']> (k_rqs s) |>). transitivity s1; [|etransitivity; [|apply mark_dequeue]].
  - by apply (quietly_put_rq true cpu s r r' (k_preempt s)).
  - apply (quietly_put_task true cpu s1 p t t'); [exact Ht|]. unfold test_tsk_need_resched. by rewrite Et.
Qed.
#[local] Hint Resolve hushed_dequeue_task : hushed.

Lemma hushed_deactivate_task cpu p fl : hushed true cpu (deactivate_task cpu p fl).
Proof using ML. unfold deactivate_task. hush. by apply hushed_set_task. Qed.
#[local] Hint Resolve hushed_deactivate_task : hushed.

Lemma hushed_try_to_block cpu p preempt : hushed true cpu (try_to_block cpu p preempt).
Proof using ML. unfold try_to_block. hush; by apply hushed_set_task. Qed.
#[local] Hint Resolve hushed_try_to_block : hushed.

Lemma hushed_balance_pass l cpu p : hushed true cpu (balance_pass l cpu p).
Proof using ML.
  induction l as [|c l IH]; cbn [balance_pass]; [hush|]. intros s a s' Hs E. pose proof (mark_balance c cpu p s) as H.
  unfold mbind, M_bind, get in E. destruct (op_balance c cpu p s) as [s1 found]. cbn [fst] in H. unfold modify in E.
  etransitivity; [exact H|]. destruct found; [by injection E as _ <-|]. eapply IH; [|exact E]. by rewrite (qu_this _ _ _ _ H).
Qed.

Lemma hushed_put_prev_task cpu p : hushed true cpu (put_prev_task cpu p).
Proof using ML. unfold put_prev_task. hush. apply hushed_hook. intros s. apply mark_put_prev. Qed.

Lemma hushed_class_pick c cpu : hushed true cpu (class_pick c cpu).
Proof using ML.
  intros s a s' _. unfold class_pick. pose proof (mark_pick c cpu s) as H.
  destruct (op_pick_next_task c cpu s) as [s1 o]. by intros [= _ <-].
Qed.
#[local] Hint Resolve hushed_balance_pass hushed_put_prev_task hushed_class_pick : hushed.

Lemma hushed_pick_loop l cpu : hushed true cpu (pick_loop l cpu).
Proof using ML. induction l as [|c l IH]; cbn [pick_loop]; hush. Qed.
#[local] Hint Resolve hushed_pick_loop : hushed.

Lemma hushed_pick_restart cpu p : hushed true cpu (pick_restart cpu p).
Proof using ML. unfold pick_restart, put_prev_task_balance. hush. Qed.
#[local] Hint Resolve hushed_pick_restart : hushed.

Lemma hushed_pick_next_task cpu p : hushed true cpu (pick_next_task cpu p).
Proof using ML.
  unfold pick_next_task. apply hushed_bind; [hush|intros r]. apply hushed_bind; [hush|intros t].
  apply hushed_if; [|hush]. intros s q s' Hs E. pose proof (mark_pick_fair cpu p s) as H.
  rewrite (bind_ok get _ s s s eq_refl) in E. destruct (op_pick_next_task_fair cpu p s) as [s1 o]. cbn [fst] in H.
  rewrite (bind_ok (modify (fun _ => s1)) _ s tt s1 eq_refl) in E. etransitivity; [exact H|].
  assert (k_this_cpu s1 = cpu) as Hs1 by (by rewrite (qu_this _ _ _ _ H)).
  revert E. apply (fun Hh : hushed true cpu _ => Hh s1 q s' Hs1). hush.
Qed.
#[local] Hint Resolve hushed_pick_next_task : hushed.

Lemma hushed_schedule_debug cpu p preempt : hushed true cpu (schedule_debug p preempt).
Proof using. unfold schedule_debug. hush. apply hushed_modify. intros s _. by apply quietly_same. Qed.
Lemma hushed_hrtick cpu : hushed true cpu (hrtick_clear cpu).
Proof using ML. unfold hrtick_clear. hush. apply hushed_hook. intros s. apply mark_hrtimer_cancel. Qed.
Lemma hushed_irq_off cpu : hushed true cpu local_irq_disable.
Proof using. apply hushed_irqs. Qed.
#[local] Hint Resolve hushed_schedule_debug hushed_hrtick hushed_irq_off : hushed.

(** *** The switch *)

Lemma hushed_finish_task_switch cpu p : hushed false cpu (finish_task_switch p).
Proof using ML.
  intros s a s' Hs. unfold finish_task_switch. rewrite (bind_ok _ _ s (k_this_cpu s) s) by done. rewrite Hs.
  revert s a s' Hs. change (hushed false cpu (r ← rq_of cpu; let mm := prev_mm r in
    modify (fun s => if k_preempt s =? 2 * PREEMPT_DISABLE_OFFSET then s else s <| k_preempt := FORK_PREEMPT_COUNT |>);;
    put_rq cpu (r <| prev_mm := None |>);; t ← task_of p; let prev_state := t_state t in
    finish_task p;; finish_lock_switch cpu;; now ← current;
    modify (op_sched_in_notifiers now);; match mm with Some mm => mmdrop mm | None => mret tt end;;
    when (prev_state =? TASK_DEAD) (t ← task_of p; modify (op_task_dead (t_sched_class t) p);; modify (put_task_struct_rcu_user p));;
    mret cpu)).
  unfold finish_lock_switch, finish_task. hush; try by apply hushed_set_task.
  - apply hushed_modify. intros s _. destruct (_ =? _); [done|by apply quietly_same].
  - by apply hushed_irqs.
  - apply hushed_modify. intros s <-. apply mark_sched_in.
  - apply hushed_mm.
  - apply hushed_modify. intros s <-. apply mark_dead.
  - apply hushed_modify. intros s <-. apply mark_put_dead.
Qed.
#[local] Hint Resolve hushed_finish_task_switch : hushed.

Lemma hushed_prepare cpu p n : hushed false cpu (prepare_task_switch p n).
Proof using ML.
  unfold prepare_task_switch, prepare_task. hush; [| |by apply hushed_set_task]; apply hushed_modify; intros s <-.
  - apply mark_rseq_preempt.
  - apply mark_sched_out.
Qed.
#[local] Hint Resolve hushed_prepare : hushed.

Lemma hushed_switch_tasks cpu p n vol : hushed false cpu (switch_tasks cpu p n vol).
Proof using ML.
  unfold switch_tasks, context_switch. hush; try (apply hushed_set_task; by destruct vol).
  apply hushed_mm.
Qed.

(** The switch returns the CPU it ran on. *)
Definition on_this (cpu : Z) (m : M Z) : Prop := forall s a s', k_this_cpu s = cpu -> m s = Ok a s' -> a = cpu.

Lemma on_this_bind cpu {X} (m : M X) f : hushed false cpu m -> (forall x, on_this cpu (f x)) -> on_this cpu (m ≫= f).
Proof using.
  intros Hm Hf s a s' Hs (x & s1 & E1 & E2)%bind_inv. eapply Hf; [|exact E2].
  by rewrite (qu_this _ _ _ _ (Hm _ _ _ Hs E1)).
Qed.

Lemma on_this_finish cpu p : on_this cpu (finish_task_switch p).
Proof using.
  intros s a s' Hs. unfold finish_task_switch. rewrite (bind_ok _ _ s (k_this_cpu s) s) by done. rewrite Hs.
  intros E. repeat (cbv zeta in E; lazymatch type of E with mret _ _ = _ => fail | _ => apply bind_inv in E as (? & ? & _ & E) end).
  by injection E.
Qed.

Lemma on_this_switch cpu p n vol : on_this cpu (switch_tasks cpu p n vol).
Proof using ML.
  unfold switch_tasks, context_switch.
  repeat lazymatch goal with |- on_this _ (mbind _ _) =>
    apply on_this_bind; [hush; first [by apply hushed_set_task; destruct vol|apply hushed_mm]|intros ?] end.
  apply on_this_finish.
Qed.

#[local] Hint Resolve hushed_switch_tasks : hushed.

(** *** The callbacks *)

Lemma hushed_balance_callback cpu : hushed true cpu (balance_callback cpu).
Proof using ML.
  unfold balance_callback, __balance_callback. apply hushed_bind; [hush|]. intros r0.
  assert (forall fs, hushed true cpu
    (foldr (fun f k => modify (op_callback f cpu);; k) (mret tt) fs;; unlock_rq cpu)) as Hf.
  { intros fs. apply hushed_bind; [|intros _; hush]. induction fs as [|f fs IH]; cbn [foldr]; [hush|].
    apply hushed_bind; [apply hushed_hook; intros s; apply mark_callback|intros _; exact IH]. }
  destruct (Rq.balance_callback r0); [hush|]. apply hushed_bind; [hush|intros _].
  by apply (hushed_rq_put true cpu (fun r => r <| Rq.balance_callback := [] |>)).
Qed.

Lemma clear_no_mark t : test_tsk_need_resched (clear_tsk_need_resched t) = false.
Proof using.
  unfold test_tsk_need_resched, clear_tsk_need_resched, has, andnot. rsimpl.
  rewrite <- Z.land_assoc, (Z.land_comm (Z.lnot _)), Z.land_lnot_diag, Z.land_0_r. done.
Qed.

Lemma hushed_step own cpu {X Y} (m : M X) (f : X -> M Y) s0 s a s' :
  k_this_cpu s0 = cpu -> hushed own cpu m -> quietly own cpu s0 s -> (m ≫= f) s = Ok a s' ->
  exists b s1, quietly own cpu s0 s1 /\ f b s1 = Ok a s'.
Proof using.
  intros Hs Hm Hq (b & s1 & E1 & E2)%bind_inv. exists b, s1. split; [|done]. etransitivity; [exact Hq|].
  apply (Hm s b s1); [|done]. by rewrite (qu_this _ _ _ _ Hq).
Qed.

(** [__schedule] before its last statement, the balance callbacks. *)
Definition schedule_switch (preempt : bool) : M Z :=
  cpu ← smp_processor_id;
  prev ← current;
  schedule_debug prev preempt;;
  when sched_feat_HRTICK (hrtick_clear cpu);;
  local_irq_disable;;
  lock_rq cpu;;
  set_rq cpu (fun r => r <| clock_update_flags := u32 (Z.shiftl (clock_update_flags r) 1) |>);;
  update_clock cpu;;
  voluntary ← try_to_block cpu prev preempt;
  next ← pick_next_task cpu prev;
  set_task prev clear_tsk_need_resched;;
  (if negb (bool_decide (prev = next)) then switch_tasks cpu prev next voluntary
   else
     set_rq cpu (fun r => r <| clock_update_flags :=
       andnot (clock_update_flags r) (Z.lor RQCF_ACT_SKIP RQCF_REQ_SKIP) |>);;
     unlock_rq cpu;; local_irq_enable;; mret cpu).

Lemma schedule_split preempt s : __schedule preempt s = (schedule_switch preempt ≫= balance_callback) s.
Proof using.
  unfold schedule_switch, __schedule. do 11 (rewrite bind_bind; apply bind_ext; intros).
  destruct (negb _); [done|]. rewrite !bind_bind. done.
Qed.

(** The switch leaves the previous task unmarked, whatever was marked before, and
    marks no task of this CPU from there on. *)
Lemma switch_unmarks preempt s c x r :
  k_rqs s !! k_this_cpu s = Some r -> schedule_switch preempt s = Ok c x ->
  c = k_this_cpu s /\ exists s2, quietly true c s s2 /\ quietly false c s2 x /\ marked s2 (curr r) = false.
Proof using ML.
  intros Hr. set (cpu := k_this_cpu s). set (prev := curr r). unfold schedule_switch.
  rewrite (bind_ok smp_processor_id _ s cpu s) by done. rewrite (bind_ok current _ s prev s).
  2: { unfold current. by rewrite (bind_ok smp_processor_id _ s cpu s), (bind_ok (rq_of cpu) _ s r s) by (done || by apply rq_of_run). }
  intros E. assert (quietly true cpu s s) as Q by done.
  do 8 (eapply (hushed_step true cpu _ _ s) in E as (? & ? & Q' & E); [clear Q; rename Q' into Q|done|hush|exact Q]).
  apply bind_inv in E as ([] & s2 & E2 & E).
  match type of E2 with set_task _ _ ?x = _ => rename x into s1 end.
  assert (marked s2 prev = false) as Hm.
  { unfold set_task, mbind, M_bind, task_of in E2. destruct (k_tasks s1 !! prev) as [t|] eqn:Ht; [|done].
    injection E2 as <-. unfold marked. rsimpl. rewrite lookup_insert_eq. apply clear_no_mark. }
  assert (quietly true cpu s1 s2) as Q1.
  { apply (hushed_set_task true cpu prev clear_tsk_need_resched) with (a := tt); [|by rewrite (qu_this _ _ _ _ Q)|done].
    intros t. by rewrite clear_no_mark. }
  assert (k_this_cpu s2 = cpu) as Hs2 by (by rewrite (qu_this _ _ _ _ Q1), (qu_this _ _ _ _ Q)).
  match type of E with ?sw s2 = _ => assert (hushed false cpu sw) as Hsw by (hush; apply hushed_irqs) end.
  assert (c = cpu) as ->.
  { destruct (negb _); [by eapply on_this_switch|].
    repeat (lazymatch type of E with mret _ _ = _ => fail | _ => apply bind_inv in E as (? & ? & _ & E) end). by injection E. }
  split; [done|]. exists s2. split; [etransitivity; [exact Q|exact Q1]|]. split; [|exact Hm]. exact (Hsw _ _ _ Hs2 E).
Qed.
(** ** After a call *)

(** Every task with an address space of its own has one in use. *)
Definition mms_ok (s : kstate) : Prop :=
  forall q t, k_tasks s !! q = Some t -> is_Some (mm t) -> is_Some (active_mm t).

Lemma mms_upd_task q f g :
  (forall t, k_tasks g !! q = Some t -> mm (f t) = mm t /\ (active_mm (f t) = active_mm t \/ mm t = None)) ->
  mms_ok g -> mms_ok (upd_task q f g).
Proof using.
  intros Hf Hg x t. rewrite upd_task_lookup. case_decide as Hx; [|apply Hg]. intros (t0 & Ht0 & ->)%fmap_Some. subst x.
  destruct (Hf t0 Ht0) as [-> [-> | ->]]; [by apply (Hg q)|]. by intros [? [=]].
Qed.

Lemma mms_same s s' : (forall q, (fun t => (mm t, active_mm t)) <$> k_tasks s' !! q = (fun t => (mm t, active_mm t)) <$> k_tasks s !! q) ->
  mms_ok s -> mms_ok s'.
Proof using.
  intros H Hs q t' Ht'. specialize (H q). rewrite Ht' in H. destruct (k_tasks s !! q) as [t|] eqn:Ht; [|done].
  injection H as -> ->. by apply (Hs q).
Qed.

Lemma mms_spec_mm (p n : task_struct) prev next g :
  mm <$> k_tasks g !! next = Some (mm n) -> mm <$> k_tasks g !! prev = Some (mm p) -> mms_ok g ->
  mms_ok (spec_mm p n prev next g).
Proof using.
  intros (tn & Hn & En)%fmap_Some (tp & Hp & Ep)%fmap_Some Hg. unfold spec_mm.
  assert (mm n = None -> mms_ok (upd_task next (fun t => t <| active_mm := active_mm p |>) g)) as H1.
  { intros E. apply mms_upd_task; [|exact Hg]. intros t Ht. rewrite Hn in Ht. injection Ht as <-. split; [done|right; congruence]. }
  assert (forall x t, mm p = None -> k_tasks x !! prev = Some t -> mm t = mm tp -> mms_ok x ->
    mms_ok (upd_task prev (fun t => t <| active_mm := None |>) x)) as H2.
  { intros x t0 E Ht0 E0 Hx. apply mms_upd_task; [|exact Hx]. intros t Ht. rewrite Ht0 in Ht. injection Ht as <-.
    split; [done|right; congruence]. }
  destruct (mm n) eqn:Emn, (mm p) eqn:Emp; [exact Hg|by eapply H2| |].
  - destruct (active_mm p); exact (H1 eq_refl).
  - assert (exists t, k_tasks (upd_task next (fun t => t <| active_mm := active_mm p |>) g) !! prev = Some t /\ mm t = mm tp) as (t & Ht & Et).
    { rewrite upd_task_lookup. case_decide; rewrite Hp; by eexists. }
    exact (H2 _ t eq_refl Ht Et (H1 eq_refl)).
Qed.

Lemma mms_schedule preempt next s s' r (p n : task_struct) :
  schedule_pre s r p -> k_tasks s !! next = Some n -> core_same true (schedule_spec preempt next s) s' -> mms_ok s -> mms_ok s'.
Proof using.
  intros Hpre Hn Hcore Hs. eapply mms_same; [intros q; by eapply (core_same_view (fun t => (mm t, active_mm t)))|].
  pose proof (pre_curr _ _ _ Hpre) as Hp. unfold schedule_spec. rewrite (pre_rq _ _ _ Hpre), Hp, Hn. clear Hcore s'.
  set (prev := curr r) in *. set (cpu := k_this_cpu s) in *. set (b := spec_block preempt cpu prev p s).
  assert (forall q, (fun t => (mm t, active_mm t)) <$> k_tasks b !! q = (fun t => (mm t, active_mm t)) <$> k_tasks s !! q) as Hb
    by (intros q; by apply spec_block_task).
  pose proof (mms_same _ _ Hb Hs) as Hbs. case_bool_decide as Ene; [exact Hbs|]. unfold spec_switch. cbv zeta.
  set (vol := negb preempt && nz (t_state p)).
  set (g := upd_task next (fun t => t <| on_cpu := 1 |>) (upd_task next (fun t => t <| process_switches_count := _ |>) (upd_task prev _ _))).
  assert (forall q, (fun t => (mm t, active_mm t)) <$> k_tasks g !! q = (fun t => (mm t, active_mm t)) <$> k_tasks s !! q) as Hg.
  { intros q. rewrite <- Hb. unfold g. rewrite !upd_task_view; try done. by destruct vol. }
  assert (mms_ok (spec_mm p n prev next g)) as Hm.
  { pose proof (f_equal (fmap fst) (Hg next)) as Gn. pose proof (f_equal (fmap fst) (Hg prev)) as Gp.
    rewrite Hn in Gn. rewrite Hp in Gp. apply mms_spec_mm; [| |by eapply mms_same].
    - by destruct (k_tasks g !! next).
    - by destruct (k_tasks g !! prev). }
  eapply mms_same; [|exact Hm]. intros q.
  transitivity ((fun t => (mm t, active_mm t)) <$>
    k_tasks (upd_task prev (fun t => t <| on_cpu := 0 |>) (spec_mm p n prev next g)) !! q); [by destruct (dropped_mm p n)|].
  by apply upd_task_view.
Qed.

(** The run queue after a call: unlocked, with its idle task, no address space to
    drop. *)
Lemma schedule_rq_after preempt next s s' r (p n : task_struct) :
  schedule_pre s r p -> k_tasks s !! next = Some n -> core_same true (schedule_spec preempt next s) s' ->
  exists r', k_rqs s' !! k_this_cpu s = Some r' /\ rq_lock r' = false /\ prev_mm r' = None /\ idle r' = idle r.
Proof using.
  intros Hpre Hn Hcore. pose proof (pre_rq _ _ _ Hpre) as Hr. set (cpu := k_this_cpu s) in *.
  assert ((fun r => (rq_lock r, prev_mm r, idle r)) <$> k_rqs s' !! cpu = Some (false, None, idle r)) as H.
  2:{ destruct (k_rqs s' !! cpu) as [r'|]; [|done]. exists r'. by injection H as -> -> ->. }
  rewrite (core_same_rq_view (fun r => (rq_lock r, prev_mm r, idle r)) _ _ cpu ltac:(done) Hcore).
  unfold schedule_spec. fold cpu. rewrite Hr, (pre_curr _ _ _ Hpre), Hn. set (b := spec_block preempt cpu (curr r) p s).
  assert ((fun r => (rq_lock r, prev_mm r, idle r)) <$> k_rqs b !! cpu = Some (false, None, idle r)) as Hb.
  { unfold b. rewrite spec_block_rq by done. rewrite Hr. cbn. by rewrite (pre_unlocked _ _ _ Hpre), (pre_prev_mm _ _ _ Hpre). }
  case_bool_decide; [exact Hb|]. destruct (k_rqs b !! cpu) as [rb|] eqn:Erb; [|done]. injection Hb as Hl Hm Hi.
  transitivity ((fun r => (rq_lock r, prev_mm r, idle r)) <$>
    k_rqs (upd_rq cpu (fun r => r <| prev_mm := None |>) (upd_rq cpu (fun r => r <| curr := next |>)
      (upd_rq cpu (fun r => r <| nr_switches := u64 (nr_switches r + 1) |>) b))) !! cpu).
  - unfold spec_switch, spec_mm, spec_drop, dropped_mm. by destruct (mm n), (mm p), (active_mm p).
  - rewrite !upd_rq_lookup, !decide_True, Erb by done. unfold fmap, option_fmap, option_map. rsimpl. by rewrite Hl, Hi.
Qed.

(** [__schedule] can be called again. *)
Lemma schedule_pre_again preempt s s' r (p : task_struct) :
  schedule_pre s r p -> __schedule preempt s = Ok tt s' -> mms_ok s -> well_formed s ->
  k_this_cpu s' = k_this_cpu s /\ mms_ok s' /\ exists r' p', schedule_pre s' r' p'.
Proof using FL KL.
  intros Hpre E Hmm Hw. destruct (schedule_correct preempt s r p Hpre) as (next & n & s2 & E2 & Hn & Hfree & Hcore & Hcl & _).
  rewrite E in E2. injection E2 as <-. destruct (schedule_moves preempt s s' r p Hpre E) as (next' & _ & Hruns & Hbusy & Hthis & Hcount & _).
  destruct (schedule_rq_after preempt next s s' r p n Hpre Hn Hcore) as (r' & Hr' & Hl' & Hm' & Hi').
  pose proof (mms_schedule preempt next s s' r p n Hpre Hn Hcore Hmm) as Hmm'.
  pose proof (schedule_well_formed preempt s s' r p Hpre E Hw) as Hw'. set (cpu := k_this_cpu s) in *.
  assert (curr r' = next') as Ec.
  { specialize (Hruns cpu). rewrite bool_decide_eq_true_2 in Hruns by done. unfold runs in Hruns. rewrite Hr' in Hruns. by injection Hruns. }
  assert (is_Some (k_tasks s' !! curr r')) as [p' Hp'].
  { pose proof (wf_curr s' Hw' cpu (curr r')) as H. unfold runs, busy in H. rewrite Hr' in H. specialize (H eq_refl).
    destruct (k_tasks s' !! curr r'); [by eexists|done]. }
  split; [exact Hthis|]. split; [exact Hmm'|]. exists r', p'. split; rewrite ?Hthis; try done; [|by rewrite Hcount; apply Hpre|by apply (Hmm' (curr r'))].
  destruct (pre_idle _ _ _ Hpre) as (r0 & Hr0 & ti & Hti & Hon & _). fold cpu in Hr0, Hon. pose proof (pre_rq _ _ _ Hpre) as Hr.
  fold cpu in Hr. rewrite Hr in Hr0. injection Hr0 as <-.
  exists r'. split; [exact Hr'|]. rewrite Hi'. specialize (Hbusy (idle r)). unfold busy in Hbusy. rewrite Hti in Hbusy. cbn in Hbusy.
  destruct (k_tasks s' !! idle r) as [ti'|] eqn:Hti'; [|revert Hbusy; case_ifs; intros Hx; discriminate Hx].
  exists ti'. split; [exact Hti'|]. split; [|right; by exists r'].
  destruct (decide (idle r = next')) as [Ei|Ei]; [right; exists r'; split; [exact Hr'|congruence]|left].
  rewrite (bool_decide_eq_false_2 _ Ei) in Hbusy. cbn [andb] in Hbusy.
  apply nz_false. destruct (decide (idle r = curr r)) as [Ec'|Ec'].
  - rewrite (bool_decide_eq_true_2 _ Ec'), bool_decide_eq_false_2 in Hbusy by congruence. by injection Hbusy.
  - rewrite (bool_decide_eq_false_2 _ Ec') in Hbusy. injection Hbusy as ->. apply nz_false.
    destruct Hon as [?|(x & Hx & Hcx)]; [done|]. rewrite Hr in Hx. injection Hx as <-. congruence.
Qed.

(** ** The rounds of the loop *)

(** Only tasks that run are marked. *)
Definition only_running_marked (s : kstate) : Prop := forall q, marked s q = true -> busy s q = Some true.

(** Where a task may be preempted. *)
Record preemptible (s : kstate) (r : rq) (p : task_struct) : Prop := {
  pr_pre : schedule_pre (s <| k_preempt := 1 |>) r p;
  pr_count : k_preempt s = 0;
  pr_wf : well_formed s;
  pr_marks : only_running_marked s;
  pr_mms : mms_ok s
}.

Lemma need_resched_run s q t r : k_rqs s !! k_this_cpu s = Some r -> curr r = q -> k_tasks s !! q = Some t ->
  need_resched s = Ok (test_tsk_need_resched t) s.
Proof using.
  intros Hr <- Ht. unfold need_resched, current. rewrite bind_bind, (bind_ok smp_processor_id _ s (k_this_cpu s) s) by done.
  rewrite bind_bind, (bind_ok _ _ s r s) by (by apply rq_of_run). cbv beta.
  change (mret (curr r) ≫= ?f) with (f (curr r)). cbv beta. by rewrite (bind_ok _ _ s t s) by (by apply task_of_run).
Qed.

Lemma need_resched_marked s r p : preemptible s r p -> need_resched s = Ok (marked s (curr r)) s.
Proof using.
  intros [Hpre _ _ _ _]. pose proof (pre_rq _ _ _ Hpre) as Hr. pose proof (pre_curr _ _ _ Hpre) as Hp.
  rewrite (need_resched_run s (curr r) p r Hr eq_refl Hp). unfold marked. by rewrite (Hp : k_tasks s !! curr r = Some p).
Qed.

(** The callbacks add no task. *)
Lemma callbacks_tasks cpu s s' q : balance_callback cpu s = Ok tt s' -> is_Some (k_tasks s' !! q) -> is_Some (k_tasks s !! q).
Proof using KL.
  unfold balance_callback, __balance_callback. intros (r & ? & [-> Hr]%rq_of_inv & E)%bind_inv.
  destruct (Rq.balance_callback r); [by injection E as <-|]. apply bind_inv in E as ([] & s1 & E1%lock_rq_tasks & E).
  apply bind_inv in E as (r1 & ? & [-> _]%rq_of_inv & E). apply bind_inv in E as ([] & s2 & [= <-] & E).
  apply bind_inv in E as ([] & s3 & E3 & E4%unlock_rq_tasks). rewrite E4, <- E1. clear E4 E1.
  change (k_tasks s1) with (k_tasks (s1 <| k_rqs := <[cpu := r1 <| Rq.balance_callback := [] |>]> (k_rqs s1) |>)).
  revert E3. generalize (s1 <| k_rqs := <[cpu := r1 <| Rq.balance_callback := [] |>]> (k_rqs s1) |>).
  induction (Rq.balance_callback r1) as [|f fs IH]; cbn [foldr]; intros s0; [by intros [= <-]|].
  intros ([] & s5 & [= <-] & E)%bind_inv Hs. specialize (IH _ E Hs). revert IH.
  pose proof (core_same_view (fun _ => tt) _ _ q ltac:(done) (kf_core _ _ _ (law_callback f cpu s0))) as Hv.
  destruct (k_tasks s0 !! q); [by eexists|]. by destruct (k_tasks (op_callback f cpu s0) !! q).
Qed.

(** When the switch is over, the task that runs is not marked; after the callbacks
    only running tasks are. *)
Lemma switch_settles preempt s s' r (p : task_struct) :
  schedule_pre s r p -> well_formed s -> only_running_marked s -> __schedule preempt s = Ok tt s' ->
  only_running_marked s' /\
  exists c x, schedule_switch preempt s = Ok c x /\ need_resched x = Ok false x /\ balance_callback c x = Ok tt s'.
Proof using FL KL ML.
  intros Hpre Hwf Hm E. pose proof (pre_rq _ _ _ Hpre) as Hr. pose proof E as Esplit. rewrite schedule_split in Esplit.
  apply bind_inv in Esplit as (c & x & Ex & Ecb).
  destruct (switch_unmarks preempt s c x r Hr Ex) as (-> & s2 & Q1 & Q2 & Hun). set (cpu := k_this_cpu s) in *.
  assert (k_this_cpu x = cpu) as Hxc by (by rewrite (qu_this _ _ _ _ Q2), (qu_this _ _ _ _ Q1)).
  pose proof (hushed_balance_callback cpu x tt s' Hxc Ecb) as Q3.
  destruct (schedule_moves preempt s s' r p Hpre E) as (next & Hnext & Hruns & Hbusy & _). fold cpu in Hruns.
  pose proof (schedule_well_formed preempt s s' r p Hpre E Hwf) as Hwf'.
  assert (runs s cpu = Some (curr r)) as Hrun by (unfold runs; by rewrite Hr).
  assert (runs s' cpu = Some next) as Hrun' by (by rewrite Hruns, bool_decide_eq_true_2).
  assert (runs x cpu = Some next) as Hrunx by (by rewrite <- (qu_own _ _ _ _ Q3)).
  assert (forall d, d <> cpu -> runs s2 d = runs s d) as Hd2 by apply (qu_runs _ _ _ _ Q1).
  assert (forall q, elsewhere cpu s q -> busy s q = Some true) as Hel by (intros q (d & _ & Hq); by apply (wf_curr s Hwf d)).
  assert (forall q, elsewhere cpu s q -> q <> curr r) as Hel2
    by (intros q (d & Hd & Hq) ->; apply Hd; by apply (wf_once s Hwf d cpu (curr r))).
  assert (forall q, marked x q = true -> busy s q = Some true /\ q <> curr r) as Hx.
  { intros q Hq. assert (marked s2 q = true \/ elsewhere cpu s q) as [H2|H2].
    { destruct (qu_marks _ _ _ _ Q2 q Hq) as [H|[(d & Hd & H)|[? _]]]; [by left| |done]. right. exists d. by rewrite <- Hd2. }
    - split; [|congruence]. destruct (qu_marks _ _ _ _ Q1 q H2) as [H|[H|[_ H]]]; [by apply Hm|by apply Hel|].
      by apply (wf_curr s Hwf cpu).
    - split; [by apply Hel|by apply Hel2]. }
  assert (marked x next = false) as Hn.
  { apply not_true_is_false. intros [Hb Hne]%Hx. destruct Hnext as [->|Hidle]; [done|congruence]. }
  split.
  - intros q Hq. assert (marked x q = true \/ exists d, runs s' d = Some q) as [H|[d H]].
    { destruct (qu_marks _ _ _ _ Q3 q Hq) as [H|[(d & Hd & H)|[_ H]]]; [by left|right|right].
      - exists d. by rewrite (qu_runs _ _ _ _ Q3).
      - exists cpu. by rewrite (qu_own _ _ _ _ Q3). }
    + destruct (Hx q H) as [Hb Hne]. rewrite Hbusy, (bool_decide_eq_false_2 _ Hne). cbn [andb].
      rewrite Hb. by destruct (_ && _).
    + by apply (wf_curr s' Hwf' d).
  - exists cpu, x. split; [exact Ex|]. split; [|exact Ecb]. unfold runs in Hrunx. apply fmap_Some in Hrunx as (rx & Hrx & ->).
    assert (is_Some (k_tasks x !! curr rx)) as [t Ht].
    { apply (callbacks_tasks _ _ _ _ Ecb). assert (busy s' (curr rx) = Some true) as Hb by exact (wf_curr s' Hwf' cpu _ Hrun').
      unfold busy in Hb. destruct (k_tasks s' !! curr rx); [by eexists|done]. }
    rewrite (need_resched_run x (curr rx) t rx); [|by rewrite Hxc|done|done]. unfold marked in Hn. rewrite Ht in Hn. by rewrite Hn.
Qed.

(** One round of the loop of [preempt_schedule_common]. *)
Definition round : M unit := preempt_disable;; __schedule true;; preempt_enable_no_resched.

(** A round that ends with the current task marked again: it was not when the
    switch was over, balance callbacks were waiting, and one of them marked it. *)
Definition called_back (s s1 : kstate) : Prop :=
  exists c x rx, schedule_switch true (s <| k_preempt := 1 |>) = Ok c x /\ need_resched x = Ok false x /\
    k_rqs x !! c = Some rx /\ Rq.balance_callback rx <> [] /\ need_resched s1 = Ok true s1.

(** [n] rounds, each but the last one followed by another because of a callback. *)
Inductive rounds : nat -> kstate -> kstate -> Prop :=
  | rounds_last s s1 : round s = Ok tt s1 -> rounds 1 s s1
  | rounds_more n s s1 s' : round s = Ok tt s1 -> called_back s s1 -> rounds n s1 s' -> rounds (S n) s s'.

Lemma same_settled s s' : k_rqs s' = k_rqs s -> k_tasks s' = k_tasks s ->
  (well_formed s -> well_formed s') /\ (only_running_marked s -> only_running_marked s') /\ (mms_ok s -> mms_ok s').
Proof using.
  intros E1 E2. assert (forall q, busy s' q = busy s q) as Hb by (intros q; unfold busy; by rewrite E2). split_and!.
  - apply well_formed_same; [|exact Hb]. intros c. unfold runs. by rewrite E1.
  - intros Hm q. unfold marked. rewrite E2, Hb. apply Hm.
  - intros Hs q t. rewrite E2. apply Hs.
Qed.

(** A round runs to its end, and where the current task is marked afterwards that
    is due to a callback. *)
Lemma round_serves s r p :
  preemptible s r p ->
  exists s1 r1 p1, round s = Ok tt s1 /\ preemptible s1 r1 p1 /\
    (need_resched s1 = Ok false s1 \/ called_back s s1).
Proof using FL KL ML.
  intros [Hpre Hc Hw Hm Hmm]. set (sp := s <| k_preempt := 1 |>) in *.
  destruct (same_settled s sp eq_refl eq_refl) as (Hw1 & Hm1 & Hmm1). specialize (Hw1 Hw). specialize (Hm1 Hm). specialize (Hmm1 Hmm).
  destruct (schedule_correct true sp r p Hpre) as (_ & _ & s2 & E & _).
  pose proof (schedule_well_formed true sp s2 r p Hpre E Hw1) as Hw2.
  destruct (switch_settles true sp s2 r p Hpre Hw1 Hm1 E) as (Hm2 & c & x & Ex & Hx & Ecb).
  destruct (schedule_pre_again true sp s2 r p Hpre E Hmm1 Hw1) as (_ & Hmm2 & r1 & p1 & Hpre1).
  set (s1 := s2 <| k_preempt := 0 |>). destruct (same_settled s2 s1 eq_refl eq_refl) as (Hw3 & Hm3 & Hmm3).
  pose proof (pre_preempt _ _ _ Hpre1) as Hc2.
  assert (s1 <| k_preempt := 1 |> = s2) as E1 by (unfold s1; rewrite <- Hc2; by destruct s2).
  assert (preemptible s1 r1 p1) as H1 by (split; [by rewrite E1|done|by apply Hw3|by apply Hm3|by apply Hmm3]).
  exists s1, r1, p1. split; [|split; [exact H1|]].
  - unfold round. rewrite (bind_ok preempt_disable _ s tt sp) by (unfold preempt_disable, preempt_count_inc, modify; by rewrite Hc).
    rewrite (bind_ok _ _ _ _ _ E). unfold preempt_enable_no_resched, preempt_count_inc, modify. by rewrite Hc2.
  - pose proof (need_resched_marked s1 r1 p1 H1) as Hn. destruct (marked s1 (curr r1)) eqn:Em; [right|by left].
    destruct (k_rqs x !! c) as [rx|] eqn:Erx.
    + exists c, x, rx. split_and!; [exact Ex|exact Hx|exact Erx| |exact Hn]. intros Enil. revert Ecb. unfold balance_callback.
      rewrite (bind_ok _ _ _ _ _ (rq_of_run _ _ _ Erx)), Enil. intros [= ->].
      unfold s1, need_resched, current, smp_processor_id, get, mbind, M_bind, mret, M_ret, rq_of, task_of in Hx, Hn.
      rsimpl_in Hn. destruct (k_rqs s2 !! _) as [r2|]; [|done]. rsimpl_in Hn. destruct (k_tasks s2 !! _); [|done].
      injection Hx as Hx. injection Hn as Hn. congruence.
    + revert Ecb. unfold balance_callback, mbind, M_bind, rq_of. by rewrite Erx.
Qed.

(** The CPU runs a task that is not to be rescheduled. *)
Record settled (s : kstate) : Prop := {
  se_count : k_preempt s = 0;
  se_wf : well_formed s;
  se_marks : only_running_marked s;
  se_done : need_resched s = Ok false s
}.

Lemma preemptible_settled s r p : preemptible s r p -> need_resched s = Ok false s -> settled s.
Proof using. by intros [_ H1 H2 H3 _] H. Qed.

Lemma loop_serves fuel s r p :
  preemptible s r p ->
  exists n s', (n <= fuel)%nat /\ rounds (S n) s s' /\
    (settled s' /\ preempt_schedule_common (S fuel) s = Ok tt s' \/
     n = fuel /\ (exists s0, called_back s0 s') /\ preempt_schedule_common (S fuel) s = Hang).
Proof using FL KL ML.
  revert s r p. induction fuel as [|fuel IH]; intros s r p Hp; destruct (round_serves s r p Hp) as (s1 & r1 & p1 & E & Hp1 & Hor).
  all: assert (forall k b, need_resched s1 = Ok b s1 -> preempt_schedule_common (S k) s =
    (if b : bool then preempt_schedule_common k else mret tt) s1) as Hstep
    by (intros k b Hb; unfold preempt_schedule_common; cbn [do_while_resched]; fold round;
        by rewrite (bind_ok _ _ _ _ _ E), (bind_ok _ _ _ _ _ Hb)).
  all: destruct Hor as [Hn|Hcb];
    [exists 0%nat, s1; split; [lia|]; split; [by constructor|left];
     split; [by eapply preemptible_settled|by rewrite (Hstep _ _ Hn)]|].
  all: assert (need_resched s1 = Ok true s1) as Hn by (by destruct Hcb as (? & ? & ? & _ & _ & _ & _ & Hn));
    specialize (fun k => Hstep k _ Hn).
  - exists 0%nat, s1. split; [lia|]. split; [by constructor|]. right. split; [done|]. split; [by exists s|exact (Hstep 0%nat)].
  - destruct (IH s1 r1 p1 Hp1) as (n & s' & Hle & Hr & Hend). exists (S n), s'. split; [lia|].
    split; [by eapply rounds_more|]. rewrite Hstep. destruct Hend as [H|(-> & H)]; [by left|by right].
Qed.

(** C16. Conditional rescheduling serves the mark, once or until it is gone: where
    preemption is possible and only running tasks are marked, [_cond_resched] of an
    unmarked task returns 0 and only reports to RCU, and of a marked task goes
    through complete rounds of the scheduler.  Every round runs to its end, and
    leaves a task current that was unmarked when the switch was over, so that the
    loop goes round again only when balance callbacks were waiting and one of them
    marked this task; without waiting callbacks one round is all.  When a round ends
    without such a mark the call returns 1, with preemption enabled as before,
    every task on one CPU and no mark on a task that does not run; it returns only
    then. *)
Theorem cond_resched_serves {R : ReschedEnv} fuel s r p :
  preemptible s r p -> should_resched s 0 = (k_preempt s =? 0) && marked s (curr r) ->
  if marked s (curr r) then
    (exists n s', (n <= fuel)%nat /\ rounds (S n) s s' /\
      (settled s' /\ _cond_resched (S fuel) s = Ok 1 s' \/
       n = fuel /\ (exists s0, called_back s0 s') /\ _cond_resched (S fuel) s = Hang)) /\
    ((forall c x rx, schedule_switch true (s <| k_preempt := 1 |>) = Ok c x -> k_rqs x !! c = Some rx ->
        Rq.balance_callback rx = []) ->
     exists s', rounds 1 s s' /\ settled s' /\ _cond_resched (S fuel) s = Ok 1 s')
  else _cond_resched (S fuel) s = Ok 0 (rcu_all_qs s).
Proof using FL KL ML.
  intros Hp Hs. rewrite (pr_count _ _ _ Hp) in Hs. cbn [Z.eqb andb] in Hs. unfold _cond_resched.
  rewrite (bind_ok get _ s s s eq_refl), Hs. destruct (marked s (curr r)); [|done]. split.
  - destruct (loop_serves fuel s r p Hp) as (n & s' & Hle & Hr & Hend). exists n, s'. split; [done|]. split; [done|].
    destruct Hend as [[H E]|(-> & H & E)]; [left|right].
    + by rewrite (bind_ok _ _ _ _ _ E).
    + split; [done|]. split; [done|]. unfold mbind, M_bind. by rewrite E.
  - intros Hnone. destruct (round_serves s r p Hp) as (s1 & r1 & p1 & E & Hp1 & [Hn|(c & x & rx & Ex & _ & Erx & Hcb & _)]).
    + exists s1. split; [by constructor|]. split; [by eapply preemptible_settled|].
      unfold preempt_schedule_common. cbn [do_while_resched]. fold round. rewrite bind_bind.
      by rewrite (bind_ok _ _ _ _ _ E), bind_bind, (bind_ok _ _ _ _ _ Hn).
    + by destruct (Hcb (Hnone c x rx Ex Erx)).
Qed.
End Schedule.

(** ** On the machine

    Task 2 runs and is marked; the fair class picks task 3. *)

#[export] Instance choosing_marks choice : MarkLaws (choosing choice).
Proof. by split. Qed.

(** Other code's part, with the generic preemption check. *)
#[export] Instance plain_resched : ReschedEnv := {|
  should_resched s offset := (k_preempt s =? offset) && match k_rqs s !! k_this_cpu s with Some r => marked s (curr r) | None => false end;
  rcu_all_qs s := s;
  cpu_relax s := s;
  spin_lock _ := mret tt;
  spin_unlock _ := mret tt;
  spin_is_contended _ _ := false;
  CONFIG_PREEMPTION := true;
  PREEMPT_LOCK_OFFSET := 1;
  exception_enter := mret 0;
  exception_exit _ := mret tt
|}.

Definition marked_user : task_struct := set_tsk_need_resched ((user_task 20) <| on_cpu := 1 |>).
Definition running_idle : kstate :=
  machine <| k_preempt := 0 |> <| k_tasks := <[2%positive := marked_user]> (k_tasks machine) |>.

Lemma running_idle_preemptible : preemptible running_idle machine_rq marked_user.
Proof.
  assert (forall q t, k_tasks running_idle !! q = Some t ->
    q = 2%positive /\ t = marked_user \/ test_tsk_need_resched t = false /\ on_cpu t = 0) as Ht.
  { intros q t. unfold running_idle. rsimpl. intros [[<- <-]|[Hne H]]%lookup_insert_Some; [by left|right].
    unfold machine in H. cbn [k_tasks] in H. apply lookup_insert_Some in H as [[<- <-]|[_ H]]; [done|].
    apply lookup_insert_Some in H as [[<- <-]|[_ H]]; [done|]. apply lookup_singleton_Some in H as [<- <-]. done. }
  assert (forall c q, runs running_idle c = Some q -> c = 0 /\ q = 2%positive) as Hr.
  { intros c q. unfold runs. change (k_rqs running_idle) with ({[ 0 := machine_rq ]} : gmap Z rq).
    destruct (decide (c = 0)) as [->|Hne]; [|by rewrite lookup_singleton_ne]. rewrite lookup_singleton_eq. by intros [= <-]. }
  split; [apply pre_b_ok; vm_compute; reflexivity|done| | |].
  - split.
    + intros c q [-> ->]%Hr. by vm_compute.
    + intros c d q [-> _]%Hr [-> _]%Hr. done.
    + intros q. unfold busy. destruct (k_tasks running_idle !! q) as [t|] eqn:E; [|done].
      destruct (Ht q t E) as [[-> ->]|[_ E2]]; [exists 0; by vm_compute|]. cbn. unfold nz. by rewrite E2.
  - intros q. unfold marked, busy. destruct (k_tasks running_idle !! q) as [t|] eqn:E; [|done].
    destruct (Ht q t E) as [[-> ->]|[E2 _]]; [done|congruence].
  - intros q t Hq Hm. unfold running_idle in Hq. rsimpl_in Hq. apply lookup_insert_Some in Hq as [[<- <-]|[_ Hq]]; [by eexists|].
    unfold machine in Hq. cbn [k_tasks] in Hq. apply lookup_insert_Some in Hq as [[<- <-]|[_ Hq]]; [by destruct Hm|].
    apply lookup_insert_Some in Hq as [[<- <-]|[_ Hq]]; [by eexists|]. apply lookup_singleton_Some in Hq as [<- <-]. by eexists.
Qed.

Lemma cond_resched_serves_witness :
  marked running_idle 2%positive = true /\
  exists s', rounds (K := choosing 3%positive) 1 running_idle s' /\
    settled s' /\ _cond_resched (K := choosing 3%positive) 1 running_idle = Ok 1 s'.
Proof.
  split; [vm_compute; reflexivity|].
  refine (proj2 (cond_resched_serves (K := choosing 3%positive) 0 running_idle machine_rq marked_user running_idle_preemptible eq_refl) _).
  intros c x rx E Hrx. assert (match schedule_switch (K := choosing 3%positive) true (running_idle <| k_preempt := 1 |>) with
    | Ok c x => match k_rqs x !! c with Some rx => match Rq.balance_callback rx with [] => true | _ => false end | None => true end
    | _ => true end = true) as H by (vm_compute; reflexivity).
  rewrite E, Hrx in H. destruct (Rq.balance_callback rx); [reflexivity|discriminate H].
Defined.

(** Task 3 runs afterwards, and a second call has nothing to do. *)
Example cond_resched_twice :
  let s := exec (_cond_resched (K := choosing 3%positive) 1) running_idle in
  (runs s 0, match _cond_resched (K := choosing 3%positive) 1 s with Ok r _ => Some r | _ => None end) = (Some 3%positive, Some 0).
Proof. vm_compute. reflexivity. Qed.
