(* ===== verification/Pending.v ===== *)
(** * Pending: tasks handed over to another CPU

    [try_to_wake_up] may leave a task to the CPU it shall run on.  What that CPU
    does when the interrupt arrives, and that together the two parts wake the
    task. *)

From S2P Require Import Prelude Task KernelApi Prio Rq RqClock Uclamp UclampTrace.
From S2P Require Import State Sched SchedFacts ScheduleSpec Setprio TaskLock Machine.
From S2P Require Import SetprioSpec SetprioDemo Affinity AffinitySpec Ttwu TtwuSpec Keeps WakeQ TtwuDemo.

Section Pending.
Context {P : PrioApi} {Y : PolicyApi} {U : UclampApi} {A : AttrFlagApi} {F : FlagApi} {FL : FlagLaws F}
  {C : ClockConfig} {K : SchedClassOps} {KL : SchedClassLaws K} {V : SetprioEnv} {E : MigrateEnv}
  {EL : MigrateLaws E} {W : WakeEnv}.

(** The tasks of a list join the queue of the CPU, oldest first. *)
Fixpoint all_enqueued (cpu : Z) (l : list ptr) (g : kstate) : kstate :=
  match l with
  | [] => g
  | p :: l =>
      let contributes := match k_tasks g !! p with Some t => sched_contributes_to_load t | None => false end in
      all_enqueued cpu l (enqueued cpu p contributes g)
  end.

(** The tasks are there, and not running. *)
Definition idle_tasks (l : list ptr) (g : kstate) : Prop :=
  forall p, p ∈ l -> exists t, k_tasks g !! p = Some t /\ on_cpu t = 0.

Lemma enqueued_tasks cpu p b g :
  k_tasks (enqueued cpu p b g) = k_tasks (upd_task p (fun t => t <| on_rq := 1 |> <| t_state := TASK_RUNNING |>) g).
Proof. unfold enqueued. by destruct b. Qed.

Lemma idle_tasks_enqueued l cpu p b g : idle_tasks l g -> idle_tasks l (enqueued cpu p b g).
Proof.
  intros H q Hq. destruct (H q Hq) as (t & Ht & Hoff). rewrite enqueued_tasks, upd_task_lookup, Ht.
  case_decide; by eexists.
Qed.

Lemma cpu_up_enqueued g c cpu p b : cpu_up g c -> cpu_up (enqueued cpu p b g) c.
Proof. intros H. unfold enqueued. apply cpu_up_upd_task. destruct b; [by apply cpu_up_upd_rq|exact H]. Qed.

Lemma wp_ttwu_pending_loop l : forall g s cpu,
  tracks g s -> cpu_up g cpu -> idle_tasks l g ->
  wp (ttwu_pending_loop cpu l) (fun _ s' => tracks (all_enqueued cpu l g) s') s.
Proof using FL KL EL.
  induction l as [|p l IH]; intros g s cpu H Hup Hl; cbn [ttwu_pending_loop all_enqueued]; [by apply wp_ret|].
  destruct (Hl p) as (t & Ht & Hoff); [by left|]. rewrite Ht.
  destruct (tracks_task _ _ _ _ H Ht) as (t1 & Ht1 & E1). apply wp_bind. eapply wp_task_of; [exact Ht1|].
  rewrite (erase_field true on_cpu _ _ ltac:(kept_field) E1), Hoff. apply wp_bind, wp_ret, wp_bind.
  apply (wp_mono _ (fun _ s' => tracks g s')).
  { apply wp_when; intros _; [|exact H]. eapply wp_set_task_cpu; [exact H|by exists t|done]. }
  cbn beta. intros _ s2 H2. destruct (tracks_task _ _ _ _ H2 Ht) as (t2 & Ht2 & _).
  apply wp_bind. eapply wp_task_of; [exact Ht2|]. apply wp_bind.
  eapply wp_mono; [by apply (wp_ttwu_do_activate _ _ cpu p t _ H2)|]. cbn beta. intros _ s3 H3.
  apply (IH _ _ cpu H3); [by apply cpu_up_enqueued|]. apply idle_tasks_enqueued. intros q Hq. apply Hl. by right.
Qed.

Lemma all_enqueued_locked cpu l g :
  all_enqueued cpu l (locked_g cpu g) = locked_g cpu (all_enqueued cpu l g).
Proof.
  revert g. induction l as [|p l IH]; intros g; [done|]. cbn [all_enqueued].
  change (k_tasks (locked_g cpu g)) with (k_tasks g). by rewrite enqueued_locked, IH.
Qed.

Lemma all_enqueued_lock cpu l g :
  (fun r => rq_lock r) <$> k_rqs (all_enqueued cpu l g) !! cpu = (fun r => rq_lock r) <$> k_rqs g !! cpu.
Proof.
  revert g. induction l as [|p l IH]; intros g; [done|]. cbn [all_enqueued]. rewrite IH. unfold enqueued.
  destruct (match k_tasks g !! p with Some t => _ | None => _ end); [|done].
  refine (upd_rq_view rq_lock cpu (fun r => r <| nr_uninterruptible := u64 (nr_uninterruptible r - 1) |>) g cpu _).
  reflexivity.
Qed.

Lemma wp_sched_ttwu_pending g s l r :
  tracks g s -> k_rqs g !! k_this_cpu g = Some r -> rq_lock r = false -> is_Some (k_tasks g !! curr r) ->
  idle_tasks l g -> l <> [] ->
  let cpu := k_this_cpu g in
  wp (sched_ttwu_pending l)
    (fun _ s' => tracks (all_enqueued cpu l (upd_rq cpu (fun r => r <| ttwu_pending := false |>) g)) s') s.
Proof using FL KL EL.
  intros H Hr Hl Hcur Hidle Hne cpu. unfold sched_ttwu_pending, smp_processor_id. do 2 apply wp_bind. apply wp_get, wp_ret.
  rewrite (tracks_this_cpu _ _ H). fold cpu. fold cpu in Hr. destruct l as [|p l]; [done|]. revert Hidle. generalize (p :: l). clear Hne p l.
  intros l Hidle. set (g1 := upd_rq cpu _ g). apply wp_bind.
  eapply wp_track_rq; [exact H|by exists r|commutes|]. intros s1 H1. fold g1 in H1.
  assert (k_rqs g1 !! cpu = Some (r <| ttwu_pending := false |>)) as Hr1.
  { subst g1. by rewrite upd_rq_lookup, decide_True, Hr. }
  apply wp_bind. eapply wp_track_lock; [exact H1|exact Hr1|exact Hl|]. intros s2 H2.
  assert (cpu_up (locked_g cpu g1) cpu) as Hup.
  { apply (cpu_up_upd_rq g1 cpu cpu (fun r => r <| rq_lock := true |>)); [done|].
    exists (r <| ttwu_pending := false |>). split; [exact Hr1|exact Hcur]. }
  apply wp_bind. eapply (wp_track_frame _ _ false); [exact H2| |].
  { apply wp_update_clock. destruct Hup as (r2 & Hr2 & _). eapply tracks_rq_some; [exact H2|by exists r2]. }
  intros s3 H3. apply wp_bind. eapply wp_mono; [by apply (wp_ttwu_pending_loop l _ _ cpu H3)|].
  cbn beta. intros _ s4 H4. rewrite all_enqueued_locked in H4.
  pose proof (all_enqueued_lock cpu l g1) as Hlock. rewrite Hr1 in Hlock. apply fmap_Some in Hlock as (r5 & Hr5 & E5).
  eapply wp_track_unlock_rq; [exact H4|exact Hr5|rewrite <- E5; exact Hl|]. done.
Qed.

(** ** Runnable tasks *)

Definition runnable (s : kstate) (p : ptr) : Prop :=
  exists t, k_tasks s !! p = Some t /\ nz (on_rq t) = true /\ t_state t = TASK_RUNNING.

Lemma tracks_runnable g s p : tracks g s -> runnable g p -> runnable s p.
Proof.
  intros H (t & Ht & Hq & Hs). destruct (tracks_task _ _ _ _ H Ht) as (t' & Ht' & E1). exists t'. split; [done|].
  by rewrite (erase_field true (fun t => nz (on_rq t)) _ _ (erase_queued true) E1), (erase_field true t_state _ _ ltac:(kept_field) E1).
Qed.

Lemma enqueued_runnable cpu p b g : is_Some (k_tasks g !! p) -> runnable (enqueued cpu p b g) p.
Proof.
  intros [t Ht]. exists (t <| on_rq := 1 |> <| t_state := TASK_RUNNING |>). split; [|done].
  by rewrite enqueued_tasks, upd_task_lookup, decide_True, Ht.
Qed.

Lemma enqueued_keeps_runnable cpu p b g q : runnable g q -> runnable (enqueued cpu p b g) q.
Proof.
  intros (t & Ht & H). unfold runnable. rewrite enqueued_tasks, upd_task_lookup, Ht. case_decide; by eexists.
Qed.

Lemma all_enqueued_keeps cpu l : forall g q, runnable g q -> runnable (all_enqueued cpu l g) q.
Proof. induction l as [|p l IH]; intros g q H; [done|]. by apply IH, enqueued_keeps_runnable. Qed.

Lemma all_enqueued_runnable cpu l : forall g q, idle_tasks l g -> q ∈ l -> runnable (all_enqueued cpu l g) q.
Proof.
  induction l as [|p l IH]; intros g q Hl Hq; [by apply not_elem_of_nil in Hq|]. cbn [all_enqueued].
  apply elem_of_cons in Hq as [->|Hq].
  - apply all_enqueued_keeps, enqueued_runnable. destruct (Hl p) as (t & Ht & _); [by left|by exists t].
  - apply IH; [|done]. apply idle_tasks_enqueued. intros x Hx. apply Hl. by right.
Qed.

(** ** The other CPU's part *)

(** What [llist_del_all] takes off the wake list of a CPU, oldest first, and the
    machine when that CPU does so. *)
Definition wake_list_of (cpu : Z) (s : kstate) : list ptr :=
  reverse ((filter (fun x : Z * ptr => x.1 = cpu) (k_wake_list s)).*2).
Definition turn_to (cpu : Z) (s : kstate) : kstate :=
  s <| k_this_cpu := cpu |> <| k_wake_list := filter (fun x : Z * ptr => x.1 <> cpu) (k_wake_list s) |>.

Lemma wake_list_elem cpu s q : q ∈ wake_list_of cpu s <-> (cpu, q) ∈ k_wake_list s.
Proof.
  unfold wake_list_of. rewrite elem_of_reverse, list_elem_of_fmap. split.
  - intros ((c & x) & -> & [Hc Hx]%list_elem_of_filter). cbn in *. by subst c.
  - intros H. exists (cpu, q). split; [done|]. by apply list_elem_of_filter.
Qed.

Lemma turn_to_tracks cpu g s : tracks g s -> tracks (turn_to cpu g) (turn_to cpu s).
Proof.
  intros H. unfold turn_to. rewrite (tracks_wake_list _ _ H).
  by apply (tracks_state (fun x => x <| k_this_cpu := cpu |> <| k_wake_list := _ |>)).
Qed.

(** ** Both parts together *)

Lemma handed_over_tasks cpu p m t s q u :
  k_tasks s !! q = Some u -> exists u', k_tasks (handed_over cpu p m (waking p t s)) !! q = Some u' /\ on_cpu u' = on_cpu u.
Proof.
  intros Hq. change (k_tasks (handed_over cpu p m (waking p t s)))
    with (k_tasks (upd_task p (fun t => t <| sched_remote_wakeup := m |>) (waking p t s))).
  rewrite upd_task_lookup.
  assert (exists u1, k_tasks (waking p t s) !! q = Some u1 /\ on_cpu u1 = on_cpu u) as (u1 & Hu1 & E1).
  { unfold waking. rewrite upd_task_lookup. destruct (in_iowait t);
      [change (k_tasks (upd_rq ?a ?b s)) with (k_tasks s)|]; rewrite Hq; case_decide; by eexists. }
  rewrite Hu1. case_decide; by eexists.
Qed.

Lemma handed_over_rq cpu p m t s r :
  k_rqs s !! cpu = Some r ->
  exists r', k_rqs (handed_over cpu p m (waking p t s)) !! cpu = Some r' /\ rq_lock r' = rq_lock r /\ curr r' = curr r.
Proof.
  intros Hr. destruct (waking_rq p t s cpu r Hr) as (r1 & Hr1 & E1 & E2).
  exists (r1 <| ttwu_pending := true |>). split; [|done].
  change (k_rqs (handed_over cpu p m (waking p t s)) !! cpu)
    with (k_rqs (upd_rq cpu (fun r => r <| ttwu_pending := true |>) (waking p t s)) !! cpu).
  by rewrite upd_rq_lookup, decide_True, Hr1.
Qed.

Lemma pending_after_handover cpu p m t s s1 r :
  k_tasks s !! p = Some t -> on_cpu t = 0 ->
  k_rqs s !! cpu = Some r -> rq_lock r = false -> is_Some (k_tasks s !! curr r) ->
  (forall c q, (c, q) ∈ k_wake_list s -> exists u, k_tasks s !! q = Some u /\ on_cpu u = 0) ->
  tracks (handed_over cpu p m (waking p t s)) s1 ->
  p ∈ wake_list_of cpu s1 /\
  exists s2, sched_ttwu_pending (wake_list_of cpu s1) (turn_to cpu s1) = Ok tt s2 /\
    forall q, q ∈ wake_list_of cpu s1 -> runnable s2 q.
Proof using FL KL EL.
  intros Ht Hoff Hr Hl [c Hcur] Hlist H. set (g := handed_over cpu p m (waking p t s)) in *.
  assert (k_wake_list s1 = (cpu, p) :: k_wake_list s) as El.
  { rewrite (tracks_wake_list _ _ H). unfold g, handed_over, waking. by destruct (in_iowait t). }
  assert (p ∈ wake_list_of cpu s1) as Hp by (apply wake_list_elem; rewrite El; by left).
  split; [exact Hp|]. destruct (handed_over_rq cpu p m t s r Hr) as (r' & Hr' & El' & Ec'). fold g in Hr'.
  set (l := wake_list_of cpu s1) in *.
  assert (idle_tasks l (turn_to cpu g)) as Hidle.
  { intros q Hq%wake_list_elem. rewrite El in Hq. change (k_tasks (turn_to cpu g)) with (k_tasks g).
    assert (exists u, k_tasks s !! q = Some u /\ on_cpu u = 0) as (u & Hu & E0).
    { apply elem_of_cons in Hq as [[= ->]|Hq]; [by exists t|by apply (Hlist cpu)]. }
    destruct (handed_over_tasks cpu p m t s q u Hu) as (u' & Hu' & E1). exists u'. by rewrite E1. }
  assert (wp (sched_ttwu_pending l) (fun _ s' => tracks (all_enqueued cpu l
    (upd_rq cpu (fun r => r <| ttwu_pending := false |>) (turn_to cpu g))) s') (turn_to cpu s1)) as Hw.
  { apply (wp_sched_ttwu_pending (turn_to cpu g) _ l r').
    - by apply turn_to_tracks.
    - exact Hr'.
    - by rewrite El'.
    - rewrite Ec'. destruct (handed_over_tasks cpu p m t s (curr r) c Hcur) as (c' & Hc' & _). by exists c'.
    - exact Hidle.
    - intros E0. rewrite E0 in Hp. by apply not_elem_of_nil in Hp. }
  apply wp_elim in Hw as ([] & s2 & E2 & H2). exists s2. split; [exact E2|]. intros q Hq.
  eapply tracks_runnable; [exact H2|]. by apply all_enqueued_runnable.
Qed.

(** C14. A wakeup is never lost: when [try_to_wake_up] has accepted a task, either
    it is runnable and queued at once, or it is on the wake list of an allowed
    CPU that is up, and then handling that list there ([sched_ttwu_pending], when
    the interrupt arrives) makes it runnable and queues it, along with every
    other task left on the list in the meantime, without waiting for anything. *)
Theorem wakeup_is_carried_out fuel s p t r state fl :
  k_rqs s !! k_this_cpu s = Some r -> wake_pre false s p t -> (p = curr r -> on_rq t = TASK_ON_RQ_QUEUED) ->
  has (t_state t) state = true ->
  (forall c q, (c, q) ∈ k_wake_list s -> exists u, k_tasks s !! q = Some u /\ on_cpu u = 0) ->
  exists s1, try_to_wake_up (S fuel) p state fl s = Ok 1 s1 /\
    (runnable s1 p \/
     exists cpu, is_cpu_allowed s t cpu = true /\ cpu ∈ k_online s /\ p ∈ wake_list_of cpu s1 /\
       exists s2, sched_ttwu_pending (wake_list_of cpu s1) (turn_to cpu s1) = Ok tt s2 /\
         forall q, q ∈ wake_list_of cpu s1 -> runnable s2 q).
Proof using FL KL EL.
  intros Hr Hpre Hself Hstate Hlist.
  destruct (wp_elim _ _ _ (try_to_wake_up_correct fuel s p t r state fl Hr Hpre Hself)) as (ret & s1 & E1 & Hspec).
  unfold wake_spec in Hspec. rewrite Hstate in Hspec. cbn [negb] in Hspec. destruct Hspec as [-> Hspec].
  exists s1. split; [exact E1|]. pose proof (wk_task _ _ _ _ Hpre) as Ht.
  destruct (nz (on_rq t)) eqn:Eq.
  { left. eapply tracks_runnable; [exact Hspec|]. exists (t <| t_state := TASK_RUNNING |>).
    split; [by apply (upd_task_at p (fun t => t <| t_state := TASK_RUNNING |>))|done]. }
  destruct Hspec as (cpu & Hallowed & [H|(Hne & m & H)]).
  { left. eapply tracks_runnable; [exact H|]. apply enqueued_runnable.
    destruct (waking_facts p t s) as (_ & _ & _ & Hw). specialize (Hw Ht). by eexists. }
  right. exists cpu. pose proof (allowed_up _ _ _ Hallowed (wk_active _ _ _ _ Hpre)) as Hon.
  split; [exact Hallowed|]. split; [exact Hon|].
  destruct (wk_cpus _ _ _ _ Hpre cpu (or_intror Hon)) as (rc & Hrc & Hlc & Hcc).
  eapply (pending_after_handover cpu p m t s s1 rc); try done.
  destruct (wk_on_cpu _ _ _ _ Hpre) as [?|Hq]; [done|].
  rewrite Hq, (proj1 on_rq_values) in Eq. done.
Qed.
End Pending.

(** Task 3 is left to CPU 1, which wakes it. *)
Lemma wakeup_is_carried_out_witness :
  exists s1, try_to_wake_up (K := choosing 3%positive) 1 3%positive 1 0 (two_machine sleeper) = Ok 1 s1 /\
    (runnable s1 3%positive \/
     exists cpu, is_cpu_allowed (two_machine sleeper) sleeper cpu = true /\ cpu ∈ k_online (two_machine sleeper) /\
       3%positive ∈ wake_list_of cpu s1 /\
       exists s2, sched_ttwu_pending (K := choosing 3%positive) (wake_list_of cpu s1) (turn_to cpu s1) = Ok tt s2 /\
         forall q, q ∈ wake_list_of cpu s1 -> runnable s2 q).
Proof.
  apply (wakeup_is_carried_out (K := choosing 3%positive) 0 (two_machine sleeper) 3%positive sleeper
    machine_rq 1 0 eq_refl sleeper_pre).
  - intros H. discriminate H.
  - reflexivity.
  - intros c q Hq. by apply not_elem_of_nil in Hq.
Defined.

Example handed_over_to_cpu_1 :
  match try_to_wake_up (K := choosing 3%positive) 1 3%positive 1 0 (two_machine sleeper) with
  | Ok ret s => Some (ret, wake_list_of 1 s) | _ => None end = Some (1, [3%positive]).
Proof. vm_compute. reflexivity. Qed.
