(* ===== verification/Sleepers.v ===== *)
(** * Sleepers: who waits for I/O and who counts as load

    The run queues count the tasks that sleep in I/O ([nr_iowait]) and those that
    sleep uninterruptibly ([nr_uninterruptible], the load average's share).
    [__schedule] counts a task in on the CPU where it blocks; the wakeup counts
    it out on whatever CPU.  So a single counter may be off, even negative, but
    the sums over the machine are the numbers of sleepers. *)

From S2P Require Import Prelude Task KernelApi Prio Rq RqClock Uclamp UclampTrace.
From S2P Require Import State Sched SchedFacts ScheduleSpec Machine SwitchCount Setprio TaskLock.
From S2P Require Import SetprioSpec SetprioDemo Affinity Waiting AffinitySpec Ttwu TtwuSpec Keeps WakeQ TtwuDemo Tick TickSpec Exclusive Pending.

(** ** The books *)

(** Off the queue, and not a new task that was never on it. *)
Definition asleep (t : task_struct) : bool := negb (nz (on_rq t)) && negb (t_state t =? TASK_NEW).
Definition io_sleeper (t : task_struct) : Z :=
  Z.b2z (asleep t && in_iowait t && negb (t_state t =? TASK_WAKING)).
Definition load_sleeper (t : task_struct) : Z := Z.b2z (asleep t && sched_contributes_to_load t).

Definition io_books (s : kstate) : Z := msum Rq.nr_iowait (k_rqs s) - msum io_sleeper (k_tasks s).
Definition load_books (s : kstate) : Z := msum nr_uninterruptible (k_rqs s) - msum load_sleeper (k_tasks s).

(** The counters agree with the tasks; [nr_uninterruptible] is an unsigned long. *)
Definition accounted (s : kstate) : Prop :=
  msum Rq.nr_iowait (k_rqs s) = msum io_sleeper (k_tasks s) /\
  u64 (msum nr_uninterruptible (k_rqs s)) = u64 (msum load_sleeper (k_tasks s)).

Lemma accounted_books s : accounted s <-> io_books s = 0 /\ u64 (load_books s) = 0.
Proof.
  unfold accounted, io_books, load_books.
  set (a := msum nr_uninterruptible (k_rqs s)). set (b := msum load_sleeper (k_tasks s)).
  split; intros [H1 H2]; (split; [lia|]).
  - rewrite <- wrapu_sub_l, H2, wrapu_sub_l, Z.sub_diag. done.
  - replace a with (a - b + b) by lia. by rewrite <- wrapu_add_l, H2.
Qed.

(** From one state to the next the books change by [d] and [e]. *)
Definition posts (d e : Z) (s s' : kstate) : Prop :=
  io_books s' = io_books s + d /\ u64 (load_books s') = u64 (load_books s + e).

Lemma posts_trans d1 e1 d2 e2 s1 s2 s3 : posts d1 e1 s1 s2 -> posts d2 e2 s2 s3 -> posts (d1 + d2) (e1 + e2) s1 s3.
Proof.
  intros [H1 H2] [H3 H4]. split; [lia|].
  by rewrite H4, <- wrapu_add_l, H2, wrapu_add_l, Z.add_assoc.
Qed.

Lemma posts_accounted s s' : posts 0 0 s s' -> accounted s -> accounted s'.
Proof. rewrite !accounted_books. intros [H1 H2] [H3 H4]. by rewrite H1, H2, !Z.add_0_r. Qed.

Lemma posts_task d e p f t s :
  k_tasks s !! p = Some t -> io_sleeper (f t) = io_sleeper t - d -> load_sleeper (f t) = load_sleeper t - e ->
  posts d e s (upd_task p f s).
Proof.
  intros Ht H1 H2. unfold posts, io_books, load_books.
  change (k_tasks (upd_task p f s)) with (alter f p (k_tasks s)). change (k_rqs (upd_task p f s)) with (k_rqs s).
  rewrite !(msum_alter _ _ _ _ _ Ht), H1, H2. split; [|f_equal]; lia.
Qed.

Lemma posts_rq d e c f r s :
  k_rqs s !! c = Some r -> Rq.nr_iowait (f r) = Rq.nr_iowait r + d ->
  u64 (nr_uninterruptible (f r)) = u64 (nr_uninterruptible r + e) ->
  posts d e s (upd_rq c f s).
Proof.
  intros Hr H1 H2. unfold posts, io_books, load_books.
  change (k_rqs (upd_rq c f s)) with (alter f c (k_rqs s)). change (k_tasks (upd_rq c f s)) with (k_tasks s).
  rewrite !(msum_alter _ _ _ _ _ Hr), H1. split; [lia|].
  replace (msum nr_uninterruptible (k_rqs s) - nr_uninterruptible r + nr_uninterruptible (f r) - msum load_sleeper (k_tasks s))
    with (nr_uninterruptible (f r) + (msum nr_uninterruptible (k_rqs s) - nr_uninterruptible r - msum load_sleeper (k_tasks s))) by lia.
  rewrite <- wrapu_add_l, H2, wrapu_add_l. f_equal. lia.
Qed.

(** What the books read of a task and of a run queue. *)
Definition task_entry (t : task_struct) : Z * Z := (io_sleeper t, load_sleeper t).
Definition rq_entry (r : rq) : Z * Z := (Rq.nr_iowait r, nr_uninterruptible r).

Lemma msum_entries {K' A B} `{Countable K'} (f : A -> B) (h : B -> Z) (m m' : gmap K' A) :
  (forall k, f <$> m' !! k = f <$> m !! k) -> msum (fun x => h (f x)) m' = msum (fun x => h (f x)) m.
Proof.
  intros E. rewrite <- !(msum_fmap h f). f_equal. apply map_eq. intros k. rewrite !lookup_fmap. apply E.
Qed.

Lemma posts_entries s s' :
  (forall p, task_entry <$> k_tasks s' !! p = task_entry <$> k_tasks s !! p) ->
  (forall c, rq_entry <$> k_rqs s' !! c = rq_entry <$> k_rqs s !! c) -> posts 0 0 s s'.
Proof.
  intros Ht Hr. unfold posts, io_books, load_books. rewrite !Z.add_0_r.
  assert (msum io_sleeper (k_tasks s') = msum io_sleeper (k_tasks s)) as -> by exact (msum_entries task_entry fst _ _ Ht).
  assert (msum load_sleeper (k_tasks s') = msum load_sleeper (k_tasks s)) as -> by exact (msum_entries task_entry snd _ _ Ht).
  assert (msum Rq.nr_iowait (k_rqs s') = msum Rq.nr_iowait (k_rqs s)) as -> by exact (msum_entries rq_entry fst _ _ Hr).
  assert (msum nr_uninterruptible (k_rqs s') = msum nr_uninterruptible (k_rqs s)) as -> by exact (msum_entries rq_entry snd _ _ Hr).
  done.
Qed.

Lemma task_entry_erase t : task_entry (erase_task true t) = task_entry t.
Proof.
  unfold task_entry, io_sleeper, load_sleeper, asleep.
  change (on_rq (erase_task true t)) with (if nz (on_rq t) then 1 else 0).
  change (t_state (erase_task true t)) with (t_state t). change (in_iowait (erase_task true t)) with (in_iowait t).
  change (sched_contributes_to_load (erase_task true t)) with (sched_contributes_to_load t).
  by destruct (nz (on_rq t)).
Qed.

Lemma posts_core s s' : core_same true s s' -> posts 0 0 s s'.
Proof.
  intros H. apply posts_entries.
  - intros p. apply core_same_view; [apply task_entry_erase|done].
  - intros c. apply core_same_rq_view; done.
Qed.

(** ** Going to sleep *)

Lemma queued_awake t : nz (on_rq t) = true -> asleep t = false.
Proof. unfold asleep. by intros ->. Qed.

(** A task that may block: queued, and neither new nor being woken. *)
Definition live (t : task_struct) : Prop :=
  nz (on_rq t) = true /\ t_state t <> TASK_NEW /\ t_state t <> TASK_WAKING.

Section Posting.
Context {P : PrioApi} {Y : PolicyApi} {U : UclampApi} {A : AttrFlagApi} {F : FlagApi} {FL : FlagLaws F}
  {C : ClockConfig}.

Lemma posts_refl s : posts 0 0 s s.
Proof. by apply posts_core. Qed.

(** The task that blocks is counted where it blocks. *)
Lemma posts_block {K : SchedClassOps} preempt cpu prev p r s :
  k_rqs s !! cpu = Some r -> k_tasks s !! prev = Some p -> live p ->
  posts 0 0 s (spec_block preempt cpu prev p s).
Proof.
  intros Hr Hp (Hq & Hnew & Hwaking). unfold spec_block. destruct (_ && nz _); [|apply posts_refl].
  pose proof (queued_awake p Hq) as Hawake.
  destruct (signal_pending_state _ _).
  { eapply posts_task; [exact Hp|..]; unfold io_sleeper, load_sleeper, asleep; rsimpl; by rewrite Hq. }
  set (c := has (t_state p) TASK_UNINTERRUPTIBLE && _ && _). set (w := in_iowait p).
  set (p1 := p <| sched_contributes_to_load := c |>).
  set (s1 := upd_task prev (fun t => t <| sched_contributes_to_load := c |>) s).
  assert (posts 0 0 s s1) as H1.
  { eapply posts_task; [exact Hp|..]; unfold io_sleeper, load_sleeper, asleep; rsimpl; by rewrite Hq. }
  assert (k_tasks s1 !! prev = Some p1) as Hp1 by by apply (upd_task_at prev (fun t => t <| sched_contributes_to_load := c |>)).
  set (s2 := if c then _ else s1).
  assert (posts 0 (Z.b2z c) s1 s2 /\ k_tasks s2 = k_tasks s1 /\ is_Some (k_rqs s2 !! cpu)) as (H2 & E2 & [r2 Hr2]).
  { subst s2. destruct c; [|split; [apply posts_refl|split; [done|by exists r]]]. split; [|split; [done|]].
    - eapply posts_rq; [exact Hr|symmetry; apply Z.add_0_r|apply wrapu_wrapu].
    - apply (upd_rq_some cpu (fun r => r <| nr_uninterruptible := u64 (nr_uninterruptible r + 1) |>)). by exists r. }
  set (s3 := upd_task prev (fun t => t <| on_rq := 0 |>) s2).
  assert (posts (- Z.b2z w) (- Z.b2z c) s2 s3) as H3.
  { eapply posts_task; [by rewrite E2|..]; unfold io_sleeper, load_sleeper, asleep, p1; rsimpl; rewrite Hq; cbn;
      rewrite (proj2 (Z.eqb_neq _ _) Hnew), ?(proj2 (Z.eqb_neq _ _) Hwaking); subst w; destruct (in_iowait p), c; done. }
  assert (posts (Z.b2z w) 0 s3 (if w then upd_rq cpu (fun r => r <| Rq.nr_iowait := Rq.nr_iowait r + 1 |>) s3 else s3)) as H4.
  { destruct w; [|apply posts_refl]. eapply posts_rq; [exact Hr2|reflexivity|by rewrite Z.add_0_r]. }
  pose proof (posts_trans _ _ _ _ _ _ _ (posts_trans _ _ _ _ _ _ _ (posts_trans _ _ _ _ _ _ _ H1 H2) H3) H4) as H.
  replace (0 + 0 + - Z.b2z w + Z.b2z w) with 0 in H by lia.
  replace (0 + Z.b2z c + - Z.b2z c + 0) with 0 in H by lia. exact H.
Qed.

Lemma posts_switch {K : SchedClassOps} vol cpu prev next p n s : posts 0 0 s (spec_switch vol cpu prev next p n s).
Proof.
  apply posts_entries.
  - intros q. rewrite spec_switch_task by done. rewrite (upd_task_view task_entry) by done.
    apply upd_task_view. by destruct vol.
  - intros d. rewrite spec_switch_rq by done. rewrite (upd_rq_view rq_entry) by done. by apply upd_rq_view.
Qed.

Lemma posts_schedule {K : SchedClassOps} {KL : SchedClassLaws K} preempt s s' r p :
  schedule_pre s r p -> live p -> __schedule preempt s = Ok tt s' -> posts 0 0 s s'.
Proof using FL.
  intros Hpre Hlive E. destruct (schedule_correct preempt s r p Hpre) as (next & n & s2 & E2 & Hn & _ & Hcore & _).
  rewrite E in E2. injection E2 as <-.
  pose proof (pre_rq _ _ _ Hpre) as Hr. pose proof (pre_curr _ _ _ Hpre) as Hp.
  set (cpu := k_this_cpu s) in *. set (g := spec_block preempt cpu (curr r) p s).
  assert (schedule_spec preempt next s = (if bool_decide (curr r = next) then g
    else spec_switch (negb preempt && nz (t_state p)) cpu (curr r) next p n g) <| k_irqs_off := false |>) as Es.
  { unfold schedule_spec. fold cpu. by rewrite Hr, Hp, Hn. }
  rewrite Es in Hcore. apply (posts_trans 0 0 0 0 _ _ _ (posts_block preempt cpu (curr r) p r s Hr Hp Hlive)). fold g.
  apply (posts_trans 0 0 0 0 _ (if bool_decide (curr r = next) then g else
    spec_switch (negb preempt && nz (t_state p)) cpu (curr r) next p n g)).
  - destruct (bool_decide _); [apply posts_refl|apply posts_switch].
  - by apply posts_core in Hcore.
Qed.

(** ** Waking up *)

(** The states a wakeup may ask for. *)
Definition sleep_states (state : Z) : Prop := has TASK_NEW state = false /\ has TASK_WAKING state = false.

Lemma posts_waking p t r s :
  k_tasks s !! p = Some t -> k_rqs s !! task_cpu t = Some r -> nz (on_rq t) = false ->
  t_state t <> TASK_NEW -> t_state t <> TASK_WAKING ->
  posts 0 0 s (waking p t s).
Proof.
  intros Ht Hr Hq Hnew Hwk. unfold waking. set (w := in_iowait t). set (s1 := if w then _ else s).
  assert (posts (- Z.b2z w) 0 s s1 /\ k_tasks s1 = k_tasks s) as [H1 E1].
  { subst s1. destruct w; [|by split; [apply posts_refl|]]. split; [|done].
    eapply posts_rq; [exact Hr|reflexivity|by rewrite Z.add_0_r]. }
  assert (posts (Z.b2z w) 0 s1 (upd_task p (fun t => t <| t_state := TASK_WAKING |>) s1)) as H2.
  { eapply posts_task; [by rewrite E1|..]; unfold io_sleeper, load_sleeper, asleep; rsimpl; rewrite Hq; cbn [negb andb];
      rewrite (proj2 (Z.eqb_neq _ _) Hnew), ?(proj2 (Z.eqb_neq _ _) Hwk); subst w;
      by destruct (in_iowait t), (sched_contributes_to_load t). }
  pose proof (posts_trans _ _ _ _ _ _ _ H1 H2) as H. by rewrite Z.add_opp_diag_l in H.
Qed.

(** A task that is being woken leaves the load when it joins a queue. *)
Lemma posts_enqueued cpu p t r s :
  k_tasks s !! p = Some t -> k_rqs s !! cpu = Some r -> nz (on_rq t) = false -> t_state t = TASK_WAKING ->
  posts 0 0 s (enqueued cpu p (sched_contributes_to_load t) s).
Proof.
  intros Ht Hr Hq Hwk. unfold enqueued. set (c := sched_contributes_to_load t). set (s1 := if c then _ else s).
  assert (posts 0 (- Z.b2z c) s s1 /\ k_tasks s1 = k_tasks s) as [H1 E1].
  { subst s1. destruct c; [|by split; [apply posts_refl|]]. split; [|done].
    eapply posts_rq; [exact Hr|symmetry; apply Z.add_0_r|]. apply wrapu_wrapu. }
  assert (posts 0 (Z.b2z c) s1 (upd_task p (fun t => t <| on_rq := 1 |> <| t_state := TASK_RUNNING |>) s1)) as H2.
  { eapply posts_task; [by rewrite E1|..]; unfold io_sleeper, load_sleeper, asleep; rsimpl; rewrite Hq, Hwk; subst c;
      by destruct (in_iowait t), (sched_contributes_to_load t). }
  pose proof (posts_trans _ _ _ _ _ _ _ H1 H2) as H. by rewrite Z.add_opp_diag_l in H.
Qed.

Lemma posts_handed_over cpu p m s : posts 0 0 s (handed_over cpu p m s).
Proof.
  apply posts_entries.
  - intros q. by apply (upd_task_view task_entry p (fun t => t <| sched_remote_wakeup := m |>)).
  - intros c. by apply (upd_rq_view rq_entry cpu (fun r => r <| ttwu_pending := true |>)
      (upd_task p (fun t => t <| sched_remote_wakeup := m |>) s)).
Qed.

Lemma posts_wake {K : SchedClassOps} {KL : SchedClassLaws K} {V : SetprioEnv} {E : MigrateEnv} {EL : MigrateLaws E}
    {W : WakeEnv} fuel s p t r state fl ret s' :
  k_rqs s !! k_this_cpu s = Some r -> wake_pre false s p t -> (p = curr r -> on_rq t = TASK_ON_RQ_QUEUED) ->
  sleep_states state -> try_to_wake_up (S fuel) p state fl s = Ok ret s' -> posts 0 0 s s'.
Proof using FL.
  intros Hr Hpre Hself [Hn Hw] E1. pose proof (try_to_wake_up_correct fuel s p t r state fl Hr Hpre Hself) as H.
  apply (wp_ok _ _ _ _ _) with (2 := E1) in H. unfold wake_spec in H.
  destruct (has (t_state t) state) eqn:Hst; cbn [negb] in H; [|destruct H as [_ [H _]]; by apply posts_core].
  assert (t_state t <> TASK_NEW) as Hnew by congruence. assert (t_state t <> TASK_WAKING) as Hwk by congruence.
  pose proof (wk_task _ _ _ _ Hpre) as Ht. destruct H as [_ H]. destruct (nz (on_rq t)) eqn:Hq.
  { destruct H as [H _]. eapply (posts_trans 0 0 0 0); [|by apply posts_core].
    eapply posts_task; [exact Ht|..]; unfold io_sleeper, load_sleeper, asleep; rsimpl; by rewrite Hq. }
  destruct (wk_cpus _ _ _ _ Hpre (task_cpu t) (or_introl eq_refl)) as (r0 & Hr0 & _).
  apply (posts_trans 0 0 0 0 _ _ _ (posts_waking p t r0 s Ht Hr0 Hq Hnew Hwk)).
  destruct (waking_facts p t s) as (_ & _ & _ & Htask). specialize (Htask Ht).
  destruct H as (cpu & Hal & [[H _]|(_ & m & [H _])]).
  - apply posts_core in H. refine (posts_trans 0 0 0 0 _ _ _ _ H).
    pose proof (allowed_up _ _ _ Hal (wk_active _ _ _ _ Hpre)) as Hon.
    destruct (wk_cpus _ _ _ _ Hpre cpu (or_intror Hon)) as (rc & Hrc & _).
    destruct (waking_rq p t s cpu rc Hrc) as (rc' & Hrc' & _).
    exact (posts_enqueued cpu p (t <| t_state := TASK_WAKING |>) rc' _ Htask Hrc' Hq eq_refl).
  - apply posts_core in H. refine (posts_trans 0 0 0 0 _ _ _ _ H). apply posts_handed_over.
Qed.

(** ** Handling a wake list *)

Definition being_woken (l : list ptr) (s : kstate) : Prop :=
  forall p, p ∈ l -> exists t, k_tasks s !! p = Some t /\ on_cpu t = 0 /\ nz (on_rq t) = false /\ t_state t = TASK_WAKING.

Lemma posts_all_enqueued cpu l : forall s,
  NoDup l -> being_woken l s -> is_Some (k_rqs s !! cpu) -> posts 0 0 s (all_enqueued cpu l s).
Proof.
  induction l as [|p l IH]; intros s Hnd Hl [r Hr]; [apply posts_refl|]. cbn [all_enqueued].
  apply NoDup_cons in Hnd as [Hp Hnd]. destruct (Hl p) as (t & Ht & _ & Hq & Hw); [by left|]. rewrite Ht.
  apply (posts_trans 0 0 0 0 _ _ _ (posts_enqueued cpu p t r s Ht Hr Hq Hw)). apply IH; [done| |].
  - intros q Hin. destruct (Hl q) as (u & Hu & H); [by right|]. exists u. split; [|done].
    rewrite enqueued_tasks, upd_task_lookup, decide_False; [done|]. by intros ->.
  - unfold enqueued. destruct (sched_contributes_to_load t); [|by exists r].
    apply (upd_rq_some cpu (fun r => r <| nr_uninterruptible := u64 (nr_uninterruptible r - 1) |>)). by exists r.
Qed.

Lemma posts_pending {K : SchedClassOps} {KL : SchedClassLaws K} {V : SetprioEnv} {E : MigrateEnv} {EL : MigrateLaws E}
    {W : WakeEnv} s l r s' :
  k_rqs s !! k_this_cpu s = Some r -> rq_lock r = false -> is_Some (k_tasks s !! curr r) -> clamps_in_range s ->
  NoDup l -> l <> [] -> being_woken l s -> sched_ttwu_pending l s = Ok tt s' -> posts 0 0 s s'.
Proof using FL.
  intros Hr Hl Hcur Hc Hnd Hne Hb E1. set (cpu := k_this_cpu s) in *.
  assert (idle_tasks l s) as Hidle.
  { intros p Hp. destruct (Hb p Hp) as (t & Ht & Hoff & _). eauto. }
  pose proof (wp_sched_ttwu_pending s s l r (tracks_refl s Hc) Hr Hl Hcur Hidle Hne) as H. cbv zeta in H.
  apply (wp_ok _ _ _ _ _) with (2 := E1) in H. destruct H as [H _]. fold cpu in H.
  set (s1 := upd_rq cpu _ s) in H. apply (posts_trans 0 0 0 0 _ s1).
  - apply posts_entries; [done|]. intros c. by apply upd_rq_view.
  - eapply (posts_trans 0 0 0 0); [|by apply posts_core]. apply posts_all_enqueued; [done|done|].
    apply (upd_rq_some cpu (fun r => r <| ttwu_pending := false |>)). by exists r.
Qed.

(** ** Entering and leaving I/O *)

Lemma posts_awake p f t s :
  k_tasks s !! p = Some t -> nz (on_rq t) = true -> on_rq (f t) = on_rq t -> posts 0 0 s (upd_task p f s).
Proof.
  intros Ht Hq Ef. eapply posts_task; [exact Ht|..]; unfold io_sleeper, load_sleeper;
    rewrite (queued_awake t Hq), queued_awake; [done|by rewrite Ef|done|by rewrite Ef].
Qed.

Lemma posts_io_prepare {K : SchedClassOps} s r t token s' :
  (forall q x, kframe true x (blk_schedule_flush_plug q x)) ->
  k_rqs s !! k_this_cpu s = Some r -> k_tasks s !! curr r = Some t -> nz (on_rq t) = true ->
  io_schedule_prepare s = Ok token s' -> posts 0 0 s s'.
Proof.
  intros Hplug Hr Ht Hq E1. set (g := upd_task (curr r) (fun t => t <| in_iowait := true |>) s).
  assert (wp io_schedule_prepare (fun _ s' => kframe true g s') s) as H.
  { unfold io_schedule_prepare. apply wp_bind. eapply wp_current; [exact Hr|].
    apply wp_bind. eapply wp_task_of; [exact Ht|]. apply wp_bind, wp_upd_task; [by exists t|].
    apply wp_bind, wp_modify, wp_ret, Hplug. }
  apply (wp_ok _ _ _ _ _) with (2 := E1) in H. destruct H as [H _].
  refine (posts_trans 0 0 0 0 _ _ _ _ (posts_core _ _ H)). by eapply posts_awake.
Qed.

Lemma posts_io_finish s r t token s' :
  k_rqs s !! k_this_cpu s = Some r -> k_tasks s !! curr r = Some t -> nz (on_rq t) = true ->
  io_schedule_finish token s = Ok tt s' -> posts 0 0 s s'.
Proof.
  intros Hr Ht Hq E1.
  assert (wp (io_schedule_finish token) (fun _ s' => s' = upd_task (curr r) (fun t => t <| in_iowait := has token 1 |>) s) s) as H.
  { unfold io_schedule_finish. apply wp_bind. eapply wp_current; [exact Hr|]. apply wp_upd_task; [by exists t|done]. }
  apply (wp_ok _ _ _ _ _) with (2 := E1) in H. rewrite H. by eapply posts_awake.
Qed.

(** ** Histories *)

(** What the CPUs do, in any order, each time with whatever the classes do; the
    running task is queued, tasks on a wake list are being woken.  In between,
    anything that leaves sleepers and counters alone, starting new tasks and
    going on on another CPU included. *)
Inductive sleep_step : kstate -> kstate -> Prop :=
  | sl_schedule (K : SchedClassOps) (KL : SchedClassLaws K) preempt s s' r p :
      schedule_pre s r p -> live p -> __schedule preempt s = Ok tt s' -> sleep_step s s'
  | sl_wake (K : SchedClassOps) (KL : SchedClassLaws K) (V : SetprioEnv) (E : MigrateEnv) (EL : MigrateLaws E)
      (W : WakeEnv) fuel s p t r state fl ret s' :
      k_rqs s !! k_this_cpu s = Some r -> wake_pre false s p t -> (p = curr r -> on_rq t = TASK_ON_RQ_QUEUED) ->
      sleep_states state -> try_to_wake_up (S fuel) p state fl s = Ok ret s' -> sleep_step s s'
  | sl_pending (K : SchedClassOps) (KL : SchedClassLaws K) (V : SetprioEnv) (E : MigrateEnv) (EL : MigrateLaws E)
      (W : WakeEnv) s l r s' :
      k_rqs s !! k_this_cpu s = Some r -> rq_lock r = false -> is_Some (k_tasks s !! curr r) -> clamps_in_range s ->
      NoDup l -> l <> [] -> being_woken l s -> sched_ttwu_pending l s = Ok tt s' -> sleep_step s s'
  | sl_io_prepare (K : SchedClassOps) s r t token s' :
      (forall q x, kframe true x (blk_schedule_flush_plug q x)) ->
      k_rqs s !! k_this_cpu s = Some r -> k_tasks s !! curr r = Some t -> nz (on_rq t) = true ->
      io_schedule_prepare s = Ok token s' -> sleep_step s s'
  | sl_io_finish s r t token s' :
      k_rqs s !! k_this_cpu s = Some r -> k_tasks s !! curr r = Some t -> nz (on_rq t) = true ->
      io_schedule_finish token s = Ok tt s' -> sleep_step s s'
  | sl_other s s' :
      (forall p, task_entry <$> k_tasks s' !! p = task_entry <$> k_tasks s !! p) ->
      (forall c, rq_entry <$> k_rqs s' !! c = rq_entry <$> k_rqs s !! c) -> sleep_step s s'.

Lemma sleep_step_posts s s' : sleep_step s s' -> posts 0 0 s s'.
Proof using FL.
  intros [K KL preempt x x' r p Hpre Hl E1|K KL V E EL W fuel x p t r state fl ret x' Hr Hpre Hself Hst E1
    |K KL V E EL W x l r x' Hr Hl Hcur Hc Hnd Hne Hb E1|K x r t token x' Hplug Hr Ht Hq E1|x r t token x' Hr Ht Hq E1|x x' H1 H2].
  - by eapply posts_schedule.
  - by eapply posts_wake.
  - by eapply posts_pending.
  - by eapply posts_io_prepare.
  - by eapply posts_io_finish.
  - by apply posts_entries.
Qed.

Lemma history_accounted s0 s : rtc sleep_step s0 s -> accounted s0 -> accounted s.
Proof using FL.
  induction 1 as [x|x y z Hxy _ IH]; intros H0; [exact H0|]. by apply IH, (posts_accounted x y), H0; apply sleep_step_posts.
Qed.

(** C22. The counts of sleepers are right: along every history of scheduler calls,
    wakeups, wake lists and I/O waits of any CPUs in any order, the run queues
    together count exactly the tasks asleep in I/O ([nr_iowait]) and, modulo
    2^64, those that sleep uninterruptibly ([nr_uninterruptible]), although a
    task is counted in and out on different run queues.  So [nr_iowait], which
    /proc/stat shows, is the number of tasks asleep in I/O. *)
Theorem sleepers_accounted s0 s :
  accounted s0 -> rtc sleep_step s0 s ->
  accounted s /\
  ((forall i, i ∈ for_each_cpu (k_possible s) <-> is_Some (k_rqs s !! i)) ->
   Tick.nr_iowait s = Ok (u64 (msum io_sleeper (k_tasks s))) s).
Proof using FL.
  intros H0 Hr. pose proof (history_accounted _ _ Hr H0) as H. split; [exact H|]. intros Hcpus. unfold Tick.nr_iowait.
  rewrite (bind_ok get _ s s s eq_refl), (sum_rqs_msum nr_iowait_of s _ (k_rqs s) 0) by (done || apply NoDup_for_each_cpu).
  unfold nr_iowait_of. by rewrite Z.add_0_l, msum_wrap, (proj1 H).
Qed.
End Posting.

(** ** A wait for I/O on two CPUs *)

(** Task 2 on CPU 0 waits for I/O uninterruptibly; CPU 0 goes on with task 3; an
    interrupt on CPU 1 leaves task 2 to CPU 0, which queues it. *)
Definition blocked_task : ptr := 2%positive.
Definition io_0 : kstate :=
  upd_task blocked_task (fun t => t <| t_state := TASK_UNINTERRUPTIBLE |> <| cpus_mask := {[ 0 ]} |> <| nr_cpus_allowed := 1 |>)
    (run_on 0 (two_machine (plain_task <| on_rq := 1 |>))).
Definition io_1 : kstate := after (io_schedule_prepare (K := choosing 3%positive) io_0) io_0.
Definition io_2 : kstate := after (__schedule (K := choosing 3%positive) false io_1) io_1.
Definition io_3 : kstate := run_on 1 io_2.
Definition io_4 : kstate :=
  after (try_to_wake_up (K := choosing 3%positive) 1 blocked_task TASK_UNINTERRUPTIBLE 0 io_3) io_3.
Definition io_5 : kstate := turn_to 0 io_4.
Definition io_6 : kstate := after (sched_ttwu_pending (K := choosing 3%positive) [blocked_task] io_5) io_5.

Definition counted_sleepers (s : kstate) : list Z :=
  [msum Rq.nr_iowait (k_rqs s); msum io_sleeper (k_tasks s); msum nr_uninterruptible (k_rqs s); msum load_sleeper (k_tasks s)].

Example io_counts : counted_sleepers <$> [io_0; io_1; io_2; io_3; io_4; io_5; io_6] =
  [[0; 0; 0; 0]; [0; 0; 0; 0]; [1; 1; 1; 1]; [1; 1; 1; 1]; [0; 0; 1; 1]; [0; 0; 1; 1]; [0; 0; 0; 0]].
Proof. vm_compute. reflexivity. Qed.

Example io_handed_over : wake_list_of 0 io_4 = [blocked_task].
Proof. vm_compute. reflexivity. Qed.

Lemma after_run {X} (m : M X) s a : result (m s) = Some a -> m s = Ok a (after (m s) s).
Proof. destruct (m s); [by intros [= ->]|done..]. Qed.

Lemma run_on_step cpu s : sleep_step s (run_on cpu s).
Proof. by apply sl_other. Qed.
Lemma turn_to_step cpu s : sleep_step s (turn_to cpu s).
Proof. by apply sl_other. Qed.

Lemma io_wakes : wake_pre false io_3 blocked_task (default zero_task (k_tasks io_3 !! blocked_task)).
Proof.
  split; try (vm_compute; reflexivity).
  - intros c Hc. assert (c = 0 \/ c = 1) as [-> | ->].
    { destruct Hc as [->|Hc]; [left; vm_compute; reflexivity|].
      change (c ∈ ({[ 0; 1 ]} : gset Z)) in Hc. set_solver. }
    + eexists. split; [vm_compute; reflexivity|]. split; [reflexivity|]. vm_compute. by eexists.
    + eexists. split; [vm_compute; reflexivity|]. split; [reflexivity|]. vm_compute. by eexists.
  - change (({[ 0; 1 ]} : gset Z) ⊆ {[ 0; 1 ]}). reflexivity.
  - left. vm_compute. reflexivity.
  - left. vm_compute. reflexivity.
  - exists 0. vm_compute. reflexivity.
  - apply clamps_b_ok. vm_compute. reflexivity.
Qed.

Lemma io_blocks : let s := io_1 in
  exists r p, schedule_pre s r p /\ live p.
Proof.
  exists (default machine_rq (k_rqs io_1 !! 0)), (default zero_task (k_tasks io_1 !! blocked_task)).
  split; [apply pre_b_ok; vm_compute; reflexivity|]. split; [vm_compute; reflexivity|]. split; vm_compute; discriminate.
Qed.

Lemma sleepers_accounted_witness :
  accounted io_6 /\
  ((forall i, i ∈ for_each_cpu (k_possible io_6) <-> is_Some (k_rqs io_6 !! i)) ->
   Tick.nr_iowait io_6 = Ok (u64 (msum io_sleeper (k_tasks io_6))) io_6).
Proof.
  apply (sleepers_accounted io_0 io_6); [split; vm_compute; reflexivity|].
  destruct io_blocks as (r & p & Hpre & Hlive).
  apply (rtc_l _ _ io_1).
  { eapply (sl_io_prepare (choosing 3%positive) io_0 (default machine_rq (k_rqs io_0 !! 0)) (default zero_task (k_tasks io_0 !! blocked_task)) 0);
      [done|vm_compute; reflexivity..|]. unfold io_1. apply after_run. vm_compute. reflexivity. }
  apply (rtc_l _ _ io_2).
  { apply (sl_schedule (choosing 3%positive) _ false io_1 io_2 r p Hpre Hlive). unfold io_2. apply after_run. vm_compute. reflexivity. }
  apply (rtc_l _ _ io_3); [exact (run_on_step 1 io_2)|]. apply (rtc_l _ _ io_4).
  { eapply (sl_wake (choosing 3%positive) _ _ _ _ _ 0 io_3 blocked_task _ _ TASK_UNINTERRUPTIBLE 0 1); [|exact io_wakes|..].
    - vm_compute. reflexivity.
    - vm_compute. discriminate.
    - split; reflexivity.
    - unfold io_4. apply after_run. vm_compute. reflexivity. }
  apply (rtc_l _ _ io_5); [exact (turn_to_step 0 io_4)|]. apply rtc_once.
  eapply (sl_pending (choosing 3%positive) _ _ _ _ _ io_5 [blocked_task]).
  - vm_compute. reflexivity.
  - reflexivity.
  - vm_compute. by eexists.
  - apply clamps_b_ok. vm_compute. reflexivity.
  - apply NoDup_singleton.
  - discriminate.
  - intros q Hq%list_elem_of_singleton. subst q. eexists. split; [vm_compute; reflexivity|by vm_compute].
  - unfold io_6. apply after_run. vm_compute. reflexivity.
Defined.
