(* ===== verification/Rendezvous.v ===== *)
(** * Rendezvous: sleeping until a condition holds (sched.h, core.c)

    The pattern that sched.h documents at [set_current_state]: a task announces
    its state, looks at a condition and calls [schedule]; another clears the
    condition and wakes it.  Their steps, preemption, other wakeups and the other
    CPUs' wake lists interleave in any order, and no wakeup gets lost. *)

From S2P Require Import Prelude Task KernelApi Prio Rq RqClock Uclamp UclampTrace.
From S2P Require Import State Sched SchedFacts ScheduleSpec Machine SwitchCount Setprio TaskLock.
From S2P Require Import SetprioSpec SetprioDemo Affinity AffinitySpec Ttwu TtwuSpec Keeps WakeQ TtwuDemo Exclusive Pending Sleepers.

(** ** Where a task is

    Whether it is queued, and its state; and whether it is on a wake list. *)

Definition stage (s : kstate) (p : ptr) : option (bool * Z) :=
  (fun t => (nz (on_rq t), t_state t)) <$> k_tasks s !! p.
Definition listed (s : kstate) (p : ptr) : Prop := exists cpu, (cpu, p) ∈ k_wake_list s.

(** Off the queue, and nobody is about to queue it. *)
Definition sound_asleep (s : kstate) (p : ptr) : Prop := exists st, stage s p = Some (false, st) /\ st <> TASK_WAKING.

Lemma stage_core s s' p : core_same true s s' -> stage s' p = stage s p.
Proof.
  intros H. apply core_same_view; [|done]. intros t. by rewrite erase_queued.
Qed.
Lemma listed_core s s' p : core_same true s s' -> listed s' p <-> listed s p.
Proof. intros H. unfold listed. by rewrite (f_equal k_wake_list H : k_wake_list s' = k_wake_list s). Qed.

Lemma stage_upd p f q s :
  stage (upd_task q f s) p = if decide (p = q) then (fun t => (nz (on_rq (f t)), t_state (f t))) <$> k_tasks s !! p else stage s p.
Proof. unfold stage. rewrite upd_task_lookup. case_decide; [|done]. by destruct (k_tasks s !! p). Qed.

(** The task is where it was, and on a list if it was. *)
Definition stays (p : ptr) (s s' : kstate) : Prop := stage s' p = stage s p /\ (listed s p -> listed s' p).

#[export] Instance stays_preorder p : PreOrder (stays p).
Proof. split; [by split|]. intros a b c [H1 H2] [H3 H4]. split; [by rewrite H3|auto]. Qed.
Lemma stays_core p s s' : core_same true s s' -> stays p s s'.
Proof. intros H. split; [by apply stage_core|by apply listed_core]. Qed.
Lemma stays_tracks {U : UclampApi} p g s s' : tracks g s' -> stays p s g -> stays p s s'.
Proof. intros [H _] Hg. etrans; [exact Hg|by apply stays_core]. Qed.

Section Views.
Context {P : PrioApi} {Y : PolicyApi} {U : UclampApi} {A : AttrFlagApi} {F : FlagApi} {FL : FlagLaws F}
  {C : ClockConfig}.

(** ** Scheduling *)

(** What [__schedule] does to a task that it finds running. *)
Definition blocked {K : SchedClassOps} (preempt : bool) (p : ptr) (v : bool * Z) : bool * Z :=
  if negb preempt && nz v.2 then if signal_pending_state v.2 p then (v.1, TASK_RUNNING) else (false, v.2) else v.

Lemma stage_block {K : SchedClassOps} preempt cpu prev t s p :
  k_tasks s !! prev = Some t ->
  stage (spec_block preempt cpu prev t s) p = if decide (p = prev) then blocked preempt p <$> stage s p else stage s p.
Proof.
  intros Ht. assert (forall c f x, stage (upd_rq c f x) p = stage x p) as Hrq by done. unfold spec_block, blocked.
  destruct (decide (p = prev)) as [->|Hne].
  - unfold stage at 2. rewrite Ht. cbn [fmap option_fmap option_map fst snd]. destruct (negb preempt && nz (t_state t)).
    2:{ unfold stage. by rewrite Ht. }
    destruct (signal_pending_state _ _); [by rewrite stage_upd, decide_True, Ht by done|].
    destruct (in_iowait t); rewrite ?Hrq, stage_upd, decide_True by done;
      (destruct (_ && _); [change (k_tasks (upd_rq ?c ?f ?x)) with (k_tasks x)|]);
      by rewrite (upd_task_at prev (fun t => t <| sched_contributes_to_load := _ |>) s t Ht).
  - destruct (_ && nz _); [|done]. destruct (signal_pending_state _ _); [by rewrite stage_upd, decide_False|].
    destruct (in_iowait t); rewrite ?Hrq, stage_upd, decide_False by done;
      (destruct (_ && _); rewrite ?Hrq, stage_upd, decide_False; done).
Qed.

Lemma schedule_spec_wake_list {K : SchedClassOps} preempt next s : k_wake_list (schedule_spec preempt next s) = k_wake_list s.
Proof.
  unfold schedule_spec. destruct (k_rqs s !! _) as [r|]; [|done]. destruct (k_tasks s !! curr r), (k_tasks s !! next); try done.
  unfold spec_switch, spec_drop, spec_mm, spec_block. repeat case_match; done.
Qed.

Lemma stage_schedule {K : SchedClassOps} {KL : SchedClassLaws K} preempt s s' r t p :
  schedule_pre s r t -> __schedule preempt s = Ok tt s' ->
  stage s' p = (if decide (p = curr r) then blocked preempt p <$> stage s p else stage s p) /\
  (listed s' p <-> listed s p).
Proof using FL.
  intros Hpre E. destruct (schedule_correct preempt s r t Hpre) as (next & n & s2 & E2 & Hn & _ & Hcore & _).
  rewrite E in E2. injection E2 as <-. split.
  - rewrite (stage_core _ _ _ Hcore). pose proof (pre_rq _ _ _ Hpre) as Hr. pose proof (pre_curr _ _ _ Hpre) as Ht.
    unfold schedule_spec. rewrite Hr, Ht, Hn. rewrite <- (stage_block preempt (k_this_cpu s) (curr r) t s p Ht).
    set (g := spec_block _ _ _ _ _). change (stage (?x <| k_irqs_off := false |>) p) with (stage x p).
    destruct (bool_decide _); [done|]. unfold stage. rewrite spec_switch_task by done.
    rewrite !(upd_task_view (fun t => (nz (on_rq t), t_state t))); [done|by destruct (_ && _)|done].
  - rewrite (listed_core _ _ _ Hcore). unfold listed. by rewrite schedule_spec_wake_list.
Qed.

(** ** Waking *)

(** A wakeup of the task: it stays, or is runnable, or goes to a wake list. *)
Definition roused (p : ptr) (s s' : kstate) : Prop :=
  stage s' p = Some (true, TASK_RUNNING) \/ stage s' p = Some (false, TASK_WAKING) /\ listed s' p.

Lemma stage_enqueued cpu q b g p :
  stage (enqueued cpu q b g) p =
  if decide (p = q) then (fun _ => (true, TASK_RUNNING)) <$> k_tasks g !! p else stage g p.
Proof. unfold stage. rewrite enqueued_tasks, upd_task_lookup. case_decide; [|done]. by destruct (k_tasks g !! p). Qed.
Lemma listed_enqueued cpu q b g p : listed (enqueued cpu q b g) p <-> listed g p.
Proof. unfold listed, enqueued. by destruct b. Qed.

Lemma waking_stays q t s p : p <> q -> stays p s (waking q t s).
Proof.
  intros Hne. unfold waking, stays, listed. rewrite stage_upd, decide_False by done. by destruct (in_iowait t).
Qed.
Lemma placed_other cpu q c s s' p : p <> q -> placed cpu q c s s' -> stays p s s'.
Proof.
  intros Hne [H|(_ & m & H)]; (eapply stays_tracks; [exact H|]).
  - split; [by rewrite stage_enqueued, decide_False|by rewrite listed_enqueued].
  - split.
    + change (stage (upd_task q (fun t => t <| sched_remote_wakeup := m |>) s) p = stage s p).
      by rewrite stage_upd, decide_False.
    + intros [d Hd]. exists d. by right.
Qed.
Lemma placed_self cpu p c s s' : stage s p = Some (false, TASK_WAKING) -> placed cpu p c s s' -> roused p s s'.
Proof.
  intros Hs. assert (exists t, k_tasks s !! p = Some t) as [t Ht].
  { unfold stage in Hs. destruct (k_tasks s !! p); [eauto|done]. }
  intros [[H _]|(_ & m & [H _])]; unfold roused; rewrite (stage_core _ _ _ H), (listed_core _ _ _ H).
  - left. by rewrite stage_enqueued, decide_True, Ht.
  - right. split; [|exists cpu; by left].
    change (stage (upd_task p (fun t => t <| sched_remote_wakeup := m |>) s) p = Some (false, TASK_WAKING)).
    rewrite stage_upd, decide_True by done. exact Hs.
Qed.

(** [try_to_wake_up] of a task, seen by that task and by others. *)
Lemma stage_wake {K : SchedClassOps} {KL : SchedClassLaws K} {V : SetprioEnv} {E : MigrateEnv} {EL : MigrateLaws E}
    {W : WakeEnv} fuel s q t r state fl ret s' p :
  k_rqs s !! k_this_cpu s = Some r -> wake_pre false s q t -> (q = curr r -> on_rq t = TASK_ON_RQ_QUEUED) ->
  try_to_wake_up (S fuel) q state fl s = Ok ret s' ->
  if decide (p = q) then
    if negb (has (t_state t) state) then stays p s s'
    else if nz (on_rq t) then stage s' p = Some (true, TASK_RUNNING) else roused p s s'
  else stays p s s'.
Proof using FL.
  intros Hr Hpre Hself E1. pose proof (wp_ok _ _ _ _ _ (try_to_wake_up_correct fuel s q t r state fl Hr Hpre Hself) E1) as H.
  pose proof (wk_task _ _ _ _ Hpre) as Ht. unfold wake_spec in H.
  destruct (has (t_state t) state); cbn [negb] in H |- *.
  2:{ destruct H as [_ H]. assert (stays p s s') by by eapply stays_tracks. by case_decide. }
  destruct H as [_ H]. destruct (nz (on_rq t)) eqn:Hq.
  - case_decide as Hp; [subst q|].
    + destruct H as [H _]. rewrite (stage_core _ _ _ H), stage_upd, decide_True, Ht by done. simpl. by rewrite Hq.
    + eapply stays_tracks; [exact H|]. split; [by rewrite stage_upd, decide_False|done].
  - destruct H as (cpu & _ & H). case_decide as Hp; [subst q|].
    + assert (roused p (waking p t s) s') as Hx; [|exact Hx]. eapply placed_self; [|exact H].
      destruct (waking_facts p t s) as (_ & _ & _ & Hw). unfold stage. rewrite (Hw Ht). simpl. by rewrite Hq.
    + etrans; [by apply (waking_stays q t s)|]. by eapply placed_other.
Qed.

(** ** Wake lists *)

Lemma stage_all_enqueued cpu l p : forall g, is_Some (k_tasks g !! p) ->
  stage (all_enqueued cpu l g) p = (if decide (p ∈ l) then Some (true, TASK_RUNNING) else stage g p) /\
  (listed (all_enqueued cpu l g) p <-> listed g p).
Proof.
  induction l as [|q l IH]; intros g [t Ht]; cbn [all_enqueued].
  { split; [|done]. rewrite decide_False; [done|by apply not_elem_of_nil]. }
  set (b := match k_tasks g !! q with Some t => _ | None => _ end).
  destruct (IH (enqueued cpu q b g)) as [E1 E2].
  { rewrite enqueued_tasks. by apply upd_task_some. }
  rewrite E1, E2, listed_enqueued, stage_enqueued, Ht. split; [|done].
  destruct (decide (p = q)) as [->|Hne]; [rewrite (decide_True (P := q ∈ q :: l)) by by left|].
  { by case_decide. }
  destruct (decide (p ∈ l)); [by rewrite decide_True by by right|].
  rewrite decide_False; [done|]. rewrite elem_of_cons. tauto.
Qed.

Lemma turn_to_listed cpu s p : listed s p -> p ∈ wake_list_of cpu s \/ listed (turn_to cpu s) p.
Proof.
  intros [c Hc]. destruct (decide (c = cpu)) as [->|Hne]; [left; by apply wake_list_elem|].
  right. exists c. by apply list_elem_of_filter.
Qed.

(** When the CPU has handled its list, a task that was on a list is runnable or
    still on another one. *)
Lemma stage_pending {K : SchedClassOps} {KL : SchedClassLaws K} {V : SetprioEnv} {E : MigrateEnv} {EL : MigrateLaws E}
    {W : WakeEnv} s cpu r s' p :
  k_rqs s !! cpu = Some r -> rq_lock r = false -> is_Some (k_tasks s !! curr r) -> clamps_in_range s ->
  idle_tasks (wake_list_of cpu s) s -> wake_list_of cpu s <> [] -> is_Some (k_tasks s !! p) ->
  sched_ttwu_pending (wake_list_of cpu s) (turn_to cpu s) = Ok tt s' ->
  stage s' p = Some (true, TASK_RUNNING) \/ stays p s s'.
Proof using FL.
  intros Hr Hl Hcur Hc Hidle Hne Hp E1.
  pose proof (wp_sched_ttwu_pending _ _ _ r (turn_to_tracks cpu s s (tracks_refl s Hc)) Hr Hl Hcur Hidle Hne) as H.
  apply (wp_ok _ _ _ _ _) with (2 := E1) in H. destruct H as [H _]. cbn zeta in H.
  set (g := upd_rq _ _ _) in H. unfold stays. rewrite (stage_core _ _ _ H), (listed_core _ _ _ H).
  destruct (stage_all_enqueued (k_this_cpu (turn_to cpu s)) (wake_list_of cpu s) p g Hp) as [-> ->].
  destruct (decide _) as [Hin|Hin]; [by left|right]. split; [done|].
  intros [Hx|Hx]%(turn_to_listed cpu); [done|exact Hx].
Qed.
End Views.

(** ** The two programs

    The sleeper, task [p]:

      for (;;) { set_current_state(TASK_UNINTERRUPTIBLE);   Announce
                 if (!need_sleep) break;                     CheckCondition
                 schedule(); }                               Block, Returning
      __set_current_state(TASK_RUNNING);                     Leave

    [Returning] is the end of a round of [schedule], which goes around again while
    the task is marked.  The waker, any other task or an interrupt, on any CPU:

      need_sleep = false;                                    Clear
      wake_up_state(p, TASK_UNINTERRUPTIBLE);                Wake *)

Inductive sleeper_at := Announce | CheckCondition | Block | Returning | Leave | Left.
Inductive waker_at := Clear | Wake | Finished.
#[export] Instance waker_at_eq : EqDecision waker_at.
Proof. solve_decision. Defined.

Record meeting := mk_meeting {
  machine_of : kstate;
  need_sleep : bool;
  sleeper : sleeper_at;
  waker : waker_at
}.

(** A step of the sleeper's program, or anything else. *)
Inductive whose := Own | Other.

Section Protocol.
Context {P : PrioApi} {Y : PolicyApi} {U : UclampApi} {A : AttrFlagApi} {F : FlagApi} {FL : FlagLaws F}
  {C : ClockConfig} (p : ptr).

(** The task runs on the CPU that is looked at; running tasks are queued. *)
Definition at_work (s : kstate) (q : ptr) : Prop :=
  exists r t, k_rqs s !! k_this_cpu s = Some r /\ curr r = q /\ k_tasks s !! q = Some t /\ nz (on_rq t) = true.

Inductive meets : whose -> meeting -> meeting -> Prop :=
  | me_announce s s' b w :
      at_work s p -> set_current_state TASK_UNINTERRUPTIBLE s = Ok tt s' ->
      meets Own (mk_meeting s b Announce w) (mk_meeting s' b CheckCondition w)
  | me_check s b w :
      at_work s p -> meets Own (mk_meeting s b CheckCondition w) (mk_meeting s b (if b then Block else Leave) w)
  | me_block (K : SchedClassOps) (KL : SchedClassLaws K) s s' r t b w :
      at_work s p -> schedule_pre s r t -> __schedule false s = Ok tt s' ->
      meets Own (mk_meeting s b Block w) (mk_meeting s' b Returning w)
  | me_again (K : SchedClassOps) (KL : SchedClassLaws K) s s' r t b w :
      at_work s p -> schedule_pre s r t -> __schedule false s = Ok tt s' ->
      meets Other (mk_meeting s b Returning w) (mk_meeting s' b Returning w)
  | me_return s b w :
      at_work s p -> meets Own (mk_meeting s b Returning w) (mk_meeting s b Announce w)
  | me_leave s s' b w :
      at_work s p -> __set_current_state TASK_RUNNING s = Ok tt s' ->
      meets Own (mk_meeting s b Leave w) (mk_meeting s' b Left w)
  | me_clear s b a :
      meets Other (mk_meeting s b a Clear) (mk_meeting s false a Wake)
  | me_wake (K : SchedClassOps) (KL : SchedClassLaws K) (V : SetprioEnv) (E : MigrateEnv) (EL : MigrateLaws E)
      (W : WakeEnv) fuel s r t ret s' b a :
      k_rqs s !! k_this_cpu s = Some r -> p <> curr r -> wake_pre false s p t ->
      wake_up_state (S fuel) p TASK_UNINTERRUPTIBLE s = Ok ret s' ->
      meets Other (mk_meeting s b a Wake) (mk_meeting s' b a Finished)
  (* other tasks call the scheduler; any task, the sleeper too, may be preempted *)
  | me_schedule (K : SchedClassOps) (KL : SchedClassLaws K) preempt s s' r t b a w :
      schedule_pre s r t -> (curr r = p -> preempt = true) -> __schedule preempt s = Ok tt s' ->
      meets Other (mk_meeting s b a w) (mk_meeting s' b a w)
  (* any wakeup of any task, the sleeper too *)
  | me_rouse (K : SchedClassOps) (KL : SchedClassLaws K) (V : SetprioEnv) (E : MigrateEnv) (EL : MigrateLaws E)
      (W : WakeEnv) fuel s q t r state fl ret s' b a w :
      k_rqs s !! k_this_cpu s = Some r -> wake_pre false s q t -> (q = curr r -> on_rq t = TASK_ON_RQ_QUEUED) ->
      try_to_wake_up (S fuel) q state fl s = Ok ret s' ->
      meets Other (mk_meeting s b a w) (mk_meeting s' b a w)
  (* a CPU handles its wake list *)
  | me_pending (K : SchedClassOps) (KL : SchedClassLaws K) (V : SetprioEnv) (E : MigrateEnv) (EL : MigrateLaws E)
      (W : WakeEnv) s cpu r s' b a w :
      k_rqs s !! cpu = Some r -> rq_lock r = false -> is_Some (k_tasks s !! curr r) -> clamps_in_range s ->
      idle_tasks (wake_list_of cpu s) s -> wake_list_of cpu s <> [] ->
      sched_ttwu_pending (wake_list_of cpu s) (turn_to cpu s) = Ok tt s' ->
      meets Other (mk_meeting s b a w) (mk_meeting s' b a w)
  (* whatever leaves the sleeper where it is, going on on another CPU included *)
  | me_other s s' b a w :
      stays p s s' -> meets Other (mk_meeting s b a w) (mk_meeting s' b a w).

Inductive meeting_run : list whose -> meeting -> meeting -> Prop :=
  | mr_nil x : meeting_run [] x x
  | mr_cons l ls x y z : meets l x y -> meeting_run ls y z -> meeting_run (l :: ls) x z.

Definition meeting_starts (x : meeting) : Prop :=
  stage (machine_of x) p = Some (true, TASK_RUNNING) /\ need_sleep x = true /\ sleeper x = Announce /\ waker x = Clear.

(** ** The invariant *)

(** Where the sleeper can be, by its program counter. *)
Definition fits (s : kstate) (a : sleeper_at) : Prop :=
  match a with
  | Announce | Left => stage s p = Some (true, TASK_RUNNING)
  | CheckCondition | Block | Leave =>
      stage s p = Some (true, TASK_RUNNING) \/ stage s p = Some (true, TASK_UNINTERRUPTIBLE)
  | Returning =>
      stage s p = Some (true, TASK_RUNNING) \/ stage s p = Some (false, TASK_UNINTERRUPTIBLE) \/
      stage s p = Some (false, TASK_WAKING) /\ listed s p
  end.

Record coordinated (x : meeting) : Prop := {
  co_fits : fits (machine_of x) (sleeper x);
  co_waits : need_sleep x = bool_decide (waker x = Clear);
  co_leaves : sleeper x = Leave \/ sleeper x = Left -> need_sleep x = false;
  co_woken : waker x = Finished ->
    stage (machine_of x) p <> Some (false, TASK_UNINTERRUPTIBLE) /\
    (sleeper x = Block -> stage (machine_of x) p = Some (true, TASK_RUNNING))
}.

(** What the others may do to the sleeper. *)
Definition drifts (s s' : kstate) : Prop :=
  stays p s s' \/ stage s' p = Some (true, TASK_RUNNING) \/
  (exists st, stage s p = Some (false, st)) /\ stage s' p = Some (false, TASK_WAKING) /\ listed s' p.

Lemma drifts_fits s s' a : fits s a -> drifts s s' -> fits s' a.
Proof.
  intros Hf [[E Hl]|[E|((st & E0) & E & Hl)]].
  - unfold fits in *. rewrite E. destruct a; naive_solver.
  - unfold fits. rewrite E. destruct a; auto.
  - unfold fits in *. rewrite E0 in Hf. rewrite E. destruct a; naive_solver.
Qed.

Lemma drifts_coordinated s s' b a w :
  coordinated (mk_meeting s b a w) -> drifts s s' -> coordinated (mk_meeting s' b a w).
Proof.
  intros [H1 H2 H3 H4] Hd. split; cbn [machine_of need_sleep sleeper waker] in *; [by eapply drifts_fits|done|done|].
  intros Hw. specialize (H4 Hw) as [H4 H5]. destruct Hd as [[E _]|[E|((st & E0) & E & _)]]; rewrite E.
  - done.
  - split; [by intros [=]|done].
  - split; [by intros [=]|]. intros Ha. rewrite (H5 Ha) in E0. done.
Qed.

Lemma wake_drifts {K : SchedClassOps} {KL : SchedClassLaws K} {V : SetprioEnv} {E : MigrateEnv} {EL : MigrateLaws E}
    {W : WakeEnv} fuel s q t r state fl ret s' :
  k_rqs s !! k_this_cpu s = Some r -> wake_pre false s q t -> (q = curr r -> on_rq t = TASK_ON_RQ_QUEUED) ->
  try_to_wake_up (S fuel) q state fl s = Ok ret s' -> drifts s s'.
Proof using FL.
  intros Hr Hpre Hself E1. pose proof (stage_wake _ _ _ _ _ _ _ _ _ p Hr Hpre Hself E1) as H.
  case_decide as Hp; [subst q|by left]. destruct (negb _); [by left|]. destruct (nz (on_rq t)) eqn:Hq; [by right; left|].
  destruct H as [H|[H Hl]]; [by right; left|]. right. right. split; [|done].
  exists (t_state t). unfold stage. rewrite (wk_task _ _ _ _ Hpre). simpl. by rewrite Hq.
Qed.

(** After the waker's wakeup the sleeper is not asleep, nor about to be. *)
Lemma wake_over {K : SchedClassOps} {KL : SchedClassLaws K} {V : SetprioEnv} {E : MigrateEnv} {EL : MigrateLaws E}
    {W : WakeEnv} fuel s t r fl ret s' :
  k_rqs s !! k_this_cpu s = Some r -> p <> curr r -> wake_pre false s p t ->
  try_to_wake_up (S fuel) p TASK_UNINTERRUPTIBLE fl s = Ok ret s' ->
  forall q, stage s' p <> Some (q, TASK_UNINTERRUPTIBLE).
Proof using FL.
  intros Hr Hp Hpre E1 q. pose proof (stage_wake _ _ _ _ _ _ _ _ _ p Hr Hpre ltac:(done) E1) as H.
  rewrite decide_True in H by done. destruct (has (t_state t) _) eqn:Hst; cbn [negb] in H.
  - destruct (nz (on_rq t)); [by rewrite H; intros [=]|]. by destruct H as [-> | [-> _]]; intros [=].
  - destruct H as [-> _]. unfold stage. rewrite (wk_task _ _ _ _ Hpre). intros [= _ E0]. rewrite E0 in Hst. done.
Qed.

Lemma at_work_stage s q : at_work s q -> exists st, stage s q = Some (true, st).
Proof. intros (r & t & _ & _ & Ht & Hq). exists (t_state t). unfold stage. rewrite Ht. simpl. by rewrite Hq. Qed.

Lemma set_state_stage st s s' :
  at_work s p -> __set_current_state st s = Ok tt s' -> stage s' p = Some (true, st).
Proof.
  intros (r & t & Hr & Hc & Ht & Hq) E.
  assert (wp (__set_current_state st) (fun _ s' => s' = upd_task p (fun t => t <| t_state := st |>) s) s) as H.
  { unfold __set_current_state. apply wp_bind. eapply wp_current; [exact Hr|]. rewrite Hc. apply wp_upd_task; [by exists t|done]. }
  apply (wp_ok _ _ _ _ _) with (2 := E) in H. rewrite H, stage_upd, decide_True, Ht by done. simpl. by rewrite Hq.
Qed.

(** The sleeper's own call of the scheduler. *)
Lemma block_stage {K : SchedClassOps} {KL : SchedClassLaws K} s s' r t :
  at_work s p -> schedule_pre s r t -> __schedule false s = Ok tt s' ->
  fits s Block ->
  (stage s p = Some (true, TASK_RUNNING) -> stage s' p = Some (true, TASK_RUNNING)) /\ fits s' Returning.
Proof using FL.
  intros (r0 & t0 & Hr & Hc & _) Hpre E Hf. rewrite (pre_rq _ _ _ Hpre) in Hr. injection Hr as ->.
  destruct (stage_schedule false s s' r0 t p Hpre E) as [E1 _]. rewrite decide_True in E1 by done.
  split; [intros H0; by rewrite E1, H0|]. cbn [fits] in *. rewrite E1. destruct Hf as [-> | ->]; [by left|].
  cbn [fmap option_fmap option_map]. unfold blocked. cbn [fst snd negb andb]. change (nz TASK_UNINTERRUPTIBLE) with true.
  cbn [andb]. destruct (signal_pending_state _ _); auto.
Qed.

Lemma meets_coordinated l x y : meets l x y -> coordinated x -> coordinated y.
Proof using FL.
  intros [s s' b w Hat E|s b w Hat|K KL s s' r t b w Hat Hpre E|K KL s s' r t b w Hat Hpre E|s b w Hat|s s' b w Hat E|s b a
    |K KL V E EL W fuel s r t ret s' b a Hr Hp Hpre E1|K KL pre s s' r t b a w Hpre Hp E
    |K KL V E EL W fuel s q t r state fl ret s' b a w Hr Hpre Hself E1
    |K KL V E EL W s cpu r s' b a w Hr Hl Hcur Hc Hidle Hne E1|s s' b a w Hs] H;
    pose proof H as [H1 H2 H3 H4]; cbn [machine_of need_sleep sleeper waker] in *.
  - split; cbn; [right; by eapply set_state_stage|done|by intros [?|?]|].
    intros _. rewrite (set_state_stage _ _ _ Hat E). split; [by intros [=]|done].
  - destruct b; (split; cbn; [exact H1|done|by intros [?|?]|]); [|intros Hw; by destruct (H4 Hw)].
    intros ->. done.
  - destruct (block_stage s s' r t Hat Hpre E H1) as [Hrun Hret]. split; cbn; [done|done|by intros [?|?]|].
    intros Hw. destruct (H4 Hw) as [_ H5]. rewrite (Hrun (H5 eq_refl)). split; [by intros [=]|done].
  - destruct (at_work_stage _ _ Hat) as [st Hst]. assert (stage s p = Some (true, TASK_RUNNING)) as Hrun.
    { cbn in H1. rewrite Hst in H1 |- *. destruct H1 as [H1|[H1|[H1 _]]]; congruence. }
    destruct (block_stage s s' r t Hat Hpre E (or_introl Hrun)) as [Hrun' Hret]. split; cbn; [done|done|by intros [?|?]|].
    intros _. rewrite (Hrun' Hrun). split; [by intros [=]|done].
  - destruct (at_work_stage _ _ Hat) as [st Hst]. split; cbn; [|done|by intros [?|?]|intros Hw; by destruct (H4 Hw)].
    cbn in H1. rewrite Hst in H1 |- *. destruct H1 as [H1|[H1|[H1 _]]]; congruence.
  - pose proof (set_state_stage _ _ _ Hat E) as E'. split; cbn; [done|done|by intros _; apply H3; left|].
    intros _. rewrite E'. split; [by intros [=]|done].
  - split; cbn; [done..|]. by intros Hw.
  - pose proof (wake_over _ _ _ _ _ _ _ Hr Hp Hpre E1) as Hover.
    assert (drifts s s') as Hd by (eapply wake_drifts; [exact Hr|exact Hpre|done|exact E1]).
    pose proof (drifts_fits s s' a H1 Hd) as Hf. split; cbn; [done|done|done|]. intros _. split; [apply Hover|].
    intros ->. destruct Hf as [Hf|Hf]; [done|]. by apply Hover in Hf.
  - apply (drifts_coordinated s s' b a w H). left. destruct (stage_schedule pre s s' r t p Hpre E) as [E1 E2].
    split; [|by apply E2]. case_decide as Hc; [|done]. rewrite E1, (Hp (eq_sym Hc)). by destruct (stage s p) as [[]|].
  - apply (drifts_coordinated s s' b a w H). by eapply wake_drifts.
  - apply (drifts_coordinated s s' b a w H). destruct (decide (is_Some (k_tasks s !! p))) as [Hp|Hp].
    + destruct (stage_pending s cpu r s' p Hr Hl Hcur Hc Hidle Hne Hp E1) as [Hx|Hx]; [by right; left|by left].
    + exfalso. apply Hp. destruct a; cbn in H1; unfold stage in H1; destruct (k_tasks s !! p); try done; naive_solver.
  - apply (drifts_coordinated s s' b a w H). by left.
Qed.

Lemma run_coordinated ls x y : meeting_run ls x y -> coordinated x -> coordinated y.
Proof using FL. induction 1 as [|l ls x y z Hs _ IH]; [done|]. intros Hx. by eapply IH, meets_coordinated. Qed.

Lemma start_coordinated x : meeting_starts x -> coordinated x.
Proof. destruct x as [s b a w]. intros (H1 & [= ->] & [= ->] & [= ->]). split; cbn; [done|done|by intros [?|?]|done]. Qed.

(** ** Leaving the loop *)

(** How many steps of its own the sleeper has at most before it is out, once the
    waker is done. *)
Definition steps_left (a : sleeper_at) : nat :=
  match a with Block => 5 | Returning => 4 | Announce => 3 | CheckCondition => 2 | Leave => 1 | Left => 0 end.
Definition own_steps (ls : list whose) : nat := sum_list_with (fun l => match l with Own => 1 | Other => 0 end)%nat ls.

Lemma meets_steps l x y : meets l x y -> coordinated x -> waker x = Finished ->
  waker y = Finished /\ (own_steps [l] + steps_left (sleeper y) <= steps_left (sleeper x))%nat.
Proof.
  intros Hs [_ H2 _ _] Hw. rewrite Hw in H2. destruct Hs; cbn in *; try (split; [done|lia]).
  split; [done|]. rewrite H2, bool_decide_eq_false_2 by done. cbn. lia.
Qed.

Lemma run_steps ls x y : meeting_run ls x y -> coordinated x -> waker x = Finished ->
  (own_steps ls + steps_left (sleeper y) <= steps_left (sleeper x))%nat.
Proof using FL.
  induction 1 as [|l ls x y z Hs _ IH]; [done|]. intros Hx Hw.
  destruct (meets_steps _ _ _ Hs Hx Hw) as [Hw' Hle]. specialize (IH (meets_coordinated _ _ _ Hs Hx) Hw').
  assert (own_steps (l :: ls) = own_steps [l] + own_steps ls)%nat as -> by (destruct l; done). lia.
Qed.

(** The steps of its own that the sleeper is given do not fail. *)
Lemma sleeper_moves s b a w :
  at_work s p -> a <> Left -> (a = Block -> exists K : SchedClassOps, SchedClassLaws K /\ exists r t, schedule_pre s r t) ->
  exists y, meets Own (mk_meeting s b a w) y.
Proof using FL.
  intros Hat Ha Hb. assert (forall st, exists s', __set_current_state st s = Ok tt s') as Hset.
  { intros st. destruct Hat as (r & t & Hr & Hc & Ht & _).
    assert (wp (__set_current_state st) (fun _ _ => True) s) as ([] & s' & E & _)%wp_elim; [|by eexists].
    unfold __set_current_state. apply wp_bind. eapply wp_current; [exact Hr|]. rewrite Hc. apply wp_upd_task; [by exists t|done]. }
  destruct a; [| | | | |done].
  - destruct (Hset TASK_UNINTERRUPTIBLE) as [s' E]. eexists. by apply me_announce.
  - eexists. by apply me_check.
  - destruct (Hb eq_refl) as (K & KL & r & t & Hpre).
    destruct (schedule_correct false s r t Hpre) as (_ & _ & s' & E & _). eexists. by apply (me_block K KL s s' r t).
  - eexists. by apply me_return.
  - destruct (Hset TASK_RUNNING) as [s' E]. eexists. by apply me_leave.
Qed.

(** C3. No wakeup is lost in the pattern that sched.h documents: along every
    interleaving of a task that sleeps until a condition is cleared with its
    waker, with preemption and the other CPUs' scheduling, with any other wakeups
    and with the handling of wake lists, (1) the task leaves its loop only after
    the condition was cleared, and runnable; (2) as long as it is asleep the
    waker has not finished; (3) once the waker has finished, the task is queued,
    or on a wake list, and leaves the loop within five steps of its own. *)
Theorem no_lost_wakeup ls x y :
  meeting_starts x -> meeting_run ls x y ->
  (sleeper y = Leave \/ sleeper y = Left -> need_sleep y = false) /\
  (sleeper y = Left -> stage (machine_of y) p = Some (true, TASK_RUNNING)) /\
  (sound_asleep (machine_of y) p -> waker y <> Finished) /\
  (waker y = Finished ->
    ((exists st, stage (machine_of y) p = Some (true, st)) \/ exists cpu, p ∈ wake_list_of cpu (machine_of y)) /\
    forall ls' z, meeting_run ls' y z -> (own_steps ls' + steps_left (sleeper z) <= 5)%nat).
Proof using FL.
  intros Hs Hr. pose proof (run_coordinated _ _ _ Hr (start_coordinated _ Hs)) as Hy. pose proof Hy as [H1 H2 H3 H4].
  split; [exact H3|]. split; [intros E; by rewrite E in H1|]. split.
  - intros (st & Hst & Hne) Hw. destruct (H4 Hw) as [H5 _].
    destruct (sleeper y); cbn in H1; rewrite Hst in H1, H5; intuition congruence.
  - intros Hw. destruct (H4 Hw) as [H5 _]. split.
    + destruct (sleeper y); cbn in H1;
        try first [by left; eexists; exact H1 | by destruct H1 as [H1|H1]; left; eexists; exact H1].
      destruct H1 as [H1|[H1|[_ [cpu H1]]]]; [by left; eexists|done|right]. exists cpu. by apply wake_list_elem.
    + intros ls' z Hrun. pose proof (run_steps _ _ _ Hrun Hy Hw). destruct (sleeper y); cbn in *; lia.
Qed.
End Protocol.

(** ** On two CPUs

    Task 2 on CPU 0 goes to sleep, task 3 runs instead; an interrupt on CPU 1 is
    the waker and leaves task 2 to CPU 0, which queues it.  Task 3 is preempted,
    and task 2 leaves the loop. *)

Definition meet_0 : kstate :=
  upd_task blocked_task (fun t => t <| cpus_mask := {[ 0 ]} |> <| nr_cpus_allowed := 1 |>)
    (run_on 0 (two_machine (plain_task <| on_rq := 1 |>))).
Definition meet_1 : kstate := after (set_current_state TASK_UNINTERRUPTIBLE meet_0) meet_0.
Definition meet_2 : kstate := after (__schedule (K := choosing 3%positive) false meet_1) meet_1.
Definition meet_3 : kstate := run_on 1 meet_2.
Definition meet_4 : kstate :=
  after (wake_up_state (K := choosing 3%positive) 1 blocked_task TASK_UNINTERRUPTIBLE meet_3) meet_3.
Definition meet_5 : kstate :=
  after (sched_ttwu_pending (K := choosing 3%positive) (wake_list_of 0 meet_4) (turn_to 0 meet_4)) meet_4.
Definition meet_6 : kstate := run_on 0 meet_5.
Definition meet_7 : kstate := after (__schedule (K := choosing 2%positive) true meet_6) meet_6.
Definition meet_8 : kstate := after (set_current_state TASK_UNINTERRUPTIBLE meet_7) meet_7.
Definition meet_9 : kstate := after (__set_current_state TASK_RUNNING meet_8) meet_8.

Example meet_stages : (fun s => stage s blocked_task) <$> [meet_0; meet_1; meet_2; meet_4; meet_5; meet_8; meet_9] =
  [Some (true, 0); Some (true, 2); Some (false, 2); Some (false, TASK_WAKING); Some (true, 0); Some (true, 2); Some (true, 0)].
Proof. vm_compute. reflexivity. Qed.


Definition at_work_b (s : kstate) (q : ptr) : bool :=
  match k_rqs s !! k_this_cpu s, k_tasks s !! q with
  | Some r, Some t => bool_decide (curr r = q) && nz (on_rq t)
  | _, _ => false
  end.
Lemma at_work_b_ok s q : at_work_b s q = true -> at_work s q.
Proof.
  unfold at_work_b, at_work. destruct (k_rqs s !! _) as [r|], (k_tasks s !! q) as [t|]; try done.
  intros [H1%bool_decide_eq_true H2]%andb_true_iff. by exists r, t.
Qed.

(** What the tests and the computation of a step decide. *)
Ltac meet_work := apply at_work_b_ok; vm_compute; reflexivity.
Ltac meet_step m s := apply (after_run m s); vm_compute; reflexivity.

Definition curr_rq (s : kstate) : rq := default machine_rq (k_rqs s !! k_this_cpu s).
Definition this_task (s : kstate) : task_struct := default zero_task (k_tasks s !! curr (curr_rq s)).
Ltac meet_pre := apply pre_b_ok; vm_compute; reflexivity.

Lemma meet_wakes : wake_pre false meet_3 blocked_task (default zero_task (k_tasks meet_3 !! blocked_task)).
Proof.
  split; try (vm_compute; reflexivity).
  - intros c Hc. assert (c = 0 \/ c = 1) as [-> | ->].
    { destruct Hc as [->|Hc]; [left; vm_compute; reflexivity|].
      change (c ∈ ({[ 0; 1 ]} : gset Z)) in Hc. set_solver. }
    + eexists. split; [vm_compute; reflexivity|]. split; [reflexivity|]. vm_compute. by eexists.
    + eexists. split; [vm_compute; reflexivity|]. split; [reflexivity|]. vm_compute. by eexists.
  - change (({[ 0; 1 ]} : gset Z) ⊆ {[ 0; 1 ]}). reflexivity.
  - left. vm_compute. reflexivity.
  - left. vm_compute. reflexivity.
  - exists 0. vm_compute. reflexivity.
  - apply clamps_b_ok. vm_compute. reflexivity.
Qed.

Lemma meet_pending : meets blocked_task Other (mk_meeting meet_4 false Returning Finished) (mk_meeting meet_5 false Returning Finished).
Proof.
  eapply (me_pending blocked_task (choosing 3%positive) _ _ _ _ _ meet_4 0).
  - vm_compute. reflexivity.
  - reflexivity.
  - vm_compute. by eexists.
  - apply clamps_b_ok. vm_compute. reflexivity.
  - assert (wake_list_of 0 meet_4 = [blocked_task]) as -> by (vm_compute; reflexivity).
    intros q Hq%list_elem_of_singleton. subst q. eexists. split; vm_compute; reflexivity.
  - assert (wake_list_of 0 meet_4 = [blocked_task]) as -> by (vm_compute; reflexivity). done.
  - unfold meet_5. vm_compute. reflexivity.
Qed.

Lemma meet_wakeup : meets blocked_task Other (mk_meeting meet_3 false Returning Wake) (mk_meeting meet_4 false Returning Finished).
Proof.
  simple eapply (me_wake blocked_task) with (K := choosing 3%positive) (fuel := 0%nat) (ret := 1) (r := curr_rq meet_3);
    [apply _|apply _|apply _|vm_compute; reflexivity|vm_compute; discriminate|exact meet_wakes|].
  meet_step (wake_up_state (K := choosing 3%positive) 1 blocked_task TASK_UNINTERRUPTIBLE) meet_3.
Qed.

Lemma run_on_stays p cpu s : stays p s (run_on cpu s).
Proof. done. Qed.

Definition meet_history : list whose := [Own; Own; Own; Other; Other; Other; Other; Other; Other; Own; Own; Own; Own].
Lemma meet_run : meeting_run blocked_task meet_history
  (mk_meeting meet_0 true Announce Clear) (mk_meeting meet_9 false Left Finished).
Proof.
  eapply mr_cons; [simple apply (me_announce blocked_task meet_0 meet_1); [meet_work|meet_step (set_current_state TASK_UNINTERRUPTIBLE) meet_0]|].
  eapply mr_cons; [simple apply me_check; meet_work|].
  eapply mr_cons; [simple eapply (me_block blocked_task) with (K := choosing 3%positive) (r := curr_rq meet_1) (t := this_task meet_1);
    [apply _|meet_work|meet_pre|meet_step (__schedule (K := choosing 3%positive) false) meet_1]|].
  eapply mr_cons; [simple apply (me_other blocked_task meet_2 meet_3); apply run_on_stays|].
  eapply mr_cons; [simple apply me_clear|].
  eapply mr_cons; [exact meet_wakeup|].
  eapply mr_cons; [exact meet_pending|].
  eapply mr_cons; [simple apply (me_other blocked_task meet_5 meet_6); apply run_on_stays|].
  eapply mr_cons; [simple eapply (me_schedule blocked_task) with (K := choosing 2%positive) (preempt := true)
      (r := curr_rq meet_6) (t := this_task meet_6);
    [apply _|meet_pre|done|meet_step (__schedule (K := choosing 2%positive) true) meet_6]|].
  eapply mr_cons; [simple apply me_return; meet_work|].
  eapply mr_cons; [simple apply (me_announce blocked_task meet_7 meet_8); [meet_work|meet_step (set_current_state TASK_UNINTERRUPTIBLE) meet_7]|].
  eapply mr_cons; [simple apply me_check; meet_work|].
  eapply mr_cons; [simple apply (me_leave blocked_task meet_8 meet_9); [meet_work|meet_step (__set_current_state TASK_RUNNING) meet_8]|]. apply mr_nil.
Qed.

Lemma meet_starts : meeting_starts blocked_task (mk_meeting meet_0 true Announce Clear).
Proof. split; [vm_compute; reflexivity|done]. Qed.

Lemma no_lost_wakeup_witness :
  let y := mk_meeting meet_9 false Left Finished in
  (sleeper y = Leave \/ sleeper y = Left -> need_sleep y = false) /\
  (sleeper y = Left -> stage (machine_of y) blocked_task = Some (true, TASK_RUNNING)) /\
  (sound_asleep (machine_of y) blocked_task -> waker y <> Finished) /\
  (waker y = Finished ->
    ((exists st, stage (machine_of y) blocked_task = Some (true, st)) \/ exists cpu, blocked_task ∈ wake_list_of cpu (machine_of y)) /\
    forall ls' z, meeting_run blocked_task ls' y z -> (own_steps ls' + steps_left (sleeper z) <= 5)%nat).
Proof. exact (no_lost_wakeup blocked_task meet_history _ _ meet_starts meet_run). Defined.

