(* ===== verification/Dying.v ===== *)
(** * Dying: the end of a task (core.c, [do_task_dead])

    The last call of a task: its state becomes TASK_DEAD and it gives up its CPU,
    for good.  No wakeup asks for that state, and the classes pick tasks that are
    queued. *)

From S2P Require Import Prelude Task KernelApi Prio Rq RqClock Uclamp UclampTrace.
From S2P Require Import State Sched SchedFacts ScheduleSpec Machine SwitchCount Setprio TaskLock.
From S2P Require Import SetprioSpec SetprioDemo Affinity AffinitySpec Ttwu TtwuSpec Keeps WakeQ TtwuDemo Exclusive Pending.
From S2P Require Import Sleepers Rendezvous.

Section Dying.
Context {P : PrioApi} {Y : PolicyApi} {U : UclampApi} {A : AttrFlagApi} {F : FlagApi} {FL : FlagLaws F}
  {C : ClockConfig}.
Implicit Types (p q : ptr).

(** ** Up to the scheduler *)

Lemma current_run s r : k_rqs s !! k_this_cpu s = Some r -> current s = Ok (curr r) s.
Proof using.
  intros Hr. unfold current. rewrite (bind_ok smp_processor_id _ s (k_this_cpu s) s) by done.
  by rewrite (bind_ok _ _ _ _ _ (rq_of_run _ _ _ Hr)).
Qed.

Lemma set_special_state_run st s r t :
  k_rqs s !! k_this_cpu s = Some r -> k_tasks s !! curr r = Some t -> pi_lock t = false ->
  set_special_state st s = Ok tt (upd_task (curr r) (fun t => t <| t_state := st |>) s).
Proof using.
  intros Hr Ht Hl. unfold set_special_state. rewrite (bind_ok _ _ _ _ _ (current_run _ _ Hr)). unfold lock_pi.
  rewrite bind_bind, (bind_ok _ _ _ _ _ (task_of_run _ _ _ Ht)). cbv beta. rewrite Hl, bind_bind.
  rewrite (bind_ok (preempt_count_inc 1) _ s tt (s <| k_preempt := k_preempt s + 1 |>)) by done.
  set (t1 := t <| pi_lock := true |>). set (s1 := s <| k_preempt := k_preempt s + 1 |> <| k_tasks := <[curr r := t1]> (k_tasks s) |>).
  rewrite (bind_ok (put_task (curr r) t1) _ _ tt s1) by done.
  assert (k_tasks s1 !! curr r = Some t1) as Ht1 by apply lookup_insert_eq.
  rewrite (bind_ok _ _ _ _ _ (set_task_run (curr r) (fun t => t <| t_state := st |>) s1 t1 Ht1)).
  set (t2 := t1 <| t_state := st |>). set (s2 := s1 <| k_tasks := <[curr r := t2]> (k_tasks s1) |>).
  assert (k_tasks s2 !! curr r = Some t2) as Ht2 by apply lookup_insert_eq. unfold unlock_pi.
  rewrite (bind_ok _ _ _ _ _ (task_of_run _ _ _ Ht2)). cbv beta. change (pi_lock t2) with true. cbv iota.
  rewrite (bind_ok (put_task (curr r) (t2 <| pi_lock := false |>)) _ s2 tt
    (s2 <| k_tasks := <[curr r := t2 <| pi_lock := false |>]> (k_tasks s2) |>)) by done.
  unfold preempt_count_inc, modify. apply (f_equal (Ok tt)). unfold upd_task.
  rewrite <- (insert_alter (k_tasks s) (curr r) t _ Ht). subst s2 s1. rsimpl. rewrite !insert_insert_eq.
  change (t2 <| pi_lock := false |>) with (t <| t_state := st |> <| pi_lock := false |>). rewrite <- Hl.
  replace (k_preempt s + 1 + -1) with (k_preempt s) by lia. by destruct s, t.
Qed.

(** The state in which a dying task calls [__schedule]. *)
Definition at_end (t : task_struct) : task_struct :=
  t <| t_state := TASK_DEAD |> <| t_flags := Z.lor (t_flags t) PF_NOFREEZE |>.
Definition dying (p : ptr) (s : kstate) : kstate := upd_task p at_end s.

Lemma idle_ok_upd_task p f s cpu :
  (forall t, on_cpu (f t) = on_cpu t /\ on_rq (f t) = on_rq t) -> idle_ok s cpu -> idle_ok (upd_task p f s) cpu.
Proof using.
  intros Hf (r & Hr & t & Ht & H). exists r. split; [exact Hr|]. unfold pickable. rewrite upd_task_lookup, Ht.
  case_decide; eexists; (split; [done|]); [|exact H]. destruct (Hf t) as [-> ->]. exact H.
Qed.

Lemma dying_pre s r t :
  schedule_pre s r t ->
  schedule_pre (dying (curr r) s) r (at_end t).
Proof using.
  intros [Hr Hl Hpm Ht Hi Hpre Hmm Hc]. split; try done.
  - by apply upd_task_at.
  - by apply idle_ok_upd_task.
  - apply clamps_upd_task; [by intros ? []|exact Hc].
Qed.

Lemma do_task_dead_schedules {K : SchedClassOps} s r t :
  k_rqs s !! k_this_cpu s = Some r -> k_tasks s !! curr r = Some t -> pi_lock t = false ->
  do_task_dead s =
    (__schedule false;; now ← current; if bool_decide (now = curr r) then bug else mret tt) (dying (curr r) s).
Proof using.
  intros Hr Ht Hl. unfold do_task_dead. rewrite (bind_ok _ _ _ _ _ (set_special_state_run _ _ _ _ Hr Ht Hl)).
  set (s1 := upd_task _ _ s). rewrite (bind_ok _ _ s1 (curr r) s1) by exact (current_run s1 r Hr).
  assert (k_tasks s1 !! curr r = Some (t <| t_state := TASK_DEAD |>)) as Ht1
    by by apply (upd_task_at (curr r) (fun t => t <| t_state := TASK_DEAD |>)).
  rewrite (bind_ok _ _ _ _ _ (set_task_run (curr r) (fun t => t <| t_flags := Z.lor (t_flags t) PF_NOFREEZE |>) s1 _ Ht1)).
  f_equal. rewrite (insert_alter (k_tasks s1) (curr r) _ (fun t => t <| t_flags := Z.lor (t_flags t) PF_NOFREEZE |>) Ht1).
  exact (upd_task_twice (curr r) (fun t => t <| t_flags := Z.lor (t_flags t) PF_NOFREEZE |>) (fun t => t <| t_state := TASK_DEAD |>) s).
Qed.

(** ** Dead *)

Record dead (p : ptr) (s : kstate) : Prop := {
  dd_stage : stage s p = Some (false, TASK_DEAD);
  dd_busy : busy s p = Some false;
  dd_runs c : runs s c <> Some p;
  dd_listed : ~ listed s p
}.

Lemma task_dead_nz : nz TASK_DEAD = true.
Proof using. done. Qed.

(** After the last call of [__schedule]. *)
Lemma schedule_buries {K : SchedClassOps} {KL : SchedClassLaws K} s r t :
  schedule_pre s r t -> well_formed s -> t_state t = TASK_DEAD -> idle r <> curr r ->
  signal_pending_state TASK_DEAD (curr r) = false -> ~ listed s (curr r) ->
  exists s', __schedule false s = Ok tt s' /\ dead (curr r) s' /\ is_Some (k_rqs s' !! k_this_cpu s') /\ well_formed s'.
Proof using FL.
  intros Hpre Hw Hst Hidle Hsig Hnl. destruct (schedule_correct false s r t Hpre) as (_ & _ & s' & E & _).
  exists s'. split; [exact E|]. destruct (schedule_moves false s s' r t Hpre E) as (next & _ & Hruns & Hbusy & Hthis & _ & _ & Hready).
  destruct (stage_schedule false s s' r t (curr r) Hpre E) as [Hstage Hlisted].
  pose proof (pre_rq _ _ _ Hpre) as Hr. pose proof (pre_curr _ _ _ Hpre) as Ht.
  assert (stage s' (curr r) = Some (false, TASK_DEAD)) as Hs.
  { rewrite Hstage, decide_True by done. unfold stage. rewrite Ht. cbn [fmap option_fmap option_map]. unfold blocked.
    cbn [fst snd]. by rewrite Hst, task_dead_nz, Hsig. }
  assert (curr r <> next) as Hne.
  { intros <-. destruct Hready as [Hi|Hq]; [done|]. unfold stage in Hs. unfold queued in Hq.
    destruct (k_tasks s' !! curr r); [|done]. cbn in Hs, Hq. congruence. }
  assert (busy s (curr r) = Some true) as Hb by (apply (wf_curr s Hw (k_this_cpu s)); unfold runs; by rewrite Hr).
  split; [|split].
  - split; [exact Hs| | |by rewrite Hlisted].
    + rewrite Hbusy, bool_decide_eq_true_2, (bool_decide_eq_false_2 _ Hne), Hb by done. done.
    + intros c. rewrite Hruns. clear Hbusy. case_bool_decide as Hc; [congruence|]. intros Hx. apply Hc.
      apply (wf_once s Hw c (k_this_cpu s) (curr r)); [exact Hx|]. unfold runs. by rewrite Hr.
  - specialize (Hruns (k_this_cpu s)). rewrite bool_decide_eq_true_2 in Hruns by done. rewrite Hthis.
    unfold runs in Hruns. destruct (k_rqs s' !! _); [by eexists|done].
  - by eapply schedule_well_formed.
Qed.

Lemma do_task_dead_buries {K : SchedClassOps} {KL : SchedClassLaws K} s r t :
  schedule_pre s r t -> well_formed s -> pi_lock t = false -> idle r <> curr r ->
  signal_pending_state TASK_DEAD (curr r) = false -> ~ listed s (curr r) ->
  exists s', do_task_dead s = Ok tt s' /\ dead (curr r) s' /\ well_formed s'.
Proof using FL.
  intros Hpre Hw Hl Hidle Hsig Hnl. pose proof (pre_rq _ _ _ Hpre) as Hr. pose proof (pre_curr _ _ _ Hpre) as Ht.
  rewrite (do_task_dead_schedules s r t Hr Ht Hl).
  destruct (schedule_buries (dying (curr r) s) r _ (dying_pre s r t Hpre)) as (s' & E & Hd & [r' Hr'] & Hw'); try done.
  { apply (well_formed_same s); [done| |exact Hw]. intros q. unfold busy, dying. by apply upd_task_view. }
  exists s'. split; [|done]. rewrite (bind_ok _ _ _ _ _ E), (bind_ok _ _ _ _ _ (current_run s' r' Hr')).
  rewrite bool_decide_eq_false_2; [done|]. intros Ec. apply (dd_runs _ _ Hd (k_this_cpu s')). unfold runs. by rewrite Hr', <- Ec.
Qed.

(** ** Afterwards *)

(** A wakeup puts nobody but its task on a wake list. *)
Lemma listed_wake {K : SchedClassOps} {KL : SchedClassLaws K} {V : SetprioEnv} {E : MigrateEnv} {EL : MigrateLaws E}
    {W : WakeEnv} fuel s q t r state fl ret s' p :
  k_rqs s !! k_this_cpu s = Some r -> wake_pre false s q t -> (q = curr r -> on_rq t = TASK_ON_RQ_QUEUED) ->
  try_to_wake_up (S fuel) q state fl s = Ok ret s' ->
  listed s' p -> listed s p \/ p = q /\ has (t_state t) state = true.
Proof using FL.
  intros Hr Hpre Hself E1. pose proof (wp_ok _ _ _ _ _ (try_to_wake_up_correct fuel s q t r state fl Hr Hpre Hself) E1) as H.
  unfold wake_spec in H. destruct (has (t_state t) state); cbn [negb] in H.
  2:{ destruct H as [_ [H _]]. rewrite (listed_core _ _ _ H). by left. }
  destruct H as [_ H]. destruct (nz (on_rq t)); [destruct H as [H _]; rewrite (listed_core _ _ _ H); by left|].
  assert (forall x, listed (waking q t s) x <-> listed s x) as Hwk by (intros x; unfold waking, listed; by destruct (in_iowait t)).
  destruct H as (cpu & _ & [[H _]|(_ & m & [H _])]); rewrite (listed_core _ _ _ H).
  - rewrite listed_enqueued, Hwk. by left.
  - intros [d [Hd|Hd]%elem_of_cons]; [injection Hd as _ ->; by right|]. left. apply Hwk. by exists d.
Qed.

Lemma listed_pending {K : SchedClassOps} {KL : SchedClassLaws K} {V : SetprioEnv} {E : MigrateEnv} {EL : MigrateLaws E}
    {W : WakeEnv} s cpu r s' p :
  k_rqs s !! cpu = Some r -> rq_lock r = false -> is_Some (k_tasks s !! curr r) -> clamps_in_range s ->
  idle_tasks (wake_list_of cpu s) s -> wake_list_of cpu s <> [] -> is_Some (k_tasks s !! p) ->
  sched_ttwu_pending (wake_list_of cpu s) (turn_to cpu s) = Ok tt s' ->
  ~ listed s p -> stage s' p = stage s p /\ ~ listed s' p.
Proof using FL.
  intros Hr Hl Hcur Hc Hidle Hne Hp E1 Hn.
  pose proof (wp_sched_ttwu_pending _ _ _ r (turn_to_tracks cpu s s (tracks_refl s Hc)) Hr Hl Hcur Hidle Hne) as H.
  apply (wp_ok _ _ _ _ _) with (2 := E1) in H. destruct H as [H _]. cbn zeta in H.
  set (g := upd_rq _ _ _) in H. rewrite (stage_core _ _ _ H), (listed_core _ _ _ H).
  destruct (stage_all_enqueued (k_this_cpu (turn_to cpu s)) (wake_list_of cpu s) p g Hp) as [-> ->].
  rewrite decide_False by (intros Hin; apply Hn; exists cpu; by apply wake_list_elem). split; [done|].
  intros [d Hd]. apply Hn. exists d. by apply list_elem_of_filter in Hd as [_ Hd].
Qed.

(** What happens once task [p] is dead, whichever CPU does it: the scheduler is
    called, tasks are woken, [p] too, by the states that are waited in, wake lists
    are handled, and whatever leaves [p] where it is.  No idle thread dies. *)
Inductive afterwards (p : ptr) : kstate -> kstate -> Prop :=
  | af_schedule (K : SchedClassOps) (KL : SchedClassLaws K) preempt s s' r t :
      schedule_pre s r t -> idle r <> p -> __schedule preempt s = Ok tt s' -> afterwards p s s'
  | af_wake (K : SchedClassOps) (KL : SchedClassLaws K) (V : SetprioEnv) (E : MigrateEnv) (EL : MigrateLaws E)
      (W : WakeEnv) fuel s q t r state fl ret s' :
      k_rqs s !! k_this_cpu s = Some r -> wake_pre false s q t -> (q = curr r -> on_rq t = TASK_ON_RQ_QUEUED) ->
      has TASK_DEAD state = false -> try_to_wake_up (S fuel) q state fl s = Ok ret s' -> afterwards p s s'
  | af_pending (K : SchedClassOps) (KL : SchedClassLaws K) (V : SetprioEnv) (E : MigrateEnv) (EL : MigrateLaws E)
      (W : WakeEnv) s cpu r s' :
      k_rqs s !! cpu = Some r -> rq_lock r = false -> is_Some (k_tasks s !! curr r) -> clamps_in_range s ->
      idle_tasks (wake_list_of cpu s) s -> wake_list_of cpu s <> [] ->
      sched_ttwu_pending (wake_list_of cpu s) (turn_to cpu s) = Ok tt s' -> afterwards p s s'
  | af_other s s' :
      stage s' p = stage s p -> busy s' p = busy s p -> (forall c, runs s' c = Some p -> runs s c = Some p) ->
      (listed s' p -> listed s p) -> afterwards p s s'.

Lemma schedule_stays_dead {K : SchedClassOps} {KL : SchedClassLaws K} preempt s s' r t p :
  schedule_pre s r t -> idle r <> p -> __schedule preempt s = Ok tt s' -> dead p s -> dead p s'.
Proof using FL.
  intros Hpre Hidle E [H1 H2 H3 H4]. pose proof (pre_rq _ _ _ Hpre) as Hr.
  destruct (schedule_moves preempt s s' r t Hpre E) as (next & _ & Hruns & Hbusy & _ & _ & _ & Hready).
  destruct (stage_schedule preempt s s' r t p Hpre E) as [Hstage Hlisted].
  assert (p <> curr r) as Hp by (intros ->; apply (H3 (k_this_cpu s)); unfold runs; by rewrite Hr).
  rewrite decide_False in Hstage by done.
  assert (p <> next) as Hne.
  { intros <-. destruct Hready as [Hi|Hq]; [done|]. rewrite H1 in Hstage. unfold stage in Hstage. unfold queued in Hq.
    destruct (k_tasks s' !! p); [|done]. cbn in Hstage, Hq. congruence. }
  split; [by rewrite Hstage| | |by rewrite Hlisted].
  - rewrite Hbusy, (bool_decide_eq_false_2 _ Hp), (bool_decide_eq_false_2 _ Hne). exact H2.
  - intros c. rewrite Hruns. clear Hbusy. case_bool_decide; [congruence|apply H3].
Qed.

(** Who runs is not up to a call that [keeps]. *)
Lemma kept_dead {X} (m : M X) s a s' p :
  keeps m -> clamps_in_range s -> m s = Ok a s' -> dead p s -> stage s' p = stage s p -> ~ listed s' p -> dead p s'.
Proof using.
  intros Hk Hc E [H1 H2 H3 H4] Hs Hl. destruct (Hk s a s' I Hc E) as [Hv _].
  split; [by rewrite Hs|by rewrite (view_busy _ _ _ Hv)| |exact Hl]. intros c. by rewrite (view_runs _ _ _ Hv).
Qed.

Lemma afterwards_dead p s s' : afterwards p s s' -> dead p s -> dead p s'.
Proof using FL.
  intros [K KL preempt x x' r t Hpre Hi E|K KL V E EL W fuel x q t r state fl ret x' Hr Hpre Hself Hst Er
    |K KL V E EL W x cpu r x' Hr Hl Hcur Hc Hidle Hne Er|x x' E1 E2 E3 E4] Hd; pose proof Hd as [H1 H2 H3 H4].
  - by eapply schedule_stays_dead.
  - assert (p = q -> has (t_state t) state = false) as Hdead.
    { intros <-. unfold stage in H1. rewrite (wk_task _ _ _ _ Hpre) in H1. cbn in H1. injection H1 as _ ->. exact Hst. }
    eapply kept_dead; [apply keeps_try_to_wake_up|apply Hpre|exact Er|exact Hd| |].
    + pose proof (stage_wake fuel x q t r state fl ret x' p Hr Hpre Hself Er) as Hw. case_decide as Hp; [|apply Hw].
      rewrite (Hdead Hp) in Hw. apply Hw.
    + intros Hx. destruct (listed_wake fuel x q t r state fl ret x' p Hr Hpre Hself Er Hx) as [?|[Hp Hb]]; [done|].
      rewrite (Hdead Hp) in Hb. done.
  - assert (is_Some (k_tasks x !! p)) as Hp by (unfold stage in H1; destruct (k_tasks x !! p); [by eexists|done]).
    destruct (listed_pending x cpu r x' p Hr Hl Hcur Hc Hidle Hne Hp Er H4) as [Hs Hn].
    eapply (kept_dead _ (turn_to cpu x)); [apply keeps_sched_ttwu_pending|by destruct Hc|exact Er| |exact Hs|exact Hn].
    split; [exact H1|exact H2|exact H3|]. intros [d Hx]. apply H4. exists d. by apply list_elem_of_filter in Hx as [_ Hx].
  - split; [by rewrite E1|by rewrite E2|intros c Hx; by apply (H3 c), E3|auto].
Qed.

(** C12. Death is final: [do_task_dead] runs up to the switch without BUG and without
    waiting and never comes back to the task; and from then on, along every history
    of scheduler calls, preemption, wakeups (of the dead task too) and wake lists,
    by all CPUs in any order, the task stays dead and off every queue, no CPU runs
    it, and a wakeup of it finds nothing to do and returns 0. *)
Theorem death_is_final (K : SchedClassOps) (KL : SchedClassLaws K) s r t :
  schedule_pre s r t -> well_formed s -> pi_lock t = false -> idle r <> curr r ->
  signal_pending_state TASK_DEAD (curr r) = false -> ~ listed s (curr r) ->
  exists s', do_task_dead s = Ok tt s' /\ well_formed s' /\
    forall s'', rtc (afterwards (curr r)) s' s'' ->
      stage s'' (curr r) = Some (false, TASK_DEAD) /\ busy s'' (curr r) = Some false /\
      (forall c, runs s'' c <> Some (curr r)) /\
      forall (V : SetprioEnv) (E : MigrateEnv) (EL : MigrateLaws E) (W : WakeEnv) fuel r'' t'' state fl,
        k_rqs s'' !! k_this_cpu s'' = Some r'' -> wake_pre false s'' (curr r) t'' -> has TASK_DEAD state = false ->
        exists s3, try_to_wake_up (S fuel) (curr r) state fl s'' = Ok 0 s3 /\ core_same true s'' s3.
Proof using FL.
  intros Hpre Hw Hl Hidle Hsig Hnl. destruct (do_task_dead_buries s r t Hpre Hw Hl Hidle Hsig Hnl) as (s' & E & Hd & Hw').
  exists s'. split; [exact E|]. split; [exact Hw'|]. intros s'' Hrun.
  assert (dead (curr r) s'') as [H1 H2 H3 H4] by (clear E Hw'; induction Hrun; [done|]; eauto using afterwards_dead).
  split_and!; [done..|]. intros V E' EL W fuel r'' t'' state fl Hr Hwk Hst.
  assert (curr r = curr r'' -> on_rq t'' = TASK_ON_RQ_QUEUED) as Hself
    by (intros Ec; exfalso; apply (H3 (k_this_cpu s'')); unfold runs; by rewrite Hr, Ec).
  pose proof (try_to_wake_up_correct fuel s'' (curr r) t'' r'' state fl Hr Hwk Hself) as Hx.
  apply wp_elim in Hx as (ret & s3 & E3 & Hx). exists s3. unfold wake_spec in Hx.
  unfold stage in H1. rewrite (wk_task _ _ _ _ Hwk) in H1. cbn in H1. injection H1 as _ Ed. rewrite Ed, Hst in Hx.
  destruct Hx as [-> [Hx _]]. done.
Qed.
End Dying.

(** ** A death *)

(** Task 2 of the small machine ends; task 3 runs next. *)
Example a_death :
  match do_task_dead (K := choosing 3%positive) machine with
  | Ok _ s' => (stage s' 2%positive, busy s' 2%positive, runs s' 0) = (Some (false, TASK_DEAD), Some false, Some 3%positive)
  | _ => False
  end.
Proof. vm_compute. reflexivity. Qed.

(** A class that picks the dead task again breaks its promise. *)
Example no_resurrection :
  pickable_b (exec (do_task_dead (K := choosing 3%positive)) machine) 0 2%positive = false.
Proof. vm_compute. reflexivity. Qed.

Lemma death_is_final_witness :
  exists s', do_task_dead (K := choosing 3%positive) machine = Ok tt s' /\ well_formed s' /\
    forall s'', rtc (afterwards 2%positive) s' s'' ->
      stage s'' 2%positive = Some (false, TASK_DEAD) /\ busy s'' 2%positive = Some false /\
      forall c, runs s'' c <> Some 2%positive.
Proof.
  destruct (death_is_final (choosing 3%positive) (choosing_laws 3%positive) machine machine_rq
    ((user_task 20) <| on_cpu := 1 |>)) as (s' & E & Hw & H).
  - apply pre_b_ok; vm_compute; reflexivity.
  - apply well_formed_b_ok. vm_compute. reflexivity.
  - reflexivity.
  - discriminate.
  - reflexivity.
  - intros [c Hc]. by apply not_elem_of_nil in Hc.
  - exists s'. split; [exact E|]. split; [exact Hw|]. intros s'' Hr.
    destruct (H s'' Hr) as (H1 & H2 & H3 & _). done.
Defined.
