(* ===== verification/Fork.v ===== *)
(** * Fork: setting up and starting a new task (core.c)

    [sched_fork] prepares the copy of the running task for its own life in the
    scheduler, [wake_up_new_task] gives it to a run queue for the first time.
    Statistics, restartable sequences, timers and list heads of the new task are
    not modelled. *)

From S2P Require Import Prelude Task KernelApi Prio Rq RqClock Uclamp State Sched Setprio Affinity.

(** What the setup calls in the scheduling classes, and two constants. *)
Class ForkEnv := {
  sched_rr_timeslice : Z;
  SD_BALANCE_FORK : Z;
  __dl_clear_params : task_struct -> task_struct;
  init_numa_balancing : Z -> task_struct -> task_struct;
  init_entity_runnable_average : task_struct -> task_struct;
  post_init_entity_util_avg : ptr -> kstate -> kstate
}.

Section Fork.
Context {P : PrioApi} {Y : PolicyApi} {U : UclampApi} {F : FlagApi} {C : ClockConfig}
  {K : SchedClassOps} {V : SetprioEnv} {E : MigrateEnv} {N : ForkEnv}.

Definition __sched_fork (clone_flags : Z) (t : task_struct) : task_struct :=
  let t := t <| on_rq := 0 |> in
  let t := t <| t_se := (t_se t) <| se_on_rq := 0 |> <| se_exec_start := 0 |> <| se_sum_exec_runtime := 0 |>
                        <| se_prev_sum_exec_runtime := 0 |> <| se_nr_migrations := 0 |> <| se_vruntime := 0 |> |> in
  let t := __dl_clear_params t in
  let t := t <| t_rt := (t_rt t) <| rt_timeout := 0 |> <| rt_time_slice := sched_rr_timeslice |>
                        <| rt_on_rq := 0 |> <| rt_on_list := 0 |> |> in
  init_numa_balancing clone_flags t.

(** Reverting to the default policy and priority; [None] is a read outside the
    weight tables. *)
Definition revert_policy (t : task_struct) : option task_struct :=
  let t := if task_has_dl_policy t || task_has_rt_policy t
           then t <| policy := SCHED_NORMAL |> <| static_prio := NICE_TO_PRIO 0 |> <| rt_priority := 0 |>
           else if PRIO_TO_NICE (static_prio t) <? 0 then t <| static_prio := NICE_TO_PRIO 0 |>
           else t in
  let t := t <| normal_prio := __normal_prio t |> in
  let t := t <| prio := normal_prio t |> in
  t ← set_load_weight reweight_task t false;
  Some (t <| sched_reset_on_fork := false |>).

(** What happens to the descriptor before the class is chosen; [curr_prio] is the
    normal priority of the parent. *)
Definition fork_policy (clone_flags curr_prio : Z) (t : task_struct) : option task_struct :=
  let t := __sched_fork clone_flags t in
  let t := t <| t_state := TASK_NEW |> in
  let t := t <| prio := curr_prio |> in
  let t := uclamp_fork t in
  if sched_reset_on_fork t then revert_policy t else Some t.

Definition sched_fork (clone_flags : Z) (p : ptr) : M Z :=
  c ← current;
  ct ← task_of c;
  t ← task_of p;
  t ← lift_option (fork_policy clone_flags (normal_prio ct) t);
  put_task p t;;
  if dl_prio (prio t) then mret (- EAGAIN)
  else
    put_task p (t <| t_sched_class := if rt_prio (prio t) then rt_sched_class else fair_sched_class |>);;
    set_task p init_entity_runnable_average;;
    lock_pi p;;
    modify (op_rseq_migrate p);;
    cpu ← smp_processor_id;
    modify (__set_task_cpu p cpu);;
    t ← task_of p;
    modify (op_task_fork (t_sched_class t) p);;
    unlock_pi p;;
    set_task p (fun t => t <| on_cpu := 0 |>);;
    mret 0.

(** [fuel] bounds the rounds of the search for a CPU. *)
Definition wake_up_new_task (fuel : nat) (p : ptr) : M unit :=
  lock_pi p;;
  set_task p (fun t => t <| t_state := TASK_RUNNING |>);;
  set_task p (fun t => t <| recent_used_cpu := task_cpu t |>);;
  modify (op_rseq_migrate p);;
  t ← task_of p;
  cpu ← select_task_rq fuel p (task_cpu t) SD_BALANCE_FORK 0;
  modify (__set_task_cpu p cpu);;
  rq ← __task_rq_lock p;
  update_clock rq;;
  modify (post_init_entity_util_avg p);;
  activate_task rq p ENQUEUE_NOCLOCK;;
  check_preempt_curr rq p WF_FORK;;
  t ← task_of p;
  modify (op_task_woken (t_sched_class t) rq p);;
  task_rq_unlock rq p.
End Fork.
