(* ===== verification/ForkSpec.v ===== *)
(** * ForkSpec: what a new task starts with

    The descriptor after [sched_fork] as a function of the copy, and the theorems
    that a new task starts unboosted, in the class of its own priority, and is
    runnable on an allowed CPU once [wake_up_new_task] returns. *)

From S2P Require Import Prelude Task KernelApi Prio Rq RqClock Uclamp UclampFacts UclampTrace.
From S2P Require Import State Sched SchedFacts ScheduleSpec Setprio Views TaskLock Machine.
From S2P Require Import SetprioSpec SetprioDemo Affinity AffinitySpec Ttwu TtwuSpec Landing Keeps WakeQ TtwuDemo Pending Fork.

(** The classes set up their own entities. *)
Class ForkLaws {U : UclampApi} (N : ForkEnv) : Prop := {
  law_dl_clear t : erase_task false (__dl_clear_params t) = erase_task false t;
  law_dl_clear_clamps t id : uclamp (__dl_clear_params t) id = uclamp t id /\ uclamp_req (__dl_clear_params t) id = uclamp_req t id;
  law_numa f t : erase_task false (init_numa_balancing f t) = erase_task false t;
  law_numa_clamps f t id : uclamp (init_numa_balancing f t) id = uclamp t id /\ uclamp_req (init_numa_balancing f t) id = uclamp_req t id;
  law_runnable_avg t : erase_task false (init_entity_runnable_average t) = erase_task false t;
  law_runnable_avg_clamps t id : uclamp (init_entity_runnable_average t) id = uclamp t id /\
    uclamp_req (init_entity_runnable_average t) id = uclamp_req t id;
  law_post_init p s : kframe false s (post_init_entity_util_avg p s)
}.

Section Spec.
Context {P : PrioApi} {PL : PrioLaws P} {Y : PolicyApi} {YL : PolicyLaws Y} {U : UclampApi} {UL : UclampLaws U} {A : AttrFlagApi} {F : FlagApi} {FL : FlagLaws F}
  {C : ClockConfig} {K : SchedClassOps} {KL : SchedClassLaws K} {V : SetprioEnv} {VL : SetprioLaws V}
  {E : MigrateEnv} {EL : MigrateLaws E} {N : ForkEnv} {NL : ForkLaws N} {WK : WokenLaws K}.

(** Policy and priorities of the child. *)
Definition child_policy (t : task_struct) : task_struct :=
  if sched_reset_on_fork t then
    let t := if task_has_dl_policy t || task_has_rt_policy t
             then t <| policy := SCHED_NORMAL |> <| static_prio := NICE_TO_PRIO 0 |> <| rt_priority := 0 |>
             else t <| static_prio := Z.max (static_prio t) (NICE_TO_PRIO 0) |> in
    t <| normal_prio := static_prio t |> <| prio := static_prio t |> <| sched_reset_on_fork := false |>
  else t <| prio := normal_prio t |>.

(** The clamp requests of a child that reverts to the defaults. *)
Definition child_requests (t : task_struct) : task_struct :=
  if sched_reset_on_fork t then
    t <| uclamp_req_min := uclamp_se_set (uclamp_req t UCLAMP_MIN) (uclamp_none UCLAMP_MIN) false |>
      <| uclamp_req_max := uclamp_se_set (uclamp_req t UCLAMP_MAX) (uclamp_none UCLAMP_MAX) false |>
  else t.

(** The descriptor before and after the class and the CPU are set. *)
Definition set_up (t : task_struct) : task_struct :=
  child_policy (child_requests (t <| on_rq := 0 |> <| t_state := TASK_NEW |>)).
Definition forked (cpu : Z) (t : task_struct) : task_struct :=
  (set_up t) <| t_cpu := cpu |> <| on_cpu := 0 |> <| t_sched_class := class_of_prio (prio (set_up t)) |>.

Lemma sched_fork_erase fl t : erase_task false (__sched_fork fl t) = erase_task false (t <| on_rq := 0 |>).
Proof using NL.
  unfold __sched_fork. rewrite law_numa.
  match goal with |- erase_task false (?x <| t_rt := ?v |>) = _ => transitivity (erase_task false x); [reflexivity|] end.
  rewrite law_dl_clear. reflexivity.
Qed.

(** Forgetting fields commutes with updates of the others. *)
Lemma erase_congr (f : task_struct -> task_struct) t t' :
  (forall x, erase_task false (f x) = f (erase_task false x)) ->
  erase_task false t' = erase_task false t -> erase_task false (f t') = erase_task false (f t).
Proof. intros Hf H. by rewrite !Hf, H. Qed.

Lemma nice_0_ok : NICE_WIDTH <= 40 -> MAX_RT_PRIO <= NICE_TO_PRIO 0 < MAX_RT_PRIO + 40.
Proof using PL. intros H. rewrite nice_width in H. rewrite nice_to_prio_spec. pose proof nice_range. lia. Qed.

Lemma revert_policy_ok t :
  NICE_WIDTH <= 40 -> static_ok t -> sched_reset_on_fork t = true ->
  exists t', revert_policy t = Some t' /\ erase_task false t' = erase_task false (child_policy t).
Proof using PL VL.
  intros Hw Hs Hr. unfold revert_policy, child_policy. rewrite Hr. pose proof (nice_0_ok Hw) as H0.
  set (t1 := if task_has_dl_policy t || task_has_rt_policy t then _ else _).
  set (t2 := if task_has_dl_policy t || task_has_rt_policy t then _ else t <| static_prio := Z.max _ _ |>).
  assert (t1 = t2 /\ static_ok t1) as [<- Hs1].
  { subst t1 t2. unfold static_ok in *. destruct (_ || _); [split; [done|exact H0]|].
    rewrite prio_to_nice_spec, nice_to_prio_spec in *. destruct (Z.ltb_spec (static_prio t - MAX_RT_PRIO + MIN_NICE) 0).
    - rewrite Z.max_r by lia. by split.
    - rewrite Z.max_l by lia. split; [by destruct t|exact Hs]. }
  cbn zeta. unfold __normal_prio.
  set (t3 := t1 <| normal_prio := static_prio t1 |> <| prio := _ |>).
  destruct (set_load_weight_frame t3 false Hs1) as (t4 & E4 & Ee & _).
  exists (t4 <| sched_reset_on_fork := false |>). change (normal_prio _) with (static_prio t1) in t3.
  split; [by rewrite E4|]. by apply (erase_congr (fun t => t <| sched_reset_on_fork := false |>)).
Qed.

Lemma uclamp_fork_erase t :
  erase_task false (uclamp_fork t) = erase_task false (child_requests t).
Proof.
  unfold uclamp_fork, child_requests. cbv zeta.
  change (sched_reset_on_fork (set_uclamp (set_uclamp t ?a ?b) ?c ?d)) with (sched_reset_on_fork t).
  by destruct (sched_reset_on_fork t).
Qed.

(** Fields that are not forgotten. *)
Lemma kept_reset t : sched_reset_on_fork (erase_task false t) = sched_reset_on_fork t.
Proof. done. Qed.

Lemma erase_policy t v : erase_task false (t <| policy := v |>) = (erase_task false t) <| policy := v |>.
Proof. done. Qed.
Lemma erase_static_prio t v : erase_task false (t <| static_prio := v |>) = (erase_task false t) <| static_prio := v |>.
Proof. done. Qed.
Lemma erase_rt_priority t v : erase_task false (t <| rt_priority := v |>) = (erase_task false t) <| rt_priority := v |>.
Proof. done. Qed.
Lemma erase_normal_prio t v : erase_task false (t <| normal_prio := v |>) = (erase_task false t) <| normal_prio := v |>.
Proof. done. Qed.
Lemma erase_prio t v : erase_task false (t <| prio := v |>) = (erase_task false t) <| prio := v |>.
Proof. done. Qed.
Lemma erase_reset t v :
  erase_task false (t <| sched_reset_on_fork := v |>) = (erase_task false t) <| sched_reset_on_fork := v |>.
Proof. done. Qed.
Lemma kept_policy t : policy (erase_task false t) = policy t.
Proof. done. Qed.
Lemma kept_static_prio t : static_prio (erase_task false t) = static_prio t.
Proof. done. Qed.
Lemma kept_normal_prio t : normal_prio (erase_task false t) = normal_prio t.
Proof. done. Qed.

Lemma erase_child_policy t : erase_task false (child_policy t) = child_policy (erase_task false t).
Proof.
  unfold child_policy, task_has_dl_policy, task_has_rt_policy. cbv zeta. rewrite kept_reset, kept_policy, kept_normal_prio.
  destruct (sched_reset_on_fork t); [|apply erase_prio]. rewrite erase_reset, erase_prio, erase_normal_prio.
  destruct (_ || _); rewrite ?erase_rt_priority, ?erase_static_prio, ?erase_policy, ?kept_static_prio; reflexivity.
Qed.

Lemma erase_child_requests t : erase_task false (child_requests t) = child_requests (erase_task false t).
Proof. unfold child_requests. rewrite kept_reset. by destruct (sched_reset_on_fork t). Qed.

(** A child that reverts does not keep its parent's priority. *)
Lemma child_policy_prio t v : sched_reset_on_fork t = true -> child_policy (t <| prio := v |>) = child_policy t.
Proof.
  intros Hr. unfold child_policy, task_has_dl_policy, task_has_rt_policy.
  change (sched_reset_on_fork (t <| prio := v |>)) with (sched_reset_on_fork t).
  change (policy (t <| prio := v |>)) with (policy t). change (static_prio (t <| prio := v |>)) with (static_prio t).
  rewrite Hr. generalize (NICE_TO_PRIO 0) as z. intros z. generalize (Z.max (static_prio t) z) as z'. intros z'.
  generalize (dl_policy (policy t) || rt_policy (policy t)) as b. clear. intros b. destruct b, t; vm_compute; reflexivity.
Qed.

Lemma child_requests_prio t v : child_requests (t <| prio := v |>) = (child_requests t) <| prio := v |>.
Proof.
  unfold child_requests. change (sched_reset_on_fork (t <| prio := v |>)) with (sched_reset_on_fork t).
  by destruct (sched_reset_on_fork t).
Qed.

Lemma child_requests_reset t : sched_reset_on_fork (child_requests t) = sched_reset_on_fork t.
Proof. unfold child_requests. by destruct (sched_reset_on_fork t) eqn:E1. Qed.

Lemma fork_policy_ok fl t :
  NICE_WIDTH <= 40 -> static_ok t ->
  exists t', fork_policy fl (normal_prio t) t = Some t' /\ erase_task false t' = erase_task false (set_up t).
Proof using PL VL NL.
  intros Hw Hs. unfold fork_policy.
  set (t1 := (__sched_fork fl t) <| t_state := TASK_NEW |>). set (t2 := t1 <| prio := normal_prio t |>).
  set (t2' := t <| on_rq := 0 |> <| t_state := TASK_NEW |> <| prio := normal_prio t |>).
  assert (erase_task false t2 = erase_task false t2') as E2.
  { subst t2 t2' t1.
    apply (erase_congr (fun t0 => t0 <| t_state := TASK_NEW |> <| prio := normal_prio t |>)); [done|apply sched_fork_erase]. }
  set (t3 := uclamp_fork t2). assert (erase_task false t3 = erase_task false (child_requests t2')) as E3.
  { subst t3. rewrite uclamp_fork_erase. by apply erase_congr; [apply erase_child_requests|]. }
  assert (sched_reset_on_fork t3 = sched_reset_on_fork t) as Er.
  { rewrite (erase_field false sched_reset_on_fork _ _ ltac:(kept_field) E3). unfold child_requests.
    by destruct (sched_reset_on_fork t2'). }
  assert (static_prio t3 = static_prio t) as Es.
  { rewrite (erase_field false static_prio _ _ ltac:(kept_field) E3). unfold child_requests.
    by destruct (sched_reset_on_fork t2'). }
  rewrite Er. destruct (sched_reset_on_fork t) eqn:Ereset.
  - destruct (revert_policy_ok t3 Hw) as (t4 & E4 & Ee); [unfold static_ok; by rewrite Es|by rewrite Er|].
    exists t4. split; [exact E4|]. rewrite Ee. rewrite erase_child_policy, E3, <- erase_child_policy.
    subst t2'. rewrite child_requests_prio, child_policy_prio; [done|]. by rewrite child_requests_reset.
  - exists t3. split; [done|]. rewrite E3. unfold child_requests. change (sched_reset_on_fork t2') with (sched_reset_on_fork t).
    rewrite Ereset. unfold set_up, child_requests, child_policy.
    change (sched_reset_on_fork (t <| on_rq := 0 |> <| t_state := TASK_NEW |>)) with (sched_reset_on_fork t).
    rewrite Ereset. change (sched_reset_on_fork (t <| on_rq := 0 |> <| t_state := TASK_NEW |>)) with (sched_reset_on_fork t).
    rewrite Ereset. reflexivity.
Qed.

(** ** Following one task

    [follows s p d n s1]: [s1] is [s], except that task [p] is [d] and the
    preemption count [n], up to what the classes own. *)
Definition with_task (s : kstate) (p : ptr) (d : task_struct) (n : Z) : kstate :=
  s <| k_tasks := <[p := d]> (k_tasks s) |> <| k_preempt := n |>.
Definition follows (s : kstate) (p : ptr) (d : task_struct) (n : Z) (s1 : kstate) : Prop :=
  core_same false (with_task s p d n) s1.

Lemma follows_start s p t : k_tasks s !! p = Some t -> follows s p t (k_preempt s) s.
Proof. intros Ht. unfold follows, with_task. rewrite insert_id by done. by destruct s. Qed.

Lemma follows_task s p d n s1 :
  follows s p d n s1 -> exists t1, k_tasks s1 !! p = Some t1 /\ erase_task false t1 = erase_task false d.
Proof.
  intros H. apply (proj1 (core_same_lookup _ _ _ H)). unfold with_task. rsimpl. apply lookup_insert_eq.
Qed.

Lemma follows_this s p d n s1 : follows s p d n s1 -> k_this_cpu s1 = k_this_cpu s /\ k_preempt s1 = n.
Proof. intros H. split; [exact (f_equal k_this_cpu H)|exact (f_equal k_preempt H)]. Qed.

(** [erase] by its parts. *)
Lemma core_same_parts w s s' :
  core_same w s s' <->
  erase_task w <$> k_tasks s' = erase_task w <$> k_tasks s /\ erase_rq <$> k_rqs s' = erase_rq <$> k_rqs s /\
  s' <| k_tasks := ∅ |> <| k_rqs := ∅ |> <| k_ipis := [] |> = s <| k_tasks := ∅ |> <| k_rqs := ∅ |> <| k_ipis := [] |>.
Proof.
  unfold core_same. split.
  - intros H. split; [exact (f_equal k_tasks H)|]. split; [exact (f_equal k_rqs H)|].
    exact (f_equal (fun x => x <| k_tasks := ∅ |> <| k_rqs := ∅ |>) H).
  - intros (H1 & H2 & H3). unfold erase. rewrite H1, H2.
    exact (f_equal (fun x => x <| k_tasks := erase_task w <$> k_tasks s |> <| k_rqs := erase_rq <$> k_rqs s |>) H3).
Qed.

Lemma follows_put s p d n s1 t' d' :
  follows s p d n s1 -> erase_task false t' = erase_task false d' ->
  follows s p d' n (s1 <| k_tasks := <[p := t']> (k_tasks s1) |>).
Proof.
  unfold follows. rewrite !core_same_parts. intros (H1 & H2 & H3) He. split; [|split; [exact H2|exact H3]].
  unfold with_task in *. rsimpl. rsimpl_in H1. rewrite !fmap_insert, H1, He, fmap_insert. apply insert_insert_eq.
Qed.

Lemma follows_preempt s p d n m s1 : follows s p d n s1 -> follows s p d m (s1 <| k_preempt := m |>).
Proof. intros H. exact (f_equal (fun x => x <| k_preempt := m |>) H). Qed.

Lemma follows_hook s p d n s1 s2 : follows s p d n s1 -> kframe false s1 s2 -> follows s p d n s2.
Proof. intros H [H' _]. by etransitivity. Qed.

Lemma follows_end s p d s1 : follows s p d (k_preempt s) s1 -> core_same false (s <| k_tasks := <[p := d]> (k_tasks s) |>) s1.
Proof. intros H. exact H. Qed.

(** Steps of a body that updates task [p]. *)
Lemma wp_follow_set s p d d' n s1 f (Q : unit -> kstate -> Prop) :
  follows s p d n s1 -> (forall t', erase_task false t' = erase_task false d -> erase_task false (f t') = erase_task false d') ->
  (forall s2, follows s p d' n s2 -> Q tt s2) -> wp (set_task p f) Q s1.
Proof.
  intros H Hf HQ. destruct (follows_task _ _ _ _ _ H) as (t1 & Ht1 & E1). eapply wp_set_task; [exact Ht1|].
  apply HQ. eapply follows_put; [exact H|by apply Hf].
Qed.

Lemma wp_follow_lock s p d n s1 (Q : unit -> kstate -> Prop) :
  follows s p d n s1 -> pi_lock d = false ->
  (forall s2, follows s p (d <| pi_lock := true |>) (n + 1) s2 -> Q tt s2) -> wp (lock_pi p) Q s1.
Proof.
  intros H Hl HQ. destruct (follows_task _ _ _ _ _ H) as (t1 & Ht1 & E1). destruct (follows_this _ _ _ _ _ H) as [_ En].
  eapply wp_lock_pi; [exact Ht1|by rewrite (erase_field false pi_lock _ _ ltac:(kept_field) E1)|]. apply HQ. rewrite En.
  set (s2 := s1 <| k_preempt := n + 1 |>). change (k_tasks s1) with (k_tasks s2).
  eapply follows_put; [by eapply follows_preempt|]. by apply (erase_congr (fun t => t <| pi_lock := true |>)).
Qed.

Lemma wp_follow_unlock s p d n s1 (Q : unit -> kstate -> Prop) :
  follows s p d n s1 -> pi_lock d = true ->
  (forall s2, follows s p (d <| pi_lock := false |>) (n - 1) s2 -> Q tt s2) -> wp (unlock_pi p) Q s1.
Proof.
  intros H Hl HQ. destruct (follows_task _ _ _ _ _ H) as (t1 & Ht1 & E1). destruct (follows_this _ _ _ _ _ H) as [_ En].
  eapply wp_unlock_pi; [exact Ht1|by rewrite (erase_field false pi_lock _ _ ltac:(kept_field) E1)|]. apply HQ. rewrite En.
  apply follows_preempt with n. eapply follows_put; [exact H|].
  by apply (erase_congr (fun t => t <| pi_lock := false |>)).
Qed.

(** ** sched_fork *)

(** The child is a copy of the running task. *)
Record fork_pre (s : kstate) (p : ptr) (ct t : task_struct) (r : rq) : Prop := {
  fk_rq : k_rqs s !! k_this_cpu s = Some r;
  fk_curr : k_tasks s !! curr r = Some ct;
  fk_task : k_tasks s !! p = Some t;
  fk_copy : normal_prio t = normal_prio ct;
  fk_lock : pi_lock t = false;
  fk_static : static_ok t;
  fk_normal : normal_prio t = normal_prio_of t;
  fk_rt : task_has_rt_policy t = true -> 0 <= rt_priority t < MAX_RT_PRIO;
  fk_nice : NICE_WIDTH <= 40
}.

Lemma set_up_lock t : pi_lock (set_up t) = pi_lock t.
Proof. unfold set_up, child_requests, child_policy. repeat case_match; reflexivity. Qed.

(** Two updates of the lock cancel. *)
Lemma relock t : (t <| pi_lock := true |>) <| pi_lock := false |> = t <| pi_lock := false |>.
Proof. done. Qed.

Lemma wp_follow_fork s p d n s1 (Q : unit -> kstate -> Prop) :
  follows s p d n s1 ->
  (forall s2, follows s p d n s2 -> Q tt s2) ->
  wp (t ← task_of p; modify (op_task_fork (t_sched_class t) p)) Q s1.
Proof using KL.
  intros H HQ. destruct (follows_task _ _ _ _ _ H) as (t1 & Ht1 & _). apply wp_bind. eapply wp_task_of; [exact Ht1|].
  apply wp_modify, HQ. eapply follows_hook; [exact H|apply law_task_fork].
Qed.

Lemma wp_follow_cpu s p d n s1 cpu (Q : unit -> kstate -> Prop) :
  follows s p d n s1 -> (forall s2, follows s p (d <| t_cpu := cpu |>) n s2 -> Q tt s2) ->
  wp (modify (__set_task_cpu p cpu)) Q s1.
Proof using EL.
  intros H HQ. destruct (follows_task _ _ _ _ _ H) as (t1 & Ht1 & E1). apply wp_modify, HQ.
  eapply follows_hook; [|apply law_set_task_cpu; by exists t1].
  unfold upd_task. rewrite <- (insert_alter (k_tasks s1) p t1 (fun t => t <| t_cpu := cpu |>) Ht1).
  eapply follows_put; [exact H|]. by apply (erase_congr (fun t => t <| t_cpu := cpu |>)).
Qed.

Lemma class_of_live_prio pr : dl_prio pr = false -> class_of_prio pr = if rt_prio pr then rt_sched_class else fair_sched_class.
Proof. unfold class_of_prio. by intros ->. Qed.

Lemma erase_on_cpu t : erase_task false (t <| on_cpu := 0 |>) = (erase_task false t) <| on_cpu := 0 |>.
Proof. done. Qed.

Lemma forked_eq cpu t :
  pi_lock (set_up t) = false ->
  (set_up t) <| t_sched_class := class_of_prio (prio (set_up t)) |> <| pi_lock := true |> <| t_cpu := cpu |>
    <| pi_lock := false |> <| on_cpu := 0 |> = forked cpu t.
Proof.
  unfold forked. generalize (class_of_prio (prio (set_up t))). generalize (set_up t). clear. intros d c Hd.
  destruct d. cbn in Hd. subst. reflexivity.
Qed.

Lemma wp_sched_fork fl s p ct t r :
  fork_pre s p ct t r ->
  wp (sched_fork fl p) (fun ret s' =>
    if dl_prio (prio (set_up t))
    then ret = - EAGAIN /\ core_same false (s <| k_tasks := <[p := set_up t]> (k_tasks s) |>) s'
    else ret = 0 /\ core_same false (s <| k_tasks := <[p := forked (k_this_cpu s) t]> (k_tasks s) |>) s') s.
Proof using PL VL NL KL EL.
  intros [Hr Hc Ht Hcp Hl Hs _ _ Hw]. unfold sched_fork. apply wp_bind. eapply wp_current; [exact Hr|].
  apply wp_bind. eapply wp_task_of; [exact Hc|]. apply wp_bind. eapply wp_task_of; [exact Ht|]. rewrite <- Hcp.
  destruct (fork_policy_ok fl t Hw Hs) as (t1 & -> & E1). apply wp_bind, wp_lift_option, wp_bind, wp_put_task.
  pose proof (follows_put s p t (k_preempt s) s t1 (set_up t) (follows_start s p t Ht) E1) as H1.
  pose proof (erase_field false prio _ _ ltac:(kept_field) E1) as Ep. rewrite Ep.
  destruct (dl_prio (prio (set_up t))) eqn:Edl.
  { apply wp_ret. split; [done|]. exact (follows_end _ _ _ _ H1). }
  set (d := (set_up t) <| t_sched_class := class_of_prio (prio (set_up t)) |>).
  apply wp_bind, wp_put_task. set (s1 := s <| k_tasks := <[p := t1]> (k_tasks s) |>) in *.
  assert (follows s p d (k_preempt s) (s1 <| k_tasks := <[p := t1 <| t_sched_class :=
    if rt_prio (prio (set_up t)) then rt_sched_class else fair_sched_class |>]> (k_tasks s1) |>)) as H2.
  { eapply follows_put; [exact H1|]. subst d. rewrite class_of_live_prio by done.
    by apply (erase_congr (fun t => t <| t_sched_class := _ |>)). }
  apply wp_bind. eapply (wp_follow_set s p d d); [exact H2|intros t' E'; by rewrite law_runnable_avg|]. intros s3 H3.
  assert (pi_lock d = false) as Hld by (subst d; rsimpl; by rewrite set_up_lock).
  apply wp_bind. eapply wp_follow_lock; [exact H3|exact Hld|]. intros s4 H4'.
  apply wp_bind, wp_modify. pose proof (follows_hook _ _ _ _ _ _ H4' (law_rseq_migrate p s4)) as H4. clear H4'.
  revert H4. generalize (op_rseq_migrate p s4). clear s4. intros s4 H4.
  apply wp_bind. unfold smp_processor_id. apply wp_bind, wp_get, wp_ret. rewrite (proj1 (follows_this _ _ _ _ _ H4)).
  apply wp_bind. eapply wp_follow_cpu; [exact H4|]. intros s5 H5.
  destruct (follows_task _ _ _ _ _ H5) as (t5 & Ht5 & _). apply wp_bind. eapply wp_task_of; [exact Ht5|].
  apply wp_bind, wp_modify.
  assert (follows s p (d <| pi_lock := true |> <| t_cpu := k_this_cpu s |>) (k_preempt s + 1)
    (op_task_fork (t_sched_class t5) p s5)) as H6 by (eapply follows_hook; [exact H5|apply law_task_fork]).
  apply wp_bind. eapply wp_follow_unlock; [exact H6|done|]. intros s7 H7.
  apply wp_bind. eapply (wp_follow_set s p _ (forked (k_this_cpu s) t)); [exact H7| |].
  { intros t' E'. pose proof (erase_congr (fun t => t <| on_cpu := 0 |>) _ _ erase_on_cpu E') as E2. etransitivity; [exact E2|].
    refine (f_equal (erase_task false) (forked_eq _ _ _)). by rewrite set_up_lock. }
  intros s8 H8. apply wp_ret. split; [done|]. rewrite Z.add_simpl_r in H8. exact (follows_end _ _ _ _ H8).
Qed.

(** ** The child's policy and priority agree *)

Definition consistent_prio (t : task_struct) : Prop :=
  prio t = normal_prio t /\ normal_prio t = normal_prio_of t.

(** What they are made of. *)
Definition sched_view (t : task_struct) : Z * Z * Z * Z * Z :=
  (policy t, static_prio t, rt_priority t, normal_prio t, prio t).

Lemma consistent_view t t' : sched_view t' = sched_view t -> consistent_prio t -> consistent_prio t'.
Proof.
  unfold sched_view, consistent_prio, normal_prio_of, task_has_dl_policy, task_has_rt_policy, __normal_prio.
  by intros [= -> -> -> -> ->].
Qed.

Lemma set_up_view t : sched_view (set_up t) = sched_view (child_policy t).
Proof.
  unfold set_up. set (x := t <| on_rq := 0 |> <| t_state := TASK_NEW |>).
  assert (sched_view (child_policy (child_requests x)) = sched_view (child_policy x)) as ->.
  { unfold child_requests. destruct (sched_reset_on_fork x) eqn:Er; [|done]. unfold child_policy.
    change (sched_reset_on_fork (x <| uclamp_req_min := ?a |> <| uclamp_req_max := ?b |>)) with (sched_reset_on_fork x).
    rewrite Er. unfold task_has_dl_policy, task_has_rt_policy.
    change (policy (x <| uclamp_req_min := ?a |> <| uclamp_req_max := ?b |>)) with (policy x). by destruct (_ || _). }
  unfold child_policy. change (sched_reset_on_fork x) with (sched_reset_on_fork t).
  change (task_has_dl_policy x) with (task_has_dl_policy t). change (task_has_rt_policy x) with (task_has_rt_policy t).
  destruct (sched_reset_on_fork t); [|done]. by destruct (_ || _).
Qed.

Lemma normal_policy_plain : rt_policy SCHED_NORMAL = false /\ dl_policy SCHED_NORMAL = false.
Proof using YL.
  rewrite rt_policy_spec, dl_policy_spec. pose proof policies_distinct as H.
  apply NoDup_cons in H as [H _]. rewrite !not_elem_of_cons in H. destruct H as (H1 & H2 & _ & _ & H3 & _).
  split; [apply orb_false_iff; split|]; by apply Z.eqb_neq.
Qed.

Lemma child_policy_consistent t : normal_prio t = normal_prio_of t -> consistent_prio (child_policy t).
Proof using YL.
  intros Hn. unfold consistent_prio, child_policy. destruct (sched_reset_on_fork t); [|split; [done|exact Hn]].
  destruct normal_policy_plain as [H1 H2].
  destruct (task_has_dl_policy t || task_has_rt_policy t) eqn:Ep; (split; [done|]);
    unfold normal_prio_of, task_has_dl_policy, task_has_rt_policy, __normal_prio in *.
  - change (policy _) with SCHED_NORMAL. by rewrite H1, H2.
  - apply orb_false_iff in Ep as [E1 E2]. change (policy (_ <| sched_reset_on_fork := false |>)) with (policy t).
    by rewrite E1, E2.
Qed.

Lemma normal_prio_of_live t :
  static_ok t -> (task_has_rt_policy t = true -> 0 <= rt_priority t < MAX_RT_PRIO) ->
  dl_prio (normal_prio_of t) = task_has_dl_policy t.
Proof using PL.
  unfold static_ok. intros Hs Hrt. unfold normal_prio_of. rewrite dl_prio_spec, dl_below_rt.
  pose proof user_rt_prio_bound. pose proof rt_prio_bound.
  destruct (task_has_dl_policy t); [by apply Z.ltb_lt|]. destruct (task_has_rt_policy t).
  - specialize (Hrt eq_refl). rewrite wrapu_id by lia. rewrite wraps_id by lia. apply Z.ltb_ge. lia.
  - unfold __normal_prio. apply Z.ltb_ge. lia.
Qed.

Lemma set_up_prio_live t :
  NICE_WIDTH <= 40 -> static_ok t -> normal_prio t = normal_prio_of t ->
  (task_has_rt_policy t = true -> 0 <= rt_priority t < MAX_RT_PRIO) ->
  dl_prio (prio (set_up t)) = task_has_dl_policy t && negb (sched_reset_on_fork t).
Proof using PL.
  intros Hw Hs Hn Hrt. pose proof (nice_0_ok Hw) as H0. pose proof (set_up_view t) as Hv. injection Hv as _ _ _ _ ->.
  unfold child_policy. destruct (sched_reset_on_fork t); cbn [negb]; rewrite ?andb_true_r, ?andb_false_r.
  - rewrite dl_prio_spec, dl_below_rt. pose proof user_rt_prio_bound. apply Z.ltb_ge.
    destruct (task_has_dl_policy t || task_has_rt_policy t); [change (0 <= NICE_TO_PRIO 0)|
      change (0 <= Z.max (static_prio t) (NICE_TO_PRIO 0))]; lia.
  - change (prio (t <| prio := normal_prio t |>)) with (normal_prio t). rewrite Hn. by apply normal_prio_of_live.
Qed.

(** C17. What [sched_fork] makes of a copy of the running task: a deadline task
    cannot fork (EAGAIN) unless it asked for its children to revert; otherwise
    the child is new, on no queue and on no CPU but assigned to this one, its
    priority is that of its own policy however far its parent is boosted, its
    class is the class of that priority and never the deadline class, a child
    that reverts is neither real-time nor above nice 0, and no other task changes. *)
Theorem sched_fork_unboosted fl s p ct t r :
  fork_pre s p ct t r ->
  exists ret s', sched_fork fl p s = Ok ret s' /\
    if task_has_dl_policy t && negb (sched_reset_on_fork t) then ret = - EAGAIN
    else ret = 0 /\
      let child := forked (k_this_cpu s) t in
      core_same false (s <| k_tasks := <[p := child]> (k_tasks s) |>) s' /\
      (t_state child, on_rq child, on_cpu child, task_cpu child) = (TASK_NEW, 0, 0, k_this_cpu s) /\
      consistent_prio child /\ t_sched_class child = class_of_prio (prio child) /\ t_sched_class child <> dl_sched_class /\
      (sched_reset_on_fork t = true -> sched_reset_on_fork child = false /\ NICE_TO_PRIO 0 <= prio child).
Proof using PL YL VL NL KL EL.
  intros Hpre. destruct (wp_elim _ _ _ (wp_sched_fork fl s p ct t r Hpre)) as (ret & s' & E1 & H).
  exists ret, s'. split; [exact E1|]. destruct Hpre as [_ _ _ _ _ Hs Hn Hrt Hw].
  pose proof (set_up_prio_live t Hw Hs Hn Hrt) as Edl. rewrite Edl in H.
  destruct (task_has_dl_policy t && negb (sched_reset_on_fork t)); [by destruct H|].
  destruct H as [-> H]. split; [done|]. cbv zeta. split; [exact H|]. split.
  { unfold forked. change (t_state (_ <| t_sched_class := _ |>)) with (t_state (set_up t)).
    change (on_rq (_ <| t_sched_class := _ |>)) with (on_rq (set_up t)).
    assert (t_state (set_up t) = TASK_NEW /\ on_rq (set_up t) = 0) as [-> ->]; [|done].
    unfold set_up, child_requests, child_policy. by repeat case_match. }
  split.
  { apply (consistent_view (child_policy t)); [|by apply child_policy_consistent]. rewrite <- set_up_view. done. }
  split; [done|]. split.
  { change (t_sched_class (forked _ t)) with (class_of_prio (prio (set_up t))). unfold class_of_prio. rewrite Edl.
    by destruct (rt_prio _). }
  intros Hr. pose proof (set_up_view t) as Hv. injection Hv as _ _ _ _ Ep.
  change (prio (forked _ t)) with (prio (set_up t)). change (sched_reset_on_fork (forked _ t)) with (sched_reset_on_fork (set_up t)).
  rewrite Ep. unfold set_up, child_requests. change (sched_reset_on_fork (t <| on_rq := 0 |> <| t_state := TASK_NEW |>)) with (sched_reset_on_fork t).
  rewrite Hr. unfold child_policy.
  change (sched_reset_on_fork (_ <| uclamp_req_min := _ |> <| uclamp_req_max := _ |>)) with (sched_reset_on_fork t).
  rewrite Hr. split; [done|]. destruct (_ || _); [change (NICE_TO_PRIO 0 <= NICE_TO_PRIO 0); lia|].
  change (NICE_TO_PRIO 0 <= Z.max (static_prio t) (NICE_TO_PRIO 0)). lia.
Qed.

(** ** wake_up_new_task *)

(** A new task can be started: nobody holds its lock or the locks of the CPUs that
    are up, and it may run on one of them. *)
Record new_pre (s : kstate) (p : ptr) (t : task_struct) : Prop := {
  nw_task : k_tasks s !! p = Some t;
  nw_lock : pi_lock t = false;
  nw_off : on_rq t = 0;
  nw_cpus c : c ∈ k_online s -> exists r, k_rqs s !! c = Some r /\ rq_lock r = false /\ is_Some (k_tasks s !! curr r);
  nw_active : k_active s ⊆ k_online s;
  nw_allowed : is_Some (first_allowed s t);
  nw_clamps : clamps_in_range s
}.

Definition started (p : ptr) (s : kstate) : kstate := upd_task p (fun t => t <| on_rq := 1 |> <| t_state := TASK_RUNNING |>) s.

(** Up to the choice of a CPU. *)
Lemma wp_new_task_front fuel s p t (k : M unit) (Q : unit -> kstate -> Prop) :
  new_pre s p t ->
  (forall cpu s3 t3, is_cpu_allowed s t cpu = true ->
     tracks (locked_pi p (upd_task p (fun t => t <| t_state := TASK_RUNNING |>) s)) s3 ->
     k_tasks s3 !! p = Some t3 -> task_cpu t3 = cpu -> on_rq t3 = 0 -> wp k Q s3) ->
  wp (lock_pi p;;
      set_task p (fun t => t <| t_state := TASK_RUNNING |>);;
      set_task p (fun t => t <| recent_used_cpu := task_cpu t |>);;
      modify (op_rseq_migrate p);;
      t ← task_of p;
      cpu ← select_task_rq (S fuel) p (task_cpu t) SD_BALANCE_FORK 0;
      modify (__set_task_cpu p cpu);; k) Q s.
Proof using EL KL FL.
  intros [Ht Hl Hoff Hup Hact Hal Hc] Hk. set (g := upd_task p (fun t => t <| t_state := TASK_RUNNING |>) s).
  apply wp_bind. eapply wp_lock_pi; [exact Ht|exact Hl|].
  assert (s <| k_preempt := k_preempt s + 1 |> <| k_tasks := <[p := t <| pi_lock := true |>]> (k_tasks s) |> = locked_pi p s) as E1.
  { rewrite (insert_alter (k_tasks s) p t (fun t => t <| pi_lock := true |>) Ht). reflexivity. }
  rewrite E1. clear E1. apply wp_bind, wp_upd_task; [by eexists; apply (upd_task_at p)|].
  rewrite locked_pi_upd_task by done. fold g.
  set (t1 := t <| t_state := TASK_RUNNING |> <| pi_lock := true |>).
  assert (k_tasks (locked_pi p g) !! p = Some t1) as Ht1.
  { apply (upd_task_at p (fun t => t <| pi_lock := true |>)). by apply (upd_task_at p (fun t => t <| t_state := TASK_RUNNING |>)). }
  assert (clamps_in_range (locked_pi p g)) as Hc1.
  { apply (clamps_upd_task p (fun t => t <| t_state := TASK_RUNNING |>)) in Hc; [|by intros ? []].
    apply (clamps_upd_task p (fun t => t <| pi_lock := true |>)) in Hc; [|by intros ? []].
    destruct Hc as [A1 A2 A3]. split; [exact A1|exact A2|exact A3]. }
  apply wp_bind. eapply wp_set_task; [exact Ht1|].
  assert (kframe false (locked_pi p g) (op_rseq_migrate p ((locked_pi p g) <| k_tasks :=
    <[p := t1 <| recent_used_cpu := task_cpu t1 |>]> (k_tasks (locked_pi p g)) |>))) as H2.
  { etransitivity; [|apply law_rseq_migrate]. eapply kframe_put_task; [exact Ht1|done|].
    intros Hx []; [apply (Hx UCLAMP_MIN)|apply (Hx UCLAMP_MAX)]. }
  apply wp_bind, wp_modify. revert H2. generalize (op_rseq_migrate p ((locked_pi p g) <| k_tasks :=
    <[p := t1 <| recent_used_cpu := task_cpu t1 |>]> (k_tasks (locked_pi p g)) |>)). intros s2 H2.
  destruct (kframe_task _ _ _ _ _ H2 Ht1) as (t2 & Ht2 & E2).
  destruct (kframe_masks _ _ _ H2) as (_ & Ea & Eo).
  pose proof (erase_field false cpus_mask _ _ ltac:(kept_field) E2) as Em.
  pose proof (erase_field false t_flags _ _ ltac:(kept_field) E2) as Ef.
  pose proof (erase_field false nr_cpus_allowed _ _ ltac:(kept_field) E2) as En.
  apply wp_bind. eapply wp_task_of; [exact Ht2|]. apply wp_bind.
  eapply wp_mono; [apply (wp_select_task_rq fuel s2 p t2); [exact Ht2| |by rewrite Ea, Eo]|].
  { rewrite (first_allowed_same s _ t) by done. exact Hal. }
  cbn beta. intros cpu s2' [-> Hcpu]. rewrite (allowed_same s _ t) in Hcpu by done. apply wp_bind, wp_modify.
  pose proof (law_set_task_cpu p cpu s2 ltac:(by exists t2)) as H3.
  destruct (kframe_task _ _ _ _ _ H3 (upd_task_at p (fun t => t <| t_cpu := cpu |>) s2 t2 Ht2)) as (t3 & Ht3 & E3).
  eapply (Hk cpu _ t3); [exact Hcpu| |exact Ht3| |].
  - eapply (tracks_frame true); [|by apply tracks_refl]. etransitivity; [apply kframe_weaken, H2|].
    etransitivity; [apply (kframe_on_cpu p cpu)|apply kframe_weaken, H3].
  - exact (erase_field false task_cpu _ _ ltac:(kept_field) E3).
  - rewrite (erase_field false on_rq _ _ ltac:(kept_field) E3). change (on_rq t2 = 0).
    rewrite (erase_field false on_rq _ _ ltac:(kept_field) E2). exact Hoff.
Qed.

Lemma started_twice p s :
  upd_task p (fun t => t <| on_rq := 1 |>) (upd_task p (fun t => t <| t_state := TASK_RUNNING |>) s) = started p s.
Proof. unfold started. rewrite upd_task_twice. reflexivity. Qed.

(** With the run queue locked: the task is queued and may preempt. *)
Lemma wp_new_task_back gl s cpu p (Q : unit -> kstate -> Prop) :
  tracks gl s -> cpu_up gl cpu -> is_Some (k_tasks gl !! p) ->
  (forall s', tracks (upd_task p (fun t => t <| on_rq := 1 |>) gl) s' -> wp (task_rq_unlock cpu p) Q s') ->
  wp (update_clock cpu;;
      modify (post_init_entity_util_avg p);;
      activate_task cpu p ENQUEUE_NOCLOCK;;
      check_preempt_curr cpu p WF_FORK;;
      t ← task_of p;
      modify (op_task_woken (t_sched_class t) cpu p);;
      task_rq_unlock cpu p) Q s.
Proof using KL EL NL FL.
  intros H Hup Hp HQ. assert (is_Some (k_rqs gl !! cpu)) as Hr by (destruct Hup as (x & Hx & _); by exists x).
  apply wp_bind. eapply (wp_track_frame gl _ false); [exact H|apply wp_update_clock; by eapply tracks_rq_some|]. intros s1 H1.
  apply wp_bind, wp_modify. assert (tracks gl (post_init_entity_util_avg p s1)) as H2 by (eapply tracks_frame; [apply law_post_init|exact H1]).
  apply wp_bind. eapply wp_mono; [apply wp_activate_task; [apply H2|by eapply tracks_rq_some|by eapply tracks_task_some]|].
  cbn beta. intros _ s3 (s' & t' & H' & Ht' & ->).
  rewrite (insert_alter (k_tasks s') p t' (fun t => t <| on_rq := TASK_ON_RQ_QUEUED |>) Ht').
  fold (upd_task p (fun t => t <| on_rq := TASK_ON_RQ_QUEUED |>) s').
  set (gq := upd_task p (fun t => t <| on_rq := 1 |>) gl) in *.
  assert (tracks gq (upd_task p (fun t => t <| on_rq := TASK_ON_RQ_QUEUED |>) s')) as H3.
  { destruct on_rq_values as [-> _]. apply tracks_upd_task; [commutes|by eapply tracks_frame]. }
  assert (cpu_up gq cpu) as Hupq by by apply cpu_up_upd_task.
  assert (is_Some (k_tasks gq !! p)) as Hpq by by apply upd_task_some.
  apply wp_bind. eapply (wp_track_frame gq _ false); [exact H3| |].
  { apply wp_check_preempt_curr; [by eapply cpu_up_core; [apply H3|]|by eapply tracks_task_some]. }
  intros s4 H4. destruct (tracks_task_some _ _ _ H4 Hpq) as [t4 Ht4]. apply wp_bind. eapply wp_task_of; [exact Ht4|].
  apply wp_bind, wp_modify, HQ. eapply tracks_frame; [apply law_task_woken|exact H4].
Qed.

(** From the choice of a CPU on, by where the task goes. *)
Lemma new_task_lands cpu p s s' t :
  k_tasks s !! p = Some t -> task_cpu t = cpu ->
  (rq ← __task_rq_lock p;
   update_clock rq;;
   modify (post_init_entity_util_avg p);;
   activate_task rq p ENQUEUE_NOCLOCK;;
   check_preempt_curr rq p WF_FORK;;
   t ← task_of p;
   modify (op_task_woken (t_sched_class t) rq p);;
   task_rq_unlock rq p) s = Ok tt s' -> lands cpu p s'.
Proof using KL NL WK.
  intros Ht Hcpu (c & s1 & E1 & H)%bind_inv. destruct (task_rq_lock_berths _ _ _ _ _ Ht E1) as [-> V1]. rewrite Hcpu in H.
  apply bind_inv in H as (? & s2 & E2%(quiet_update_clock (R := same_berths)) & H).
  apply bind_inv in H as (? & s3 & [= _ <-] & H).
  pose proof (berths_kframe _ _ (law_post_init p s2)) as E3.
  destruct (berth_at _ _ _ _ (transitivity V1 (transitivity E2 E3)) Ht) as (t3 & Ht3 & H3 & _).
  apply bind_inv in H as ([] & s4 & E4 & H). destruct (activate_lands _ _ _ _ _ _ Ht3 E4) as (t4 & Ht4 & H4 & Hq4).
  apply bind_inv in H as (? & s5 & E5%berths_check_preempt & H).
  destruct (berth_at _ _ _ _ E5 Ht4) as (t5 & Ht5 & H5 & Hq5 & _).
  apply bind_inv in H as (t5' & ? & [-> Ht5']%task_of_inv & H). rewrite Ht5 in Ht5'. injection Ht5' as <-.
  apply bind_inv in H as (? & s6 & [= _ <-] & H). unfold task_rq_unlock in H.
  apply bind_inv in H as (? & s7 & E7%(quiet_unlock_rq (R := same_berths)) & H%(quiet_unlock_pi (R := same_berths))).
  eapply lands_berths; [etransitivity; [exact E7|exact H]|]. apply woken_lands; [exact Ht5|congruence|by rewrite Hq5].
Qed.

Lemma wp_wake_up_new_task fuel s p t :
  new_pre s p t -> wp (wake_up_new_task (S fuel) p) (fun _ s' =>
    tracks (started p s) s' /\ exists cpu, is_cpu_allowed s t cpu = true /\ lands cpu p s') s.
Proof using KL EL NL FL WK.
  intros Hpre. unfold wake_up_new_task. set (g := upd_task p (fun t => t <| t_state := TASK_RUNNING |>) s).
  apply (wp_new_task_front fuel s p t _ _ Hpre). fold g. intros cpu s3 t3 Hcpu H3 Ht3 Ecpu Eoff.
  destruct Hpre as [Ht Hl Hoff Hup Hact Hal Hc].
  destruct (Hup cpu (allowed_up _ _ _ Hcpu Hact)) as (r & Hr & Hrl & Hcur).
  assert (k_rqs (locked_pi p g) !! cpu = Some r) as Hr1 by exact Hr.
  destruct (tracks_rq _ _ _ _ H3 Hr1) as (r3 & Hr3 & Er3).
  assert (k_tasks g !! p = Some (t <| t_state := TASK_RUNNING |>)) as Htg
    by (apply (upd_task_at p (fun t => t <| t_state := TASK_RUNNING |>)); exact Ht).
  assert (pi_lock t3 = true) as Hpl.
  { destruct (tracks_task _ _ _ _ H3 (upd_task_at p (fun t => t <| pi_lock := true |>) g _ Htg)) as (t3' & Ht3' & Ee).
    rewrite Ht3 in Ht3'. injection Ht3' as <-. exact (erase_field true pi_lock _ _ ltac:(kept_field) Ee). }
  eapply wp_mono; [eapply (wp_and_ok _ (fun _ s' => tracks (started p s) s') (fun _ s' => lands cpu p s'))|]; cycle 1.
  { intros [] s'. by apply (new_task_lands cpu p s3 s' t3). }
  { cbn beta. intros _ s' [H1 H2]. split; [exact H1|]. by exists cpu. }
  apply wp_bind. eapply (wp___task_rq_lock true s3 p t3 r3).
  { split; [exact Ht3|exact Hpl|by rewrite Ecpu| | |apply H3].
    - by rewrite (erase_rq_field rq_lock _ _ ltac:(done) Er3).
    - rewrite Eoff. by destruct on_rq_values as [_ ->]. }
  rewrite Ecpu. apply (wp_new_task_back (locked_g cpu (locked_pi p g))).
  - unfold locked_g. rewrite (tracks_preempt _ _ H3).
    apply (tracks_state (fun x => x <| k_preempt := k_preempt (locked_pi p g) + 1 |>)); [done|done|].
    apply (tracks_upd_rq cpu (fun r => r <| rq_lock := true |>)); [commutes|exact H3].
  - apply (cpu_up_upd_rq _ cpu cpu (fun r => r <| rq_lock := true |>)); [done|]. exists r. split; [exact Hr|].
    by apply (upd_task_some p (fun t => t <| pi_lock := true |>)), upd_task_some.
  - eexists. apply (upd_task_at p (fun t => t <| pi_lock := true |>)). exact Htg.
  - intros s9 H9. rewrite locked_g_upd_task, locked_pi_upd_task in H9 by done. unfold g in H9. rewrite started_twice in H9.
    eapply (wp_track_task_rq_unlock _ _ _ _ _ (t <| on_rq := 1 |> <| t_state := TASK_RUNNING |>));
      [exact H9|exact Hr|exact Hrl| |exact Hl|done].
    apply (upd_task_at p (fun t => t <| on_rq := 1 |> <| t_state := TASK_RUNNING |>)). exact Ht.
Qed.

(** C18. [wake_up_new_task] starts a new task, whichever CPU its class prefers: it
    ends with the task runnable and queued, everything else as it was and every
    lock free again, without waiting and without reaching the BUG of the search for
    a CPU.  The run queue it is on is that of a CPU the task is allowed on, which is
    up, unless its real-time or deadline class pushed it on from there to a CPU of
    its mask that is up. *)
Theorem new_task_is_started fuel s p t :
  new_pre s p t ->
  exists s' cpu, wake_up_new_task (S fuel) p s = Ok tt s' /\ tracks (started p s) s' /\ runnable s' p /\
    is_cpu_allowed s t cpu = true /\ lands cpu p s'.
Proof using KL EL NL FL WK.
  intros Hpre. destruct (wp_elim _ _ _ (wp_wake_up_new_task fuel s p t Hpre)) as ([] & s' & E1 & H & cpu & Hc & HL).
  exists s', cpu. split; [exact E1|]. split; [exact H|]. split; [|by split]. eapply tracks_runnable; [exact H|].
  exists (t <| on_rq := 1 |> <| t_state := TASK_RUNNING |>). split; [|done].
  apply (upd_task_at p (fun t => t <| on_rq := 1 |> <| t_state := TASK_RUNNING |>)), Hpre.
Qed.
End Spec.
(** ** A fork on two CPUs *)

#[export] Instance plain_fork : ForkEnv := {|
  sched_rr_timeslice := 25;
  SD_BALANCE_FORK := 8;
  __dl_clear_params t := t <| t_dl := t_dl zero_task |>;
  init_numa_balancing _ t := t;
  init_entity_runnable_average t := t;
  post_init_entity_util_avg _ s := s
|}.
#[export] Instance plain_fork_laws : ForkLaws (U := five_buckets) plain_fork.
Proof. split; intros; first [reflexivity|by destruct id]. Qed.

(** Task 2 runs, boosted to priority 42; task 3 is its copy. *)
Definition boosted : task_struct := running_task <| prio := 42 |> <| process_switches_count := 7 |>.
Definition fork_machine : kstate :=
  (two_machine boosted) <| k_tasks := <[2%positive := boosted]> (k_tasks (two_machine boosted)) |>.

Lemma fork_machine_pre : fork_pre fork_machine 3%positive boosted boosted machine_rq.
Proof. split; try reflexivity; vm_compute; try done; split; congruence. Qed.

Lemma sched_fork_unboosted_witness :
  exists ret s', sched_fork (K := choosing 3%positive) 0 3%positive fork_machine = Ok ret s' /\
    if task_has_dl_policy boosted && negb (sched_reset_on_fork boosted) then ret = - EAGAIN
    else ret = 0 /\
      let child := forked (k_this_cpu fork_machine) boosted in
      core_same false (fork_machine <| k_tasks := <[3%positive := child]> (k_tasks fork_machine) |>) s' /\
      (t_state child, on_rq child, on_cpu child, task_cpu child) = (TASK_NEW, 0, 0, k_this_cpu fork_machine) /\
      consistent_prio child /\ t_sched_class child = class_of_prio (prio child) /\ t_sched_class child <> dl_sched_class /\
      (sched_reset_on_fork boosted = true -> sched_reset_on_fork child = false /\ NICE_TO_PRIO 0 <= prio child).
Proof.
  apply (sched_fork_unboosted (P := linux58_prio) (U := five_buckets) (K := choosing 3%positive) 0 fork_machine
    3%positive boosted boosted machine_rq fork_machine_pre).
Defined.

(** The boost is not inherited; the count of process switches is. *)
Example fork_result :
  match sched_fork (K := choosing 3%positive) 0 3%positive fork_machine with
  | Ok ret s => Some (ret, (fun t => (prio t, t_state t, process_switches_count t)) <$> k_tasks s !! 3%positive)
  | _ => None end = Some (0, Some (120, TASK_NEW, 7)).
Proof. vm_compute. reflexivity. Qed.

(** A new task that may only run on CPU 1. *)
Definition newborn : task_struct :=
  plain_task <| on_rq := 0 |> <| t_state := TASK_NEW |> <| cpus_mask := {[ 1 ]} |> <| nr_cpus_allowed := 1 |>.

Lemma newborn_pre : new_pre (two_machine newborn) 3%positive newborn.
Proof.
  split; try reflexivity.
  - intros c Hc. apply two_cpus_up. cbn in Hc. set_solver.
  - exists 1. vm_compute. reflexivity.
  - apply clamps_b_ok. vm_compute. reflexivity.
Qed.

Lemma new_task_is_started_witness :
  exists s' cpu, wake_up_new_task (K := choosing 3%positive) 1 3%positive (two_machine newborn) = Ok tt s' /\
    tracks (started 3%positive (two_machine newborn)) s' /\ runnable s' 3%positive /\
    is_cpu_allowed (two_machine newborn) newborn cpu = true /\ lands cpu 3%positive s'.
Proof.
  apply (new_task_is_started (K := choosing 3%positive) 0 (two_machine newborn) 3%positive newborn newborn_pre).
Defined.

Example newborn_on_cpu_1 :
  match wake_up_new_task (K := choosing 3%positive) 1 3%positive (two_machine newborn) with
  | Ok _ s => task_cpu <$> k_tasks s !! 3%positive | _ => None end = Some 1.
Proof. vm_compute. reflexivity. Qed.
