(* ===== verification/Hotplug.v ===== *)
(** * Hotplug: CPUs that come and go (core.c)

    Setting up an idle task, attaching tasks to cpusets, NUMA placement, and the
    scheduler's part of CPU hotplug: a run queue going on and off line, all tasks
    leaving a dead CPU, and the four steps a CPU takes up and down.  Scheduling
    domains, cpusets and load averages belong to other files and are an
    interface. *)

From S2P Require Import Prelude Task KernelApi Prio Rq RqClock Uclamp RemoteTick State Sched Setprio.
From S2P Require Import Affinity Fork Tick.

Class HotplugEnv := {
  sched_clock : kstate -> Z;
  init_mm : Z;
  switch_mm : option Z -> ptr -> kstate -> kstate;  (* from, to init_mm, current *)
  dl_cpuset_cpumask_can_shrink : gset Z -> gset Z -> kstate -> Z;
  dl_task_can_attach : ptr -> gset Z -> kstate -> kstate * Z;
  CONFIG_SCHED_SMT : bool;
  cpu_smt_mask : kstate -> Z -> gset Z;
  cpuhp_tasks_frozen : bool;
  dl_cpu_busy : kstate -> Z -> bool;
  cpuset_update_active_cpus : kstate -> kstate;
  cpuset_force_rebuild : kstate -> kstate;
  partition_sched_domains : kstate -> kstate;  (* (1, NULL, NULL): one domain *)
  sched_domains_numa_masks_set : Z -> kstate -> kstate;
  sched_domains_numa_masks_clear : Z -> kstate -> kstate;
  rq_has_rd : kstate -> Z -> bool;  (* rq->rd is not NULL *)
  op_rq_online : sched_class -> Z -> kstate -> kstate;
  op_rq_offline : sched_class -> Z -> kstate -> kstate;
  calc_load_fold_active : Z -> Z -> kstate -> kstate * Z;
  calc_load_tasks_add : Z -> kstate -> kstate;
  calc_load_update : kstate -> Z;
  update_max_interval : kstate -> kstate;
  nohz_balance_exit_idle : Z -> kstate -> kstate;
  housekeeping_domain : gset Z;  (* housekeeping_cpumask(HK_FLAG_DOMAIN) *)
  sched_init_numa : kstate -> kstate;
  sched_init_domains : gset Z -> kstate -> kstate;
  sched_init_granularity : kstate -> kstate;
  init_sched_rt_class : kstate -> kstate;
  init_sched_dl_class : kstate -> kstate
}.

Section Hotplug.
Context {P : PrioApi} {Y : PolicyApi} {U : UclampApi} {A : AttrFlagApi} {F : FlagApi} {C : ClockConfig}
  {K : SchedClassOps} {V : SetprioEnv} {E : MigrateEnv} {N : ForkEnv} {T : TickEnv} {HK : Housekeeping}
  {H : HotplugEnv}.

(** ** The idle task of a CPU *)

Definition init_idle (p : ptr) (cpu : Z) : M unit :=
  set_task p (__sched_fork 0);;
  lock_pi p;;
  lock_rq cpu;;
  s ← get;
  set_task p (fun t => t <| t_state := TASK_RUNNING |>);;
  set_task p (fun t => t <| t_se := (t_se t) <| se_exec_start := sched_clock s |> |>);;
  set_task p (fun t => t <| t_flags := Z.lor (t_flags t) PF_IDLE |>);;
  set_task p (fun t => set_cpus_allowed_common t {[ cpu ]});;
  modify (__set_task_cpu p cpu);;
  set_rq cpu (fun r => r <| idle := p |>);;
  set_rq cpu (fun r => r <| curr := p |>);;
  set_task p (fun t => t <| on_rq := TASK_ON_RQ_QUEUED |>);;
  set_task p (fun t => t <| on_cpu := 1 |>);;
  unlock_rq cpu;;
  unlock_pi p;;
  set_task p (fun t => t <| t_sched_class := idle_sched_class |>).

(** ** Cpusets *)

Definition cpuset_cpumask_can_shrink (cur trial : gset Z) : M Z :=
  if Nat.eqb (size cur) 0 then mret 1
  else s ← get; mret (dl_cpuset_cpumask_can_shrink cur trial s).

Definition task_can_attach (p : ptr) (cs_cpus_allowed : gset Z) : M Z :=
  t ← task_of p;
  if has (t_flags t) PF_NO_SETAFFINITY then mret (- EINVAL)
  else if dl_task t && bool_decide (rd_span (task_cpu t) ## cs_cpus_allowed) then
    s ← get;
    let '(s', ret) := dl_task_can_attach p cs_cpus_allowed s in
    modify (fun _ => s');; mret ret
  else mret 0.

(** ** NUMA placement *)

Definition migrate_task_to (p : ptr) (target_cpu : Z) : M Z :=
  t ← task_of p;
  let curr_cpu := task_cpu t in
  if curr_cpu =? target_cpu then mret 0
  else if negb (bool_decide (target_cpu ∈ cpus_mask t)) then mret (- EINVAL)
  else stop_one_cpu curr_cpu (migration_cpu_stop p target_cpu).

Definition sched_setnuma (p : ptr) (nid : Z) : M unit :=
  cpu ← task_rq_lock p;
  t ← task_of p;
  let queued := task_on_rq_queued t in
  running ← task_current cpu p;
  when queued (dequeue_task cpu p DEQUEUE_SAVE);;
  when running (put_prev_task cpu p);;
  set_task p (fun t => t <| numa_preferred_nid := nid |>);;
  when queued (enqueue_task cpu p (Z.lor ENQUEUE_RESTORE ENQUEUE_NOCLOCK));;
  when running (set_next_task cpu p);;
  task_rq_unlock cpu p.

(** ** The last acts of a dying CPU *)

Definition idle_task_exit : M unit :=
  c ← current;
  t ← task_of c;
  let mm := active_mm t in
  s ← get;
  r ← rq_of (k_this_cpu s);
  if bool_decide (k_this_cpu s ∈ k_online s) then bug
  else if negb (bool_decide (c = idle r)) then bug
  else when (negb (bool_decide (mm = Some init_mm))) (modify (switch_mm mm c)).

Definition calc_load_migrate (cpu : Z) : M unit :=
  s ← get;
  let '(s', delta) := calc_load_fold_active cpu 1 s in
  modify (fun _ => s');;
  when (nz delta) (modify (calc_load_tasks_add delta)).

(** The loop over the classes. *)
Fixpoint pick_migrate_loop (l : list sched_class) (cpu : Z) : M ptr :=
  match l with
  | [] => bug
  | class :: l =>
      o ← class_pick class cpu;
      match o with
      | Some next => put_prev_task cpu next;; mret next
      | None => pick_migrate_loop l cpu
      end
  end.
Definition __pick_migrate_task (cpu : Z) : M ptr := pick_migrate_loop classes cpu.

(** One task leaves: picked, and pushed to another CPU with its own lock held. *)
Definition migrate_one (rounds : nat) (dead : Z) : M unit :=
  next ← __pick_migrate_task dead;
  unlock_rq dead;;
  lock_pi next;;
  lock_rq dead;;
  t ← task_of next;
  if negb (task_cpu t =? dead) || negb (task_on_rq_queued t) then unlock_pi next
  else
    dest_cpu ← select_fallback_rq rounds dead next;
    rq ← __migrate_task dead next dest_cpu;
    when (negb (rq =? dead)) (unlock_rq rq;; lock_rq dead);;
    unlock_pi next.

(** [fuel] bounds the tasks, [rounds] those of the search for a CPU. *)
Fixpoint migrate_loop (fuel rounds : nat) (dead : Z) : M unit :=
  r ← rq_of dead;
  if Rq.nr_running r =? 1 then mret tt
  else match fuel with
  | O => hang
  | S fuel => migrate_one rounds dead;; migrate_loop fuel rounds dead
  end.

Definition migrate_tasks (fuel rounds : nat) (dead : Z) : M unit :=
  r ← rq_of dead;
  let stopper := stop r in
  set_rq dead (fun r => r <| stop := None |>);;
  update_clock dead;;
  migrate_loop fuel rounds dead;;
  set_rq dead (fun r => r <| stop := stopper |>).

(** ** Run queues on and off line *)

Definition for_each_class (f : sched_class -> kstate -> kstate) : M unit :=
  foldr (fun class k => modify (f class);; k) (mret tt) classes.

Definition set_rq_online (cpu : Z) : M unit :=
  r ← rq_of cpu;
  when (negb (online r))
    (modify (fun s => s <| k_rd_online := {[ rq_cpu r ]} ∪ k_rd_online s |>);;
     set_rq cpu (fun r => r <| online := true |>);;
     for_each_class (fun class => op_rq_online class cpu)).

Definition set_rq_offline (cpu : Z) : M unit :=
  r ← rq_of cpu;
  when (online r)
    (for_each_class (fun class => op_rq_offline class cpu);;
     modify (fun s => s <| k_rd_online := k_rd_online s ∖ {[ rq_cpu r ]} |>);;
     set_rq cpu (fun r => r <| online := false |>)).

(** ** Suspend, resume and cpusets *)

Definition cpuset_cpu_active : M unit :=
  if cpuhp_tasks_frozen then
    modify partition_sched_domains;;
    modify (fun s => s <| k_cpus_frozen := k_cpus_frozen s - 1 |>);;
    s ← get;
    if nz (k_cpus_frozen s) then mret tt
    else modify cpuset_force_rebuild;; modify cpuset_update_active_cpus
  else modify cpuset_update_active_cpus.

Definition cpuset_cpu_inactive (cpu : Z) : M Z :=
  if negb cpuhp_tasks_frozen then
    s ← get;
    if dl_cpu_busy s cpu then mret (- EBUSY)
    else modify cpuset_update_active_cpus;; mret 0
  else
    modify (fun s => s <| k_cpus_frozen := k_cpus_frozen s + 1 |>);;
    modify partition_sched_domains;;
    mret 0.

(** ** The steps of hotplug *)

Definition set_cpu_active (cpu : Z) (active : bool) : M unit :=
  modify (fun s => s <| k_active := if active then {[ cpu ]} ∪ k_active s else k_active s ∖ {[ cpu ]} |>).

(** A core counts while two of its threads are up. *)
Definition smt_count (cpu d : Z) : M unit :=
  s ← get;
  when (CONFIG_SCHED_SMT && Nat.eqb (size (cpu_smt_mask s cpu)) 2)
    (modify (fun s => s <| k_smt_present := k_smt_present s + d |>)).

(** The run queue is put on or off line when it has a root domain. *)
Definition with_root_domain (cpu : Z) (m : M unit) : M unit :=
  s ← get;
  if rq_has_rd s cpu then
    if negb (bool_decide (cpu ∈ rd_span cpu)) then bug else m
  else mret tt.

Definition sched_cpu_activate (cpu : Z) : M Z :=
  smt_count cpu 1;;
  set_cpu_active cpu true;;
  s ← get;
  when (k_smp_initialized s)
    (modify (sched_domains_numa_masks_set cpu);; cpuset_cpu_active);;
  lock_rq cpu;;
  with_root_domain cpu (set_rq_online cpu);;
  unlock_rq cpu;;
  mret 0.

Definition sched_cpu_deactivate (cpu : Z) : M Z :=
  set_cpu_active cpu false;;
  smt_count cpu (-1);;
  s ← get;
  if negb (k_smp_initialized s) then mret 0
  else
    ret ← cpuset_cpu_inactive cpu;
    if nz ret then set_cpu_active cpu true;; mret ret
    else modify (sched_domains_numa_masks_clear cpu);; mret 0.

(** The remote tick works. *)
Definition on_ticks (f : tick_sys -> option tick_sys) : M unit :=
  s ← get;
  y ← lift_option (f (k_ticks s));
  modify (fun s => s <| k_ticks := y |>).

Definition sched_rq_cpu_starting (cpu : Z) : M unit :=
  s ← get;
  set_rq cpu (fun r => r <| rq_calc_load_update := calc_load_update s |>);;
  modify update_max_interval.

Definition sched_cpu_starting (cpu : Z) : M Z :=
  sched_rq_cpu_starting cpu;;
  on_ticks (sched_tick_start cpu);;
  mret 0.

Definition sched_cpu_dying (fuel rounds : nat) (cpu : Z) : M Z :=
  on_ticks (sched_tick_stop cpu);;
  lock_rq cpu;;
  with_root_domain cpu (set_rq_offline cpu);;
  migrate_tasks fuel rounds cpu;;
  r ← rq_of cpu;
  (if negb (Rq.nr_running r =? 1) then bug else mret tt);;
  unlock_rq cpu;;
  calc_load_migrate cpu;;
  modify update_max_interval;;
  modify (nohz_balance_exit_idle cpu);;
  hrtick_clear cpu;;
  mret 0.

(** ** Start of the system *)

Definition sched_init_smp : M unit :=
  modify sched_init_numa;;
  s ← get;
  modify (sched_init_domains (k_active s));;
  c ← current;
  ret ← set_cpus_allowed_ptr c housekeeping_domain;
  (if ret <? 0 then bug else mret tt);;
  modify sched_init_granularity;;
  modify init_sched_rt_class;;
  modify init_sched_dl_class;;
  modify (fun s => s <| k_smp_initialized := true |>).

Definition migration_init : M Z :=
  cpu ← smp_processor_id;
  _ ← sched_cpu_starting cpu;
  mret 0.
End Hotplug.
