(* ===== verification/HotplugSpec.v ===== *)
(** * HotplugSpec: what the hotplug steps count

    CPUs that go up and down: the active mask, the number of cores with several
    threads up and the number of CPUs frozen for a suspend; and the refused step
    that counts wrongly. *)

From S2P Require Import Prelude Task KernelApi Prio Rq RqClock Uclamp UclampTrace RemoteTick.
From S2P Require Import State Sched SchedFacts ScheduleSpec Setprio TaskLock Affinity AffinitySpec Fork Tick Hotplug.

(** ** Counting cores *)

Section Cores.
Variable core_of : Z -> Z.

Definition siblings (online : gset Z) (core : Z) : gset Z := filter (fun c => core_of c = core) online.
Definition shared (online : gset Z) (core : Z) : Prop := (2 <= size (siblings online core))%nat.
#[export] Instance shared_dec online core : Decision (shared online core).
Proof. unfold shared. apply _. Defined.

(** The cores with at least two threads up. *)
Definition smt_cores (online : gset Z) : Z :=
  Z.of_nat (size (filter (shared online) (set_map core_of online : gset Z))).

Lemma siblings_add online c core :
  siblings ({[ c ]} ∪ online) core = (if decide (core_of c = core) then {[ c ]} else ∅) ∪ siblings online core.
Proof.
  apply set_eq. intros x. unfold siblings. rewrite elem_of_union, !elem_of_filter, elem_of_union, elem_of_singleton.
  destruct (decide (core_of c = core)) as [E|E]; [rewrite elem_of_singleton|rewrite elem_of_empty].
  - split; [intros [? [->|?]]; [by left|by right]|intros [->|[? ?]]; split; first [done|by left|by right]].
  - split; [intros [? [->|?]]; [done|by right]|intros [[]|[? ?]]; split; first [done|by right]].
Qed.

Lemma siblings_add_size online c core :
  c ∉ online -> size (siblings ({[ c ]} ∪ online) core) =
    ((if decide (core_of c = core) then 1 else 0) + size (siblings online core))%nat.
Proof.
  intros Hc. rewrite siblings_add. destruct (decide (core_of c = core)).
  - rewrite size_union; [by rewrite size_singleton|]. apply disjoint_singleton_l. intros Hx. apply Hc.
    unfold siblings in Hx. by apply elem_of_filter in Hx as [_ ?].
  - by rewrite (left_id_L ∅ _).
Qed.

Lemma shared_core online core : shared online core -> core ∈ (set_map core_of online : gset Z).
Proof.
  intros Hx. unfold shared, siblings in Hx. apply elem_of_map.
  destruct (set_choose_or_empty (filter (fun c => core_of c = core) online)) as [[y Hy]|He].
  - apply elem_of_filter in Hy as [<- Hy]. by exists y.
  - rewrite He, size_empty in Hx. lia.
Qed.

(** One more thread makes a core count when it is the second. *)
Lemma smt_cores_add online c :
  c ∉ online ->
  smt_cores ({[ c ]} ∪ online) =
  smt_cores online + (if decide (size (siblings ({[ c ]} ∪ online) (core_of c)) = 2%nat) then 1 else 0).
Proof.
  intros Hc. unfold smt_cores. rewrite (siblings_add_size _ _ _ Hc), (decide_True _ _ (eq_refl (core_of c))).
  set (cores := fun o : gset Z => filter (shared o) (set_map core_of o : gset Z)).
  change (Z.of_nat (size (cores ({[ c ]} ∪ online))) = Z.of_nat (size (cores online)) +
    (if decide (1 + size (siblings online (core_of c)) = 2)%nat then 1 else 0)).
  assert (forall o x, x ∈ cores o <-> shared o x) as Hin.
  { intros o x. unfold cores. rewrite elem_of_filter. split; [by intros [? _]|]. intros Hx. by split; [|apply shared_core]. }
  clearbody cores. assert (forall x, shared ({[ c ]} ∪ online) x <->
    shared online x \/ x = core_of c /\ (1 <= size (siblings online x))%nat) as Hs.
  { intros x. unfold shared. rewrite (siblings_add_size _ _ _ Hc). case_decide; subst; split; lia. }
  case_decide as E.
  - assert (cores ({[ c ]} ∪ online) = {[ core_of c ]} ∪ cores online) as ->.
    { apply set_eq. intros x. rewrite Hin, Hs, elem_of_union, elem_of_singleton, Hin. split.
      - intros [?|[? _]]; [by right|by left].
      - intros [->|?]; [right; split; [done|lia]|by left]. }
    rewrite size_union, size_singleton; [lia|].
    apply disjoint_singleton_l. intros Hx%Hin. unfold shared in Hx. lia.
  - assert (cores ({[ c ]} ∪ online) = cores online) as ->; [|lia].
    apply set_eq. intros x. rewrite Hin, Hs, Hin. split; [|by left]. intros [?|[-> Hx]]; [done|]. unfold shared. lia.
Qed.

(** One thread less, when it was the second. *)
Lemma smt_cores_remove online c :
  c ∈ online ->
  smt_cores (online ∖ {[ c ]}) =
  smt_cores online - (if decide (size (siblings online (core_of c)) = 2%nat) then 1 else 0).
Proof.
  intros Hc. assert ({[ c ]} ∪ (online ∖ {[ c ]}) = online) as E.
  { symmetry. apply union_difference_singleton_L. exact Hc. }
  assert (c ∉ online ∖ {[ c ]}) as Hn by (apply not_elem_of_difference; right; by apply elem_of_singleton).
  pose proof (smt_cores_add (online ∖ {[ c ]}) c Hn) as H. rewrite E in H. lia.
Qed.
End Cores.

(** ** What the steps leave alone *)

(** The masks and counters of hotplug, and which run queues are locked. *)
Record hp_frame (s s' : kstate) : Prop := {
  hp_online : k_online s' = k_online s;
  hp_active : k_active s' = k_active s;
  hp_smt : k_smt_present s' = k_smt_present s;
  hp_frozen : k_cpus_frozen s' = k_cpus_frozen s;
  hp_init : k_smp_initialized s' = k_smp_initialized s;
  hp_locks c : rq_lock <$> k_rqs s' !! c = rq_lock <$> k_rqs s !! c
}.

#[export] Instance hp_frame_preorder : PreOrder hp_frame.
Proof.
  split; [by split|]. intros s1 s2 s3 [] []. split; [congruence..|]. intros c. congruence.
Qed.

(** Cpusets, scheduling domains and the classes keep to their own; a thread's
    siblings are the threads of its core that are up; a CPU is in the span of its
    root domain. *)
Class HotplugLaws {V : SetprioEnv} (core_of : Z -> Z) (H : HotplugEnv) : Prop := {
  law_update_cpusets s : hp_frame s (cpuset_update_active_cpus s);
  law_force_rebuild s : hp_frame s (cpuset_force_rebuild s);
  law_partition s : hp_frame s (partition_sched_domains s);
  law_numa_set cpu s : hp_frame s (sched_domains_numa_masks_set cpu s);
  law_numa_clear cpu s : hp_frame s (sched_domains_numa_masks_clear cpu s);
  law_rq_online c cpu s : hp_frame s (op_rq_online c cpu s);
  law_rq_offline c cpu s : hp_frame s (op_rq_offline c cpu s);
  law_rd_span s cpu : rq_has_rd s cpu = true -> cpu ∈ rd_span cpu;
  law_smt_config : CONFIG_SCHED_SMT = true;
  law_smt_mask s cpu : cpu_smt_mask s cpu = siblings core_of (k_online s) (core_of cpu)
}.

Section Steps.
Context {V : SetprioEnv} {H : HotplugEnv} (core_of : Z -> Z) {HL : HotplugLaws core_of H}.

Lemma wp_frame_step {X} (m : M unit) (k : M X) s0 s Q :
  hp_frame s0 s -> wp m (fun _ s' => hp_frame s s') s ->
  (forall s', hp_frame s0 s' -> wp k Q s') -> wp (m;; k) Q s.
Proof.
  intros H0 Hm Hk. apply wp_bind. eapply wp_mono; [exact Hm|]. cbn beta. intros _ s' H1. apply Hk. by etransitivity.
Qed.

Lemma wp_hook f s : (forall s, hp_frame s (f s)) -> wp (modify f) (fun _ s' => hp_frame s s') s.
Proof. intros Hf. apply wp_modify. apply Hf. Qed.

Lemma hp_frame_active s s' a : hp_frame s s' -> hp_frame (s <| k_active := a |>) (s' <| k_active := a |>).
Proof. intros []. by split. Qed.
Lemma hp_frame_online s s' a : hp_frame s s' -> hp_frame (s <| k_online := a |>) (s' <| k_online := a |>).
Proof. intros []. by split. Qed.
Lemma hp_frame_frozen s s' a : hp_frame s s' -> hp_frame (s <| k_cpus_frozen := a |>) (s' <| k_cpus_frozen := a |>).
Proof. intros []. by split. Qed.

Lemma wp_set_rq_frame c f s :
  is_Some (k_rqs s !! c) -> (forall r, rq_lock (f r) = rq_lock r) -> wp (set_rq c f) (fun _ s' => hp_frame s s') s.
Proof.
  intros Hr Hf. apply wp_upd_rq; [exact Hr|]. split; try done. intros d. rewrite upd_rq_lookup. case_decide; [|done].
  destruct (k_rqs s !! d); [|done]. cbn. by rewrite Hf.
Qed.

Lemma wp_for_each_class f s :
  (forall c s, hp_frame s (f c s)) -> wp (for_each_class f) (fun _ s' => hp_frame s s') s.
Proof.
  intros Hf. unfold for_each_class. generalize s. induction classes as [|c l IH]; intros x; cbn [foldr]; [done|].
  eapply (wp_frame_step _ _ x); [done|by apply wp_hook|]. intros y Hy. eapply wp_mono; [apply IH|]. cbn beta.
  intros _ z Hz. by etransitivity.
Qed.

Lemma hp_rq_some s s' c : hp_frame s s' -> is_Some (k_rqs s !! c) -> is_Some (k_rqs s' !! c).
Proof. intros Hf [r Hr]. pose proof (hp_locks _ _ Hf c) as Hl. rewrite Hr in Hl. destruct (k_rqs s' !! c); [by eexists|done]. Qed.

Lemma wp_set_rq_online c s : is_Some (k_rqs s !! c) -> wp (set_rq_online c) (fun _ s' => hp_frame s s') s.
Proof using HL.
  intros [r Hr]. unfold set_rq_online. apply wp_bind. eapply wp_rq_of; [exact Hr|]. destruct (online r); cbn [negb when]; [done|].
  eapply (wp_frame_step _ _ s); [done|by apply wp_modify|]. intros s1 H1.
  eapply wp_frame_step; [exact H1|apply wp_set_rq_frame; [by eapply hp_rq_some|done]|]. intros s2 H2.
  eapply wp_mono; [apply wp_for_each_class; intros cl x; apply law_rq_online|]. cbn beta. intros _ s3 H3. by etransitivity.
Qed.

Lemma wp_set_rq_offline c s : is_Some (k_rqs s !! c) -> wp (set_rq_offline c) (fun _ s' => hp_frame s s') s.
Proof using HL.
  intros [r Hr]. unfold set_rq_offline. apply wp_bind. eapply wp_rq_of; [exact Hr|]. destruct (online r); cbn [negb when]; [|done].
  eapply (wp_frame_step _ _ s); [done|apply wp_for_each_class; intros cl x; apply law_rq_offline|]. intros s1 H1.
  eapply wp_frame_step; [exact H1|by apply wp_modify|]. intros s2 H2.
  eapply wp_mono; [apply wp_set_rq_frame; [by eapply hp_rq_some|done]|]. cbn beta. intros _ s3 H3. by etransitivity.
Qed.

Lemma wp_with_root_domain c m s :
  wp m (fun _ s' => hp_frame s s') s -> wp (with_root_domain c m) (fun _ s' => hp_frame s s') s.
Proof using HL.
  intros Hm. unfold with_root_domain. apply wp_bind, wp_get. destruct (rq_has_rd s c) eqn:Hrd; [|done].
  by rewrite (bool_decide_eq_true_2 _ (law_rd_span s c Hrd)).
Qed.

(** The run queue part of [sched_cpu_activate]: the lock is free again. *)
Lemma wp_rq_goes_online cpu s Q :
  rq_lock <$> k_rqs s !! cpu = Some false -> (forall s', hp_frame s s' -> Q 0 s') ->
  wp (lock_rq cpu;; with_root_domain cpu (set_rq_online cpu);; unlock_rq cpu;; mret 0) Q s.
Proof using HL.
  intros Hl HQ. destruct (k_rqs s !! cpu) as [r|] eqn:Hr; [|done]. injection Hl as Hl.
  apply wp_bind. eapply wp_lock_rq; [exact Hr|exact Hl|]. rewrite (lock_rq_locked s cpu r Hr).
  set (s1 := locked_g cpu s).
  assert (forall c, k_rqs s1 !! c = if decide (c = cpu) then Some (r <| rq_lock := true |>) else k_rqs s !! c) as E1.
  { intros c. change (k_rqs s1) with (k_rqs (upd_rq cpu (fun r => r <| rq_lock := true |>) s)).
    rewrite upd_rq_lookup. case_decide as E; [by rewrite E, Hr|done]. }
  apply wp_bind. eapply wp_mono.
  { apply wp_with_root_domain, wp_set_rq_online. rewrite E1, decide_True by done. by eexists. }
  cbn beta. intros _ s2 H2. pose proof (hp_locks _ _ H2 cpu) as Hl2. rewrite E1, decide_True in Hl2 by done.
  destruct (k_rqs s2 !! cpu) as [r2|] eqn:Hr2; [|done]. injection Hl2 as Hl2.
  apply wp_bind. eapply wp_unlock_rq; [exact Hr2|exact Hl2|]. apply wp_ret, HQ.
  destruct H2 as [G1 G2 G3 G4 G5 G6]. split; [done..|]. intros c. rsimpl. destruct (decide (c = cpu)) as [->|Hne].
  - rewrite lookup_insert_eq, Hr. cbn. by rewrite Hl.
  - rewrite lookup_insert_ne, G6, E1, decide_False by done. done.
Qed.

(** ** The counters after each step *)

Definition second_thread (s : kstate) (cpu : Z) : bool :=
  bool_decide (size (siblings core_of (k_online s) (core_of cpu)) = 2%nat).

Lemma smt_count_run cpu d s :
  smt_count cpu d s = Ok tt (if second_thread s cpu then s <| k_smt_present := k_smt_present s + d |> else s).
Proof using HL.
  unfold smt_count, second_thread, get, modify, mbind, M_bind. rewrite law_smt_config, law_smt_mask.
  cbn [andb]. case_bool_decide as E; [by rewrite (proj2 (Nat.eqb_eq _ _) E)|by rewrite (proj2 (Nat.eqb_neq _ _) E)].
Qed.

Definition went_up (cpu : Z) (s : kstate) : kstate :=
  s <| k_smt_present := k_smt_present s + (if second_thread s cpu then 1 else 0) |>
    <| k_active := {[ cpu ]} ∪ k_active s |>
    <| k_cpus_frozen := k_cpus_frozen s - (if cpuhp_tasks_frozen then 1 else 0) |>.

Definition went_down (cpu : Z) (s : kstate) : kstate :=
  s <| k_smt_present := k_smt_present s - (if second_thread s cpu then 1 else 0) |>
    <| k_active := k_active s ∖ {[ cpu ]} |>
    <| k_cpus_frozen := k_cpus_frozen s + (if cpuhp_tasks_frozen then 1 else 0) |>.

Lemma wp_cpuset_cpu_active s :
  wp cpuset_cpu_active (fun _ s' =>
    hp_frame (s <| k_cpus_frozen := k_cpus_frozen s - (if cpuhp_tasks_frozen then 1 else 0) |>) s') s.
Proof using HL.
  unfold cpuset_cpu_active. destruct cpuhp_tasks_frozen.
  2: { eapply wp_mono; [apply wp_hook, law_update_cpusets|]. cbn beta. intros _ s' []. split; try done. rsimpl. lia. }
  apply wp_bind, wp_modify. apply wp_bind, wp_modify.
  pose proof (law_partition s) as H1. set (s1 := partition_sched_domains s) in *.
  assert (hp_frame (s <| k_cpus_frozen := k_cpus_frozen s - 1 |>) (s1 <| k_cpus_frozen := k_cpus_frozen s1 - 1 |>)) as H2.
  { rewrite (hp_frozen _ _ H1). by apply hp_frame_frozen. }
  apply wp_bind, wp_get. destruct (nz _); [exact H2|].
  eapply wp_frame_step; [exact H2|apply wp_hook, law_force_rebuild|]. intros s3 H3.
  eapply wp_mono; [apply wp_hook, law_update_cpusets|]. cbn beta. intros _ s4 H4. by etransitivity.
Qed.

Lemma activate_counts cpu s :
  k_smp_initialized s = true -> rq_lock <$> k_rqs s !! cpu = Some false ->
  exists s', sched_cpu_activate cpu s = Ok 0 s' /\ hp_frame (went_up cpu s) s'.
Proof using HL.
  intros Hi Hl.
  assert (wp (sched_cpu_activate cpu) (fun ret s' => ret = 0 /\ hp_frame (went_up cpu s) s') s) as Hw.
  2: { apply wp_elim in Hw as (ret & s' & E1 & -> & H'). by exists s'. }
  unfold sched_cpu_activate. apply wp_bind. unfold wp at 1. rewrite smt_count_run.
  set (s1 := if second_thread s cpu then _ else s).
  assert (hp_frame (s <| k_smt_present := k_smt_present s + (if second_thread s cpu then 1 else 0) |>) s1) as H1.
  { unfold s1. destruct (second_thread s cpu); split; try done. rsimpl. lia. }
  apply wp_bind, wp_modify. apply (hp_frame_active _ _ ({[ cpu ]} ∪ k_active s1)) in H1. set (s2 := s1 <| k_active := _ |>) in *.
  assert (k_active s1 = k_active s) as Ea by (unfold s1; by destruct (second_thread s cpu)). rewrite Ea in H1.
  apply wp_bind, wp_get. rewrite (hp_init _ _ H1). change (k_smp_initialized (_ <| k_active := _ |>)) with (k_smp_initialized s).
  rewrite Hi. apply wp_bind. cbn [when].
  eapply (wp_frame_step _ _ s2); [done|apply wp_hook, law_numa_set|]. intros s3 H3.
  eapply wp_mono; [apply wp_cpuset_cpu_active|]. cbn beta. intros _ s4 H4.
  assert (hp_frame (went_up cpu s) s4) as H5.
  { etransitivity; [|exact H4]. pose proof (transitivity H1 H3) as H13. rewrite (hp_frozen _ _ H13).
    unfold went_up. by apply hp_frame_frozen. }
  apply wp_rq_goes_online; [|intros s' H6; split; [done|by etransitivity]].
  rewrite (hp_locks _ _ H5). exact Hl.
Qed.

Lemma deactivate_run cpu s :
  exists s1, sched_cpu_deactivate cpu s =
    (s ← get; if negb (k_smp_initialized s) then mret 0
     else ret ← cpuset_cpu_inactive cpu;
       if nz ret then set_cpu_active cpu true;; mret ret
       else modify (sched_domains_numa_masks_clear cpu);; mret 0) s1 /\
  s1 = if second_thread s cpu then s <| k_active := k_active s ∖ {[ cpu ]} |> <| k_smt_present := k_smt_present s - 1 |>
       else s <| k_active := k_active s ∖ {[ cpu ]} |>.
Proof using HL.
  eexists. split; [|reflexivity]. unfold sched_cpu_deactivate.
  rewrite (bind_ok _ _ s tt (s <| k_active := k_active s ∖ {[ cpu ]} |>)) by done.
  rewrite (bind_ok _ _ _ _ _ (smt_count_run cpu (-1) _)).
  change (second_thread (s <| k_active := k_active s ∖ {[ cpu ]} |>) cpu) with (second_thread s cpu). reflexivity.
Qed.

(** A step that succeeds. *)
Lemma deactivate_counts cpu s s' :
  k_smp_initialized s = true -> sched_cpu_deactivate cpu s = Ok 0 s' -> hp_frame (went_down cpu s) s'.
Proof using HL.
  intros Hi. destruct (deactivate_run cpu s) as (s1 & -> & E1).
  assert (k_smp_initialized s1 = true) as Hi1 by (subst; by destruct (second_thread s cpu)).
  assert (hp_frame (s <| k_smt_present := k_smt_present s - (if second_thread s cpu then 1 else 0) |>
    <| k_active := k_active s ∖ {[ cpu ]} |>) s1) as H1.
  { subst. destruct (second_thread s cpu); split; try done. rsimpl. lia. }
  clear E1. rewrite (bind_ok get _ s1 s1 s1 eq_refl), Hi1. cbn [negb]. unfold cpuset_cpu_inactive, went_down.
  destruct cpuhp_tasks_frozen; cbn [negb].
  - unfold modify, mbind, M_bind, mret, M_ret. cbn [nz Z.eqb negb]. intros [= <-].
    etransitivity; [|apply law_numa_clear]. etransitivity; [|apply law_partition].
    rewrite (hp_frozen _ _ H1). by apply hp_frame_frozen.
  - rewrite !bind_bind, (bind_ok get _ s1 s1 s1 eq_refl). destruct (dl_cpu_busy s1 cpu).
    + unfold modify, mbind, M_bind, mret, M_ret, set_cpu_active. by cbn [nz Z.eqb negb].
    + unfold modify, mbind, M_bind, mret, M_ret. cbn [nz Z.eqb negb]. intros [= <-].
      etransitivity; [|apply law_numa_clear]. etransitivity; [|apply law_update_cpusets].
      etransitivity; [|exact H1]. split; try done. rsimpl. lia.
Qed.
End Steps.

(** ** Histories of CPUs going up and down *)

Section Histories.
Context {V : SetprioEnv} (core_of : Z -> Z).

(** A CPU goes up: it is online, then activated; it goes down: deactivated, then
    offline.  Each time the tasks may be frozen for a suspend or not.  The set of
    CPUs that went down frozen and are not back is a ghost.  [hp_other] is all
    that happens in between. *)
Inductive hp_step : kstate * gset Z -> kstate * gset Z -> Prop :=
  | hp_up (H : HotplugEnv) (HL : HotplugLaws core_of H) cpu s s' z :
      cpu ∉ k_online s -> rq_lock <$> k_rqs s !! cpu = Some false ->
      (cpuhp_tasks_frozen = true <-> cpu ∈ z) ->
      sched_cpu_activate cpu (s <| k_online := {[ cpu ]} ∪ k_online s |>) = Ok 0 s' ->
      hp_step (s, z) (s', z ∖ {[ cpu ]})
  | hp_down (H : HotplugEnv) (HL : HotplugLaws core_of H) cpu s s' z :
      cpu ∈ k_online s -> sched_cpu_deactivate cpu s = Ok 0 s' ->
      hp_step (s, z) (s' <| k_online := k_online s' ∖ {[ cpu ]} |>, if cpuhp_tasks_frozen then {[ cpu ]} ∪ z else z)
  | hp_other s s' z : hp_frame s s' -> hp_step (s, z) (s', z).

Record hp_consistent (s : kstate) (z : gset Z) : Prop := {
  hc_init : k_smp_initialized s = true;
  hc_active : k_active s = k_online s;
  hc_smt : k_smt_present s = smt_cores core_of (k_online s);
  hc_frozen : k_cpus_frozen s = Z.of_nat (size z);
  hc_down : z ## k_online s
}.

Lemma hp_consistent_frame s s' z : hp_frame s s' -> hp_consistent s z -> hp_consistent s' z.
Proof. intros [G1 G2 G3 G4 G5 _] []. split; [congruence..|by rewrite G1]. Qed.

Lemma hp_consistent_up {H : HotplugEnv} cpu s z :
  cpu ∉ k_online s -> (cpuhp_tasks_frozen = true <-> cpu ∈ z) -> hp_consistent s z ->
  hp_consistent (went_up core_of cpu (s <| k_online := {[ cpu ]} ∪ k_online s |>)) (z ∖ {[ cpu ]}).
Proof.
  intros Hn Hf [H1 H2 H3 H4 H5]. unfold went_up, second_thread. rsimpl. split.
  - exact H1.
  - change ({[ cpu ]} ∪ k_active s = {[ cpu ]} ∪ k_online s). by rewrite H2.
  - rsimpl. rewrite H3, (smt_cores_add _ _ _ Hn). by case_bool_decide; case_decide.
  - rsimpl. rewrite H4. destruct cpuhp_tasks_frozen.
    + assert (cpu ∈ z) as Hz by by apply Hf. rewrite size_difference by (by apply singleton_subseteq_l).
      rewrite size_singleton. assert (size z <> 0)%nat; [|lia]. intros E0. apply size_empty_inv in E0. by apply E0, elem_of_empty in Hz.
    + assert (cpu ∉ z) as Hz by (intros Hz; by apply Hf in Hz).
      rewrite (difference_disjoint_L z {[ cpu ]}) by (apply disjoint_singleton_r; exact Hz). lia.
  - rsimpl. apply elem_of_disjoint. intros x [Hx Hxc]%elem_of_difference [Hx'|Hx']%elem_of_union; [done|].
    by apply (H5 x).
Qed.

Lemma hp_consistent_down {H : HotplugEnv} cpu s z :
  cpu ∈ k_online s -> hp_consistent s z ->
  hp_consistent ((went_down core_of cpu s) <| k_online := k_online s ∖ {[ cpu ]} |>)
    (if cpuhp_tasks_frozen then {[ cpu ]} ∪ z else z).
Proof.
  intros Hin [H1 H2 H3 H4 H5]. assert (cpu ∉ z) as Hz by (intros Hz; by apply (H5 cpu)).
  unfold went_down, second_thread. rsimpl. split.
  - exact H1.
  - rsimpl. by rewrite H2.
  - rsimpl. rewrite H3, (smt_cores_remove _ _ _ Hin). by case_bool_decide; case_decide.
  - rsimpl. rewrite H4. destruct cpuhp_tasks_frozen; [|lia].
    rewrite size_union, size_singleton by (by apply disjoint_singleton_l). lia.
  - rsimpl. assert (z ## k_online s ∖ {[ cpu ]}) as H6.
    { apply elem_of_disjoint. intros x Hx [Hx' _]%elem_of_difference. by apply (H5 x). }
    destruct cpuhp_tasks_frozen; [|exact H6]. apply disjoint_union_l. split; [|exact H6].
    apply disjoint_singleton_l. intros [_ Hx]%elem_of_difference. by apply Hx, elem_of_singleton.
Qed.

Lemma hp_step_consistent s z s' z' : hp_step (s, z) (s', z') -> hp_consistent s z -> hp_consistent s' z'.
Proof.
  intros Hstep Hc. inversion Hstep as [H HL cpu x x' y Hn Hl Hf E1|H HL cpu x x' y Hin E1|x x' y Hfr]; subst.
  - destruct (activate_counts core_of cpu (s <| k_online := {[ cpu ]} ∪ k_online s |>)) as (s2 & E2 & H2);
      [apply Hc|exact Hl|]. rewrite E1 in E2. injection E2 as <-.
    eapply hp_consistent_frame; [exact H2|]. by apply hp_consistent_up.
  - pose proof (deactivate_counts core_of cpu s x' (hc_init _ _ Hc) E1) as H2.
    rewrite (hp_online _ _ H2). eapply hp_consistent_frame; [apply hp_frame_online, H2|].
    by apply (hp_consistent_down cpu s z).
  - by eapply hp_consistent_frame.
Qed.

(** C19. The three things hotplug counts are right along every history of CPUs going
    up and down, frozen for a suspend or not: the active mask is the mask of CPUs
    that are up, [sched_smt_present] is the number of cores with at least two
    threads up, whatever the number of threads of a core, and [num_cpus_frozen],
    as its comment says, is the number of CPUs that went down for a suspend and
    are not back; so the last of them, and no other, restores the cpusets. *)
Theorem hotplug_counts s0 s z :
  hp_consistent s0 ∅ -> rtc hp_step (s0, ∅) (s, z) ->
  k_active s = k_online s /\ k_smt_present s = smt_cores core_of (k_online s) /\
  k_cpus_frozen s = Z.of_nat (size z) /\ z ## k_online s.
Proof.
  intros H0 Hr. assert (hp_consistent s z) as []; [|done].
  change (hp_consistent (s, z).1 (s, z).2). change (hp_consistent (s0, ∅ : gset Z).1 (s0, ∅ : gset Z).2) in H0.
  revert H0. induction Hr as [x|[x1 x2] [y1 y2] w Hxy _ IH]; [done|]. intros H0. by eapply IH, hp_step_consistent.
Qed.

(** A refused step miscounts.  When the deadline class needs the CPU,
    [sched_cpu_deactivate] gives EBUSY and puts the CPU back into the active mask,
    but the core it had subtracted from [sched_smt_present] stays subtracted: all
    else is as before, the CPU and its sibling are up, and the count is one too low. *)
Theorem refused_deactivation_miscounts {H : HotplugEnv} {HL : HotplugLaws core_of H} cpu s :
  hp_consistent s ∅ -> cpu ∈ k_online s -> second_thread core_of s cpu = true ->
  cpuhp_tasks_frozen = false ->
  (forall s', dl_cpu_busy s' cpu = true) ->
  sched_cpu_deactivate cpu s = Ok (- EBUSY) (s <| k_smt_present := k_smt_present s - 1 |>) /\
  k_smt_present s - 1 <> smt_cores core_of (k_online s).
Proof.
  intros Hc Hin Hs Hf Hb. split; [|rewrite (hc_smt _ _ Hc); lia].
  destruct (deactivate_run core_of cpu s) as (s1 & -> & E1). rewrite Hs in E1.
  assert (k_smp_initialized s1 = true) as Hi by (subst; apply Hc).
  rewrite (bind_ok get _ s1 s1 s1 eq_refl), Hi. cbn [negb]. unfold cpuset_cpu_inactive. rewrite Hf. cbn [negb].
  rewrite bind_bind, (bind_ok get _ s1 s1 s1 eq_refl), Hb. unfold set_cpu_active, modify, mbind, M_bind, mret, M_ret.
  change (nz (- EBUSY)) with true. cbn beta iota. f_equal. subst s1.
  assert ({[ cpu ]} ∪ (k_active s ∖ {[ cpu ]}) = k_active s) as Ea.
  { symmetry. apply union_difference_singleton_L. by rewrite (hc_active _ _ Hc). }
  change (s <| k_smt_present := k_smt_present s - 1 |> <| k_active := {[ cpu ]} ∪ (k_active s ∖ {[ cpu ]}) |> =
    s <| k_smt_present := k_smt_present s - 1 |>). rewrite Ea. by destruct s.
Qed.
End Histories.
