(* ===== verification/QueueView.v ===== *)
(** * QueueView: where tasks are, and how many a run queue counts

    A second view of the state, next to [Keeps]: the CPU, the queueing state and
    the class of every task, and [nr_running] of every run queue.  [quiet] calls
    leave it alone; enqueue and dequeue change one counter by one.  The classes
    are assumed to count every task they queue, as they do without throttling. *)

From S2P Require Import Prelude Task KernelApi Prio Rq RqClock Uclamp.
From S2P Require Import State Sched SchedFacts ScheduleSpec Setprio Views TaskLock Affinity AffinitySpec.

Definition place (t : task_struct) : Z * Z * sched_class := (task_cpu t, on_rq t, t_sched_class t).
Definition places (s : kstate) : gmap ptr (Z * Z * sched_class) := place <$> k_tasks s.
Definition load (s : kstate) (cpu : Z) : Z := default 0 (nr_running <$> k_rqs s !! cpu).

(** Tasks a class queues and lets go when asked to. *)
Definition queueable (c : sched_class) : Prop := c <> idle_sched_class.

(** The classes' counters; only [enqueue_task] and [dequeue_task] change them. *)
Class QueueLaws (K : SchedClassOps) (E : MigrateEnv) : Prop := {
  ql_enqueue c cpu p fl s d : queueable c -> is_Some (k_rqs s !! cpu) ->
    load (op_enqueue_task c cpu p fl s) d = load s d + (if d =? cpu then 1 else 0);
  ql_dequeue c cpu p fl s d : queueable c -> is_Some (k_rqs s !! cpu) ->
    load (op_dequeue_task c cpu p fl s) d = load s d - (if d =? cpu then 1 else 0);
  ql_pick c cpu s d : load (op_pick_next_task c cpu s).1 d = load s d;
  ql_put_prev c cpu p s d : load (op_put_prev_task c cpu p s) d = load s d;
  ql_set_next c cpu p s d : load (op_set_next_task c cpu p s) d = load s d;
  ql_check_preempt c cpu p fl s d : load (op_check_preempt_curr c cpu p fl s) d = load s d;
  ql_clock_skip cpu s d : load (rq_clock_skip_update cpu s) d = load s d;
  ql_migrate c p cpu s d : load (op_migrate_task_rq c p cpu s) d = load s d;
  ql_rseq_migrate p s d : load (op_rseq_migrate p s) d = load s d;
  ql_set_task_cpu p cpu s d : load (__set_task_cpu p cpu s) d = load s d;
  ql_set_allowed c p m s d : load (op_set_cpus_allowed c p m s) d = load s d;
  ql_cpuset_fallback p s d : load (cpuset_cpus_allowed_fallback p s) d = load s d
}.

(** ** Calls that leave the view alone *)

Lemma places_kframe {U : UclampApi} s s' : kframe false s s' -> places s' = places s.
Proof. apply fmap_kframe. done. Qed.

Definition same_view (s s' : kstate) : Prop := places s' = places s /\ forall d, load s' d = load s d.

Lemma clock_nr_running {F : FlagApi} {C : ClockConfig} c r : nr_running (update_rq_clock c r) = nr_running r.
Proof.
  unfold update_rq_clock, update_rq_clock_task, account_irq, account_steal.
  destruct (has _ _); [done|]. destruct CONFIG_SCHED_DEBUG, (_ <? 0); try done;
    by destruct CONFIG_IRQ_TIME_ACCOUNTING, (CONFIG_PARAVIRT_TIME_ACCOUNTING && paravirt_steal_rq_enabled).
Qed.

Lemma places_put_rq s s' c r r' :
  k_rqs s !! c = Some r -> nr_running r' = nr_running r ->
  k_tasks s' = k_tasks s -> k_rqs s' = <[c := r']> (k_rqs s) -> same_view s s'.
Proof.
  intros Hr He E1 E2. split; [unfold places; by rewrite E1|]. intros d. unfold load. rewrite E2.
  destruct (decide (d = c)) as [->|Hne].
  - rewrite lookup_insert_eq, Hr. cbn. exact He.
  - by rewrite lookup_insert_ne.
Qed.

#[export] Instance same_view_view : View place nr_running same_view.
Proof.
  split; try done.
  - split; [by split|]. intros s1 s2 s3 [H1 L1] [H2 L2]. split; [congruence|]. intros d. by rewrite L2.
  - intros s s' p t t' Ht He E1 E2 _. split; [unfold places; rewrite E1; by eapply fmap_put|]. intros d. unfold load. by rewrite E2.
  - intros s s' c r r' Hr He E1 E2 _. by eapply places_put_rq.
  - intros s s' E1 E2 _. unfold same_view, places, load. by rewrite E1, E2.
  - intros. apply clock_nr_running.
Qed.
#[export] Instance same_view_blind {U : UclampApi} : ClampBlind place nr_running.
Proof. split; by intros ? []. Qed.

Section View.
Context {P : PrioApi} {Y : PolicyApi} {U : UclampApi} {A : AttrFlagApi} {F : FlagApi}
  {C : ClockConfig} {K : SchedClassOps} {KL : SchedClassLaws K} {V : SetprioEnv} {E : MigrateEnv}
  {EL : MigrateLaws E} {QL : QueueLaws K E}.

Lemma hook_view f : (forall s, kframe false s (f s)) -> (forall s d, load (f s) d = load s d) -> forall s, same_view s (f s).
Proof. intros Hf Hl s. split; [by apply places_kframe|apply Hl]. Qed.

(** ** Enqueue and dequeue count *)

Lemma view_at s s' p t : same_view s s' -> k_tasks s !! p = Some t ->
  exists t', k_tasks s' !! p = Some t' /\ place t' = place t.
Proof. intros [H _]. by apply fmap_at. Qed.

(** What [enqueue_task] and [dequeue_task] do to the view. *)
Definition counted (cpu v : Z) (s s' : kstate) : Prop :=
  places s' = places s /\ forall d, load s' d = load s d + (if d =? cpu then v else 0).

Lemma enqueue_counts cpu p fl s a s' t :
  k_tasks s !! p = Some t -> queueable (t_sched_class t) ->
  enqueue_task cpu p fl s = Ok a s' -> counted cpu 1 s s'.
Proof using KL QL.
  intros Ht Hq (x & t1 & V1 & Ht1 & Hr & ->)%(enqueue_task_inv (R := same_view)).
  destruct (view_at _ _ _ _ V1 Ht) as (t1' & Ht1' & Ep). rewrite Ht1 in Ht1'. injection Ht1' as <-.
  unfold place in Ep. injection Ep as _ _ Ec. destruct V1 as [W1 W2]. split.
  - rewrite (places_kframe x); [exact W1|apply law_enqueue].
  - intros d. rewrite ql_enqueue, W2; [done|by rewrite Ec|exact Hr].
Qed.

Lemma dequeue_counts cpu p fl s a s' t :
  k_tasks s !! p = Some t -> queueable (t_sched_class t) ->
  dequeue_task cpu p fl s = Ok a s' -> counted cpu (-1) s s'.
Proof using KL QL.
  intros Ht Hq (x & t1 & V1 & Ht1 & Hr & ->)%(dequeue_task_inv (R := same_view)).
  destruct (view_at _ _ _ _ V1 Ht) as (t1' & Ht1' & Ep). rewrite Ht1 in Ht1'. injection Ht1' as <-.
  unfold place in Ep. injection Ep as _ _ Ec. destruct V1 as [W1 W2]. split.
  - rewrite (places_kframe x); [exact W1|apply law_dequeue].
  - intros d. rewrite ql_dequeue, W2; [by destruct (d =? cpu)|by rewrite Ec|exact Hr].
Qed.

(** ** The calls of a migration *)

Lemma view_put_prev_task cpu p : quiet same_view (put_prev_task cpu p).
Proof using KL QL. apply quiet_put_prev_task. intros c. apply hook_view; [apply law_put_prev|intros; apply ql_put_prev]. Qed.
Lemma view_set_next_task cpu p : quiet same_view (set_next_task cpu p).
Proof using KL QL. apply quiet_set_next_task. intros c. apply hook_view; [apply law_set_next|intros; apply ql_set_next]. Qed.
Lemma view_class_pick c cpu : quiet same_view (class_pick c cpu).
Proof using KL QL.
  intros s a s'. unfold class_pick. pose proof (law_pick c cpu s) as H1. pose proof (ql_pick c cpu s) as H2.
  destruct (op_pick_next_task c cpu s) as [s1 o]. intros [= _ <-]. split; [by apply places_kframe|exact H2].
Qed.
Lemma view_check_preempt_curr cpu p fl : quiet same_view (check_preempt_curr cpu p fl).
Proof using KL QL.
  apply quiet_check_preempt_curr; [intros c|]; apply hook_view.
  - intros. apply law_check_preempt.
  - intros. apply ql_check_preempt.
  - apply law_clock_skip.
  - apply ql_clock_skip.
Qed.

Lemma counted_view cpu v s s1 s' : same_view s s1 -> counted cpu v s1 s' -> counted cpu v s s'.
Proof. intros [P1 L1] [P2 L2]. split; [congruence|]. intros d. by rewrite L2, L1. Qed.
Lemma counted_back cpu v s s1 s' : counted cpu v s s1 -> counted cpu (- v) s1 s' -> same_view s s'.
Proof. intros [P1 L1] [P2 L2]. split; [congruence|]. intros d. rewrite L2, L1. destruct (d =? cpu); lia. Qed.
Lemma counted_task cpu v s s' p t : counted cpu v s s' -> k_tasks s !! p = Some t ->
  exists t', k_tasks s' !! p = Some t' /\ place t' = place t.
Proof. intros [H _]. by apply fmap_at. Qed.

(** An update of the mask, whatever the class does with it. *)
Lemma mask_view p m s s' :
  kframe false (upd_task p (fun t => set_cpus_allowed_common t m) s) s' -> (forall d, load s' d = load s d) ->
  same_view s s'.
Proof.
  intros H Hl. split; [|exact Hl]. rewrite (places_kframe _ _ H). unfold places. apply map_eq. intros q.
  rewrite !lookup_fmap, upd_task_lookup. case_decide; [|done]. by destruct (k_tasks s !! q).
Qed.

Lemma do_set_cpus_allowed_view p m s a s' t :
  k_tasks s !! p = Some t -> queueable (t_sched_class t) -> do_set_cpus_allowed p m s = Ok a s' -> same_view s s'.
Proof using KL EL QL.
  intros Ht Hq. unfold do_set_cpus_allowed. intros (t0 & ? & [-> Ht0]%task_of_inv & H)%bind_inv.
  rewrite Ht in Ht0. injection Ht0 as <-. cbv zeta in H. apply bind_inv in H as (running & ? & E0 & H).
  unfold task_current in E0. apply bind_inv in E0 as (r & ? & [-> _]%rq_of_inv & [= _ <-]).
  apply bind_inv in H as ([] & s1 & E1 & H). apply bind_inv in H as ([] & s2 & E2%(quiet_when _ _ (view_put_prev_task _ _)) & H).
  apply bind_inv in H as (t2 & ? & [-> Ht2]%task_of_inv & H). apply bind_inv in H as ([] & s3 & [= <-] & H).
  apply bind_inv in H as ([] & s4 & E4 & H%(quiet_when _ _ (view_set_next_task _ _))).
  assert (same_view s2 (op_set_cpus_allowed (t_sched_class t2) p m s2)) as E3.
  { apply (mask_view p m); [apply law_set_allowed; by exists t2|intros; apply ql_set_allowed]. }
  destruct (task_on_rq_queued t); cbn [when] in E1, E4.
  - apply (dequeue_counts _ _ _ _ _ _ _ Ht Hq) in E1 as C1. pose proof (transitivity E2 E3) as E23.
    destruct (counted_task _ _ _ _ _ _ C1 Ht) as (t1 & Ht1 & P1). destruct (view_at _ _ _ _ E23 Ht1) as (t3 & Ht3 & P3).
    apply (enqueue_counts _ _ _ _ _ _ _ Ht3) in E4 as C4.
    2: { rewrite P1 in P3. unfold place in P3. injection P3 as _ _ ->. exact Hq. }
    etransitivity; [|exact H]. eapply counted_back; [exact C1|]. by eapply counted_view.
  - injection E1 as <-. injection E4 as <-. etransitivity; [|exact H]. by transitivity s2.
Qed.

Lemma queueable_view s s' p t : same_view s s' -> k_tasks s !! p = Some t -> queueable (t_sched_class t) ->
  exists t', k_tasks s' !! p = Some t' /\ queueable (t_sched_class t').
Proof.
  intros Hv Ht Hq. destruct (view_at _ _ _ _ Hv Ht) as (t' & Ht' & Hp). exists t'. split; [done|].
  unfold place in Hp. by injection Hp as _ _ ->.
Qed.

Lemma fallback_loop_view fuel st p s c s' t :
  k_tasks s !! p = Some t -> queueable (t_sched_class t) -> fallback_loop fuel st p s = Ok c s' -> same_view s s'.
Proof using KL EL QL.
  revert st s t. induction fuel as [|fuel IH]; intros st s t Ht Hq; [done|]. cbn [fallback_loop].
  intros (? & ? & [= <- <-] & H)%bind_inv. apply bind_inv in H as (t0 & ? & [-> Ht0]%task_of_inv & H).
  destruct (first_allowed s t0); [by injection H as _ <-|].
  assert (forall st' s1, same_view s s1 -> fallback_loop fuel st' p s1 = Ok c s' -> same_view s s') as Hgo.
  { intros st' s1 Hv E1. destruct (queueable_view _ _ _ _ Hv Ht Hq) as (t1 & Ht1 & Hq1).
    etransitivity; [exact Hv|]. by eapply IH. }
  assert (forall m st', (do_set_cpus_allowed p m;; fallback_loop fuel st' p) s = Ok c s' -> same_view s s') as Hdo.
  { intros m st' (? & s1 & E1 & E2)%bind_inv. eapply Hgo; [exact (do_set_cpus_allowed_view _ _ _ _ _ _ Ht Hq E1)|exact E2]. }
  destruct st; [|by eapply Hdo|done]. destruct CONFIG_CPUSETS; [|by eapply Hdo].
  apply bind_inv in H as ([] & s1 & [= <-] & H). eapply Hgo; [|exact H].
  destruct (law_cpuset_fallback p s) as [m Hm]; [by exists t|]. apply (mask_view p m); [exact Hm|intros; apply ql_cpuset_fallback].
Qed.

Lemma select_fallback_view fuel cpu p s c s' t :
  k_tasks s !! p = Some t -> queueable (t_sched_class t) -> select_fallback_rq fuel cpu p s = Ok c s' -> same_view s s'.
Proof using KL EL QL.
  intros Ht Hq. unfold select_fallback_rq. intros (? & ? & [= <- <-] & H)%bind_inv.
  apply bind_inv in H as (t0 & ? & [-> Ht0]%task_of_inv & H). cbv zeta in H.
  destruct (if cpu_to_node cpu =? -1 then _ else _); [by injection H as _ <-|].
  exact (fallback_loop_view _ _ _ _ _ _ _ Ht Hq H).
Qed.

(** A task that changes its place. *)
Definition moved (p : ptr) (x : Z * Z * sched_class) (s s' : kstate) : Prop :=
  places s' = <[p := x]> (places s) /\ forall d, load s' d = load s d.

Lemma moved_task p f s t :
  k_tasks s !! p = Some t -> moved p (place (f t)) s (upd_task p f s).
Proof.
  intros Ht. split; [|done]. unfold places, upd_task. rsimpl. rewrite <- (insert_alter (k_tasks s) p t f Ht).
  apply fmap_insert.
Qed.
Lemma moved_at p x s s' : moved p x s s' -> exists t, k_tasks s' !! p = Some t /\ place t = x.
Proof.
  intros [H _]. apply (f_equal (lookup p)) in H. unfold places in H. rewrite lookup_fmap, lookup_insert_eq in H.
  destruct (k_tasks s' !! p) as [t|]; [|done]. exists t. split; [done|]. by apply (inj Some) in H.
Qed.

Lemma set_task_cpu_moves p cpu s a s' t :
  k_tasks s !! p = Some t -> set_task_cpu p cpu s = Ok a s' -> moved p (cpu, on_rq t, t_sched_class t) s s'.
Proof using KL EL QL.
  intros Ht. unfold set_task_cpu. intros (t0 & ? & [-> Ht0]%task_of_inv & H)%bind_inv.
  rewrite Ht in Ht0. injection Ht0 as <-. apply bind_inv in H as ([] & s1 & E1 & [= _ <-]).
  assert (same_view s s1) as V1.
  { revert E1. apply quiet_when, quiet_bind; [apply quiet_modify, hook_view; [intros; apply law_migrate|intros; apply ql_migrate]|].
    intros _. apply quiet_bind; [by apply quiet_set_task|intros _].
    apply quiet_modify, hook_view; [intros; apply law_rseq_migrate|intros; apply ql_rseq_migrate]. }
  destruct (view_at _ _ _ _ V1 Ht) as (t1 & Ht1 & P1).
  destruct (moved_task p (fun t => t <| t_cpu := cpu |>) s1 t1 Ht1) as [M1 M2].
  pose proof (law_set_task_cpu p cpu s1 ltac:(by exists t1)) as H2. destruct V1 as [V1 V2]. split.
  - rewrite (places_kframe _ _ H2), M1, V1. f_equal. unfold place in *. injection P1 as _ E1' E2'.
    change (on_rq (t1 <| t_cpu := cpu |>)) with (on_rq t1).
    change (t_sched_class (t1 <| t_cpu := cpu |>)) with (t_sched_class t1). by rewrite E1', E2'.
  - intros d. by rewrite ql_set_task_cpu, V2.
Qed.

(** Moving a queued task: one counter down, another up, the task in its new place. *)
Lemma move_queued_task_view cpu p new s c s' t :
  k_tasks s !! p = Some t -> queueable (t_sched_class t) -> move_queued_task cpu p new s = Ok c s' ->
  places s' = <[p := (new, TASK_ON_RQ_QUEUED, t_sched_class t)]> (places s) /\
  forall d, load s' d = load s d - (if d =? cpu then 1 else 0) + (if d =? new then 1 else 0).
Proof using KL EL QL.
  intros Ht Hq. unfold move_queued_task. intros ([] & s1 & E1 & H)%bind_inv.
  unfold set_task in E1. apply bind_inv in E1 as (t0 & ? & [-> Ht0]%task_of_inv & [= <-]).
  rewrite Ht in Ht0. injection Ht0 as <-. set (t1 := t <| on_rq := TASK_ON_RQ_MIGRATING |>) in *.
  set (s1 := s <| k_tasks := <[p := t1]> (k_tasks s) |>) in *.
  assert (k_tasks s1 !! p = Some t1) as Ht1 by apply (lookup_insert_eq (k_tasks s)).
  assert (places s1 = <[p := place t1]> (places s)) as P1 by apply fmap_insert.
  apply bind_inv in H as ([] & s2 & E2 & H). apply (dequeue_counts _ _ _ _ _ _ t1 Ht1 Hq) in E2 as C2.
  destruct (counted_task _ _ _ _ _ _ C2 Ht1) as (t2 & Ht2 & Pt2).
  apply bind_inv in H as ([] & s3 & E3 & H). apply (set_task_cpu_moves _ _ _ _ _ t2 Ht2) in E3 as [P3 L3].
  apply bind_inv in H as ([] & s4 & E4%quiet_unlock_rq & H). apply bind_inv in H as ([] & s5 & E5%quiet_lock_rq & H).
  pose proof (transitivity E4 E5) as [P5 L5].
  apply bind_inv in H as (t5 & ? & [-> Ht5]%task_of_inv & H). destruct (negb _); [done|].
  assert (place t5 = (new, on_rq t2, t_sched_class t2)) as Pt5.
  { apply (f_equal (lookup p)) in P5. rewrite P3, lookup_insert_eq in P5. unfold places in P5.
    rewrite lookup_fmap, Ht5 in P5. by apply (inj Some) in P5. }
  unfold place in Pt2, Pt5. injection Pt2 as _ _ Ec2. injection Pt5 as Ecpu5 _ Ec5.
  change (t_sched_class t1) with (t_sched_class t) in Ec2.
  apply bind_inv in H as ([] & s6 & E6 & H). apply (enqueue_counts _ _ _ _ _ _ t5 Ht5) in E6 as C6; [|by rewrite Ec5, Ec2].
  destruct (counted_task _ _ _ _ _ _ C6 Ht5) as (t6 & Ht6 & Pt6).
  apply bind_inv in H as ([] & s7 & E7 & H). unfold set_task in E7.
  apply bind_inv in E7 as (t0 & ? & [-> Ht0]%task_of_inv & [= <-]). rewrite Ht6 in Ht0. injection Ht0 as <-.
  apply bind_inv in H as ([] & s8 & E8%view_check_preempt_curr & [= _ <-]). destruct E8 as [P8 L8]. destruct C2 as [P2 L2], C6 as [P6 L6].
  split.
  - rewrite P8. transitivity (<[p := place (t6 <| on_rq := TASK_ON_RQ_QUEUED |>)]> (places s6)); [apply fmap_insert|].
    rewrite P6, P5, P3, P2, P1, !insert_insert_eq. f_equal. unfold place in *. injection Pt6 as Ecpu6 _ Ec6.
    change (task_cpu (t6 <| on_rq := TASK_ON_RQ_QUEUED |>)) with (task_cpu t6).
    change (t_sched_class (t6 <| on_rq := TASK_ON_RQ_QUEUED |>)) with (t_sched_class t6).
    by rewrite Ecpu6, Ecpu5, Ec6, Ec5, Ec2.
  - intros d. rewrite L8. transitivity (load s6 d); [done|]. rewrite L6, L5, L3, L2. change (load s1 d) with (load s d).
    destruct (d =? cpu), (d =? new); lia.
Qed.
End View.
