(* ===== verification/Evacuate.v ===== *)
(** * Evacuate: every task leaves a CPU that dies

    [migrate_tasks] ends, and when it does the tasks that waited on the dead CPU
    wait on CPUs that are up: the counters of [QueueView] are the measure of the
    loop, the tracking of [AffinitySpec] carries the locks and the masks. *)

From S2P Require Import Prelude Task KernelApi Prio Rq RqClock Uclamp RemoteTick.
From S2P Require Import State Sched SchedFacts ScheduleSpec Setprio TaskLock Affinity AffinitySpec Fork.
From S2P Require Import Views Hotplug QueueView.

Section Evacuate.
Context {P : PrioApi} {Y : PolicyApi} {U : UclampApi} {A : AttrFlagApi} {F : FlagApi} {FL : FlagLaws F}
  {C : ClockConfig} {K : SchedClassOps} {KL : SchedClassLaws K} {V : SetprioEnv} {E : MigrateEnv}
  {EL : MigrateLaws E} {QL : QueueLaws K E}.

(** ** Waiting tasks *)

(** The task waits in the queue of a deadline, real-time or fair class. *)
Definition waits (cpu : Z) (x : Z * Z * sched_class) : Prop :=
  x.1.1 = cpu /\ x.1.2 = TASK_ON_RQ_QUEUED /\ x.2 ∈ [dl_sched_class; rt_sched_class; fair_sched_class].
#[export] Instance waits_dec cpu x : Decision (waits cpu x).
Proof. unfold waits. apply _. Defined.

Definition waiting (cpu : Z) (m : gmap ptr (Z * Z * sched_class)) : gmap ptr (Z * Z * sched_class) :=
  filter (fun kv => waits cpu kv.2) m.

(** A class picks a task that waits on the CPU, when one of its own does that runs
    nowhere else; without a stop task the stop class picks none. *)
Class PickLaws : Prop := {
  pl_stop cpu s r : k_rqs s !! cpu = Some r -> stop r = None -> (op_pick_next_task stop_sched_class cpu s).2 = None;
  pl_waits c cpu s p : c ∈ [dl_sched_class; rt_sched_class; fair_sched_class] ->
    (op_pick_next_task c cpu s).2 = Some p -> exists x, places s !! p = Some x /\ waits cpu x;
  pl_some cpu s p x : places s !! p = Some x -> waits cpu x -> pickable s cpu p ->
    (op_pick_next_task x.2 cpu s).2 <> None
}.
Context {PL : PickLaws}.

(** ** Picking *)

Definition picked (cpu : Z) (s : kstate) (p : ptr) (s' : kstate) : Prop :=
  kframe false s s' /\ same_view s s' /\ exists x, places s' !! p = Some x /\ waits cpu x.

Lemma place_task s p x : places s !! p = Some x -> exists t, k_tasks s !! p = Some t /\ place t = x.
Proof. unfold places. rewrite lookup_fmap. intros (t & Ht & ->)%fmap_Some. by exists t. Qed.

Lemma wp_migrate_pick l cpu s r p x :
  l ⊆ [stop_sched_class; dl_sched_class; rt_sched_class; fair_sched_class] ->
  k_rqs s !! cpu = Some r -> stop r = None -> places s !! p = Some x -> waits cpu x -> pickable s cpu p ->
  x.2 ∈ l -> wp (pick_migrate_loop (l ++ [idle_sched_class]) cpu) (picked cpu s) s.
Proof using KL QL PL.
  revert s r. induction l as [|c l IH]; intros s r Hl Hr Hst Hp Hw Hpk Hin; [by apply elem_of_nil in Hin|].
  cbn [app pick_migrate_loop]. pose proof (law_pick c cpu s) as Hf. pose proof (ql_pick c cpu s) as Hld.
  assert (same_view s (op_pick_next_task c cpu s).1) as Hv by (split; [by apply places_kframe|exact Hld]).
  apply wp_bind. unfold wp at 1, class_pick. destruct (op_pick_next_task c cpu s) as [s1 o] eqn:Epick.
  cbn [fst] in Hf, Hv. destruct o as [q|].
  - assert (c ∈ [dl_sched_class; rt_sched_class; fair_sched_class]) as Hc.
    { assert (c ∈ [stop_sched_class; dl_sched_class; rt_sched_class; fair_sched_class]) as Hc by (apply Hl; by left).
      apply elem_of_cons in Hc as [->|Hc]; [|exact Hc]. pose proof (pl_stop cpu s r Hr Hst) as Hn. by rewrite Epick in Hn. }
    destruct (pl_waits c cpu s q Hc) as (y & Hy & Hyw); [by rewrite Epick|].
    assert (places s1 !! q = Some y) as Hy1 by (by rewrite (proj1 Hv)).
    destruct (place_task _ _ _ Hy1) as (t & Ht & _).
    assert (wp (put_prev_task cpu q) (fun _ s2 => kframe false s1 s2 /\ same_view s1 s2) s1) as Hput.
    { apply wp_and_ok; [apply wp_put_prev_task; by exists t|]. intros a s2 E2. by eapply view_put_prev_task. }
    apply wp_bind. eapply wp_mono; [exact Hput|]. cbn beta. intros _ s2 [H2 V2]. apply wp_ret.
    split; [by etransitivity|]. split; [by etransitivity|]. exists y. by rewrite (proj1 V2).
  - destruct (kframe_rq _ _ _ _ _ Hf Hr) as (r1 & Hr1 & Er).
    assert (wp (pick_migrate_loop (l ++ [idle_sched_class]) cpu) (picked cpu s1) s1) as Hw1.
    { apply (IH s1 r1); [|exact Hr1| | |exact Hw| |].
      - intros d Hd. apply Hl. by right.
      - by rewrite (erase_rq_field stop _ _ ltac:(done) Er).
      - by rewrite (proj1 Hv).
      - by eapply pickable_frame.
      - apply elem_of_cons in Hin as [<-|Hin]; [|exact Hin]. exfalso. by apply (pl_some cpu s p x Hp Hw Hpk); rewrite Epick. }
    eapply wp_mono; [exact Hw1|]. cbn beta. intros q s2 (F2 & V2 & W2).
    split; [by etransitivity|]. split; [by etransitivity|exact W2].
Qed.

Lemma wp_pick_migrate_task cpu s r p x :
  k_rqs s !! cpu = Some r -> stop r = None -> places s !! p = Some x -> waits cpu x -> pickable s cpu p ->
  wp (__pick_migrate_task cpu) (picked cpu s) s.
Proof using KL QL PL.
  intros Hr Hst Hp Hw Hpk.
  apply (wp_migrate_pick [stop_sched_class; dl_sched_class; rt_sched_class; fair_sched_class] cpu s r p x); try done.
  right. apply Hw.
Qed.

(** ** The machine while it is evacuated *)

Record evacuate_pre (g : kstate) (dead : Z) (r : rq) : Prop := {
  ep_rq : k_rqs g !! dead = Some r;
  ep_lock : rq_lock r = false;
  ep_down : dead ∉ k_online g;
  ep_sub : k_active g ⊆ k_online g;
  ep_some : exists c, c ∈ k_active g /\ c ∈ k_possible g /\ 0 <= c < nr_cpu_ids;
  ep_free c : c ∈ k_online g -> cpu_free g c;
  ep_pi p t : k_tasks g !! p = Some t -> pi_lock t = false;
  ep_clamps : clamps_in_range g
}.

(** Only affinity masks have changed. *)
Definition remasked : kstate -> kstate -> Prop := rtc (fun g g' => exists p m, g' = mask_changed p m g).

Lemma evacuate_pre_mask g dead r p m : evacuate_pre g dead r -> evacuate_pre (mask_changed p m g) dead r.
Proof.
  intros [H1 H2 H3 H4 H5 H6 H7 H8]. split; try done.
  - intros c Hc. destruct (H6 c Hc) as (rc & Hrc & Hl & Hcur). exists rc. split; [exact Hrc|]. split; [exact Hl|].
    by apply upd_task_some.
  - intros q t. unfold mask_changed. rewrite upd_task_lookup. case_decide; [|apply H7].
    intros Hq. destruct (k_tasks g !! q) as [t0|] eqn:Ht0; [|done].
    injection Hq as <-. exact (H7 q t0 Ht0).
  - by apply mask_changed_clamps.
Qed.

Lemma wp_track_lock_pi g s p t (Q : unit -> kstate -> Prop) :
  tracks g s -> k_tasks g !! p = Some t -> pi_lock t = false ->
  (forall s', tracks (locked_pi p g) s' -> Q tt s') -> wp (lock_pi p) Q s.
Proof.
  intros H Hp Hl HQ. destruct (tracks_task _ _ _ _ H Hp) as (t' & Ht' & Et).
  eapply wp_lock_pi; [exact Ht'|by rewrite (erase_field true pi_lock _ _ ltac:(kept_field) Et)|]. apply HQ.
  rewrite (insert_alter (k_tasks s) p t' (fun t => t <| pi_lock := true |>) Ht'), (tracks_preempt _ _ H).
  change (s <| k_preempt := ?x |> <| k_tasks := ?y |>) with (s <| k_tasks := y |> <| k_preempt := x |>).
  unfold locked_pi. apply (tracks_state (fun x => x <| k_preempt := k_preempt g + 1 |>)); [done|done|].
  apply (tracks_upd_task p (fun t => t <| pi_lock := true |>)); [commutes|done].
Qed.

(** A quiet call in a tracked sequence. *)
Lemma wp_quiet {X} (m : M X) (Q : X -> kstate -> Prop) s :
  quiet same_view m -> wp m Q s -> wp m (fun a s' => Q a s' /\ same_view s s') s.
Proof. intros Hm Hw. apply wp_and_ok; [exact Hw|]. intros a s' E1. by eapply Hm. Qed.

Lemma tracks_masks g s :
  tracks g s -> k_possible s = k_possible g /\ k_active s = k_active g /\ k_online s = k_online g.
Proof.
  intros [H _]. unfold core_same in H.
  split; [exact (f_equal k_possible H)|split; [exact (f_equal k_active H)|exact (f_equal k_online H)]].
Qed.

Lemma tracks_task_back g s p t :
  tracks g s -> k_tasks s !! p = Some t -> exists t', k_tasks g !! p = Some t' /\ erase_task true t = erase_task true t'.
Proof.
  intros [H _] Ht. assert (core_same true s g) as H' by (symmetry; exact H).
  destruct (core_same_lookup _ _ _ H') as [H1 _]. destruct (H1 p t Ht) as (t' & Ht' & Et). by exists t'.
Qed.

(** The exchange of the locks between the pick and the search for a CPU. *)
Lemma wp_relock g s dead r p t (Q : unit -> kstate -> Prop) (k : M unit) :
  tracks (locked_g dead g) s -> evacuate_pre g dead r -> k_tasks g !! p = Some t ->
  (forall s', tracks (locked_g dead (locked_pi p g)) s' -> same_view s s' -> wp k Q s') ->
  wp (unlock_rq dead;; lock_pi p;; lock_rq dead;; k) Q s.
Proof.
  intros H Hpre Ht Hk. pose proof (ep_rq _ _ _ Hpre) as Hr. pose proof (ep_lock _ _ _ Hpre) as Hl.
  apply wp_bind. eapply wp_mono.
  { apply wp_quiet; [apply quiet_unlock_rq|].
    apply (wp_track_unlock_rq g s dead r (fun _ s' => tracks g s')); [exact H|exact Hr|exact Hl|done]. }
  cbn beta. intros _ s1 [H1 V1]. apply wp_bind. eapply wp_mono.
  { apply wp_quiet; [apply quiet_lock_pi|].
    apply (wp_track_lock_pi g s1 p t (fun _ s' => tracks (locked_pi p g) s')); [exact H1|exact Ht|by eapply ep_pi|done]. }
  cbn beta. intros _ s2 [H2 V2]. apply wp_bind. eapply wp_mono.
  { apply wp_quiet; [apply quiet_lock_rq|].
    apply (wp_track_lock (locked_pi p g) s2 dead r (fun _ s' => tracks (locked_g dead (locked_pi p g)) s'));
      [exact H2|exact Hr|exact Hl|done]. }
  cbn beta. intros _ s3 [H3 V3]. apply Hk; [exact H3|]. transitivity s1; [exact V1|]. by transitivity s2.
Qed.

(** The search for a CPU, both locks held. *)
Lemma wp_find_cpu g s dead r p t rounds (Q : Z -> kstate -> Prop) :
  tracks (locked_g dead (locked_pi p g)) s -> evacuate_pre g dead r ->
  k_tasks s !! p = Some t -> task_cpu t = dead -> queueable (t_sched_class t) ->
  (forall d s' g' t', (g' = g \/ exists m, g' = mask_changed p m g) ->
     tracks (locked_g dead (locked_pi p g')) s' -> same_view s s' ->
     k_tasks s' !! p = Some t' -> is_cpu_allowed s' t' d = true -> Q d s') ->
  wp (select_fallback_rq (S (S (S rounds))) dead p) Q s.
Proof using KL EL QL.
  intros H Hpre Ht Hcpu Hq HQ. destruct (tracks_masks _ _ H) as (Ep & Ea & Eo).
  destruct (ep_some _ _ _ Hpre) as (c & Hca & Hcp & Hcb).
  assert (fallback_pre s p t c) as Hfb.
  { split; [exact Ht| |by rewrite Ea|by rewrite Ep|exact Hcb| |apply H].
    - rewrite Hcpu. eapply tracks_rq_some; [exact H|]. apply upd_rq_some. exists r. apply Hpre.
    - rewrite Ea, Eo. apply Hpre. }
  eapply wp_mono.
  { apply wp_and_ok; [by apply (select_fallback_rq_correct s p t dead c rounds)|].
    intros d s' E1. exact (select_fallback_view _ _ _ _ _ _ _ Ht Hq E1). }
  cbn beta. intros d s' [[Hs (t' & Ht' & Hok)] Hv]. destruct Hs as [->|[m Hm]].
  - by apply (HQ d s g t'); [left|..].
  - apply (HQ d s' (mask_changed p m g) t'); [right; by exists m| |done..].
    assert (task_commutes (fun t => set_cpus_allowed_common t m)) as Hcm by commutes.
    apply (tracks_upd_task p _ _ _ Hcm) in H. rewrite locked_g_upd_task, locked_pi_upd_task in H by done.
    by eapply tracks_frame.
Qed.

(** The locks are exchanged for the next round. *)
Lemma wp_exchange g s dead r p t d rd (Q : unit -> kstate -> Prop) :
  tracks (locked_g d (locked_pi p g)) s -> d <> dead ->
  k_rqs g !! d = Some rd -> rq_lock rd = false -> k_rqs g !! dead = Some r -> rq_lock r = false ->
  k_tasks g !! p = Some t -> pi_lock t = false ->
  (forall s', tracks (locked_g dead g) s' -> same_view s s' -> Q tt s') ->
  wp (when (negb (d =? dead)) (unlock_rq d;; lock_rq dead);; unlock_pi p) Q s.
Proof using.
  intros H Hne Hrd Hld Hr Hl Ht Hpi HQ. rewrite (proj2 (Z.eqb_neq _ _) Hne). cbn [negb when].
  apply wp_bind, wp_bind. eapply wp_mono.
  { apply wp_quiet; [apply quiet_unlock_rq|].
    apply (wp_track_unlock_rq (locked_pi p g) s d rd (fun _ s' => tracks (locked_pi p g) s')); [exact H|exact Hrd|exact Hld|done]. }
  cbn beta. intros _ s1 [H1 V1]. eapply wp_mono.
  { apply wp_quiet; [apply quiet_lock_rq|].
    apply (wp_track_lock (locked_pi p g) s1 dead r (fun _ s' => tracks (locked_g dead (locked_pi p g)) s'));
      [exact H1|exact Hr|exact Hl|done]. }
  cbn beta. intros _ s2 [H2 V2]. change (locked_g dead (locked_pi p g)) with (locked_pi p (locked_g dead g)) in H2.
  eapply wp_mono.
  { apply wp_quiet; [apply quiet_unlock_pi|].
    apply (wp_track_unlock_pi (locked_g dead g) s2 p t (fun _ s' => tracks (locked_g dead g) s'));
      [exact H2|exact Ht|exact Hpi|done]. }
  cbn beta. intros [] s3 [H3 V3]. apply HQ; [exact H3|]. exact (transitivity V1 (transitivity V2 V3)).
Qed.

(** The task goes. *)
Lemma wp_push g s dead r p t d (Q : unit -> kstate -> Prop) :
  tracks (locked_g dead (locked_pi p g)) s -> evacuate_pre g dead r ->
  k_tasks s !! p = Some t -> waits dead (place t) -> is_cpu_allowed s t d = true ->
  (forall s', tracks (locked_g dead g) s' -> d ∈ k_online g ->
     places s' = <[p := (d, TASK_ON_RQ_QUEUED, t_sched_class t)]> (places s) ->
     load s' dead = load s dead - 1 -> Q tt s') ->
  wp (rq ← __migrate_task dead p d; when (negb (rq =? dead)) (unlock_rq rq;; lock_rq dead);; unlock_pi p) Q s.
Proof using FL KL EL QL.
  intros H Hpre Ht Hw Hok HQ. destruct (tracks_masks _ _ H) as (Ep & Ea & Eo).
  pose proof (ep_rq _ _ _ Hpre) as Hr. pose proof (ep_lock _ _ _ Hpre) as Hl.
  assert (d ∈ k_online g) as Hd.
  { change (k_online g) with (k_online (locked_g dead (locked_pi p g))). rewrite <- Eo.
    eapply allowed_up; [exact Hok|]. rewrite Ea, Eo. apply Hpre. }
  assert (d <> dead) as Hne by (intros ->; by apply (ep_down _ _ _ Hpre)).
  destruct (ep_free _ _ _ Hpre d Hd) as (rd & Hrd & Hld & Hcd).
  destruct (tracks_task_back _ _ _ _ H Ht) as (tg & Htg & _).
  assert (exists t0, k_tasks g !! p = Some t0 /\ tg = t0 <| pi_lock := true |>) as (t0 & Ht0 & ->).
  { change (k_tasks (locked_g dead (locked_pi p g))) with (k_tasks (upd_task p (fun t => t <| pi_lock := true |>) g)) in Htg.
    rewrite upd_task_lookup, decide_True in Htg by done. destruct (k_tasks g !! p) as [t0|]; [|done].
    exists t0. split; [done|]. by injection Htg as <-. }
  unfold __migrate_task. apply wp_bind, wp_bind, wp_get. apply wp_bind. eapply wp_task_of; [exact Ht|].
  rewrite Hok. cbn [negb]. apply wp_bind. eapply wp_mono.
  { apply wp_quiet; [apply quiet_update_clock|]. apply wp_update_clock. eapply tracks_rq_some; [exact H|].
    apply (upd_rq_some dead (fun r => r <| rq_lock := true |>) g). by exists r. }
  cbn beta. intros _ s1 [F1 V1]. pose proof (tracks_frame _ _ _ _ F1 H) as H1.
  destruct (view_at _ _ _ _ V1 Ht) as (t1 & Ht1 & P1).
  assert (queueable (t_sched_class t1) /\ t_sched_class t1 = t_sched_class t) as [Hq1 Ec1].
  { unfold place in P1. injection P1 as _ _ E3. split; [|exact E3]. rewrite E3. destruct Hw as (_ & _ & Hc).
    cbn in Hc. intros E4. rewrite E4 in Hc. by repeat (apply elem_of_cons in Hc as [Hc|Hc]; [done|]); apply elem_of_nil in Hc. }
  eapply wp_mono.
  { apply wp_and_ok; [|intros c s' E1; exact (move_queued_task_view _ _ _ _ _ _ _ Ht1 Hq1 E1)].
    apply (wp_move_queued_task (locked_pi p g) s1 dead d p (t0 <| pi_lock := true |>) r); [exact H1|exact Htg| |exact Hr|exact Hl|].
    - destruct (tracks_on_rq _ _ _ _ H1 Htg) as (t1' & Ht1' & En). rewrite Ht1 in Ht1'. injection Ht1' as <-. rewrite <- En.
      unfold place in P1. injection P1 as _ E4 _. destruct Hw as (_ & Ew & _). cbn in Ew.
      by rewrite E4, Ew, (proj1 on_rq_values).
    - exists rd. split; [exact Hrd|]. split; [exact Hld|]. by apply upd_task_some. }
  cbn beta. intros c s2 [(-> & H2 & _) [P2 L2]].
  eapply (wp_exchange g s2 dead r p t0 d rd); [exact H2|exact Hne|exact Hrd|exact Hld|exact Hr|exact Hl|exact Ht0|by eapply ep_pi|].
  intros s5 H5 [P6 L6]. destruct V1 as [Pv1 Lv1].
  apply HQ; [exact H5|exact Hd| |].
  - by rewrite P6, P2, Ec1, Pv1.
  - rewrite L6, L2, Lv1, Z.eqb_refl, (proj2 (Z.eqb_neq _ _)) by (by intros ->). lia.
Qed.

(** ** One round, and the loop *)

(** Where tasks went: those that waited on the dead CPU may wait on one that is up. *)
Definition evacuated (dead : Z) (online : gset Z) (m m' : gmap ptr (Z * Z * sched_class)) : Prop :=
  forall q, m' !! q = m !! q \/
    exists x d, m !! q = Some x /\ waits dead x /\ d ∈ online /\ m' !! q = Some (d, TASK_ON_RQ_QUEUED, x.2).

Lemma evacuated_step dead online m m' p x d :
  evacuated dead online m m' -> m' !! p = Some x -> waits dead x -> d ∈ online -> dead ∉ online ->
  evacuated dead online m (<[p := (d, TASK_ON_RQ_QUEUED, x.2)]> m').
Proof.
  intros Hm Hp Hw Hd Hdead q. destruct (decide (q = p)) as [->|Hne]; [|rewrite lookup_insert_ne by done; apply Hm].
  rewrite lookup_insert_eq. right. destruct (Hm p) as [E1|(y & e & _ & _ & He & E1)].
  - exists x, d. by rewrite <- E1.
  - rewrite Hp in E1. injection E1 as ->. destruct Hw as (Hw & _). cbn in Hw. by subst e.
Qed.

Lemma waiting_push cpu m p x d :
  m !! p = Some x -> waits cpu x -> d <> cpu ->
  size (waiting cpu m) = S (size (waiting cpu (<[p := (d, TASK_ON_RQ_QUEUED, x.2)]> m))).
Proof.
  intros Hp Hw Hne. unfold waiting. rewrite map_filter_insert_False, map_filter_delete by (by intros [? _]).
  rewrite map_size_delete_Some by (exists x; by apply map_lookup_filter_Some).
  assert (size (filter (fun kv : ptr * (Z * Z * sched_class) => waits cpu kv.2) m) <> 0)%nat; [|lia].
  apply (map_size_ne_0_lookup_2 _ p). exists x. by apply map_lookup_filter_Some.
Qed.

(** The loop invariant, [n] tasks still waiting. *)
Record leaving (dead : Z) (r : rq) (s0 : kstate) (n : nat) (g0 g s : kstate) : Prop := {
  lv_pre : evacuate_pre g dead r;
  lv_stop : stop r = None;
  lv_tracks : tracks (locked_g dead g) s;
  lv_masks : remasked g0 g;
  lv_size : size (waiting dead (places s)) = n;
  lv_load : load s dead = Z.of_nat n + 1;
  lv_idle p x t : places s0 !! p = Some x -> waits dead x -> k_tasks g0 !! p = Some t -> on_cpu t = 0;
  lv_places : evacuated dead (k_online g0) (places s0) (places s)
}.

Lemma remasked_online g g' : remasked g g' -> k_online g' = k_online g.
Proof. induction 1 as [|x y z (p & m & ->) _ IH]; [done|exact IH]. Qed.

Lemma remasked_on_cpu g g' p t' :
  remasked g g' -> k_tasks g' !! p = Some t' -> exists t, k_tasks g !! p = Some t /\ on_cpu t' = on_cpu t.
Proof.
  intros H. revert t'. induction H as [|x y z (q & m & ->) _ IH]; intros t' Ht'; [by exists t'|].
  destruct (IH t' Ht') as (t & Ht & ->). unfold mask_changed in Ht. rewrite upd_task_lookup in Ht.
  case_decide; [|by exists t]. destruct (k_tasks x !! p) as [t0|] eqn:Ht0; [|done]. injection Ht as <-. by exists t0.
Qed.

(** A waiting task runs nowhere. *)
Lemma waiting_pickable dead r s0 n g0 g s p x :
  leaving dead r s0 n g0 g s -> places s !! p = Some x -> waits dead x -> pickable s dead p.
Proof.
  intros Hlv Hp Hw. destruct (place_task _ _ _ Hp) as (t & Ht & Pt). exists t. split; [exact Ht|]. split.
  2: { left. pose proof (proj1 (proj2 Hw)) as Hq. rewrite <- Pt in Hq. cbn in Hq. by rewrite Hq, (proj1 on_rq_values). }
  left. destruct (tracks_task_back _ _ _ _ (lv_tracks _ _ _ _ _ _ _ Hlv) Ht) as (tg & Htg & Et).
  rewrite (erase_field true on_cpu _ _ ltac:(kept_field) Et). change (k_tasks (locked_g dead g)) with (k_tasks g) in Htg.
  destruct (remasked_on_cpu _ _ _ _ (lv_masks _ _ _ _ _ _ _ Hlv) Htg) as (t0 & Ht0 & ->).
  apply (lv_idle _ _ _ _ _ _ _ Hlv p x t0); [|exact Hw|exact Ht0].
  destruct (lv_places _ _ _ _ _ _ _ Hlv p) as [E1|(y & d & _ & _ & Hd & E1)]; [by rewrite <- E1|].
  rewrite Hp in E1. injection E1 as ->. destruct Hw as [Hw _]. cbn in Hw. subst d. exfalso.
  apply (ep_down _ _ _ (lv_pre _ _ _ _ _ _ _ Hlv)).
  by rewrite (remasked_online _ _ (lv_masks _ _ _ _ _ _ _ Hlv)).
Qed.

Lemma wp_migrate_one dead r s0 n g0 g s rounds :
  leaving dead r s0 (S n) g0 g s ->
  wp (migrate_one (S (S (S rounds))) dead) (fun _ s' => exists g', leaving dead r s0 n g0 g' s') s.
Proof using FL KL EL QL PL.
  intros Hlv. pose proof Hlv as [Hpre Hst H Hmasks Hsize Hload Hidle Hpl]. unfold migrate_one.
  assert (exists q x, places s !! q = Some x /\ waits dead x) as (q & x & Hq & Hw).
  { destruct (map_size_ne_0_lookup_1 (waiting dead (places s)) ltac:(rewrite Hsize; done)) as (q & x & Hx).
    exists q, x. by apply map_lookup_filter_Some in Hx. }
  assert (k_rqs (locked_g dead g) !! dead = Some (r <| rq_lock := true |>)) as Hrl.
  { change (k_rqs (locked_g dead g)) with (k_rqs (upd_rq dead (fun r => r <| rq_lock := true |>) g)).
    by rewrite upd_rq_lookup, decide_True, (ep_rq _ _ _ Hpre). }
  destruct (tracks_rq _ _ _ _ H Hrl) as (rs & Hrs & Ers).
  apply wp_bind. eapply wp_mono.
  { apply (wp_pick_migrate_task dead s rs q x); [exact Hrs| |exact Hq|exact Hw|].
    - by rewrite (erase_rq_field stop _ _ ltac:(done) Ers).
    - by eapply waiting_pickable. }
  cbn beta. intros p s1 (F1 & V1 & y & Hy & Hyw). pose proof (tracks_frame _ _ _ _ F1 H) as H1.
  destruct (place_task _ _ _ Hy) as (t1 & Ht1 & Pt1).
  destruct (tracks_task_back _ _ _ _ H1 Ht1) as (tg & Htg & _).
  apply (wp_relock g s1 dead r p tg); [exact H1|exact Hpre|exact Htg|]. intros s2 H2 V2.
  destruct (view_at _ _ _ _ V2 Ht1) as (t2 & Ht2 & Pt2). rewrite Pt1 in Pt2.
  assert (waits dead (place t2)) as Hw2 by (by rewrite Pt2).
  apply wp_bind. eapply wp_task_of; [exact Ht2|]. destruct Hw2 as (Hcpu & Honrq & Hcls). cbn in Hcpu, Honrq, Hcls.
  unfold task_on_rq_queued. rewrite Hcpu, Honrq, !Z.eqb_refl. cbn [negb orb].
  apply wp_bind. eapply (wp_find_cpu g s2 dead r p t2); [exact H2|exact Hpre|exact Ht2|exact Hcpu| |].
  { intros E4. rewrite E4 in Hcls. by repeat (apply elem_of_cons in Hcls as [Hcls|Hcls]; [done|]); apply elem_of_nil in Hcls. }
  intros d s3 g' t3 Hg' H3 V3 Ht3 Hok.
  assert (evacuate_pre g' dead r) as Hpre' by (destruct Hg' as [->|[m ->]]; [exact Hpre|by apply evacuate_pre_mask]).
  assert (remasked g0 g') as Hmasks'.
  { destruct Hg' as [->|[m ->]]; [exact Hmasks|]. eapply rtc_r; [exact Hmasks|]. by exists p, m. }
  destruct (view_at _ _ _ _ V3 Ht2) as (t3' & Ht3' & Pt3). rewrite Ht3 in Ht3'. injection Ht3' as <-. rewrite Pt2 in Pt3.
  eapply (wp_push g' s3 dead r p t3 d); [exact H3|exact Hpre'|exact Ht3|by rewrite Pt3|exact Hok|].
  intros s4 H4 Hd P4 L4. exists g'. pose proof (transitivity V1 (transitivity V2 V3)) as [P13 L13].
  assert (places s !! p = Some y) as Hys by (by rewrite <- Hy, (proj1 V1)).
  assert (t_sched_class t3 = y.2) as Ec by (by rewrite <- Pt3). rewrite Ec, P13 in P4.
  assert (d ∈ k_online g0) as Hd0 by (by rewrite <- (remasked_online _ _ Hmasks')).
  assert (d <> dead) as Hne by (intros ->; by apply (ep_down _ _ _ Hpre')).
  split; [exact Hpre'|exact Hst|exact H4|exact Hmasks'| | |exact Hidle|].
  - rewrite P4. rewrite (waiting_push dead (places s) p y d) in Hsize by done. by injection Hsize.
  - rewrite L4, L13, Hload. lia.
  - rewrite P4. apply evacuated_step; try done. rewrite <- (remasked_online _ _ Hmasks). apply Hpre.
Qed.

Lemma wp_migrate_loop dead r s0 n g0 g s fuel rounds :
  (n <= fuel)%nat -> leaving dead r s0 n g0 g s ->
  wp (migrate_loop fuel (S (S (S rounds))) dead) (fun _ s' => exists g', leaving dead r s0 0 g0 g' s') s.
Proof using FL KL EL QL PL.
  revert n g s. induction fuel as [|fuel IH]; intros n g s Hn Hlv.
  all: pose proof (lv_load _ _ _ _ _ _ _ Hlv) as Hload; pose proof (lv_tracks _ _ _ _ _ _ _ Hlv) as Htr.
  all: destruct (tracks_rq_some _ _ dead Htr) as [rs Hrs];
    [apply (upd_rq_some dead (fun r => r <| rq_lock := true |>)); exists r; apply (lv_pre _ _ _ _ _ _ _ Hlv)|].
  all: assert (nr_running rs = Z.of_nat n + 1) as Enr by (unfold load in Hload; by rewrite Hrs in Hload).
  all: cbn [migrate_loop]; apply wp_bind; (eapply wp_rq_of; [exact Hrs|]); rewrite Enr.
  - assert (n = 0)%nat as -> by lia. cbn. by exists g.
  - destruct n as [|n]; [cbn; by exists g|]. rewrite (proj2 (Z.eqb_neq _ _)) by lia.
    apply wp_bind. eapply wp_mono; [exact (wp_migrate_one dead r s0 n g0 g s rounds Hlv)|]. cbn beta. intros _ s1 (g1 & H1).
    by apply (IH n g1 s1); [lia|].
Qed.

(** ** migrate_tasks *)

Lemma remasked_upd_rq c f g g' : remasked g g' -> remasked (upd_rq c f g) (upd_rq c f g').
Proof.
  induction 1 as [|x y z (p & m & ->) _ IH]; [done|]. eapply rtc_l; [|exact IH]. by exists p, m.
Qed.

Lemma evacuate_pre_stop g dead r o :
  evacuate_pre g dead r -> evacuate_pre (upd_rq dead (fun r => r <| stop := o |>) g) dead (r <| stop := o |>).
Proof.
  intros [H1 H2 H3 H4 H5 H6 H7 H8]. split; try done.
  - by rewrite upd_rq_lookup, decide_True, H1.
  - intros c Hc. destruct (H6 c Hc) as (rc & Hrc & Hl & Hcur). exists (if decide (c = dead) then rc <| stop := o |> else rc).
    rewrite upd_rq_lookup, Hrc. by case_decide.
  - apply (clamps_upd_rq dead (fun r => r <| stop := o |>)); [by intros ? []|exact H8].
Qed.

Lemma wp_assoc {X} (m k : M unit) (k' : M X) Q s : wp ((m;; k);; k') Q s -> wp (m;; (k;; k')) Q s.
Proof. unfold wp. by rewrite bind_bind. Qed.

(** The body of [migrate_tasks] from the state in which the stop task is hidden. *)
Lemma wp_migrate_hidden g dead r fuel rounds :
  evacuate_pre g dead r -> stop r = None ->
  load g dead = Z.of_nat (size (waiting dead (places g))) + 1 ->
  (forall p x t, places g !! p = Some x -> waits dead x -> k_tasks g !! p = Some t -> on_cpu t = 0) ->
  (size (waiting dead (places g)) <= fuel)%nat ->
  wp (update_clock dead;; migrate_loop fuel (S (S (S rounds))) dead)
    (fun _ s' => exists g', leaving dead r (locked_g dead g) 0 g g' s') (locked_g dead g).
Proof using FL KL EL QL PL.
  intros Hpre Hst Hload Hidle Hfuel.
  assert (same_view g (locked_g dead g)) as V0.
  { apply (places_put_rq _ _ dead r (r <| rq_lock := true |>)); [apply Hpre|done..|].
    symmetry. apply (insert_alter (k_rqs g) dead r (fun r => r <| rq_lock := true |>)), Hpre. }
  assert (clamps_in_range (locked_g dead g)) as Hcl by (apply clamps_locked_rq, Hpre).
  apply wp_bind. eapply wp_mono.
  { apply wp_quiet; [apply quiet_update_clock|]. apply wp_update_clock.
    apply (upd_rq_some dead (fun r => r <| rq_lock := true |>) g). exists r. apply Hpre. }
  cbn beta. intros _ s1 [F1 V1]. pose proof (transitivity V0 V1) as V2.
  eapply wp_migrate_loop; [exact Hfuel|]. split; [exact Hpre|exact Hst| |done| | |exact Hidle|].
  - eapply tracks_frame; [exact F1|]. by apply tracks_refl.
  - by rewrite (proj1 V2).
  - by rewrite (proj2 V2).
  - intros q. left. by rewrite (proj1 V1).
Qed.

(** C20. [migrate_tasks] ends, and nothing waits on a dead CPU.  Called with the run
    queue of a CPU that is no longer online locked, the other CPUs' queues free,
    and [nr_running] counting the stop task and the tasks that wait, it comes to
    the end of its endless loop after one round per waiting task: each of them is
    then queued on a CPU that is online, in the class it had, every other task is
    where it was, [nr_running] is 1, so that [sched_cpu_dying] does not hit its
    BUG_ON, the stop task is back in its place, the lock is held and the rest is
    as before, affinity masks excepted: they may have been widened. *)
Theorem migrate_tasks_evacuates g dead r fuel rounds :
  evacuate_pre g dead r ->
  nr_running r = Z.of_nat (size (waiting dead (places g))) + 1 ->
  (forall p x t, places g !! p = Some x -> waits dead x -> k_tasks g !! p = Some t -> on_cpu t = 0) ->
  (size (waiting dead (places g)) <= fuel)%nat ->
  exists s' g', migrate_tasks fuel (S (S (S rounds))) dead (locked_g dead g) = Ok tt s' /\
    waiting dead (places s') = ∅ /\ evacuated dead (k_online g) (places g) (places s') /\
    load s' dead = 1 /\ remasked g g' /\ tracks (locked_g dead g') s'.
Proof using FL KL EL QL PL.
  intros Hpre Hload Hidle Hfuel. pose proof (ep_rq _ _ _ Hpre) as Hr.
  set (hide := fun r => r <| stop := None |>). set (g1 := upd_rq dead hide g).
  assert (same_view g g1) as V1.
  { apply (places_put_rq _ _ dead r (hide r)); [exact Hr|done..|]. symmetry. by apply (insert_alter (k_rqs g) dead r hide). }
  destruct V1 as [P1 L1].
  assert (wp (migrate_tasks fuel (S (S (S rounds))) dead) (fun _ s' => exists g',
    waiting dead (places s') = ∅ /\ evacuated dead (k_online g) (places g) (places s') /\
    load s' dead = 1 /\ remasked g g' /\ tracks (locked_g dead g') s') (locked_g dead g)) as Hw.
  2: { apply wp_elim in Hw as ([] & s' & E1 & g' & H'). by exists s', g'. }
  unfold migrate_tasks.
  assert (k_rqs (locked_g dead g) !! dead = Some (r <| rq_lock := true |>)) as Hrl.
  { change (k_rqs (locked_g dead g)) with (k_rqs (upd_rq dead (fun r => r <| rq_lock := true |>) g)).
    by rewrite upd_rq_lookup, decide_True, Hr. }
  apply wp_bind. eapply wp_rq_of; [exact Hrl|]. cbv zeta. change (stop (r <| rq_lock := true |>)) with (stop r).
  apply wp_bind, wp_upd_rq; [by eexists|]. rewrite (locked_upd_rq dead (fun r => r <| stop := None |>)) by done.
  fold hide g1. apply wp_assoc, wp_bind. eapply wp_mono.
  { apply (wp_migrate_hidden g1 dead (hide r)); [by apply evacuate_pre_stop|done| | |].
    - rewrite L1, P1. unfold load. rewrite Hr. exact Hload.
    - intros p x t. rewrite P1. apply Hidle.
    - by rewrite P1. }
  cbn beta. intros _ s2 (g2 & H2). apply wp_upd_rq.
  { eapply tracks_rq_some; [apply H2|]. apply (upd_rq_some dead (fun r => r <| rq_lock := true |>)).
    exists (hide r). apply (lv_pre _ _ _ _ _ _ _ H2). }
  set (show := fun r' => r' <| stop := stop r |>).
  destruct (tracks_rq_some _ _ dead (lv_tracks _ _ _ _ _ _ _ H2)) as [r2 Hr2].
  { apply (upd_rq_some dead (fun r => r <| rq_lock := true |>)). exists (hide r). apply (lv_pre _ _ _ _ _ _ _ H2). }
  assert (same_view s2 (upd_rq dead show s2)) as [P3 L3].
  { apply (places_put_rq _ _ dead r2 (show r2)); [exact Hr2|done..|]. symmetry. by apply (insert_alter (k_rqs s2) dead r2 show). }
  exists (upd_rq dead show g2). rewrite P3, L3. split_and!.
  - apply map_size_empty_inv, (lv_size _ _ _ _ _ _ _ H2).
  - pose proof (lv_places _ _ _ _ _ _ _ H2) as Hp. change (places (locked_g dead g1)) with (places g1) in Hp.
    by rewrite P1 in Hp.
  - apply (lv_load _ _ _ _ _ _ _ H2).
  - assert (upd_rq dead show g1 = g) as Eg.
    2: { pose proof (remasked_upd_rq dead show _ _ (lv_masks _ _ _ _ _ _ _ H2)) as H3. by rewrite Eg in H3. }
    unfold g1. rewrite upd_rq_twice. apply upd_rq_id. intros r' Hr'. rewrite Hr in Hr'. injection Hr' as <-. by destruct r.
  - assert (rq_commutes show) as Hc by commutes. pose proof (tracks_upd_rq dead show _ _ Hc (lv_tracks _ _ _ _ _ _ _ H2)) as H3.
    by rewrite (locked_upd_rq dead show) in H3.
Qed.
End Evacuate.
