(* ===== verification/HotplugDemo.v ===== *)
(** * HotplugDemo: CPUs coming and going at work

    Two threads of one core; classes that count what they queue.  Every hypothesis
    of the theorems of [HotplugSpec] and [Evacuate] holds here. *)

From S2P Require Import Prelude Task KernelApi Prio Rq RqClock Uclamp UclampFacts UclampTrace RemoteTick.
From S2P Require Import State Sched SchedFacts ScheduleSpec Setprio TaskLock Machine.
From S2P Require Import SetprioSpec SetprioDemo Affinity AffinitySpec Ttwu TtwuSpec WakeQ TtwuDemo Fork.
From S2P Require Import Tick TickSpec TickDemo Hotplug HotplugSpec QueueView Evacuate.

(** ** One core, suspended and resumed *)

(** A kernel whose tasks are frozen or not, and whose deadline class may need a CPU. *)
Definition one_core (frozen busy : bool) : HotplugEnv := {|
  Hotplug.sched_clock _ := 0;
  init_mm := 1;
  switch_mm _ _ s := s;
  dl_cpuset_cpumask_can_shrink _ _ _ := 1;
  dl_task_can_attach _ _ s := (s, 0);
  CONFIG_SCHED_SMT := true;
  cpu_smt_mask s _ := siblings (fun _ => 0) (k_online s) 0;
  cpuhp_tasks_frozen := frozen;
  dl_cpu_busy _ _ := busy;
  cpuset_update_active_cpus s := s;
  cpuset_force_rebuild s := s;
  partition_sched_domains s := s;
  sched_domains_numa_masks_set _ s := s;
  sched_domains_numa_masks_clear _ s := s;
  rq_has_rd _ _ := false;
  op_rq_online _ _ s := s;
  op_rq_offline _ _ s := s;
  calc_load_fold_active _ _ s := (s, 0);
  calc_load_tasks_add _ s := s;
  calc_load_update _ := 0;
  update_max_interval s := s;
  nohz_balance_exit_idle _ s := s;
  housekeeping_domain := {[ 0 ]};
  sched_init_numa s := s;
  sched_init_domains _ s := s;
  sched_init_granularity s := s;
  init_sched_rt_class s := s;
  init_sched_dl_class s := s
|}.

Lemma one_core_laws frozen busy : HotplugLaws (V := plain_user) (fun _ => 0) (one_core frozen busy).
Proof. by split. Qed.

Definition both_up : kstate := (two_machine sleeper) <| k_smt_present := 1 |>.
Definition deactivated : kstate := exec (sched_cpu_deactivate (H := one_core true false) 1) both_up.
Definition suspended : kstate := deactivated <| k_online := k_online deactivated ∖ {[ 1 ]} |>.
Definition resumed : kstate :=
  exec (sched_cpu_activate (H := one_core true false) 1) (suspended <| k_online := {[ 1 ]} ∪ k_online suspended |>).

Example suspend_counts :
  (k_smt_present suspended, k_cpus_frozen suspended, k_smt_present resumed, k_cpus_frozen resumed) = (0, 1, 1, 0).
Proof. vm_compute. reflexivity. Qed.

Lemma both_up_consistent : hp_consistent (fun _ => 0) both_up ∅.
Proof. split; try reflexivity. apply disjoint_empty_l. Qed.

Lemma run_exec {X} (m : M X) s a : result (m s) = Some a -> m s = Ok a (exec m s).
Proof. unfold exec. destruct (m s); [by intros [= ->]|done..]. Qed.

Lemma deactivated_run : sched_cpu_deactivate (H := one_core true false) 1 both_up = Ok 0 deactivated.
Proof. unfold deactivated. apply run_exec. vm_compute. reflexivity. Qed.
Lemma resumed_run :
  sched_cpu_activate (H := one_core true false) 1 (suspended <| k_online := {[ 1 ]} ∪ k_online suspended |>) = Ok 0 resumed.
Proof. unfold resumed. apply run_exec. vm_compute. reflexivity. Qed.

Lemma suspend_steps : rtc (hp_step (V := plain_user) (fun _ => 0)) (both_up, ∅) (resumed, ({[ 1 ]} ∪ ∅) ∖ {[ 1 ]}).
Proof.
  apply (rtc_l _ _ (suspended, {[ 1 ]} ∪ ∅)).
  - apply (hp_down (fun _ => 0) (one_core true false) (one_core_laws true false) 1 both_up deactivated).
    + change (1 ∈ ({[ 0; 1 ]} : gset Z)). set_solver.
    + exact deactivated_run.
  - apply rtc_once.
    apply (hp_up (fun _ => 0) (one_core true false) (one_core_laws true false) 1 suspended resumed).
    + apply (bool_decide_unpack _). vm_compute. exact I.
    + vm_compute. reflexivity.
    + split; [intros _; set_solver|done].
    + exact resumed_run.
Qed.

Lemma hotplug_counts_witness :
  k_active resumed = k_online resumed /\ k_smt_present resumed = smt_cores (fun _ => 0) (k_online resumed) /\
  k_cpus_frozen resumed = Z.of_nat (size (({[ 1 ]} ∪ ∅) ∖ {[ 1 ]} : gset Z)) /\
  ({[ 1 ]} ∪ ∅) ∖ {[ 1 ]} ## k_online resumed.
Proof.
  apply (hotplug_counts (V := plain_user) (fun _ => 0) both_up resumed (({[ 1 ]} ∪ ∅) ∖ {[ 1 ]}) both_up_consistent suspend_steps).
Defined.

(** The deadline class needs CPU 1. *)
Lemma refused_deactivation_miscounts_witness :
  sched_cpu_deactivate (H := one_core false true) 1 both_up =
    Ok (- EBUSY) (both_up <| k_smt_present := k_smt_present both_up - 1 |>) /\
  k_smt_present both_up - 1 <> smt_cores (fun _ => 0) (k_online both_up).
Proof.
  apply (refused_deactivation_miscounts (V := plain_user) (fun _ => 0) (H := one_core false true)
    (HL := one_core_laws false true) 1 both_up both_up_consistent).
  - change (1 ∈ ({[ 0; 1 ]} : gset Z)). set_solver.
  - vm_compute. reflexivity.
  - reflexivity.
  - reflexivity.
Defined.

(** ** A CPU that dies *)

(** Classes that count: [nr_running] goes with every enqueue and dequeue, and a
    class picks the first of its tasks that waits. *)
Definition add_running (cpu d : Z) (s : kstate) : kstate :=
  upd_rq cpu (fun r => r <| Rq.nr_running := Rq.nr_running r + d |>) s.
Definition first_waiting (c : sched_class) (cpu : Z) (s : kstate) : option ptr :=
  fst <$> list_find (fun kv => waits cpu (place kv.2) /\ t_sched_class kv.2 = c /\ pickable_b s cpu kv.1 = true)
            (map_to_list (k_tasks s)) ≫= (fun x => Some x.2).

#[export] Instance counting : SchedClassOps :=
  let K := choosing 1%positive in {|
  op_enqueue_task _ cpu _ _ s := add_running cpu 1 s;
  op_dequeue_task _ cpu _ _ s := add_running cpu (-1) s;
  op_yield_task := @op_yield_task K;
  op_check_preempt_curr := @op_check_preempt_curr K;
  op_pick_next_task c cpu s :=
    match c with
    | stop_sched_class => (s, None)
    | idle_sched_class => @op_pick_next_task K c cpu s
    | _ => (s, first_waiting c cpu s)
    end;
  op_pick_next_task_fair := @op_pick_next_task_fair K;
  op_put_prev_task := @op_put_prev_task K;
  op_set_next_task := @op_set_next_task K;
  op_balance := @op_balance K;
  op_select_task_rq := @op_select_task_rq K;
  op_migrate_task_rq := @op_migrate_task_rq K;
  op_task_woken := @op_task_woken K;
  op_task_tick := @op_task_tick K;
  op_task_fork := @op_task_fork K;
  op_task_dead := @op_task_dead K;
  op_switched_from := @op_switched_from K;
  op_switched_to := @op_switched_to K;
  op_prio_changed := @op_prio_changed K;
  op_get_rr_interval := @op_get_rr_interval K;
  op_callback := @op_callback K;
  rq_clock_skip_update := @rq_clock_skip_update K;
  sched_feat_HRTICK := @sched_feat_HRTICK K;
  hrtimer_active := @hrtimer_active K;
  hrtimer_cancel := @hrtimer_cancel K;
  op_rseq_preempt := @op_rseq_preempt K;
  op_rseq_migrate := @op_rseq_migrate K;
  op_sched_out_notifiers := @op_sched_out_notifiers K;
  op_sched_in_notifiers := @op_sched_in_notifiers K;
  put_task_struct_rcu_user := @put_task_struct_rcu_user K;
  wq_worker_sleeping := @wq_worker_sleeping K;
  io_wq_worker_sleeping := @io_wq_worker_sleeping K;
  wq_worker_running := @wq_worker_running K;
  io_wq_worker_running := @io_wq_worker_running K;
  tsk_is_pi_blocked := @tsk_is_pi_blocked K;
  blk_needs_flush_plug := @blk_needs_flush_plug K;
  blk_schedule_flush_plug := @blk_schedule_flush_plug K;
  panic_on_warn := @panic_on_warn K;
  oops_in_progress := @oops_in_progress K;
  class_uclamp_enabled := @class_uclamp_enabled K;
  read_clock := @read_clock K;
  group_of := @group_of K;
  signal_pending_state := @signal_pending_state K
|}.

Lemma first_waiting_ok c cpu s p :
  first_waiting c cpu s = Some p ->
  exists t, k_tasks s !! p = Some t /\ waits cpu (place t) /\ pickable_b s cpu p = true.
Proof.
  unfold first_waiting. intros (kv & H & ->)%fmap_Some.
  destruct (list_find _ _) as [[i y]|] eqn:Hf; [|done]. injection H as <-.
  apply list_find_Some in Hf as (Hi & (H1 & _ & H2) & _). apply list_elem_of_lookup_2 in Hi.
  destruct y as [q t]. apply elem_of_map_to_list in Hi. by exists t.
Qed.

Lemma add_running_frame cpu d s : kframe false s (add_running cpu d s).
Proof.
  unfold add_running, upd_rq. destruct (k_rqs s !! cpu) as [r|] eqn:Hr.
  - rewrite <- (insert_alter (k_rqs s) cpu r (fun r => r <| Rq.nr_running := Rq.nr_running r + d |>) Hr).
    by eapply kframe_put_rq.
  - assert (alter (fun r => r <| Rq.nr_running := Rq.nr_running r + d |>) cpu (k_rqs s) = k_rqs s) as ->; [|by destruct s].
    apply map_eq. intros c. destruct (decide (c = cpu)) as [->|Hne]; [by rewrite lookup_alter_eq, Hr|by rewrite lookup_alter_ne].
Qed.

#[export] Instance counting_laws : SchedClassLaws counting.
Proof.
  destruct (choosing_laws 1%positive). split; intros; simpl; try by auto.
  - apply add_running_frame.
  - apply add_running_frame.
  - by destruct c; simpl.
  - destruct c; simpl in *; [done|..|exact (law_pick_ok idle_sched_class cpu s p H)].
    all: destruct (first_waiting_ok _ _ _ _ H) as (t & _ & _ & Hp); by apply pickable_b_ok.
  - by apply (law_pick_idle cpu s r).
  - by apply (law_pick_fair_ok cpu p s q).
Qed.

Lemma add_running_load cpu d s c :
  is_Some (k_rqs s !! cpu) -> load (add_running cpu d s) c = load s c + (if c =? cpu then d else 0).
Proof.
  intros [r Hr]. unfold load, add_running. rewrite upd_rq_lookup. case_decide as Ec.
  - subst c. by rewrite Hr, Z.eqb_refl.
  - rewrite (proj2 (Z.eqb_neq _ _) Ec). lia.
Qed.

#[export] Instance counting_queues : QueueLaws counting two_cpus.
Proof.
  split; intros; try done.
  - simpl. by apply add_running_load.
  - simpl. rewrite add_running_load by done. destruct (d =? cpu); lia.
  - by destruct c.
Qed.

#[export] Instance counting_picks : PickLaws.
Proof.
  split.
  - done.
  - intros c cpu s p Hc Hp. assert (first_waiting c cpu s = Some p) as (t & Ht & Hw & _)%first_waiting_ok.
    { by repeat (apply elem_of_cons in Hc as [->|Hc]; [exact Hp|]); apply elem_of_nil in Hc. }
    exists (place t). split; [|exact Hw]. unfold places. by rewrite lookup_fmap, Ht.
  - intros cpu s p x Hp Hw Hpk. apply place_task in Hp as (t & Ht & <-).
    assert (first_waiting (place t).2 cpu s <> None) as Hn.
    { unfold first_waiting. destruct (list_find _ _) eqn:Hf; [done|]. exfalso. apply list_find_None in Hf.
      rewrite Forall_forall in Hf. apply (Hf (p, t)); [by apply elem_of_map_to_list|]. split; [exact Hw|]. split; [done|].
      by apply pickable_b_ok. }
    destruct Hw as (_ & _ & Hc). revert Hc Hn. generalize (place t).2. intros c Hc Hn.
    by repeat (apply elem_of_cons in Hc as [->|Hc]; [exact Hn|]); apply elem_of_nil in Hc.
Qed.

(** CPU 1 goes down with its stop task (5), a task bound to it (3) and one that may
    run anywhere (6). *)
Definition stop_task : task_struct :=
  plain_task <| t_cpu := 1 |> <| on_cpu := 1 |> <| on_rq := 1 |> <| t_sched_class := stop_sched_class |>.
Definition bound_task : task_struct :=
  plain_task <| t_cpu := 1 |> <| on_rq := 1 |> <| cpus_mask := {[ 1 ]} |> <| nr_cpus_allowed := 1 |>.
Definition free_task : task_struct := bound_task <| cpus_mask := {[ 0; 1 ]} |> <| nr_cpus_allowed := 2 |>.
Definition dying_rq : rq :=
  rq_1 <| curr := 5%positive |> <| stop := Some 5%positive |> <| Rq.nr_running := 3 |>.
Definition dying_machine : kstate :=
  let s := two_machine bound_task in
  s <| k_tasks := <[5%positive := stop_task]> (<[6%positive := free_task]> (k_tasks s)) |>
    <| k_rqs := <[1 := dying_rq]> (k_rqs s) |> <| k_online := {[ 0 ]} |> <| k_active := {[ 0 ]} |>.

Definition all_tasks (f : ptr -> task_struct -> bool) (s : kstate) : bool :=
  forallb (fun x : ptr * task_struct => f x.1 x.2) (map_to_list (k_tasks s)).
Lemma all_tasks_ok f s p t : all_tasks f s = true -> k_tasks s !! p = Some t -> f p t = true.
Proof.
  unfold all_tasks. rewrite forallb_forall. intros Hall Ht. apply (Hall (p, t)).
  by apply list_elem_of_In, elem_of_map_to_list.
Qed.

Lemma dying_machine_pre : evacuate_pre dying_machine 1 dying_rq.
Proof.
  split.
  - reflexivity.
  - reflexivity.
  - change (1 ∉ ({[ 0 ]} : gset Z)). set_solver.
  - done.
  - exists 0. change (0 ∈ ({[ 0 ]} : gset Z) /\ 0 ∈ ({[ 0; 1 ]} : gset Z) /\ 0 <= 0 < 2). split; [set_solver|].
    split; [set_solver|lia].
  - intros c Hc. change (c ∈ ({[ 0 ]} : gset Z)) in Hc. apply elem_of_singleton in Hc as ->.
    exists machine_rq. split; [reflexivity|]. split; [reflexivity|]. by eexists.
  - intros p t Ht. apply negb_true_iff. exact (all_tasks_ok (fun _ t => negb (pi_lock t)) dying_machine p t eq_refl Ht).
  - apply clamps_b_ok. vm_compute. reflexivity.
Qed.

Lemma dying_waits : size (waiting 1 (places dying_machine)) = 2%nat.
Proof. vm_compute. reflexivity. Qed.

Lemma dying_idle p x t :
  places dying_machine !! p = Some x -> waits 1 x -> k_tasks dying_machine !! p = Some t -> on_cpu t = 0.
Proof.
  intros Hp Hw Ht. unfold places in Hp. rewrite lookup_fmap, Ht in Hp. injection Hp as <-.
  pose proof (all_tasks_ok (fun _ t => bool_decide (waits 1 (place t) -> on_cpu t = 0)) dying_machine p t eq_refl Ht) as H.
  apply bool_decide_eq_true in H. by apply H.
Qed.

Lemma migrate_tasks_evacuates_witness :
  exists s' g', migrate_tasks 2 3 1 (locked_g 1 dying_machine) = Ok tt s' /\
    waiting 1 (places s') = ∅ /\ evacuated 1 (k_online dying_machine) (places dying_machine) (places s') /\
    load s' 1 = 1 /\ remasked dying_machine g' /\ tracks (locked_g 1 g') s'.
Proof.
  apply (migrate_tasks_evacuates dying_machine 1 dying_rq 2 0 dying_machine_pre).
  - rewrite dying_waits. reflexivity.
  - exact dying_idle.
  - rewrite dying_waits. lia.
Defined.

Example both_left :
  match migrate_tasks 2 3 1 (locked_g 1 dying_machine) with
  | Ok _ s' => Some (task_cpu <$> k_tasks s' !! 3%positive, task_cpu <$> k_tasks s' !! 6%positive, load s' 0, load s' 1)
  | _ => None
  end = Some (Some 0, Some 0, 4, 1).
Proof. vm_compute. reflexivity. Qed.
