(* ===== verification/Boot.v ===== *)
(** * Boot: the start of the scheduler (core.c, [sched_init])

    What the boot CPU does before there is anything to schedule: the root task
    group, a run queue for every possible CPU, the boot thread as the idle task,
    the clamps.  The queues of the classes, the root domain, hrtimers and the
    bandwidth defaults belong to other files and are an interface.

    A run queue starts with no current task; [curr] and [idle] of the model are
    then whatever they were, until [init_idle] sets them. *)

From S2P Require Import Prelude Task KernelApi Prio Rq RqClock Uclamp TaskGroup GroupClamps GroupLife Settings.
From S2P Require Import RemoteTick State Sched Setprio Affinity Fork Tick Hotplug.

Class BootEnv := {
  init_task : ptr;  (* the boot thread: [current] during boot *)
  jiffies : Z;
  LOAD_FREQ : Z;
  sysctl_sched_migration_cost : Z;
  ROOT_TASK_GROUP_LOAD : Z;
  init_root_bandwidth : kstate -> kstate;  (* init_rt_bandwidth, init_dl_bandwidth *)
  init_defrootdomain : kstate -> kstate;
  autogroup_init : ptr -> kstate -> kstate;
  init_cfs_rq : Z -> kstate -> kstate;
  init_rt_rq : Z -> kstate -> kstate;
  init_dl_rq : Z -> kstate -> kstate;
  init_tg_cfs_entry : Z -> kstate -> kstate;  (* of the root group *)
  set_rt_runtime : Z -> kstate -> kstate;  (* rq->rt.rt_runtime *)
  init_tg_rt_entry : Z -> kstate -> kstate;  (* of the root group *)
  rq_attach_root : Z -> kstate -> kstate;  (* to the default root domain *)
  hrtimer_init : Z -> kstate -> kstate;  (* of rq->hrtick_timer *)
  enter_lazy_tlb : Z -> ptr -> kstate -> kstate;
  set_calc_load_update : Z -> kstate -> kstate;
  init_sched_fair_class : kstate -> kstate;
  psi_init : kstate -> kstate
}.

(** The machine, the task groups and the shares of the root group, the static
    keys, [scheduler_running]. *)
Record boot_state := mk_boot_state {
  b_machine : kstate;
  b_groups : tg_sys;
  b_root_shares : Z;
  b_keys : sched_keys;
  scheduler_running : bool
}.

Section Boot.
Context {P : PrioApi} {Y : PolicyApi} {U : UclampApi} {A : AttrFlagApi} {F : FlagApi} {C : ClockConfig}
  {K : SchedClassOps} {V : SetprioEnv} {E : MigrateEnv} {N : ForkEnv} {T : TickEnv} {HK : Housekeeping}
  {H : HotplugEnv} {L : GroupAlloc} {B : BootEnv}.

Definition for_cpus (l : list Z) (f : Z -> M unit) : M unit := foldr (fun i k => f i;; k) (mret tt) l.

Definition hrtick_rq_init (cpu : Z) : M unit := modify (hrtimer_init cpu).

(** One round of the loop over the possible CPUs. *)
Definition sched_init_rq (i : Z) : M unit :=
  set_rq i (fun r => r <| rq_lock := false |>);;
  set_rq i (fun r => r <| Rq.nr_running := 0 |>);;
  set_rq i (fun r => r <| rq_calc_load_update := u64 (jiffies + LOAD_FREQ) |>);;
  modify (init_cfs_rq i);;
  modify (init_rt_rq i);;
  modify (init_dl_rq i);;
  modify (init_tg_cfs_entry i);;
  modify (set_rt_runtime i);;
  modify (init_tg_rt_entry i);;
  set_rq i (fun r => r <| Rq.balance_callback := [] |>);;
  set_rq i (fun r => r <| rq_cpu := i |>);;
  set_rq i (fun r => r <| online := false |>);;
  set_rq i (fun r => r <| idle_stamp := 0 |>);;
  set_rq i (fun r => r <| avg_idle := u32 (2 * sysctl_sched_migration_cost) |>);;
  set_rq i (fun r => r <| max_idle_balance_cost := sysctl_sched_migration_cost |>);;
  modify (rq_attach_root i);;
  set_rq i (fun r => r <| nohz_flags := 0 |>);;
  hrtick_rq_init i;;
  set_rq i (fun r => r <| Rq.nr_iowait := 0 |>).

(** [init_uclamp], but for the root group. *)
Definition init_uclamp : M unit :=
  s ← get;
  for_cpus (for_each_cpu (k_possible s)) (fun cpu => set_rq cpu init_uclamp_rq);;
  set_task init_task (fun t =>
    let set t id := set_uclamp_req t id (uclamp_se_set (uclamp_req t id) (uclamp_none id) false) in
    set (set t UCLAMP_MIN) UCLAMP_MAX);;
  modify (fun s => s <| k_sys := init_uclamp_sys (k_sys s) |>).

(** The root group's part of [init_uclamp]; its percentages stay as they are. *)
Definition init_uclamp_root (m : group_clamps) : group_clamps :=
  let uc_max := uclamp_se_set zero_uclamp_se (uclamp_none UCLAMP_MAX) false in
  let b := m root_task_group in
  set_group root_task_group
    (mk_tg_uclamp uc_max uc_max uc_max uc_max (tgu_pct_min b) (tgu_pct_max b)) m.

(** The root group, alone in the tree. *)
Definition sched_init_groups (g : tg_sys) : tg_sys :=
  mk_tg_sys (<[root_task_group := mk_tg_links None []]> (tg_tree g))
    (root_task_group :: task_groups g) (tg_clamps g).

Definition sched_init_machine : M unit :=
  modify init_root_bandwidth;;
  modify init_defrootdomain;;
  modify (autogroup_init init_task);;
  s ← get;
  for_cpus (for_each_cpu (k_possible s)) sched_init_rq;;
  t ← task_of init_task;
  t ← lift_option (set_load_weight reweight_task t false);
  put_task init_task t;;
  mmgrab init_mm;;
  modify (enter_lazy_tlb init_mm init_task);;
  cpu ← smp_processor_id;
  init_idle init_task cpu;;
  modify (set_calc_load_update (u64 (jiffies + LOAD_FREQ)));;
  modify init_sched_fair_class;;
  modify psi_init;;
  init_uclamp.

(** The parts touch disjoint state, so that their order is kept only within each. *)
Definition sched_init (b : boot_state) : option boot_state :=
  match sched_init_machine (b_machine b) with
  | Ok _ s =>
      let g := sched_init_groups (b_groups b) in
      Some (mk_boot_state s (mk_tg_sys (tg_tree g) (task_groups g) (init_uclamp_root (tg_clamps g)))
              ROOT_TASK_GROUP_LOAD (init_schedstats (b_keys b)) true)
  | _ => None
  end.
End Boot.
