(* ===== verification/BootSpec.v ===== *)
(** * BootSpec: from a cold machine to one on which the histories start

    [sched_init] and [init_idle] implement pure specifications; what they leave
    is well formed, with every count of sleepers right and every clamp index in
    range: the base case of the theorems about histories. *)

From S2P Require Import Prelude Task KernelApi Prio Rq RqClock Uclamp UclampFacts UclampTrace TaskGroup.
From S2P Require Import GroupClamps GroupClampsSpec GroupClampsWrite GroupLife Settings RemoteTick.
From S2P Require Import State Sched SchedFacts ScheduleSpec SwitchCount Setprio TaskLock Machine SetprioSpec SetprioDemo.
From S2P Require Import Affinity AffinitySpec Ttwu TtwuSpec Keeps WakeQ TtwuDemo Tick TickSpec TickDemo Exclusive Sleepers.
From S2P Require Import Fork ForkSpec Hotplug HotplugDemo Evacuate Boot.

(** ** Tactics *)

(** A task or run queue that was there still is after updates in place. *)
Ltac there :=
  lazymatch goal with
  | |- is_Some (k_tasks (upd_task _ _ _) !! _) => apply upd_task_some; there
  | |- is_Some (k_tasks (upd_rq _ _ ?x) !! ?p) => change (is_Some (k_tasks x !! p)); there
  | |- is_Some (k_rqs (upd_rq _ _ _) !! _) => apply upd_rq_some; there
  | |- is_Some (k_rqs (upd_task _ _ ?x) !! ?c) => change (is_Some (k_rqs x !! c)); there
  | |- _ => eauto
  end.

(** The next state of a tracked sequence. *)
Ltac on_with H' := clear H'; let s := fresh "s" in intros s H'.

Section Boot.
Context {P : PrioApi} {PL : PrioLaws P} {Y : PolicyApi} {U : UclampApi} {UL : UclampLaws U} {A : AttrFlagApi}
  {F : FlagApi} {FL : FlagLaws F} {C : ClockConfig} {K : SchedClassOps} {KL : SchedClassLaws K}
  {V : SetprioEnv} {VL : SetprioLaws V} {E : MigrateEnv} {EL : MigrateLaws E} {N : ForkEnv} {NL : ForkLaws N}
  {T : TickEnv} {HK : Housekeeping} {H : HotplugEnv}.

(** ** The idle task of a CPU *)

Definition as_idle (cpu : Z) (t : task_struct) : task_struct :=
  (set_cpus_allowed_common (t <| t_state := TASK_RUNNING |> <| t_flags := Z.lor (t_flags t) PF_IDLE |>) {[ cpu ]})
    <| on_rq := TASK_ON_RQ_QUEUED |> <| on_cpu := 1 |> <| t_sched_class := idle_sched_class |>.

Definition idle_spec (p : ptr) (cpu : Z) (s : kstate) : kstate :=
  upd_task p (as_idle cpu) (upd_rq cpu (fun r => r <| idle := p |> <| curr := p |>) s).

(** The steps of [init_idle] between the locks, on the unlocked state. *)
Lemma wp_locked_task_step {X} p cpu g s f (k : M X) Q :
  tracks (locked_task p cpu g) s -> is_Some (k_tasks g !! p) -> task_commutes f ->
  (forall t, f (t <| pi_lock := true |>) = (f t) <| pi_lock := true |>) ->
  (forall s', tracks (locked_task p cpu (upd_task p f g)) s' -> wp k Q s') ->
  wp (set_task p f;; k) Q s.
Proof.
  intros Hs [t Ht] Hf Hl Hk. apply wp_bind. eapply wp_track_task; [exact Hs|by eexists; apply locked_task_at|exact Hf|].
  intros s' H'. apply Hk. unfold locked_task in *. rewrite locked_g_upd_task, locked_pi_upd_task in H' by exact Hl.
  exact H'.
Qed.

Lemma locked_rq_upd p cpu f g :
  (forall r, f (r <| rq_lock := true |>) = (f r) <| rq_lock := true |>) ->
  upd_rq cpu f (locked_task p cpu g) = locked_task p cpu (upd_rq cpu f g).
Proof.
  intros Hf. unfold locked_task, locked_g, locked_pi, upd_rq, upd_task. rsimpl.
  assert (alter f cpu (alter (fun r => r <| rq_lock := true |>) cpu (k_rqs g)) =
    alter (fun r => r <| rq_lock := true |>) cpu (alter f cpu (k_rqs g))) as E1; [|rewrite E1; reflexivity].
  apply map_eq. intros d. destruct (decide (d = cpu)) as [->|Hne].
  - rewrite !lookup_alter_eq. destruct (k_rqs g !! cpu); [|done]. cbn. by rewrite Hf.
  - by rewrite !lookup_alter_ne.
Qed.

Lemma wp_locked_rq_step {X} p cpu g s f (k : M X) Q :
  tracks (locked_task p cpu g) s -> is_Some (k_rqs g !! cpu) -> rq_commutes f ->
  (forall r, f (r <| rq_lock := true |>) = (f r) <| rq_lock := true |>) ->
  (forall s', tracks (locked_task p cpu (upd_rq cpu f g)) s' -> wp k Q s') ->
  wp (set_rq cpu f;; k) Q s.
Proof.
  intros Hs Hr Hf Hl Hk. apply wp_bind. eapply wp_track_rq; [exact Hs|by apply locked_task_rq|exact Hf|].
  intros s' H'. apply Hk. rewrite locked_rq_upd in H' by exact Hl. exact H'.
Qed.

(** Steps that the calculus does not see. *)
Lemma wp_locked_absorb {X} p cpu g s f (k : M X) Q :
  tracks (locked_task p cpu g) s -> is_Some (k_tasks g !! p) ->
  (forall t, erase_task true (f t) = erase_task true t) ->
  (forall t id, uclamp (f t) id = uclamp t id /\ uclamp_req (f t) id = uclamp_req t id) ->
  (forall s', tracks (locked_task p cpu g) s' -> wp k Q s') -> wp (set_task p f;; k) Q s.
Proof.
  intros Hs [t Ht] Hf Hu Hk. destruct (tracks_task_some _ _ p Hs) as [t1 Ht1]; [by eexists; apply locked_task_at|].
  apply wp_bind. eapply wp_set_task; [exact Ht1|]. apply Hk. eapply (tracks_frame true); [|exact Hs].
  eapply kframe_put_task; [exact Ht1|apply Hf|]. intros Hx id. destruct (Hu t1 id) as [-> ->]. apply Hx.
Qed.

Lemma wp_locked_hook {X} p cpu g s f (k : M X) Q :
  tracks (locked_task p cpu g) s -> (forall x, tracks (locked_task p cpu g) x -> kframe true x (f x)) ->
  (forall s', tracks (locked_task p cpu g) s' -> wp k Q s') -> wp (modify f;; k) Q s.
Proof.
  intros Hs Hf Hk. apply wp_bind, wp_modify, Hk. eapply tracks_frame; [by apply Hf|exact Hs].
Qed.

Lemma sched_fork_clamps fl t id :
  uclamp (__sched_fork fl t) id = uclamp t id /\ uclamp_req (__sched_fork fl t) id = uclamp_req t id.
Proof using NL.
  unfold __sched_fork. cbv zeta.
  match goal with |- context [init_numa_balancing fl ?x] => destruct (law_numa_clamps fl x id) as [-> ->] end.
  match goal with |- context [__dl_clear_params ?x] =>
    pose proof (law_dl_clear_clamps x id) as [E1 E2]; set (d := __dl_clear_params x) in *;
    assert (uclamp x id = uclamp t id /\ uclamp_req x id = uclamp_req t id) as [<- <-] by by destruct id
  end.
  rewrite <- E1, <- E2. by destruct id.
Qed.

Lemma tracks_sched_fork g s p : tracks g s -> is_Some (k_tasks g !! p) ->
  wp (set_task p (__sched_fork 0)) (fun _ s' => tracks (upd_task p (fun t => t <| on_rq := 0 |>) g) s') s.
Proof using NL.
  intros Hs [t Ht]. destruct (tracks_task _ _ _ _ Hs Ht) as (t1 & Ht1 & _).
  eapply wp_set_task; [exact Ht1|]. apply (tracks_put g s p t1); [exact Hs|exact Ht1|commutes| |].
  - transitivity (erase_task true (t1 <| on_rq := 0 |>)); [|reflexivity].
    exact (erase_task_weaken _ _ (sched_fork_erase 0 t1)).
  - intros id. apply sched_fork_clamps.
Qed.

Lemma upd_task_rq_swap p f c h g : upd_task p f (upd_rq c h g) = upd_rq c h (upd_task p f g).
Proof. done. Qed.

Lemma queued_commutes : task_commutes (fun t => t <| on_rq := TASK_ON_RQ_QUEUED |>).
Proof using FL. destruct on_rq_values as [-> _]. commutes. Qed.

(** [init_idle] makes [p] the idle and current task of the CPU; both locks are
    free again. *)
Lemma wp_init_idle g s p cpu t r :
  tracks g s -> k_tasks g !! p = Some t -> pi_lock t = false -> k_rqs g !! cpu = Some r -> rq_lock r = false ->
  wp (init_idle p cpu) (fun _ s' => tracks (idle_spec p cpu g) s') s.
Proof using KL EL NL FL.
  intros Hs Ht Hpl Hr Hl. unfold init_idle.
  apply wp_bind. eapply wp_mono; [apply tracks_sched_fork; [exact Hs|by exists t]|]. cbn beta. intros _ s1 H1.
  assert (is_Some (k_tasks g !! p)) as Hp by eauto. assert (is_Some (k_rqs g !! cpu)) as Hc by eauto.
  apply wp_bind. eapply (wp_track_lock_pi _ _ p (t <| on_rq := 0 |>)); [exact H1|by apply upd_task_at|exact Hpl|].
  intros s2 H2. apply wp_bind. eapply wp_track_lock; [exact H2|exact Hr|exact Hl|].
  clear H1. on_with H2. apply wp_bind, wp_get.
  match type of H2 with tracks (locked_g cpu (locked_pi p ?x)) ?s' => change (tracks (locked_task p cpu x) s') in H2 end.
  eapply wp_locked_task_step; [exact H2|there|commutes|done|]. on_with H2.
  eapply wp_locked_absorb; [exact H2|there|done|by intros ? []|]. on_with H2.
  eapply wp_locked_task_step; [exact H2|there|commutes|done|]. on_with H2.
  eapply wp_locked_task_step; [exact H2|there|commutes|done|]. on_with H2.
  eapply wp_locked_hook; [exact H2| |].
  { intros x Hx. assert (is_Some (k_tasks x !! p)) as Hpx.
    { eapply tracks_task_some; [exact Hx|]. destruct Hp. eexists. apply locked_task_at.
      repeat apply upd_task_at. eassumption. }
    etransitivity; [apply (kframe_on_cpu p cpu)|]. by apply kframe_weaken, law_set_task_cpu. }
  on_with H2.
  eapply wp_locked_rq_step; [exact H2|there|commutes|done|]. on_with H2.
  eapply wp_locked_rq_step; [exact H2|there|commutes|done|]. on_with H2.
  eapply wp_locked_task_step; [exact H2|there|apply queued_commutes|done|]. on_with H2.
  eapply wp_locked_task_step; [exact H2|there|commutes|done|]. on_with H2.
  rewrite !upd_task_rq_swap, !upd_rq_twice, !upd_task_twice in H2.
  match type of H2 with tracks (locked_task p cpu (upd_rq cpu ?hr (upd_task p ?h _))) _ =>
    set (f := h) in *; set (fr := hr) in * end.
  unfold locked_task in H2. apply wp_bind.
  eapply (wp_track_unlock_rq _ _ cpu (fr r)); [exact H2| |exact Hl|].
  { change (k_rqs (upd_rq cpu fr g) !! cpu = Some (fr r)). by rewrite upd_rq_lookup, decide_True, Hr. }
  on_with H2. apply wp_bind.
  eapply (wp_track_unlock_pi _ _ p (f t)); [exact H2|by apply (upd_task_at p f g)|exact Hpl|].
  on_with H2. eapply wp_track_task; [exact H2|there|commutes|]. on_with H2.
  rewrite upd_task_rq_swap, upd_task_twice in H2. unfold idle_spec. rewrite upd_task_rq_swap. exact H2.
Qed.
End Boot.

(** ** The boot CPU's part *)

(** Attaching a run queue puts it on line when its CPU is active. *)
Definition attached (cpu : Z) (s : kstate) : kstate :=
  if decide (cpu ∈ k_active s)
  then upd_rq cpu (fun r => r <| online := true |>) (s <| k_rd_online := {[ cpu ]} ∪ k_rd_online s |>) else s.

(** The other parts keep to their own data. *)
Class BootLaws {U : UclampApi} (B : BootEnv) : Prop := {
  law_root_bandwidth s : kframe false s (init_root_bandwidth s);
  law_defrootdomain s : kframe false s (init_defrootdomain s);
  law_autogroup p s : kframe false s (autogroup_init p s);
  law_cfs_rq c s : kframe false s (init_cfs_rq c s);
  law_rt_rq c s : kframe false s (init_rt_rq c s);
  law_dl_rq c s : kframe false s (init_dl_rq c s);
  law_cfs_entry c s : kframe false s (init_tg_cfs_entry c s);
  law_rt_runtime c s : kframe false s (set_rt_runtime c s);
  law_rt_entry c s : kframe false s (init_tg_rt_entry c s);
  law_attach_root c s : kframe false (attached c s) (rq_attach_root c s);
  law_hrtimer c s : kframe false s (hrtimer_init c s);
  law_lazy_tlb m p s : kframe false s (enter_lazy_tlb m p s);
  law_calc_load v s : kframe false s (set_calc_load_update v s);
  law_fair_class s : kframe false s (init_sched_fair_class s);
  law_psi s : kframe false s (psi_init s)
}.

(** A CPU and its new idle thread. *)
Definition newcomer : Type := Z * ptr * task_struct.

Section SchedInit.
Context {P : PrioApi} {PL : PrioLaws P} {Y : PolicyApi} {U : UclampApi} {UL : UclampLaws U} {A : AttrFlagApi}
  {F : FlagApi} {FL : FlagLaws F} {C : ClockConfig} {K : SchedClassOps} {KL : SchedClassLaws K}
  {V : SetprioEnv} {VL : SetprioLaws V} {E : MigrateEnv} {EL : MigrateLaws E} {N : ForkEnv} {NL : ForkLaws N}
  {T : TickEnv} {HK : Housekeeping} {H : HotplugEnv} {L : GroupAlloc} {B : BootEnv} {BL : BootLaws B}.

(** One round of the loop, and all rounds. *)
Definition rq_started (i : Z) (g : kstate) : kstate :=
  upd_rq i (fun r => r <| Rq.nr_iowait := 0 |>)
    (attached i (upd_rq i (fun r => r <| rq_lock := false |> <| rq_cpu := i |> <| online := false |>) g)).
Definition rqs_started (l : list Z) (g : kstate) : kstate := fold_left (fun g i => rq_started i g) l g.

Definition with_mm (g : kstate) : kstate :=
  g <| k_mm_count := <[init_mm := default 0 (k_mm_count g !! init_mm) + 1]> (k_mm_count g) |>.

(** The clamps the boot thread asks for, and the system's defaults. *)
Definition default_requests (t : task_struct) : task_struct :=
  let set t id := set_uclamp_req t id (uclamp_se_set (uclamp_req t id) (uclamp_none id) false) in
  set (set t UCLAMP_MIN) UCLAMP_MAX.
Definition with_clamps (g : kstate) : kstate :=
  (upd_task init_task default_requests g) <| k_sys := init_uclamp_sys (k_sys g) |>.

(** What [sched_init] does to the machine, up to the classes' data. *)
Definition boot_spec (s : kstate) : kstate :=
  with_clamps (idle_spec init_task (k_this_cpu s) (with_mm (rqs_started (for_each_cpu (k_possible s)) s))).

Lemma wp_hook_step {X} f g s (k : M X) Q :
  (forall s, kframe false s (f s)) -> tracks g s -> (forall s', tracks g s' -> wp k Q s') -> wp (modify f;; k) Q s.
Proof. intros Hf Hs Hk. apply wp_bind, wp_modify, Hk. eapply tracks_frame; [apply Hf|exact Hs]. Qed.

Lemma tracks_attached i g s : tracks g s -> tracks (attached i g) (attached i s).
Proof.
  intros Hs. unfold attached. destruct (tracks_masks g s Hs) as (_ & -> & _).
  destruct (decide _); [|exact Hs]. apply tracks_upd_rq; [commutes|].
  assert (k_rd_online s = k_rd_online g) as -> by (destruct Hs as [Hx _]; exact (f_equal k_rd_online Hx)).
  by apply (tracks_state (fun x => x <| k_rd_online := {[ i ]} ∪ k_rd_online g |>)).
Qed.

Lemma attached_rq_some i g c : is_Some (k_rqs (attached i g) !! c) <-> is_Some (k_rqs g !! c).
Proof. unfold attached. destruct (decide _); [|done]. by rewrite upd_rq_some. Qed.

Lemma wp_sched_init_rq i g s :
  tracks g s -> is_Some (k_rqs g !! i) -> wp (sched_init_rq i) (fun _ s' => tracks (rq_started i g) s') s.
Proof using BL.
  intros Hs Hr. unfold sched_init_rq.
  apply wp_bind. eapply wp_track_rq; [exact Hs|there|commutes|]. on_with Hs.
  do 2 (apply wp_bind; eapply wp_absorb_rq; [exact Hs|there|done|by intros ? []|]; on_with Hs).
  do 6 (eapply wp_hook_step; [intros; first [apply law_cfs_rq|apply law_rt_rq|apply law_dl_rq|apply law_cfs_entry
    |apply law_rt_runtime|apply law_rt_entry]|exact Hs|]; on_with Hs).
  apply wp_bind; eapply wp_absorb_rq; [exact Hs|there|done|by intros ? []|]; on_with Hs.
  do 2 (apply wp_bind; eapply wp_track_rq; [exact Hs|there|commutes|]; on_with Hs).
  do 3 (apply wp_bind; eapply wp_absorb_rq; [exact Hs|there|done|by intros ? []|]; on_with Hs).
  rewrite !upd_rq_twice in Hs. apply wp_bind, wp_modify.
  apply (tracks_attached i) in Hs.
  match type of Hs with tracks ?g1 (attached i ?x) =>
    assert (tracks g1 (rq_attach_root i x)) as Hs' by (eapply tracks_frame; [apply law_attach_root|exact Hs]);
    clear Hs; revert Hs'; generalize (rq_attach_root i x) end.
  intros s' Hs. match type of Hs with tracks ?x _ => assert (is_Some (k_rqs x !! i)) as Hr' end.
  { apply attached_rq_some. there. }
  apply wp_bind; eapply wp_absorb_rq; [exact Hs|exact Hr'|done|by intros ? []|]; on_with Hs.
  eapply wp_hook_step; [intros; apply law_hrtimer|exact Hs|]; on_with Hs.
  eapply wp_track_rq; [exact Hs|exact Hr'|commutes|]; on_with Hs. exact Hs.
Qed.

Lemma rq_started_some i g c : is_Some (k_rqs (rq_started i g) !! c) <-> is_Some (k_rqs g !! c).
Proof. unfold rq_started. rewrite upd_rq_some, attached_rq_some. apply upd_rq_some. Qed.

(** A loop over CPUs whose rounds implement [step]. *)
Lemma wp_for_cpus step f l : forall g s,
  (forall i g s, i ∈ l -> tracks g s -> is_Some (k_rqs g !! i) -> wp (f i) (fun _ s' => tracks (step i g) s') s) ->
  (forall i g c, is_Some (k_rqs (step i g) !! c) <-> is_Some (k_rqs g !! c)) ->
  tracks g s -> (forall i, i ∈ l -> is_Some (k_rqs g !! i)) ->
  wp (for_cpus l f) (fun _ s' => tracks (fold_left (fun g i => step i g) l g) s') s.
Proof.
  induction l as [|i l IH]; intros g s Hf Hd Hs Hr; [by apply wp_ret|]. cbn [for_cpus foldr fold_left].
  apply wp_bind. eapply wp_mono; [apply (Hf i g s); [by left|done|apply Hr; by left]|]. cbn beta. intros _ s1 H1.
  apply (IH (step i g)); [|done|done|].
  - intros j g' s' Hj. apply Hf. by right.
  - intros j Hj. apply Hd, Hr. by right.
Qed.

(** ** The clamps *)

Definition clamps_reset (l : list Z) (s : kstate) : kstate := fold_left (fun s i => upd_rq i init_uclamp_rq s) l s.

Lemma wp_reset_loop l : forall s (Q : unit -> kstate -> Prop),
  (forall i, i ∈ l -> is_Some (k_rqs s !! i)) -> Q tt (clamps_reset l s) ->
  wp (for_cpus l (fun i => set_rq i init_uclamp_rq)) Q s.
Proof.
  induction l as [|i l IH]; intros s Q Hr HQ; [exact HQ|]. cbn [for_cpus foldr]. apply wp_bind.
  apply wp_upd_rq; [apply Hr; by left|]. apply IH; [|exact HQ].
  intros j Hj. apply upd_rq_some, Hr. by right.
Qed.

Lemma init_uclamp_rq_range r : rq_in_range (init_uclamp_rq r).
Proof using UL.
  pose proof uclamp_buckets_range. intros []; unfold rq_uclamp, init_uclamp_rq; rsimpl; cbn [ucr_bucket]; rewrite length_replicate; lia.
Qed.

Lemma tracks_reset g l : forall s, tracks g s -> tracks g (clamps_reset l s).
Proof using UL.
  induction l as [|i l IH]; intros s Hs; [exact Hs|]. cbn [clamps_reset fold_left]. apply IH.
  eapply (tracks_frame true); [|exact Hs]. destruct (k_rqs s !! i) as [r|] eqn:Hr.
  - unfold upd_rq. rewrite <- (insert_alter (k_rqs s) i r _ Hr).
    eapply kframe_put_rq; [exact Hr|done|]. intros _. apply init_uclamp_rq_range.
  - rewrite upd_rq_id; [done|]. intros r. by rewrite Hr.
Qed.

Lemma reset_rq l : forall s c, NoDup l ->
  k_rqs (clamps_reset l s) !! c = if decide (c ∈ l) then init_uclamp_rq <$> k_rqs s !! c else k_rqs s !! c.
Proof.
  induction l as [|i l IH]; intros s c Hnd; [done|]. apply NoDup_cons in Hnd as [Hi Hnd]. cbn [clamps_reset fold_left].
  change (fold_left _ l ?x) with (clamps_reset l x). rewrite IH by done. rewrite !upd_rq_lookup.
  destruct (decide (c = i)) as [->|Hne].
  - rewrite decide_False by done. by rewrite decide_True by (by left).
  - destruct (decide (c ∈ l)); [by rewrite decide_True by (by right)|].
    rewrite decide_False; [done|]. by intros [?|?]%elem_of_cons.
Qed.

Lemma none_range se id b : buckets_fit -> se_in_range (uclamp_se_set se (uclamp_none id) b).
Proof using UL.
  intros Hfit. apply se_wf_bucket; [exact Hfit|]. apply uclamp_se_set_wf; [exact Hfit|]. by destruct id.
Qed.

Lemma wp_init_uclamp g s : buckets_fit -> tracks g s -> is_Some (k_tasks g !! init_task) ->
  (forall i, i ∈ for_each_cpu (k_possible g) -> is_Some (k_rqs g !! i)) ->
  wp init_uclamp (fun _ s' => tracks (with_clamps g) s' /\
    forall c r, c ∈ for_each_cpu (k_possible g) -> k_rqs s' !! c = Some r ->
      exists r0, r = init_uclamp_rq r0) s.
Proof using UL.
  intros Hfit Hs Hp Hr. unfold init_uclamp. apply wp_bind, wp_get.
  destruct (tracks_masks g s Hs) as (Em & _ & _). rewrite Em. apply wp_bind. apply wp_reset_loop.
  { intros i Hi. eapply tracks_rq_some; [exact Hs|by apply Hr]. }
  assert (tracks g (clamps_reset (for_each_cpu (k_possible g)) s)) as H1 by by apply tracks_reset.
  pose proof (reset_rq (for_each_cpu (k_possible g)) s) as Hrq. revert H1 Hrq.
  generalize (clamps_reset (for_each_cpu (k_possible g)) s). intros s1 H1 Hrq.
  apply wp_bind. apply (wp_upd_task init_task default_requests); [by eapply tracks_task_some|].
  apply wp_modify. split.
  - destruct H1 as [Hx Hc]. split.
    + unfold with_clamps. assert (k_sys s1 = k_sys g) as <- by exact (f_equal k_sys Hx).
      change (core_same true ((upd_task init_task default_requests g) <| k_sys := init_uclamp_sys (k_sys s1) |>)
        ((upd_task init_task default_requests s1) <| k_sys := init_uclamp_sys (k_sys s1) |>)).
      unfold core_same in *. transitivity ((upd_task init_task default_requests (erase true s1)) <| k_sys := init_uclamp_sys (k_sys s1) |>).
      { rewrite <- erase_upd_task by done. reflexivity. }
      rewrite Hx, <- erase_upd_task by done. reflexivity.
    + destruct Hc as [A1 A2 A3]. split; [|exact A2|intros []; apply none_range, Hfit].
      intros q t. change (k_tasks (upd_task init_task default_requests s1) !! q = Some t -> task_in_range t).
      rewrite upd_task_lookup. case_decide; [|apply A1]. intros (t0 & Ht0 & ->)%fmap_Some. intros id.
      pose proof (A1 _ _ Ht0 id) as [Hu _]. split; [by destruct id|]. destruct id; apply none_range, Hfit.
  - intros c r Hc Hcr. change (k_rqs s1 !! c = Some r) in Hcr. rewrite Hrq, decide_True in Hcr by (done || apply NoDup_for_each_cpu).
    apply fmap_Some in Hcr as (r0 & _ & ->). by exists r0.
Qed.

(** ** [sched_init] *)

(** A machine before [sched_init]: one thread, a zeroed run queue for every
    possible CPU, nothing locked. *)
Record cold (s : kstate) (t : task_struct) : Prop := {
  cold_tasks : k_tasks s = {[ init_task := t ]};
  cold_pi : pi_lock t = false;
  cold_prio : static_ok t;
  cold_rqs i : i ∈ for_each_cpu (k_possible s) <-> is_Some (k_rqs s !! i);
  cold_this : is_Some (k_rqs s !! k_this_cpu s);
  cold_counts c r : k_rqs s !! c = Some r -> nr_uninterruptible r = 0 /\ Rq.nr_switches r = 0;
  cold_clamps : clamps_in_range s
}.

Lemma rq_started_fields i g :
  k_tasks (rq_started i g) = k_tasks g /\ k_this_cpu (rq_started i g) = k_this_cpu g /\
  k_possible (rq_started i g) = k_possible g /\ k_active (rq_started i g) = k_active g.
Proof. unfold rq_started, attached. by destruct (decide _). Qed.

Lemma rqs_started_fields l : forall g,
  k_tasks (rqs_started l g) = k_tasks g /\ k_this_cpu (rqs_started l g) = k_this_cpu g /\
  k_possible (rqs_started l g) = k_possible g.
Proof.
  induction l as [|i l IH]; intros g; [done|]. cbn [rqs_started fold_left]. change (fold_left _ l ?x) with (rqs_started l x).
  destruct (IH (rq_started i g)) as (-> & -> & ->). destruct (rq_started_fields i g) as (? & ? & ? & _). done.
Qed.

Lemma rqs_started_some l : forall g c, is_Some (k_rqs (rqs_started l g) !! c) <-> is_Some (k_rqs g !! c).
Proof.
  induction l as [|i l IH]; intros g c; [done|]. cbn [rqs_started fold_left]. change (fold_left _ l ?x) with (rqs_started l x).
  rewrite (IH (rq_started i g) c). apply rq_started_some.
Qed.

(** What the loop leaves in a run queue. *)
Definition as_started (active : gset Z) (c : Z) (r : rq) : rq :=
  r <| rq_lock := false |> <| rq_cpu := c |> <| online := bool_decide (c ∈ active) |> <| Rq.nr_iowait := 0 |>.

Lemma rq_started_lookup i g c :
  k_rqs (rq_started i g) !! c =
  if decide (c = i) then as_started (k_active g) i <$> k_rqs g !! c else k_rqs g !! c.
Proof.
  unfold rq_started, attached. rewrite upd_rq_lookup.
  change (k_active (upd_rq i ?f g)) with (k_active g).
  destruct (decide (i ∈ k_active g)) as [Ha|Ha]; rewrite ?upd_rq_lookup;
    change (k_rqs ((upd_rq i ?f g) <| k_rd_online := ?v |>)) with (k_rqs (upd_rq i f g));
    rewrite ?upd_rq_lookup; destruct (decide (c = i)) as [->|]; try done;
    rewrite <- !option_fmap_compose; unfold as_started; apply option_fmap_ext; intros r; cbn.
  - by rewrite bool_decide_eq_true_2.
  - by rewrite bool_decide_eq_false_2.
Qed.

Lemma rqs_started_lookup l : forall g c, NoDup l ->
  k_rqs (rqs_started l g) !! c =
  if decide (c ∈ l) then as_started (k_active g) c <$> k_rqs g !! c else k_rqs g !! c.
Proof.
  induction l as [|i l IH]; intros g c Hnd; [done|]. apply NoDup_cons in Hnd as [Hi Hnd].
  cbn [rqs_started fold_left]. change (fold_left _ l ?x) with (rqs_started l x). rewrite IH by done.
  destruct (rq_started_fields i g) as (_ & _ & _ & ->). rewrite rq_started_lookup.
  destruct (decide (c = i)) as [->|Hne].
  - rewrite decide_False by done. by rewrite decide_True by (by left).
  - destruct (decide (c ∈ l)); [by rewrite decide_True by (by right)|].
    rewrite decide_False; [done|]. by intros [?|?]%elem_of_cons.
Qed.

Lemma tracks_with_mm g s : tracks g s -> wp (mmgrab init_mm) (fun _ s' => tracks (with_mm g) s') s.
Proof.
  intros Hs. apply wp_modify. rewrite (tracks_mm_count _ _ Hs).
  by apply (tracks_state (fun x => x <| k_mm_count := <[init_mm := default 0 (k_mm_count g !! init_mm) + 1]> (k_mm_count g) |>)).
Qed.

(** Weights are a class's data. *)
Lemma wp_boot_weight {X} g s t (k : M X) Q :
  tracks g s -> k_tasks g !! init_task = Some t -> static_ok t -> (forall s', tracks g s' -> wp k Q s') ->
  wp (t ← task_of init_task; t ← lift_option (set_load_weight reweight_task t false); put_task init_task t;; k) Q s.
Proof using VL.
  intros Hs Ht Hok Hk. destruct (tracks_task _ _ _ _ Hs Ht) as (t1 & Ht1 & Et).
  destruct (set_load_weight_frame t1 false) as (t2 & E2 & Ee & Hu).
  { unfold static_ok. by rewrite (erase_field true static_prio _ _ ltac:(kept_field) Et). }
  apply wp_bind. eapply wp_task_of; [exact Ht1|]. rewrite E2. apply wp_bind, wp_lift_option, wp_bind, wp_put_task, Hk.
  eapply (tracks_frame false); [|exact Hs]. eapply kframe_put_task; [exact Ht1|exact Ee|].
  intros Hx id. destruct (Hu id) as [-> ->]. apply Hx.
Qed.

Lemma core_rq_back w s s' c : core_same w s s' -> is_Some (k_rqs s' !! c) -> is_Some (k_rqs s !! c).
Proof.
  intros Hx [r Hr]. assert (core_same w s' s) as Hy by by symmetry.
  destruct (proj2 (core_same_lookup _ _ _ Hy) _ _ Hr) as (r' & -> & _). by exists r'.
Qed.

Lemma boot_spec_rq s c : is_Some (k_rqs (boot_spec s) !! c) <-> is_Some (k_rqs s !! c).
Proof.
  unfold boot_spec, idle_spec.
  change (k_rqs (with_clamps (upd_task init_task ?f ?x))) with (k_rqs x). rewrite upd_rq_some. apply rqs_started_some.
Qed.

(** From a cold machine [sched_init] runs to its end, without BUG and without
    waiting for a lock, does to the machine what [boot_spec] says, and leaves
    every run queue's clamp buckets empty. *)
Lemma wp_sched_init_machine s t :
  buckets_fit -> cold s t ->
  wp sched_init_machine (fun _ s' => tracks (boot_spec s) s' /\
    forall c r, k_rqs s' !! c = Some r -> exists r0, r = init_uclamp_rq r0) s.
Proof using All.
  intros Hfit [Htasks Hpi Hok Hrqs Hthis Hcounts Hclamps]. unfold sched_init_machine.
  assert (tracks s s) as Hs by by apply tracks_refl. revert Hs. generalize s at 2 4. intros x Hs.
  do 3 (eapply wp_hook_step; [intros; first [apply law_root_bandwidth|apply law_defrootdomain|apply law_autogroup]|exact Hs|];
    on_with Hs).
  apply wp_bind, wp_get. destruct (tracks_masks _ _ Hs) as (Em & _ & _). rewrite Em.
  set (l := for_each_cpu (k_possible s)) in *. apply wp_bind. eapply wp_mono.
  { apply (wp_for_cpus rq_started sched_init_rq l s); [|apply rq_started_some|exact Hs|intros i; apply Hrqs].
    intros i g x' _ Hx Hr. by apply wp_sched_init_rq. }
  cbn beta. intros _ x1 H1. change (fold_left _ l s) with (rqs_started l s) in H1. set (g := rqs_started l s) in *.
  destruct (rqs_started_fields l s) as (Et & Ec & Ep).
  assert (k_tasks g !! init_task = Some t) as Ht by (unfold g; by rewrite Et, Htasks, lookup_singleton_eq).
  eapply wp_boot_weight; [exact H1|exact Ht|exact Hok|]. on_with H1. apply wp_bind.
  eapply wp_mono; [by apply tracks_with_mm|]. cbn beta. intros _ x2 H2.
  eapply wp_hook_step; [intros; apply law_lazy_tlb|exact H2|]; on_with H2.
  destruct Hthis as [r0 Hr0]. assert (k_this_cpu s ∈ l) as Hin by (apply Hrqs; by exists r0).
  apply wp_bind. unfold smp_processor_id. apply wp_bind, wp_get, wp_ret.
  rewrite (tracks_this_cpu _ _ H2). change (k_this_cpu (with_mm g)) with (k_this_cpu g). unfold g at 1. rewrite Ec.
  apply wp_bind. eapply wp_mono.
  { apply (wp_init_idle (with_mm g) _ init_task (k_this_cpu s) t (as_started (k_active s) (k_this_cpu s) r0));
      [exact H2|exact Ht|exact Hpi| |done].
    change (k_rqs g !! k_this_cpu s = Some (as_started (k_active s) (k_this_cpu s) r0)). unfold g.
    rewrite rqs_started_lookup, decide_True by (done || apply NoDup_for_each_cpu). by rewrite Hr0. }
  cbn beta. intros _ x3 H3.
  do 3 (eapply wp_hook_step; [intros; first [apply law_calc_load|apply law_fair_class|apply law_psi]|exact H3|]; on_with H3).
  eapply wp_mono; [apply (wp_init_uclamp (idle_spec init_task (k_this_cpu s) (with_mm g))); [exact Hfit|exact H3| |]|].
  - unfold idle_spec. there.
  - intros i. change (k_possible (idle_spec _ _ _)) with (k_possible g). unfold g. rewrite Ep. intros Hi%Hrqs.
    unfold idle_spec. there. change (is_Some (k_rqs g !! i)). unfold g. by apply rqs_started_some.
  - cbn beta. intros _ x4 [H4 Hz]. split; [exact H4|]. intros c r Hc. apply (Hz c r); [|exact Hc].
    change (k_possible (idle_spec _ _ _)) with (k_possible g). unfold g. rewrite Ep. apply Hrqs.
    by apply (boot_spec_rq s), (core_rq_back true _ x4); [apply H4|by exists r].
Qed.

(** ** After [sched_init] only idle tasks exist, each on its CPU *)

Definition task_seen (t : task_struct) : bool * bool * bool := (nz (on_cpu t), nz (on_rq t), pi_lock t).
Definition rq_seen (r : rq) : ptr * ptr * bool * Z * Z := (curr r, idle r, rq_lock r, Rq.nr_iowait r, nr_uninterruptible r).
Definition tasks_seen (s : kstate) (p : ptr) := task_seen <$> k_tasks s !! p.
Definition rqs_seen (s : kstate) (c : Z) := rq_seen <$> k_rqs s !! c.

(** [on p]: the CPU of the idle task [p]. *)
Record awake (on : gmap ptr Z) (s : kstate) : Prop := {
  aw_task p v : tasks_seen s p = Some v -> v = (true, true, false) /\ is_Some (on !! p);
  aw_on p c : on !! p = Some c -> is_Some (tasks_seen s p) /\ rqs_seen s c = Some (p, p, false, 0, 0);
  aw_rq c v : rqs_seen s c = Some v -> exists p q, v = (p, q, false, 0, 0)
}.

Lemma awake_core on s s' : core_same true s s' -> awake on s -> awake on s'.
Proof.
  intros Hx [A1 A2 A3].
  assert (forall p, tasks_seen s' p = tasks_seen s p) as Ht.
  { intros p. apply core_same_view; [|exact Hx]. intros t. unfold task_seen. by rewrite erase_queued. }
  assert (forall c, rqs_seen s' c = rqs_seen s c) as Hr by (intros c; by apply core_same_rq_view).
  split; intros *; rewrite ?Ht, ?Hr; [apply A1|apply A2|apply A3].
Qed.

(** Once every CPU has its idle task, the machine is well formed and its books
    are balanced. *)
Lemma awake_well_formed on s :
  (forall c, is_Some (k_rqs s !! c) -> exists p, on !! p = Some c) -> awake on s -> well_formed s.
Proof.
  intros Hall [A1 A2 A3].
  assert (forall c p, runs s c = Some p -> on !! p = Some c) as Hon.
  { intros c p Hc. unfold runs in Hc. destruct (k_rqs s !! c) as [r|] eqn:Hr; [|done].
    destruct (Hall c) as [q Hq]; [by eexists|]. destruct (A2 q c Hq) as [_ Hs]. unfold rqs_seen, rq_seen in Hs. rewrite Hr in Hs.
    cbn in Hc, Hs. congruence. }
  split.
  - intros c p Hc%Hon. destruct (A2 p c Hc) as [[v Hv] _]. destruct (A1 p v Hv) as [-> _].
    unfold tasks_seen, task_seen in Hv. unfold busy. destruct (k_tasks s !! p); [|done]. cbn in *. congruence.
  - intros c d p Hc%Hon Hd%Hon. congruence.
  - intros p Hp. assert (exists v, tasks_seen s p = Some v) as [v Hv].
    { unfold busy in Hp. unfold tasks_seen. destruct (k_tasks s !! p); [by eexists|done]. }
    destruct (A1 p v Hv) as [_ [c Hc]]. exists c. destruct (A2 p c Hc) as [_ Hs].
    unfold rqs_seen, rq_seen in Hs. unfold runs. destruct (k_rqs s !! c); [|done]. cbn in *. congruence.
Qed.

Lemma msum_zero {K' X} `{Countable K'} (f : X -> Z) (m : gmap K' X) :
  (forall k x, m !! k = Some x -> f x = 0) -> msum f m = 0.
Proof.
  intros Hf. rewrite (msum_ext f (fun _ => 0) m Hf). clear Hf.
  induction m as [|k x m Hk IH] using map_ind; [apply msum_empty|]. by rewrite msum_insert, IH.
Qed.

Lemma awake_accounted on s : awake on s -> accounted s.
Proof.
  intros [A1 A2 A3].
  assert (forall p t, k_tasks s !! p = Some t -> io_sleeper t = 0 /\ load_sleeper t = 0) as Ht.
  { intros p t Hp. assert (tasks_seen s p = Some (task_seen t)) as Hv by (unfold tasks_seen; by rewrite Hp).
    destruct (A1 _ _ Hv) as [Ev _]. unfold task_seen in Ev. injection Ev as _ Eq _.
    unfold io_sleeper, load_sleeper. by rewrite (queued_awake t Eq). }
  assert (forall c r, k_rqs s !! c = Some r -> Rq.nr_iowait r = 0 /\ nr_uninterruptible r = 0) as Hr.
  { intros c r Hc. assert (rqs_seen s c = Some (rq_seen r)) as Hv by (unfold rqs_seen; by rewrite Hc).
    destruct (A3 _ _ Hv) as (p & q & Ev). unfold rq_seen in Ev. by injection Ev. }
  unfold accounted. rewrite !msum_zero; [done|intros; by eapply Ht|intros; by eapply Hr|intros; by eapply Ht|intros; by eapply Hr].
Qed.

Lemma as_idle_seen cpu t : task_seen (as_idle cpu t) = (true, true, pi_lock t).
Proof using FL.
  transitivity (true, nz TASK_ON_RQ_QUEUED, pi_lock t); [reflexivity|]. by destruct on_rq_values as [-> _].
Qed.

Lemma default_requests_seen t : task_seen (default_requests t) = task_seen t.
Proof. destruct t. reflexivity. Qed.

(** A CPU gets its idle task. *)
Lemma awake_idle on s p cpu r t :
  awake on s -> on !! p = None -> (forall q, on !! q <> Some cpu) -> k_tasks s !! p = None ->
  k_rqs s !! cpu = Some r -> pi_lock t = false ->
  awake (<[p := cpu]> on) (idle_spec p cpu (s <| k_tasks := <[p := t]> (k_tasks s) |>)).
Proof using FL.
  intros [A1 A2 A3] Hp Hcpu Htp Hr Hl. set (s1 := s <| k_tasks := _ |>).
  assert (forall q, tasks_seen (idle_spec p cpu s1) q = if decide (q = p) then Some (true, true, false) else tasks_seen s q) as Ht.
  { intros q. unfold tasks_seen, idle_spec. rewrite upd_task_lookup.
    change (k_tasks (upd_rq cpu ?f s1)) with (<[p := t]> (k_tasks s)). destruct (decide (q = p)) as [->|Hne].
    - rewrite lookup_insert_eq. cbn [fmap option_fmap option_map].
      by rewrite as_idle_seen, Hl.
    - by rewrite lookup_insert_ne. }
  assert (forall c, rqs_seen (idle_spec p cpu s1) c = if decide (c = cpu) then Some (p, p, false, 0, 0) else rqs_seen s c) as Hrq.
  { intros c. unfold rqs_seen, idle_spec. change (k_rqs (upd_task p ?f ?x)) with (k_rqs x). rewrite upd_rq_lookup.
    change (k_rqs s1) with (k_rqs s). destruct (decide (c = cpu)) as [->|]; [|done]. rewrite Hr. cbn.
    destruct (A3 cpu (rq_seen r)) as (x & y & Ex); [unfold rqs_seen; by rewrite Hr|]. unfold rq_seen in Ex.
    injection Ex as _ _ E1 E2 E3. unfold rq_seen. rsimpl. by rewrite E1, E2, E3. }
  split.
  - intros q v. rewrite Ht. destruct (decide (q = p)) as [->|Hne].
    + intros [= <-]. split; [done|]. rewrite lookup_insert_eq. by eexists.
    + intros Hv. destruct (A1 q v Hv). by rewrite lookup_insert_ne.
  - intros q c. rewrite Ht, Hrq. intros [[<- <-]|[Hne Hq]]%lookup_insert_Some.
    + rewrite !decide_True by done. split; [by eexists|done].
    + rewrite decide_False by done. rewrite decide_False by (intros ->; by apply (Hcpu q)). by apply A2.
  - intros c v. rewrite Hrq. destruct (decide (c = cpu)); [intros [= <-]; by exists p, p|apply A3].
Qed.

(** The books of a started run queue. *)
Lemma started_seen s t c v : cold s t ->
  rqs_seen (rqs_started (for_each_cpu (k_possible s)) s) c = Some v -> exists p q, v = (p, q, false, 0, 0).
Proof.
  intros Hcold. unfold rqs_seen. rewrite rqs_started_lookup by apply NoDup_for_each_cpu.
  destruct (k_rqs s !! c) as [r|] eqn:Hr; [|by destruct (decide _)].
  rewrite decide_True by (apply (cold_rqs _ _ Hcold); by exists r). intros [= <-].
  destruct (cold_counts _ _ Hcold c r Hr) as [Hu _]. exists (curr r), (idle r).
  transitivity (curr r, idle r, false, 0, nr_uninterruptible r); [reflexivity|]. by rewrite Hu.
Qed.

Lemma awake_boot s t : cold s t -> awake {[ init_task := k_this_cpu s ]} (boot_spec s).
Proof using FL.
  intros Hcold. set (g := rqs_started (for_each_cpu (k_possible s)) s). set (cpu := k_this_cpu s).
  destruct (rqs_started_fields (for_each_cpu (k_possible s)) s) as (Et & _ & _). fold g in Et.
  assert (forall p, tasks_seen (boot_spec s) p = if decide (p = init_task) then Some (true, true, false) else None) as Ht.
  { intros p. unfold tasks_seen, boot_spec, with_clamps, idle_spec. fold g cpu.
    change (k_tasks (?x <| k_sys := ?v |>)) with (k_tasks x). rewrite !upd_task_lookup.
    change (k_tasks (upd_rq cpu ?f (with_mm g))) with (k_tasks g). rewrite Et, (cold_tasks _ _ Hcold).
    destruct (decide (p = init_task)) as [->|Hne]; [|by rewrite lookup_singleton_ne].
    rewrite lookup_singleton_eq. cbn [fmap option_fmap option_map].
    by rewrite default_requests_seen, as_idle_seen, (cold_pi _ _ Hcold). }
  assert (forall c, rqs_seen (boot_spec s) c = if decide (c = cpu) then Some (init_task, init_task, false, 0, 0) else rqs_seen g c) as Hr.
  { intros c. unfold rqs_seen, boot_spec, idle_spec. fold g cpu.
    change (k_rqs (with_clamps (upd_task init_task ?f ?x))) with (k_rqs x). rewrite upd_rq_lookup.
    change (k_rqs (with_mm g)) with (k_rqs g). destruct (decide (c = cpu)) as [->|]; [|done].
    destruct (cold_this _ _ Hcold) as [r0 Hr0]. destruct (k_rqs g !! cpu) as [r|] eqn:Hg.
    2:{ assert (is_Some (k_rqs g !! cpu)) as [? ?] by (apply rqs_started_some; by exists r0). congruence. }
    destruct (started_seen s t cpu (rq_seen r) Hcold) as (x & y & Ex); [unfold rqs_seen; by fold g; rewrite Hg|].
    unfold rq_seen in Ex. injection Ex as _ _ E1 E2 E3. cbn [fmap option_fmap option_map].
    transitivity (Some (init_task, init_task, rq_lock r, Rq.nr_iowait r, nr_uninterruptible r)); [reflexivity|].
    by rewrite E1, E2, E3. }
  split.
  - intros p v. rewrite Ht. destruct (decide (p = init_task)) as [->|]; [|done]. intros [= <-].
    split; [done|]. rewrite lookup_singleton_eq. by eexists.
  - intros p c [<- <-]%lookup_singleton_Some. rewrite Ht, Hr, !decide_True by done. split; [by eexists|done].
  - intros c v. rewrite Hr. destruct (decide (c = cpu)); [intros [= <-]; by do 2 eexists|by apply (started_seen s t)].
Qed.

(** ** The other CPUs *)

(** Every other possible CPU is given a new thread as its idle task. *)
Definition start_cpus (l : list newcomer) : M unit :=
  foldr (fun '(cpu, p, t) k => put_task p t;; init_idle p cpu;; k) (mret tt) l.

Definition idle_map (on : gmap ptr Z) (l : list newcomer) : gmap ptr Z :=
  fold_left (fun on '(cpu, p, _) => <[p := cpu]> on) l on.

(** The threads are new, and no CPU gets two. *)
Fixpoint newcomers (on : gmap ptr Z) (l : list newcomer) : Prop :=
  match l with
  | [] => True
  | (cpu, p, t) :: l =>
      on !! p = None /\ (forall q, on !! q <> Some cpu) /\ pi_lock t = false /\ task_in_range t /\
      newcomers (<[p := cpu]> on) l
  end.

Lemma idle_map_in l : forall on, newcomers on l ->
  (forall p c, on !! p = Some c -> idle_map on l !! p = Some c) /\
  (forall cpu p t, (cpu, p, t) ∈ l -> idle_map on l !! p = Some cpu).
Proof.
  induction l as [|[[cpu p] t] l IH]; intros on Hn.
  { split; [done|]. intros * H1. by apply not_elem_of_nil in H1. }
  destruct Hn as (Hp & _ & _ & _ & Hn). cbn [idle_map fold_left]. change (fold_left _ l ?x) with (idle_map x l).
  destruct (IH _ Hn) as [I1 I2]. split.
  - intros q c Hq. apply I1. rewrite lookup_insert_ne; [done|]. congruence.
  - intros c q u [[= -> -> ->]|Hin]%elem_of_cons; [apply I1; by rewrite lookup_insert_eq|by apply (I2 _ _ u)].
Qed.

Lemma wp_start_cpus l : forall on s,
  awake on s -> clamps_in_range s -> newcomers on l -> (forall cpu p t, (cpu, p, t) ∈ l -> is_Some (k_rqs s !! cpu)) ->
  wp (start_cpus l) (fun _ s' => awake (idle_map on l) s' /\ clamps_in_range s' /\
    forall c, is_Some (k_rqs s' !! c) -> is_Some (k_rqs s !! c)) s.
Proof using FL KL EL NL.
  induction l as [|[[cpu p] t] l IH]; intros on s Ha Hc Hn Hr; [by apply wp_ret|].
  destruct Hn as (Hp & Hcpu & Hpl & Hrange & Hn). cbn [start_cpus foldr idle_map fold_left].
  change (foldr _ (mret tt) l) with (start_cpus l). change (fold_left _ l ?x) with (idle_map x l).
  destruct (Hr cpu p t) as [r Hr0]; [by left|].
  assert (k_tasks s !! p = None) as Hfree.
  { destruct (k_tasks s !! p) as [t0|] eqn:Ht0; [|done]. exfalso.
    destruct (aw_task _ _ Ha p (task_seen t0)) as [_ [c Hon]]; [unfold tasks_seen; by rewrite Ht0|congruence]. }
  assert (rq_lock r = false) as Hl.
  { destruct (aw_rq _ _ Ha cpu (rq_seen r)) as (x & y & Ex); [unfold rqs_seen; by rewrite Hr0|]. by injection Ex. }
  apply wp_bind, wp_put_task. set (s1 := s <| k_tasks := <[p := t]> (k_tasks s) |>).
  assert (clamps_in_range s1) as Hc1.
  { destruct Hc as [C1 C2 C3]. split; [|exact C2|exact C3]. intros q u. change (k_tasks s1) with (<[p := t]> (k_tasks s)).
    intros [[<- <-]|[_ Hq]]%lookup_insert_Some; [exact Hrange|by eapply C1]. }
  apply wp_bind. eapply wp_mono.
  { apply (wp_init_idle s1 s1 p cpu t r); [by apply tracks_refl|apply lookup_insert_eq|exact Hpl|exact Hr0|exact Hl]. }
  cbn beta. intros _ s2 [H2 Hc2].
  assert (awake (<[p := cpu]> on) s2) as Ha2.
  { eapply awake_core; [exact H2|]. by apply (awake_idle on s p cpu r t). }
  assert (forall c, is_Some (k_rqs s2 !! c) -> is_Some (k_rqs s !! c)) as Hback.
  { intros c H3%(core_rq_back true _ _ c H2). unfold idle_spec in H3.
    change (is_Some (k_rqs (upd_rq cpu (fun r => r <| idle := p |> <| curr := p |>) s1) !! c)) in H3.
    by apply upd_rq_some in H3. }
  eapply wp_mono; [apply (IH (<[p := cpu]> on) s2 Ha2 Hc2 Hn)|].
  - intros c q u Hin. destruct (proj2 (core_same_lookup _ _ _ H2) c) with (r := default r (k_rqs (idle_spec p cpu s1) !! c))
      as (r' & Hr' & _); [|by exists r'].
    destruct (k_rqs (idle_spec p cpu s1) !! c) eqn:Hx; [done|]. exfalso.
    assert (is_Some (k_rqs (idle_spec p cpu s1) !! c)) as [? ?]; [|congruence].
    unfold idle_spec. there. change (is_Some (k_rqs s !! c)). apply (Hr c q u). by right.
  - cbn beta. intros _ s3 (H3 & H4 & H5). split; [exact H3|]. split; [exact H4|]. intros c Hx. by apply Hback, H5.
Qed.

(** What the theorems about histories start from. *)
Record ready (s : kstate) : Prop := {
  ready_well_formed : well_formed s;
  ready_accounted : accounted s;
  ready_clamps : clamps_in_range s;
  ready_unlocked c r : k_rqs s !! c = Some r -> rq_lock r = false /\ idle r = curr r;
  ready_idle c : is_Some (k_rqs s !! c) -> idle_ok s c
}.

Lemma awake_ready on s :
  (forall c, is_Some (k_rqs s !! c) -> exists p, on !! p = Some c) -> awake on s -> clamps_in_range s -> ready s.
Proof.
  intros Hall Ha Hc.
  assert (forall c r, k_rqs s !! c = Some r -> exists t, k_tasks s !! curr r = Some t /\ idle r = curr r /\ rq_lock r = false) as Hr.
  { intros c r Hr. destruct (Hall c) as [p Hp]; [by eexists|]. destruct (aw_on _ _ Ha p c Hp) as [[v Hv] Hs].
    unfold rqs_seen, rq_seen in Hs. rewrite Hr in Hs. cbn in Hs. injection Hs as E1 E2 E3 _ _.
    unfold tasks_seen in Hv. rewrite E1. destruct (k_tasks s !! p) as [t|]; [|done]. exists t. by rewrite E2. }
  split.
  - by apply (awake_well_formed on).
  - by apply (awake_accounted on).
  - exact Hc.
  - intros c r (t & _ & ? & ?)%Hr. done.
  - intros c [r Hcr]. destruct (Hr c r Hcr) as (t & Ht & Ei & _). exists r. split; [exact Hcr|]. exists t.
    rewrite Ei. split; [exact Ht|]. split; right; by exists r.
Qed.

(** The root group, alone, with the clamps that bind nobody. *)
Lemma root_group_ok g : task_groups g = [] ->
  let g' := sched_init_groups g in
  groups_ok (mk_tg_sys (tg_tree g') (task_groups g') (init_uclamp_root (tg_clamps g'))) (Group root_task_group []).
Proof using UL.
  intros Hg g'. split; cbn [tg_tree task_groups tg_clamps g' sched_init_groups].
  - apply linked_iff. cbn. split; [by rewrite lookup_insert_eq|by constructor].
  - cbn. apply NoDup_singleton.
  - by rewrite Hg.
  - apply consistent_iff. cbn [group_id children]. split; [|by constructor].
    unfold group_ok, init_uclamp_root. rewrite set_group_same. unfold values, requests.
    cbn [tgu_min tgu_max tgu_req_min tgu_req_max fmap option_fmap option_map]. by rewrite !uclamp_se_set_value.
  - intros p Hp%list_elem_of_singleton. subst p. unfold init_uclamp_root. rewrite set_group_same.
    unfold requests. cbn [tgu_req_min tgu_req_max]. by rewrite !uclamp_se_set_value.
Qed.

(** C13. Boot makes the machine that the theorems about histories start from.  From
    a cold machine (one thread, zeroed run queues) [sched_init] runs to its end,
    without BUG and without waiting for a lock, and so does the setting up of an
    idle thread for every other CPU; then every CPU runs its own idle task and no
    other, the counts of sleepers agree with the tasks, every clamp index is in
    range, nothing is locked, and the root group is alone in the tree of groups,
    with clamps that bind nobody.  From there on, along every history of what the
    CPUs do, no task runs on two CPUs, and the counts of sleepers stay right. *)
Theorem boot_makes_ready (b : boot_state) (t : task_struct) (l : list newcomer) :
  let s := b_machine b in
  buckets_fit -> cold s t -> task_groups (b_groups b) = [] -> newcomers {[ init_task := k_this_cpu s ]} l ->
  (forall c, c ∈ for_each_cpu (k_possible s) <-> c = k_this_cpu s \/ exists p u, (c, p, u) ∈ l) ->
  exists b' s', sched_init b = Some b' /\ start_cpus l (b_machine b') = Ok tt s' /\ ready s' /\
    groups_ok (b_groups b') (Group root_task_group []) /\ scheduler_running b' = true /\
    (forall s, rtc activity s' s -> well_formed s) /\ (forall s, rtc sleep_step s' s -> accounted s).
Proof using All.
  intros s Hfit Hcold Hgroups Hn Hall.
  assert (wp sched_init_machine (fun _ s1 => wp (start_cpus l) (fun _ s' => ready s') s1) s) as Hw.
  { eapply wp_mono; [by apply (wp_sched_init_machine s t)|]. cbn beta. intros _ s1 [[H1 Hc1] _].
    assert (forall c, is_Some (k_rqs s1 !! c) <-> c ∈ for_each_cpu (k_possible s)) as Hdom.
    { intros c. rewrite (cold_rqs _ _ Hcold c), <- (boot_spec_rq s c). split; [by apply (core_rq_back true)|].
      apply (core_rq_back true). by symmetry. }
    eapply wp_mono; [apply (wp_start_cpus l {[ init_task := k_this_cpu s ]} s1);
      [eapply awake_core; [exact H1|by apply (awake_boot s t)]|exact Hc1|exact Hn|]|].
    - intros c p u Hin. apply Hdom, Hall. right. by exists p, u.
    - cbn beta. intros _ s2 (Ha & Hc2 & Hback). apply (awake_ready (idle_map {[ init_task := k_this_cpu s ]} l)); [|done|done].
      destruct (idle_map_in l _ Hn) as [I1 I2].
      intros c Hx%Hback%Hdom%Hall. destruct Hx as [->|(p & u & Hin)].
      + exists init_task. apply I1, lookup_singleton_eq.
      + exists p. by apply (I2 c p u). }
  apply wp_elim in Hw as ([] & s1 & E1 & Hw). apply wp_elim in Hw as ([] & s2 & E2 & Hready).
  unfold sched_init. fold s. rewrite E1. eexists _, s2. split; [reflexivity|]. split; [exact E2|].
  split; [exact Hready|]. split; [by apply root_group_ok|]. split; [done|]. split; intros y Hy.
  - apply (history_well_formed _ _ Hy), Hready.
  - apply (history_accounted _ _ Hy), Hready.
Qed.
End SchedInit.

(** ** Two CPUs start *)

#[export] Instance plain_boot : BootEnv := {|
  init_task := 1%positive;
  jiffies := 4294892296;
  LOAD_FREQ := 1251;
  sysctl_sched_migration_cost := 500000;
  ROOT_TASK_GROUP_LOAD := 2 ^ 20;
  init_root_bandwidth s := s;
  init_defrootdomain s := s;
  autogroup_init _ s := s;
  init_cfs_rq _ s := s;
  init_rt_rq _ s := s;
  init_dl_rq _ s := s;
  init_tg_cfs_entry _ s := s;
  set_rt_runtime _ s := s;
  init_tg_rt_entry _ s := s;
  rq_attach_root := attached;
  hrtimer_init _ s := s;
  enter_lazy_tlb _ _ s := s;
  set_calc_load_update _ s := s;
  init_sched_fair_class s := s;
  psi_init s := s
|}.
#[export] Instance plain_boot_laws {U : UclampApi} : BootLaws plain_boot.
Proof. split; intros; done. Qed.

(** The static descriptor of the boot thread, zeroed run queues of two CPUs of
    which one is up; CPU 1 gets task 2. *)
Definition boot_thread : task_struct :=
  zero_task <| static_prio := 120 |> <| normal_prio := 120 |> <| prio := 120 |> <| usage := 2 |>.
Definition zeroed_rq : rq := init_uclamp_rq (zero_rq 0 1%positive) <| rq_lock := true |>.
Definition cold_machine : kstate :=
  mk_kstate {[ 1%positive := boot_thread ]} {[ 0 := zeroed_rq; 1 := zeroed_rq ]} 0 1 true []
    (mk_uclamp_sys 1024 1024 zero_uclamp_se zero_uclamp_se) ∅ {[ 0 ]} {[ 0 ]} {[ 0; 1 ]} 0 []
    (sched_tick_offload_init {[ 0 ]}) false 0 0 ∅.
Definition cold_start : boot_state :=
  mk_boot_state cold_machine (mk_tg_sys ∅ [] (fun _ => zero_tg_uclamp)) 0 (mk_sched_keys false false true) false.
Definition second_idle : newcomer := (1, 2%positive, boot_thread).

Lemma cold_machine_ok : cold cold_machine boot_thread.
Proof.
  split; try done.
  - intros i. change (for_each_cpu (k_possible cold_machine)) with ([0; 1] : list Z).
    change (k_rqs cold_machine) with (<[0 := zeroed_rq]> {[ 1 := zeroed_rq ]} : gmap Z rq).
    rewrite !lookup_insert_is_Some', lookup_singleton_is_Some, !elem_of_cons, elem_of_nil.
    split; [intros [->|[->|[]]]; auto|intros [<-|<-]; auto].
  - intros c r. change (k_rqs cold_machine) with (<[0 := zeroed_rq]> {[ 1 := zeroed_rq ]} : gmap Z rq).
    intros [[<- <-]|[_ [<- <-]%lookup_singleton_Some]]%lookup_insert_Some; done.
  - apply clamps_b_ok. vm_compute. reflexivity.
Qed.

Lemma second_idle_new : newcomers (U := five_buckets) {[ 1%positive := 0 ]} [second_idle].
Proof.
  split; [done|]. split; [by intros q [_ [=]]%lookup_singleton_Some|]. split; [done|]. split; [|done].
  intros []; vm_compute; split; split; congruence.
Qed.

Lemma boot_makes_ready_witness :
  exists b' s', sched_init (H := one_core false false) cold_start = Some b' /\
    start_cpus (H := one_core false false) [second_idle] (b_machine b') = Ok tt s' /\
    ready s' /\ groups_ok (b_groups b') (Group root_task_group []) /\ scheduler_running b' = true /\
    (forall s, rtc activity s' s -> well_formed s) /\ (forall s, rtc sleep_step s' s -> accounted s).
Proof.
  apply (boot_makes_ready (P := linux58_prio) (U := five_buckets) (UL := uclamp_config_laws 5 ltac:(lia))
    (K := choosing 3%positive) (H := one_core false false) cold_start boot_thread [second_idle]).
  - done.
  - exact cold_machine_ok.
  - done.
  - exact second_idle_new.
  - intros c. change (for_each_cpu (k_possible (b_machine cold_start))) with ([0; 1] : list Z).
    change (k_this_cpu (b_machine cold_start)) with 0. split.
    + intros [->|[->|?%not_elem_of_nil]%elem_of_cons]%elem_of_cons; [by left|right; exists 2%positive, boot_thread; by left|done].
    + intros [->|(p & u & [[= -> _ _]|?%not_elem_of_nil]%elem_of_cons)]; [by left|by right; left|done].
Defined.

(** The boot parameter took effect, CPU 1 idles with task 2, the run queues are
    free and on line as their CPUs are active. *)
Example cold_start_result :
  match sched_init (H := one_core false false) cold_start with
  | Some b =>
      match start_cpus (H := one_core false false) [second_idle] (b_machine b) with
      | Ok _ s => Some ((fun c => (fun r => (curr r, rq_lock r, online r)) <$> k_rqs s !! c) <$> [0; 1],
                        sched_schedstats (b_keys b), b_root_shares b)
      | _ => None
      end
  | None => None
  end = Some ([Some (1%positive, false, true); Some (2%positive, false, false)], true, 2 ^ 20).
Proof. vm_compute. reflexivity. Qed.
